(* ===== verification/_CoqProject ===== *)
-Q . S2P
Prelude.v
Errors.v
Models.v
Ifaces.v
Database.v
RateLimiter.v
TokenService.v
Permission.v
Repos.v
WorkerPool.v
Bulk.v
AuthService.v
Cache.v
Retry.v
CacheJobs.v
SpecializedPools.v
PermissionWarmer.v
Events.v
EventProducer.v
ErrorLogging.v
Breaker.v
Recovery.v
Interceptors.v
Grpc.v
GrpcAdmin.v
GrpcProps.v
Http.v
HttpHandlers.v
Router.v
HttpProps.v
Activity.v
ActivityProps.v
Seeder.v
SeederProps.v
KafkaLogger.v
Logging.v
Chain.v
Config.v
Lifecycle.v
Migrations.v
CacheLife.v
HashPool.v
Wiring.v
