(* ===== verification/Prelude.v ===== *)
(** * erp-auth-service: verification development

    The repository is the authentication service of an ERP system, written in
    Go: users log in and register, tokens are minted, validated, refreshed,
    revoked and rotated, permissions are checked against a hierarchy of
    role-granted permissions, and the outcome is cached, logged and published.
    This library models its components as executable definitions, one file per
    component, and proves what makes each of them correct.  This file holds
    what all of them share: the state-and-error monad of a Go call, computations
    with fuel, strings, machine integers, time, runs of a step relation and the
    common tactics.

    ** How the parts fit together

    A request enters through the gRPC server (or the HTTP router), passes the
    interceptors, and is served by a handler.  Handlers call the
    authentication, token and permission services; these work on repositories
    over the database, on a two-level cache (BigCache and Redis), and on
    worker pools.  Errors are structured values that drive retries, circuit
    breakers, recovery strategies and alerts.  Events leave through Kafka
    producers with a persistent queue behind them.

    Every component is a state with operations on it.  An operation that may
    fail is a function from the state to a result and the new state ([GoM]);
    nothing is rolled back when an error is returned, as in the code.  A
    component that calls another is written against a class of operations with
    a class of laws (Ifaces.v); the component behind it is shown to satisfy the
    laws, and larger states embed smaller ones by [zoom].  Components with
    goroutines are step relations or event semantics: an event is one atomic
    action, and statements hold for every interleaving.

    ** Files and sources (under src/internal)

    - Errors.v: errors/errors.go, and Go's [error] as a sum of the kinds of
      error the program makes.  Retry.v: errors/retry.go.  Breaker.v:
      errors/circuit_breaker.go and grpc/interceptors/circuit_breaker.go.
      ErrorLogging.v: errors/logging.go.  Recovery.v: errors/recovery.go and
      errors/handler.go.
    - Models.v: models/ and domain/entities/.  Database.v: the tables, the
      creation hooks and constraints of models/, and GORM.  Repos.v:
      infrastructure/repositories/, a Module per repository.
    - Ifaces.v: domain/interfaces/ and cache/types.go as classes.
    - RateLimiter.v, TokenService.v, Permission.v, AuthService.v, Bulk.v,
      WorkerPool.v, SpecializedPools.v, PermissionWarmer.v: the files of
      application/services/ of the same names.
    - Cache.v: cache/bigcache.go, redis_cache.go, manager.go, invalidator.go.
      CacheJobs.v: cache/warmer.go and the job table of invalidator.go.
      CacheLife.v: construction, registry, statistics, background loops and
      Close of the caches, and services/cache_adapter.go.
    - HashPool.v: the hashing pool of specialized_worker_pools.go over a worker
      pool, and the managers of the pools.  Wiring.v: the constructors of the
      services, the repository factory, and the cache warmer as a process.
    - Events.v: events/types.go, producer.go, persistent_queue.go and the
      building of events in enhanced_producer.go.  EventProducer.v: the queues
      and goroutines of enhanced_producer.go.
    - Interceptors.v: grpc/interceptors/rate_limiter.go, auth.go and
      middleware/auth.go.  Chain.v: logging.go, metrics.go and recovery.go of
      grpc/interceptors, and the chain of all six in the order of [Start].
    - Grpc.v, GrpcAdmin.v, GrpcProps.v: grpc/server.go: messages and the
      handlers over the services; the handlers over the database; what they
      guarantee.
    - Http.v, HttpHandlers.v, Router.v, HttpProps.v: utils/, handlers/ and
      router/: JSON bodies, validation and answers; the handlers; the table of
      routes with their middleware; what the HTTP interface guarantees.
    - Activity.v, ActivityProps.v: elasticsearch/, the two activity services of
      application/services/, events/activity_events.go and the two gRPC handlers
      that read activities.
    - Seeder.v, SeederProps.v: seeder/seeder.go.
    - KafkaLogger.v, Logging.v: logging/.
    - Config.v: config/config.go and what the gRPC server makes of it.
      Lifecycle.v: main.go and the start and shutdown of the gRPC server.
      Migrations.v: database/.

    ** What the theorems show

    - Sessions: a token is accepted only if it is signed, current, unrevoked
      and of a stored row; a revoked one stays refused; a key rotation keeps
      the last key valid for one more rotation; a password change ends every
      session (TokenService.v, AuthService.v).
    - Login: soundness, account lockout, the second factor, the brute-force
      limiter (AuthService.v, RateLimiter.v); over gRPC no user with a second
      factor can log in (Grpc.v).
    - Permissions: evaluation decides reachability in the hierarchy of what the
      roles grant and terminates on ranked hierarchies (Permission.v); a role
      withdrawn in the database grants nothing (Repos.v); cached decisions
      survive invalidation and every administrative request until they expire
      (Permission.v, GrpcProps.v).
    - Data: the repositories keep the tables well formed and refine the
      interfaces the services are proved against (Repos.v); handlers that write
      several rows are characterised on each branch, atomic or not
      (GrpcProps.v); bulk requests equal one sequential pass, and page flags
      are right within 32 bits (GrpcProps.v).
    - Caching: reads see the last write whatever runs in the background, and a
      completed delete is final (Cache.v); scheduled invalidations happen
      (CacheJobs.v); values stored through the JSON adapter are read back
      through it, the statistics count lookups of the levels, and what closing
      and stopping leave behind (CacheLife.v).
    - Concurrency: the pools neither lose nor repeat jobs and stop for good
      (WorkerPool.v, SpecializedPools.v); the hashing pool answers each request
      it took and its limiter never makes a worker wait (HashPool.v); a stopped
      permission warmer still finishes every task (Wiring.v); bulkheads bound
      concurrency
      (Recovery.v); producer queues stay within capacity and undeliverable
      events reach the dead-letter queue (EventProducer.v).
    - Failure handling: retries are bounded and end as specified, executions
      follow the state of their breaker, alerts respect their cool-down
      (Retry.v, Breaker.v, ErrorLogging.v).
    - Interceptors: what may pass the gRPC interceptor, and where it disagrees
      with the token service (Interceptors.v); a handler runs only behind all of
      them, and every call is answered and counted (Chain.v).
    - HTTP: who reaches a route and for which organization, registration as all
      or nothing, login and refresh, and the tables every request keeps well
      formed (HttpProps.v).
    - Activities: the listing handler against the interface both services
      implement, and the alert on repeated failures (ActivityProps.v).  A
      completed seeding leaves an administrator (SeederProps.v).
    - Operation: accepted log messages are written in order and once, up to the
      buffer that closing discards (KafkaLogger.v); migrations resume where they
      failed (Migrations.v); a signal stops the gRPC server but not the process
      (Lifecycle.v); the credentials of the source text are accepted (Config.v).

    ** Libraries as parameters

    Code outside the repository is never invented.  GORM with PostgreSQL,
    Redis (commands and pipelines), BigCache, the JWT library, bcrypt and TOTP,
    the UUID, JSON and protobuf libraries, gobreaker, Kafka writes, the file
    system and [path.Match]-style globbing are classes of operations with
    classes of documented laws.  Each class of laws that a theorem uses has a
    reference instance, on which the witnesses run.  Log lines, Prometheus
    metrics and tracing are left out unless the code reads them back.

    ** Bounds, fuel and integers

    Time is in nanoseconds as [Z]; an operation reads the clock once and takes
    the reading as an argument.  [int] and [int32] counters wrap ([wrap64],
    [wrap32]).  The recursion over permission hierarchies runs on fuel: a
    hierarchy whose ranks are below the fuel never exhausts it
    ([evaluatePermission_decides]) and a cyclic one exhausts any fuel.  The
    recursive SQL query runs one round more than there are rows, after which
    only a cycle can continue.  Batch loops take the length of their input as
    fuel, one unit per batch of at least one item, and are proved equal to
    their structural meaning.  The retry loop runs on the attempts left.

    ** Not modelled

    The rendering of log lines by logrus and zap, of errors as JSON, and stack
    traces; the table names and the SQL encoding of organization settings; the
    Prometheus collectors of the caches and pools beyond what the code reads
    back; pool sizes and statistics of database connections; the set-up of the
    Redis client and of CORS, whose outcomes are arguments; the transfer
    objects of application/dto that no code uses; helpers of grpc/server.go
    that nothing calls (generateTokens, serializeUser, deserializeUser); and
    the code generated from the protocol buffers. *)

From Stdlib Require Export String Ascii ZArith Lia Bool.
From Stdlib Require Export DecimalString DecimalZ.
From stdpp Require Export base gmap strings list fin_maps option.
From stdpp Require Export list_basics list_relations list_monad.

#[global] Open Scope string_scope.
#[global] Open Scope list_scope.
#[global] Open Scope Z_scope.

(** ** Results and the state-and-error monad of a Go call

    A Go function that returns [(T, error)] and works on shared state is
    a function from the state to a result and the new state.  The state is
    kept when an error is returned: nothing is rolled back. *)

Inductive res (E A : Type) : Type :=
| Ok (a : A)
| Err (e : E).
Arguments Ok {E A} a.
Arguments Err {E A} e.

Definition is_ok {E A} (r : res E A) : bool :=
  match r with Ok _ => true | Err _ => false end.

Definition res_map {E A B} (f : A → B) (r : res E A) : res E B :=
  match r with Ok a => Ok (f a) | Err e => Err e end.

Definition res_map_err {E F A} (f : E → F) (r : res E A) : res F A :=
  match r with Ok a => Ok a | Err e => Err (f e) end.

Definition GoM (E W A : Type) : Type := W → res E A * W.

Definition ret {E W A} (a : A) : GoM E W A := λ w, (Ok a, w).
Definition fail {E W A} (e : E) : GoM E W A := λ w, (Err e, w).
Definition bind {E W A B} (m : GoM E W A) (k : A → GoM E W B) : GoM E W B :=
  λ w, match m w with
       | (Ok a, w') => k a w'
       | (Err e, w') => (Err e, w')
       end.
(** [attempt m] runs [m] and hands its outcome to the caller, which
    decides: this is [x, err := m()]. *)
Definition attempt {E F W A} (m : GoM E W A) : GoM F W (res E A) :=
  λ w, let (r, w') := m w in (Ok r, w').
(** [wrap_err f m] is [if err != nil { return f(err) }]. *)
Definition wrap_err {E F W A} (f : E → F) (m : GoM E W A) : GoM F W A :=
  λ w, let (r, w') := m w in (res_map_err f r, w').
Definition lift_res {E W A} (r : res E A) : GoM E W A := λ w, (r, w).
Definition gets {E W A} (f : W → A) : GoM E W A := λ w, (Ok (f w), w).
Definition modify {E W} (f : W → W) : GoM E W unit := λ w, (Ok tt, f w).

Declare Scope go_scope.
Delimit Scope go_scope with go.
Notation "'let*' x ':=' m 'in' k" := (bind m (λ x, k))
  (at level 10, x pattern, m at level 100, k at level 200,
   format "'[v' 'let*'  x  ':='  m  'in' '/' k ']'") : go_scope.
Notation "m ';;;' k" := (bind m (λ _, k))
  (at level 100, right associativity) : go_scope.
#[global] Open Scope go_scope.

Section monad_laws.
Context {E W A B C : Type}.

Lemma bind_ret_l (a : A) (k : A → GoM E W B) w : bind (ret a) k w = k a w.
Proof. reflexivity. Qed.

Lemma bind_assoc (m : GoM E W A) (k : A → GoM E W B) (h : B → GoM E W C) w :
  bind (bind m k) h w = bind m (λ a, bind (k a) h) w.
Proof. unfold bind. destruct (m w) as [[a|e] w']; reflexivity. Qed.

Lemma bind_ok_inv (m : GoM E W A) (k : A → GoM E W B) w b w' :
  bind m k w = (Ok b, w') →
  ∃ a w1, m w = (Ok a, w1) ∧ k a w1 = (Ok b, w').
Proof.
  unfold bind. destruct (m w) as [[a|e] w1]; intros H; [eauto | discriminate].
Qed.

Lemma bind_step (m : GoM E W A) (k : A → GoM E W B) w a w1 :
  m w = (Ok a, w1) → bind m k w = k a w1.
Proof. unfold bind. by intros ->. Qed.

Lemma bind_err (m : GoM E W A) (k : A → GoM E W B) w e w1 :
  m w = (Err e, w1) → bind m k w = (Err e, w1).
Proof. unfold bind. by intros ->. Qed.
End monad_laws.

(** Iteration over a Go slice: the loop stops at the first error. *)
Fixpoint for_each {E W A} (f : A → GoM E W unit) (l : list A) : GoM E W unit :=
  match l with
  | [] => ret tt
  | x :: l' => f x ;;; for_each f l'
  end.

(** ** Computations with fuel

    Recursion that the types do not bound runs on fuel.  [Err None] says the
    call did not return: the fuel ran out or the code panicked; [Err (Some e)]
    is the Go error [e].  [attemptF] runs a computation that returns and hands
    its error to the caller. *)
Definition liftF {E W A} (m : GoM E W A) : GoM (option E) W A := wrap_err Some m.
Definition outOfFuel {E W A} : GoM (option E) W A := fail None.
Definition panics {E W A} : GoM (option E) W A := fail None.
Definition attemptF {E W A} (m : GoM E W A) : GoM (option E) W (res E A) :=
  λ w, let (r, w') := m w in (Ok r, w').
(** [catch] hands a Go error to the caller; a call that does not return still
    does not. *)
Definition catch {E W A} (m : GoM (option E) W A) : GoM (option E) W (res E A) :=
  λ w, match m w with
       | (Ok a, w') => (Ok (Ok a), w')
       | (Err (Some e), w') => (Ok (Err e), w')
       | (Err None, w') => (Err None, w')
       end.
Definition returns {E A} (r : res (option E) A) : bool :=
  match r with Err None => false | _ => true end.

(** ** Strings as Go uses them

    A Go string is a byte sequence; [string] is a sequence of 8-bit
    characters.  Slicing is [str_take]/[str_drop]; the callers' guards keep
    the bounds in range, where Go would panic otherwise. *)

#[global] Arguments String.append : simpl nomatch.

Fixpoint str_take (n : nat) (s : string) : string :=
  match n, s with
  | O, _ => ""
  | S _, EmptyString => ""
  | S n', String a s' => String a (str_take n' s')
  end.

Fixpoint str_drop (n : nat) (s : string) : string :=
  match n, s with
  | O, _ => s
  | S _, EmptyString => ""
  | S n', String _ s' => str_drop n' s'
  end.

Definition str_len (s : string) : nat := String.length s.

(** [strings.HasPrefix], [HasSuffix], [TrimPrefix], [TrimSuffix]. *)
Definition HasPrefix (s p : string) : bool :=
  (str_len p <=? str_len s)%nat && String.eqb (str_take (str_len p) s) p.
Definition HasSuffix (s p : string) : bool :=
  (str_len p <=? str_len s)%nat && String.eqb (str_drop (str_len s - str_len p) s) p.
Definition TrimPrefix (s p : string) : string :=
  if HasPrefix s p then str_drop (str_len p) s else s.
Definition TrimSuffix (s p : string) : string :=
  if HasSuffix s p then str_take (str_len s - str_len p) s else s.

(** [strings.Contains]: some offset of [s] starts with [p]. *)
Fixpoint Contains (s p : string) : bool :=
  HasPrefix s p || match s with EmptyString => false | String _ s' => Contains s' p end.

(** [strings.ToUpper] on ASCII text. *)
Definition upper_ascii (a : ascii) : ascii :=
  let n := N_of_ascii a in
  if (97 <=? n)%N && (n <=? 122)%N then ascii_of_N (n - 32) else a.
Fixpoint ToUpper (s : string) : string :=
  match s with EmptyString => "" | String a s' => String (upper_ascii a) (ToUpper s') end.
(** [strings.ToLower] on ASCII text. *)
Definition lower_ascii (a : ascii) : ascii :=
  let n := N_of_ascii a in
  if (65 <=? n)%N && (n <=? 90)%N then ascii_of_N (n + 32) else a.
Fixpoint ToLower (s : string) : string :=
  match s with EmptyString => "" | String a s' => String (lower_ascii a) (ToLower s') end.

(** [strings.Split(s, sep)] for a one-character separator. *)
Fixpoint Split (s : string) (sep : ascii) : list string :=
  match s with
  | EmptyString => [""]
  | String a s' =>
      if Ascii.eqb a sep then "" :: Split s' sep
      else match Split s' sep with
           | [] => [String a ""]
           | h :: t => String a h :: t
           end
  end.

Lemma str_len_app s t : str_len (s +:+ t) = (str_len s + str_len t)%nat.
Proof. unfold str_len. induction s; simpl; [done | by f_equal]. Qed.

Lemma str_app_assoc (s t u : string) : (s +:+ t) +:+ u = s +:+ (t +:+ u).
Proof. induction s; simpl; [done | by f_equal]. Qed.

Lemma str_app_nil_r (s : string) : s +:+ "" = s.
Proof. induction s; simpl; [done | by f_equal]. Qed.

Lemma str_take_drop n s : str_take n s +:+ str_drop n s = s.
Proof. revert s; induction n; intros [|a s]; simpl; try done. by f_equal. Qed.

Lemma str_take_app s t : str_take (str_len s) (s +:+ t) = s.
Proof. unfold str_len. induction s; simpl; [by destruct t | by f_equal]. Qed.

Lemma str_drop_app s t : str_drop (str_len s) (s +:+ t) = t.
Proof. unfold str_len. induction s; simpl; [by destruct t | done]. Qed.

Lemma str_len_take n s : (n <= str_len s)%nat → str_len (str_take n s) = n.
Proof.
  revert s; induction n; intros [|a s] H; unfold str_len in *; simpl in *; try lia.
  rewrite IHn; lia.
Qed.

Lemma str_len_drop n s : str_len (str_drop n s) = (str_len s - n)%nat.
Proof. revert s; induction n; intros [|a s]; unfold str_len in *; simpl; auto. Qed.

Lemma str_take_all n s : (str_len s <= n)%nat → str_take n s = s.
Proof.
  revert s; induction n; intros [|a s] H; unfold str_len in *; simpl in *; try done; [lia|].
  f_equal. apply IHn. lia.
Qed.

Lemma str_app_inj_l (p s t : string) : p +:+ s = p +:+ t → s = t.
Proof. induction p; simpl; intros H; [done | injection H; auto]. Qed.

Lemma str_app_inj_len (p q s t : string) :
  str_len p = str_len q → p +:+ s = q +:+ t → p = q ∧ s = t.
Proof.
  revert q; induction p; intros [|b q] Hl He; unfold str_len in *; simpl in *; try lia; [done|].
  injection He as -> He. destruct (IHp q) as [-> ->]; [lia | done | done].
Qed.

Lemma HasPrefix_spec s p : HasPrefix s p = true ↔ ∃ r, s = p +:+ r.
Proof.
  unfold HasPrefix. rewrite andb_true_iff, Nat.leb_le, String.eqb_eq. split.
  - intros [_ H]. exists (str_drop (str_len p) s). rewrite <- H at 1. by rewrite str_take_drop.
  - intros [r ->]. rewrite str_len_app, str_take_app. split; [lia | done].
Qed.

Lemma HasSuffix_spec s p : HasSuffix s p = true ↔ ∃ r, s = r +:+ p.
Proof.
  unfold HasSuffix. rewrite andb_true_iff, Nat.leb_le, String.eqb_eq. split.
  - intros [_ H]. exists (str_take (str_len s - str_len p) s). rewrite <- H at 2.
    by rewrite str_take_drop.
  - intros [r ->]. rewrite str_len_app. split; [lia|].
    replace (str_len r + str_len p - str_len p)%nat with (str_len r) by lia.
    apply str_drop_app.
Qed.

Lemma TrimPrefix_app p r : TrimPrefix (p +:+ r) p = r.
Proof.
  unfold TrimPrefix.
  replace (HasPrefix (p +:+ r) p) with true by (symmetry; apply HasPrefix_spec; eauto).
  apply str_drop_app.
Qed.

Lemma TrimSuffix_app r p : TrimSuffix (r +:+ p) p = r.
Proof.
  unfold TrimSuffix.
  replace (HasSuffix (r +:+ p) p) with true by (symmetry; apply HasSuffix_spec; eauto).
  rewrite str_len_app. replace (str_len r + str_len p - str_len p)%nat with (str_len r) by lia.
  apply str_take_app.
Qed.

Lemma Contains_spec s p : Contains s p = true ↔ ∃ u v, s = u +:+ p +:+ v.
Proof.
  induction s as [|a s IH]; simpl; rewrite orb_true_iff, HasPrefix_spec.
  - split.
    + intros [[r H]|H]; [|done]. exists "", r. done.
    + intros (u & v & H). left. destruct u; [by exists v | done].
  - rewrite IH. split.
    + intros [[r H]|(u & v & ->)]; [by exists "", r | by exists (String a u), v].
    + intros ([|b u] & v & H); simpl in H; [left; eauto|].
      injection H as -> ->. right; eauto.
Qed.

Lemma str_inhabited_neq_prefix p a r : p ≠ p +:+ String a r.
Proof. induction p; simpl; [done | congruence]. Qed.

(** [strconv.Itoa] and [strconv.Atoi] on 64-bit [int]: decimal digits with
    an optional sign; a value outside the range is an error. *)
Definition min_int : Z := - 2 ^ 63.
Definition max_int : Z := 2 ^ 63 - 1.
Definition wrap64 (z : Z) : Z := (z + 2 ^ 63) mod 2 ^ 64 - 2 ^ 63.

Lemma wrap64_small z : min_int ≤ z ≤ max_int → wrap64 z = z.
Proof. unfold wrap64, min_int, max_int. intros. rewrite Z.mod_small; lia. Qed.
Lemma wrap64_add a b : wrap64 (wrap64 a + b) = wrap64 (a + b).
Proof.
  unfold wrap64. f_equal.
  replace ((a + 2 ^ 63) mod 2 ^ 64 - 2 ^ 63 + b + 2 ^ 63) with ((a + 2 ^ 63) mod 2 ^ 64 + b) by lia.
  rewrite Zplus_mod_idemp_l. f_equal. lia.
Qed.

Definition Itoa (z : Z) : string := NilZero.string_of_int (Z.to_int z).

Definition Atoi (s : string) : option Z :=
  let parsed : option Decimal.int :=
    if HasPrefix s "+" then
      if HasPrefix (str_drop 1 s) "-" then None
      else NilZero.int_of_string (str_drop 1 s)
    else NilZero.int_of_string s in
  match parsed with
  | Some d =>
      let z := Z.of_int d in
      if (min_int <=? z)%Z && (z <=? max_int)%Z then Some z else None
  | None => None
  end.

Lemma Itoa_not_plus z : HasPrefix (Itoa z) "+" = false.
Proof.
  unfold Itoa, NilZero.string_of_int.
  destruct (Z.to_int z) as [d|d]; [destruct d; reflexivity | reflexivity].
Qed.

Lemma int_of_Itoa z : NilZero.int_of_string (Itoa z) = Some (Z.to_int z).
Proof.
  unfold Itoa. apply NilZero.isi; destruct z; simpl; try done;
    intros [=H]; by apply (DecimalPos.Unsigned.to_uint_nonnil p).
Qed.

Lemma Atoi_Itoa z : min_int ≤ z ≤ max_int → Atoi (Itoa z) = Some z.
Proof.
  intros [Hl Hh]. unfold Atoi. rewrite Itoa_not_plus, int_of_Itoa, DecimalZ.of_to.
  apply Z.leb_le in Hl, Hh. by rewrite Hl, Hh.
Qed.

Lemma Itoa_inj z1 z2 : Itoa z1 = Itoa z2 → z1 = z2.
Proof.
  intros H. assert (Some (Z.to_int z1) = Some (Z.to_int z2)) as [=He]
    by (by rewrite <- !int_of_Itoa, H).
  rewrite <- (DecimalZ.of_to z1), <- (DecimalZ.of_to z2). by f_equal.
Qed.

(** ** Lists *)
Lemma omap_fmap_some {A B C} (f : A → B) (g : B → option C) (h : A → C) (l : list A) :
  (∀ x, x ∈ l → g (f x) = Some (h x)) → omap g (f <$> l : list B) = h <$> l.
Proof.
  induction l as [|x l IH]; intros Hl; [done|]. simpl. rewrite (Hl x ltac:(left)). f_equal.
  apply IH. intros y Hy. apply Hl. by right.
Qed.

Lemma filter_none {A} (P : A → Prop) `{∀ x, Decision (P x)} (l : list A) :
  (∀ x, x ∈ l → ¬ P x) → filter P l = [].
Proof.
  induction l as [|x l IH]; intros Hl; [done|].
  rewrite filter_cons_False by (apply Hl; left). apply IH. intros y Hy. apply Hl. by right.
Qed.

(** ** Time

    [time.Time] and [time.Duration] are nanosecond counts in [Z]; a
    [*time.Time] that may be nil is an [option]. *)
Definition Millisecond : Z := 1000000.
Definition Second : Z := 1000 * Millisecond.
Definition Minute : Z := 60 * Second.
Definition Hour : Z := 60 * Minute.
(** The zero [time.Time] is the first of January of year 1. *)
Definition zero_time : Z := -62135596800 * Second.
Definition Before (a b : Z) : bool := (a <? b)%Z.
Definition After (a b : Z) : bool := (b <? a)%Z.

(** UUIDs are opaque identifiers; [uuid.Nil] is 0. *)
Abbreviation uuid := N (only parsing).
Definition uuid_Nil : N := 0%N.

(** ** Shared tactics and hints *)

Create HintDb go.
Create Rewrite HintDb go.

(** [go_inv] opens the successful runs of [bind] chains in the hypotheses. *)
Ltac go_inv :=
  repeat match goal with
  | H : bind _ _ _ = (Ok _, _) |- _ =>
      let a := fresh "a" in let w := fresh "w" in
      let H1 := fresh "Hrun" in
      apply bind_ok_inv in H as (a & w & H1 & H)
  | H : ret _ _ = (Ok _, _) |- _ => unfold ret in H; simplify_eq
  | H : fail _ _ = (Ok _, _) |- _ => discriminate H
  | H : (Ok _, _) = (Ok _, _) |- _ => injection H as H; simplify_eq
  | H : (Err _, _) = (Ok _, _) |- _ => discriminate H
  | H : (Ok _, _) = (Err _, _) |- _ => discriminate H
  end.

(** [case_goal] destructs the scrutinee of the first [match] or [if] of the
    goal, keeping its equation; [case_hyp H] does so in a hypothesis. *)
Ltac case_goal :=
  match goal with
  | |- context [match ?x with _ => _ end] =>
      lazymatch x with
      | context [match _ with _ => _ end] => fail
      | _ => let E := fresh "E" in destruct x eqn:E
      end
  end.
Ltac case_hyp H :=
  match type of H with
  | context [match ?x with _ => _ end] =>
      lazymatch x with
      | context [match _ with _ => _ end] => fail
      | _ => let E := fresh "E" in destruct x eqn:E
      end
  end.

(** A finished run, split into its outcome and its state. *)
Lemma run_split {E W A} (m : res E A * W) a : m.1 = Ok a → m = (Ok a, m.2).
Proof. destruct m; simpl. by intros ->. Qed.
Lemma run_ok {E W A} (m : res E A * W) : is_ok m.1 = true → ∃ a, m = (Ok a, m.2).
Proof. destruct m as [[a|e] w]; [by exists a | done]. Qed.

(** [vm_refl] proves an equation between closed terms by running them. *)
Ltac vm_refl := match goal with |- _ = ?y => vm_cast_no_check (eq_refl y) end.

(** Symbolic execution of the monad: each rule runs one construct. *)
Section execution.
Context {E F W A B : Type}.

Lemma bind_attempt (m : GoM E W A) (k : res E A → GoM F W B) w :
  bind (attempt m) k w = k (m w).1 (m w).2.
Proof. unfold bind, attempt. by destruct (m w). Qed.
Lemma bind_attemptF (m : GoM F W A) (k : res F A → GoM (option F) W B) w :
  bind (attemptF m) k w = k (m w).1 (m w).2.
Proof. unfold bind, attemptF. by destruct (m w). Qed.
Lemma bind_modify (f : W → W) (k : unit → GoM E W B) w :
  bind (modify f) k w = k tt (f w).
Proof. done. Qed.
Lemma bind_gets (f : W → A) (k : A → GoM E W B) w : bind (gets f) k w = k (f w) w.
Proof. done. Qed.
Lemma bind_lift (r : res E A) (k : A → GoM E W B) w :
  bind (lift_res r) k w = match r with Ok a => k a w | Err e => (Err e, w) end.
Proof. unfold bind, lift_res. by destruct r. Qed.
Lemma bind_fail (e : E) (k : A → GoM E W B) w : bind (fail e) k w = (Err e, w).
Proof. done. Qed.
Lemma bind_wrap_err (f : F → E) (m : GoM F W A) (k : A → GoM E W B) w :
  bind (wrap_err f m) k w =
  match m w with (Ok a, w') => k a w' | (Err e, w') => (Err (f e), w') end.
Proof. unfold bind, wrap_err. by destruct (m w) as [[a|e] w']. Qed.
Lemma wrap_err_lift (f : F → E) (r : res F A) (w : W) :
  wrap_err f (lift_res r) w = (res_map_err f r, w).
Proof. done. Qed.
Lemma wrap_err_ok (f : F → E) (m : GoM F W A) w a w' :
  wrap_err f m w = (Ok a, w') ↔ m w = (Ok a, w').
Proof. unfold wrap_err. destruct (m w) as [[?|?] ?]; simpl; naive_solver. Qed.
Lemma wrap_err_state (f : F → E) (m : GoM F W A) w : (wrap_err f m w).2 = (m w).2.
Proof. unfold wrap_err. by destruct (m w). Qed.
End execution.

#[export] Hint Rewrite @bind_attempt @bind_attemptF @bind_modify @bind_gets @bind_lift @bind_fail
  @bind_ret_l @wrap_err_lift : go.

(** An invariant of the state is kept by a computation when every branch
    keeps it. *)
Definition preserves {E W A} (I : W → Prop) (m : GoM E W A) : Prop :=
  ∀ w, I w → I (m w).2.

Section preserves.
Context {E F W : Type} (I : W → Prop).

Lemma preserves_ret {A} (a : A) : preserves I (ret (E:=E) a).
Proof. by intros w Hw. Qed.
Lemma preserves_fail {A} (e : E) : preserves I (fail (A:=A) e).
Proof. by intros w Hw. Qed.
Lemma preserves_lift {A} (r : res E A) : preserves I (lift_res r).
Proof. by intros w Hw. Qed.
Lemma preserves_gets {A} (f : W → A) : preserves I (gets (E:=E) f).
Proof. by intros w Hw. Qed.
Lemma preserves_modify (f : W → W) : (∀ w, I w → I (f w)) → preserves I (modify (E:=E) f).
Proof. by intros Hf w Hw; apply Hf. Qed.
Lemma preserves_bind {A B} (m : GoM E W A) (k : A → GoM E W B) :
  preserves I m → (∀ a, preserves I (k a)) → preserves I (bind m k).
Proof.
  intros Hm Hk w Hw. specialize (Hm w Hw). unfold bind.
  destruct (m w) as [[a|e] w']; [by apply Hk | done].
Qed.
Lemma preserves_attempt {A} (m : GoM E W A) : preserves I m → preserves I (attempt (F:=F) m).
Proof. intros Hm w Hw. specialize (Hm w Hw). unfold attempt. by destruct (m w). Qed.
Lemma preserves_attemptF {A} (m : GoM E W A) : preserves I m → preserves I (attemptF m).
Proof. intros Hm w Hw. specialize (Hm w Hw). unfold attemptF. by destruct (m w). Qed.
Lemma preserves_catch {A} (m : GoM (option E) W A) : preserves I m → preserves I (catch m).
Proof. intros Hm w Hw. specialize (Hm w Hw). unfold catch. by destruct (m w) as [[a|[e|]] w']. Qed.
Lemma preserves_liftF {A} (m : GoM E W A) : preserves I m → preserves I (liftF m).
Proof.
  intros Hm w Hw. specialize (Hm w Hw). unfold liftF. rewrite wrap_err_state. exact Hm.
Qed.
Lemma preserves_wrap_err {A} (f : E → F) (m : GoM E W A) :
  preserves I m → preserves I (wrap_err f m).
Proof. intros Hm w Hw. rewrite wrap_err_state. by apply Hm. Qed.
Lemma preserves_for_each {A} (f : A → GoM E W unit) l :
  (∀ x, x ∈ l → preserves I (f x)) → preserves I (for_each f l).
Proof.
  induction l as [|x l IH]; intros Hf; [apply preserves_ret|].
  apply preserves_bind; [apply Hf; left|].
  intros _. apply IH. intros y Hy. apply Hf. by right.
Qed.
End preserves.

#[export] Hint Resolve preserves_ret preserves_fail preserves_lift preserves_gets
  preserves_bind preserves_attempt preserves_wrap_err preserves_for_each : go.

(** [preserve] walks the structure of a computation, leaving the leaves. *)
Ltac preserve :=
  repeat lazymatch goal with
  | |- preserves _ (ret _) => apply preserves_ret
  | |- preserves _ (fail _) => apply preserves_fail
  | |- preserves _ (lift_res _) => apply preserves_lift
  | |- preserves _ (gets _) => apply preserves_gets
  | |- preserves _ (attempt _) => apply preserves_attempt
  | |- preserves _ (attemptF _) => apply preserves_attemptF
  | |- preserves _ (liftF _) => apply preserves_liftF
  | |- preserves _ (catch _) => apply preserves_catch
  | |- preserves _ (wrap_err _ _) => apply preserves_wrap_err
  | |- preserves _ (bind _ _) => apply preserves_bind; [| intros ?]
  | |- preserves _ (for_each _ _) => apply preserves_for_each; intros ? ?
  | |- preserves _ (match _ with _ => _ end) => case_goal
  | |- preserves _ (let _ := _ in _) => cbv zeta
  end.

(** ** Runs of a step relation *)
Section star.
Context {S : Type} (step : S → S → Prop).

Inductive star : S → S → Prop :=
| star_refl s : star s s
| star_snoc s1 s2 s3 : star s1 s2 → step s2 s3 → star s1 s3.

(** A predicate that holds initially and is kept by every step holds of
    every reachable state. *)
Lemma star_invariant (I : S → Prop) s s' :
  (∀ a b, I a → step a b → I b) → I s → star s s' → I s'.
Proof. intros Hstep Hs Hstar. induction Hstar; eauto. Qed.

Lemma star_trans s1 s2 s3 : star s1 s2 → star s2 s3 → star s1 s3.
Proof. intros H1 H2. induction H2; eauto using star. Qed.
End star.
