(* ===== verification/Errors.v ===== *)
(** * Structured errors (src/internal/errors/errors.go) and Go's [error]

    [error] is the value of Go's [error] interface as this program produces
    it.  [AuthErrorF] is the struct [AuthError], open in the type of its
    [Cause].  The builder [ErrorBuilder] is a pointer to the error under
    construction; its fluent calls are functions on that value. *)

From S2P Require Import Prelude.

(** Sentinel errors of packages outside the repository that the program
    compares with [==]. *)
Inductive lib_sentinel :=
| redis_Nil
| bigcache_ErrEntryNotFound
| gorm_ErrRecordNotFound
| gobreaker_ErrOpenState
| gobreaker_ErrTooManyRequests
| context_Canceled
| context_DeadlineExceeded.

#[export] Instance lib_sentinel_eq_dec : EqDecision lib_sentinel.
Proof. solve_decision. Defined.

(** [ErrorCode int32]. *)
Definition ErrorCode := Z.
Definition ErrorCodeOK : ErrorCode := 0.
Definition ErrorCodeCancelled : ErrorCode := 1.
Definition ErrorCodeUnknown : ErrorCode := 2.
Definition ErrorCodeInvalidArgument : ErrorCode := 3.
Definition ErrorCodeDeadlineExceeded : ErrorCode := 4.
Definition ErrorCodeNotFound : ErrorCode := 5.
Definition ErrorCodeAlreadyExists : ErrorCode := 6.
Definition ErrorCodePermissionDenied : ErrorCode := 7.
Definition ErrorCodeResourceExhausted : ErrorCode := 8.
Definition ErrorCodeFailedPrecondition : ErrorCode := 9.
Definition ErrorCodeAborted : ErrorCode := 10.
Definition ErrorCodeOutOfRange : ErrorCode := 11.
Definition ErrorCodeUnimplemented : ErrorCode := 12.
Definition ErrorCodeInternal : ErrorCode := 13.
Definition ErrorCodeUnavailable : ErrorCode := 14.
Definition ErrorCodeDataLoss : ErrorCode := 15.
Definition ErrorCodeUnauthenticated : ErrorCode := 16.
Definition ErrorCodeInvalidCredentials : ErrorCode := 1000.
Definition ErrorCodeTokenExpired : ErrorCode := 1001.
Definition ErrorCodeTokenInvalid : ErrorCode := 1002.
Definition ErrorCodeUserNotFound : ErrorCode := 1003.
Definition ErrorCodeUserAlreadyExists : ErrorCode := 1004.
Definition ErrorCodeOrganizationNotFound : ErrorCode := 1005.
Definition ErrorCodePermissionNotFound : ErrorCode := 1006.
Definition ErrorCodeRoleNotFound : ErrorCode := 1007.
Definition ErrorCodePasswordTooWeak : ErrorCode := 1008.
Definition ErrorCodeAccountLocked : ErrorCode := 1009.
Definition ErrorCodeTwoFactorRequired : ErrorCode := 1010.
Definition ErrorCodeInvalidTwoFactorCode : ErrorCode := 1011.
Definition ErrorCodeRateLimitExceeded : ErrorCode := 1012.
Definition ErrorCodeDatabaseError : ErrorCode := 1013.
Definition ErrorCodeCacheError : ErrorCode := 1014.
Definition ErrorCodeEventPublishError : ErrorCode := 1015.
Definition ErrorCodeCircuitBreakerOpen : ErrorCode := 1016.
Definition ErrorCodeRetryExhausted : ErrorCode := 1017.

(** [ErrorSeverity] and [ErrorCategory]; the last constructor of each is
    the zero value [""] of the string type. *)
Inductive ErrorSeverity :=
| SeverityInfo | SeverityWarning | SeverityError | SeverityCritical | SeverityUnset.
Inductive ErrorCategory :=
| CategoryAuthentication | CategoryAuthorization | CategoryValidation
| CategoryDatabase | CategoryCache | CategoryNetwork | CategoryInternal
| CategoryExternal | CategoryRateLimit | CategoryCircuitBreaker | CategoryUnset.

(** The dynamic values the program stores in [Metadata] and [Details]. *)
Inductive meta := MStr (s : string) | MInt (z : Z) | MBool (b : bool).

Record StackFrame := mkStackFrame {
  sf_Function : string; sf_File : string; sf_Line : Z }.

Record AuthErrorF (E : Type) := mkAuthError {
  ae_Code : ErrorCode;
  ae_Message : string;
  ae_Details : option meta;
  ae_TraceID : string;
  ae_RequestID : string;
  ae_UserID : string;
  ae_Timestamp : Z;
  ae_Category : ErrorCategory;
  ae_Severity : ErrorSeverity;
  ae_Retryable : bool;
  ae_Stack : list StackFrame;
  ae_Cause : option E;
  ae_Metadata : gmap string meta }.
Arguments mkAuthError {E}.
Arguments ae_Code {E}. Arguments ae_Message {E}. Arguments ae_Details {E}.
Arguments ae_TraceID {E}. Arguments ae_RequestID {E}. Arguments ae_UserID {E}.
Arguments ae_Timestamp {E}. Arguments ae_Category {E}. Arguments ae_Severity {E}.
Arguments ae_Retryable {E}. Arguments ae_Stack {E}. Arguments ae_Cause {E}.
Arguments ae_Metadata {E}.

(** [google.golang.org/grpc/codes]. *)
Inductive code :=
| OK | Canceled | Unknown | InvalidArgument | DeadlineExceeded | NotFound
| AlreadyExists | PermissionDenied | ResourceExhausted | FailedPrecondition
| Aborted | OutOfRange | Unimplemented | Internal | Unavailable | DataLoss
| Unauthenticated.

(** [codes.Code.String()]. *)
Definition code_String (c : code) : string :=
  match c with
  | OK => "OK" | Canceled => "Canceled" | Unknown => "Unknown" | InvalidArgument => "InvalidArgument"
  | DeadlineExceeded => "DeadlineExceeded" | NotFound => "NotFound" | AlreadyExists => "AlreadyExists"
  | PermissionDenied => "PermissionDenied" | ResourceExhausted => "ResourceExhausted"
  | FailedPrecondition => "FailedPrecondition" | Aborted => "Aborted" | OutOfRange => "OutOfRange"
  | Unimplemented => "Unimplemented" | Internal => "Internal" | Unavailable => "Unavailable"
  | DataLoss => "DataLoss" | Unauthenticated => "Unauthenticated"
  end.

Inductive error : Type :=
| ErrorString (msg : string)
    (** [errors.New], [fmt.Errorf] without [%w], or an error of outside code,
        known by its text *)
| ErrorWrap (msg : string) (cause : error)     (** [fmt.Errorf("msg: %w", cause)] *)
| ErrorLib (l : lib_sentinel) (text : string)
| ErrorCache (code message : string) (cause : option error)   (** [*cache.CacheError] *)
| ErrorStatus (c : code) (desc : string)       (** [status.Error(c, desc)] *)
| ErrorAuth (a : AuthErrorF error).

Abbreviation AuthError := (AuthErrorF error).
Abbreviation M := (GoM error).

(** [err.Error()]. *)
Fixpoint Error (e : error) : string :=
  match e with
  | ErrorString m => m
  | ErrorWrap m c => m +:+ ": " +:+ Error c
  | ErrorLib _ t => t
  | ErrorCache _ m (Some c) => m +:+ ": " +:+ Error c
  | ErrorCache _ m None => m
  | ErrorStatus c m => "rpc error: code = " +:+ code_String c +:+ " desc = " +:+ m
  | ErrorAuth a =>
      match ae_Cause a with
      | Some c => "[" +:+ Itoa (ae_Code a) +:+ "] " +:+ ae_Message a +:+ ": " +:+ Error c
      | None => "[" +:+ Itoa (ae_Code a) +:+ "] " +:+ ae_Message a
      end
  end.

Definition AuthError_Unwrap (a : AuthError) : option error := ae_Cause a.

Definition is_sentinel (l : lib_sentinel) (e : error) : bool :=
  match e with ErrorLib l' _ => bool_decide (l = l') | _ => false end.

(** ** gRPC status *)

Definition code_num (c : code) : Z :=
  match c with
  | OK => 0 | Canceled => 1 | Unknown => 2 | InvalidArgument => 3
  | DeadlineExceeded => 4 | NotFound => 5 | AlreadyExists => 6
  | PermissionDenied => 7 | ResourceExhausted => 8 | FailedPrecondition => 9
  | Aborted => 10 | OutOfRange => 11 | Unimplemented => 12 | Internal => 13
  | Unavailable => 14 | DataLoss => 15 | Unauthenticated => 16
  end.

Definition code_in (c : ErrorCode) (l : list ErrorCode) : bool :=
  existsb (Z.eqb c) l.

Definition toGRPCCode (a : AuthError) : code :=
  let c := ae_Code a in
  if code_in c [ErrorCodeOK] then OK
  else if code_in c [ErrorCodeCancelled] then Canceled
  else if code_in c [ErrorCodeUnknown] then Unknown
  else if code_in c [ErrorCodeInvalidArgument] then InvalidArgument
  else if code_in c [ErrorCodeDeadlineExceeded] then DeadlineExceeded
  else if code_in c [ErrorCodeNotFound; ErrorCodeUserNotFound; ErrorCodeOrganizationNotFound]
  then NotFound
  else if code_in c [ErrorCodeAlreadyExists; ErrorCodeUserAlreadyExists] then AlreadyExists
  else if code_in c [ErrorCodePermissionDenied] then PermissionDenied
  else if code_in c [ErrorCodeResourceExhausted; ErrorCodeRateLimitExceeded]
  then ResourceExhausted
  else if code_in c [ErrorCodeFailedPrecondition] then FailedPrecondition
  else if code_in c [ErrorCodeAborted] then Aborted
  else if code_in c [ErrorCodeOutOfRange] then OutOfRange
  else if code_in c [ErrorCodeUnimplemented] then Unimplemented
  else if code_in c [ErrorCodeInternal; ErrorCodeDatabaseError; ErrorCodeCacheError]
  then Internal
  else if code_in c [ErrorCodeUnavailable; ErrorCodeCircuitBreakerOpen] then Unavailable
  else if code_in c [ErrorCodeDataLoss] then DataLoss
  else if code_in c [ErrorCodeUnauthenticated; ErrorCodeInvalidCredentials;
                     ErrorCodeTokenExpired; ErrorCodeTokenInvalid] then Unauthenticated
  else Unknown.

Record status := mkStatus { st_code : code; st_message : string }.

Definition ToGRPCStatus (a : AuthError) : status :=
  let grpcCode := toGRPCCode a in
  let message :=
    if String.eqb (ae_TraceID a) "" then ae_Message a
    else ae_Message a +:+ " (trace_id: " +:+ ae_TraceID a +:+ ")" in
  mkStatus grpcCode message.

Definition IsRetryable (a : AuthError) : bool := ae_Retryable a.

(** ** Building errors *)

Section builder.
(** The Go runtime as the constructors see it: the clock and the frames
    [runtime.Caller(i)] returns, with the function when it is known. *)
Record Runtime := mkRuntime {
  rt_now : Z;
  rt_Caller : nat → option (string * Z * option string) }.

Context (rt : Runtime).

(** The loop of [captureStack], from index [i] for [n] more rounds. *)
Fixpoint captureStack_loop (i n : nat) : list StackFrame :=
  match n with
  | O => []
  | S n' =>
      match rt_Caller rt i with
      | None => []                                       (* break *)
      | Some (_, _, None) => captureStack_loop (S i) n'  (* continue *)
      | Some (file, line, Some fn) =>
          mkStackFrame fn file line :: captureStack_loop (S i) n'
      end
  end.
Definition captureStack (skip : nat) : list StackFrame := captureStack_loop skip 10.

Definition NewError (code : ErrorCode) (message : string) : AuthError :=
  mkAuthError code message None "" "" "" (rt_now rt) CategoryUnset SeverityUnset
    false (captureStack 2) None ∅.

Definition WithCause (cause : option error) (b : AuthError) : AuthError :=
  let '(mkAuthError c m d t r u ts cat sev ret st _ md) := b in
  mkAuthError c m d t r u ts cat sev ret st cause md.
Definition WithDetails (details : option meta) (b : AuthError) : AuthError :=
  let '(mkAuthError c m _ t r u ts cat sev ret st cs md) := b in
  mkAuthError c m details t r u ts cat sev ret st cs md.
Definition WithTraceID (traceID : string) (b : AuthError) : AuthError :=
  let '(mkAuthError c m d _ r u ts cat sev ret st cs md) := b in
  mkAuthError c m d traceID r u ts cat sev ret st cs md.
Definition WithCategory (category : ErrorCategory) (b : AuthError) : AuthError :=
  let '(mkAuthError c m d t r u ts _ sev ret st cs md) := b in
  mkAuthError c m d t r u ts category sev ret st cs md.
Definition WithSeverity (severity : ErrorSeverity) (b : AuthError) : AuthError :=
  let '(mkAuthError c m d t r u ts cat _ ret st cs md) := b in
  mkAuthError c m d t r u ts cat severity ret st cs md.
Definition WithRetryable (retryable : bool) (b : AuthError) : AuthError :=
  let '(mkAuthError c m d t r u ts cat sev _ st cs md) := b in
  mkAuthError c m d t r u ts cat sev retryable st cs md.
Definition WithMetadata (key : string) (value : meta) (b : AuthError) : AuthError :=
  let '(mkAuthError c m d t r u ts cat sev ret st cs md) := b in
  mkAuthError c m d t r u ts cat sev ret st cs (<[key := value]> md).
Definition WithUserID (userID : string) (b : AuthError) : AuthError :=
  let '(mkAuthError c m d t r _ ts cat sev ret st cs md) := b in
  mkAuthError c m d t r userID ts cat sev ret st cs md.
Definition WithRequestID (requestID : string) (b : AuthError) : AuthError :=
  let '(mkAuthError c m d t _ u ts cat sev ret st cs md) := b in
  mkAuthError c m d t requestID u ts cat sev ret st cs md.

Definition NewInvalidCredentialsError (email : string) : AuthError :=
  WithMetadata "email" (MStr email) (WithRetryable false (WithSeverity SeverityWarning
    (WithCategory CategoryAuthentication
      (NewError ErrorCodeInvalidCredentials "Invalid email or password")))).

Definition NewTokenExpiredError (tokenType : string) : AuthError :=
  WithMetadata "token_type" (MStr tokenType) (WithRetryable false (WithSeverity SeverityInfo
    (WithCategory CategoryAuthentication
      (NewError ErrorCodeTokenExpired (tokenType +:+ " token has expired"))))).

Definition NewUserNotFoundError (identifier : string) : AuthError :=
  WithMetadata "identifier" (MStr identifier) (WithRetryable false
    (WithSeverity SeverityWarning (WithCategory CategoryValidation
      (NewError ErrorCodeUserNotFound "User not found")))).

Definition NewDatabaseError (operation : string) (cause : option error) : AuthError :=
  WithMetadata "operation" (MStr operation) (WithRetryable true (WithSeverity SeverityError
    (WithCategory CategoryDatabase (WithCause cause
      (NewError ErrorCodeDatabaseError
        ("Database operation failed: " +:+ operation)))))).

Definition NewCacheError (operation : string) (cause : option error) : AuthError :=
  WithMetadata "operation" (MStr operation) (WithRetryable true
    (WithSeverity SeverityWarning (WithCategory CategoryCache (WithCause cause
      (NewError ErrorCodeCacheError ("Cache operation failed: " +:+ operation)))))).

(** [window] is the text [window.String()] of the duration. *)
Definition NewRateLimitError (limit : Z) (window : string) : AuthError :=
  WithMetadata "window" (MStr window) (WithMetadata "limit" (MInt limit)
    (WithRetryable true (WithSeverity SeverityWarning (WithCategory CategoryRateLimit
      (NewError ErrorCodeRateLimitExceeded "Rate limit exceeded"))))).

Definition NewCircuitBreakerError (service : string) : AuthError :=
  WithMetadata "service" (MStr service) (WithRetryable true (WithSeverity SeverityError
    (WithCategory CategoryCircuitBreaker
      (NewError ErrorCodeCircuitBreakerOpen
        ("Circuit breaker is open for service: " +:+ service))))).

Definition IsAuthError (err : error) : bool :=
  match err with ErrorAuth _ => true | _ => false end.

Definition GetAuthError (err : error) : AuthError :=
  match err with
  | ErrorAuth a => a
  | _ =>
      WithRetryable false (WithSeverity SeverityError (WithCategory CategoryInternal
        (WithCause (Some err) (NewError ErrorCodeUnknown (Error err)))))
  end.

Definition WrapError (err : error) (code : ErrorCode) (message : string) : AuthError :=
  WithCause (Some err) (NewError code message).

(** A context: the values the program looks up in it and its [Err()]. *)
Record Ctx := mkCtx { ctx_Value : string → option meta; ctx_Err : option error }.

Definition ctx_string (ctx : Ctx) (k : string) : option string :=
  match ctx_Value ctx k with Some (MStr s) => Some s | _ => None end.

Definition ErrorFromContext (ctx : Ctx) (err : error) : AuthError :=
  let a0 := GetAuthError err in
  let a1 := match ctx_string ctx "trace_id" with
            | Some t => WithTraceID t a0 | None => a0 end in
  let a2 := match ctx_string ctx "request_id" with
            | Some r => WithRequestID r a1 | None => a1 end in
  match ctx_string ctx "user_id" with Some u => WithUserID u a2 | None => a2 end.
End builder.

(** The text search of circuit_breaker.go, used by the retry and breaker
    policies: [contains] and [containsSubstring]. *)
Definition slice (s : string) (lo hi : nat) : string := str_take (hi - lo) (str_drop lo s).

Definition containsSubstring (s substr : string) : bool :=
  existsb (λ i, String.eqb (slice s i (i + str_len substr)) substr)
          (seq 0 (S (str_len s) - str_len substr)).

Definition contains (s substr : string) : bool :=
  (str_len substr <=? str_len s)%nat &&
  (String.eqb s substr ||
   ((str_len substr <? str_len s)%nat &&
    (String.eqb (slice s 0 (str_len substr)) substr ||
     String.eqb (slice s (str_len s - str_len substr) (str_len s)) substr ||
     containsSubstring s substr))).

(** ** Lemmas *)

Lemma slice_prefix s p : (str_len p <= str_len s)%nat →
  String.eqb (slice s 0 (str_len p)) p = HasPrefix s p.
Proof.
  intros H. unfold slice, HasPrefix. rewrite Nat.sub_0_r.
  apply Nat.leb_le in H. by rewrite H.
Qed.

Lemma containsSubstring_spec s p :
  containsSubstring s p = true ↔ ∃ u v, s = u +:+ p +:+ v.
Proof.
  unfold containsSubstring. rewrite existsb_exists. split.
  - intros (i & Hi & He). apply in_seq in Hi. apply String.eqb_eq in He.
    unfold slice in He. replace (i + str_len p - i)%nat with (str_len p) in He by lia.
    exists (str_take i s), (str_drop (str_len p) (str_drop i s)).
    rewrite <- (str_take_drop i s) at 1. f_equal.
    by rewrite <- (str_take_drop (str_len p) (str_drop i s)), He at 1.
  - intros (u & v & ->). exists (str_len u). rewrite in_seq, !str_len_app.
    split; [lia|]. apply String.eqb_eq. unfold slice.
    rewrite str_drop_app. replace (_ - _)%nat with (str_len p) by lia. apply str_take_app.
Qed.

Lemma contains_Contains s p : contains s p = Contains s p.
Proof.
  apply eq_true_iff_eq. rewrite Contains_spec. unfold contains.
  rewrite andb_true_iff, Nat.leb_le, orb_true_iff, andb_true_iff, Nat.ltb_lt.
  rewrite !orb_true_iff, containsSubstring_spec, String.eqb_eq. split.
  - intros [Hl [->|[_ [[H|H]|H]]]]; [by exists "", ""; rewrite str_app_nil_r| | |done].
    + rewrite slice_prefix in H by done. apply HasPrefix_spec in H as [r ->]. by exists "", r.
    + apply String.eqb_eq in H. unfold slice in H.
      exists (str_take (str_len s - str_len p) s), "". rewrite str_app_nil_r.
      rewrite str_take_all in H by (rewrite str_len_drop; lia).
      rewrite <- (str_take_drop (str_len s - str_len p) s), H at 1. done.
  - intros (u & v & ->). rewrite !str_len_app. split; [lia|].
    destruct (decide (str_len u + str_len v = 0)%nat) as [Hz|].
    + left. destruct u, v; unfold str_len in Hz; simpl in Hz; try lia.
      simpl. by rewrite str_app_nil_r.
    + right. split; [lia|]. right. eauto.
Qed.

Lemma captureStack_loop_bound rt i n : (length (captureStack_loop rt i n) <= n)%nat.
Proof.
  revert i; induction n; intros i; simpl; [done|].
  destruct (rt_Caller rt i) as [[[f l] [fn|]]|]; simpl; specialize (IHn (S i)); lia.
Qed.

#[export] Hint Rewrite contains_Contains : go.

(** ** Properties *)

(** The local helper [contains] of the retry and breaker policies is
    plain, case-sensitive substring search: it answers true exactly when the
    text splits as [u ++ substr ++ v]. *)
Theorem contains_spec s substr :
  contains s substr = true ↔ ∃ u v, s = u +:+ substr +:+ v.
Proof. rewrite contains_Contains. apply Contains_spec. Qed.

(** [toGRPCCode] is the identity on the standard codes 0 to 16, sends
    the authentication errors to Unauthenticated, and sends every code that
    is neither standard nor listed in the switch to Unknown. *)
Theorem toGRPCCode_spec (a : AuthError) :
  (0 ≤ ae_Code a ≤ 16 → code_num (toGRPCCode a) = ae_Code a) ∧
  (1000 ≤ ae_Code a ≤ 1002 → toGRPCCode a = Unauthenticated) ∧
  (ae_Code a ∉ [0; 1; 2; 3; 4; 5; 6; 7; 8; 9; 10; 11; 12; 13; 14; 15; 16; 1000; 1001;
                1002; 1003; 1004; 1005; 1012; 1013; 1014; 1016] →
   toGRPCCode a = Unknown).
Proof.
  unfold toGRPCCode, code_in. generalize (ae_Code a). intros c. cbn [existsb].
  split_and!.
  - intros H. assert (c ∈ seqZ 0 17) as Hc by (apply elem_of_seqZ; lia).
    revert Hc. vm_compute seqZ. rewrite !elem_of_cons, elem_of_nil.
    intros Hc. destruct_or!; subst; done.
  - intros H. assert (c = 1000 ∨ c = 1001 ∨ c = 1002) by lia. by destruct_or!; subst.
  - intros H. rewrite !not_elem_of_cons in H. destruct_and! H.
    repeat match goal with Hn : c ≠ ?k |- _ =>
      apply Z.eqb_neq in Hn end.
    unfold ErrorCodeOK, ErrorCodeCancelled.
    cbv [ErrorCodeUnknown ErrorCodeInvalidArgument ErrorCodeDeadlineExceeded
      ErrorCodeNotFound ErrorCodeUserNotFound ErrorCodeOrganizationNotFound
      ErrorCodeAlreadyExists ErrorCodeUserAlreadyExists ErrorCodePermissionDenied
      ErrorCodeResourceExhausted ErrorCodeRateLimitExceeded ErrorCodeFailedPrecondition
      ErrorCodeAborted ErrorCodeOutOfRange ErrorCodeUnimplemented ErrorCodeInternal
      ErrorCodeDatabaseError ErrorCodeCacheError ErrorCodeUnavailable
      ErrorCodeCircuitBreakerOpen ErrorCodeDataLoss ErrorCodeUnauthenticated
      ErrorCodeInvalidCredentials ErrorCodeTokenExpired ErrorCodeTokenInvalid].
    repeat match goal with Hn : (c =? _) = false |- _ => rewrite Hn; clear Hn end. done.
Qed.
