(* ===== verification/Models.v ===== *)
(** * Data model (src/internal/models, src/internal/domain/entities)

    The GORM models and the domain entities as records with the fields of
    the Go structs.  The lazily loaded relationship fields ([Organization],
    [UserRoles], ...) are left out: no modelled operation reads them.  A
    [*time.Time] is an [option Z]; a UUID is an opaque number. *)

From S2P Require Import Prelude.

(** github.com/google/uuid: the canonical text of an identifier. *)
Class UuidLib := uuid_String : N → string.

(** Its documented form: 36 characters, one text per 128-bit identifier. *)
Definition is_uuid (u : N) : Prop := (u < 2 ^ 128)%N.
Class UuidLaws `{UuidLib} := {
  uuid_String_len u : str_len (uuid_String u) = 36%nat;
  uuid_String_inj u v : is_uuid u → is_uuid v → uuid_String u = uuid_String v → u = v }.

(** A reference rendering: 36 base-16 digits from the low end. *)
Definition hex_char (d : N) : ascii := ascii_of_N (if (d <? 10)%N then 48 + d else 87 + d)%N.
Fixpoint hex_digits (n : nat) (u : N) : string :=
  match n with O => "" | S n' => String (hex_char (u mod 16)) (hex_digits n' (u / 16)) end.
Definition ref_uuid : UuidLib := hex_digits 36.

Lemma hex_digits_len n u : str_len (hex_digits n u) = n.
Proof. revert u; induction n; intros u; simpl; [done|]. unfold str_len in *. simpl. by f_equal. Qed.

Lemma hex_char_inj a b : (a < 16)%N → (b < 16)%N → hex_char a = hex_char b → a = b.
Proof.
  intros Ha Hb He. unfold hex_char in He. apply (f_equal N_of_ascii) in He.
  rewrite !N_ascii_embedding in He by (repeat case_match; lia).
  destruct (N.ltb_spec a 10), (N.ltb_spec b 10); lia.
Qed.

Lemma hex_digits_inj n u v : (u < 16 ^ N.of_nat n)%N → (v < 16 ^ N.of_nat n)%N →
  hex_digits n u = hex_digits n v → u = v.
Proof.
  revert u v. induction n as [|n IH]; intros u v Hu Hv; simpl hex_digits; [simpl in *; lia|].
  rewrite Nat2N.inj_succ, N.pow_succ_r' in Hu, Hv. intros H.
  assert (Hc : hex_char (u mod 16) = hex_char (v mod 16)) by congruence.
  assert (Hd : hex_digits n (u / 16) = hex_digits n (v / 16)) by congruence.
  apply hex_char_inj in Hc; [| by apply N.mod_lt | by apply N.mod_lt].
  apply IH in Hd; [| apply N.Div0.div_lt_upper_bound; lia..].
  rewrite (N.div_mod u 16), (N.div_mod v 16) by done. by rewrite Hc, Hd.
Qed.

Definition ref_uuid_laws : @UuidLaws ref_uuid.
Proof.
  constructor; [intros u; apply hex_digits_len|].
  intros u v Hu Hv. apply hex_digits_inj; (eapply N.lt_trans; [eassumption | reflexivity]).
Defined.

Inductive TokenType := AccessToken | RefreshToken | ResetToken.
#[export] Instance TokenType_eq_dec : EqDecision TokenType.
Proof. solve_decision. Defined.
Definition TokenType_string (t : TokenType) : string :=
  match t with AccessToken => "access" | RefreshToken => "refresh" | ResetToken => "reset" end.

(** ** Users *)

Record User := mkUser {
  u_ID : N; u_OrganizationID : N;
  u_Email : string; u_PasswordHash : string;
  u_FirstName : string; u_LastName : string;
  u_IsActive : bool; u_IsVerified : bool;
  u_LastLoginAt : option Z; u_PasswordResetAt : option Z;
  u_TwoFactorEnabled : bool; u_TwoFactorSecret : string;
  u_BackupCodes : list string;
  u_FailedLoginAttempts : Z; u_LockedUntil : option Z;
  u_CreatedAt : Z; u_UpdatedAt : Z;
  u_FullName : string; u_PermissionCache : string }.

(** [entities.User]: the same fields without the relationships. *)
Record EUser := mkEUser {
  eu_ID : N; eu_OrganizationID : N;
  eu_Email : string; eu_PasswordHash : string;
  eu_FirstName : string; eu_LastName : string;
  eu_IsActive : bool; eu_IsVerified : bool;
  eu_LastLoginAt : option Z; eu_PasswordResetAt : option Z;
  eu_TwoFactorEnabled : bool; eu_TwoFactorSecret : string;
  eu_BackupCodes : list string;
  eu_FailedLoginAttempts : Z; eu_LockedUntil : option Z;
  eu_CreatedAt : Z; eu_UpdatedAt : Z;
  eu_FullName : string; eu_PermissionCache : string }.

Definition GetFullName (u : User) : string := u_FirstName u +:+ " " +:+ u_LastName u.

Definition EUser_GetFullName (u : EUser) : string :=
  if negb (String.eqb (eu_FullName u) "") then eu_FullName u
  else eu_FirstName u +:+ " " +:+ eu_LastName u.

(** [time.Now()] of a method is its argument [now]. *)
Definition IsLocked (u : User) (now : Z) : bool :=
  match u_LockedUntil u with Some t => After t now | None => false end.

Definition CanAttemptLogin (u : User) (now : Z) : bool :=
  u_IsActive u && u_IsVerified u && negb (IsLocked u now).

Definition EUser_IsLocked (u : EUser) (now : Z) : bool :=
  match eu_LockedUntil u with Some t => After t now | None => false end.

Definition EUser_CanAttemptLogin (u : EUser) (now : Z) : bool :=
  eu_IsActive u && eu_IsVerified u && negb (EUser_IsLocked u now).

(** The GORM [BeforeCreate] hook; [fresh] is the value [uuid.New()]
    returns.  The other models have the same hook on their own [ID]. *)
Definition BeforeCreate_ID (fresh id : N) : N :=
  if (id =? uuid_Nil)%N then fresh else id.

Definition User_BeforeCreate (fresh : N) (u : User) : User :=
  let '(mkUser i o e ph fn ln ac ve ll pr tf ts bc fa lu ca ua fu pc) := u in
  mkUser (BeforeCreate_ID fresh i) o e ph fn ln ac ve ll pr tf ts bc fa lu ca ua fu pc.

(** Field assignments used by the services and repositories. *)
Definition set_IsActive (b : bool) (u : User) : User :=
  let '(mkUser i o e ph fn ln _ ve ll pr tf ts bc fa lu ca ua fu pc) := u in
  mkUser i o e ph fn ln b ve ll pr tf ts bc fa lu ca ua fu pc.
Definition set_Password (hash : string) (at_ : Z) (u : User) : User :=
  let '(mkUser i o e _ fn ln ac ve ll _ tf ts bc fa lu ca ua fu pc) := u in
  mkUser i o e hash fn ln ac ve ll (Some at_) tf ts bc fa lu ca ua fu pc.
Definition set_TwoFactor (on : bool) (secret : string) (codes : list string) (u : User) : User :=
  let '(mkUser i o e ph fn ln ac ve ll pr _ _ _ fa lu ca ua fu pc) := u in
  mkUser i o e ph fn ln ac ve ll pr on secret codes fa lu ca ua fu pc.
Definition set_BackupCodes (codes : list string) (u : User) : User :=
  set_TwoFactor (u_TwoFactorEnabled u) (u_TwoFactorSecret u) codes u.
Definition set_LastLogin (t upd : Z) (u : User) : User :=
  let '(mkUser i o e ph fn ln ac ve _ pr tf ts bc fa lu ca _ fu pc) := u in
  mkUser i o e ph fn ln ac ve (Some t) pr tf ts bc fa lu ca upd fu pc.
Definition set_FailedLoginAttempts (n : Z) (u : User) : User :=
  let '(mkUser i o e ph fn ln ac ve ll pr tf ts bc _ lu ca ua fu pc) := u in
  mkUser i o e ph fn ln ac ve ll pr tf ts bc n lu ca ua fu pc.
Definition set_Locked (lu : option Z) (upd : Z) (u : User) : User :=
  let '(mkUser i o e ph fn ln ac ve ll pr tf ts bc fa _ ca _ fu pc) := u in
  mkUser i o e ph fn ln ac ve ll pr tf ts bc fa lu ca upd fu pc.

(** What GORM's [Save] stores at time [now]: [UpdatedAt] is set, and the two
    computed fields, tagged with a dash, are not columns. *)
Definition as_saved (now : Z) (u : User) : User :=
  let '(mkUser i o e ph fn ln ac ve ll pr tf ts bc fa lu ca _ _ _) := u in
  mkUser i o e ph fn ln ac ve ll pr tf ts bc fa lu ca now "" "".

(** ** Organizations *)

Record Settings := mkSettings {
  s_Timezone : string; s_DateFormat : string; s_Currency : string; s_Language : string;
  s_TwoFactorEnabled : bool; s_SessionTimeout : Z; s_CustomFields : gmap string string }.

Record Organization := mkOrganization {
  o_ID : N; o_Name : string; o_Domain : string; o_Settings : Settings;
  o_IsActive : bool; o_CreatedAt : Z; o_UpdatedAt : Z }.

(** ** Roles and permissions *)

Record Role := mkRole {
  r_ID : N; r_OrganizationID : N; r_Name : string; r_Description : string;
  r_IsSystem : bool; r_IsActive : bool; r_CreatedAt : Z; r_UpdatedAt : Z }.

Definition set_Role_IsActive (b : bool) (r : Role) : Role :=
  let '(mkRole i o n d s _ c u) := r in mkRole i o n d s b c u.

Record Permission := mkPermission {
  p_ID : N; p_Name : string; p_Resource : string; p_Action : string; p_Scope : string;
  p_ParentID : option N; p_Description : string; p_IsSystem : bool;
  p_CreatedAt : Z; p_UpdatedAt : Z }.
#[export] Instance Permission_eq_dec : EqDecision Permission.
Proof. solve_decision. Defined.

(** [entities.Permission], with its nested [Children] slice. *)
Inductive EPermission := mkEPermission {
  ep_ID : N; ep_Name : string; ep_Resource : string; ep_Action : string; ep_Scope : string;
  ep_ParentID : option N; ep_Children : list EPermission;
  ep_Description : string; ep_IsSystem : bool; ep_CreatedAt : Z; ep_UpdatedAt : Z }.

Record UserRole := mkUserRole { ur_ID : N; ur_UserID : N; ur_RoleID : N; ur_CreatedAt : Z }.
Record RolePermission := mkRolePermission {
  rp_ID : N; rp_RoleID : N; rp_PermissionID : N; rp_CreatedAt : Z }.

(** [entities.UserRole], an assignment with an optional expiry. *)
Record EUserRole := mkEUserRole {
  eur_ID : N; eur_UserID : N; eur_RoleID : N; eur_AssignedBy : N; eur_AssignedAt : Z;
  eur_ExpiresAt : option Z; eur_IsActive : bool }.

Definition EUserRole_IsExpired (ur : EUserRole) (now : Z) : bool :=
  match eur_ExpiresAt ur with Some t => Before t now | None => false end.
Definition EUserRole_IsValid (ur : EUserRole) (now : Z) : bool :=
  eur_IsActive ur && negb (EUserRole_IsExpired ur now).

(** ** Tokens *)

Record Token := mkToken {
  t_ID : N; t_UserID : N; t_TokenType : TokenType; t_TokenHash : string;
  t_IssuedAt : Z; t_ExpiresAt : Z; t_RevokedAt : option Z;
  t_IPAddress : string; t_UserAgent : string; t_DeviceFingerprint : string;
  t_CreatedAt : Z; t_UpdatedAt : Z }.

Definition Token_IsExpired (t : Token) (now : Z) : bool := After now (t_ExpiresAt t).
Definition Token_IsRevoked (t : Token) : bool :=
  match t_RevokedAt t with Some _ => true | None => false end.
Definition Token_IsValid (t : Token) (now : Z) : bool :=
  negb (Token_IsExpired t now) && negb (Token_IsRevoked t).

Definition set_Revoked (at_ upd : Z) (t : Token) : Token :=
  let '(mkToken i u ty h ia ea _ ip ag df ca _) := t in
  mkToken i u ty h ia ea (Some at_) ip ag df ca upd.
Definition Token_Revoke (t : Token) (now : Z) : Token := set_Revoked now now t.

Record TokenPair := mkTokenPair {
  tp_AccessToken : string; tp_RefreshToken : string;
  tp_ExpiresAt : Z; tp_RefreshExpiresAt : Z; tp_TokenType : string }.

(** ** Configuration (src/internal/config/config.go) *)
Record JWTConfig := mkJWTConfig {
  jc_Secret : string; jc_AccessExpiry : Z; jc_RefreshExpiry : Z;
  jc_KeyRotationEnabled : bool; jc_KeyRotationInterval : Z; jc_RevokeRefreshOnUse : bool }.

(** ** Lemmas *)

Lemma Token_Revoke_invalid t now now' : Token_IsValid (Token_Revoke t now) now' = false.
Proof. destruct t. apply andb_false_r. Qed.

Lemma Token_IsValid_spec t now :
  Token_IsValid t now = true ↔ t_RevokedAt t = None ∧ now ≤ t_ExpiresAt t.
Proof.
  unfold Token_IsValid, Token_IsExpired, Token_IsRevoked, After.
  destruct (t_RevokedAt t); rewrite andb_true_iff, !negb_true_iff, ?Z.ltb_ge.
  - split; [by intros [_ ?] | by intros [? _]].
  - naive_solver.
Qed.

Lemma IsLocked_spec u now :
  IsLocked u now = true ↔ ∃ t, u_LockedUntil u = Some t ∧ now < t.
Proof.
  unfold IsLocked, After. destruct (u_LockedUntil u); [rewrite Z.ltb_lt; naive_solver|].
  split; [done | by intros (? & ? & _)].
Qed.
