(* ===== verification/Ifaces.v ===== *)
(** * Interfaces between components

    The Go interfaces the services are written against
    (src/internal/domain/interfaces/repositories.go and the [CacheManager]
    of src/internal/cache/types.go), as classes of operations on the state
    of the component behind them, each with a class of laws that states what
    the component promises.  A client is modelled and proved against the
    classes.  Repos.v discharges the laws of the user, token and organization
    repositories on well-formed databases and those of the permission
    repository on any; the fallback cache manager of the gRPC server satisfies
    [CacheLaws] whenever Redis answers (Grpc.v).  The two-level manager of
    Cache.v has theorems of its own: its late refills make some of the laws too
    strong for it.

    Every operation takes the clock reading [now] of its [time.Now()]. *)

From S2P Require Import Prelude Errors Models.

(** Running an operation of a component inside a larger state. *)
Section zoom.
Context {W C A : Type} (get : W → C) (put : C → W → W).
Definition zoom (m : M C A) : M W A :=
  λ w, let (r, c') := m (get w) in (r, put c' w).
End zoom.

Lemma zoom_run {W C A} (get : W → C) (put : C → W → W) (m : M C A) w r c' :
  m (get w) = (r, c') → zoom get put m w = (r, put c' w).
Proof. unfold zoom. by intros ->. Qed.

Lemma zoom_inv {W C A} (get : W → C) (put : C → W → W) (m : M C A) w r w' :
  zoom get put m w = (r, w') → ∃ c', m (get w) = (r, c') ∧ w' = put c' w.
Proof. unfold zoom. destruct (m (get w)) as [r0 c0]. intros [= <- <-]. eauto. Qed.

Lemma zoom_eq {W C A} (get : W → C) (put : C → W → W) (m : M C A) w :
  zoom get put m w = ((m (get w)).1, put (m (get w)).2 w).
Proof. unfold zoom. by destruct (m (get w)). Qed.

(** ** The cache seen by the services *)

Class CacheOps (C : Type) := {
  cache_Get : Z → string → M C string;
  cache_Set : Z → string → string → Z → M C unit;
  cache_Delete : Z → string → M C unit;
  cache_Exists : Z → string → M C bool;
  cache_InvalidatePattern : Z → string → M C unit }.

(** [chas c k v d]: a read of key [k] at any time before [d] returns [v].
    [cabs c k]: reads of [k] report an error until it is written.
    [ckeeps now P c c']: for the keys in [P], what [c] promises from [now] on,
    [c'] still promises.  A successful [Set] makes its value readable for the
    time to live it was given; reads keep everything; a write or a delete
    keeps the other keys, whether it succeeds or not. *)
Class CacheLaws (C : Type) `{CacheOps C} := {
  chas : C → string → string → Z → Prop;
  cabs : C → string → Prop;
  ckeeps (now : Z) (P : string → Prop) (c c' : C) : Prop :=
    (∀ k v d, P k → now < d → chas c k v d → chas c' k v d) ∧
    (∀ k, P k → cabs c k → cabs c' k);
  cache_Get_has c k v d now : chas c k v d → now < d → (cache_Get now k c).1 = Ok v;
  cache_Get_abs c k now : cabs c k → is_ok (cache_Get now k c).1 = false;
  cache_Get_keeps c k now : ckeeps now (λ _, True) c (cache_Get now k c).2;
  cache_Set_has c c' k v ttl now : 0 < ttl → cache_Set now k v ttl c = (Ok tt, c') →
    chas c' k v (now + ttl);
  cache_Set_keeps c k v ttl now :
    ckeeps now (λ k', k' ≠ k) c (cache_Set now k v ttl c).2;
  cache_Delete_abs c c' k now : cache_Delete now k c = (Ok tt, c') → cabs c' k;
  cache_Delete_keeps c k now : ckeeps now (λ k', k' ≠ k) c (cache_Delete now k c).2;
  cache_Exists_has c k v d now : chas c k v d → now < d → (cache_Exists now k c).1 = Ok true;
  cache_Exists_abs c k now : cabs c k → (cache_Exists now k c).1 = Ok false;
  cache_Exists_keeps c k now : ckeeps now (λ _, True) c (cache_Exists now k c).2 }.

Section cache_facts.
Context {C : Type} `{CacheLaws C}.

Lemma ckeeps_refl now P c : ckeeps now P c c.
Proof. split; auto. Qed.

Lemma ckeeps_trans now1 now2 (P Q : string → Prop) c1 c2 c3 :
  now1 ≤ now2 → ckeeps now1 P c1 c2 → ckeeps now2 Q c2 c3 →
  ckeeps now2 (λ k, P k ∧ Q k) c1 c3.
Proof.
  intros Hle [H1 H1'] [H2 H2']. split.
  - intros k v d [HP HQ] Hd Hk. apply H2; [done|done|]. apply H1; [done|lia|done].
  - intros k [HP HQ] Hk. auto.
Qed.

Lemma ckeeps_weaken now (P Q : string → Prop) c1 c2 :
  (∀ k, Q k → P k) → ckeeps now P c1 c2 → ckeeps now Q c1 c2.
Proof. intros HPQ [H1 H2]. split; eauto. Qed.

Lemma ckeeps_later now now' P c c' : now ≤ now' → ckeeps now P c c' → ckeeps now' P c c'.
Proof. intros Hle [H1 H2]. split; [intros; apply H1; [done|lia|done] | done]. Qed.
End cache_facts.

(** ** The Redis commands the token service issues on its own client *)

Class RedisOps (R : Type) := {
  redis_Set : Z → string → string → Z → M R unit;
  redis_Exists : Z → string → M R Z }.

(** [rkey r k d]: key [k] is present until time [d].  [EXISTS] counts the
    keys that are present; a key set with an expiry is present until it
    elapses; a [SET], acknowledged or not, touches no other key, and leaves
    its own key present at least as long as its new expiry allows. *)
Class RedisLaws (R : Type) `{RedisOps R} := {
  rkey : R → string → Z → Prop;
  redis_Set_key r r' k v ttl now : 0 < ttl → redis_Set now k v ttl r = (Ok tt, r') →
    rkey r' k (now + ttl);
  redis_Set_keeps r k v ttl now k' d : 0 < ttl → rkey r k' d → k' ≠ k ∨ d ≤ now + ttl →
    rkey (redis_Set now k v ttl r).2 k' d;
  redis_Exists_key r k d now : rkey r k d → now < d → (redis_Exists now k r).1 = Ok 1;
  redis_Exists_keeps r k now k' d : rkey r k' d → rkey (redis_Exists now k r).2 k' d }.

(** ** Repositories *)

Class TokenRepository (D : Type) := {
  tr_GetByID : N → M D Token;
  tr_GetByTokenHash : Z → string → M D Token;
  tr_Create : Token → M D unit;
  tr_Update : Z → Token → M D unit;
  tr_Delete : N → M D unit;
  tr_RevokeToken : Z → string → M D unit;
  tr_RevokeAllUserTokens : Z → N → TokenType → M D unit;
  tr_GetActiveTokensByUser : Z → N → TokenType → M D (list Token);
  tr_CleanupExpiredTokens : Z → M D unit;
  tr_DeleteRevokedTokens : Z → M D unit }.

(** What a token row must satisfy for [RevokeToken] to touch it, and for
    [GetByTokenHash] and [GetActiveTokensByUser] to return it. *)
Definition unrevoked (t : Token) : bool := negb (Token_IsRevoked t).
Definition row_by_hash (h : string) (t : Token) : bool :=
  String.eqb (t_TokenHash t) h && unrevoked t.
Definition row_of_user (u : N) (ty : TokenType) (t : Token) : bool :=
  (t_UserID t =? u)%N && bool_decide (t_TokenType t = ty) && unrevoked t.
Definition unexpired (now : Z) (t : Token) : bool := (now <? t_ExpiresAt t)%Z.
Definition revoke_where (P : Token → bool) (now : Z) (t : Token) : Token :=
  if P t then set_Revoked now now t else t.

Class TokenRepositoryLaws (D : Type) `{TokenRepository D} := {
  tview : D → list Token;
  tr_GetByTokenHash_ok d d' h now t : tr_GetByTokenHash now h d = (Ok t, d') →
    t ∈ tview d ∧ row_by_hash h t = true ∧ unexpired now t = true ∧ tview d' = tview d;
  tr_Create_ok d d' t : tr_Create t d = (Ok tt, d') →
    ∃ t', Permutation (tview d') (t' :: tview d) ∧ t_UserID t' = t_UserID t ∧
          t_TokenType t' = t_TokenType t ∧ t_TokenHash t' = t_TokenHash t ∧
          t_ExpiresAt t' = t_ExpiresAt t ∧ t_RevokedAt t' = t_RevokedAt t;
  tr_RevokeToken_ok d d' h now : tr_RevokeToken now h d = (Ok tt, d') →
    tview d' = revoke_where (row_by_hash h) now <$> tview d;
  tr_RevokeAll_ok d d' u ty now : tr_RevokeAllUserTokens now u ty d = (Ok tt, d') →
    tview d' = revoke_where (row_of_user u ty) now <$> tview d;
  tr_GetActive_ok d d' u ty now l : tr_GetActiveTokensByUser now u ty d = (Ok l, d') →
    tview d' = tview d ∧
    (∀ t, t ∈ l ↔ t ∈ tview d ∧ row_of_user u ty t = true ∧ unexpired now t = true) }.

Class UserRepository (D : Type) := {
  usr_GetByID : N → M D User;
  usr_GetByEmail : string → M D User;
  usr_GetByEmailWithOrganization : string → M D User;
  usr_Create : User → M D unit;
  usr_Update : Z → User → M D unit;
  usr_Delete : N → M D unit;
  usr_UpdateLastLogin : Z → N → Z → M D unit;
  usr_IncrementFailedLoginAttempts : N → M D unit;
  usr_ResetFailedLoginAttempts : Z → N → M D unit;
  usr_LockUser : Z → N → Z → M D unit }.

(** [uview d id]: the row with primary key [id].  An insert of a row with the
    nil identifier gives it a fresh one. *)
Class UserRepositoryLaws (D : Type) `{UserRepository D} := {
  uview : D → N → option User;
  usr_GetByID_ok d d' i u : usr_GetByID i d = (Ok u, d') →
    uview d i = Some u ∧ u_ID u = i ∧ u_IsActive u = true ∧ (∀ j, uview d' j = uview d j);
  usr_GetByEmail_ok d d' e u : usr_GetByEmailWithOrganization e d = (Ok u, d') →
    uview d (u_ID u) = Some u ∧ u_Email u = e ∧ u_IsActive u = true ∧
    (∀ j, uview d' j = uview d j);
  usr_GetByEmail_err d d' e err : usr_GetByEmailWithOrganization e d = (Err err, d') →
    ∀ j, uview d' j = uview d j;
  usr_Create_ok d d' u : usr_Create u d = (Ok tt, d') →
    ∃ i u', (u_ID u ≠ uuid_Nil → i = u_ID u) ∧ uview d' i = Some u' ∧ u_ID u' = i ∧
      u_Email u' = u_Email u ∧ u_PasswordHash u' = u_PasswordHash u ∧
      u_TwoFactorEnabled u' = u_TwoFactorEnabled u ∧ u_LockedUntil u' = u_LockedUntil u ∧
      (∀ j, j ≠ i → uview d' j = uview d j);
  usr_Create_err d d' u e : usr_Create u d = (Err e, d') → ∀ j, uview d' j = uview d j;
  usr_Update_ok d d' now u : usr_Update now u d = (Ok tt, d') → is_Some (uview d (u_ID u)) →
    uview d' (u_ID u) = Some (as_saved now u) ∧ (∀ j, j ≠ u_ID u → uview d' j = uview d j);
  usr_UpdateLastLogin_err d d' now i t e : usr_UpdateLastLogin now i t d = (Err e, d') →
    ∀ j, uview d' j = uview d j;
  usr_Increment_err d d' i e : usr_IncrementFailedLoginAttempts i d = (Err e, d') →
    ∀ j, uview d' j = uview d j;
  usr_Reset_err d d' now i e : usr_ResetFailedLoginAttempts now i d = (Err e, d') →
    ∀ j, uview d' j = uview d j;
  usr_LockUser_err d d' now i t e : usr_LockUser now i t d = (Err e, d') →
    ∀ j, uview d' j = uview d j;
  usr_UpdateLastLogin_ok d d' now i t : usr_UpdateLastLogin now i t d = (Ok tt, d') →
    uview d' i = set_LastLogin t now <$> uview d i ∧
    (∀ j, j ≠ i → uview d' j = uview d j);
  usr_Increment_ok d d' i : usr_IncrementFailedLoginAttempts i d = (Ok tt, d') →
    uview d' i = (λ u, set_FailedLoginAttempts (u_FailedLoginAttempts u + 1) u) <$> uview d i ∧
    (∀ j, j ≠ i → uview d' j = uview d j);
  usr_Reset_ok d d' now i : usr_ResetFailedLoginAttempts now i d = (Ok tt, d') →
    uview d' i = (λ u, set_Locked None now (set_FailedLoginAttempts 0 u)) <$> uview d i ∧
    (∀ j, j ≠ i → uview d' j = uview d j);
  usr_LockUser_ok d d' now i t : usr_LockUser now i t d = (Ok tt, d') →
    uview d' i = set_Locked (Some t) now <$> uview d i ∧
    (∀ j, j ≠ i → uview d' j = uview d j) }.

Class OrganizationRepository (D : Type) := {
  org_GetByID : N → M D Organization;
  org_GetByDomain : string → M D Organization;
  org_Create : Organization → M D unit }.

(** [oview d i]: the active row with primary key [i].  A failed insert adds
    nothing. *)
Class OrganizationRepositoryLaws (D : Type) `{OrganizationRepository D} := {
  oview : D → N → option Organization;
  org_GetByDomain_keeps d s i : oview (org_GetByDomain s d).2 i = oview d i;
  org_Create_ok d d' o : org_Create o d = (Ok tt, d') →
    ∃ i o', (o_ID o ≠ uuid_Nil → i = o_ID o) ∧ oview d' i = Some o' ∧
      o_Name o' = o_Name o ∧ o_Domain o' = o_Domain o }.

Class PermissionRepository (D : Type) := {
  pr_GetUserPermissions : N → M D (list Permission);
  pr_GetChildPermissions : N → M D (list Permission);
  pr_GetPermissionHierarchy : N → M D (list Permission);
  pr_GetPermissionsByResource : string → M D (list Permission) }.

(** [prows d]: the permission rows; [pgrants d u]: what the roles of [u]
    grant; the query lists them in an order that the database chooses among
    equal keys.  Reads change neither, whether they succeed or not. *)
Class PermissionRepositoryLaws (D : Type) `{PermissionRepository D} := {
  prows : D → list Permission;
  pgrants : D → N → list Permission;
  psame (d d' : D) : Prop := prows d' = prows d ∧ ∀ u, pgrants d' u = pgrants d u;
  pr_GetUserPermissions_ok d d' u l : pr_GetUserPermissions u d = (Ok l, d') → Permutation l (pgrants d u);
  pr_GetUserPermissions_same d u : psame d (pr_GetUserPermissions u d).2;
  pr_GetChildPermissions_ok d d' i l : pr_GetChildPermissions i d = (Ok l, d') →
    ∀ c, c ∈ l ↔ c ∈ prows d ∧ p_ParentID c = Some i;
  pr_GetChildPermissions_same d i : psame d (pr_GetChildPermissions i d).2 }.

(** Redis glob patterns ([KEYS], [SCAN MATCH]).  Documented: a star matches
    any text, and a character other than the special ones matches itself. *)
Definition glob_special (a : ascii) : bool :=
  existsb (Ascii.eqb a) ["*"; "?"; "["; "]"; "\"]%char.
Fixpoint glob_literal (s : string) : bool :=
  match s with EmptyString => true | String a s' => negb (glob_special a) && glob_literal s' end.
Class GlobLib := glob_match : string → string → bool.
Class GlobLaws `{GlobLib} := {
  glob_star p q s : glob_literal p = true → glob_literal q = true →
    glob_match (p +:+ "*" +:+ q) s = true ↔ ∃ m, s = p +:+ m +:+ q }.

(** Pattern invalidation of the cache leaves the keys the pattern does not
    match. *)
Class CachePatternLaws (C : Type) `{CacheLaws C} `{GlobLib} := {
  cache_Invalidate_keeps c p now :
    ckeeps now (λ k, glob_match p k = false) c (cache_InvalidatePattern now p c).2 }.

(** ** Reference stores

    The smallest state that satisfies each interface: a map with deadlines.
    They show that the laws can hold and give the examples something to run
    on. *)

Definition ref_cache := gmap string (string * Z).
Definition ref_cache_miss : error := ErrorCache "cache_not_found" "cache entry not found" None.

Definition ref_live (now : Z) (o : option (string * Z)) : option string :=
  match o with Some (v, d) => if (now <? d)%Z then Some v else None | None => None end.

#[export] Instance ref_cache_ops : CacheOps ref_cache := {
  cache_Get now k := λ c : gmap string (string * Z),
    (match ref_live now (c !! k) with Some v => Ok v | None => Err ref_cache_miss end, c);
  cache_Set now k v ttl := λ c : gmap string (string * Z), (Ok tt, <[k := (v, now + ttl)]> c);
  cache_Delete now k := λ c : gmap string (string * Z), (Ok tt, delete k c);
  cache_Exists now k := λ c : gmap string (string * Z),
    (Ok (match ref_live now (c !! k) with Some _ => true | None => false end), c);
  cache_InvalidatePattern now p := λ c : gmap string (string * Z), (Ok tt, c) }.

#[export, refine] Instance ref_cache_laws : CacheLaws ref_cache := {
  chas c k v d := ∃ dl, (c : gmap string (string * Z)) !! k = Some (v, dl) ∧ d ≤ dl;
  cabs c k := (c : gmap string (string * Z)) !! k = None }.
Proof.
  all: intros; unfold cache_Get, cache_Set, cache_Delete, cache_Exists in *; simpl in *.
  - destruct H as (dl & -> & Hd). simpl. by destruct (Z.ltb_spec now dl); [|lia].
  - by rewrite H.
  - done.
  - simplify_eq. exists (now + ttl). by rewrite lookup_insert_eq.
  - split; intros; [destruct H1 as (dl & ? & ?); exists dl|]; by rewrite lookup_insert_ne.
  - simplify_eq. apply lookup_delete_eq.
  - split; intros; [destruct H1 as (dl & ? & ?); exists dl|]; by rewrite lookup_delete_ne.
  - destruct H as (dl & -> & Hd). simpl. by destruct (Z.ltb_spec now dl); [|lia].
  - by rewrite H.
  - done.
Defined.

(** A matcher for patterns whose only special character is the star. *)
Definition ref_glob_rest (rest : string → bool) : string → bool :=
  fix some_suffix (s : string) : bool :=
    rest s || match s with EmptyString => false | String _ s' => some_suffix s' end.
Fixpoint ref_glob (p s : string) : bool :=
  match p with
  | EmptyString => String.eqb s ""
  | String a p' =>
      if Ascii.eqb a "*" then ref_glob_rest (ref_glob p') s
      else match s with String b s' => Ascii.eqb a b && ref_glob p' s' | EmptyString => false end
  end.
#[export] Instance ref_glob_lib : GlobLib := ref_glob.

Lemma ref_glob_lit q s : glob_literal q = true → ref_glob q s = true ↔ s = q.
Proof.
  revert s. induction q as [|a q IH]; intros s Hq; simpl in *; [apply String.eqb_eq|].
  apply andb_true_iff in Hq as [Ha Hq]. unfold glob_special in Ha.
  destruct (Ascii.eqb_spec a "*"); [by subst|]. destruct s as [|b s]; [done|].
  rewrite andb_true_iff, Ascii.eqb_eq, IH by done. naive_solver.
Qed.

Lemma ref_glob_rest_spec rest s : ref_glob_rest rest s = true ↔ ∃ m t, s = m +:+ t ∧ rest t = true.
Proof.
  induction s as [|a s IH]; simpl; rewrite orb_true_iff.
  - split; [intros [H|]; [by exists "", "" | done]|].
    intros (m & t & H & Ht). destruct m; [|done]. simpl in H. subst. auto.
  - rewrite IH. split.
    + intros [H|(m & t & -> & Ht)]; [by exists "", (String a s) | by exists (String a m), t].
    + intros ([|b m] & t & H & Ht); simpl in H; [subst; auto|]. injection H as <- ->. eauto.
Qed.

#[export, refine] Instance ref_glob_laws : GlobLaws := {}.
Proof.
  unfold glob_match, ref_glob_lib. intros p q s Hp Hq. revert s.
  induction p as [|a p IH]; intros s; simpl in *.
  - rewrite ref_glob_rest_spec. setoid_rewrite (ref_glob_lit q _ Hq). naive_solver.
  - apply andb_true_iff in Hp as [Ha Hp]. unfold glob_special in Ha.
    destruct (Ascii.eqb_spec a "*"); [by subst|].
    destruct s as [|b s]; [split; [done|]; intros (m & H); by destruct m|].
    rewrite andb_true_iff, Ascii.eqb_eq, IH by done. naive_solver.
Defined.

#[export, refine] Instance ref_cache_pattern : CachePatternLaws ref_cache := {}.
Proof. intros c p now. simpl. apply ckeeps_refl. Defined.

Definition ref_redis := gmap string Z.
#[export] Instance ref_redis_ops : RedisOps ref_redis := {
  redis_Set now k v ttl := λ r : gmap string Z, (Ok tt, <[k := now + ttl]> r);
  redis_Exists now k := λ r : gmap string Z,
    (Ok (match r !! k with Some d => if (now <? d)%Z then 1 else 0 | None => 0 end), r) }.

#[export, refine] Instance ref_redis_laws : RedisLaws ref_redis := {
  rkey r k d := ∃ d', (r : gmap string Z) !! k = Some d' ∧ d ≤ d' }.
Proof.
  all: intros; unfold redis_Set, redis_Exists in *; simpl in *; simplify_eq.
  - exists (now + ttl). by rewrite lookup_insert_eq.
  - destruct H0 as (d' & Hl & Hd). destruct (decide (k' = k)) as [->|].
    + exists (now + ttl). rewrite lookup_insert_eq. split; [done|]. by destruct H1.
    + exists d'. by rewrite lookup_insert_ne.
  - destruct H as (d' & -> & Hd). by destruct (Z.ltb_spec now d'); [|lia].
  - done.
Defined.

(** A token table as a list of rows. *)
Definition ref_tokens := list Token.
Definition ref_find (P : Token → bool) (l : ref_tokens) : res error Token :=
  match List.find P l with
  | Some t => Ok t | None => Err (ErrorString "token not found or expired") end.

#[export] Instance ref_tokens_ops : TokenRepository ref_tokens := {
  tr_GetByID i := λ l, (ref_find (λ t, (t_ID t =? i)%N) l, l);
  tr_GetByTokenHash now h := λ l, (ref_find (λ t, row_by_hash h t && unexpired now t) l, l);
  tr_Create t := λ l, (Ok tt, t :: l);
  tr_Update now t := λ l, (Ok tt, (λ t', if (t_ID t' =? t_ID t)%N then t else t') <$> l);
  tr_Delete i := λ l, (Ok tt, List.filter (λ t, negb (t_ID t =? i)%N) l);
  tr_RevokeToken now h := λ l, (Ok tt, revoke_where (row_by_hash h) now <$> l);
  tr_RevokeAllUserTokens now u ty := λ l, (Ok tt, revoke_where (row_of_user u ty) now <$> l);
  tr_GetActiveTokensByUser now u ty := λ l,
    (Ok (List.filter (λ t, row_of_user u ty t && unexpired now t) l), l);
  tr_CleanupExpiredTokens now := λ l, (Ok tt, List.filter (λ t, negb (t_ExpiresAt t <? now)%Z) l);
  tr_DeleteRevokedTokens old := λ l,
    (Ok tt, List.filter (λ t, match t_RevokedAt t with
                              | Some r => negb (r <? old)%Z | None => true end) l) }.

#[export, refine] Instance ref_tokens_laws : TokenRepositoryLaws ref_tokens := {
  tview d := d }.
Proof.
  all: intros; simpl in *; unfold ref_find in *; simplify_eq; try done.
  - destruct (List.find _ _) as [t'|] eqn:E; [|done]. simplify_eq.
    apply find_some in E as [Hin Hp]. apply andb_true_iff in Hp as [? ?].
    by apply list_elem_of_In in Hin.
  - by exists t.
  - split; [done|]. intros t. rewrite !list_elem_of_In, filter_In, andb_true_iff. naive_solver.
Defined.

(** Users and organizations as maps from primary keys to rows. *)
Definition ref_users := gmap N User.
Definition ref_user_missing : error := ErrorString "user not found".
Definition ref_user_find (P : User → bool) (d : ref_users) : res error User :=
  match List.find (λ iu, (iu.1 =? u_ID iu.2)%N && P iu.2) (map_to_list (d : gmap N User)) with
  | Some iu => Ok iu.2 | None => Err ref_user_missing end.
Lemma ref_user_find_ok P (d : ref_users) u : ref_user_find P d = Ok u →
  (d : gmap N User) !! u_ID u = Some u ∧ P u = true.
Proof.
  unfold ref_user_find. destruct (List.find _ _) as [[i v]|] eqn:E; [|done]. intros [= <-].
  apply find_some in E as [Hin Hp]. apply andb_true_iff in Hp as [Hi Hp]. simpl in *.
  apply N.eqb_eq in Hi as ->. split; [|done]. by apply elem_of_map_to_list, list_elem_of_In.
Qed.
Definition ref_user_alter (f : User → User) (i : N) (d : ref_users) : ref_users :=
  alter f i (d : gmap N User).

#[export] Instance ref_users_ops : UserRepository ref_users := {
  usr_GetByID i := λ d, (match (d : gmap N User) !! i with
    | Some u => if u_IsActive u && (u_ID u =? i)%N then Ok u else Err ref_user_missing
    | None => Err ref_user_missing end, d);
  usr_GetByEmail e := λ d, (ref_user_find (λ u, String.eqb (u_Email u) e && u_IsActive u) d, d);
  usr_GetByEmailWithOrganization e := λ d,
    (ref_user_find (λ u, String.eqb (u_Email u) e && u_IsActive u) d, d);
  usr_Create u := λ d, (Ok tt, <[u_ID u := u]> (d : gmap N User));
  usr_Update now u := λ d, (Ok tt, <[u_ID u := as_saved now u]> (d : gmap N User));
  usr_Delete i := λ d, (Ok tt, ref_user_alter (set_IsActive false) i d);
  usr_UpdateLastLogin now i t := λ d, (Ok tt, ref_user_alter (set_LastLogin t now) i d);
  usr_IncrementFailedLoginAttempts i := λ d,
    (Ok tt, ref_user_alter (λ u, set_FailedLoginAttempts (u_FailedLoginAttempts u + 1) u) i d);
  usr_ResetFailedLoginAttempts now i := λ d,
    (Ok tt, ref_user_alter (λ u, set_Locked None now (set_FailedLoginAttempts 0 u)) i d);
  usr_LockUser now i t := λ d, (Ok tt, ref_user_alter (set_Locked (Some t) now) i d) }.

#[export, refine] Instance ref_users_laws : UserRepositoryLaws ref_users := {
  uview d i := (d : gmap N User) !! i }.
Proof.
  all: intros; simpl in *; unfold ref_user_alter in *; simplify_eq; try done.
  - repeat case_match; simplify_eq. split_and!; try done; by destruct (u_IsActive _), (N.eqb_spec (u_ID u) i).
  - destruct (ref_user_find _ d') as [v|] eqn:E; [|done]. simplify_eq.
    apply ref_user_find_ok in E as [Hu Hp]. apply andb_true_iff in Hp as [He Ha].
    apply String.eqb_eq in He. by split_and!.
  - exists (u_ID u), u. split_and!; try done; [by rewrite lookup_insert_eq|].
    intros; by rewrite lookup_insert_ne.
  - split; [by rewrite lookup_insert_eq | intros; by rewrite lookup_insert_ne].
  - split; [by rewrite lookup_alter_eq | intros; by rewrite lookup_alter_ne].
  - split; [by rewrite lookup_alter_eq | intros; by rewrite lookup_alter_ne].
  - split; [by rewrite lookup_alter_eq | intros; by rewrite lookup_alter_ne].
  - split; [by rewrite lookup_alter_eq | intros; by rewrite lookup_alter_ne].
Defined.

Definition ref_orgs := gmap N Organization.
#[export] Instance ref_orgs_ops : OrganizationRepository ref_orgs := {
  org_GetByID i := λ d, (match (d : gmap N Organization) !! i with
    | Some o => Ok o | None => Err (ErrorString "organization not found") end, d);
  org_GetByDomain s := λ d,
    (match List.find (λ o, String.eqb (o_Domain o) s) ((map_to_list (d : gmap N Organization)).*2) with
     | Some o => Ok o | None => Err (ErrorString "organization not found") end, d);
  org_Create o := λ d, (Ok tt, <[o_ID o := o]> (d : gmap N Organization)) }.
#[export, refine] Instance ref_orgs_laws : OrganizationRepositoryLaws ref_orgs := {
  oview d i := (d : gmap N Organization) !! i }.
Proof.
  all: intros; simpl in *; simplify_eq; try done.
  exists (o_ID o), o. by rewrite lookup_insert_eq.
Defined.

(** Permissions as a list of rows and the granted rows of each user. *)
Record ref_perms := mkRefPerms { rp_rows : list Permission; rp_grants : N → list Permission }.
#[export] Instance ref_perms_ops : PermissionRepository ref_perms := {
  pr_GetUserPermissions u := λ d, (Ok (rp_grants d u), d);
  pr_GetChildPermissions i := λ d,
    (Ok (List.filter (λ c, bool_decide (p_ParentID c = Some i)) (rp_rows d)), d);
  pr_GetPermissionHierarchy i := λ d,
    (Ok (List.filter (λ c, bool_decide (p_ParentID c = Some i) || (p_ID c =? i)%N) (rp_rows d)), d);
  pr_GetPermissionsByResource r := λ d,
    (Ok (List.filter (λ c, String.eqb (p_Resource c) r) (rp_rows d)), d) }.
#[export, refine] Instance ref_perms_laws : PermissionRepositoryLaws ref_perms := {
  prows := rp_rows; pgrants := rp_grants }.
Proof.
  all: intros; simpl in *; simplify_eq; try done.
  by rewrite list_elem_of_In, filter_In, <- list_elem_of_In, bool_decide_eq_true.
Defined.

(** A list of strings as one text: every character of a field is preceded
    by a mark, every field ends with a semicolon. *)
Fixpoint text_of_field (s : string) : string :=
  match s with
  | EmptyString => ";"
  | String a s' => String "x" (String a (text_of_field s'))
  end.
Fixpoint text_of_list (l : list string) : string :=
  match l with [] => "" | s :: l' => text_of_field s +:+ text_of_list l' end.
Fixpoint list_of_text (s : string) : option (list string) :=
  match s with
  | EmptyString => Some []
  | String a s' =>
      if Ascii.eqb a "x" then
        match s' with
        | EmptyString => None
        | String b s'' =>
            match list_of_text s'' with Some (h :: t) => Some (String b h :: t) | _ => None end
        end
      else match list_of_text s' with Some t => Some ("" :: t) | None => None end
  end.
Lemma list_of_text_of_list l : list_of_text (text_of_list l) = Some l.
Proof.
  induction l as [|s l IH]; [done|]. simpl.
  induction s as [|a s IHs]; simpl; [by rewrite IH | by rewrite IHs].
Qed.
#[global] Arguments text_of_list : simpl never.
#[global] Arguments list_of_text : simpl never.

(** Numbers inside such a text. *)
Definition parse_Z (s : string) : option Z := Z.of_int <$> NilZero.int_of_string s.
Lemma parse_Itoa z : parse_Z (Itoa z) = Some z.
Proof. unfold parse_Z. rewrite int_of_Itoa. simpl. by rewrite DecimalZ.of_to. Qed.

Definition N_text (n : N) : string := Itoa (Z.of_N n).
