(* ===== verification/Database.v ===== *)
(** * The database behind the repositories (src/internal/models, GORM)

    The tables as lists of rows, what the [BeforeCreate] hooks and the column
    tags of src/internal/models make of a row that is written, and GORM on a
    PostgreSQL connection as a parameter: a class of statements and the laws
    its documentation gives them.  Read and write connection are the same
    database: src/internal/grpc/server.go builds the factory with
    [NewRepositoryFactory(db, db)].

    The precision the driver keeps of a timestamp is not modelled. *)

From S2P Require Import Prelude Errors Models.
From Stdlib Require Import Sorted.

(** [models.UserActivity]. *)
Record UserActivity := mkUserActivity {
  ua_ID : N; ua_UserID : N; ua_OrganizationID : N; ua_Action : string; ua_Resource : string;
  ua_Details : string; ua_IPAddress : string; ua_UserAgent : string;
  ua_CreatedAt : Z; ua_UpdatedAt : Z }.

Record Tables := mkTables {
  tb_users : list User;
  tb_organizations : list Organization;
  tb_roles : list Role;
  tb_permissions : list Permission;
  tb_user_roles : list UserRole;
  tb_role_permissions : list RolePermission;
  tb_tokens : list Token;
  tb_user_activities : list UserActivity }.

(** ** Rows

    [row_created now fresh a]: the row an insert stores: the [BeforeCreate]
    hook gives a nil identifier the value [fresh] of [uuid.New()], unset
    [CreatedAt] and [UpdatedAt] are the time of the insert, a false field
    tagged [default:true] takes its default, and the fields tagged with a
    dash are no columns.  [row_touched now a]: an update stamps [UpdatedAt]
    where the model has one. *)
Class Row (A : Type) := {
  row_id : A → N;
  row_created : Z → N → A → A;
  row_touched : Z → A → A;
  rows : Tables → list A;
  with_rows : list A → Tables → Tables }.

Definition stamp (now t : Z) : Z := if (t =? zero_time)%Z then now else t.

Definition User_created (now : Z) (fresh : N) (u : User) : User :=
  let '(mkUser i o e ph fn ln _ ve ll pr tf ts bc fa lu ca ua _ _) := User_BeforeCreate fresh u in
  mkUser i o e ph fn ln true ve ll pr tf ts bc fa lu (stamp now ca) (stamp now ua) "" "".
#[export] Instance User_row : Row User := {
  row_id := u_ID; row_created := User_created; row_touched := as_saved; rows := tb_users;
  with_rows l T := let '(mkTables _ o r p ur rp t a) := T in mkTables l o r p ur rp t a }.

Definition Organization_created (now : Z) (fresh : N) (org : Organization) : Organization :=
  let '(mkOrganization i n d s _ ca ua) := org in
  mkOrganization (BeforeCreate_ID fresh i) n d s true (stamp now ca) (stamp now ua).
Definition Organization_touched (now : Z) (org : Organization) : Organization :=
  let '(mkOrganization i n d s ac ca _) := org in mkOrganization i n d s ac ca now.
#[export] Instance Organization_row : Row Organization := {
  row_id := o_ID; row_created := Organization_created; row_touched := Organization_touched;
  rows := tb_organizations;
  with_rows l T := let '(mkTables u _ r p ur rp t a) := T in mkTables u l r p ur rp t a }.

Definition Role_created (now : Z) (fresh : N) (role : Role) : Role :=
  let '(mkRole i o n d s _ ca ua) := role in
  mkRole (BeforeCreate_ID fresh i) o n d s true (stamp now ca) (stamp now ua).
Definition Role_touched (now : Z) (role : Role) : Role :=
  let '(mkRole i o n d s ac ca _) := role in mkRole i o n d s ac ca now.
#[export] Instance Role_row : Row Role := {
  row_id := r_ID; row_created := Role_created; row_touched := Role_touched; rows := tb_roles;
  with_rows l T := let '(mkTables u o _ p ur rp t a) := T in mkTables u o l p ur rp t a }.

Definition Permission_created (now : Z) (fresh : N) (p : Permission) : Permission :=
  let '(mkPermission i n r a s pi d sy ca ua) := p in
  mkPermission (BeforeCreate_ID fresh i) n r a s pi d sy (stamp now ca) (stamp now ua).
Definition Permission_touched (now : Z) (p : Permission) : Permission :=
  let '(mkPermission i n r a s pi d sy ca _) := p in mkPermission i n r a s pi d sy ca now.
#[export] Instance Permission_row : Row Permission := {
  row_id := p_ID; row_created := Permission_created; row_touched := Permission_touched;
  rows := tb_permissions;
  with_rows l T := let '(mkTables u o r _ ur rp t a) := T in mkTables u o r l ur rp t a }.

Definition UserRole_created (now : Z) (fresh : N) (x : UserRole) : UserRole :=
  let '(mkUserRole i u r ca) := x in mkUserRole (BeforeCreate_ID fresh i) u r (stamp now ca).
#[export] Instance UserRole_row : Row UserRole := {
  row_id := ur_ID; row_created := UserRole_created; row_touched := λ _ x, x; rows := tb_user_roles;
  with_rows l T := let '(mkTables u o r p _ rp t a) := T in mkTables u o r p l rp t a }.

Definition RolePermission_created (now : Z) (fresh : N) (x : RolePermission) : RolePermission :=
  let '(mkRolePermission i r p ca) := x in
  mkRolePermission (BeforeCreate_ID fresh i) r p (stamp now ca).
#[export] Instance RolePermission_row : Row RolePermission := {
  row_id := rp_ID; row_created := RolePermission_created; row_touched := λ _ x, x;
  rows := tb_role_permissions;
  with_rows l T := let '(mkTables u o r p ur _ t a) := T in mkTables u o r p ur l t a }.

Definition Token_created (now : Z) (fresh : N) (t : Token) : Token :=
  let '(mkToken i u ty h ia ea rv ip ag df ca ua) := t in
  mkToken (BeforeCreate_ID fresh i) u ty h ia ea rv ip ag df (stamp now ca) (stamp now ua).
Definition Token_touched (now : Z) (t : Token) : Token :=
  let '(mkToken i u ty h ia ea rv ip ag df ca _) := t in mkToken i u ty h ia ea rv ip ag df ca now.
#[export] Instance Token_row : Row Token := {
  row_id := t_ID; row_created := Token_created; row_touched := Token_touched; rows := tb_tokens;
  with_rows l T := let '(mkTables u o r p ur rp _ a) := T in mkTables u o r p ur rp l a }.

Definition UserActivity_created (now : Z) (fresh : N) (x : UserActivity) : UserActivity :=
  let '(mkUserActivity i u o a r d ip ag ca ua) := x in
  mkUserActivity (BeforeCreate_ID fresh i) u o a r d ip ag (stamp now ca) (stamp now ua).
Definition UserActivity_touched (now : Z) (x : UserActivity) : UserActivity :=
  let '(mkUserActivity i u o a r d ip ag ca _) := x in mkUserActivity i u o a r d ip ag ca now.
#[export] Instance UserActivity_row : Row UserActivity := {
  row_id := ua_ID; row_created := UserActivity_created; row_touched := UserActivity_touched;
  rows := tb_user_activities;
  with_rows l T := let '(mkTables u o r p ur rp t _) := T in mkTables u o r p ur rp t l }.

(** ** Well-formed tables

    The primary keys and the unique indexes the tags declare. *)
Definition constraints (T : Tables) : Prop :=
  (NoDup (u_ID <$> tb_users T) ∧ NoDup (u_Email <$> tb_users T)) ∧
  (NoDup (o_ID <$> tb_organizations T) ∧ NoDup (o_Domain <$> tb_organizations T)) ∧
  NoDup (r_ID <$> tb_roles T) ∧
  (NoDup (p_ID <$> tb_permissions T) ∧ NoDup (p_Name <$> tb_permissions T)) ∧
  (NoDup (ur_ID <$> tb_user_roles T) ∧
   NoDup ((λ x, (ur_UserID x, ur_RoleID x)) <$> tb_user_roles T)) ∧
  (NoDup (rp_ID <$> tb_role_permissions T) ∧
   NoDup ((λ x, (rp_RoleID x, rp_PermissionID x)) <$> tb_role_permissions T)) ∧
  (NoDup (t_ID <$> tb_tokens T) ∧ NoDup (t_TokenHash <$> tb_tokens T)) ∧
  NoDup (ua_ID <$> tb_user_activities T).
#[export] Instance constraints_dec T : Decision (constraints T).
Proof. unfold constraints. apply _. Defined.

(** No stored row has the nil identifier. *)
Definition identified {A} `{Row A} (T : Tables) : Prop := Forall (λ a, row_id a ≠ uuid_Nil) (rows T).
Definition all_identified (T : Tables) : Prop :=
  identified (A:=User) T ∧ identified (A:=Organization) T ∧ identified (A:=Role) T ∧
  identified (A:=Permission) T ∧ identified (A:=UserRole) T ∧ identified (A:=RolePermission) T ∧
  identified (A:=Token) T ∧ identified (A:=UserActivity) T.

(** ** GORM *)

(** A query: the rows it selects, [None] for a recursive query that does not
    terminate, the order it asks for, and its [LIMIT] and [OFFSET]. *)
Record Query (A : Type) := mkQuery {
  q_rows : Tables → option (list A);
  q_le : A → A → bool;
  q_limit : option Z;
  q_offset : Z }.
Arguments mkQuery {A}. Arguments q_rows {A}. Arguments q_le {A}.
Arguments q_limit {A}. Arguments q_offset {A}.

Definition any_order {A} : A → A → bool := λ _ _, true.
Definition select {A} (f : Tables → list A) (le : A → A → bool) : Query A :=
  mkQuery (λ T, Some (f T)) le None 0.
(** GORM leaves out a negative limit and an offset that is not positive. *)
Definition page {A} (limit : option Z) (offset : Z) (l : list A) : list A :=
  let l' := drop (Z.to_nat offset) l in
  match limit with
  | Some n => if (n <? 0)%Z then l' else take (Z.to_nat n) l'
  | None => l'
  end.

Class Gorm (D : Type) := {
  db_NowFunc : D → Z;                       (** [time.Now()] inside GORM *)
  db_uuid_New : D → N;                      (** [uuid.New()] inside a hook *)
  text_le : string → string → bool;         (** the collation of the database *)
  db_First {A} : (A → N) → (Tables → list A) → M D A;
  db_Find {A} : Query A → M D (list A);
  db_Exec : (Tables → Tables) → M D unit;
  db_Transaction : M D unit → M D unit }.

(** Orders of rows by text columns. *)
Definition asc {D} `{Gorm D} {A} (f : A → string) : A → A → bool := λ a b, text_le (f a) (f b).
Definition desc_time {A} (f : A → Z) : A → A → bool := λ a b, (f b <=? f a)%Z.
Definition then_by {A} (le1 le2 : A → A → bool) : A → A → bool :=
  λ a b, le1 a b && (negb (le1 b a) || le2 a b).

Section statements.
Context {D : Type} `{Gorm D} {A : Type} `{Row A}.

Definition db_update (P : A → bool) (f : A → A) (T : Tables) : Tables :=
  with_rows ((λ a, if P a then f a else a) <$> rows T) T.
Definition db_remove (P : A → bool) (T : Tables) : Tables :=
  with_rows (List.filter (λ a, negb (P a)) (rows T)) T.
Definition db_insert (a : A) (T : Tables) : Tables := with_rows (a :: rows T) T.
Definition has_id (i : N) (a : A) : bool := (row_id a =? i)%N.

(** [db.Create(a)]: the row stored. *)
Definition db_Create (a : A) : M D unit :=
  let* now := gets db_NowFunc in
  let* fresh := gets db_uuid_New in
  db_Exec (db_insert (row_created now fresh a)).
(** [db.Save(a)]: an insert for a nil key; otherwise an update of every
    column, and an insert when no row has the key. *)
Definition db_Save (now : Z) (a : A) : M D unit :=
  if (row_id a =? uuid_Nil)%N then db_Create a
  else db_Exec (λ T,
    if existsb (has_id (row_id a)) (rows T)
    then db_update (has_id (row_id a)) (λ _, row_touched now a) T
    else db_insert (row_created now (row_id a) (row_touched now a)) T).
(** [db.Model(..).Where(P).Updates(..)]. *)
Definition db_Updates (P : A → bool) (f : A → A) : M D unit := db_Exec (db_update P f).
(** [db.Where(P).Delete(..)]. *)
Definition db_Delete (P : A → bool) : M D unit := db_Exec (db_remove P).
(** [db.Where(P).First(&a)]: the match with the least primary key. *)
Definition db_FirstWhere (P : A → bool) : M D A := db_First row_id (λ T, List.filter P (rows T)).
(** [db.Where(P).Order(le).Find(&as)]. *)
Definition db_FindWhere (P : A → bool) (le : A → A → bool) : M D (list A) :=
  db_Find (select (λ T, List.filter P (rows T)) le).
End statements.

(** Texts of errors that are nothing but the name of a violated constraint:
    the driver puts the severity in front. *)
Definition bare_violation (e : error) : bool :=
  HasPrefix (Error e) "UNIQUE" || HasPrefix (Error e) "duplicate".

(** Reads report rows of the tables, or an error, [ErrRecordNotFound] when
    there is none, and change nothing.  A statement is atomic and leaves the
    constraints true; an error leaves the tables as they were.  A transaction
    commits what its body did when the body succeeds, and nothing otherwise. *)
Class GormLaws (D : Type) `{Gorm D} := {
  db_tables : D → Tables;
  db_uuid_fresh d : db_uuid_New d ≠ uuid_Nil;
  db_First_ok {A} (key : A → N) q d d' a : db_First key q d = (Ok a, d') →
    a ∈ q (db_tables d) ∧ ∀ b, b ∈ q (db_tables d) → (key a <= key b)%N;
  db_First_none {A} (key : A → N) q d d' e : db_First key q d = (Err e, d') →
    is_sentinel gorm_ErrRecordNotFound e = true → q (db_tables d) = [];
  db_First_keeps {A} (key : A → N) q d : db_tables (db_First key q d).2 = db_tables d;
  db_Find_ok {A} (q : Query A) d d' l : db_Find q d = (Ok l, d') →
    ∃ r s, q_rows q (db_tables d) = Some r ∧ Permutation r s ∧ StronglySorted (λ a b, q_le q a b = true) s ∧
           l = page (q_limit q) (q_offset q) s;
  db_Find_keeps {A} (q : Query A) d : db_tables (db_Find q d).2 = db_tables d;
  db_Exec_ok f d d' : db_Exec f d = (Ok tt, d') →
    db_tables d' = f (db_tables d) ∧ constraints (f (db_tables d));
  db_Exec_err f d d' e : db_Exec f d = (Err e, d') →
    db_tables d' = db_tables d ∧ bare_violation e = false;
  db_Transaction_ok body d d' : db_Transaction body d = (Ok tt, d') →
    ∃ d1 d2, db_tables d1 = db_tables d ∧ body d1 = (Ok tt, d2) ∧ db_tables d' = db_tables d2;
  db_Transaction_err body d d' e : db_Transaction body d = (Err e, d') →
    db_tables d' = db_tables d }.

(** ** Lemmas *)

(** What every model's [Row] satisfies. *)
Class RowLaws (A : Type) `{Row A} := {
  rows_with l T : rows (with_rows l T) = l;
  identified_with l T : all_identified T → Forall (λ a, row_id a ≠ uuid_Nil) l →
    all_identified (with_rows l T);
  identified_rows T : all_identified T → identified (A:=A) T;
  row_created_id now fresh (a : A) :
    row_id (row_created now fresh a) = BeforeCreate_ID fresh (row_id a);
  row_touched_id now (a : A) : row_id (row_touched now a) = row_id a }.

Ltac row_laws :=
  constructor;
  [ by intros ? [] | intros ? [] Hall ?; unfold all_identified in *; destruct_and! Hall; by split_and!
  | by intros ? (?&?&?&?&?&?&?&?) | by intros ? ? [] | by intros ? [] ].
#[export] Instance User_laws : RowLaws User. Proof. row_laws. Qed.
#[export] Instance Organization_laws : RowLaws Organization. Proof. row_laws. Qed.
#[export] Instance Role_laws : RowLaws Role. Proof. row_laws. Qed.
#[export] Instance Permission_laws : RowLaws Permission. Proof. row_laws. Qed.
#[export] Instance UserRole_laws : RowLaws UserRole. Proof. row_laws. Qed.
#[export] Instance RolePermission_laws : RowLaws RolePermission. Proof. row_laws. Qed.
#[export] Instance Token_laws : RowLaws Token. Proof. row_laws. Qed.
#[export] Instance UserActivity_laws : RowLaws UserActivity. Proof. row_laws. Qed.

Definition well_formed (T : Tables) : Prop := constraints T ∧ all_identified T.

Section facts.
Context {D : Type} `{HL : GormLaws D}.

(** The tables are well formed. *)
Definition good (d : D) : Prop := well_formed (db_tables d).

Lemma good_First {A} key (q : Tables → list A) : preserves good (db_First key q).
Proof. intros d Hd. unfold good. by rewrite db_First_keeps. Qed.
Lemma good_Find {A} (q : Query A) : preserves good (db_Find q).
Proof. intros d Hd. unfold good. by rewrite db_Find_keeps. Qed.

Lemma good_Exec f :
  (∀ T, all_identified T → all_identified (f T)) → preserves good (db_Exec f).
Proof.
  intros Hf d [Hc Hi]. unfold good, well_formed. destruct (db_Exec f d) as [[[]|e] d'] eqn:E; cbn [snd].
  - apply db_Exec_ok in E as [-> ?]. split; [done | by apply Hf].
  - apply db_Exec_err in E as [-> _]. done.
Qed.

Lemma good_Transaction body : preserves good body → preserves good (db_Transaction body).
Proof.
  intros Hb d Hd. destruct (db_Transaction body d) as [[[]|e] d'] eqn:E; unfold good; simpl.
  - apply db_Transaction_ok in E as (d1 & d2 & H1 & H2 & ->).
    pose proof (Hb d1) as Hg. rewrite H2 in Hg. apply Hg. unfold good. by rewrite H1.
  - by apply db_Transaction_err in E as ->.
Qed.

Context {A : Type} `{HA : RowLaws A}.

Lemma identified_update (P : A → bool) f T :
  (∀ a, row_id (f a) = row_id a) → all_identified T → all_identified (db_update P f T).
Proof.
  intros Hf HT. apply identified_with; [done|]. apply identified_rows in HT.
  unfold identified in HT. rewrite Forall_fmap. eapply Forall_impl; [exact HT|].
  intros a Ha. simpl. destruct (P a); [by rewrite Hf | done].
Qed.
Lemma identified_insert a T : row_id a ≠ uuid_Nil → all_identified T → all_identified (db_insert a T).
Proof. intros Ha HT. apply identified_with; [done|]. constructor; [done | by apply identified_rows]. Qed.
Lemma identified_remove P T : all_identified T → all_identified (db_remove P T).
Proof.
  intros HT. apply identified_with; [done|]. apply identified_rows in HT as HF.
  unfold identified in HF. rewrite Forall_forall in *. intros x Hx.
  apply list_elem_of_In, filter_In in Hx as [Hx _]. by apply HF, list_elem_of_In.
Qed.

Lemma good_Create a : preserves good (db_Create a).
Proof.
  intros d Hd. unfold db_Create. rewrite !bind_gets. apply good_Exec; [|done].
  intros T HT. apply identified_insert; [|done]. rewrite row_created_id.
  unfold BeforeCreate_ID. destruct (N.eqb_spec (row_id a) uuid_Nil); [apply db_uuid_fresh | done].
Qed.
Lemma good_Save now a : preserves good (db_Save now a).
Proof.
  unfold db_Save. destruct (N.eqb_spec (row_id a) uuid_Nil); [apply good_Create|].
  apply good_Exec. intros T HT. destruct (existsb _ _).
  - apply identified_with; [done|]. apply identified_rows in HT. unfold identified in HT.
    rewrite Forall_fmap. eapply Forall_impl; [exact HT|]. intros b Hb. simpl.
    destruct (has_id _ b); [by rewrite row_touched_id | done].
  - apply identified_insert; [|done]. rewrite row_created_id, row_touched_id.
    unfold BeforeCreate_ID. by destruct (N.eqb_spec (row_id a) uuid_Nil).
Qed.
Lemma good_Updates P f : (∀ a, row_id (f a) = row_id a) → preserves good (db_Updates P f).
Proof. intros Hf. apply good_Exec. intros T. by apply identified_update. Qed.
Lemma good_Delete P : preserves good (db_Delete P).
Proof. apply good_Exec. intros T. apply identified_remove. Qed.

(** A lookup that succeeds: the row, and nothing changed. *)
Lemma FirstWhere_ok P d d' (a : A) : db_FirstWhere P d = (Ok a, d') →
  a ∈ rows (db_tables d) ∧ P a = true ∧ db_tables d' = db_tables d.
Proof.
  intros E. pose proof (db_First_keeps row_id (λ T, List.filter P (rows T)) d) as Hk.
  unfold db_FirstWhere in E. rewrite E in Hk. apply db_First_ok in E as [Hin _].
  apply list_elem_of_In, filter_In in Hin as [Hin HP]. by rewrite list_elem_of_In.
Qed.
Lemma FindWhere_ok P le d d' (l : list A) : db_FindWhere P le d = (Ok l, d') →
  Permutation l (List.filter P (rows (db_tables d))) ∧ db_tables d' = db_tables d.
Proof.
  intros E. pose proof (db_Find_keeps (select (λ T, List.filter P (rows T)) le) d) as Hk.
  unfold db_FindWhere in E. rewrite E in Hk.
  apply db_Find_ok in E as (r & s & [= <-] & Hp & _ & ->). split; [|done].
  unfold page. simpl. by rewrite drop_0.
Qed.
(** A [Save] of a row whose key is in the table. *)
Lemma Save_updates now (a : A) d d' : row_id a ≠ uuid_Nil →
  (∃ old, old ∈ rows (db_tables d) ∧ row_id old = row_id a) → db_Save now a d = (Ok tt, d') →
  db_tables d' = db_update (has_id (row_id a)) (λ _, row_touched now a) (db_tables d).
Proof using.
  clear. intros Hn (old & Hin & Hid) Hr. unfold db_Save in Hr.
  destruct (N.eqb_spec (row_id a) uuid_Nil); [done|]. apply db_Exec_ok in Hr as [-> _].
  replace (existsb _ _) with true; [done|]. symmetry. apply existsb_exists. exists old.
  split; [by apply list_elem_of_In|]. unfold has_id. rewrite Hid. apply N.eqb_refl.
Qed.
End facts.

#[export] Hint Resolve good_First good_Find good_Create good_Save good_Delete : go.

(** ** A reference database

    The tables and the last identifier given out: the laws can hold, and the
    examples have something to run on. *)
Record RefDB := mkRefDB { rdb_tables : Tables; rdb_last : N }.
Definition rdb_next (d : RefDB) : RefDB := mkRefDB (rdb_tables d) (rdb_last d + 1).
Definition rdb_refused : error :=
  ErrorString "ERROR: duplicate key value violates unique constraint (SQLSTATE 23505)".

Section ref_sort.
Context {A : Type} (le : A → A → bool).
Fixpoint ref_place (a : A) (l : list A) : list A :=
  match l with
  | [] => [a]
  | b :: l' => if le a b then a :: l else b :: ref_place a l'
  end.
Definition ref_sort (l : list A) : list A := foldr ref_place [] l.
Fixpoint ref_sorted (l : list A) : bool :=
  match l with [] => true | a :: l' => forallb (le a) l' && ref_sorted l' end.

Lemma ref_place_perm a l : Permutation (a :: l) (ref_place a l).
Proof.
  induction l as [|b l IH]; [done|]. simpl. destruct (le a b); [done|].
  rewrite <- IH. apply perm_swap.
Qed.
Lemma ref_sort_perm l : Permutation l (ref_sort l).
Proof. induction l as [|a l IH]; [done|]. simpl. by rewrite <- ref_place_perm, <- IH. Qed.
Lemma ref_sorted_spec l : ref_sorted l = true → StronglySorted (λ a b, le a b = true) l.
Proof.
  induction l as [|a l IH]; [constructor|]. simpl. intros [Ha Hl]%andb_true_iff.
  constructor; [by apply IH|]. apply Forall_forall. intros b Hb. rewrite forallb_forall in Ha.
  by apply Ha, list_elem_of_In.
Qed.
End ref_sort.

#[export] Instance ref_gorm : Gorm RefDB := {
  db_NowFunc d := 1000;
  db_uuid_New d := (rdb_last d + 1)%N;
  text_le a b := true;
  db_First A key q := λ d,
    (match ref_sort (λ a b, (key a <=? key b)%N) (q (rdb_tables d)) with
     | a :: l => if forallb (λ b, (key a <=? key b)%N) l then Ok a else Err rdb_refused
     | [] => Err (ErrorLib gorm_ErrRecordNotFound "record not found") end, d);
  db_Find A q := λ d,
    (match q_rows q (rdb_tables d) with
     | Some r => if ref_sorted (q_le q) (ref_sort (q_le q) r)
                 then Ok (page (q_limit q) (q_offset q) (ref_sort (q_le q) r)) else Err rdb_refused
     | None => Err rdb_refused end, d);
  db_Exec f := λ d,
    if decide (constraints (f (rdb_tables d))) then (Ok tt, rdb_next (mkRefDB (f (rdb_tables d)) (rdb_last d)))
    else (Err rdb_refused, d);
  db_Transaction body := λ d,
    match body d with (Ok _, d') => (Ok tt, d') | (Err e, _) => (Err e, d) end }.

#[export, refine] Instance ref_gorm_laws : GormLaws RefDB := { db_tables := rdb_tables }.
Proof.
  - intros d. unfold db_uuid_New, uuid_Nil. simpl. lia.
  - intros A key q d d' a. unfold db_First. simpl.
    pose proof (ref_sort_perm (λ a b, (key a <=? key b)%N) (q (rdb_tables d))) as Hp.
    destruct (ref_sort _ _) as [|x l]; [done|]. destruct (forallb _ l) eqn:Hf; intros [= -> <-].
    setoid_rewrite Hp. split; [by left|]. intros b [->|Hb]%elem_of_cons; [done|].
    rewrite forallb_forall in Hf. by apply N.leb_le, Hf, list_elem_of_In.
  - intros A key q d d' e. unfold db_First. simpl.
    pose proof (ref_sort_perm (λ a b, (key a <=? key b)%N) (q (rdb_tables d))) as Hp.
    destruct (ref_sort _ _) as [|x l]; [intros _ _; by apply Permutation_nil_r|].
    destruct (forallb _ l); intros [= <- <-]; done.
  - done.
  - intros A q d d' l. unfold db_Find. simpl. destruct (q_rows _ _) as [r|]; [|done].
    destruct (ref_sorted _ _) eqn:E; intros [= <- <-]. exists r, (ref_sort (q_le q) r).
    split_and!; [done | apply ref_sort_perm | by apply ref_sorted_spec | done].
  - done.
  - intros f d d'. unfold db_Exec. simpl. case_decide; [|done]. by intros [= <-].
  - intros f d d' e. unfold db_Exec. simpl. case_decide; [done|]. by intros [= <- <-].
  - intros body d d'. unfold db_Transaction. simpl.
    destruct (body d) as [[[]|e] d1] eqn:E; intros [= <-]. by exists d, d1.
  - intros body d d' e. unfold db_Transaction. simpl.
    by destruct (body d) as [[[]|e'] d1]; intros [= <- <-].
Defined.

Definition empty_tables : Tables := mkTables [] [] [] [] [] [] [] [].
