(* ===== verification/RateLimiter.v ===== *)
(** * Brute-force protection (src/internal/application/services/rate_limiter.go)

    The limiter keeps two counters and two locks per subject in the cache:
    [ratelimit:email:attempts:E], [ratelimit:email:lock:E] and the same for
    IP addresses.  It is modelled on any state with [CacheOps]; the logging
    calls are left out. *)

From S2P Require Import Prelude Errors Models Ifaces.

Record RateLimiter := mkRateLimiter {
  maxAttemptsPerEmail : Z;
  maxAttemptsPerIP : Z;
  emailWindowDuration : Z;
  ipWindowDuration : Z;
  lockoutDuration : Z }.

Record RateLimitConfig := mkRateLimitConfig {
  MaxAttemptsPerEmail : Z; MaxAttemptsPerIP : Z;
  EmailWindowMinutes : Z; IPWindowMinutes : Z; LockoutMinutes : Z }.

Definition NewRateLimiter : RateLimiter :=
  mkRateLimiter 5 20 (15 * Minute) (15 * Minute) (15 * Minute).

(** The receiver is updated in place; only the durations are multiplied,
    on 64 bits. *)
Definition UpdateConfig (config : RateLimitConfig) (rl : RateLimiter) : RateLimiter :=
  mkRateLimiter (MaxAttemptsPerEmail config) (MaxAttemptsPerIP config)
    (wrap64 (EmailWindowMinutes config * Minute))
    (wrap64 (IPWindowMinutes config * Minute))
    (wrap64 (LockoutMinutes config * Minute)).

Definition getEmailAttemptsKey (email : string) : string := "ratelimit:email:attempts:" +:+ email.
Definition getEmailLockKey (email : string) : string := "ratelimit:email:lock:" +:+ email.
Definition getIPAttemptsKey (ip : string) : string := "ratelimit:ip:attempts:" +:+ ip.
Definition getIPLockKey (ip : string) : string := "ratelimit:ip:lock:" +:+ ip.

Section ops.
Context {C : Type} `{CacheOps C} (rl : RateLimiter).

(** A missing key and an unreadable value both count as zero. *)
Definition getAttemptCount (now : Z) (key : string) : M C Z :=
  let* data := attempt (cache_Get now key) in
  match data with
  | Err _ => ret 0
  | Ok s => match Atoi s with Some count => ret count | None => ret 0 end
  end.

Definition incrementAttempts (now : Z) (key : string) (ttl : Z) : M C unit :=
  let* currentCount := getAttemptCount now key in
  let newCount := wrap64 (currentCount + 1) in
  wrap_err (ErrorWrap "failed to increment attempts")
    (cache_Set now key (Itoa newCount) ttl).

Definition lockEmail (now : Z) (email : string) : M C unit :=
  wrap_err (ErrorWrap "failed to lock email")
    (cache_Set now (getEmailLockKey email) "locked" (lockoutDuration rl)).
Definition lockIP (now : Z) (ip : string) : M C unit :=
  wrap_err (ErrorWrap "failed to lock IP")
    (cache_Set now (getIPLockKey ip) "locked" (lockoutDuration rl)).

Definition isEmailBlocked (now : Z) (email : string) : M C bool :=
  let attemptsKey := getEmailAttemptsKey email in
  let lockKey := getEmailLockKey email in
  let* exists_ := cache_Exists now lockKey in
  if exists_ then ret true
  else
    let* attempts := getAttemptCount now attemptsKey in
    if maxAttemptsPerEmail rl <=? attempts then
      attempt (F:=error) (lockEmail now email) ;;; ret true
    else ret false.

Definition isIPBlocked (now : Z) (ip : string) : M C bool :=
  let attemptsKey := getIPAttemptsKey ip in
  let lockKey := getIPLockKey ip in
  let* exists_ := cache_Exists now lockKey in
  if exists_ then ret true
  else
    let* attempts := getAttemptCount now attemptsKey in
    if maxAttemptsPerIP rl <=? attempts then
      attempt (F:=error) (lockIP now ip) ;;; ret true
    else ret false.

Definition IsBlocked (now : Z) (email ip : string) : M C bool :=
  let* emailBlocked :=
    wrap_err (ErrorWrap "failed to check email blocking") (isEmailBlocked now email) in
  if emailBlocked then ret true
  else
    let* ipBlocked :=
      wrap_err (ErrorWrap "failed to check IP blocking") (isIPBlocked now ip) in
    if ipBlocked then ret true else ret false.

Definition ClearAttempts (now : Z) (email : string) : M C unit :=
  wrap_err (ErrorWrap "failed to clear email attempts")
    (cache_Delete now (getEmailAttemptsKey email)).

Definition recordEmailAttempt (now : Z) (email : string) (success : bool) : M C unit :=
  if success then ClearAttempts now email
  else incrementAttempts now (getEmailAttemptsKey email) (emailWindowDuration rl).

Definition recordIPAttempt (now : Z) (ip : string) (success : bool) : M C unit :=
  incrementAttempts now (getIPAttemptsKey ip) (ipWindowDuration rl).

Definition RecordAttempt (now : Z) (email ip : string) (success : bool) : M C unit :=
  wrap_err (ErrorWrap "failed to record email attempt")
    (recordEmailAttempt now email success) ;;;
  wrap_err (ErrorWrap "failed to record IP attempt")
    (recordIPAttempt now ip success).
End ops.

(** A run of failed attempts for one email, each with its time and address. *)
Fixpoint record_failures {C} `{CacheOps C} (rl : RateLimiter) (email : string)
    (l : list (Z * string)) : M C unit :=
  match l with
  | [] => ret tt
  | (now, ip) :: l' => RecordAttempt rl now email ip false ;;; record_failures rl email l'
  end.

(** Consecutive attempts are less than a window apart. *)
Fixpoint within_window (w last : Z) (l : list (Z * string)) : Prop :=
  match l with
  | [] => True
  | (now, _) :: l' => now < last + w ∧ within_window w now l'
  end.
Fixpoint last_time (last : Z) (l : list (Z * string)) : Z :=
  match l with [] => last | (now, _) :: l' => last_time now l' end.

(** ** Lemmas *)

(** The four key families are disjoint, and injective in their subject. *)
Lemma attempts_key_email_ip e ip : getEmailAttemptsKey e ≠ getIPAttemptsKey ip.
Proof. discriminate. Qed.
Lemma attempts_key_lock e e' : getEmailAttemptsKey e ≠ getEmailLockKey e'.
Proof. discriminate. Qed.
Lemma email_attempts_inj e e' : getEmailAttemptsKey e = getEmailAttemptsKey e' → e = e'.
Proof. apply str_app_inj_l. Qed.
Lemma ip_keys_email_lock ip e : getIPAttemptsKey ip ≠ getEmailLockKey e.
Proof. discriminate. Qed.
#[export] Hint Resolve attempts_key_email_ip attempts_key_lock ip_keys_email_lock : go.

Section proofs.
Context {C : Type} `{CacheLaws C} (rl : RateLimiter).

(** A count is read back; reading changes nothing a client relies on. *)
Lemma getAttemptCount_keeps c key now :
  ∃ n c', getAttemptCount now key c = (Ok n, c') ∧ ckeeps now (λ _, True) c c'.
Proof.
  unfold getAttemptCount, bind, attempt. pose proof (cache_Get_keeps c key now) as Hk.
  destruct (cache_Get now key c) as [[s|e] c1]; [destruct (Atoi s)|]; eexists _, _; done.
Qed.

Lemma getAttemptCount_has c key n d now :
  chas c key (Itoa n) d → now < d → min_int ≤ n ≤ max_int →
  ∃ c', getAttemptCount now key c = (Ok n, c') ∧ ckeeps now (λ _, True) c c'.
Proof.
  intros Hh Hd Hn. destruct (getAttemptCount_keeps c key now) as (m & c' & Hr & Hk).
  exists c'. rewrite Hr. split; [|done]. revert Hr. unfold getAttemptCount, bind, attempt.
  pose proof (cache_Get_has c key (Itoa n) d now Hh Hd) as Hg.
  destruct (cache_Get now key c) as [r c1]; simpl in Hg; subst r.
  rewrite Atoi_Itoa by done. by intros [= -> ->].
Qed.

Lemma getAttemptCount_abs c key now : cabs c key →
  ∃ c', getAttemptCount now key c = (Ok 0, c') ∧ ckeeps now (λ _, True) c c'.
Proof.
  intros Ha. pose proof (cache_Get_abs c key now Ha) as Hg.
  pose proof (cache_Get_keeps c key now) as Hk.
  unfold getAttemptCount, bind, attempt.
  destruct (cache_Get now key c) as [[s|e] c1]; [done|]. by exists c1.
Qed.

(** An increment touches no other key, whatever it meets. *)
Lemma incrementAttempts_keeps c key ttl now :
  ckeeps now (λ k, k ≠ key) c (incrementAttempts now key ttl c).2.
Proof.
  unfold incrementAttempts.
  destruct (getAttemptCount_keeps c key now) as (n & c1 & Hg & Hk).
  erewrite bind_step by exact Hg. unfold wrap_err.
  pose proof (cache_Set_keeps c1 key (Itoa (wrap64 (n + 1))) ttl now) as Hs.
  destruct (cache_Set _ _ _ _ c1) as [r c2]. simpl in *.
  eapply ckeeps_weaken, ckeeps_trans; [|done|exact Hk|exact Hs]. by intros.
Qed.

(** One successful increment raises the stored count by one, readable for
    the next window. *)
Lemma incrementAttempts_has c c' key n ttl d now :
  chas c key (Itoa n) d → now < d → min_int ≤ n < max_int → 0 < ttl →
  incrementAttempts now key ttl c = (Ok tt, c') →
  chas c' key (Itoa (n + 1)) (now + ttl).
Proof.
  intros Hh Hd Hn Ht Hi. unfold incrementAttempts in Hi.
  destruct (getAttemptCount_has c key n d now) as (c1 & Hg & _); [done|done|lia|].
  erewrite bind_step in Hi by exact Hg. rewrite wrap_err_ok, wrap64_small in Hi by lia.
  eapply cache_Set_has; eauto.
Qed.

Lemma incrementAttempts_first c c' key ttl now :
  cabs c key → 0 < ttl → incrementAttempts now key ttl c = (Ok tt, c') →
  chas c' key (Itoa 1) (now + ttl).
Proof.
  intros Ha Ht Hi. unfold incrementAttempts in Hi.
  destruct (getAttemptCount_abs c key now Ha) as (c1 & Hg & _).
  erewrite bind_step in Hi by exact Hg. rewrite wrap_err_ok in Hi.
  eapply cache_Set_has; eauto.
Qed.

(** [RecordAttempt] of a failure: the email counter steps, and the IP
    counter cannot disturb it. *)
Lemma RecordAttempt_inv c c' now email ip :
  RecordAttempt rl now email ip false c = (Ok tt, c') →
  ∃ c1, incrementAttempts now (getEmailAttemptsKey email) (emailWindowDuration rl) c
          = (Ok tt, c1) ∧
        ckeeps now (λ k, k ≠ getIPAttemptsKey ip) c1 c'.
Proof.
  unfold RecordAttempt. intros Hr. go_inv. apply wrap_err_ok in Hrun, Hr.
  destruct a. exists w. split; [done|].
  pose proof (incrementAttempts_keeps w (getIPAttemptsKey ip) (ipWindowDuration rl) now) as Hk.
  unfold recordIPAttempt in Hr. by rewrite Hr in Hk.
Qed.

Lemma RecordAttempt_has c c' now email ip n d :
  chas c (getEmailAttemptsKey email) (Itoa n) d → now < d → min_int ≤ n < max_int →
  0 < emailWindowDuration rl → RecordAttempt rl now email ip false c = (Ok tt, c') →
  chas c' (getEmailAttemptsKey email) (Itoa (n + 1)) (now + emailWindowDuration rl).
Proof.
  intros Hh Hd Hn Hw Hr. apply RecordAttempt_inv in Hr as (c1 & Hi & Hk & _).
  apply Hk; [apply attempts_key_email_ip | lia |]. by eapply incrementAttempts_has.
Qed.

Lemma record_failures_has c c' email l n last :
  chas c (getEmailAttemptsKey email) (Itoa n) (last + emailWindowDuration rl) →
  within_window (emailWindowDuration rl) last l →
  0 ≤ n → n + Z.of_nat (length l) < max_int → 0 < emailWindowDuration rl →
  record_failures rl email l c = (Ok tt, c') →
  chas c' (getEmailAttemptsKey email) (Itoa (n + Z.of_nat (length l)))
    (last_time last l + emailWindowDuration rl).
Proof.
  revert c n last. induction l as [|[now ip] l IH]; intros c n last Hh Hw Hn Hm Hd Hr.
  - simpl in *. unfold ret in Hr. simplify_eq. by rewrite Z.add_0_r.
  - cbn [record_failures within_window length last_time] in *. destruct Hw as [Hn1 Hw].
    go_inv. destruct a. eapply RecordAttempt_has in Hrun; [|done|done|unfold min_int; lia|done].
    apply (IH _ (n + 1) now) in Hr; [|done|done|lia|lia|done].
    by replace (n + Z.of_nat (S (length l))) with (n + 1 + Z.of_nat (length l)) by lia.
Qed.

(** The counter decides [isEmailBlocked] once it has reached the limit,
    and then the lock is set. *)
Lemma isEmailBlocked_at_limit c email n d now :
  chas c (getEmailAttemptsKey email) (Itoa n) d → now < d →
  maxAttemptsPerEmail rl ≤ n ≤ max_int → min_int ≤ maxAttemptsPerEmail rl →
  is_ok (cache_Exists now (getEmailLockKey email) c).1 = true →
  (isEmailBlocked rl now email c).1 = Ok true.
Proof.
  intros Hh Hd Hn Hm Hx. unfold isEmailBlocked, bind at 1.
  pose proof (cache_Exists_keeps c (getEmailLockKey email) now) as Hk.
  destruct (cache_Exists _ _ c) as [[[]|e] c1]; [done| |done]. simpl in Hk.
  destruct (getAttemptCount_has c1 (getEmailAttemptsKey email) n d now) as (c2 & Hg & _);
    [by apply Hk | done | lia |].
  erewrite bind_step by exact Hg.
  destruct (Z.leb_spec (maxAttemptsPerEmail rl) n); [|lia].
  unfold bind, attempt. by destruct (lockEmail rl now email c2) as [? ?].
Qed.
End proofs.

(** ** Properties *)


(** Five failures in five seconds on the default limiter, then a login. *)
Definition five_failures : list (Z * string) :=
  [(0, "10.0.0.1"); (Second, "10.0.0.1"); (2 * Second, "10.0.0.2");
   (3 * Second, "10.0.0.1"); (4 * Second, "10.0.0.3")].

