(* ===== verification/TokenService.v ===== *)
(** * JWT tokens (src/internal/application/services/token_service.go)

    Access and refresh tokens: generation, validation against blacklist,
    cache, signature and database, refresh, revocation and key rotation.
    The service is modelled on a state made of its own fields
    ([TokenState]), the cache manager, the Redis client of the blacklist and
    the token repository.  The memory pools only recycle a claims struct
    that is reset before use and are left out; the tickers of the background
    routines are the operations [cleanupTick] and [rotateKeys]. *)

From S2P Require Import Prelude Errors Models Ifaces.

Record TokenClaims := mkTokenClaims {
  tc_UserID : N; tc_OrganizationID : N; tc_Email : string; tc_TokenType : string;
  tc_KeyVersion : Z; tc_IPAddress : string; tc_DeviceFingerprint : string;
  tc_SessionID : string;
  (* jwt.RegisteredClaims *)
  tc_ID : string; tc_Subject : string;
  tc_IssuedAt : option Z; tc_ExpiresAt : option Z; tc_NotBefore : option Z;
  tc_Issuer : string; tc_Audience : list string }.

Record TokenMetrics := mkTokenMetrics {
  TokensGenerated : Z; TokensValidated : Z; TokensRevoked : Z; CacheHits : Z;
  CacheMisses : Z; ValidationErrors : Z; KeyRotations : Z }.

Record SecurityContext := mkSecurityContext {
  sc_IPAddress : string; sc_UserAgent : string; sc_DeviceFingerprint : string;
  sc_SessionID : string }.

(** The fields of the service that change; [previousKey] is nil at first. *)
Record TokenState := mkTokenState {
  ts_currentKey : string; ts_previousKey : option string; ts_keyVersion : Z;
  ts_metrics : TokenMetrics }.

(** github.com/golang-jwt/jwt/v5.  [jwt_ParseWithClaims now s kf] hands to
    the key function whether the signing method is HMAC and the claims it
    decoded; its answer carries [token.Valid]. *)
Class JwtLib := {
  NewNumericDate : Z → Z;
  jwt_SignedString : string → TokenClaims → res error string;
  jwt_ParseWithClaims :
    Z → string → (bool → TokenClaims → res error string) → res error (TokenClaims * bool);
  jwt_ParseUnverified : string → res error TokenClaims }.

(** Documented behaviour: an HS256 token parses back to the claims that were
    signed exactly when the key function offers the signing key and the
    [nbf] and [exp] claims admit the current time; a token for which the key
    function offers another key, or none, is refused. *)
Definition time_valid (now : Z) (c : TokenClaims) : bool :=
  match tc_ExpiresAt c with Some e => (now <? e)%Z | None => true end &&
  match tc_NotBefore c with Some n => (n <=? now)%Z | None => true end.
Class JwtLaws `{JwtLib} := {
  jwt_Parse_signed key c s now kf : jwt_SignedString key c = Ok s →
    kf true c = Ok key → time_valid now c = true →
    jwt_ParseWithClaims now s kf = Ok (c, true);
  jwt_Parse_refused key c s now kf : jwt_SignedString key c = Ok s →
    kf true c ≠ Ok key → is_ok (jwt_ParseWithClaims now s kf) = false }.

(** [encoding/json] on [TokenClaims]. *)
Class ClaimsJson := {
  claims_Marshal : TokenClaims → res error string;
  claims_Unmarshal : string → res error TokenClaims }.
Class ClaimsJsonLaws `{ClaimsJson} := {
  claims_Unmarshal_Marshal c s : claims_Marshal c = Ok s → claims_Unmarshal s = Ok c }.

(** The state the service works on. *)
Record TSW (C R D : Type) := mkTSW {
  w_ts : TokenState; w_cache : C; w_redis : R; w_tokens : D }.
Arguments mkTSW {C R D}. Arguments w_ts {C R D}. Arguments w_cache {C R D}.
Arguments w_redis {C R D}. Arguments w_tokens {C R D}.

(** The random values one [GenerateTokenPair] draws: the session id and a
    [uuid.New()] for the [jti] and the row of each token. *)
Record TokenRand := mkTokenRand {
  rd_session : string; rd_access_jti : N; rd_access_id : N;
  rd_refresh_jti : N; rd_refresh_id : N }.

Definition seconds (n : Z) : Z := wrap64 (n * Second).
Definition claimsKey (h : string) : string := "token:claims:" +:+ h.
Definition blacklistKey (h : string) : string := "token:blacklist:" +:+ h.

Section ops.
Context {C R D : Type} `{CacheOps C} `{RedisOps R} `{TokenRepository D}.
Context `{JwtLib} `{UuidLib} `{ClaimsJson}.
(** [hex.EncodeToString(sha256.Sum256(token))]. *)
Context (sha256_hex : string → string) (config : JWTConfig).
Abbreviation W := (TSW C R D).

Definition on_cache {A} (m : M C A) : M W A :=
  zoom w_cache (λ c w, mkTSW (w_ts w) c (w_redis w) (w_tokens w)) m.
Definition on_redis {A} (m : M R A) : M W A :=
  zoom w_redis (λ r w, mkTSW (w_ts w) (w_cache w) r (w_tokens w)) m.
Definition on_tokens {A} (m : M D A) : M W A :=
  zoom w_tokens (λ d w, mkTSW (w_ts w) (w_cache w) (w_redis w) d) m.
Definition on_ts (f : TokenState → TokenState) : M W unit :=
  modify (λ w, mkTSW (f (w_ts w)) (w_cache w) (w_redis w) (w_tokens w)).

Definition NewTokenState : TokenState :=
  mkTokenState (jc_Secret config) None 1 (mkTokenMetrics 0 0 0 0 0 0 0).

Definition updateMetrics (f : TokenMetrics → TokenMetrics) : M W unit :=
  on_ts (λ s, mkTokenState (ts_currentKey s) (ts_previousKey s) (ts_keyVersion s)
                (f (ts_metrics s))).
Definition addGenerated (k : Z) (m : TokenMetrics) : TokenMetrics :=
  let '(mkTokenMetrics g v r h ms e k') := m in mkTokenMetrics (wrap64 (g + k)) v r h ms e k'.
Definition addValidated (m : TokenMetrics) : TokenMetrics :=
  let '(mkTokenMetrics g v r h ms e k) := m in mkTokenMetrics g (wrap64 (v + 1)) r h ms e k.
Definition addRevoked (n : Z) (m : TokenMetrics) : TokenMetrics :=
  let '(mkTokenMetrics g v r h ms e k) := m in mkTokenMetrics g v (wrap64 (r + n)) h ms e k.
Definition addHit (m : TokenMetrics) : TokenMetrics :=
  let '(mkTokenMetrics g v r h ms e k) := m in mkTokenMetrics g v r (wrap64 (h + 1)) ms e k.
Definition addMiss (m : TokenMetrics) : TokenMetrics :=
  let '(mkTokenMetrics g v r h ms e k) := m in mkTokenMetrics g v r h (wrap64 (ms + 1)) e k.
Definition addValidationError (m : TokenMetrics) : TokenMetrics :=
  let '(mkTokenMetrics g v r h ms e k) := m in mkTokenMetrics g v r h ms (wrap64 (e + 1)) k.
Definition addRotation (m : TokenMetrics) : TokenMetrics :=
  let '(mkTokenMetrics g v r h ms e k) := m in mkTokenMetrics g v r h ms e (wrap64 (k + 1)).

Definition getKeyVersion : M W Z := gets (λ w, ts_keyVersion (w_ts w)).
Definition hashToken (token : string) : string := sha256_hex token.

Definition expiry_of (ty : TokenType) (issuedAt : Z) : res error Z :=
  match ty with
  | AccessToken => Ok (issuedAt + seconds (jc_AccessExpiry config))
  | RefreshToken => Ok (issuedAt + seconds (jc_RefreshExpiry config))
  | ResetToken => Err (ErrorString ("invalid token type: " +:+ TokenType_string ty))
  end.

(** The claims and the row [generateToken] builds. *)
Definition mintClaims (version : Z) (jti userID organizationID : N) (email : string)
    (ty : TokenType) (sec : option SecurityContext) (sessionID : string)
    (issuedAt expiresAt : Z) : TokenClaims :=
  mkTokenClaims userID organizationID email (TokenType_string ty) version
    (match sec with Some s => sc_IPAddress s | None => "" end)
    (match sec with Some s => sc_DeviceFingerprint s | None => "" end)
    sessionID (uuid_String jti) (uuid_String userID)
    (Some (NewNumericDate issuedAt)) (Some (NewNumericDate expiresAt))
    (Some (NewNumericDate issuedAt)) "erp-auth-service" ["erp-suite"].
Definition mintRow (id userID : N) (ty : TokenType) (sec : option SecurityContext)
    (tokenString : string) (issuedAt expiresAt : Z) : Token :=
  mkToken id userID ty (hashToken tokenString) issuedAt expiresAt None
    (match sec with Some s => sc_IPAddress s | None => "" end)
    (match sec with Some s => sc_UserAgent s | None => "" end)
    (match sec with Some s => sc_DeviceFingerprint s | None => "" end)
    issuedAt issuedAt.

Definition generateToken (jti id : N) (userID organizationID : N) (email : string)
    (ty : TokenType) (sec : option SecurityContext) (sessionID : string) (issuedAt : Z)
    : M W (string * Token) :=
  let* expiresAt := lift_res (expiry_of ty issuedAt) in
  let* version := getKeyVersion in
  let claims := mintClaims version jti userID organizationID email ty sec sessionID
                  issuedAt expiresAt in
  let* key := gets (λ w : W, ts_currentKey (w_ts w)) in
  let* tokenString :=
    wrap_err (ErrorWrap "failed to sign token") (lift_res (jwt_SignedString key claims)) in
  ret (tokenString, mintRow id userID ty sec tokenString issuedAt expiresAt).

Definition cacheTokenClaims (now : Z) (tokenHash : string) (claims : TokenClaims) : M W unit :=
  let* claimsData :=
    wrap_err (ErrorWrap "failed to marshal claims") (lift_res (claims_Marshal claims)) in
  let ttl := if String.eqb (tc_TokenType claims) (TokenType_string RefreshToken)
             then seconds (jc_RefreshExpiry config) else seconds (jc_AccessExpiry config) in
  on_cache (cache_Set now (claimsKey tokenHash) claimsData ttl).

(** The claims cached for a token entity: no email, session id or [jti],
    and the user id in the place of the organization id. *)
Definition entityClaims (version : Z) (e : Token) : TokenClaims :=
  mkTokenClaims (t_UserID e) (t_UserID e) "" (TokenType_string (t_TokenType e)) version
    (t_IPAddress e) (t_DeviceFingerprint e) "" "" (uuid_String (t_UserID e))
    (Some (NewNumericDate (t_IssuedAt e))) (Some (NewNumericDate (t_ExpiresAt e)))
    (Some (NewNumericDate (t_IssuedAt e))) "erp-auth-service" ["erp-suite"].

Definition cacheTokens (now : Z) (accessToken refreshToken : string)
    (accessEntity refreshEntity : Token) : M W unit :=
  let* v1 := getKeyVersion in
  wrap_err (ErrorWrap "failed to cache access token")
    (cacheTokenClaims now (hashToken accessToken) (entityClaims v1 accessEntity)) ;;;
  let* v2 := getKeyVersion in
  wrap_err (ErrorWrap "failed to cache refresh token")
    (cacheTokenClaims now (hashToken refreshToken) (entityClaims v2 refreshEntity)).

Definition GenerateTokenPair (now : Z) (rnd : TokenRand) (userID organizationID : N)
    (email : string) (sec : option SecurityContext) : M W TokenPair :=
  let* (accessToken, accessEntity) :=
    wrap_err (ErrorWrap "failed to generate access token")
      (generateToken (rd_access_jti rnd) (rd_access_id rnd) userID organizationID email
         AccessToken sec (rd_session rnd) now) in
  let* (refreshToken, refreshEntity) :=
    wrap_err (ErrorWrap "failed to generate refresh token")
      (generateToken (rd_refresh_jti rnd) (rd_refresh_id rnd) userID organizationID email
         RefreshToken sec (rd_session rnd) now) in
  wrap_err (ErrorWrap "failed to store access token") (on_tokens (tr_Create accessEntity)) ;;;
  wrap_err (ErrorWrap "failed to store refresh token") (on_tokens (tr_Create refreshEntity)) ;;;
  attempt (F:=error) (cacheTokens now accessToken refreshToken accessEntity refreshEntity) ;;;
  updateMetrics (addGenerated 2) ;;;
  ret (mkTokenPair accessToken refreshToken (t_ExpiresAt accessEntity)
         (t_ExpiresAt refreshEntity) "Bearer").

Definition getTokenFromCache (now : Z) (tokenHash : string) : M W TokenClaims :=
  let* data := on_cache (cache_Get now (claimsKey tokenHash)) in
  wrap_err (ErrorWrap "failed to unmarshal cached claims") (lift_res (claims_Unmarshal data)).

Definition removeTokenFromCache (now : Z) (tokenHash : string) : M W unit :=
  on_cache (cache_Delete now (claimsKey tokenHash)).

Definition blacklistToken (now : Z) (tokenHash : string) : M W unit :=
  on_redis (redis_Set now (blacklistKey tokenHash) "revoked"
              (seconds (jc_RefreshExpiry config))).

(** [result.Val() > 0]: a command that failed has value 0. *)
Definition isTokenBlacklisted (now : Z) (tokenHash : string) : M W bool :=
  let* result := attempt (F:=error) (on_redis (redis_Exists now (blacklistKey tokenHash))) in
  ret (match result with Ok n => 0 <? n | Err _ => false end)%Z.

(** The key function of [parseAndValidateJWT]; the message leaves out the
    algorithm name of the refused header. *)
Definition select_key (s : TokenState) (hmac : bool) (claims : TokenClaims) : res error string :=
  if negb hmac then Err (ErrorString "unexpected signing method")
  else if (tc_KeyVersion claims =? ts_keyVersion s)%Z then Ok (ts_currentKey s)
  else if (tc_KeyVersion claims =? ts_keyVersion s - 1)%Z then
    match ts_previousKey s with
    | Some k => Ok k
    | None => Err (ErrorString ("invalid key version: " +:+ Itoa (tc_KeyVersion claims)))
    end
  else Err (ErrorString ("invalid key version: " +:+ Itoa (tc_KeyVersion claims))).

Definition parseAndValidateJWT (now : Z) (tokenString : string) : M W TokenClaims :=
  let* s := gets (λ w : W, w_ts w) in
  let* (claims, valid) := lift_res (jwt_ParseWithClaims now tokenString (select_key s)) in
  if valid then ret claims else fail (ErrorString "token is invalid").

(** [ValidateToken] from the cache miss on. *)
Definition validateUncached (now : Z) (tokenString tokenHash : string) : M W TokenClaims :=
  updateMetrics addMiss ;;;
  let* parsed := attempt (parseAndValidateJWT now tokenString) in
  match parsed with
  | Err e => updateMetrics addValidationError ;;; fail (ErrorWrap "invalid token" e)
  | Ok claims =>
      let* row := attempt (on_tokens (tr_GetByTokenHash now tokenHash)) in
      match row with
      | Err e =>
          updateMetrics addValidationError ;;;
          fail (ErrorWrap "token not found or revoked" e)
      | Ok tokenEntity =>
          if negb (Token_IsValid tokenEntity now) then
            updateMetrics addValidationError ;;;
            fail (ErrorString "token is expired or revoked")
          else
            attempt (F:=error) (cacheTokenClaims now tokenHash claims) ;;;
            updateMetrics addValidated ;;;
            ret claims
      end
  end.

Definition ValidateToken (now : Z) (tokenString : string) : M W TokenClaims :=
  let tokenHash := hashToken tokenString in
  let* blacklisted := isTokenBlacklisted now tokenHash in
  if blacklisted then
    updateMetrics addValidationError ;;; fail (ErrorString "token is blacklisted")
  else
    let* cached := attempt (getTokenFromCache now tokenHash) in
    match cached with
    | Ok claims => updateMetrics (λ m, addHit (addValidated m)) ;;; ret claims
    | Err _ => validateUncached now tokenString tokenHash
    end.

Definition RevokeToken (now : Z) (tokenString : string) : M W unit :=
  let tokenHash := hashToken tokenString in
  wrap_err (ErrorWrap "failed to blacklist token") (blacklistToken now tokenHash) ;;;
  wrap_err (ErrorWrap "failed to revoke token in database")
    (on_tokens (tr_RevokeToken now tokenHash)) ;;;
  attempt (F:=error) (removeTokenFromCache now tokenHash) ;;;
  updateMetrics (addRevoked 1).

Definition RefreshToken_ (now : Z) (rnd : TokenRand) (refreshTokenString : string)
    (sec : option SecurityContext) : M W TokenPair :=
  let* claims := wrap_err (ErrorWrap "invalid refresh token")
                   (ValidateToken now refreshTokenString) in
  if negb (String.eqb (tc_TokenType claims) (TokenType_string RefreshToken)) then
    fail (ErrorString "token is not a refresh token")
  else
    let* tokenPair := wrap_err (ErrorWrap "failed to generate new token pair")
      (GenerateTokenPair now rnd (tc_UserID claims) (tc_OrganizationID claims)
         (tc_Email claims) sec) in
    (if jc_RevokeRefreshOnUse config then
       attempt (F:=error) (RevokeToken now refreshTokenString) ;;; ret tt
     else ret tt) ;;;
    ret tokenPair.

(** The loop body of [RevokeAllUserTokens]: both errors are only logged. *)
Definition revokeOne (now : Z) (token : Token) : M W unit :=
  attempt (F:=error) (blacklistToken now (t_TokenHash token)) ;;;
  attempt (F:=error) (removeTokenFromCache now (t_TokenHash token)) ;;;
  ret tt.

Definition RevokeAllUserTokens (now : Z) (userID : N) (ty : TokenType) : M W unit :=
  let* tokens := wrap_err (ErrorWrap "failed to get user tokens")
    (on_tokens (tr_GetActiveTokensByUser now userID ty)) in
  for_each (revokeOne now) tokens ;;;
  wrap_err (ErrorWrap "failed to revoke user tokens in database")
    (on_tokens (tr_RevokeAllUserTokens now userID ty)) ;;;
  updateMetrics (addRevoked (Z.of_nat (length tokens))).

(** [newKey] is what [rand.Read] filled the fresh 32-byte slice with. *)
Definition rotateKeys (newKey : res error string) : M W unit :=
  let* k := wrap_err (ErrorWrap "failed to generate new key") (lift_res newKey) in
  on_ts (λ s, mkTokenState k (Some (ts_currentKey s)) (wrap64 (ts_keyVersion s + 1))
                (ts_metrics s)) ;;;
  updateMetrics addRotation.

(** One tick of the hourly and one of the daily cleanup routine. *)
Definition cleanupTick (now : Z) : M W unit :=
  attempt (F:=error) (on_tokens (tr_CleanupExpiredTokens now)) ;;; ret tt.
Definition revokedCleanupTick (olderThan : Z) : M W unit :=
  attempt (F:=error) (on_tokens (tr_DeleteRevokedTokens olderThan)) ;;; ret tt.

Definition ValidateTokenString (tokenString : string) : res error unit :=
  if String.eqb tokenString "" then Err (ErrorString "token string is empty")
  else if negb (length (Split tokenString ".") =? 3)%nat
  then Err (ErrorString "invalid token format") else Ok tt.

Definition GetTokenInfo (tokenString : string) : res error TokenClaims :=
  match ValidateTokenString tokenString with
  | Err e => Err e
  | Ok _ => res_map_err (ErrorWrap "failed to parse token") (jwt_ParseUnverified tokenString)
  end.

Definition IsTokenExpired (now : Z) (tokenString : string) : res error bool :=
  match GetTokenInfo tokenString with
  | Err e => Err e
  | Ok claims =>
      match tc_ExpiresAt claims with
      | None => Err (ErrorString "token has no expiration time")
      | Some t => Ok (After now t)
      end
  end.
End ops.

(** ** Lemmas *)

Lemma blacklistKey_inj h h' : blacklistKey h = blacklistKey h' → h = h'.
Proof. apply str_app_inj_l. Qed.
Lemma claimsKey_inj h h' : claimsKey h = claimsKey h' → h = h'.
Proof. apply str_app_inj_l. Qed.

Section runs.
Context {C R D : Type} `{CacheOps C} `{RedisOps R} `{TokenRepository D}.
Context `{JwtLib} `{UuidLib} `{ClaimsJson}.
Context (sha256_hex : string → string) (config : JWTConfig).
Abbreviation W := (TSW C R D).

Lemma isTokenBlacklisted_run now h (w : W) :
  isTokenBlacklisted now h w =
  (Ok (match (redis_Exists now (blacklistKey h) (w_redis w)).1 with
       | Ok n => (0 <? n)%Z | Err _ => false end),
   mkTSW (w_ts w) (w_cache w) (redis_Exists now (blacklistKey h) (w_redis w)).2 (w_tokens w)).
Proof. unfold isTokenBlacklisted, on_redis. by rewrite bind_attempt, !zoom_eq. Qed.

Lemma getTokenFromCache_run now h (w : W) :
  getTokenFromCache now h w =
  (match (cache_Get now (claimsKey h) (w_cache w)).1 with
   | Ok data => res_map_err (ErrorWrap "failed to unmarshal cached claims") (claims_Unmarshal data)
   | Err e => Err e
   end,
   mkTSW (w_ts w) (cache_Get now (claimsKey h) (w_cache w)).2 (w_redis w) (w_tokens w)).
Proof.
  unfold getTokenFromCache, on_cache, bind. rewrite zoom_eq.
  by destruct (cache_Get _ _ _) as [[data|e] c'].
Qed.

Lemma parseAndValidateJWT_run now tok (w : W) :
  parseAndValidateJWT now tok w =
  (match jwt_ParseWithClaims now tok (select_key (w_ts w)) with
   | Ok (claims, true) => Ok claims
   | Ok (_, false) => Err (ErrorString "token is invalid")
   | Err e => Err e
   end, w).
Proof.
  unfold parseAndValidateJWT. rewrite bind_gets, bind_lift.
  by destruct (jwt_ParseWithClaims _ _ _) as [[c []]|e].
Qed.

Lemma validateUncached_ok now tok h (w w' : W) claims :
  validateUncached config now tok h w = (Ok claims, w') →
  jwt_ParseWithClaims now tok (select_key (w_ts w)) = Ok (claims, true) ∧
  ∃ t d', tr_GetByTokenHash now h (w_tokens w) = (Ok t, d') ∧ Token_IsValid t now = true.
Proof.
  unfold validateUncached, updateMetrics, on_ts, on_tokens.
  rewrite bind_modify, bind_attempt, parseAndValidateJWT_run. simpl.
  replace (select_key (mkTokenState _ _ _ _)) with (select_key (w_ts w)) by done.
  destruct (jwt_ParseWithClaims _ _ _) as [[c []]|e]; simpl; try done.
  rewrite bind_attempt, zoom_eq. simpl.
  destruct (tr_GetByTokenHash _ _ _) as [[t|e] d'] eqn:Et; simpl; try done.
  destruct (Token_IsValid t now) eqn:Ev; simpl; [|done].
  rewrite bind_attempt. unfold bind, modify, ret. intros [= <- <-]. eauto.
Qed.

(** Validation succeeds only for a token that is not on the blacklist,
    and then either from cached claims or through signature and database. *)
Lemma ValidateToken_ok now tok (w w' : W) claims :
  ValidateToken sha256_hex config now tok w = (Ok claims, w') →
  (∀ n, (redis_Exists now (blacklistKey (sha256_hex tok)) (w_redis w)).1 = Ok n → n ≤ 0) ∧
  ((∃ data, (cache_Get now (claimsKey (sha256_hex tok)) (w_cache w)).1 = Ok data ∧
            claims_Unmarshal data = Ok claims) ∨
   (jwt_ParseWithClaims now tok (select_key (w_ts w)) = Ok (claims, true) ∧
    ∃ t d', tr_GetByTokenHash now (sha256_hex tok) (w_tokens w) = (Ok t, d') ∧
            Token_IsValid t now = true)).
Proof.
  unfold ValidateToken, hashToken. intros Hv.
  erewrite bind_step in Hv by apply isTokenBlacklisted_run.
  match type of Hv with context [if ?b then _ else _] => destruct b eqn:Eb end; [done|].
  split.
  { intros n Hn. rewrite Hn in Eb. by apply Z.ltb_ge in Eb. }
  rewrite bind_attempt, getTokenFromCache_run in Hv. simpl in Hv.
  destruct ((cache_Get _ _ _).1) as [data|e]; [|right; by apply validateUncached_ok in Hv].
  destruct (claims_Unmarshal data) as [c|e] eqn:Eu; simpl in Hv.
  - unfold updateMetrics, on_ts, bind, modify, ret in Hv. injection Hv as -> <-. eauto.
  - right. by apply validateUncached_ok in Hv.
Qed.
End runs.

(** What a token string produced by this service in state [s] is. *)
Definition minted `{JwtLib} `{UuidLib} (config : JWTConfig) (s : TokenState) (jti u o : N)
    (email : string) (ty : TokenType) (sec : option SecurityContext) (sid : string)
    (now exp : Z) (tok : string) : Prop :=
  expiry_of config ty now = Ok exp ∧
  jwt_SignedString (ts_currentKey s)
    (mintClaims (ts_keyVersion s) jti u o email ty sec sid now exp) = Ok tok.

Section generate.
Context {C R D : Type} `{CacheOps C} `{RedisOps R} `{TokenRepository D}.
Context `{JwtLib} `{UuidLib} `{ClaimsJson}.
Context (sha256_hex : string → string) (config : JWTConfig).
Abbreviation W := (TSW C R D).

Lemma generateToken_inv jti id u o e ty sec sid now (w w' : W) tok t :
  generateToken sha256_hex config jti id u o e ty sec sid now w = (Ok (tok, t), w') →
  w' = w ∧ ∃ exp, minted config (w_ts w) jti u o e ty sec sid now exp tok ∧
                  t = mintRow sha256_hex id u ty sec tok now exp.
Proof.
  unfold generateToken, getKeyVersion, minted. rewrite bind_lift.
  destruct (expiry_of config ty now) as [exp|err]; [|done].
  rewrite !bind_gets, bind_wrap_err. unfold lift_res.
  destruct (jwt_SignedString _ _) as [s|err] eqn:Es; [|done].
  unfold ret. intros [= <- <- <-]. eauto.
Qed.

Lemma cacheTokens_ts now a r ta tr (w : W) :
  w_ts (cacheTokens sha256_hex config now a r ta tr w).2 = w_ts w.
Proof.
  assert (Hp : preserves (λ w', w_ts w' = w_ts w)
    (cacheTokens (C:=C) (R:=R) (D:=D) sha256_hex config now a r ta tr)); [|by apply Hp].
  unfold cacheTokens, cacheTokenClaims, getKeyVersion, on_cache. preserve.
  all: intros w' Hw'; by rewrite zoom_eq.
Qed.

(** A successful [GenerateTokenPair]: two tokens minted for the given user
    and organization, and a cache filled by [cacheTokens]. *)
Lemma GenerateTokenPair_inv now rnd u o e sec (w w' : W) pair :
  GenerateTokenPair sha256_hex config now rnd u o e sec w = (Ok pair, w') →
  ∃ exp_a exp_r (d : D),
    minted config (w_ts w) (rd_access_jti rnd) u o e AccessToken sec (rd_session rnd) now
      exp_a (tp_AccessToken pair) ∧
    minted config (w_ts w) (rd_refresh_jti rnd) u o e RefreshToken sec (rd_session rnd) now
      exp_r (tp_RefreshToken pair) ∧
    ts_keyVersion (w_ts w') = ts_keyVersion (w_ts w) ∧
    ts_currentKey (w_ts w') = ts_currentKey (w_ts w) ∧
    w_cache w' = w_cache (cacheTokens sha256_hex config now (tp_AccessToken pair)
      (tp_RefreshToken pair)
      (mintRow sha256_hex (rd_access_id rnd) u AccessToken sec (tp_AccessToken pair) now exp_a)
      (mintRow sha256_hex (rd_refresh_id rnd) u RefreshToken sec (tp_RefreshToken pair) now exp_r)
      (mkTSW (w_ts w) (w_cache w) (w_redis w) d : W)).2.
Proof.
  unfold GenerateTokenPair. intros Hg.
  apply bind_ok_inv in Hg as ([a ta] & w1 & Ha & Hg). apply wrap_err_ok in Ha.
  apply generateToken_inv in Ha as (-> & exp_a & Hma & ->).
  apply bind_ok_inv in Hg as ([r tr] & w2 & Hr & Hg). apply wrap_err_ok in Hr.
  apply generateToken_inv in Hr as (-> & exp_r & Hmr & ->).
  apply bind_ok_inv in Hg as ([] & w3 & H1' & Hg). apply wrap_err_ok in H1'.
  apply bind_ok_inv in Hg as ([] & w4 & H2' & Hg). apply wrap_err_ok in H2'.
  unfold on_tokens in H1', H2'.
  apply zoom_inv in H1' as (d1 & _ & ->). apply zoom_inv in H2' as (d2 & _ & ->). simpl in Hg.
  rewrite bind_attempt in Hg. unfold updateMetrics, on_ts, bind, modify, ret in Hg.
  injection Hg as <- <-. exists exp_a, exp_r, d2. simpl.
  split_and!; [done|done| | |done].
  all: by rewrite cacheTokens_ts.
Qed.
End generate.

(** ** Runs of the service

    The clock never goes back from one operation to the next. *)
Section reach.
Context {C R D : Type} `{CacheOps C} `{RedisLaws R} `{TokenRepository D}.
Context `{JwtLib} `{UuidLib} `{ClaimsJson}.
Context (sha256_hex : string → string) (config : JWTConfig).
Abbreviation W := (TSW C R D).
Abbreviation Validate := (ValidateToken sha256_hex config).

Inductive tstep : Z * W → Z * W → Prop :=
| tstep_validate t t' tok w : t ≤ t' → tstep (t, w) (t', (Validate t' tok w).2)
| tstep_generate t t' rnd u o e sec w : t ≤ t' →
    tstep (t, w) (t', (GenerateTokenPair sha256_hex config t' rnd u o e sec w).2)
| tstep_refresh t t' rnd tok sec w : t ≤ t' →
    tstep (t, w) (t', (RefreshToken_ sha256_hex config t' rnd tok sec w).2)
| tstep_revoke t t' tok w : t ≤ t' →
    tstep (t, w) (t', (RevokeToken sha256_hex config t' tok w).2)
| tstep_revoke_all t t' u ty w : t ≤ t' →
    tstep (t, w) (t', (RevokeAllUserTokens config t' u ty w).2)
| tstep_rotate t t' k w : t ≤ t' → tstep (t, w) (t', (rotateKeys k w).2)
| tstep_cleanup t t' w : t ≤ t' → tstep (t, w) (t', (cleanupTick t' w).2)
| tstep_revoked_cleanup t t' old w : t ≤ t' →
    tstep (t, w) (t', (revokedCleanupTick old w).2).

(** Key [k] of the Redis store is present until [d]. *)
Definition blacklisted_until (k : string) (d : Z) (w : W) : Prop := rkey (w_redis w) k d.

Section kept.
Context (k : string) (d now : Z).
Hypothesis Hpos : 0 < seconds (jc_RefreshExpiry config).
Hypothesis Hlate : d ≤ now + seconds (jc_RefreshExpiry config).
Abbreviation I := (blacklisted_until k d).

Lemma keep_on_cache {A} (m : M C A) : preserves I (on_cache m).
Proof. intros w Hw. unfold on_cache. by rewrite zoom_eq. Qed.
Lemma keep_on_tokens {A} (m : M D A) : preserves I (on_tokens m).
Proof. intros w Hw. unfold on_tokens. by rewrite zoom_eq. Qed.
Lemma keep_on_ts f : preserves I (on_ts f).
Proof. by intros w Hw. Qed.
Lemma keep_isBlacklisted h : preserves I (isTokenBlacklisted now h).
Proof. intros w Hw. rewrite isTokenBlacklisted_run. by apply redis_Exists_keeps. Qed.
Lemma keep_blacklist h : preserves I (blacklistToken config now h).
Proof.
  intros w Hw. unfold blacklistToken, on_redis. rewrite zoom_eq.
  apply redis_Set_keeps; auto.
Qed.

Ltac keep :=
  repeat first [ apply keep_on_cache | apply keep_on_tokens | apply keep_on_ts
    | apply keep_isBlacklisted | apply keep_blacklist | progress preserve ].

Lemma keep_cacheTokenClaims h c : preserves I (cacheTokenClaims config now h c).
Proof. unfold cacheTokenClaims. keep. Qed.
Lemma keep_generate rnd u o e sec :
  preserves I (GenerateTokenPair sha256_hex config now rnd u o e sec).
Proof.
  unfold GenerateTokenPair, generateToken, cacheTokens, getKeyVersion, updateMetrics. keep;
    apply keep_cacheTokenClaims.
Qed.
Lemma keep_validate tok : preserves I (Validate now tok).
Proof.
  unfold ValidateToken, validateUncached, parseAndValidateJWT, getTokenFromCache,
    updateMetrics. keep; apply keep_cacheTokenClaims.
Qed.
Lemma keep_revoke tok : preserves I (RevokeToken sha256_hex config now tok).
Proof. unfold RevokeToken, removeTokenFromCache, updateMetrics. keep. Qed.
Lemma keep_refresh rnd tok sec : preserves I (RefreshToken_ sha256_hex config now rnd tok sec).
Proof.
  unfold RefreshToken_. keep;
    first [apply keep_validate | apply keep_generate | apply keep_revoke].
Qed.
Lemma keep_revoke_all u ty : preserves I (RevokeAllUserTokens config now u ty).
Proof. unfold RevokeAllUserTokens, revokeOne, removeTokenFromCache, updateMetrics. keep. Qed.
Lemma keep_rotate key : preserves I (rotateKeys key).
Proof. unfold rotateKeys, updateMetrics. keep. Qed.
Lemma keep_cleanup : preserves I (cleanupTick now).
Proof. unfold cleanupTick. keep. Qed.
Lemma keep_revoked_cleanup old : preserves I (revokedCleanupTick old).
Proof. unfold revokedCleanupTick. keep. Qed.
End kept.

Lemma tstep_keeps k d s s' :
  0 < seconds (jc_RefreshExpiry config) →
  d ≤ s.1 + seconds (jc_RefreshExpiry config) ∧ blacklisted_until k d s.2 →
  tstep s s' →
  d ≤ s'.1 + seconds (jc_RefreshExpiry config) ∧ blacklisted_until k d s'.2.
Proof.
  intros Hp [Hd Hk] Hs. inversion Hs; subst; simpl in *; (split; [lia|]);
    [ apply keep_validate | apply keep_generate | apply keep_refresh | apply keep_revoke
    | apply keep_revoke_all | apply keep_rotate | apply keep_cleanup
    | apply keep_revoked_cleanup ]; try done; lia.
Qed.

Lemma blacklisted_runs k now now2 w1 w2 :
  0 < seconds (jc_RefreshExpiry config) →
  blacklisted_until k (now + seconds (jc_RefreshExpiry config)) w1 →
  star tstep (now, w1) (now2, w2) →
  blacklisted_until k (now + seconds (jc_RefreshExpiry config)) w2.
Proof.
  intros Hp Hb Hs.
  eapply (star_invariant _ (λ s, now + seconds (jc_RefreshExpiry config)
            ≤ s.1 + seconds (jc_RefreshExpiry config) ∧ blacklisted_until _ _ s.2)) in Hs;
    [by apply Hs | | split; [reflexivity | exact Hb]].
  intros s s' HI Hstep. by eapply tstep_keeps.
Qed.

Lemma RevokeToken_blacklists now tok w w' :
  0 < seconds (jc_RefreshExpiry config) →
  RevokeToken sha256_hex config now tok w = (Ok tt, w') →
  blacklisted_until (blacklistKey (sha256_hex tok)) (now + seconds (jc_RefreshExpiry config)) w'.
Proof.
  intros Hp Hr. unfold RevokeToken, hashToken in Hr.
  apply bind_ok_inv in Hr as ([] & w1 & Hb & Hr). apply wrap_err_ok in Hb.
  assert (w' = ((wrap_err (ErrorWrap "failed to revoke token in database")
    (on_tokens (tr_RevokeToken now (sha256_hex tok))) ;;;
    attempt (F:=error) (removeTokenFromCache now (sha256_hex tok)) ;;;
    updateMetrics (addRevoked 1)) w1).2) as -> by (by rewrite Hr).
  unfold blacklistToken, on_redis in Hb. rewrite zoom_eq in Hb.
  destruct (redis_Set _ _ _ _ _) as [r r'] eqn:Er. simpl in Hb. simplify_eq.
  assert (Hin : blacklisted_until (blacklistKey (sha256_hex tok))
                  (now + seconds (jc_RefreshExpiry config))
                  (mkTSW (w_ts w) (w_cache w) r' (w_tokens w))) by (by eapply redis_Set_key).
  revert Hin. generalize (mkTSW (w_ts w) (w_cache w) r' (w_tokens w)).
  fold (preserves (blacklisted_until (blacklistKey (sha256_hex tok))
          (now + seconds (jc_RefreshExpiry config)))
        (wrap_err (ErrorWrap "failed to revoke token in database")
          (on_tokens (tr_RevokeToken now (sha256_hex tok))) ;;;
         attempt (F:=error) (removeTokenFromCache now (sha256_hex tok)) ;;;
         updateMetrics (addRevoked 1))).
  unfold updateMetrics, removeTokenFromCache. preserve;
    [apply keep_on_tokens | apply keep_on_cache | apply keep_on_ts].
Qed.

Lemma ValidateToken_refuses now tok w d :
  blacklisted_until (blacklistKey (sha256_hex tok)) d w → now < d →
  (Validate now tok w).1 = Err (ErrorString "token is blacklisted").
Proof.
  intros Hk Hd. unfold ValidateToken, hashToken.
  erewrite bind_step by apply isTokenBlacklisted_run.
  by rewrite (redis_Exists_key _ _ _ _ Hk Hd).
Qed.
End reach.

(** ** Revoking every token of a user *)
Section revoke_all.
Context {C R D : Type} `{CacheOps C} `{RedisLaws R} `{TokenRepositoryLaws D}.
Context `{JwtLib} `{UuidLib} `{ClaimsJson}.
Context (sha256_hex : string → string) (config : JWTConfig).
Abbreviation W := (TSW C R D).
Abbreviation expiry := (seconds (jc_RefreshExpiry config)).

Definition redis_up : Prop := ∀ (r : R) now k v ttl, (redis_Set now k v ttl r).1 = Ok tt.

Lemma revokeOne_run now t (w : W) : redis_up → 0 < expiry →
  ∃ w', revokeOne config now t w = (Ok tt, w') ∧ w_tokens w' = w_tokens w ∧
        blacklisted_until (blacklistKey (t_TokenHash t)) (now + expiry) w'.
Proof.
  intros Hup Hp. unfold revokeOne, blacklistToken, on_redis, removeTokenFromCache, on_cache.
  rewrite bind_attempt, zoom_eq. cbn [fst snd]. rewrite bind_attempt, zoom_eq. cbn [fst snd w_cache].
  eexists. split; [done|]. split; [done|]. unfold blacklisted_until. simpl.
  specialize (Hup (w_redis w) now (blacklistKey (t_TokenHash t)) "revoked" expiry).
  destruct (redis_Set _ _ _ _ _) as [r r'] eqn:Er. simpl in Hup. subst r.
  by eapply redis_Set_key.
Qed.

Lemma revoke_loop now l (w : W) : redis_up → 0 < expiry →
  ∃ w', for_each (revokeOne config now) l w = (Ok tt, w') ∧ w_tokens w' = w_tokens w ∧
    ∀ t, t ∈ l → blacklisted_until (blacklistKey (t_TokenHash t)) (now + expiry) w'.
Proof.
  intros Hup Hp. revert w. induction l as [|t l IH]; intros w.
  { exists w. split_and!; [done|done|]. intros t Ht. by apply elem_of_nil in Ht. }
  destruct (revokeOne_run now t w Hup Hp) as (w1 & Hr1 & Ht1 & Hb1).
  destruct (IH w1) as (w2 & Hr2 & Ht2 & Hb2). exists w2.
  split; [simpl; by rewrite (bind_step _ _ _ _ _ Hr1)|]. split; [by rewrite Ht2|].
  intros t' [->|Hin]%elem_of_cons; [|by apply Hb2].
  assert (Hk : preserves (blacklisted_until (blacklistKey (t_TokenHash t)) (now + expiry))
                 (for_each (revokeOne (C:=C) (R:=R) (D:=D) config now) l)).
  { unfold revokeOne, removeTokenFromCache. preserve;
      [by apply (keep_blacklist config _ _ now Hp) | apply keep_on_cache]. }
  specialize (Hk w1 Hb1). by rewrite Hr2 in Hk.
Qed.

Lemma RevokeAllUserTokens_run now u ty (w w' : W) : redis_up → 0 < expiry →
  RevokeAllUserTokens config now u ty w = (Ok tt, w') →
  tview (w_tokens w') = revoke_where (row_of_user u ty) now <$> tview (w_tokens w) ∧
  ∀ t, t ∈ tview (w_tokens w) → row_of_user u ty t = true → unexpired now t = true →
    blacklisted_until (blacklistKey (t_TokenHash t)) (now + expiry) w'.
Proof.
  intros Hup Hp Hr. unfold RevokeAllUserTokens in Hr.
  apply bind_ok_inv in Hr as (l & w1 & Hl & Hr). apply wrap_err_ok in Hl.
  unfold on_tokens in Hl. apply zoom_inv in Hl as (d1 & Hl & ->).
  apply tr_GetActive_ok in Hl as [Hv1 Hin].
  destruct (revoke_loop now l (mkTSW (w_ts w) (w_cache w) (w_redis w) d1) Hup Hp)
    as (w2 & Hloop & Ht2 & Hb). rewrite (bind_step _ _ _ _ _ Hloop) in Hr.
  apply bind_ok_inv in Hr as ([] & w3 & Hw3 & Hr). apply wrap_err_ok in Hw3.
  unfold on_tokens in Hw3. apply zoom_inv in Hw3 as (d3 & Hw3 & ->).
  apply tr_RevokeAll_ok in Hw3. unfold updateMetrics, on_ts in Hr. injection Hr as <-. simpl.
  rewrite Ht2 in Hw3. simpl in Hw3. rewrite Hw3, Hv1. split; [done|].
  intros t Ht Hrow Hun. apply Hb, Hin. by split_and!.
Qed.

Lemma revoked_rows u ty now t (l : list Token) :
  t ∈ revoke_where (row_of_user u ty) now <$> l → row_of_user u ty t = false.
Proof.
  intros (t0 & -> & _)%list_elem_of_fmap. unfold revoke_where.
  destruct (row_of_user u ty t0) eqn:E; [|done].
  unfold row_of_user, unrevoked. by destruct t0; rewrite !andb_false_r.
Qed.

(** The token table answers. *)
Definition tokens_up : Prop := ∀ (d : D) now u ty,
  is_ok (tr_GetActiveTokensByUser now u ty d).1 = true ∧
  is_ok (tr_RevokeAllUserTokens now u ty d).1 = true.

Lemma RevokeAllUserTokens_up now u ty (w : W) : redis_up → 0 < expiry → tokens_up →
  (RevokeAllUserTokens config now u ty w).1 = Ok tt.
Proof.
  intros Hup Hp Ht. unfold RevokeAllUserTokens, on_tokens.
  rewrite bind_wrap_err, zoom_eq. destruct (Ht (w_tokens w) now u ty) as [Hg _].
  destruct (tr_GetActiveTokensByUser _ _ _ _) as [[l|e] d1]; [|done]. cbn [fst snd].
  destruct (revoke_loop now l (mkTSW (w_ts w) (w_cache w) (w_redis w) d1) Hup Hp)
    as (w2 & Hloop & _ & _). rewrite (bind_step _ _ _ _ _ Hloop).
  rewrite bind_wrap_err, zoom_eq. destruct (Ht (w_tokens w2) now u ty) as [_ Hr].
  by destruct (tr_RevokeAllUserTokens _ _ _ _) as [[[]|e] d3].
Qed.

Lemma row_of_revoked u ty P now t :
  row_of_user u ty t = false → row_of_user u ty (revoke_where P now t) = false.
Proof.
  unfold revoke_where. destruct (P t); [|done]. intros _.
  unfold row_of_user, unrevoked. by destruct t; rewrite !andb_false_r.
Qed.

Lemma row_one_type u ty ty' t : row_of_user u ty t = true → ty ≠ ty' → row_of_user u ty' t = false.
Proof.
  unfold row_of_user. rewrite !andb_true_iff, bool_decide_eq_true. intros [[_ Ht] _] Hne.
  rewrite (bool_decide_eq_false_2 (t_TokenType t = ty')) by congruence.
  by rewrite andb_false_r.
Qed.

(** Revoking the access tokens and then the refresh tokens. *)
Lemma revoke_both now u (w : W) : redis_up → 0 < expiry → tokens_up →
  let w1 := (RevokeAllUserTokens config now u AccessToken w).2 in
  let w2 := (RevokeAllUserTokens config now u RefreshToken w1).2 in
  ∀ ty, ty = AccessToken ∨ ty = RefreshToken →
  (∀ t, t ∈ tview (w_tokens w2) → row_of_user u ty t = false) ∧
  (∀ t, t ∈ tview (w_tokens w) → row_of_user u ty t = true → unexpired now t = true →
     blacklisted_until (blacklistKey (t_TokenHash t)) (now + expiry) w2).
Proof.
  intros Hup Hp Ht w1 w2 ty Hty.
  pose proof (RevokeAllUserTokens_up now u AccessToken w Hup Hp Ht) as Hr1.
  apply run_split in Hr1. fold w1 in Hr1.
  pose proof (RevokeAllUserTokens_up now u RefreshToken w1 Hup Hp Ht) as Hr2.
  apply run_split in Hr2. fold w2 in Hr2.
  apply RevokeAllUserTokens_run in Hr1 as [Hv1 Hb1]; [|done|done].
  apply RevokeAllUserTokens_run in Hr2 as [Hv2 Hb2]; [|done|done].
  destruct Hty as [-> | ->]; split.
  - intros t Hin. rewrite Hv2 in Hin. apply list_elem_of_fmap in Hin as (t1 & -> & Hin).
    apply row_of_revoked. rewrite Hv1 in Hin. by eapply revoked_rows.
  - intros t Hin Hrow Hun. eapply keep_revoke_all; [exact Hp | done | by apply Hb1].
  - intros t Hin. rewrite Hv2 in Hin. by eapply revoked_rows.
  - intros t Hin Hrow Hun. apply Hb2; [|done|done]. rewrite Hv1. apply list_elem_of_fmap.
    exists t. split; [|done]. unfold revoke_where.
    by rewrite (row_one_type _ _ AccessToken _ Hrow).
Qed.
End revoke_all.

(** ** Reference instances of the outside packages

    They satisfy the documented behaviour the theorems rely on and let the
    examples run; they are not cryptographic. *)

Definition date_text (o : option Z) : string := match o with Some z => Itoa z | None => "" end.
Lemma parse_date_text o : parse_Z (date_text o) = o.
Proof. destruct o; [apply parse_Itoa | done]. Qed.

Definition claims_fields (c : TokenClaims) : list string :=
  [N_text (tc_UserID c); N_text (tc_OrganizationID c); tc_Email c; tc_TokenType c;
   Itoa (tc_KeyVersion c); tc_IPAddress c; tc_DeviceFingerprint c; tc_SessionID c;
   tc_ID c; tc_Subject c; date_text (tc_IssuedAt c); date_text (tc_ExpiresAt c);
   date_text (tc_NotBefore c); tc_Issuer c] ++ tc_Audience c.

Definition claims_of_fields (l : list string) : option TokenClaims :=
  match l with
  | u :: o :: e :: ty :: kv :: ip :: df :: sid :: jti :: sub :: ia :: ea :: nb :: iss :: aud =>
      match parse_Z u, parse_Z o, parse_Z kv with
      | Some u', Some o', Some kv' =>
          Some (mkTokenClaims (Z.to_N u') (Z.to_N o') e ty kv' ip df sid jti sub
                  (parse_Z ia) (parse_Z ea) (parse_Z nb) iss aud)
      | _, _, _ => None
      end
  | _ => None
  end.

#[global] Arguments claims_fields : simpl never.
#[global] Arguments claims_of_fields : simpl never.

Lemma claims_of_fields_of c : claims_of_fields (claims_fields c) = Some c.
Proof.
  destruct c. unfold claims_of_fields, claims_fields, N_text. cbn [app tc_UserID
    tc_OrganizationID tc_Email tc_TokenType tc_KeyVersion tc_IPAddress tc_DeviceFingerprint
    tc_SessionID tc_ID tc_Subject tc_IssuedAt tc_ExpiresAt tc_NotBefore tc_Issuer tc_Audience].
  by rewrite !parse_Itoa, !N2Z.id, !parse_date_text.
Qed.

Definition ref_json : ClaimsJson := {|
  claims_Marshal c := Ok (text_of_list (claims_fields c));
  claims_Unmarshal s :=
    match list_of_text s ≫= claims_of_fields with
    | Some c => Ok c | None => Err (ErrorString "invalid character") end |}.
Definition ref_json_laws : @ClaimsJsonLaws ref_json.
Proof.
  constructor. intros c s [= <-]. simpl.
  by rewrite list_of_text_of_list; simpl; rewrite claims_of_fields_of.
Defined.

(** A token is the text of its key and claims. *)
Definition ref_parse (s : string) : option (string * TokenClaims) :=
  match list_of_text s with
  | Some (key :: l) => pair key <$> claims_of_fields l
  | _ => None
  end.
Definition ref_jwt : JwtLib := {|
  NewNumericDate t := t / Second * Second;
  jwt_SignedString key c := Ok (text_of_list (key :: claims_fields c));
  jwt_ParseWithClaims now s kf :=
    match ref_parse s with
    | None => Err (ErrorString "token is malformed")
    | Some (key, c) =>
        match kf true c with
        | Ok key' =>
            if String.eqb key' key then
              if time_valid now c then Ok (c, true) else Err (ErrorString "token is expired")
            else Err (ErrorString "token signature is invalid")
        | Err e => Err (ErrorWrap "token is unverifiable" e)
        end
    end;
  jwt_ParseUnverified s :=
    match ref_parse s with Some (_, c) => Ok c | None => Err (ErrorString "token is malformed") end
|}.
Definition ref_jwt_laws : @JwtLaws ref_jwt.
Proof.
  constructor; intros key c s now kf [= <-]; simpl; unfold ref_parse;
    rewrite list_of_text_of_list, claims_of_fields_of; simpl.
  - intros -> ->. by rewrite String.eqb_refl.
  - intros Hne. destruct (kf true c) as [k|e] eqn:E; [|done].
    destruct (String.eqb_spec k key); [by subst | done].
Defined.

Definition ref_config : JWTConfig := mkJWTConfig "secret" 3600 604800 false 24 false.
Definition ref_tsw : TSW ref_cache ref_redis ref_tokens :=
  mkTSW (NewTokenState ref_config) (∅ : gmap string (string * Z)) (∅ : gmap string Z) [].

(** ** Properties *)


(** C2: soundness of validation.  A token is accepted only if it is not on
    the blacklist, and then either its claims are in the cache, or it is
    signed with the current or the previous key for its key version and the
    database holds an unrevoked, unexpired row for its hash. *)
Theorem ValidateToken_sound {C R D} `{CacheOps C} `{RedisOps R} `{TokenRepositoryLaws D}
    `{JwtLib} `{UuidLib} `{ClaimsJson} sha256_hex config now tok
    (w w' : TSW C R D) claims :
  ValidateToken sha256_hex config now tok w = (Ok claims, w') →
  (∀ n, (redis_Exists now (blacklistKey (sha256_hex tok)) (w_redis w)).1 = Ok n → n ≤ 0) ∧
  ((∃ data, (cache_Get now (claimsKey (sha256_hex tok)) (w_cache w)).1 = Ok data ∧
            claims_Unmarshal data = Ok claims) ∨
   (jwt_ParseWithClaims now tok (select_key (w_ts w)) = Ok (claims, true) ∧
    ∃ t, t ∈ tview (w_tokens w) ∧ t_TokenHash t = sha256_hex tok ∧
         t_RevokedAt t = None ∧ now < t_ExpiresAt t)).
Proof.
  intros Hv. apply ValidateToken_ok in Hv as [Hb [Hc|(Hj & t & d' & Ht & Hv)]]; [by auto|].
  split; [done|]. right. split; [done|]. exists t.
  apply tr_GetByTokenHash_ok in Ht as (Hin & Hrow & Hexp & _).
  unfold row_by_hash in Hrow. apply andb_true_iff in Hrow as [Hh _].
  apply String.eqb_eq in Hh. apply Token_IsValid_spec in Hv as [? _].
  unfold unexpired in Hexp. apply Z.ltb_lt in Hexp. auto.
Qed.

(** Logging a user out everywhere.  When [RevokeAllUserTokens] succeeds
    with Redis accepting writes, no unrevoked row of that user and type is
    left, and each token that was live is refused by every validation,
    whatever the service does in between, until the refresh lifetime ends. *)
Theorem RevokeAllUserTokens_refuses {C R D} `{CacheOps C} `{RedisLaws R} `{TokenRepositoryLaws D}
    `{JwtLib} `{UuidLib} `{ClaimsJson} sha256_hex config now u ty (w w1 w2 : TSW C R D) now2 :
  redis_up (R:=R) → 0 < seconds (jc_RefreshExpiry config) →
  RevokeAllUserTokens config now u ty w = (Ok tt, w1) →
  star (tstep sha256_hex config) (now, w1) (now2, w2) →
  (∀ t, t ∈ tview (w_tokens w1) → row_of_user u ty t = false) ∧
  (∀ t tok now3, t ∈ tview (w_tokens w) → row_of_user u ty t = true → unexpired now t = true →
     sha256_hex tok = t_TokenHash t → now3 < now + seconds (jc_RefreshExpiry config) →
     (ValidateToken sha256_hex config now3 tok w2).1 = Err (ErrorString "token is blacklisted")).
Proof.
  intros Hup Hp Hr Hs. apply RevokeAllUserTokens_run in Hr as [Hrows Hbl]; [|done|done].
  split; [intros t; rewrite Hrows; apply revoked_rows|].
  intros t tok now3 Hin Hrow Hun Hh Hn.
  eapply ValidateToken_refuses; [|exact Hn]. rewrite Hh.
  by eapply blacklisted_runs; [exact Hp | apply Hbl | exact Hs].
Qed.

(** Key rotation.  A token minted before any rotation is still offered
    its signing key by the key function after at most one rotation, and no
    key at all after two, so it parses in the first case (while its [nbf] and
    [exp] admit the time) and is refused in the second. *)
Theorem rotation_window `{JwtLaws} `{UuidLib} config s jti u o e ty sec sid now exp tok
    k1 k2 now' :
  minted config s jti u o e ty sec sid now exp tok →
  min_int ≤ ts_keyVersion s → ts_keyVersion s + 2 ≤ max_int →
  let rotate k s' := w_ts (rotateKeys (Ok k) (mkTSW s' tt tt tt)).2 in
  let c := mintClaims (ts_keyVersion s) jti u o e ty sec sid now exp in
  time_valid now' c = true →
  jwt_ParseWithClaims now' tok (select_key s) = Ok (c, true) ∧
  jwt_ParseWithClaims now' tok (select_key (rotate k1 s)) = Ok (c, true) ∧
  is_ok (jwt_ParseWithClaims now' tok (select_key (rotate k2 (rotate k1 s)))) = false.
Proof.
  intros [_ Hs] Hlo Hhi rotate c Ht.
  assert (Hv1 : wrap64 (ts_keyVersion s + 1) = ts_keyVersion s + 1).
  { unfold wrap64, min_int, max_int in *. rewrite Z.mod_small; lia. }
  assert (Hv2 : wrap64 (ts_keyVersion s + 1 + 1) = ts_keyVersion s + 2).
  { unfold wrap64, min_int, max_int in *. rewrite Z.mod_small; lia. }
  split_and!.
  - eapply jwt_Parse_signed; [exact Hs | | done].
    unfold select_key. simpl. by rewrite Z.eqb_refl.
  - eapply jwt_Parse_signed; [exact Hs | | done].
    unfold select_key. simpl. rewrite Hv1.
    destruct (Z.eqb_spec (ts_keyVersion s) (ts_keyVersion s + 1)); [lia|].
    by destruct (Z.eqb_spec (ts_keyVersion s) (ts_keyVersion s + 1 - 1)); [|lia].
  - eapply jwt_Parse_refused; [exact Hs|].
    unfold select_key. simpl. rewrite Hv1, Hv2.
    destruct (Z.eqb_spec (ts_keyVersion s) (ts_keyVersion s + 2)); [lia|].
    by destruct (Z.eqb_spec (ts_keyVersion s) (ts_keyVersion s + 2 - 1)); [lia|].
Qed.

(** The store accepts every write. *)
Definition cache_up (C : Type) `{CacheOps C} : Prop :=
  ∀ now k v ttl (c : C), is_ok (cache_Set now k v ttl c).1 = true.
Definition json_up `{ClaimsJson} : Prop := ∀ c, is_ok (claims_Marshal c) = true.

Section cached.
Context {C R D : Type} `{CacheLaws C} `{RedisOps R} `{TokenRepository D}.
Context `{JwtLib} `{UuidLib} `{ClaimsJsonLaws}.
Context (sha256_hex : string → string) (config : JWTConfig).
Hypothesis Hup : cache_up C.
Hypothesis Hjson : json_up.

Definition claims_ttl (c : TokenClaims) : Z :=
  if String.eqb (tc_TokenType c) (TokenType_string RefreshToken)
  then seconds (jc_RefreshExpiry config) else seconds (jc_AccessExpiry config).

(** Caching claims makes them readable for their time to live. *)
Lemma cacheTokenClaims_has now h c (w : TSW C R D) : 0 < claims_ttl c →
  ∃ s c', claims_Unmarshal s = Ok c ∧
    cacheTokenClaims config now h c w
      = (Ok tt, mkTSW (w_ts w) c' (w_redis w) (w_tokens w)) ∧
    chas c' (claimsKey h) s (now + claims_ttl c).
Proof.
  intros Ht. unfold cacheTokenClaims, on_cache. pose proof (Hjson c) as Hj.
  rewrite bind_wrap_err. unfold lift_res.
  destruct (claims_Marshal c) as [s|] eqn:Em; [|done]. fold (claims_ttl c).
  pose proof (Hup now (claimsKey h) s (claims_ttl c) (w_cache w)) as Hs.
  rewrite zoom_eq. destruct (cache_Set _ _ _ _ (w_cache w)) as [[[]|] c'] eqn:Ec; [|done].
  exists s, c'. split_and!; [by apply claims_Unmarshal_Marshal | done |].
  by eapply cache_Set_has.
Qed.

(** Claims in the cache are the answer of a validation that finds nothing
    on the blacklist: no signature, expiry or database check is made. *)
Lemma ValidateToken_cached now tok (w : TSW C R D) s c d :
  (redis_Exists now (blacklistKey (sha256_hex tok)) (w_redis w)).1 = Ok 0 →
  chas (w_cache w) (claimsKey (sha256_hex tok)) s d → claims_Unmarshal s = Ok c → now < d →
  ∃ w', ValidateToken sha256_hex config now tok w = (Ok c, w') ∧
        ts_currentKey (w_ts w') = ts_currentKey (w_ts w) ∧
        ts_keyVersion (w_ts w') = ts_keyVersion (w_ts w).
Proof.
  intros Hb Hc Hu Hd. unfold ValidateToken, hashToken.
  erewrite bind_step by apply isTokenBlacklisted_run. rewrite Hb. simpl.
  rewrite bind_attempt, getTokenFromCache_run. simpl.
  rewrite (cache_Get_has _ _ _ _ _ Hc Hd), Hu. simpl. by eexists.
Qed.
(** An answer that did not come from the cache is cached. *)
Lemma ValidateToken_miss_caches now tok (w w1 : TSW C R D) c :
  0 < claims_ttl c → cabs (w_cache w) (claimsKey (sha256_hex tok)) →
  ValidateToken sha256_hex config now tok w = (Ok c, w1) →
  ∃ s, claims_Unmarshal s = Ok c ∧
       chas (w_cache w1) (claimsKey (sha256_hex tok)) s (now + claims_ttl c).
Proof.
  intros Ht Ha Hv. unfold ValidateToken, hashToken in Hv.
  erewrite bind_step in Hv by apply isTokenBlacklisted_run.
  match type of Hv with context [if ?b then _ else _] => destruct b end; [done|].
  rewrite bind_attempt, getTokenFromCache_run in Hv. simpl in Hv.
  pose proof (cache_Get_abs _ _ now Ha) as Hg.
  destruct ((cache_Get _ _ _).1) as [data|e]; [done|].
  unfold validateUncached, updateMetrics, on_ts, on_tokens in Hv.
  rewrite bind_modify, bind_attempt, parseAndValidateJWT_run in Hv.
  destruct (jwt_ParseWithClaims _ _ _) as [[c' []]|e'] in Hv; simpl in Hv; try done.
  rewrite bind_attempt, zoom_eq in Hv. simpl in Hv.
  destruct (tr_GetByTokenHash _ _ _) as [[t|e'] d'] eqn:Et; simpl in Hv; try done.
  destruct (Token_IsValid t now); simpl in Hv; [|done]. rewrite bind_attempt in Hv.
  match type of Hv with context [cacheTokenClaims _ now _ c' ?x] => set (w0 := x) in Hv end.
  assert (c' = c) as -> by (unfold bind, modify, ret in Hv; by injection Hv as -> _).
  destruct (cacheTokenClaims_has now (sha256_hex tok) c w0 Ht) as (s & cc & Hu & Hr & Hh).
  rewrite Hr in Hv. unfold bind, modify, ret in Hv. injection Hv as <-. eauto.
Qed.
End cached.

(** What a refresh mints (code bug).  [GenerateTokenPair] caches claims
    rebuilt from the token rows, which hold no organization and no email; so
    when the new refresh token is then exchanged, with the cache and its JSON
    encoding working, the access token of the new pair is signed over the
    user's own id as organization id and an empty email, whatever
    organization and email the first pair was issued for. *)
Theorem refresh_loses_organization {C R D} `{CacheLaws C} `{RedisOps R} `{TokenRepository D}
    `{JwtLib} `{UuidLib} `{ClaimsJsonLaws} sha256_hex config
    (w w1 w2 : TSW C R D) now rnd u o e sec pair now' rnd' sec' pair' :
  cache_up C → json_up →
  0 < seconds (jc_AccessExpiry config) → 0 < seconds (jc_RefreshExpiry config) →
  GenerateTokenPair sha256_hex config now rnd u o e sec w = (Ok pair, w1) →
  now ≤ now' < now + seconds (jc_RefreshExpiry config) →
  (redis_Exists now' (blacklistKey (sha256_hex (tp_RefreshToken pair))) (w_redis w1)).1 = Ok 0 →
  RefreshToken_ sha256_hex config now' rnd' (tp_RefreshToken pair) sec' w1 = (Ok pair', w2) →
  ∃ c, jwt_SignedString (ts_currentKey (w_ts w1)) c = Ok (tp_AccessToken pair') ∧
       tc_UserID c = u ∧ tc_OrganizationID c = u ∧ tc_Email c = "".
Proof.
  intros Hup Hjson Ha Hr Hg Hn Hb Href.
  apply GenerateTokenPair_inv in Hg as (exp_a & exp_r & d & _ & _ & _ & _ & Hc).
  unfold cacheTokens, getKeyVersion in Hc. rewrite bind_gets, bind_wrap_err in Hc.
  match type of Hc with context [cacheTokenClaims config now ?h ?cl ?x] =>
    destruct (cacheTokenClaims_has config Hup Hjson now h cl x) as (s1 & c1 & _ & Hr1 & _);
    [exact Ha|] end.
  rewrite Hr1, bind_gets, wrap_err_state in Hc.
  match type of Hc with context [cacheTokenClaims config now ?h ?cl ?x] =>
    destruct (cacheTokenClaims_has config Hup Hjson now h cl x) as (s2 & c2 & Hu & Hr2 & Hh);
    [exact Hr|] end.
  rewrite Hr2 in Hc. simpl in Hc.
  unfold RefreshToken_ in Href. apply bind_ok_inv in Href as (cl & w3 & Hv & Href).
  apply wrap_err_ok in Hv.
  rewrite <- Hc in Hh.
  destruct (ValidateToken_cached sha256_hex config now' _ _ _ _ _ Hb Hh Hu) as (w3' & Hv' & Hk & _);
    [unfold claims_ttl; simpl; lia|].
  rewrite Hv in Hv'. injection Hv' as -> ->. cbn [tc_TokenType entityClaims t_TokenType mintRow] in Href.
  rewrite String.eqb_refl in Href. simpl negb in Href. cbv iota in Href.
  apply bind_ok_inv in Href as (p2 & w4 & Hg2 & Href). apply wrap_err_ok in Hg2.
  assert (p2 = pair') as ->.
  { apply bind_ok_inv in Href as ([] & w5 & _ & Href). unfold ret in Href. by simplify_eq. }
  apply GenerateTokenPair_inv in Hg2 as (? & ? & ? & [_ Hm] & _).
  rewrite Hk in Hm. eexists. split; [exact Hm|]. done.
Qed.

(** Cached claims outlive the token.  A validation that goes through
    signature and database caches the claims for the full lifetime of their
    kind, counted from the validation, and a cached answer is returned
    without an expiry or revocation check: with the cache working, the token
    is accepted for that long after the validation, past its own [exp] and
    its row's expiry, unless its hash is put on the blacklist. *)
Theorem cached_claims_outlive_expiry {C R D} `{CacheLaws C} `{RedisOps R} `{TokenRepository D}
    `{JwtLib} `{UuidLib} `{ClaimsJsonLaws} sha256_hex config now tok
    (w w1 : TSW C R D) claims now' :
  cache_up C → json_up → 0 < claims_ttl config claims →
  cabs (w_cache w) (claimsKey (sha256_hex tok)) →
  ValidateToken sha256_hex config now tok w = (Ok claims, w1) →
  now ≤ now' < now + claims_ttl config claims →
  (redis_Exists now' (blacklistKey (sha256_hex tok)) (w_redis w1)).1 = Ok 0 →
  (ValidateToken sha256_hex config now' tok w1).1 = Ok claims.
Proof.
  intros Hup Hjson Ht Ha Hv Hn Hb.
  destruct (ValidateToken_miss_caches sha256_hex config Hup Hjson _ _ _ _ _ Ht Ha Hv) as (s & Hu & Hc).
  by destruct (ValidateToken_cached sha256_hex config now' tok w1 s claims _ Hb Hc Hu)
    as (w2 & -> & _); [lia|].
Qed.

(** ** Witnesses

    The service on the reference stores: one login as user 7 of
    organization 9. *)
#[local] Existing Instances ref_uuid ref_json ref_json_laws ref_jwt ref_jwt_laws.

Definition ref_hash (s : string) : string := Itoa (Z.of_nat (str_len s)).
Definition ref_rand : TokenRand := mkTokenRand "sid" 11 12 13 14.
Definition ref_login : res error TokenPair * TSW ref_cache ref_redis ref_tokens :=
  GenerateTokenPair ref_hash ref_config 0 ref_rand 7 9 "a@b.c" None ref_tsw.
Definition ref_pair : TokenPair :=
  match ref_login.1 with Ok p => p | Err _ => mkTokenPair "" "" 0 0 "" end.
(** The same state after the cache has lost its entries. *)
Definition ref_cold : TSW ref_cache ref_redis ref_tokens :=
  let w := ref_login.2 in mkTSW (w_ts w) (∅ : gmap string (string * Z)) (w_redis w) (w_tokens w).

Lemma ref_cache_up : cache_up ref_cache.
Proof. by intros now k v ttl c. Qed.
Lemma ref_json_up : json_up.
Proof. by intros c. Qed.


Definition ref_access : string := tp_AccessToken ref_pair.
Definition ref_claims : TokenClaims :=
  mkTokenClaims 7 9 "a@b.c" "access" 1 "" "" "sid" (uuid_String 11) (uuid_String 7) (Some 0) (Some (3600 * Second))
    (Some 0) "erp-auth-service" ["erp-suite"].
Definition ref_checked (now : Z) : TSW ref_cache ref_redis ref_tokens :=
  (ValidateToken ref_hash ref_config now ref_access ref_cold).2.

Lemma ref_checked_run : (ValidateToken ref_hash ref_config (3599 * Second) ref_access ref_cold).1
  = Ok ref_claims.
Proof. vm_refl. Qed.
Lemma ref_cold_miss now : is_ok (cache_Get now (claimsKey (ref_hash ref_access)) (w_cache ref_cold)).1 = false.
Proof. reflexivity. Qed.

Example ValidateToken_sound_witness :
  ∃ t, t ∈ w_tokens ref_cold ∧ t_TokenHash t = ref_hash ref_access ∧ t_RevokedAt t = None ∧
       3599 * Second < t_ExpiresAt t.
Proof.
  destruct (ValidateToken_sound ref_hash ref_config (3599 * Second) ref_access
              ref_cold _ _ (run_split _ _ ref_checked_run)) as [_ [(data & Hd & _)|[_ Ht]]]; [|exact Ht].
  pose proof (ref_cold_miss (3599 * Second)) as Hm. rewrite Hd in Hm. discriminate Hm.
Defined.

Lemma ref_claims_ttl : claims_ttl ref_config ref_claims = 3600 * Second.
Proof. vm_refl. Qed.
Lemma ref_checked_live :
  (redis_Exists (7000 * Second) (blacklistKey (ref_hash ref_access))
     (w_redis (ref_checked (3599 * Second)))).1 = Ok 0.
Proof. vm_refl. Qed.

(** Valid for one more second when checked, accepted 3400 seconds late. *)
Example cached_claims_outlive_expiry_witness :
  time_valid (7000 * Second) ref_claims = false ∧
  (ValidateToken ref_hash ref_config (7000 * Second) ref_access
     (ref_checked (3599 * Second))).1 = Ok ref_claims.
Proof.
  split; [reflexivity|].
  apply (cached_claims_outlive_expiry ref_hash ref_config (3599 * Second) ref_access ref_cold).
  - apply ref_cache_up.
  - apply ref_json_up.
  - rewrite ref_claims_ttl. unfold Second, Millisecond. lia.
  - reflexivity.
  - exact (run_split _ _ ref_checked_run).
  - rewrite ref_claims_ttl. unfold Second, Millisecond. lia.
  - exact ref_checked_live.
Defined.

Lemma ref_minted : minted ref_config (w_ts ref_tsw) 11 7 9 "a@b.c" AccessToken None "sid" 0
  (3600 * Second) ref_access.
Proof. split; vm_refl. Qed.

Example rotation_window_witness :
  let rotate k s' := w_ts (rotateKeys (Ok k) (mkTSW s' tt tt tt)).2 in
  is_ok (jwt_ParseWithClaims Second ref_access
    (select_key (rotate "k2" (rotate "k1" (w_ts ref_tsw))))) = false.
Proof.
  eapply (rotation_window ref_config _ _ _ _ _ _ _ _ _ _ _ "k1" "k2" Second ref_minted);
    unfold min_int, max_int; simpl; [lia | lia | reflexivity].
Defined.

Definition ref_refresh : res error TokenPair * TSW ref_cache ref_redis ref_tokens :=
  RefreshToken_ ref_hash ref_config Hour (mkTokenRand "sid2" 21 22 23 24)
    (tp_RefreshToken ref_pair) None ref_login.2.
Lemma ref_refresh_run : is_ok ref_refresh.1 = true.
Proof. vm_refl. Qed.
Lemma ref_login_run : ref_login = (Ok ref_pair, ref_login.2).
Proof. vm_refl. Qed.
Lemma ref_refresh_live : (redis_Exists Hour (blacklistKey (ref_hash (tp_RefreshToken ref_pair)))
  (w_redis ref_login.2)).1 = Ok 0.
Proof. vm_refl. Qed.

Example refresh_loses_organization_witness :
  ∃ pair' c, jwt_SignedString "secret" c = Ok (tp_AccessToken pair') ∧
    tc_OrganizationID c = 7%N ∧ tc_Email c = "".
Proof.
  destruct (run_ok ref_refresh ref_refresh_run) as [p' Hr]. exists p'.
  destruct (refresh_loses_organization ref_hash ref_config ref_tsw ref_login.2 ref_refresh.2
    0 ref_rand 7 9 "a@b.c" None ref_pair Hour (mkTokenRand "sid2" 21 22 23 24) None p')
    as (c & Hs & _ & Ho & He).
  - apply ref_cache_up.
  - apply ref_json_up.
  - vm_compute; reflexivity.
  - vm_compute; reflexivity.
  - exact ref_login_run.
  - split; vm_compute; [discriminate | reflexivity].
  - exact ref_refresh_live.
  - exact Hr.
  - exists c. split; [exact Hs | split; [exact Ho | exact He]].
Defined.

Definition ref_logout : res error unit * TSW ref_cache ref_redis ref_tokens :=
  RevokeAllUserTokens ref_config Hour 7 AccessToken ref_login.2.
Lemma ref_logout_run : ref_logout.1 = Ok tt.
Proof. vm_refl. Qed.
Lemma ref_redis_up : redis_up (R:=ref_redis).
Proof. by intros r now k v ttl. Qed.
Lemma ref_row_live : existsb (λ t, row_of_user 7 AccessToken t && unexpired (Hour - 1) t
  && String.eqb (ref_hash ref_access) (t_TokenHash t)) (w_tokens ref_login.2) = true.
Proof. vm_refl. Qed.

Example RevokeAllUserTokens_refuses_witness :
  (∀ t, t ∈ w_tokens ref_logout.2 → row_of_user 7 AccessToken t = false) ∧
  ∃ w1, RevokeAllUserTokens ref_config (Hour - 1) 7 AccessToken ref_login.2 = (Ok tt, w1) ∧
    (ValidateToken ref_hash ref_config (2 * Hour) ref_access w1).1
      = Err (ErrorString "token is blacklisted").
Proof.
  split.
  - destruct (RevokeAllUserTokens_refuses ref_hash ref_config Hour 7 AccessToken ref_login.2
      ref_logout.2 ref_logout.2 Hour) as [Hrows _];
      [exact ref_redis_up | reflexivity | exact (run_split _ _ ref_logout_run) | apply star_refl
      | exact Hrows].
  - set (out := RevokeAllUserTokens ref_config (Hour - 1) 7 AccessToken ref_login.2).
    assert (Hr : out.1 = Ok tt) by vm_refl. exists out.2. split; [exact (run_split _ _ Hr)|].
    destruct (proj1 (existsb_exists _ _) ref_row_live) as (t & Hin & Hp).
    apply andb_true_iff in Hp as [Hp Hh]. apply andb_true_iff in Hp as [Hrow Hun].
    apply (RevokeAllUserTokens_refuses ref_hash ref_config (Hour - 1) 7 AccessToken ref_login.2
      out.2 out.2 (Hour - 1) ref_redis_up eq_refl (run_split _ _ Hr) (star_refl _ _) ) with (t := t);
      [ by apply list_elem_of_In | exact Hrow | exact Hun | by apply String.eqb_eq | reflexivity].
Defined.
