(* ===== verification/Permission.v ===== *)
(** * Permission checks (src/internal/application/services/permission_service.go)

    Hierarchical RBAC with cached decisions.  The service works on the cache
    manager and the permission repository ([PSW]); the bulk evaluator it owns
    is in Bulk.v.  The in-memory [evaluationCache] field is never used by the
    code.  The recursion through child permissions is on fuel: the code's
    own recursion is bounded by the depth of the hierarchy only. *)

From S2P Require Import Prelude Errors Models Ifaces.

Record PermissionServiceConfig := mkPermissionServiceConfig {
  CacheTTL : Z; BulkEvaluationEnabled : bool; CacheWarmingEnabled : bool;
  MaxCacheSize : Z; EvaluationTimeout : Z }.

(** [Metadata] is never set and is left out. *)
Record PermissionEvaluationResult := mkEvalResult {
  per_Allowed : bool; per_Permission : option EPermission;
  per_Reason : string; per_EvaluatedAt : Z }.

(** The free-form [Context] maps are never read. *)
Record PermissionCheckRequest := mkCheckRequest {
  pcr_Resource : string; pcr_Action : string; pcr_Scope : string }.
Record BulkPermissionRequest := mkBulkRequest {
  bpr_UserID : N; bpr_Permissions : list PermissionCheckRequest }.
Record BulkPermissionResponse := mkBulkResponse {
  bps_UserID : N; bps_Results : list PermissionEvaluationResult }.

(** [encoding/json] on the two cached types. *)
Class PermissionJson := {
  result_Marshal : PermissionEvaluationResult → res error string;
  result_Unmarshal : string → res error PermissionEvaluationResult;
  perms_Marshal : list EPermission → res error string;
  perms_Unmarshal : string → res error (list EPermission) }.
Class PermissionJsonLaws `{PermissionJson} := {
  result_Unmarshal_Marshal r s : result_Marshal r = Ok s → result_Unmarshal s = Ok r;
  perms_Unmarshal_Marshal l s : perms_Marshal l = Ok s → perms_Unmarshal s = Ok l }.

(** ** Matching *)

Definition matchesWildcard (pattern value : string) : bool :=
  if String.eqb pattern "*" then true
  else if HasSuffix pattern "*" then
    let prefix := TrimSuffix pattern "*" in HasPrefix value prefix
  else if HasPrefix pattern "*" then
    let suffix := TrimPrefix pattern "*" in HasSuffix value suffix
  else String.eqb pattern value.

Definition matchesPermission (perm : Permission) (resource action scope : string) : bool :=
  if (String.eqb (p_Resource perm) resource && String.eqb (p_Action perm) action) &&
     (String.eqb scope "" || String.eqb (p_Scope perm) "" || String.eqb (p_Scope perm) scope)
  then true
  else if (matchesWildcard (p_Resource perm) resource && matchesWildcard (p_Action perm) action) &&
          (String.eqb scope "" || String.eqb (p_Scope perm) "" ||
           matchesWildcard (p_Scope perm) scope)
  then true
  else false.

(** [Children] of the result is the nil slice. *)
Definition modelToEntity (p : Permission) : EPermission :=
  mkEPermission (p_ID p) (p_Name p) (p_Resource p) (p_Action p) (p_Scope p) (p_ParentID p) []
    (p_Description p) (p_IsSystem p) (p_CreatedAt p) (p_UpdatedAt p).

Definition set_Children (cs : list EPermission) (e : EPermission) : EPermission :=
  let '(mkEPermission i n r a s p _ d y c u) := e in mkEPermission i n r a s p cs d y c u.

(** [seen] is the map of ids already kept. *)
Fixpoint dedup_from (seen : gset N) (perms : list EPermission) : list EPermission :=
  match perms with
  | [] => []
  | perm :: rest =>
      if decide (ep_ID perm ∈ seen) then dedup_from seen rest
      else perm :: dedup_from ({[ep_ID perm]} ∪ seen) rest
  end.
Definition deduplicatePermissions (perms : list EPermission) : list EPermission :=
  dedup_from ∅ perms.

(** ** The permission tree

    [permMap] holds one heap object per id, so an id stands for its pointer:
    the map is the heap.  [append(parent.Children, *entity)] copies the
    object as it is at that moment. *)
Definition tree_first (perms : list Permission) : gmap N EPermission :=
  foldl (λ m perm, <[p_ID perm := set_Children [] (modelToEntity perm)]> m) ∅ perms.

Fixpoint tree_second (perms : list Permission) (heap : gmap N EPermission) (roots : list N)
    : gmap N EPermission * list N :=
  match perms with
  | [] => (heap, roots)
  | perm :: rest =>
      match heap !! p_ID perm with
      | None => tree_second rest heap roots   (* not reached: the first pass filled the map *)
      | Some entity =>
          match p_ParentID perm with
          | Some pid =>
              match heap !! pid with
              | Some parent =>
                  tree_second rest
                    (<[pid := set_Children (ep_Children parent ++ [entity]) parent]> heap) roots
              | None => tree_second rest heap roots
              end
          | None => tree_second rest heap (roots ++ [p_ID perm])
          end
      end
  end.

Definition buildPermissionTree (perms : list Permission) : list EPermission :=
  let (heap, roots) := tree_second perms (tree_first perms) [] in
  omap (λ i, heap !! i) roots.

(** ** Evaluation *)

Section eval.
Context {D : Type} `{PermissionRepository D}.
Abbreviation MF := (GoM (option error)).

Section request.
Context (resource action scope : string).

(** The loop of [checkHierarchicalPermission] over the children; [rec] is
    the recursive call.  The pair [(allowed, matched)] is an option. *)
Fixpoint check_children (rec : Permission → MF D (option EPermission))
    (children : list Permission) : MF D (option EPermission) :=
  match children with
  | [] => ret None
  | child :: rest =>
      if matchesPermission child resource action scope then ret (Some (modelToEntity child))
      else
        let* r := rec child in
        match r with
        | Some matchedPerm => ret (Some matchedPerm)
        | None => check_children rec rest
        end
  end.

Fixpoint checkHierarchicalPermission (fuel : nat) (perm : Permission)
    : MF D (option EPermission) :=
  match fuel with
  | O => outOfFuel
  | S fuel' =>
      let* children := attemptF (pr_GetChildPermissions (p_ID perm)) in
      match children with
      | Err _ => ret None
      | Ok cs => check_children (checkHierarchicalPermission fuel') cs
      end
  end.

(** The second loop of [evaluatePermission]. *)
Fixpoint check_hierarchies (fuel : nat) (perms : list Permission) : MF D (option EPermission) :=
  match perms with
  | [] => ret None
  | perm :: rest =>
      let* r := checkHierarchicalPermission fuel perm in
      match r with
      | Some matchedPerm => ret (Some matchedPerm)
      | None => check_hierarchies fuel rest
      end
  end.
End request.

(** Both results of the Go function: the evaluation and the error.  The
    timeout of the context shows as repository errors. *)
Definition evaluatePermission (fuel : nat) (now : Z) (userID : N)
    (resource action scope : string) : MF D (PermissionEvaluationResult * option error) :=
  let* permissions := attemptF (pr_GetUserPermissions userID) in
  match permissions with
  | Err err =>
      ret (mkEvalResult false None "failed to retrieve user permissions" now,
           Some (ErrorWrap "failed to get user permissions" err))
  | Ok perms =>
      match List.find (λ perm, matchesPermission perm resource action scope) perms with
      | Some perm =>
          ret (mkEvalResult true (Some (modelToEntity perm)) "direct permission match" now, None)
      | None =>
          let* h := check_hierarchies resource action scope fuel perms in
          match h with
          | Some matchedPerm =>
              ret (mkEvalResult true (Some matchedPerm) "hierarchical permission match" now, None)
          | None => ret (mkEvalResult false None "no matching permission found" now, None)
          end
      end
  end.

Definition bulk_entry (now : Z) (out : PermissionEvaluationResult * option error)
    : PermissionEvaluationResult :=
  match out.2 with
  | Some err => mkEvalResult false None ("evaluation error: " +:+ Error err) now
  | None => out.1
  end.

Fixpoint bulk_sequential (fuel : nat) (now : Z) (userID : N) (reqs : list PermissionCheckRequest)
    : MF D (list PermissionEvaluationResult) :=
  match reqs with
  | [] => ret []
  | r :: rest =>
      let* out := evaluatePermission fuel now userID (pcr_Resource r) (pcr_Action r) (pcr_Scope r) in
      let* l := bulk_sequential fuel now userID rest in
      ret (bulk_entry now out :: l)
  end.
Definition checkBulkPermissionsSequential (fuel : nat) (now : Z) (request : BulkPermissionRequest)
    : MF D BulkPermissionResponse :=
  let* results := bulk_sequential fuel now (bpr_UserID request) (bpr_Permissions request) in
  ret (mkBulkResponse (bpr_UserID request) results).

Definition getHierarchicalPermissions (permissionID : N) : M D (list EPermission) :=
  let* perms := pr_GetPermissionHierarchy permissionID in ret (modelToEntity <$> perms).

Definition GetPermissionHierarchy (parentID : option N) : M D (list EPermission) :=
  let* perms :=
    match parentID with
    | None => wrap_err (ErrorWrap "failed to get root permissions") (pr_GetPermissionsByResource "")
    | Some i => wrap_err (ErrorWrap "failed to get permission hierarchy") (pr_GetPermissionHierarchy i)
    end in
  ret (buildPermissionTree perms).

(** The loop of [GetUserEffectivePermissions]: a failing hierarchy is skipped. *)
Fixpoint gather_effective (perms : list Permission) : M D (list EPermission) :=
  match perms with
  | [] => ret []
  | perm :: rest =>
      let* h := attempt (getHierarchicalPermissions (ep_ID (modelToEntity perm))) in
      let* l := gather_effective rest in
      ret (match h with Ok hierarchical => hierarchical ++ l | Err _ => l end)
  end.
End eval.

(** ** The service *)

Record PSW (C D : Type) := mkPSW { pw_cache : C; pw_repo : D }.
Arguments mkPSW {C D}. Arguments pw_cache {C D}. Arguments pw_repo {C D}.

Section ops.
Context {C D : Type} `{CacheOps C} `{PermissionRepository D}.
Context `{PermissionJson} `{UuidLib} (config : PermissionServiceConfig).
Abbreviation W := (PSW C D).
Abbreviation MF := (GoM (option error)).

Definition on_pcache {A} (m : M C A) : M W A := zoom pw_cache (λ c w, mkPSW c (pw_repo w)) m.
Definition on_repo {A} (m : M D A) : M W A := zoom pw_repo (λ d w, mkPSW (pw_cache w) d) m.
Definition on_repoF {A} (m : MF D A) : MF W A :=
  λ w, let (r, d) := m (pw_repo w) in (r, mkPSW (pw_cache w) d).

Definition buildPermissionCacheKey (userID : N) (resource action scope : string) : string :=
  "user:permission:" +:+ uuid_String userID +:+ ":" +:+ resource +:+ ":" +:+ action +:+ ":" +:+ scope.
Definition effectiveKey (userID : N) : string :=
  "user:permissions:effective:" +:+ uuid_String userID.
Definition invalidationPattern (userID : N) : string :=
  "user:permissions:*:" +:+ uuid_String userID.

Definition getFromCache (now : Z) (key : string) : M W PermissionEvaluationResult :=
  let* data := on_pcache (cache_Get now key) in lift_res (result_Unmarshal data).
Definition cacheResult (now : Z) (key : string) (result : PermissionEvaluationResult) : M W unit :=
  let* data := lift_res (result_Marshal result) in
  on_pcache (cache_Set now key data (CacheTTL config)).
Definition getUserPermissionsFromCache (now : Z) (key : string) : M W (list EPermission) :=
  let* data := on_pcache (cache_Get now key) in lift_res (perms_Unmarshal data).
Definition cacheUserPermissions (now : Z) (key : string) (perms : list EPermission) : M W unit :=
  let* data := lift_res (perms_Marshal perms) in
  on_pcache (cache_Set now key data (CacheTTL config)).

Definition CheckUserPermissionWithScope (fuel : nat) (now : Z) (userID : N)
    (resource action scope : string) : MF W bool :=
  let cacheKey := buildPermissionCacheKey userID resource action scope in
  let* cached := attemptF (getFromCache now cacheKey) in
  match cached with
  | Ok r => ret (per_Allowed r)
  | Err _ =>
      let* (result, err) := on_repoF (evaluatePermission fuel now userID resource action scope) in
      match err with
      | Some e => fail (Some (ErrorWrap "failed to evaluate permission" e))
      | None => attemptF (cacheResult now cacheKey result) ;;; ret (per_Allowed result)
      end
  end.
Definition CheckUserPermission (fuel : nat) (now : Z) (userID : N) (resource action : string)
    : MF W bool := CheckUserPermissionWithScope fuel now userID resource action "".

Definition GetUserEffectivePermissions (now : Z) (userID : N) : M W (list EPermission) :=
  let cacheKey := effectiveKey userID in
  let* cached := attempt (getUserPermissionsFromCache now cacheKey) in
  match cached with
  | Ok l => ret l
  | Err _ =>
      let* perms := wrap_err (ErrorWrap "failed to get user permissions")
                      (on_repo (pr_GetUserPermissions userID)) in
      let* gathered := on_repo (gather_effective perms) in
      let effectivePermissions := deduplicatePermissions gathered in
      attempt (F:=error) (cacheUserPermissions now cacheKey effectivePermissions) ;;;
      ret effectivePermissions
  end.

Definition InvalidateUserPermissionCache (now : Z) (userID : N) : M W unit :=
  on_pcache (cache_InvalidatePattern now (invalidationPattern userID)).
End ops.

(** ** Lemmas *)

Lemma str_eqb_true s t : String.eqb s t = true ↔ s = t.
Proof. apply String.eqb_eq. Qed.

Lemma exact_is_wildcard p v : p = v → matchesWildcard p v = true.
Proof.
  intros <-. unfold matchesWildcard. destruct (String.eqb p "*"); [done|].
  destruct (HasSuffix p "*") eqn:Es.
  - apply HasSuffix_spec in Es as [r ->]. rewrite TrimSuffix_app.
    apply HasPrefix_spec. eauto.
  - destruct (HasPrefix p "*") eqn:Ep; [|by apply String.eqb_eq].
    apply HasPrefix_spec in Ep as [r ->]. rewrite TrimPrefix_app.
    apply HasSuffix_spec. eauto.
Qed.

(** The exact branch of [matchesPermission] is an instance of the other one. *)
Lemma matchesPermission_eq perm r a s :
  matchesPermission perm r a s =
  matchesWildcard (p_Resource perm) r && matchesWildcard (p_Action perm) a &&
  (String.eqb s "" || String.eqb (p_Scope perm) "" || matchesWildcard (p_Scope perm) s).
Proof.
  unfold matchesPermission. destruct (_ && _ && _) eqn:E;
    [|by match goal with |- (if ?b then _ else _) = _ => destruct b end].
  apply andb_true_iff in E as [E Hs]. apply andb_true_iff in E as [Hr Ha].
  apply str_eqb_true in Hr, Ha.
  rewrite !exact_is_wildcard by done. simpl.
  destruct (String.eqb s ""), (String.eqb (p_Scope perm) ""); simpl in *; try done.
  symmetry. by apply exact_is_wildcard, str_eqb_true.
Qed.

(** The hierarchy below a permission. *)
Definition child_of (rows : list Permission) (p c : Permission) : Prop :=
  c ∈ rows ∧ p_ParentID c = Some (p_ID p).
Inductive descends (rows : list Permission) : Permission → Permission → Prop :=
| descends_child p c : child_of rows p c → descends rows p c
| descends_step p c q : child_of rows p c → descends rows c q → descends rows p q.

Lemma descends_inv rows p q : descends rows p q →
  ∃ c, child_of rows p c ∧ (q = c ∨ descends rows c q).
Proof. inversion 1; subst; eauto. Qed.

Lemma descends_snoc rows p c q : descends rows p c → child_of rows c q → descends rows p q.
Proof. induction 1; eauto using descends. Qed.

Section hierarchy.
Context {D : Type} `{PermissionRepositoryLaws D} (resource action scope : string).
Abbreviation matches := (λ q, matchesPermission q resource action scope).
Abbreviation check := (checkHierarchicalPermission (D:=D) resource action scope).

Definition repo_up : Prop := ∀ i (d : D), is_ok (pr_GetChildPermissions i d).1 = true.

Lemma psame_refl (d : D) : psame d d.
Proof. done. Qed.
Lemma psame_trans (d1 d2 d3 : D) : psame d1 d2 → psame d2 d3 → psame d1 d3.
Proof. intros [? Hg1] [? Hg2]. split; [congruence | intros u; by rewrite Hg2, Hg1]. Qed.

Lemma check_S fuel p (d : D) :
  check (S fuel) p d =
  match pr_GetChildPermissions (p_ID p) d with
  | (Ok cs, d1) => check_children resource action scope (check fuel) cs d1
  | (Err _, d1) => (Ok None, d1)
  end.
Proof.
  simpl. unfold bind, attemptF. by destruct (pr_GetChildPermissions (p_ID p) d) as [[cs|e] d1].
Qed.

(** What a search answers: out of fuel or a decision, in the same rows.  A
    positive decision names a matching descendant. *)
Definition search_sound (below : Permission → Prop) (d : D)
    (out : res (option error) (option EPermission) * D) : Prop :=
  psame d out.2 ∧
  match out.1 with
  | Ok (Some e) => ∃ q, below q ∧ matches q = true ∧ e = modelToEntity q
  | Ok None => True
  | Err e => e = None
  end.

Lemma check_children_sound (below : Permission → Prop) rec cs (d d0 : D) :
  psame d0 d →
  (∀ c, c ∈ cs → below c ∧ ∀ d1, psame d0 d1 → search_sound below d1 (rec c d1)) →
  search_sound below d (check_children resource action scope rec cs d).
Proof.
  revert d. induction cs as [|c cs IH]; intros d Hd Hc; simpl; [done|].
  destruct (Hc c) as [Hb Hr]; [left|].
  destruct (matches c) eqn:Em; [split; [done|]; simpl; eauto|].
  specialize (Hr d Hd). unfold bind. destruct (rec c d) as [[[e|]|err] d1]; simpl in *;
    [exact Hr | | exact Hr].
  destruct Hr as [Hs _].
  destruct (IH d1) as [Hs' Hr'];
  [by eapply psame_trans | intros c' Hc'; apply Hc; by right|].
  split; [by eapply psame_trans | exact Hr'].
Qed.

Lemma check_sound fuel p (d : D) : search_sound (descends (prows d) p) d (check fuel p d).
Proof.
  revert p d. induction fuel as [|fuel IH]; intros p d; [done|]. rewrite check_S.
  pose proof (pr_GetChildPermissions_same d (p_ID p)) as Hs.
  destruct (pr_GetChildPermissions (p_ID p) d) as [[cs|e] d1] eqn:Ec; simpl in Hs; [|by split].
  pose proof (pr_GetChildPermissions_ok _ _ _ _ Ec) as Hcs.
  destruct (check_children_sound (descends (prows d) p) (check fuel) cs d1 d) as [Hx1 Hx2]; [done| |].
  - intros c Hc. apply Hcs in Hc as [? ?].
    assert (Hch : child_of (prows d) p c) by done. split; [by constructor|].
    intros d2 [Hr Hg]. destruct (IH c d2) as [Hs2 Ho]. split; [done|].
    destruct ((check fuel c d2).1) as [[e|]|]; try done.
    destruct Ho as (q & Hq & Hm & He). rewrite Hr in Hq. exists q. eauto using descends.
  - split; [by eapply psame_trans | exact Hx2].
Qed.

(** With a rank that decreases from parent to child, fuel above the rank is
    enough, and a negative answer rules out every descendant. *)
Lemma check_children_complete (rec : Permission → GoM (option error) D (option EPermission))
    cs (d d0 : D) :
  psame d0 d →
  (∀ c, c ∈ cs → ∀ d1, psame d0 d1 → search_sound (descends (prows d0) c) d1 (rec c d1) ∧
     ∃ o, (rec c d1).1 = Ok o ∧
       (o = None → repo_up → ∀ q, descends (prows d0) c q → matches q = false)) →
  ∃ o, (check_children resource action scope rec cs d).1 = Ok o ∧
    (o = None → repo_up → ∀ c, c ∈ cs → matches c = false ∧
       ∀ q, descends (prows d0) c q → matches q = false).
Proof.
  revert d. induction cs as [|c cs IH]; intros d Hd Hc; simpl.
  - exists None. split; [done|]. intros _ _ c Hin. by apply elem_of_nil in Hin.
  - destruct (matches c) eqn:Em; [by eexists|].
    destruct (Hc c ltac:(left) d Hd) as [[Hs _] (o & Ho & Hn)].
    unfold bind. destruct (rec c d) as [r d1]; simpl in *. subst r.
    destruct o as [e|]; [by eexists|].
    destruct (IH d1) as (o' & Ho' & Hn');
      [by eapply psame_trans | intros c' Hc'; apply Hc; by right|].
    exists o'. split; [done|]. intros Hnone Hup c' [->|Hin]%elem_of_cons; [|by apply Hn'].
    split; [done|]. by apply Hn.
Qed.

Lemma check_complete (rank : Permission → nat) fuel p (d : D) :
  (∀ x c, child_of (prows d) x c → rank c < rank x)%nat → (rank p < fuel)%nat →
  ∃ o, (check fuel p d).1 = Ok o ∧
    (o = None → repo_up → ∀ q, descends (prows d) p q → matches q = false).
Proof.
  revert p d. induction fuel as [|fuel IH]; intros p d Hrank Hf; [lia|]. rewrite check_S.
  pose proof (pr_GetChildPermissions_same d (p_ID p)) as Hs.
  destruct (pr_GetChildPermissions (p_ID p) d) as [[cs|e] d1] eqn:Ec; simpl in Hs; simpl.
  - pose proof (pr_GetChildPermissions_ok _ _ _ _ Ec) as Hcs.
    destruct (check_children_complete (check fuel) cs d1 d Hs) as (o & Ho & Hn).
    + intros c Hc d2 Hd2. apply Hcs in Hc as [Hrow Hpar]. destruct Hd2 as [Hr2 Hg2].
      rewrite <- Hr2. split; [apply check_sound|]. apply IH; [by rewrite Hr2|].
      assert (rank c < rank p)%nat; [by apply Hrank | lia].
    + exists o. split; [done|]. intros Hnone Hup q Hq.
      apply descends_inv in Hq as (c & Hch & Hq).
      destruct (Hn Hnone Hup c) as [Hmc Hmq]; [by apply Hcs|].
      destruct Hq as [->|Hq]; auto.
  - exists None. split; [done|]. intros _ Hup. specialize (Hup (p_ID p) d). by rewrite Ec in Hup.
Qed.

Lemma check_hierarchies_spec (rank : Permission → nat) fuel ps (d d0 : D) :
  psame d0 d →
  (∀ x c, child_of (prows d0) x c → rank c < rank x)%nat →
  (∀ p, p ∈ ps → rank p < fuel)%nat →
  ∃ o, (check_hierarchies resource action scope fuel ps d).1 = Ok o ∧
    psame d0 (check_hierarchies resource action scope fuel ps d).2 ∧
    (∀ e, o = Some e → ∃ p q, p ∈ ps ∧ descends (prows d0) p q ∧ matches q = true) ∧
    (o = None → repo_up → ∀ p q, p ∈ ps → descends (prows d0) p q → matches q = false).
Proof.
  intros Hd Hrank. revert d Hd. induction ps as [|p ps IH]; intros d Hd Hf; simpl.
  - exists None. split_and!; [done|done|done|]. intros _ _ p q Hp. by apply elem_of_nil in Hp.
  - pose proof (check_sound fuel p d) as [Hs Hsound]. destruct Hd as [Hr Hg].
    destruct (check_complete rank fuel p d) as (o & Ho & Hn);
      [by rewrite Hr | apply Hf; left|].
    rewrite Hr in Hsound, Hn. unfold bind.
    destruct (check fuel p d) as [r d1]; simpl in *. subst r. destruct o as [e|]; simpl.
    + exists (Some e). destruct Hsound as (q & Hq & Hm & _).
      split_and!; [done | by eapply psame_trans | | done].
      intros e' _. exists p, q. split_and!; [left|done|done].
    + destruct (IH d1) as (o' & Ho' & Hs' & Hp' & Hn');
        [by eapply psame_trans | intros p' Hp'; apply Hf; by right|].
      exists o'. split_and!; [done|done| |].
      * intros e He. destruct (Hp' e He) as (p' & q & Hin & Hq & Hm).
        exists p', q. split_and!; [by right|done|done].
      * intros Hnone Hup p' q [->|Hin]%elem_of_cons Hq; [by apply Hn | by eapply Hn'].
Qed.

(** On a cycle with no match the search never returns. *)
Lemma check_children_cycle (rec : Permission → GoM (option error) D (option EPermission))
    c cs (d d0 : D) :
  psame d0 d → c ∈ cs →
  (∀ x, x ∈ cs → matches x = false ∧ ∀ d1, psame d0 d1 →
     psame d1 (rec x d1).2 ∧ ((rec x d1).1 = Ok None ∨ (rec x d1).1 = Err None)) →
  (∀ d1, psame d0 d1 → (rec c d1).1 = Err None) →
  (check_children resource action scope rec cs d).1 = Err None.
Proof.
  revert d. induction cs as [|x cs IH]; intros d Hd Hin Hx Hc; [by apply elem_of_nil in Hin|].
  simpl. destruct (Hx x ltac:(left)) as [Hm Hr]. rewrite Hm.
  destruct (Hr d Hd) as [Hs Ho]. unfold bind.
  apply elem_of_cons in Hin as [->|Hin].
  - specialize (Hc d Hd). destruct (rec x d) as [r d1]. simpl in *. by subst r.
  - destruct (rec x d) as [r d1]; simpl in *. destruct Ho as [->| ->]; [|done].
    apply IH; [by eapply psame_trans | done | | done]. intros y Hy. apply Hx. by right.
Qed.

Lemma check_cycle fuel p (d : D) :
  repo_up → descends (prows d) p p → (∀ q, descends (prows d) p q → matches q = false) →
  (check fuel p d).1 = Err None.
Proof.
  intros Hup. revert p d. induction fuel as [|fuel IH]; intros p d Hcyc Hno; [done|].
  rewrite check_S. pose proof (pr_GetChildPermissions_same d (p_ID p)) as Hs.
  pose proof (Hup (p_ID p) d) as Hu.
  destruct (pr_GetChildPermissions (p_ID p) d) as [[cs|e] d1] eqn:Ec; [|done]. simpl in Hs.
  pose proof (pr_GetChildPermissions_ok _ _ _ _ Ec) as Hcs.
  destruct (descends_inv _ _ _ Hcyc) as (c & Hch & Hc).
  assert (Hcc : descends (prows d) c c).
  { destruct Hc as [->|Hc]; [done|]. by eapply descends_snoc. }
  eapply (check_children_cycle (check fuel) c cs d1 d Hs).
  - apply Hcs. exact Hch.
  - intros x Hx. apply Hcs in Hx. assert (Hxp : child_of (prows d) p x) by done.
    split; [apply Hno; by constructor|].
    intros d2 [Hr Hg]. destruct (check_sound fuel x d2) as [Hs2 Ho]. split; [done|].
    destruct ((check fuel x d2).1) as [[e|]|e]; [|by left | by right; rewrite Ho].
    destruct Ho as (q & Hq & Hm & _). rewrite Hr in Hq.
    rewrite (Hno q) in Hm; [done|]. by eapply descends_step.
  - intros d2 [Hr Hg]. apply IH; rewrite Hr; [done|].
    intros q Hq. apply Hno. by eapply descends_step.
Qed.
End hierarchy.

(** Deduplication keeps the first element of every id. *)
Definition entity_with (i : N) (l : list EPermission) : option EPermission :=
  List.find (λ e, (ep_ID e =? i)%N) l.

Lemma dedup_from_find seen l i :
  entity_with i (dedup_from seen l) = if decide (i ∈ seen) then None else entity_with i l.
Proof.
  unfold entity_with. revert seen. induction l as [|e l IH]; intros seen; simpl; [by case_decide|].
  destruct (decide (ep_ID e ∈ seen)) as [He|He]; [|simpl]; rewrite ?IH;
    destruct (N.eqb_spec (ep_ID e) i) as [<-|Hne]; repeat case_decide; try done; set_solver.
Qed.

Lemma dedup_from_fresh seen l e : e ∈ dedup_from seen l → ep_ID e ∉ seen.
Proof.
  revert seen. induction l as [|x l IH]; intros seen; simpl; [by intros ?%elem_of_nil|].
  destruct (decide (ep_ID x ∈ seen)) as [Hx|Hx]; [apply IH|].
  intros [->|Hin]%elem_of_cons; [done|]. apply IH in Hin. set_solver.
Qed.

Lemma dedup_from_NoDup seen l : NoDup (ep_ID <$> dedup_from seen l).
Proof.
  revert seen. induction l as [|x l IH]; intros seen; simpl; [constructor|].
  destruct (decide (ep_ID x ∈ seen)); [apply IH|]. simpl. constructor; [|apply IH].
  intros (e & He & Hin)%list_elem_of_fmap. apply dedup_from_fresh in Hin. set_solver.
Qed.

Lemma dedup_from_sublist seen l : dedup_from seen l `sublist_of` l.
Proof.
  revert seen. induction l as [|x l IH]; intros seen; simpl; [constructor|].
  destruct (decide (ep_ID x ∈ seen)); by constructor.
Qed.

(** The permission tree of a list that names parents before children. *)
Definition kids (l : list Permission) (i : N) : list Permission :=
  filter (λ c, p_ParentID c = Some i) l.
Definition root_rows (l : list Permission) : list Permission := filter (λ p, p_ParentID p = None) l.
Definition row_with (l : list Permission) (i : N) : option Permission :=
  List.find (λ p, (p_ID p =? i)%N) l.
Definition parents_first (l : list Permission) : Prop :=
  ∀ pre p post, l = pre ++ p :: post → ∀ c, c ∈ pre → p_ParentID c ≠ Some (p_ID p).
Definition with_kids (l : list Permission) (p : Permission) : EPermission :=
  set_Children (modelToEntity <$> kids l (p_ID p)) (modelToEntity p).

Lemma row_with_id l i p : row_with l i = Some p → p_ID p = i.
Proof. intros H. apply find_some in H as [_ H]. by apply N.eqb_eq in H. Qed.

Lemma row_with_in l p : NoDup (p_ID <$> l) → p ∈ l → row_with l (p_ID p) = Some p.
Proof.
  induction l as [|x l IH]; intros Hnd Hin; [by apply elem_of_nil in Hin|].
  simpl in *. apply NoDup_cons in Hnd as [Hx Hnd].
  apply elem_of_cons in Hin as [->|Hin]; [by rewrite N.eqb_refl|].
  destruct (N.eqb_spec (p_ID x) (p_ID p)) as [He|]; [|by apply IH].
  exfalso. apply Hx. rewrite He. by apply list_elem_of_fmap_2.
Qed.

Lemma row_with_app l k i : row_with (l ++ k) i =
  match row_with l i with Some p => Some p | None => row_with k i end.
Proof. unfold row_with. induction l as [|x l IH]; simpl; [done | by destruct (_ =? _)%N]. Qed.

Lemma tree_first_lookup l i : NoDup (p_ID <$> l) →
  tree_first l !! i = modelToEntity <$> row_with l i.
Proof.
  induction l as [|p l IH] using rev_ind; intros Hnd; [done|].
  rewrite fmap_app, NoDup_app in Hnd. destruct Hnd as (Hnd & Hd & _).
  unfold tree_first in *. rewrite foldl_snoc, row_with_app.
  change (row_with [p] i) with (if (p_ID p =? i)%N then Some p else None).
  destruct (N.eqb_spec (p_ID p) i) as [<-|Hne].
  - rewrite lookup_insert_eq. destruct (row_with l (p_ID p)) as [q|] eqn:Eq; [|done].
    exfalso. apply (Hd (p_ID q)); [|simpl; rewrite (row_with_id _ _ _ Eq); by left].
    apply list_elem_of_fmap_2. apply find_some in Eq as [Hin _]. by apply list_elem_of_In.
  - rewrite lookup_insert_ne, IH by done. by destruct (row_with l i).
Qed.

Definition heap_at (l pre : list Permission) (i : N) : option EPermission :=
  (λ p, set_Children (modelToEntity <$> kids pre i) (modelToEntity p)) <$> row_with l i.

Lemma kids_snoc pre p i : kids (pre ++ [p]) i =
  kids pre i ++ (if decide (p_ParentID p = Some i) then [p] else []).
Proof. unfold kids. rewrite filter_app, filter_cons, filter_nil. by case_decide. Qed.

Lemma tree_second_spec l pre rest heap :
  NoDup (p_ID <$> l) → parents_first l → l = pre ++ rest →
  (∀ i, heap !! i = heap_at l pre i) →
  let out := tree_second rest heap (p_ID <$> root_rows pre) in
  out.2 = p_ID <$> root_rows l ∧ ∀ i, out.1 !! i = heap_at l l i.
Proof.
  intros Hnd Hpf. revert pre heap. induction rest as [|p rest IH]; intros pre heap Hl Hh; simpl.
  { rewrite app_nil_r in Hl. by subst pre. }
  assert (Hp : heap !! p_ID p = Some (modelToEntity p)).
  { rewrite Hh. unfold heap_at. rewrite row_with_in; [|done|rewrite Hl; set_solver]. simpl.
    replace (kids pre (p_ID p)) with (@nil Permission); [done|].
    symmetry. unfold kids. apply filter_none. intros c Hc. by apply (Hpf pre p rest). }
  assert (Hl' : l = (pre ++ [p]) ++ rest) by (by rewrite <- app_assoc).
  rewrite Hp. destruct (p_ParentID p) as [pid|] eqn:Epar.
  - assert (Hroots : root_rows (pre ++ [p]) = root_rows pre).
    { unfold root_rows. rewrite filter_app, filter_cons, filter_nil.
      case_decide; [congruence|]. by rewrite app_nil_r. }
    rewrite <- Hroots. pose proof (Hh pid) as Hpid. unfold heap_at in Hpid.
    destruct (row_with l pid) as [par|] eqn:Er; cbn [fmap option_fmap option_map] in Hpid;
      rewrite Hpid; cbv iota beta.
    + apply IH; [done|]. intros i. destruct (decide (i = pid)) as [->|Hne].
      * rewrite lookup_insert_eq. unfold heap_at. rewrite Er, kids_snoc. simpl.
        rewrite decide_True, fmap_app by done. simpl. by destruct par.
      * rewrite lookup_insert_ne, Hh by done. unfold heap_at. rewrite kids_snoc.
        rewrite decide_False, app_nil_r by congruence. done.
    + apply IH; [done|]. intros i. rewrite Hh. unfold heap_at. rewrite kids_snoc.
      destruct (decide (i = pid)) as [->|Hne]; [by rewrite Er|].
      rewrite decide_False, app_nil_r by congruence. done.
  - assert (Hroots : (p_ID <$> root_rows pre) ++ [p_ID p] = p_ID <$> root_rows (pre ++ [p])).
    { unfold root_rows. rewrite filter_app, filter_cons, filter_nil, fmap_app.
      by case_decide. }
    rewrite Hroots. apply IH; [done|]. intros i. rewrite Hh. unfold heap_at. rewrite kids_snoc.
    rewrite decide_False, app_nil_r by congruence. done.
Qed.

Lemma root_rows_in l p : p ∈ root_rows l → p ∈ l.
Proof. unfold root_rows. rewrite list_elem_of_filter. by intros [_ ?]. Qed.

(** Cache keys.  The text of a user id has a fixed length, so keys of
    different users differ; within one user only the concatenation counts. *)
Fixpoint colon_free (s : string) : bool :=
  match s with EmptyString => true | String a s' => negb (Ascii.eqb a ":") && colon_free s' end.

Lemma colon_free_split p q s t : colon_free p = true → colon_free q = true →
  p +:+ ":" +:+ s = q +:+ ":" +:+ t → p = q ∧ s = t.
Proof.
  revert q. induction p as [|a p IH]; intros [|b q] Hp Hq H; simpl in *.
  - by injection H.
  - injection H as <- _. done.
  - injection H as -> _. done.
  - injection H as -> H. apply andb_true_iff in Hp as [_ Hp], Hq as [_ Hq].
    destruct (IH q Hp Hq H) as [-> ->]. done.
Qed.

Section cached.
Context {C D : Type} `{CacheLaws C} `{PermissionRepository D}.
Context `{PermissionJsonLaws} `{UuidLib} (config : PermissionServiceConfig).
Abbreviation Check_ := (CheckUserPermissionWithScope (C:=C) (D:=D) config).

Lemma getFromCache_run now key (w : PSW C D) :
  getFromCache now key w =
  (match (cache_Get now key (pw_cache w)).1 with
   | Ok data => result_Unmarshal data | Err e => Err e end,
   mkPSW (cache_Get now key (pw_cache w)).2 (pw_repo w)).
Proof.
  unfold getFromCache, on_pcache, bind. rewrite zoom_eq.
  by destruct (cache_Get _ _ _) as [[data|e] c'].
Qed.

(** A decision in the cache is the answer, whatever the repository holds. *)
Lemma Check_cached fuel now u r a s (w : PSW C D) data d out :
  chas (pw_cache w) (buildPermissionCacheKey u r a s) data d →
  result_Unmarshal data = Ok out → now < d →
  (Check_ fuel now u r a s w).1 = Ok (per_Allowed out).
Proof.
  intros Hc Hu Hd. unfold CheckUserPermissionWithScope, bind, attemptF.
  by rewrite getFromCache_run, (cache_Get_has _ _ _ _ _ Hc Hd), Hu.
Qed.

(** An evaluated decision is cached. *)
Lemma Check_miss_caches fuel now u r a s (w w' : PSW C D) b :
  (∀ k v ttl (c : C), is_ok (cache_Set now k v ttl c).1 = true) →
  (∀ x, is_ok (result_Marshal x) = true) → 0 < CacheTTL config →
  cabs (pw_cache w) (buildPermissionCacheKey u r a s) →
  Check_ fuel now u r a s w = (Ok b, w') →
  ∃ data out, result_Unmarshal data = Ok out ∧ per_Allowed out = b ∧
    chas (pw_cache w') (buildPermissionCacheKey u r a s) data (now + CacheTTL config).
Proof.
  intros Hup Hjson Httl Ha Hr. unfold CheckUserPermissionWithScope in Hr.
  set (key := buildPermissionCacheKey u r a s) in *. unfold bind at 1, attemptF at 1 in Hr.
  rewrite getFromCache_run in Hr. pose proof (cache_Get_abs _ _ now Ha) as Hg.
  destruct ((cache_Get now key (pw_cache w)).1) as [x|e]; [done|].
  apply bind_ok_inv in Hr as ([out err] & w1 & He & Hr). destruct err as [e'|]; [done|].
  unfold bind, attemptF, cacheResult in Hr. pose proof (Hjson out) as Hm.
  destruct (result_Marshal out) as [data|] eqn:Em; [|done].
  unfold lift_res, bind, on_pcache in Hr. rewrite zoom_eq in Hr.
  pose proof (Hup key data (CacheTTL config) (pw_cache w1)) as Hs.
  destruct (cache_Set _ _ _ _ _) as [[[]|] c'] eqn:Ec; [|done]. unfold ret in Hr.
  injection Hr as <- <-. exists data, out.
  split_and!; [by apply result_Unmarshal_Marshal | done |]. simpl. by eapply cache_Set_has.
Qed.
End cached.

Lemma buildPermissionCacheKey_shift `{UuidLib} u r x a s :
  buildPermissionCacheKey u (r +:+ ":" +:+ x) a s = buildPermissionCacheKey u r (x +:+ ":" +:+ a) s.
Proof. unfold buildPermissionCacheKey. by rewrite !str_app_assoc. Qed.

(** ** Reference encoding

    A permission is the text of its fields, its children nested inside, with
    its depth in front to bound the decoder. *)
Section entity_ind.
Variable P : EPermission → Prop.
Hypothesis Hstep : ∀ i n r a s p cs d y c u,
  (∀ x, x ∈ cs → P x) → P (mkEPermission i n r a s p cs d y c u).
Fixpoint EPermission_nested_ind (e : EPermission) : P e :=
  let '(mkEPermission i n r a s p cs d y c u) := e in
  Hstep i n r a s p cs d y c u
    ((fix go l : ∀ x, x ∈ l → P x :=
        match l return ∀ x, x ∈ l → P x with
        | [] => λ x H, False_ind _ (not_elem_of_nil x H)
        | e' :: l' => λ x H,
            match proj1 (elem_of_cons l' x e') H with
            | or_introl Heq => eq_ind_r P (EPermission_nested_ind e') Heq
            | or_intror Hin => go l' x Hin
            end
        end) cs).
End entity_ind.

Definition bool_text (b : bool) : string := if b then "1" else "0".
Definition parent_text (o : option N) : string :=
  match o with Some n => N_text n | None => "" end.
Definition parse_parent (s : string) : option N := Z.to_N <$> parse_Z s.

Fixpoint ep_depth (e : EPermission) : nat :=
  S (foldr (λ c m, Nat.max (ep_depth c) m) O (ep_Children e)).
Fixpoint ep_text (e : EPermission) : string :=
  let '(mkEPermission i n r a s p cs d y c u) := e in
  text_of_list [N_text i; n; r; a; s; parent_text p; text_of_list (map ep_text cs); d;
                bool_text y; Itoa c; Itoa u].
Fixpoint ep_parse (fuel : nat) (t : string) : option EPermission :=
  match fuel with
  | O => None
  | S fuel' =>
      match list_of_text t with
      | Some [i; n; r; a; s; p; cs; d; y; c; u] =>
          match parse_Z i, list_of_text cs ≫= mapM (ep_parse fuel'), parse_Z c, parse_Z u with
          | Some i', Some cs', Some c', Some u' =>
              Some (mkEPermission (Z.to_N i') n r a s (parse_parent p) cs' d (String.eqb y "1") c' u')
          | _, _, _, _ => None
          end
      | _ => None
      end
  end.

Lemma mapM_map {A B} (f : A → B) (g : B → option A) l :
  (∀ x, x ∈ l → g (f x) = Some x) → mapM g (map f l) = Some l.
Proof.
  induction l as [|x l IH]; intros Hl; [done|]. simpl. rewrite (Hl x ltac:(left)). simpl.
  rewrite IH; [done|]. intros y Hy. apply Hl. by right.
Qed.

Lemma depth_child cs c n : (foldr (λ c m, Nat.max (ep_depth c) m) O cs <= n)%nat → c ∈ cs →
  (ep_depth c <= n)%nat.
Proof.
  induction cs as [|x cs IH]; intros Hn Hc; [by apply elem_of_nil in Hc|].
  simpl in Hn. apply elem_of_cons in Hc as [->|Hc]; [lia|]. apply IH; [lia | done].
Qed.

Lemma ep_parse_text e fuel : (ep_depth e <= fuel)%nat → ep_parse fuel (ep_text e) = Some e.
Proof.
  revert fuel. induction e as [i n r a s p cs d y c u IH] using EPermission_nested_ind.
  intros [|fuel] Hd; simpl in Hd; [lia|]. cbn [ep_parse ep_text].
  rewrite list_of_text_of_list. unfold N_text at 1. rewrite parse_Itoa, list_of_text_of_list. simpl.
  rewrite (mapM_map ep_text (ep_parse fuel)), !parse_Itoa, N2Z.id.
  - f_equal. f_equal; [|by destruct y]. unfold parse_parent. destruct p; [|done]. simpl.
    unfold N_text. rewrite parse_Itoa. simpl. by rewrite N2Z.id.
  - intros x Hx. apply IH; [done|]. eapply depth_child; [|done]. lia.
Qed.

Definition ep_encode (e : EPermission) : string :=
  text_of_list [Itoa (Z.of_nat (ep_depth e)); ep_text e].
Definition ep_decode (t : string) : option EPermission :=
  match list_of_text t with
  | Some [d; e] => n ← parse_Z d; ep_parse (Z.to_nat n) e
  | _ => None
  end.
Lemma ep_decode_encode e : ep_decode (ep_encode e) = Some e.
Proof.
  unfold ep_decode, ep_encode. rewrite list_of_text_of_list, parse_Itoa. simpl.
  by rewrite Nat2Z.id, ep_parse_text.
Qed.

Definition bad_json : error := ErrorString "invalid character".
Definition ref_perm_json : PermissionJson := {|
  result_Marshal o := Ok (text_of_list [bool_text (per_Allowed o);
    match per_Permission o with Some e => ep_encode e | None => "" end;
    per_Reason o; Itoa (per_EvaluatedAt o)]);
  result_Unmarshal t :=
    match list_of_text t with
    | Some [b; e; r; z] =>
        match parse_Z z with
        | Some z' => Ok (mkEvalResult (String.eqb b "1") (ep_decode e) r z')
        | None => Err bad_json
        end
    | _ => Err bad_json
    end;
  perms_Marshal l := Ok (text_of_list (map ep_encode l));
  perms_Unmarshal t :=
    match list_of_text t ≫= mapM ep_decode with Some l => Ok l | None => Err bad_json end |}.
Definition ref_perm_json_laws : @PermissionJsonLaws ref_perm_json.
Proof.
  constructor; intros x s [= <-]; simpl; rewrite list_of_text_of_list.
  - rewrite parse_Itoa. destruct x as [[] [e|] r z]; simpl; by rewrite ?ep_decode_encode.
  - simpl. rewrite (mapM_map ep_encode ep_decode); [done|]. intros; apply ep_decode_encode.
Defined.

(** ** Properties *)

(** Wildcard matching.  A pattern matches a value when it is the same
    text, when it ends with a star and the rest is a prefix of the value, or
    when it starts with a star, does not end with one, and the rest is a
    suffix of the value. *)
Theorem matchesWildcard_spec pattern value :
  matchesWildcard pattern value = true ↔
  (∃ p r, pattern = p +:+ "*" ∧ value = p +:+ r) ∨
  (∃ p r, pattern = "*" +:+ p ∧ value = r +:+ p ∧ ∀ q, pattern ≠ q +:+ "*") ∨
  pattern = value.
Proof.
  split.
  - unfold matchesWildcard. destruct (String.eqb_spec pattern "*") as [->|_]; [left; by exists "", value|].
    destruct (HasSuffix pattern "*") eqn:Es.
    + apply HasSuffix_spec in Es as [r ->]. rewrite TrimSuffix_app.
      intros [t ->]%HasPrefix_spec. left. eauto.
    + destruct (HasPrefix pattern "*") eqn:Ep.
      * apply HasPrefix_spec in Ep as [p ->]. rewrite TrimPrefix_app.
        intros [t ->]%HasSuffix_spec. right; left. exists p, t. split_and!; [done..|].
        intros q Hq. assert (HasSuffix ("*" +:+ p) "*" = true) as Hs
          by (apply HasSuffix_spec; eauto). by rewrite Hs in Es.
      * intros Heq%String.eqb_eq. auto.
  - intros [(p & r & -> & ->)|[(p & r & Hp & -> & Hn)|He]]; [| |by apply exact_is_wildcard].
    + unfold matchesWildcard. destruct (String.eqb _ "*"); [done|].
      replace (HasSuffix (p +:+ "*") "*") with true by (symmetry; apply HasSuffix_spec; eauto).
      rewrite TrimSuffix_app. apply HasPrefix_spec. eauto.
    + unfold matchesWildcard. destruct (String.eqb _ "*"); [done|].
      destruct (HasSuffix pattern "*") eqn:Es.
      { apply HasSuffix_spec in Es as [q Hq]. by apply Hn in Hq. }
      subst pattern. replace (HasPrefix ("*" +:+ p) "*") with true
        by (symmetry; apply HasPrefix_spec; eauto).
      rewrite TrimPrefix_app. apply HasSuffix_spec. eauto.
Qed.

(** What the roles of a user grant: a granted permission or a permission
    below it in the hierarchy matches the request. *)
Definition granted {D} `{PermissionRepositoryLaws D} (d : D) (u : N) (r a s : string) : Prop :=
  ∃ p q, p ∈ pgrants d u ∧ (q = p ∨ descends (prows d) p q) ∧ matchesPermission q r a s = true.

(** C3: the decision procedure.  When the hierarchy has a rank that decreases
    from parent to child and the fuel exceeds the rank of every granted
    permission, the evaluation returns; it allows only requests that the
    roles of the user grant, an error never allows, and while the repository
    answers, every granted request is allowed. *)
Theorem evaluatePermission_decides {D} `{PermissionRepositoryLaws D}
    (rank : Permission → nat) fuel now u r a s (d : D) :
  (∀ p c, child_of (prows d) p c → rank c < rank p)%nat →
  (∀ p, p ∈ pgrants d u → rank p < fuel)%nat →
  ∃ out err, (evaluatePermission fuel now u r a s d).1 = Ok (out, err) ∧
    (err ≠ None → per_Allowed out = false) ∧
    (per_Allowed out = true → granted d u r a s) ∧
    (err = None → repo_up (D:=D) → granted d u r a s → per_Allowed out = true).
Proof.
  intros Hrank Hfuel. unfold evaluatePermission, bind, attemptF.
  pose proof (pr_GetUserPermissions_same d u) as Hs.
  destruct (pr_GetUserPermissions u d) as [[ps|e] d1] eqn:Eu; simpl in Hs; [|by eexists _, _].
  apply pr_GetUserPermissions_ok in Eu. setoid_rewrite <- Eu in Hfuel.
  unfold granted. setoid_rewrite <- Eu.
  destruct (List.find _ _) as [p|] eqn:Ef.
  - apply find_some in Ef as [Hin Hm]. apply list_elem_of_In in Hin.
    eexists _, _. split_and!; [done|done| |done]. intros _. exists p, p. auto.
  - destruct (check_hierarchies_spec r a s rank fuel ps d1 d Hs Hrank Hfuel)
      as (o & Ho & _ & Hyes & Hno).
    destruct (check_hierarchies _ _ _ _ _ _) as [x d2]. simpl in Ho. subst x.
    destruct o as [e|]; simpl; eexists _, _; (split_and!; [done|done| |done || idtac]).
    + intros _. destruct (Hyes e eq_refl) as (p & q & Hin & Hq & Hm). exists p, q. auto.
    + done.
    + intros _ Hup (p & q & Hin & [->|Hq] & Hm).
      * apply list_elem_of_In in Hin. pose proof (find_none _ _ Ef p Hin) as Hf. simpl in Hf.
        by rewrite Hf in Hm.
      * by rewrite (Hno eq_refl Hup p q Hin Hq) in Hm.
Qed.

(** Cyclic hierarchies.  If a permission is its own descendant and
    nothing below it matches, the recursive search does not return for any
    amount of fuel while the repository answers: the code relies on the
    evaluation timeout alone. *)
Theorem cyclic_hierarchy_never_returns {D} `{PermissionRepositoryLaws D} fuel p r a s (d : D) :
  repo_up (D:=D) → descends (prows d) p p →
  (∀ q, descends (prows d) p q → matchesPermission q r a s = false) →
  returns (checkHierarchicalPermission r a s fuel p d).1 = false.
Proof. intros Hup Hc Hno. by rewrite (check_cycle r a s fuel p d Hup Hc Hno). Qed.

(** The tree.  For rows with distinct ids that name every parent before
    its children, as the hierarchy query does, [buildPermissionTree] returns
    the rows without a parent, in order, each with its direct children in
    order and nothing below them: a child is copied into its parent before
    its own children are attached, so grandchildren are lost. *)
Theorem buildPermissionTree_spec l :
  NoDup (p_ID <$> l) → parents_first l →
  buildPermissionTree l = with_kids l <$> root_rows l ∧
  ∀ e c, e ∈ buildPermissionTree l → c ∈ ep_Children e → ep_Children c = [].
Proof.
  intros Hnd Hpf.
  destruct (tree_second_spec l [] l (tree_first l) Hnd Hpf eq_refl) as [Hr Hh].
  { intros i. rewrite tree_first_lookup by done. unfold heap_at.
    by destruct (row_with l i) as [[]|]. }
  assert (Hb : buildPermissionTree l = with_kids l <$> root_rows l).
  { unfold buildPermissionTree. change (@nil N) with (p_ID <$> root_rows []).
    destruct (tree_second _ _ _) as [heap roots]. simpl in Hr, Hh. subst roots.
    apply omap_fmap_some. intros p Hp. rewrite Hh. unfold heap_at.
    rewrite row_with_in by (auto using root_rows_in). done. }
  split; [exact Hb|]. rewrite Hb. intros e c (p & -> & _)%list_elem_of_fmap Hc.
  unfold with_kids, set_Children in Hc. destruct p; simpl in Hc.
  by apply list_elem_of_fmap in Hc as (q & -> & _).
Qed.

(** Deduplication keeps, for every id, exactly the first entry, in the
    original order. *)
Theorem deduplicatePermissions_spec l :
  NoDup (ep_ID <$> deduplicatePermissions l) ∧
  deduplicatePermissions l `sublist_of` l ∧
  ∀ i, entity_with i (deduplicatePermissions l) = entity_with i l.
Proof.
  split_and!; [apply dedup_from_NoDup | apply dedup_from_sublist|].
  intros i. unfold deduplicatePermissions. by rewrite dedup_from_find, decide_False by set_solver.
Qed.

(** No cross-talk between well-formed checks.  When the resource and the
    action hold no colon, two checks share a cache entry only if user,
    resource, action and scope all agree. *)
Theorem buildPermissionCacheKey_inj `{UuidLaws} u v r1 a1 s1 r2 a2 s2 :
  is_uuid u → is_uuid v →
  colon_free r1 = true → colon_free r2 = true → colon_free a1 = true → colon_free a2 = true →
  buildPermissionCacheKey u r1 a1 s1 = buildPermissionCacheKey v r2 a2 s2 →
  u = v ∧ r1 = r2 ∧ a1 = a2 ∧ s1 = s2.
Proof.
  intros Hu1 Hv1 Hr1 Hr2 Ha1 Ha2 Hk. unfold buildPermissionCacheKey in Hk. apply str_app_inj_l in Hk.
  apply str_app_inj_len in Hk as [Hu Hk]; [|by rewrite !uuid_String_len].
  apply uuid_String_inj in Hu as ->; [|done|done]. apply (str_app_inj_l ":") in Hk.
  apply colon_free_split in Hk as [-> Hk]; [|done|done].
  by apply colon_free_split in Hk as [-> ->].
Qed.

(** With a colon in a resource or an action, another request gets the
    cached decision.  Once the check of action [a] on resource ["r:x"] has
    been evaluated, the check of action ["x:a"] on resource [r] is answered
    with the same decision for the cache lifetime, whatever the repository
    grants. *)
Theorem colon_shares_decision {C D} `{CacheLaws C} `{PermissionRepository D}
    `{PermissionJsonLaws} `{UuidLib} config fuel now u r x a s (w w' : PSW C D) b repo' now' :
  (∀ k v ttl (c : C), is_ok (cache_Set now k v ttl c).1 = true) →
  (∀ o, is_ok (result_Marshal o) = true) → 0 < CacheTTL config →
  cabs (pw_cache w) (buildPermissionCacheKey u (r +:+ ":" +:+ x) a s) →
  CheckUserPermissionWithScope config fuel now u (r +:+ ":" +:+ x) a s w = (Ok b, w') →
  now' < now + CacheTTL config →
  (CheckUserPermissionWithScope config fuel now' u r (x +:+ ":" +:+ a) s
     (mkPSW (pw_cache w') repo')).1 = Ok b.
Proof.
  intros Hup Hj Ht Ha Hr Hn.
  destruct (Check_miss_caches config _ _ _ _ _ _ _ _ _ Hup Hj Ht Ha Hr) as (data & out & Hu & <- & Hc).
  rewrite buildPermissionCacheKey_shift in Hc. by eapply Check_cached.
Qed.

(** Invalidation does not reach decisions.  [InvalidateUserPermissionCache]
    matches the effective-permission list of the user but the key of no
    permission check, so a cached decision is still the answer after it,
    whatever the repository now grants. *)
Theorem invalidation_keeps_decisions {C D} `{CachePatternLaws C, GL : !GlobLaws} `{PermissionRepository D}
    `{PermissionJson} `{UuidLib} config fuel now now' u r a s (w : PSW C D) data d out repo' :
  (∀ v, glob_literal (uuid_String v) = true) →
  chas (pw_cache w) (buildPermissionCacheKey u r a s) data d →
  result_Unmarshal data = Ok out → now ≤ now' < d →
  glob_match (invalidationPattern u) (effectiveKey u) = true ∧
  (CheckUserPermissionWithScope config fuel now' u r a s
     (mkPSW (pw_cache (InvalidateUserPermissionCache now u w).2) repo')).1 = Ok (per_Allowed out).
Proof.
  intros Hlit Hc Hu Hn.
  assert (Hlit' : glob_literal (":" +:+ uuid_String u) = true) by (by simpl; rewrite Hlit).
  pose proof (glob_star "user:permissions:" (":" +:+ uuid_String u)) as Hg.
  split; [apply Hg; [done..|]; by exists "effective"|].
  unfold InvalidateUserPermissionCache, on_pcache. rewrite zoom_eq. simpl.
  eapply Check_cached; [|exact Hu|apply Hn].
  destruct (cache_Invalidate_keeps (pw_cache w) (invalidationPattern u) now) as [Hkeep _].
  apply Hkeep; [|lia|exact Hc].
  destruct (glob_match _ _) eqn:Em; [|done].
  apply Hg in Em as (m & Hm); [|done..]. unfold buildPermissionCacheKey in Hm.
  by apply (str_app_inj_l "user:permission") in Hm.
Qed.

(** ** Witnesses

    Three permissions in a chain: [docs] above [docs:read] above
    [docs:read:draft], the first granted to user 7. *)
#[local] Existing Instances ref_uuid ref_perm_json ref_perm_json_laws.

Definition row (i : N) (name resource action : string) (parent : option N) : Permission :=
  mkPermission i name resource action "" parent "" false 0 0.
Definition chain_rows : list Permission :=
  [row 1 "docs" "docs" "list" None; row 2 "read" "docs" "read" (Some 1%N);
   row 3 "draft" "drafts" "read" (Some 2%N)].
Definition chain_repo : ref_perms :=
  mkRefPerms chain_rows (λ u, if (u =? 7)%N then [row 1 "docs" "docs" "list" None] else []).
Definition ref_perm_config : PermissionServiceConfig :=
  mkPermissionServiceConfig (5 * Minute) true false 1000 (5 * Second).
Definition ref_psw : PSW ref_cache ref_perms :=
  mkPSW (∅ : gmap string (string * Z)) chain_repo.

Lemma ref_repo_up : repo_up (D:=ref_perms).
Proof. by intros i d. Qed.

Lemma chain_rank p c : child_of (prows chain_repo) p c → (5 - N.to_nat (p_ID c) < 5 - N.to_nat (p_ID p))%nat.
Proof.
  intros [Hc Hp]. simpl in Hc. unfold chain_rows in Hc.
  rewrite !elem_of_cons in Hc. destruct_or! Hc; subst; simpl in *; try done;
    [injection Hp as <-; simpl; lia | injection Hp as <-; simpl; lia | by apply elem_of_nil in Hc].
Qed.

Example evaluatePermission_decides_witness :
  ∃ out err, (evaluatePermission 6 0 7 "drafts" "read" "" chain_repo).1 = Ok (out, err) ∧
    per_Allowed out = true ∧ granted chain_repo 7 "drafts" "read" "".
Proof.
  destruct (evaluatePermission_decides (λ p, 5 - N.to_nat (p_ID p))%nat 6 0 7 "drafts" "read" ""
              chain_repo) as (out & err & He & _ & Hg & _).
  - apply chain_rank.
  - intros p Hp. lia.
  - exists out, err. split; [exact He|]. injection He as <- _. split; [reflexivity|].
    apply Hg. reflexivity.
Defined.

(** Two permissions that are each other's parent. *)
Definition cycle_repo : ref_perms :=
  mkRefPerms [row 1 "a" "docs" "list" (Some 2%N); row 2 "b" "docs" "read" (Some 1%N)] (λ _, []).
Lemma cycle_descends : descends (prows cycle_repo) (row 1 "a" "docs" "list" (Some 2%N))
  (row 1 "a" "docs" "list" (Some 2%N)).
Proof.
  apply (descends_step _ _ (row 2 "b" "docs" "read" (Some 1%N))).
  - split; [apply list_elem_of_In; simpl; auto | done].
  - constructor. split; [apply list_elem_of_In; simpl; auto | done].
Qed.
Lemma descends_rows rows p q : descends rows p q → q ∈ rows.
Proof. induction 1 as [p c [? ?]|]; done. Qed.

Example cyclic_hierarchy_never_returns_witness :
  returns (checkHierarchicalPermission "secrets" "read" "" 1000
             (row 1 "a" "docs" "list" (Some 2%N)) cycle_repo).1 = false.
Proof.
  apply (cyclic_hierarchy_never_returns 1000 _ "secrets" "read" "" cycle_repo ref_repo_up
           cycle_descends).
  intros q Hq. apply descends_rows in Hq. simpl in Hq. rewrite !elem_of_cons in Hq.
  destruct Hq as [->|[->|Hq]]; [reflexivity | reflexivity | by apply elem_of_nil in Hq].
Defined.

Lemma chain_parents_first : parents_first chain_rows.
Proof.
  intros pre p post Hl c Hc. unfold chain_rows in Hl.
  destruct pre as [|x [|y [|z pre]]]; simpl in Hl; simplify_eq.
  - by apply elem_of_nil in Hc.
  - rewrite elem_of_cons in Hc. destruct Hc as [->|Hc]; [done | by apply elem_of_nil in Hc].
  - rewrite !elem_of_cons in Hc. destruct Hc as [->|[->|Hc]]; [done | done | by apply elem_of_nil in Hc].
  - by destruct pre.
Qed.

Example buildPermissionTree_spec_witness :
  length (buildPermissionTree chain_rows) = 1%nat ∧
  ∀ e c, e ∈ buildPermissionTree chain_rows → c ∈ ep_Children e → ep_Children c = [].
Proof.
  destruct (buildPermissionTree_spec chain_rows) as [Hb Hc].
  - simpl. repeat (constructor; [set_solver|]). constructor.
  - apply chain_parents_first.
  - split; [rewrite Hb; reflexivity | exact Hc].
Defined.

#[local] Existing Instance ref_uuid_laws.
Example buildPermissionCacheKey_inj_witness :
  buildPermissionCacheKey 7 "docs" "read" "" ≠ buildPermissionCacheKey 8 "docs" "read" "".
Proof.
  intros Hk. destruct (buildPermissionCacheKey_inj 7 8 "docs" "read" "" "docs" "read" "") as [Hu _];
    [reflexivity..| exact Hk |]. discriminate Hu.
Defined.

Example colon_shares_decision_witness :
  ∃ w', CheckUserPermissionWithScope ref_perm_config 6 0 7 "docs:a" "read" "" ref_psw = (Ok false, w') ∧
  (CheckUserPermissionWithScope ref_perm_config 6 Second 7 "docs" "a:read" ""
     (mkPSW (pw_cache w') (mkRefPerms [] (λ _, [row 9 "all" "*" "*" None])))).1 = Ok false.
Proof.
  eexists. split; [reflexivity|].
  eapply (colon_shares_decision ref_perm_config 6 0 7 "docs" "a" "read" "" ref_psw).
  - done.
  - done.
  - reflexivity.
  - reflexivity.
  - reflexivity.
  - vm_compute. reflexivity.
Defined.

Definition allowed_out : PermissionEvaluationResult := mkEvalResult true None "direct permission match" 0.
Definition allowed_data : string :=
  match result_Marshal allowed_out with Ok s => s | Err _ => "" end.
Definition allowed_cache : ref_cache :=
  <[buildPermissionCacheKey 7 "docs" "list" "" := (allowed_data, Hour)]> (∅ : gmap string (string * Z)).

Lemma hex_char_plain d : (d < 16)%N → glob_special (hex_char d) = false.
Proof.
  intros Hd. assert (d ∈ [0; 1; 2; 3; 4; 5; 6; 7; 8; 9; 10; 11; 12; 13; 14; 15]%N) as Hin
    by (rewrite !elem_of_cons; lia).
  rewrite !elem_of_cons, elem_of_nil in Hin. destruct_or! Hin; by subst.
Qed.
Lemma ref_uuid_literal u : glob_literal (ref_uuid u) = true.
Proof.
  unfold ref_uuid. generalize 36%nat. intros n. revert u.
  induction n as [|n IH]; intros u; [done|]. cbn [hex_digits glob_literal].
  by rewrite hex_char_plain, IH by (by apply N.mod_lt).
Qed.

Example invalidation_keeps_decisions_witness :
  (CheckUserPermissionWithScope ref_perm_config 6 Minute 7 "docs" "list" ""
     (mkPSW (pw_cache (InvalidateUserPermissionCache 0 7 (mkPSW allowed_cache chain_repo)).2)
        (mkRefPerms [] (λ _, [])))).1 = Ok true.
Proof.
  eapply (invalidation_keeps_decisions ref_perm_config 6 0 Minute 7 "docs" "list" ""
            (mkPSW allowed_cache chain_repo) allowed_data Hour allowed_out).
  - apply ref_uuid_literal.
  - exists Hour. split; [apply lookup_insert_eq | reflexivity].
  - reflexivity.
  - split; vm_compute; [discriminate | reflexivity].
Defined.
