(* ===== verification/Repos.v ===== *)
(** * Repositories (src/internal/infrastructure/repositories)

    One Module per repository, one definition per method, over the statements
    of Database.v.  The second half shows that every method keeps the
    tables well formed, and that on well-formed tables the repositories keep
    the promises of Ifaces.v the services are proved against. *)

From S2P Require Import Prelude Errors Models Ifaces Database Permission.
From Stdlib Require Import Sorted.

Section helpers.
Context {D : Type} `{Gorm D}.

(** The two returns of a lookup: [fmt.Errorf(missing)] for
    [gorm.ErrRecordNotFound], the wrapped error otherwise. *)
Definition lookup_error (missing failed : string) (e : error) : error :=
  if is_sentinel gorm_ErrRecordNotFound e then ErrorString missing else ErrorWrap failed e.
Definition lookup_one {A} (missing failed : string) (m : M D A) : M D A :=
  wrap_err (lookup_error missing failed) m.
Definition or_fail {A} (failed : string) (m : M D A) : M D A := wrap_err (ErrorWrap failed) m.

(** [Count(&n)]: a query of one row. *)
Definition db_Count {A} (f : Tables → list A) : M D Z :=
  let* l := db_Find (select (λ T, [Z.of_nat (length (f T))]) any_order) in
  ret (default 0 (head l)).

(** [Update("is_active", false)]: GORM stamps [updated_at] too. *)
Definition db_Deactivate {A} `{Row A} (id : N) (off : A → A) : M D unit :=
  let* now := gets db_NowFunc in db_Updates (has_id id) (λ a, row_touched now (off a)).
End helpers.

(** ** User repository (user_repository.go) *)
Module UserRepo.
Section ops.
Context {D : Type} `{Gorm D}.

Definition active (u : User) : bool := u_IsActive u.
Definition GetByID (id : N) : M D User :=
  lookup_one "user not found" "failed to get user by ID"
    (db_FirstWhere (λ u, has_id id u && active u)).
Definition GetByEmail (email : string) : M D User :=
  lookup_one "user not found" "failed to get user by email"
    (db_FirstWhere (λ u, String.eqb (u_Email u) email && active u)).
(** The preloaded [Organization] is not a field of the modelled record. *)
Definition GetByEmailWithOrganization (email : string) : M D User :=
  lookup_one "user not found" "failed to get user with organization"
    (db_FirstWhere (λ u, String.eqb (u_Email u) email && active u)).
Definition Create (user : User) : M D unit := or_fail "failed to create user" (db_Create user).
Definition Update (now : Z) (user : User) : M D unit :=
  or_fail "failed to update user" (db_Save now user).
Definition Delete (id : N) : M D unit :=
  or_fail "failed to delete user" (db_Deactivate id (set_IsActive false)).

(** The roles of a user that are active: [user_roles] joined with [roles]. *)
Definition active_roles_of (userID : N) (T : Tables) : list Role :=
  ur ← List.filter (λ ur, (ur_UserID ur =? userID)%N) (tb_user_roles T);
  List.filter (λ r, has_id (ur_RoleID ur) r && r_IsActive r) (tb_roles T).
(** The permissions a role grants: [role_permissions] joined with [permissions]. *)
Definition permissions_of_role (roleID : N) (T : Tables) : list Permission :=
  rp ← List.filter (λ rp, (rp_RoleID rp =? roleID)%N) (tb_role_permissions T);
  List.filter (has_id (rp_PermissionID rp)) (tb_permissions T).
Definition granted_rows (userID : N) (T : Tables) : list Permission :=
  r ← active_roles_of userID T; permissions_of_role (r_ID r) T.
Definition by_resource_action : Permission → Permission → bool :=
  then_by (asc p_Resource) (asc p_Action).

(** The columns the query lists: [parent_id] is not among them. *)
Definition without_parent (p : Permission) : Permission :=
  let '(mkPermission i n r a s _ d sy ca ua) := p in mkPermission i n r a s None d sy ca ua.
Definition GetUserPermissions (userID : N) : M D (list Permission) :=
  or_fail "failed to get user permissions"
    (db_Find (select (λ T, remove_dups (without_parent <$>
        List.filter (λ p, negb (p_IsSystem p)) (granted_rows userID T))) by_resource_action)).
Definition GetUserRoles (userID : N) : M D (list Role) :=
  or_fail "failed to get user roles" (db_Find (select (active_roles_of userID) any_order)).
Definition GetActiveUsersByOrganization (orgID : N) (limit offset : Z) : M D (list User) :=
  or_fail "failed to get active users by organization"
    (db_Find (mkQuery (λ T, Some (List.filter (λ u, (u_OrganizationID u =? orgID)%N && active u)
                                    (tb_users T)))
                (desc_time u_CreatedAt) (Some limit) offset)).
Definition GetUsersByIDs (ids : list N) : M D (list User) :=
  or_fail "failed to get users by IDs"
    (db_FindWhere (λ u, existsb (N.eqb (u_ID u)) ids && active u) any_order).
Definition UpdateLastLogin (now : Z) (userID : N) (loginTime : Z) : M D unit :=
  or_fail "failed to update last login" (db_Updates (has_id userID) (set_LastLogin loginTime now)).
(** [failed_login_attempts + 1] is computed by the database. *)
Definition IncrementFailedLoginAttempts (userID : N) : M D unit :=
  or_fail "failed to increment failed login attempts"
    (db_Updates (has_id userID) (λ u, set_FailedLoginAttempts (u_FailedLoginAttempts u + 1) u)).
Definition ResetFailedLoginAttempts (now : Z) (userID : N) : M D unit :=
  or_fail "failed to reset failed login attempts"
    (db_Updates (has_id userID) (λ u, set_Locked None now (set_FailedLoginAttempts 0 u))).
Definition LockUser (now : Z) (userID : N) (lockUntil : Z) : M D unit :=
  or_fail "failed to lock user" (db_Updates (has_id userID) (set_Locked (Some lockUntil) now)).
End ops.
End UserRepo.

(** ** Token repository (token_repository.go) *)
Module TokenRepo.
Section ops.
Context {D : Type} `{Gorm D}.

Definition GetByID (id : N) : M D Token :=
  lookup_one "token not found" "failed to get token by ID" (db_FirstWhere (has_id id)).
Definition GetByTokenHash (now : Z) (tokenHash : string) : M D Token :=
  lookup_one "token not found or expired" "failed to get token by hash"
    (db_FirstWhere (λ t, row_by_hash tokenHash t && unexpired now t)).
Definition Create (token : Token) : M D unit := or_fail "failed to create token" (db_Create token).
Definition Update (now : Z) (token : Token) : M D unit :=
  or_fail "failed to update token" (db_Save now token).
Definition Delete (id : N) : M D unit :=
  or_fail "failed to delete token" (db_Delete (A:=Token) (has_id id)).
Definition RevokeToken (now : Z) (tokenHash : string) : M D unit :=
  or_fail "failed to revoke token" (db_Updates (row_by_hash tokenHash) (set_Revoked now now)).
Definition RevokeAllUserTokens (now : Z) (userID : N) (tokenType : TokenType) : M D unit :=
  or_fail "failed to revoke all user tokens"
    (db_Updates (row_of_user userID tokenType) (set_Revoked now now)).
Definition GetActiveTokensByUser (now : Z) (userID : N) (tokenType : TokenType) : M D (list Token) :=
  or_fail "failed to get active tokens by user"
    (db_FindWhere (λ t, row_of_user userID tokenType t && unexpired now t) (desc_time t_CreatedAt)).
Definition CleanupExpiredTokens (now : Z) : M D unit :=
  or_fail "failed to cleanup expired tokens" (db_Delete (λ t, (t_ExpiresAt t <? now)%Z)).
Definition DeleteRevokedTokens (olderThan : Z) : M D unit :=
  or_fail "failed to delete revoked tokens"
    (db_Delete (λ t, match t_RevokedAt t with Some r => (r <? olderThan)%Z | None => false end)).
End ops.
End TokenRepo.

(** ** Organization repository (organization_repository.go) *)
Module OrganizationRepo.
Section ops.
Context {D : Type} `{Gorm D}.

Definition set_IsActive (b : bool) (o : Organization) : Organization :=
  let '(mkOrganization i n d s _ ca ua) := o in mkOrganization i n d s b ca ua.
Definition GetByID (id : N) : M D Organization :=
  lookup_one "organization not found" "failed to get organization by ID"
    (db_FirstWhere (λ o, has_id id o && o_IsActive o)).
Definition GetByDomain (domain : string) : M D Organization :=
  lookup_one "organization not found" "failed to get organization by domain"
    (db_FirstWhere (λ o, String.eqb (o_Domain o) domain && o_IsActive o)).
Definition Create (org : Organization) : M D unit :=
  or_fail "failed to create organization" (db_Create org).
Definition Update (now : Z) (org : Organization) : M D unit :=
  or_fail "failed to update organization" (db_Save now org).
Definition Delete (id : N) : M D unit :=
  or_fail "failed to delete organization" (db_Deactivate id (set_IsActive false)).
Definition GetActiveOrganizations (limit offset : Z) : M D (list Organization) :=
  or_fail "failed to get active organizations"
    (db_Find (mkQuery (λ T, Some (List.filter o_IsActive (tb_organizations T)))
                (desc_time o_CreatedAt) (Some limit) offset)).
Definition members (orgID : N) (T : Tables) : list User :=
  List.filter (λ u, (u_OrganizationID u =? orgID)%N && u_IsActive u) (tb_users T).
Definition GetOrganizationWithUsers (id : N) : M D (Organization * list User) :=
  lookup_one "organization not found" "failed to get organization with users"
    (db_First (λ x, o_ID x.1) (λ T, (λ o, (o, members (o_ID o) T)) <$>
       List.filter (λ o, has_id id o && o_IsActive o) (tb_organizations T))).
Definition GetUserCount (orgID : N) : M D Z :=
  or_fail "failed to get user count" (db_Count (members orgID)).
End ops.
End OrganizationRepo.

(** ** Permission repository (permission_repository.go) *)
Module PermissionRepo.
Import UserRepo.

(** The working table of the recursive query: each round joins the rows that
    name a row of the last round as their parent; it stops when a round is
    empty, and [None] says that it has not stopped after [fuel] rounds.  The
    rows carry their level. *)
Definition children_of (T : Tables) (work : list Permission) : list Permission :=
  ph ← work; List.filter (λ p, bool_decide (p_ParentID p = Some (p_ID ph))) (tb_permissions T).
Fixpoint hierarchy (T : Tables) (fuel level : nat) (work : list Permission)
    : option (list (nat * Permission)) :=
  match work with
  | [] => Some []
  | _ =>
      match fuel with
      | O => None
      | S n => (λ rest, ((λ p, (level, p)) <$> work) ++ rest) <$>
                 hierarchy T n (S level) (children_of T work)
      end
  end.
(** One round more than there are rows: a longer query is a cycle. *)
Definition hierarchy_of (id : N) (T : Tables) : option (list (nat * Permission)) :=
  hierarchy T (S (length (tb_permissions T))) 0 (List.filter (has_id id) (tb_permissions T)).

Section ops.
Context {D : Type} `{Gorm D}.

Definition GetByID (id : N) : M D Permission :=
  lookup_one "permission not found" "failed to get permission by ID" (db_FirstWhere (has_id id)).
Definition GetByName (name : string) : M D Permission :=
  lookup_one "permission not found" "failed to get permission by name"
    (db_FirstWhere (λ p, String.eqb (p_Name p) name)).
Definition GetByResourceAndAction (resource action : string) : M D Permission :=
  lookup_one "permission not found" "failed to get permission by resource and action"
    (db_FirstWhere (λ p, String.eqb (p_Resource p) resource && String.eqb (p_Action p) action)).
Definition Create (permission : Permission) : M D unit :=
  or_fail "failed to create permission" (db_Create permission).
Definition Update (now : Z) (permission : Permission) : M D unit :=
  or_fail "failed to update permission" (db_Save now permission).
Definition Delete (id : N) : M D unit :=
  or_fail "failed to delete permission" (db_Delete (A:=Permission) (has_id id)).
Definition GetPermissionsByResource (resource : string) : M D (list Permission) :=
  or_fail "failed to get permissions by resource"
    (db_FindWhere (λ p, String.eqb (p_Resource p) resource) (asc p_Action)).
Definition GetPermissionsByRole (roleID : N) : M D (list Permission) :=
  or_fail "failed to get permissions by role"
    (db_Find (select (permissions_of_role roleID) by_resource_action)).
Definition GetUserPermissions (userID : N) : M D (list Permission) :=
  or_fail "failed to get user permissions"
    (db_Find (select (λ T, remove_dups (granted_rows userID T)) by_resource_action)).
Definition GetChildPermissions (parentID : N) : M D (list Permission) :=
  or_fail "failed to get child permissions"
    (db_FindWhere (λ p, bool_decide (p_ParentID p = Some parentID)) (asc p_Name)).
(** [ORDER BY level, name]; the level is not selected. *)
Definition GetPermissionHierarchy (permissionID : N) : M D (list Permission) :=
  let* rows := or_fail "failed to get permission hierarchy"
    (db_Find (mkQuery (hierarchy_of permissionID)
                (then_by (λ a b, (a.1 <=? b.1)%nat) (asc (λ x, p_Name x.2))) None 0)) in
  ret (snd <$> rows).
End ops.
End PermissionRepo.

(** ** Role repository (role_repository.go) *)
Module RoleRepo.
Section ops.
Context {D : Type} `{Gorm D}.

Definition GetByID (id : N) : M D Role :=
  lookup_one "role not found" "failed to get role by ID"
    (db_FirstWhere (λ r, has_id id r && r_IsActive r)).
Definition GetByName (name : string) (orgID : N) : M D Role :=
  lookup_one "role not found" "failed to get role by name"
    (db_FirstWhere (λ r, String.eqb (r_Name r) name && (r_OrganizationID r =? orgID)%N && r_IsActive r)).
Definition Create (role : Role) : M D unit := or_fail "failed to create role" (db_Create role).
Definition Update (now : Z) (role : Role) : M D unit :=
  or_fail "failed to update role" (db_Save now role).
Definition Delete (id : N) : M D unit :=
  or_fail "failed to delete role" (db_Deactivate id (set_Role_IsActive false)).
Definition GetRolesByOrganization (orgID : N) : M D (list Role) :=
  or_fail "failed to get roles by organization"
    (db_FindWhere (λ r, (r_OrganizationID r =? orgID)%N && r_IsActive r) (asc r_Name)).
(** The preloaded rows: each assignment with the permission it names. *)
Definition assignments_of (roleID : N) (T : Tables) : list (RolePermission * option Permission) :=
  (λ rp, (rp, List.find (has_id (rp_PermissionID rp)) (tb_permissions T))) <$>
    List.filter (λ rp, (rp_RoleID rp =? roleID)%N) (tb_role_permissions T).
Definition GetRoleWithPermissions (roleID : N)
    : M D (Role * list (RolePermission * option Permission)) :=
  lookup_one "role not found" "failed to get role with permissions"
    (db_First (λ x, r_ID x.1) (λ T, (λ r, (r, assignments_of (r_ID r) T)) <$>
       List.filter (λ r, has_id roleID r && r_IsActive r) (tb_roles T))).
Definition GetRolePermissions (roleID : N) : M D (list Permission) :=
  or_fail "failed to get role permissions"
    (db_Find (select (UserRepo.permissions_of_role roleID) any_order)).
Definition new_RolePermission (roleID permissionID : N) : RolePermission :=
  mkRolePermission uuid_Nil roleID permissionID zero_time.
Definition new_UserRole (userID roleID : N) : UserRole :=
  mkUserRole uuid_Nil userID roleID zero_time.
Definition AssignPermissionToRole (roleID permissionID : N) : M D unit :=
  or_fail "failed to assign permission to role" (db_Create (new_RolePermission roleID permissionID)).
Definition RevokePermissionFromRole (roleID permissionID : N) : M D unit :=
  or_fail "failed to revoke permission from role"
    (db_Delete (λ rp, (rp_RoleID rp =? roleID)%N && (rp_PermissionID rp =? permissionID)%N)).
Definition AssignRoleToUser (userID roleID : N) : M D unit :=
  or_fail "failed to assign role to user" (db_Create (new_UserRole userID roleID)).
Definition RevokeRoleFromUser (userID roleID : N) : M D unit :=
  or_fail "failed to revoke role from user"
    (db_Delete (λ ur, (ur_UserID ur =? userID)%N && (ur_RoleID ur =? roleID)%N)).
End ops.
End RoleRepo.

(** [isDuplicateKeyError] of user_role_repository.go. *)
Definition isDuplicateKeyError (e : error) : bool :=
  String.eqb (Error e) "UNIQUE constraint failed" ||
  String.eqb (Error e) "duplicate key value violates unique constraint".

(** One round of the loops of [AssignRolesToUser] and
    [AssignPermissionsToRole]: a duplicate is skipped. *)
Definition create_or_skip {D A} `{Gorm D} `{Row A} (failed : string) (a : A) : M D unit :=
  let* r := attempt (db_Create a) in
  match r with
  | Ok _ => ret tt
  | Err e => if isDuplicateKeyError e then ret tt else fail (ErrorWrap failed e)
  end.

(** ** User-role and role-permission repositories *)
Module UserRoleRepo.
Section ops.
Context {D : Type} `{Gorm D} `{UuidLib}.

Definition Create (userRole : UserRole) : M D unit :=
  or_fail "failed to create user role" (db_Create userRole).
Definition Delete (userID roleID : N) : M D unit :=
  or_fail "failed to delete user role"
    (db_Delete (λ ur, (ur_UserID ur =? userID)%N && (ur_RoleID ur =? roleID)%N)).
Definition GetByUserID (userID : N) : M D (list (UserRole * option Role)) :=
  or_fail "failed to get user roles by user ID"
    (db_Find (select (λ T, (λ ur, (ur, List.find (has_id (ur_RoleID ur)) (tb_roles T))) <$>
       List.filter (λ ur, (ur_UserID ur =? userID)%N) (tb_user_roles T)) any_order)).
Definition GetByRoleID (roleID : N) : M D (list (UserRole * option User)) :=
  or_fail "failed to get user roles by role ID"
    (db_Find (select (λ T, (λ ur, (ur, List.find (has_id (ur_UserID ur)) (tb_users T))) <$>
       List.filter (λ ur, (ur_RoleID ur =? roleID)%N) (tb_user_roles T)) any_order)).
Definition AssignRolesToUser (userID : N) (roleIDs : list N) : M D unit :=
  db_Transaction (for_each (λ roleID,
    create_or_skip ("failed to assign role " +:+ uuid_String roleID +:+ " to user")
      (RoleRepo.new_UserRole userID roleID)) roleIDs).
Definition RemoveRolesFromUser (userID : N) (roleIDs : list N) : M D unit :=
  or_fail "failed to remove roles from user"
    (db_Delete (λ ur, (ur_UserID ur =? userID)%N && existsb (N.eqb (ur_RoleID ur)) roleIDs)).
End ops.
End UserRoleRepo.

Module RolePermissionRepo.
Section ops.
Context {D : Type} `{Gorm D} `{UuidLib}.

Definition Create (rolePermission : RolePermission) : M D unit :=
  or_fail "failed to create role permission" (db_Create rolePermission).
Definition Delete (roleID permissionID : N) : M D unit :=
  or_fail "failed to delete role permission"
    (db_Delete (λ rp, (rp_RoleID rp =? roleID)%N && (rp_PermissionID rp =? permissionID)%N)).
Definition GetByRoleID (roleID : N) : M D (list (RolePermission * option Permission)) :=
  or_fail "failed to get role permissions by role ID"
    (db_Find (select (RoleRepo.assignments_of roleID) any_order)).
Definition GetByPermissionID (permissionID : N) : M D (list (RolePermission * option Role)) :=
  or_fail "failed to get role permissions by permission ID"
    (db_Find (select (λ T, (λ rp, (rp, List.find (has_id (rp_RoleID rp)) (tb_roles T))) <$>
       List.filter (λ rp, (rp_PermissionID rp =? permissionID)%N) (tb_role_permissions T)) any_order)).
Definition AssignPermissionsToRole (roleID : N) (permissionIDs : list N) : M D unit :=
  db_Transaction (for_each (λ permissionID,
    create_or_skip ("failed to assign permission " +:+ uuid_String permissionID +:+ " to role")
      (RoleRepo.new_RolePermission roleID permissionID)) permissionIDs).
Definition RemovePermissionsFromRole (roleID : N) (permissionIDs : list N) : M D unit :=
  or_fail "failed to remove permissions from role"
    (db_Delete (λ rp, (rp_RoleID rp =? roleID)%N &&
                      existsb (N.eqb (rp_PermissionID rp)) permissionIDs)).
End ops.
End RolePermissionRepo.

(** ** User activity repository (user_activity_repository.go): errors are
    passed on as they are *)
Module ActivityRepo.
Definition ActionLogin : string := "login".
Definition ActionLoginFailed : string := "login_failed".

Section ops.
Context {D : Type} `{Gorm D}.

Definition CreateActivity (activity : UserActivity) : M D unit := db_Create activity.
(** A nil filter selects everything. *)
Definition is_or_any (o : option N) (i : N) : bool :=
  match o with Some x => (x =? i)%N | None => true end.
Definition activities_of (userID organizationID : option N) (T : Tables) : list UserActivity :=
  List.filter (λ a, is_or_any organizationID (ua_OrganizationID a) && is_or_any userID (ua_UserID a))
    (tb_user_activities T).
(** [Preload("User")]: the users of the activities found, read by a second
    query where one of them names a user. *)
Definition user_ids (l : list UserActivity) : list N :=
  List.filter (λ i, negb (i =? uuid_Nil)%N) (ua_UserID <$> l).
Definition with_user (users : list User) (a : UserActivity) : UserActivity * option User :=
  (a, List.find (λ u, (u_ID u =? ua_UserID a)%N) users).
Definition preload_users (l : list UserActivity) : M D (list (UserActivity * option User)) :=
  let* users := match user_ids l with
                | [] => ret []
                | ids => db_FindWhere (λ u, existsb (N.eqb (u_ID u)) ids) any_order
                end in
  ret (with_user users <$> l).
Definition GetUserActivities (userID organizationID : option N) (limit offset : Z)
    : M D (list (UserActivity * option User) * Z) :=
  let* total := db_Count (activities_of userID organizationID) in
  let* l := db_Find (mkQuery (λ T, Some (activities_of userID organizationID T))
                       (desc_time ua_CreatedAt) (Some limit) offset) in
  let* activities := preload_users l in
  ret (activities, total).
Definition GetActivityByID (id : N) : M D UserActivity := db_FirstWhere (has_id id).
Definition DeleteOldActivities (now olderThan : Z) : M D unit :=
  let cutoffTime := (now - olderThan)%Z in
  db_Delete (λ a, (ua_CreatedAt a <? cutoffTime)%Z).
Definition since_in (organizationID : N) (since : Z) (a : UserActivity) : bool :=
  (ua_OrganizationID a =? organizationID)%N && (since <=? ua_CreatedAt a)%Z.
(** [SELECT action, COUNT] with [GROUP BY action]. *)
Definition action_counts (organizationID : N) (since : Z) (T : Tables) : list (string * Z) :=
  let sel := List.filter (since_in organizationID since) (tb_user_activities T) in
  (λ action, (action, Z.of_nat (length (List.filter (λ a, String.eqb (ua_Action a) action) sel)))) <$>
    remove_dups (ua_Action <$> sel).
Definition GetActivityStats (organizationID : N) (since : Z) : M D (gmap string Z) :=
  let* results := db_Find (select (action_counts organizationID since) any_order) in
  ret (foldl (λ stats r, <[r.1 := r.2]> stats) ∅ results).
(** [details]: nil, or what [json.Marshal] makes of them. *)
Definition LogActivity (userID organizationID : N) (action resource : string)
    (details : option (res error string)) (ipAddress userAgent : string) : M D unit :=
  let detailsJSON := match details with Some (Ok jsonBytes) => jsonBytes | _ => "" end in
  CreateActivity (mkUserActivity uuid_Nil userID organizationID action resource detailsJSON
                    ipAddress userAgent zero_time zero_time).
Definition count_action (action : string) (organizationID : N) (since : Z) : M D Z :=
  db_Count (λ T, List.filter (λ a, since_in organizationID since a && String.eqb (ua_Action a) action)
                   (tb_user_activities T)).
Definition GetRecentLoginCount : N → Z → M D Z := count_action ActionLogin.
Definition GetFailedLoginCount : N → Z → M D Z := count_action ActionLoginFailed.
Definition GetUserActivityCount (userID : N) (since : Z) : M D Z :=
  db_Count (λ T, List.filter (λ a, (ua_UserID a =? userID)%N && (since <=? ua_CreatedAt a)%Z)
                   (tb_user_activities T)).
End ops.
End ActivityRepo.

(** ** Repository factory (repository_factory.go)

    A repository is the pair of its connections; the factory makes each one
    at its first use. *)
Module Factory.
Section factory.
Context {DB : Type}.
Record Repository := mkRepository { rep_db : DB; rep_readDB : DB }.
Inductive kind := UserKind | OrganizationKind | RoleKind | PermissionKind | TokenKind
  | UserRoleKind | RolePermissionKind.
#[export] Instance kind_eq_dec : EqDecision kind.
Proof. solve_decision. Defined.
Record RepositoryFactory := mkRepositoryFactory {
  rf_writeDB : DB; rf_readDB : DB; rf_repo : kind → option Repository }.
Definition NewRepositoryFactory (writeDB readDB : DB) : RepositoryFactory :=
  mkRepositoryFactory writeDB readDB (λ _, None).
(** The accessor of one kind of repository. *)
Definition repository (k : kind) (f : RepositoryFactory) : Repository * RepositoryFactory :=
  match rf_repo f k with
  | Some r => (r, f)
  | None =>
      let r := mkRepository (rf_writeDB f) (rf_readDB f) in
      (r, mkRepositoryFactory (rf_writeDB f) (rf_readDB f)
            (λ k', if decide (k' = k) then Some r else rf_repo f k'))
  end.
End factory.
End Factory.

(** ** Every method keeps the tables well formed *)
Section methods.
Context {D : Type} `{HL : GormLaws D} `{HU : UuidLib}.

(** The methods of the repositories. *)
Inductive method : ∀ {A : Type}, M D A → Prop :=
| user_GetByID i : method (UserRepo.GetByID i)
| user_GetByEmail e : method (UserRepo.GetByEmail e)
| user_GetByEmailWithOrganization e : method (UserRepo.GetByEmailWithOrganization e)
| user_Create u : method (UserRepo.Create u)
| user_Update now u : method (UserRepo.Update now u)
| user_Delete i : method (UserRepo.Delete i)
| user_GetUserPermissions i : method (UserRepo.GetUserPermissions i)
| user_GetUserRoles i : method (UserRepo.GetUserRoles i)
| user_GetActiveUsersByOrganization i n k : method (UserRepo.GetActiveUsersByOrganization i n k)
| user_GetUsersByIDs l : method (UserRepo.GetUsersByIDs l)
| user_UpdateLastLogin now i t : method (UserRepo.UpdateLastLogin now i t)
| user_IncrementFailedLoginAttempts i : method (UserRepo.IncrementFailedLoginAttempts i)
| user_ResetFailedLoginAttempts now i : method (UserRepo.ResetFailedLoginAttempts now i)
| user_LockUser now i t : method (UserRepo.LockUser now i t)
| token_GetByID i : method (TokenRepo.GetByID i)
| token_GetByTokenHash now h : method (TokenRepo.GetByTokenHash now h)
| token_Create t : method (TokenRepo.Create t)
| token_Update now t : method (TokenRepo.Update now t)
| token_Delete i : method (TokenRepo.Delete i)
| token_RevokeToken now h : method (TokenRepo.RevokeToken now h)
| token_RevokeAllUserTokens now u ty : method (TokenRepo.RevokeAllUserTokens now u ty)
| token_GetActiveTokensByUser now u ty : method (TokenRepo.GetActiveTokensByUser now u ty)
| token_CleanupExpiredTokens now : method (TokenRepo.CleanupExpiredTokens now)
| token_DeleteRevokedTokens t : method (TokenRepo.DeleteRevokedTokens t)
| org_GetByID' i : method (OrganizationRepo.GetByID i)
| org_GetByDomain' s : method (OrganizationRepo.GetByDomain s)
| org_Create' o : method (OrganizationRepo.Create o)
| org_Update' now o : method (OrganizationRepo.Update now o)
| org_Delete' i : method (OrganizationRepo.Delete i)
| org_GetActiveOrganizations n k : method (OrganizationRepo.GetActiveOrganizations n k)
| org_GetOrganizationWithUsers i : method (OrganizationRepo.GetOrganizationWithUsers i)
| org_GetUserCount i : method (OrganizationRepo.GetUserCount i)
| perm_GetByID i : method (PermissionRepo.GetByID i)
| perm_GetByName s : method (PermissionRepo.GetByName s)
| perm_GetByResourceAndAction r a : method (PermissionRepo.GetByResourceAndAction r a)
| perm_Create p : method (PermissionRepo.Create p)
| perm_Update now p : method (PermissionRepo.Update now p)
| perm_Delete i : method (PermissionRepo.Delete i)
| perm_GetPermissionsByResource r : method (PermissionRepo.GetPermissionsByResource r)
| perm_GetPermissionsByRole i : method (PermissionRepo.GetPermissionsByRole i)
| perm_GetUserPermissions i : method (PermissionRepo.GetUserPermissions i)
| perm_GetChildPermissions i : method (PermissionRepo.GetChildPermissions i)
| perm_GetPermissionHierarchy i : method (PermissionRepo.GetPermissionHierarchy i)
| role_GetByID i : method (RoleRepo.GetByID i)
| role_GetByName s i : method (RoleRepo.GetByName s i)
| role_Create r : method (RoleRepo.Create r)
| role_Update now r : method (RoleRepo.Update now r)
| role_Delete i : method (RoleRepo.Delete i)
| role_GetRolesByOrganization i : method (RoleRepo.GetRolesByOrganization i)
| role_GetRoleWithPermissions i : method (RoleRepo.GetRoleWithPermissions i)
| role_GetRolePermissions i : method (RoleRepo.GetRolePermissions i)
| role_AssignPermissionToRole r p : method (RoleRepo.AssignPermissionToRole r p)
| role_RevokePermissionFromRole r p : method (RoleRepo.RevokePermissionFromRole r p)
| role_AssignRoleToUser u r : method (RoleRepo.AssignRoleToUser u r)
| role_RevokeRoleFromUser u r : method (RoleRepo.RevokeRoleFromUser u r)
| ur_Create x : method (UserRoleRepo.Create x)
| ur_Delete u r : method (UserRoleRepo.Delete u r)
| ur_GetByUserID i : method (UserRoleRepo.GetByUserID i)
| ur_GetByRoleID i : method (UserRoleRepo.GetByRoleID i)
| ur_AssignRolesToUser u l : method (UserRoleRepo.AssignRolesToUser u l)
| ur_RemoveRolesFromUser u l : method (UserRoleRepo.RemoveRolesFromUser u l)
| rp_Create x : method (RolePermissionRepo.Create x)
| rp_Delete r p : method (RolePermissionRepo.Delete r p)
| rp_GetByRoleID i : method (RolePermissionRepo.GetByRoleID i)
| rp_GetByPermissionID i : method (RolePermissionRepo.GetByPermissionID i)
| rp_AssignPermissionsToRole r l : method (RolePermissionRepo.AssignPermissionsToRole r l)
| rp_RemovePermissionsFromRole r l : method (RolePermissionRepo.RemovePermissionsFromRole r l)
| act_CreateActivity a : method (ActivityRepo.CreateActivity a)
| act_GetUserActivities u o n k : method (ActivityRepo.GetUserActivities u o n k)
| act_GetActivityByID i : method (ActivityRepo.GetActivityByID i)
| act_DeleteOldActivities now t : method (ActivityRepo.DeleteOldActivities now t)
| act_GetActivityStats o t : method (ActivityRepo.GetActivityStats o t)
| act_LogActivity u o a r dt ip ag : method (ActivityRepo.LogActivity u o a r dt ip ag)
| act_count_action a o t : method (ActivityRepo.count_action a o t)
| act_GetUserActivityCount u t : method (ActivityRepo.GetUserActivityCount u t).

Lemma good_FirstWhere {A} `{Row A} (P : A → bool) : preserves good (db_FirstWhere P).
Proof. apply good_First. Qed.
Lemma good_FindWhere {A} `{Row A} (P : A → bool) le : preserves good (db_FindWhere P le).
Proof. apply good_Find. Qed.
Lemma good_Count {A} (f : Tables → list A) : preserves good (db_Count f).
Proof. unfold db_Count. preserve. apply good_Find. Qed.
Lemma good_Deactivate {A} `{HA : RowLaws A} id (off : A → A) :
  (∀ x, row_id (off x) = row_id x) → preserves good (db_Deactivate id off).
Proof.
  intros Hoff. unfold db_Deactivate. preserve. apply good_Updates. intros x.
  by rewrite row_touched_id, Hoff.
Qed.
Lemma good_create_or_skip {A} `{HA : RowLaws A} failed (a : A) :
  preserves good (create_or_skip failed a).
Proof. unfold create_or_skip. preserve. apply good_Create. Qed.

Lemma method_good {A} (m : M D A) : method m → preserves good m.
Proof.
  intros []; match goal with |- preserves _ ?m => let h := get_head m in unfold h end;
    unfold lookup_one, or_fail, ActivityRepo.CreateActivity, ActivityRepo.preload_users; preserve;
    first
      [ apply good_FirstWhere | apply good_FindWhere | apply good_First | apply good_Find
      | apply good_Create | apply good_Save | apply good_Delete | apply good_Count
      | apply good_Deactivate; by intros [] | apply good_Updates; by intros []
      | apply good_Transaction; preserve; apply good_create_or_skip ].
Qed.
End methods.

Lemma Count_ok {D} `{GormLaws D} {X} (f : Tables → list X) (d d' : D) n : db_Count f d = (Ok n, d') →
  n = Z.of_nat (length (f (db_tables d))) ∧ db_tables d' = db_tables d.
Proof.
  unfold db_Count. intros Hr. apply bind_ok_inv in Hr as (l & d1 & Hf & [= <- <-]).
  pose proof (db_Find_keeps (select (λ T, [Z.of_nat (length (f T))]) any_order) d) as Hk.
  rewrite Hf in Hk. apply db_Find_ok in Hf as (r & s & [= <-] & Hp & _ & ->).
  apply Permutation_length_1_inv in Hp as ->. done.
Qed.


(** ** The promises of the interfaces

    [WDB]: a database with well-formed tables, as the repositories see it: the
    methods are the ones above, restricted to these states. *)
Section wdb.
Context {D : Type} `{HL : GormLaws D} `{HU : UuidLib}.

Definition WDB : Type := { d : D | good d }.
Definition on_wdb {A} (m : M D A) (Hm : method m) : M WDB A :=
  λ d, ((m (`d)).1, (m (`d)).2 ↾ method_good m Hm (`d) (proj2_sig d)).
Definition tables (d : WDB) : Tables := db_tables (`d).

Lemma on_wdb_run {A} (m : M D A) Hm d r d' :
  on_wdb m Hm d = (r, d') → ∃ e', m (`d) = (r, e') ∧ tables d' = db_tables e'.
Proof.
  unfold on_wdb, tables. intros [= Hr Hd]. subst d'. exists (m (`d)).2. split; [|done].
  rewrite <- Hr. by destruct (m (`d)).
Qed.

#[export] Instance user_repository : UserRepository WDB := {
  usr_GetByID i := on_wdb _ (user_GetByID i);
  usr_GetByEmail e := on_wdb _ (user_GetByEmail e);
  usr_GetByEmailWithOrganization e := on_wdb _ (user_GetByEmailWithOrganization e);
  usr_Create u := on_wdb _ (user_Create u);
  usr_Update now u := on_wdb _ (user_Update now u);
  usr_Delete i := on_wdb _ (user_Delete i);
  usr_UpdateLastLogin now i t := on_wdb _ (user_UpdateLastLogin now i t);
  usr_IncrementFailedLoginAttempts i := on_wdb _ (user_IncrementFailedLoginAttempts i);
  usr_ResetFailedLoginAttempts now i := on_wdb _ (user_ResetFailedLoginAttempts now i);
  usr_LockUser now i t := on_wdb _ (user_LockUser now i t) }.

#[export] Instance token_repository : TokenRepository WDB := {
  tr_GetByID i := on_wdb _ (token_GetByID i);
  tr_GetByTokenHash now h := on_wdb _ (token_GetByTokenHash now h);
  tr_Create t := on_wdb _ (token_Create t);
  tr_Update now t := on_wdb _ (token_Update now t);
  tr_Delete i := on_wdb _ (token_Delete i);
  tr_RevokeToken now h := on_wdb _ (token_RevokeToken now h);
  tr_RevokeAllUserTokens now u ty := on_wdb _ (token_RevokeAllUserTokens now u ty);
  tr_GetActiveTokensByUser now u ty := on_wdb _ (token_GetActiveTokensByUser now u ty);
  tr_CleanupExpiredTokens now := on_wdb _ (token_CleanupExpiredTokens now);
  tr_DeleteRevokedTokens t := on_wdb _ (token_DeleteRevokedTokens t) }.

#[export] Instance organization_repository : OrganizationRepository WDB := {
  org_GetByID i := on_wdb _ (org_GetByID' i);
  org_GetByDomain s := on_wdb _ (org_GetByDomain' s);
  org_Create o := on_wdb _ (org_Create' o) }.

(** The permission methods need nothing of the tables. *)
#[export] Instance permission_repository : PermissionRepository D := {
  pr_GetUserPermissions := PermissionRepo.GetUserPermissions;
  pr_GetChildPermissions := PermissionRepo.GetChildPermissions;
  pr_GetPermissionHierarchy := PermissionRepo.GetPermissionHierarchy;
  pr_GetPermissionsByResource := PermissionRepo.GetPermissionsByResource }.
End wdb.

(** *** Rows by primary key *)
Section find_id.
Context {A : Type} `{HR : Row A}.
Implicit Types (l : list A) (i : N).

Definition find_id (i : N) (l : list A) : option A := List.find (has_id i) l.

Lemma find_id_some i l a : find_id i l = Some a → a ∈ l ∧ row_id a = i.
Proof.
  unfold find_id, has_id. intros E. apply find_some in E as [Hin Hi].
  split; [by apply list_elem_of_In | by apply N.eqb_eq].
Qed.
Lemma find_id_elem l a : NoDup (row_id <$> l) → a ∈ l → find_id (row_id a) l = Some a.
Proof.
  induction l as [|b l IH]; intros Hnd Hin; [by apply elem_of_nil in Hin|].
  rewrite fmap_cons in Hnd. apply NoDup_cons in Hnd as [Hb Hnd]. unfold find_id. simpl.
  unfold has_id at 1. apply elem_of_cons in Hin as [->|Hin]; [by rewrite N.eqb_refl|].
  destruct (N.eqb_spec (row_id b) (row_id a)) as [E|]; [|by apply IH].
  exfalso. apply Hb. rewrite E. by apply list_elem_of_fmap_2.
Qed.
Lemma find_id_update i k (f : A → A) l : (∀ a, row_id a = k → row_id (f a) = k) →
  find_id i ((λ a, if has_id k a then f a else a) <$> l) =
  if decide (i = k) then f <$> find_id i l else find_id i l.
Proof.
  intros Hf. induction l as [|b l IH]; [by case_decide|]. rewrite fmap_cons. unfold find_id, has_id in *.
  simpl. destruct (N.eqb_spec (row_id b) k) as [Hk|Hk].
  - rewrite (Hf b Hk), (N.eqb_sym k i), Hk, (N.eqb_sym k i).
    destruct (N.eqb_spec i k), (decide (i = k)); try done; rewrite IH; by case_decide.
  - destruct (N.eqb_spec (row_id b) i) as [Hi|Hi]; rewrite ?IH; case_decide; try done; congruence.
Qed.
Lemma find_id_insert i a l : find_id i (a :: l) = if decide (i = row_id a) then Some a else find_id i l.
Proof.
  unfold find_id, has_id. simpl. destruct (N.eqb_spec (row_id a) i), (decide (i = row_id a)); congruence.
Qed.
Lemma find_id_exists i l : is_Some (find_id i l) → existsb (has_id i) l = true.
Proof.
  intros [a E]. apply find_some in E as [Hin Hi]. apply existsb_exists. eauto.
Qed.
End find_id.

(** *** Statements on a well-formed database *)
Section statements.
Context {D : Type} `{HL : GormLaws D}.

Lemma Updates_run {A} `{HA : RowLaws A} (P : A → bool) f d r d' : db_Updates P f d = (r, d') →
  db_tables d' = if is_ok r then db_update P f (db_tables d) else db_tables d.
Proof.
  unfold db_Updates. destruct r as [[]|e]; simpl; intros E;
    [by apply db_Exec_ok in E as [-> _] | by apply db_Exec_err in E as [-> _]].
Qed.
Lemma Create_run {A} `{HA : RowLaws A} (a : A) d r d' : db_Create a d = (r, d') →
  ∃ now fresh, fresh ≠ uuid_Nil ∧
    db_tables d' = if is_ok r then db_insert (row_created now fresh a) (db_tables d) else db_tables d.
Proof.
  unfold db_Create. rewrite !bind_gets. intros E. exists (db_NowFunc d), (db_uuid_New d).
  split; [apply db_uuid_fresh|]. destruct r as [[]|e]; simpl;
    [by apply db_Exec_ok in E as [-> _] | by apply db_Exec_err in E as [-> _]].
Qed.
Lemma or_fail_run {A} failed (m : M D A) d r d' : or_fail failed m d = (r, d') →
  ∃ r0, m d = (r0, d') ∧ is_ok r0 = is_ok r ∧ ∀ a, r = Ok a → r0 = Ok a.
Proof.
  unfold or_fail, wrap_err. destruct (m d) as [[a|e] d1]; intros [= <- <-]; eexists; split_and!;
    try done; by intros ? [= <-].
Qed.
Lemma lookup_one_ok {A} missing failed (m : M D A) d a d' :
  lookup_one missing failed m d = (Ok a, d') ↔ m d = (Ok a, d').
Proof. apply wrap_err_ok. Qed.
End statements.

(** *** The laws *)
Section laws.
Context {D : Type} `{HL : GormLaws D} `{HU : UuidLib}.
Abbreviation WD := (WDB (D:=D)).

Definition wdb_user (d : WD) (i : N) : option User := find_id i (rows (tables d)).

Lemma user_unique (d : WD) : NoDup (u_ID <$> tb_users (tables d)).
Proof. destruct d as [d Hd]. apply Hd. Qed.

(** A lookup of an active user. *)
Lemma user_lookup missing failed (P : User → bool) (m : M D User) Hm (d d' : WD) u :
  m = lookup_one missing failed (db_FirstWhere (λ u, P u && UserRepo.active u)) →
  on_wdb m Hm d = (Ok u, d') →
  wdb_user d (u_ID u) = Some u ∧ P u = true ∧ u_IsActive u = true ∧ tables d' = tables d.
Proof.
  intros -> E. apply on_wdb_run in E as (e & E & ->). apply lookup_one_ok, FirstWhere_ok in E
    as (Hin & Hp & ->). apply andb_true_iff in Hp as [Hp Ha]. split_and!; try done.
  exact (find_id_elem (tb_users (tables d)) u (user_unique d) Hin).
Qed.

(** A method that only reads. *)
Lemma lookup_keeps {A} `{Row A} missing failed (P : A → bool) (m : M D A) Hm (d : WD) :
  m = lookup_one missing failed (db_FirstWhere P) → tables (on_wdb m Hm d).2 = tables d.
Proof.
  intros ->. unfold on_wdb, tables. simpl. unfold lookup_one. rewrite wrap_err_state.
  apply db_First_keeps.
Qed.

(** A method that updates the row with one key. *)
Lemma user_update failed k (f : User → User) (m : M D unit) Hm (d d' : WD) r :
  (∀ u, u_ID (f u) = u_ID u) → m = or_fail failed (db_Updates (has_id k) f) →
  on_wdb m Hm d = (r, d') →
  ∀ i, wdb_user d' i = if is_ok r && bool_decide (i = k) then f <$> wdb_user d i else wdb_user d i.
Proof.
  intros Hf -> E i. apply on_wdb_run in E as (e & E & Ht). unfold wdb_user. rewrite Ht.
  apply or_fail_run in E as (r0 & E & Hok & _). apply Updates_run in E as ->. rewrite Hok.
  destruct (is_ok r); cbn [andb]; [|done]. unfold db_update.
  rewrite rows_with, find_id_update by (intros a Ha; by rewrite <- Ha; apply Hf).
  by repeat case_decide; repeat case_bool_decide.
Qed.
Lemma user_update_ok failed k f (m : M D unit) Hm (d d' : WD) :
  (∀ u, u_ID (f u) = u_ID u) → m = or_fail failed (db_Updates (has_id k) f) →
  on_wdb m Hm d = (Ok tt, d') →
  wdb_user d' k = f <$> wdb_user d k ∧ ∀ i, i ≠ k → wdb_user d' i = wdb_user d i.
Proof.
  intros Hf Hm' E. pose proof (user_update _ _ _ _ _ _ _ _ Hf Hm' E) as Hv. simpl in Hv.
  split; [|intros i Hi]; rewrite Hv; by case_bool_decide.
Qed.
Lemma user_update_err failed k f (m : M D unit) Hm (d d' : WD) e :
  (∀ u, u_ID (f u) = u_ID u) → m = or_fail failed (db_Updates (has_id k) f) →
  on_wdb m Hm d = (Err e, d') → ∀ i, wdb_user d' i = wdb_user d i.
Proof. intros Hf Hm' E i. by rewrite (user_update _ _ _ _ _ _ _ _ Hf Hm' E). Qed.

Lemma user_create_run (u : User) (d d' : WD) r : on_wdb _ (user_Create u) d = (r, d') →
  ∃ now fresh, fresh ≠ uuid_Nil ∧ tables d' =
    if is_ok r then db_insert (User_created now fresh u) (tables d) else tables d.
Proof.
  intros E. apply on_wdb_run in E as (e & E & ->). apply or_fail_run in E as (r0 & E & <- & _).
  by apply Create_run in E.
Qed.

Lemma user_save_run now (u : User) (d d' : WD) :
  on_wdb _ (user_Update now u) d = (Ok tt, d') → is_Some (wdb_user d (u_ID u)) →
  tables d' = db_update (has_id (u_ID u)) (λ _, as_saved now u) (tables d).
Proof.
  intros E Hu. apply on_wdb_run in E as (e & E & ->). apply or_fail_run in E as (r0 & E & _ & Hr).
  rewrite (Hr tt eq_refl) in E. unfold db_Save in E.
  change (row_id u) with (u_ID u) in E. destruct (N.eqb_spec (u_ID u) uuid_Nil) as [Hn|Hn].
  - destruct Hu as [v Hv]. apply find_id_some in Hv as [Hin Hid].
    pose proof (proj2_sig d) as [_ Hall]. apply (identified_rows (A:=User)) in Hall.
    unfold identified in Hall. rewrite Forall_forall in Hall.
    exfalso. apply (Hall v Hin). congruence.
  - apply db_Exec_ok in E as [-> _]. unfold wdb_user, tables in *. simpl in *.
    by rewrite (find_id_exists (A:=User) _ _ Hu).
Qed.

#[export, refine] Instance user_repository_laws : UserRepositoryLaws WD := { uview := wdb_user }.
Proof.
  all: cbn [usr_GetByID usr_GetByEmailWithOrganization usr_Create usr_Update usr_UpdateLastLogin
    usr_IncrementFailedLoginAttempts usr_ResetFailedLoginAttempts usr_LockUser user_repository].
  - intros d d' i u E. eapply (user_lookup _ _ (has_id i)) in E as (Hv & Hi & Ha & Ht); [|reflexivity].
    apply N.eqb_eq in Hi. change (row_id u) with (u_ID u) in Hi. subst i.
    split_and!; try done. intros j. unfold wdb_user. by rewrite Ht.
  - intros d d' e u E. eapply (user_lookup _ _ (λ u, String.eqb (u_Email u) e)) in E
      as (Hv & He & Ha & Ht); [|reflexivity].
    apply String.eqb_eq in He. split_and!; try done. intros j. unfold wdb_user. by rewrite Ht.
  - intros d d' e err E j. unfold wdb_user. pose proof (lookup_keeps _ _ _ _
      (user_GetByEmailWithOrganization e) d eq_refl) as Ht. rewrite E in Ht. cbn [snd] in Ht. by rewrite Ht.
  - intros d d' u E. apply user_create_run in E as (now & fresh & Hf & Ht). cbn [is_ok] in Ht.
    set (u' := User_created now fresh u) in *.
    assert (Hid : u_ID u' = BeforeCreate_ID fresh (u_ID u)) by (by destruct u).
    assert (Hall : ∀ i, wdb_user d' i = if decide (i = u_ID u') then Some u' else wdb_user d i).
    { intros i. unfold wdb_user. rewrite Ht.
      unfold db_insert. rewrite rows_with. exact (find_id_insert i u' (rows (tables d))). }
    exists (u_ID u'), u'. rewrite Hall. split_and!; try (by destruct u).
    + intros Hn. rewrite Hid. unfold BeforeCreate_ID. by destruct (N.eqb_spec (u_ID u) uuid_Nil).
    + by case_decide.
    + intros j Hj. rewrite Hall. by case_decide.
  - intros d d' u e E j. apply user_create_run in E as (now & fresh & Hf & Ht). cbn [is_ok] in Ht.
    unfold wdb_user. by rewrite Ht.
  - intros d d' now u E Hu. apply user_save_run in E; [|done].
    assert (Hall : ∀ i, wdb_user d' i = if decide (i = u_ID u)
      then (λ _, as_saved now u) <$> wdb_user d i else wdb_user d i).
    { intros i. unfold wdb_user. rewrite E.
      unfold db_update. rewrite rows_with. apply find_id_update. by destruct u. }
    split; [|intros j Hj]; rewrite Hall; case_decide; try done. by destruct Hu as [v ->].
  - intros d d' now i t e E. eapply user_update_err; [|reflexivity|exact E]; by intros [].
  - intros d d' i e E. eapply user_update_err; [|reflexivity|exact E]; by intros [].
  - intros d d' now i e E. eapply user_update_err; [|reflexivity|exact E]; by intros [].
  - intros d d' now i t e E. eapply user_update_err; [|reflexivity|exact E]; by intros [].
  - intros d d' now i t E. eapply user_update_ok; [|reflexivity|exact E]; by intros [].
  - intros d d' i E. eapply user_update_ok; [|reflexivity|exact E]; by intros [].
  - intros d d' now i E. eapply user_update_ok; [|reflexivity|exact E]; by intros [].
  - intros d d' now i t E. eapply user_update_ok; [|reflexivity|exact E]; by intros [].
Defined.
(** Organizations: the active rows. *)
Definition wdb_organization (d : WD) (i : N) : option Organization :=
  find_id i (List.filter o_IsActive (rows (tables d))).

#[export, refine] Instance organization_repository_laws : OrganizationRepositoryLaws WD := {
  oview := wdb_organization }.
Proof.
  - intros d s i. unfold wdb_organization.
    pose proof (lookup_keeps _ _ _ _ (org_GetByDomain' s) d eq_refl) as E.
    change (tables (org_GetByDomain s d).2 = tables d) in E. by rewrite E.
  - intros d d' o E. apply on_wdb_run in E as (e & E & Ht).
    apply or_fail_run in E as (r0 & E & _ & Hr). rewrite (Hr tt eq_refl) in E.
    apply Create_run in E as (now & fresh & _ & E). cbn [is_ok] in E.
    set (o' := row_created now fresh o) in *. exists (o_ID o'), o'.
    assert (o_IsActive o' = true) as Hact by (by destruct o).
    split_and!; [| | by destruct o | by destruct o].
    + intros Hn. unfold o'. destruct o. simpl in *. unfold BeforeCreate_ID.
      by destruct (N.eqb_spec o_ID uuid_Nil).
    + unfold wdb_organization. rewrite Ht, E. unfold db_insert. rewrite rows_with. cbn [List.filter].
      rewrite Hact. rewrite (find_id_insert (o_ID o') o'). by case_decide.
Defined.

(** Tokens. *)
Lemma tokens_with (l : list Token) T : tb_tokens (with_rows l T) = l.
Proof. exact (rows_with l T). Qed.
#[export, refine] Instance token_repository_laws : TokenRepositoryLaws WD := {
  tview d := tb_tokens (tables d) }.
Proof.
  all: cbn [tr_GetByTokenHash tr_Create tr_RevokeToken tr_RevokeAllUserTokens
    tr_GetActiveTokensByUser token_repository].
  - intros d d' h now t E. apply on_wdb_run in E as (e & E & ->).
    apply lookup_one_ok, FirstWhere_ok in E as (Hin & Hp & ->).
    apply andb_true_iff in Hp as [Hh Hu]. by split_and!.
  - intros d d' t E. apply on_wdb_run in E as (e & E & ->).
    apply or_fail_run in E as (r0 & E & _ & Hr). rewrite (Hr tt eq_refl) in E.
    apply Create_run in E as (now & fresh & _ & ->). exists (Token_created now fresh t).
    cbn [is_ok]. unfold db_insert. rewrite tokens_with. split_and!; by destruct t.
  - intros d d' h now E. apply on_wdb_run in E as (e & E & ->).
    apply or_fail_run in E as (r0 & E & _ & Hr). rewrite (Hr tt eq_refl) in E.
    apply Updates_run in E as ->. cbn [is_ok]. unfold db_update. by rewrite tokens_with.
  - intros d d' u ty now E. apply on_wdb_run in E as (e & E & ->).
    apply or_fail_run in E as (r0 & E & _ & Hr). rewrite (Hr tt eq_refl) in E.
    apply Updates_run in E as ->. cbn [is_ok]. unfold db_update. by rewrite tokens_with.
  - intros d d' u ty now l E. apply on_wdb_run in E as (e & E & ->).
    apply or_fail_run in E as (r0 & E & _ & Hr). rewrite (Hr l eq_refl) in E.
    apply FindWhere_ok in E as [Hl ->]. split; [done|]. intros t.
    rewrite Hl, list_elem_of_In, filter_In, <- list_elem_of_In, andb_true_iff. done.
Defined.

(** Permissions and grants. *)
Lemma find_run {A} failed (q : Query A) (d d' : D) l :
  q_limit q = None → q_offset q = 0 → or_fail failed (db_Find q) d = (Ok l, d') →
  ∃ r, q_rows q (db_tables d) = Some r ∧ Permutation l r ∧
       StronglySorted (λ a b, q_le q a b = true) l.
Proof.
  intros Hlim Hoff E. apply or_fail_run in E as (r0 & E & _ & Hr). rewrite (Hr l eq_refl) in E.
  apply db_Find_ok in E as (r & s & Hr' & Hp & Hs & ->). rewrite Hlim, Hoff.
  unfold page. rewrite drop_0. by exists r.
Qed.
Lemma read_keeps {A} failed (q : Query A) (d : D) :
  db_tables (or_fail failed (db_Find q) d).2 = db_tables d.
Proof. unfold or_fail. rewrite wrap_err_state. apply db_Find_keeps. Qed.

Definition db_grants (d : D) (u : N) : list Permission :=
  remove_dups (UserRepo.granted_rows u (db_tables d)).

#[export, refine] Instance permission_repository_laws : PermissionRepositoryLaws D := {
  prows d := tb_permissions (db_tables d); pgrants := db_grants }.
Proof.
  all: cbn [pr_GetUserPermissions pr_GetChildPermissions permission_repository].
  - intros d d' u l E. apply find_run in E as (r & Hr & Hp & _); [|done..]. by injection Hr as <-.
  - intros d u. unfold db_grants, PermissionRepo.GetUserPermissions. by rewrite read_keeps.
  - intros d d' i l E c. apply find_run in E as (r & Hr & Hp & _); [|done..]. injection Hr as <-.
    by rewrite Hp, list_elem_of_In, filter_In, <- list_elem_of_In, bool_decide_eq_true.
  - intros d i. unfold db_grants, PermissionRepo.GetChildPermissions, db_FindWhere.
    by rewrite read_keeps.
Defined.
End laws.

(** ** The recursive query *)
Section hierarchy.
Import PermissionRepo.
Context (T : Tables).
Abbreviation perms := (tb_permissions T).

Lemma children_of_spec work c : c ∈ children_of T work ↔ ∃ p, p ∈ work ∧ child_of perms p c.
Proof.
  unfold children_of, child_of. rewrite list_elem_of_bind.
  setoid_rewrite list_elem_of_In. setoid_rewrite filter_In. setoid_rewrite bool_decide_eq_true.
  naive_solver.
Qed.

(** [chain n p q]: [q] is [n] steps below [p]. *)
Fixpoint chain (n : nat) (p q : Permission) : Prop :=
  match n with O => q = p | S n' => ∃ c, child_of perms p c ∧ chain n' c q end.

Lemma chain_descends n p q : chain (S n) p q → descends perms p q.
Proof.
  revert p. induction n as [|n IH]; intros p (c & Hc & Hq); [simpl in Hq; subst; by constructor|].
  eapply descends_step; [exact Hc | by apply IH].
Qed.
Lemma descends_chain p q : descends perms p q → ∃ n, chain (S n) p q.
Proof.
  induction 1 as [p c Hc|p c q Hc _ [n Hn]]; [by exists 0%nat, c | exists (S n), c; auto].
Qed.

(** The rows of the query: the rows of the first round and everything
    below them, each with its distance as the level. *)
Lemma hierarchy_rows fuel level work l : hierarchy T fuel level work = Some l →
  ∀ n q, (level + n, q)%nat ∈ l ↔ ∃ p, p ∈ work ∧ chain n p q.
Proof.
  revert level work l. induction fuel as [|fuel IH]; intros level [|w work] l Hl n q;
    try discriminate Hl; [injection Hl as <-; split; [by intros ?%elem_of_nil |
      by intros (p & ?%elem_of_nil & _)]..|].
  cbn [hierarchy] in Hl. apply fmap_Some in Hl as (rest & Hrest & ->).
  specialize (IH (S level) _ _ Hrest). set (ws := w :: work) in *. clearbody ws.
  rewrite elem_of_app, list_elem_of_fmap. destruct n as [|n].
  - rewrite Nat.add_0_r. split.
    + intros [(p & [= ->] & Hp)|Hin]; [by exists p|]. exfalso.
      assert (Hle : ∀ fuel k ws l x, hierarchy T fuel k ws = Some l → x ∈ l → (k <= x.1)%nat).
      { clear. induction fuel as [|fuel IH]; intros k [|w ws] l x Hl Hx; try discriminate Hl;
          [injection Hl as <-; by apply elem_of_nil in Hx..|].
        cbn [hierarchy] in Hl. apply fmap_Some in Hl as (rest & Hr & ->).
        apply elem_of_app in Hx as [(p & -> & _)%list_elem_of_fmap|Hx]; [done|].
        apply (IH _ _ _ _ Hr) in Hx. lia. }
      apply (Hle _ _ _ _ _ Hrest) in Hin. simpl in Hin. lia.
    + intros (p & Hp & ->). left. by exists p.
  - replace (level + S n)%nat with (S level + n)%nat by lia. rewrite IH. split.
    + intros [(p & [=] & _)|(c & Hc & Hq)]; [lia|]. apply children_of_spec in Hc as (p & Hp & Hc).
      exists p. split; [done|]. by exists c.
    + intros (p & Hp & c & Hc & Hq). right. exists c. split; [|done].
      apply children_of_spec. by exists p.
Qed.

(** The query returns exactly when no chain below the first round is as long
    as the fuel. *)
Lemma hierarchy_some fuel level work :
  (∀ n p q, p ∈ work → chain n p q → (n < fuel)%nat) → is_Some (hierarchy T fuel level work).
Proof.
  revert level work. induction fuel as [|fuel IH]; intros level [|w work] Hn; try by eexists.
  - specialize (Hn 0%nat w w ltac:(left) eq_refl). lia.
  - cbn [hierarchy]. destruct (IH (S level) (children_of T (w :: work))) as [rest ->]; [|by eexists].
    intros n c q Hc Hq. apply children_of_spec in Hc as (p & Hp & Hc).
    specialize (Hn (S n) p q Hp (ex_intro _ c (conj Hc Hq))). lia.
Qed.
Lemma hierarchy_bound fuel level work l n p q :
  hierarchy T fuel level work = Some l → p ∈ work → chain n p q → (n < fuel)%nat.
Proof.
  revert level work l n p. induction fuel as [|fuel IH]; intros level [|w work] l n p Hl Hp Hc;
    try discriminate Hl; [by apply elem_of_nil in Hp..|].
  destruct n as [|n]; [lia|]. cbn [hierarchy] in Hl. apply fmap_Some in Hl as (rest & Hrest & _).
  destruct Hc as (c & Hc & Hq). apply (IH _ _ _ n c) in Hrest; [lia| |done].
  apply children_of_spec. by exists p.
Qed.

(** Without a cycle a chain visits every row at most once. *)
Lemma chain_path n p q : (∀ x, ¬ descends perms x x) → chain n p q →
  ∃ l, length l = n ∧ NoDup l ∧ ∀ x, x ∈ l → x ∈ perms ∧ descends perms p x.
Proof.
  intros Hacyc. revert p. induction n as [|n IH]; intros p Hc.
  - exists []. split_and!; [done | constructor | by intros ? ?%elem_of_nil].
  - destruct Hc as (c & Hc & Hq). destruct (IH c Hq) as (l & Hl & Hnd & Hin). exists (c :: l).
    split_and!; [simpl; congruence | constructor; [|done] |].
    + intros Hcl. by apply Hin in Hcl as [_ ?%Hacyc].
    + intros x [->|Hx]%elem_of_cons; [split; [apply Hc | by constructor]|].
      apply Hin in Hx as [? ?]. split; [done | by eapply descends_step].
Qed.
Lemma hierarchy_acyclic id : (∀ x, ¬ descends perms x x) → is_Some (hierarchy_of id T).
Proof.
  intros Hacyc. apply hierarchy_some. intros n p q _ Hc.
  destruct (chain_path n p q Hacyc Hc) as (l & <- & Hnd & Hin).
  assert (l ⊆+ perms) as Hsub by (apply NoDup_submseteq; [done | intros x Hx; by apply Hin]).
  apply submseteq_length in Hsub. lia.
Qed.
Lemma chain_app n m p q r : chain n p q → chain m q r → chain (n + m) p r.
Proof.
  revert p. induction n as [|n IH]; intros p; [by intros <-|].
  intros (c & Hc & Hq) Hr. exists c. split; [done | by apply IH].
Qed.
Lemma chain_cycle n q : chain n q q → ∀ k, chain (k * n) q q.
Proof. intros Hq k. induction k as [|k IH]; [done|]. simpl. by eapply chain_app. Qed.
Lemma hierarchy_cycle fuel level work p q : p ∈ work → (q = p ∨ descends perms p q) →
  descends perms q q → hierarchy T fuel level work = None.
Proof.
  intros Hp Hpq Hqq. destruct (hierarchy T fuel level work) as [l|] eqn:E; [|done]. exfalso.
  assert (∃ k, chain k p q) as [k Hk].
  { destruct Hpq as [->|[k Hk]%descends_chain]; [by exists 0%nat | by exists (S k)]. }
  apply descends_chain in Hqq as [n Hn]. pose proof (chain_cycle _ _ Hn fuel) as Hc.
  pose proof (hierarchy_bound _ _ _ _ _ _ _ E Hp (chain_app _ _ _ _ _ Hk Hc)). nia.
Qed.
End hierarchy.

(** The recursive query.  What [GetPermissionHierarchy] returns is the
    permission itself and everything below it, in the sense of the parent
    relation the decision procedure climbs down; when the hierarchy has a
    cycle at or below the permission, no call succeeds. *)
Theorem hierarchy_query_spec {D} `{GormLaws D} id (d : D) :
  let rows := tb_permissions (db_tables d) in
  (∀ l d', PermissionRepo.GetPermissionHierarchy id d = (Ok l, d') →
     ∀ q, q ∈ l ↔ ∃ p, p ∈ rows ∧ p_ID p = id ∧ (q = p ∨ descends rows p q)) ∧
  ((∃ p q, p ∈ rows ∧ p_ID p = id ∧ (q = p ∨ descends rows p q) ∧ descends rows q q) →
     is_ok (PermissionRepo.GetPermissionHierarchy id d).1 = false).
Proof.
  intros rows. set (T := db_tables d).
  assert (Hfirst : ∀ p, p ∈ List.filter (has_id id) (tb_permissions T) ↔ p ∈ rows ∧ p_ID p = id).
  { intros p. rewrite list_elem_of_In, filter_In, <- list_elem_of_In. unfold has_id.
    by rewrite N.eqb_eq. }
  unfold PermissionRepo.GetPermissionHierarchy, or_fail. split.
  - intros l d' E q. apply bind_ok_inv in E as (lq & d1 & E & [= <- <-]).
    apply wrap_err_ok, db_Find_ok in E as (r & s & Hr & Hp & _ & ->). cbn [q_rows] in Hr.
    fold T in Hr. unfold page. cbn [q_limit q_offset]. rewrite drop_0, list_elem_of_fmap.
    setoid_rewrite <- Hp. setoid_rewrite (and_assoc (_ ∈ rows)). setoid_rewrite <- Hfirst. split.
    + intros ([n x] & -> & Hin). pose proof (hierarchy_rows T _ _ _ _ Hr n x) as [Hx _].
      destruct (Hx Hin) as (p & Hpin & Hc). exists p. split; [done|].
      destruct n as [|n]; [by left | right; by apply chain_descends with n].
    + intros (p & Hpin & Hq). assert (∃ n, chain T n p q) as [n Hc].
      { destruct Hq as [->|[n Hc]%descends_chain]; [by exists 0%nat | by exists (S n)]. }
      exists (n, q). split; [done|]. apply (hierarchy_rows T _ 0 _ _ Hr n q). by exists p.
  - intros (p & q & Hp & Hid & Hpq & Hqq). rewrite bind_wrap_err.
    destruct (db_Find _ _) as [[lq|e] d1] eqn:E; [|done]. exfalso.
    apply db_Find_ok in E as (r & s & Hr & _). cbn [q_rows] in Hr. fold T in Hr.
    unfold PermissionRepo.hierarchy_of in Hr.
    by rewrite (hierarchy_cycle T _ _ _ p q) in Hr by (try done; by apply Hfirst).
Qed.

(** ** Bulk assignment *)
Section assignment.
Context {D : Type} `{HL : GormLaws D} `{HU : UuidLib}.

(** The roles assigned to a user. *)
Definition assigned (userID : N) (T : Tables) : list N :=
  ur_RoleID <$> List.filter (λ ur, (ur_UserID ur =? userID)%N) (tb_user_roles T).

Lemma assigned_insert u i now fresh T :
  assigned u (db_insert (row_created now fresh (RoleRepo.new_UserRole u i)) T) = i :: assigned u T.
Proof.
  unfold db_insert, assigned. change tb_user_roles with (rows (A:=UserRole)).
  rewrite rows_with. cbn [List.filter]. unfold RoleRepo.new_UserRole. simpl. by rewrite N.eqb_refl.
Qed.
Lemma assigned_unique u T : constraints T → NoDup (assigned u T).
Proof.
  intros (_ & _ & _ & _ & (_ & Hnd) & _). unfold assigned.
  assert (∀ l, NoDup ((λ x, (ur_UserID x, ur_RoleID x)) <$> l) →
    NoDup (ur_RoleID <$> List.filter (λ ur, (ur_UserID ur =? u)%N) l)) as Hl; [|by apply Hl].
  clear. induction l as [|x l IH]; intros Hnd; [constructor|]. rewrite fmap_cons in Hnd.
  apply NoDup_cons in Hnd as [Hx Hnd]. simpl. destruct (N.eqb_spec (ur_UserID x) u) as [Hu|]; [|by apply IH].
  rewrite fmap_cons. constructor; [|by apply IH]. intros Hin. apply Hx.
  apply list_elem_of_fmap in Hin as (y & Hy & Hin). apply list_elem_of_In, filter_In in Hin as [Hin Hyu].
  apply N.eqb_eq in Hyu. apply list_elem_of_fmap. exists y. split; [congruence | by apply list_elem_of_In].
Qed.

(** A round of the loop never skips: the texts it looks for are not the
    driver's. *)
Lemma create_or_skip_ok failed u i (d d' : D) :
  create_or_skip failed (RoleRepo.new_UserRole u i) d = (Ok tt, d') →
  assigned u (db_tables d') = i :: assigned u (db_tables d) ∧ constraints (db_tables d').
Proof.
  unfold create_or_skip. rewrite bind_attempt.
  destruct (db_Create _ d) as [[[]|e] d1] eqn:E; cbn [fst snd].
  - intros [= <-]. unfold db_Create in E. rewrite !bind_gets in E.
    apply db_Exec_ok in E as [-> Hc]. by rewrite assigned_insert.
  - unfold db_Create in E. rewrite !bind_gets in E. apply db_Exec_err in E as [_ Hb].
    unfold isDuplicateKeyError, bare_violation in *. apply orb_false_iff in Hb as [H1 H2].
    destruct (String.eqb_spec (Error e) "UNIQUE constraint failed") as [E1|];
      [by rewrite E1 in H1|].
    destruct (String.eqb_spec (Error e) "duplicate key value violates unique constraint") as [E2|];
      [by rewrite E2 in H2 | done].
Qed.
Lemma assign_loop failed u l : ∀ d d', constraints (db_tables d) →
  for_each (λ i, create_or_skip (failed i) (RoleRepo.new_UserRole u i)) l d = (Ok tt, d') →
  assigned u (db_tables d') = reverse l ++ assigned u (db_tables d) ∧ constraints (db_tables d').
Proof.
  induction l as [|i l IH]; intros d d' Hc E; [by injection E as <-|].
  cbn [for_each] in E. apply bind_ok_inv in E as ([] & d1 & E & El).
  apply create_or_skip_ok in E as [Ha Hc1]. apply IH in El as [-> Hc']; [|done].
  split; [|done]. by rewrite Ha, reverse_cons, <- (assoc_L (++)).
Qed.
End assignment.

(** Assigning roles in bulk is all or nothing.  A call that succeeds adds
    exactly the roles it was given, none of which the user had; otherwise
    nothing is stored.  So a call that names a role the user already has, or
    the same role twice, fails as a whole: the branch meant to skip duplicates
    is never taken. *)
Theorem AssignRolesToUser_all_or_nothing {D} `{GormLaws D} `{UuidLib} userID roleIDs (d d' : D) r :
  constraints (db_tables d) → UserRoleRepo.AssignRolesToUser userID roleIDs d = (r, d') →
  match r with
  | Ok _ => NoDup roleIDs ∧ (∀ i, i ∈ roleIDs → i ∉ assigned userID (db_tables d)) ∧
            Permutation (assigned userID (db_tables d')) (roleIDs ++ assigned userID (db_tables d))
  | Err _ => db_tables d' = db_tables d
  end.
Proof.
  intros Hc E. unfold UserRoleRepo.AssignRolesToUser in E. destruct r as [[]|e];
    [|by eapply db_Transaction_err].
  apply db_Transaction_ok in E as (d1 & d2 & Ht & E & ->). rewrite <- Ht in *.
  apply assign_loop in E as [Ha Hc2]; [|done]. pose proof (assigned_unique userID _ Hc2) as Hnd.
  rewrite Ha in *. apply NoDup_app in Hnd as (Hl & Hdis & _).
  setoid_rewrite reverse_Permutation in Hdis. rewrite reverse_Permutation in Hl |- *.
  split_and!; [done | | done]. intros i Hi. by apply Hdis.
Qed.

(** ** Grants through roles *)
Section grants.
Import UserRepo.

(** [u] has the active role [i]; role [i] grants [p]. *)
Definition holds (T : Tables) (u i : N) : Prop :=
  (∃ ur, ur ∈ tb_user_roles T ∧ ur_UserID ur = u ∧ ur_RoleID ur = i) ∧
  (∃ r, r ∈ tb_roles T ∧ r_ID r = i ∧ r_IsActive r = true).
Definition grants (T : Tables) (i : N) (p : Permission) : Prop :=
  p ∈ tb_permissions T ∧
  ∃ rp, rp ∈ tb_role_permissions T ∧ rp_RoleID rp = i ∧ rp_PermissionID rp = p_ID p.

Lemma elem_filter {A} (P : A → bool) l x : x ∈ List.filter P l ↔ x ∈ l ∧ P x = true.
Proof. by rewrite list_elem_of_In, filter_In, <- list_elem_of_In. Qed.

Lemma granted_rows_spec u T p : p ∈ granted_rows u T ↔ ∃ i, holds T u i ∧ grants T i p.
Proof.
  unfold granted_rows, active_roles_of, permissions_of_role, holds, grants.
  rewrite list_elem_of_bind. setoid_rewrite list_elem_of_bind. setoid_rewrite elem_filter.
  setoid_rewrite andb_true_iff. unfold has_id. setoid_rewrite N.eqb_eq. simpl. split.
  - intros (r & (rp & (Hp & Hpid) & Hrp & Hrid) & ur & (Hr & Hri & Hact) & Hur & Huu).
    exists (r_ID r). split; [split; [by exists ur | by exists r] | split; [done|]].
    by exists rp.
  - intros (i & [(ur & Hur & Huu & Hui) (r & Hr & Hri & Hact)] & Hp & rp & Hrp & Hrr & Hpi).
    exists r. split; [exists rp; split_and!; congruence || done|].
    exists ur. split_and!; congruence || done.
Qed.
End grants.

Section withdrawal.
Context {D : Type} `{HL : GormLaws D}.

(** The two ways to withdraw a role from a user. *)
Definition withdraws (userID roleID : N) (m : M D unit) : Prop :=
  m = RoleRepo.RevokeRoleFromUser userID roleID ∨ m = RoleRepo.Delete roleID.

Lemma revoke_holds u r T T' : T' = db_remove (λ ur, (ur_UserID ur =? u)%N && (ur_RoleID ur =? r)%N) T →
  ∀ i, holds T' u i ↔ holds T u i ∧ i ≠ r.
Proof.
  intros -> i. destruct T as [us os rs ps urs rps ts acts]. unfold holds, db_remove. simpl.
  setoid_rewrite elem_filter. setoid_rewrite negb_true_iff. setoid_rewrite andb_false_iff.
  setoid_rewrite N.eqb_neq. naive_solver.
Qed.
Lemma deactivate_holds u r now T T' :
  T' = db_update (has_id r) (λ a, Role_touched now (set_Role_IsActive false a)) T →
  ∀ i, holds T' u i ↔ holds T u i ∧ i ≠ r.
Proof.
  intros -> i. destruct T as [us os rs ps urs rps ts acts]. unfold holds, db_update. simpl.
  setoid_rewrite list_elem_of_fmap. split.
  - intros [Hur (x & (a & -> & Ha) & Hid & Hact)]. unfold has_id in *. simpl in *.
    destruct (N.eqb_spec (r_ID a) r); [by destruct a|]. split; [|congruence]. split; [done | by exists a].
  - intros [[Hur (a & Ha & Hid & Hact)] Hne]. split; [done|]. exists a. split; [|done]. exists a.
    unfold has_id. simpl. by destruct (N.eqb_spec (r_ID a) r); [congruence|].
Qed.

Lemma withdraws_holds u r m (d d' : D) : withdraws u r m → m d = (Ok tt, d') →
  ∀ i, (holds (db_tables d') u i ↔ holds (db_tables d) u i ∧ i ≠ r) ∧
       ∀ p, grants (db_tables d') i p ↔ grants (db_tables d) i p.
Proof.
  intros [-> | ->] E i; apply wrap_err_ok in E.
  - apply db_Exec_ok in E as [-> _]. split; [by apply revoke_holds|]. by destruct (db_tables d).
  - unfold db_Deactivate in E. rewrite bind_gets in E. apply db_Exec_ok in E as [-> _].
    split; [by eapply deactivate_holds|]. by destruct (db_tables d).
Qed.
End withdrawal.

(** Withdrawing a role.  Once a role has been revoked from a user, or
    deactivated, the permissions read for the user are exactly those that the
    user's other active roles grant. *)
Theorem withdrawn_role_grants_nothing {D} `{GormLaws D} userID roleID m (d d1 d2 d3 : D) l :
  withdraws userID roleID m → m d = (Ok tt, d1) → db_tables d2 = db_tables d1 →
  PermissionRepo.GetUserPermissions userID d2 = (Ok l, d3) →
  ∀ p, p ∈ l ↔ ∃ i, i ≠ roleID ∧ holds (db_tables d) userID i ∧ grants (db_tables d) i p.
Proof.
  intros Hm Hrun Ht Hget p. unfold PermissionRepo.GetUserPermissions, or_fail in Hget.
  apply wrap_err_ok, db_Find_ok in Hget as (r & s & [= <-] & Hp & _ & ->).
  unfold page. simpl. rewrite drop_0, <- Hp, elem_of_remove_dups, granted_rows_spec, Ht.
  pose proof (withdraws_holds _ _ _ _ _ Hm Hrun) as Hw.
  setoid_rewrite (λ i, proj1 (Hw i)). setoid_rewrite (λ i, proj2 (Hw i) p). naive_solver.
Qed.

(** ** The repositories as the services see them *)

(** One call of a repository. *)
Definition repo_step {D} `{GormLaws D} `{UuidLib} (d d' : D) : Prop :=
  ∃ A (m : M D A), method m ∧ d' = (m d).2.

(** Any sequence of repository calls, successful or not, keeps the unique
    keys and leaves no row with the nil identifier. *)
Theorem tables_stay_well_formed {D} `{GormLaws D} `{UuidLib} (d d' : D) :
  well_formed (db_tables d) → star repo_step d d' → well_formed (db_tables d').
Proof.
  intros Hd Hs. refine (star_invariant repo_step good d d' _ Hd Hs).
  intros d1 d2 Hg (A & m & Hm & ->). by apply (method_good m Hm).
Qed.

(** C5: the repositories keep the promises the services rely on.  On any
    database, the GORM repositories satisfy the laws of the four interfaces,
    with the user rows by key, the token table, the active organizations, and
    the permission rows and grants as what the services see. *)
Theorem repositories_implement_interfaces {D} `{GormLaws D} `{UuidLib} :
  (∃ L : UserRepositoryLaws (WDB (D:=D)), ∀ d i u,
     uview d i = Some u ↔ u ∈ tb_users (tables d) ∧ u_ID u = i) ∧
  (∃ L : TokenRepositoryLaws (WDB (D:=D)), ∀ d, tview d = tb_tokens (tables d)) ∧
  (∃ L : OrganizationRepositoryLaws (WDB (D:=D)), ∀ d i o, oview d i = Some o →
     o ∈ tb_organizations (tables d) ∧ o_ID o = i ∧ o_IsActive o = true) ∧
  (∃ L : PermissionRepositoryLaws D, ∀ d u p,
     (prows d = tb_permissions (db_tables d)) ∧
     (p ∈ pgrants d u ↔ ∃ i, holds (db_tables d) u i ∧ grants (db_tables d) i p)).
Proof.
  split_and!.
  - exists user_repository_laws. intros d i u. cbn [uview user_repository_laws]. split.
    + exact (find_id_some (A:=User) i (rows (tables d)) u).
    + intros [Hin <-]. exact (find_id_elem (tb_users (tables d)) u (user_unique d) Hin).
  - by exists token_repository_laws.
  - exists organization_repository_laws. intros d i o Ho.
    apply (find_id_some (A:=Organization) i (List.filter o_IsActive (rows (tables d))))
      in Ho as [Hin Hi]. apply elem_filter in Hin as [Hin Ha].
    by split_and!.
  - exists permission_repository_laws. intros d u p. split; [done|].
    cbn [pgrants permission_repository_laws]. unfold db_grants.
    by rewrite elem_of_remove_dups, granted_rows_spec.
Qed.

(** ** Witnesses *)
Definition ref_role (i : N) (name : string) : Role := mkRole i 9 name "" false true 0 0.
Definition ref_permission (i : N) (r a : string) (parent : option N) : Permission :=
  mkPermission i (r +:+ "." +:+ a) r a "organization" parent "" false 0 0.
(** User 7 has the roles 2 and 3; role 2 grants [user.read] and [user.*],
    role 3 grants [user.read]; [user.read] has [user.list] below it. *)
Definition ref_tables : Tables :=
  mkTables [] [] [ref_role 2 "admin"; ref_role 3 "reader"; ref_role 4 "writer"]
    [ref_permission 21 "user" "read" None; ref_permission 22 "user" "*" None;
     ref_permission 23 "user" "list" (Some 21%N)]
    [mkUserRole 31 7 2 0; mkUserRole 32 7 3 0]
    [mkRolePermission 41 2 21 0; mkRolePermission 42 2 22 0; mkRolePermission 43 3 21 0] [] [].
Definition ref_db : RefDB := mkRefDB ref_tables 100.
#[local] Existing Instance ref_uuid.

Lemma ref_tables_ok : well_formed ref_tables.
Proof.
  split.
  - unfold constraints. split_and!; (eapply bool_decide_eq_true; vm_compute; reflexivity).
  - unfold all_identified, identified. split_and!; repeat constructor; discriminate.
Qed.

Example tables_stay_well_formed_witness :
  well_formed (db_tables (RoleRepo.AssignRoleToUser 8 4 ref_db).2).
Proof.
  apply (tables_stay_well_formed ref_db); [exact ref_tables_ok|].
  eapply star_snoc; [apply star_refl|]. exists unit, (RoleRepo.AssignRoleToUser 8 4).
  split; [constructor | reflexivity].
Defined.

Example repositories_implement_interfaces_witness :
  ∃ L : TokenRepositoryLaws (WDB (D:=RefDB)),
    @tview _ token_repository L (ref_db ↾ ref_tables_ok) = [].
Proof.
  destruct (repositories_implement_interfaces (D:=RefDB)) as (_ & [L HL] & _).
  exists L. rewrite HL. reflexivity.
Defined.

Lemma ref_db_ok : constraints (db_tables ref_db).
Proof. exact (proj1 ref_tables_ok). Qed.

(** A role the user already has makes the whole call fail; a new one is added. *)
Definition ref_assign (l : list N) : res error unit * RefDB :=
  UserRoleRepo.AssignRolesToUser 7 l ref_db.
Example AssignRolesToUser_all_or_nothing_witness :
  db_tables (ref_assign [4; 2]%N).2 = ref_tables ∧ 4%N ∉ assigned 7 ref_tables ∧
  Permutation (assigned 7 (db_tables (ref_assign [4%N]).2)) [4; 2; 3]%N.
Proof.
  split.
  - exact (AssignRolesToUser_all_or_nothing 7 [4; 2]%N ref_db (ref_assign [4; 2]%N).2 _
      ref_db_ok (surjective_pairing _)).
  - destruct (AssignRolesToUser_all_or_nothing 7 [4%N] ref_db (ref_assign [4%N]).2 (Ok tt)
      ref_db_ok (surjective_pairing _)) as (_ & Hn & Hp).
    split; [apply Hn; left | exact Hp].
Defined.

(** Revoking role 2 leaves what role 3 grants. *)
Definition ref_revoked : res error unit * RefDB := RoleRepo.RevokeRoleFromUser 7 2 ref_db.
Definition ref_left : res error (list Permission) * RefDB :=
  PermissionRepo.GetUserPermissions 7 ref_revoked.2.
Lemma ref_left_run : ref_left.1 = Ok [ref_permission 21 "user" "read" None].
Proof. vm_refl. Qed.
Example withdrawn_role_grants_nothing_witness :
  ∃ i, i ≠ 2%N ∧ holds ref_tables 7 i ∧ grants ref_tables i (ref_permission 21 "user" "read" None).
Proof.
  refine (proj1 (withdrawn_role_grants_nothing 7 2 (RoleRepo.RevokeRoleFromUser 7 2) ref_db
    ref_revoked.2 ref_revoked.2 ref_left.2 [ref_permission 21 "user" "read" None] _ _ _ _
    (ref_permission 21 "user" "read" None)) _);
    [by left | vm_refl | reflexivity | exact (run_split _ _ ref_left_run) | left].
Defined.

Definition ref_below : res error (list Permission) * RefDB :=
  PermissionRepo.GetPermissionHierarchy 21 ref_db.
Lemma ref_below_run : ref_below.1 =
  Ok [ref_permission 21 "user" "read" None; ref_permission 23 "user" "list" (Some 21%N)].
Proof. vm_refl. Qed.
Example hierarchy_query_spec_witness :
  ∃ p, p ∈ tb_permissions ref_tables ∧ p_ID p = 21%N ∧
    (ref_permission 23 "user" "list" (Some 21%N) = p ∨
     descends (tb_permissions ref_tables) p (ref_permission 23 "user" "list" (Some 21%N))).
Proof.
  refine (proj1 (proj1 (hierarchy_query_spec 21 ref_db) _ _ (run_split _ _ ref_below_run) _) _).
  right. left.
Defined.
