(* ===== verification/WorkerPool.v ===== *)
(** * The worker pool (src/internal/application/services/worker_pool.go)

    A pool of [size] goroutines reading jobs from a channel of capacity
    [2 * size].  Its concurrency is an event semantics: an event is one
    atomic action of a caller or of a worker, [wstep] says whether it is
    enabled and what it does, and a run is any sequence of enabled events.
    A [select] with several ready cases may take any of them, so a submission
    carries the case it took.  [Stop] is two events: signalling the workers,
    and, once all have exited, closing the channel.  A Go panic of a caller
    is counted: the callers are request handlers whose panics are recovered.
    A job that panics is recovered by [executeJob] and counts as finished. *)

From S2P Require Import Prelude.

Record WorkerPoolMetrics := mkPoolMetrics {
  JobsSubmitted : Z; JobsCompleted : Z; JobsInProgress : Z; ActiveWorkers : Z;
  QueueLength : Z; AverageJobTime : Z }.

Section pool.
Context {J : Type}.

Inductive Worker := Idle | Busy (job : J) | Exited.

Record WorkerPool := mkWorkerPool {
  wp_size : nat;
  wp_started : bool;
  wp_stopping : bool;      (* inside [Stop], waiting for the workers *)
  wp_jobQueue : list J;
  wp_closed : bool;        (* the job channel has been closed *)
  wp_quit : bool;          (* the quit channels of the workers are closed *)
  wp_cancelled : bool;     (* the context is cancelled *)
  wp_workers : list Worker;
  wp_metrics : WorkerPoolMetrics;
  wp_accepted : list J;    (* history: jobs the channel took, in order *)
  wp_executed : list J;    (* history: jobs finished, in order *)
  wp_panics : nat }.

Definition NewWorkerPool (size : nat) : WorkerPool :=
  mkWorkerPool size false false [] false false false [] (mkPoolMetrics 0 0 0 0 0 0) [] [] 0.

(** The case a [select] took. *)
Inductive submit_case := Sent | Cancelled | Full | TimedOut.
Inductive event :=
| EvStart
| EvSubmit (job : J) (c : submit_case)
| EvSubmitWithTimeout (job : J) (c : submit_case)
| EvTake (i : nat)                (* worker [i] receives from the channel *)
| EvFinish (i : nat) (dur : Z)    (* worker [i] finishes its job *)
| EvQuit (i : nat)                (* worker [i] takes the quit or the context case *)
| EvStop
| EvStopped.

Definition set_metrics (f : WorkerPoolMetrics → WorkerPoolMetrics) (s : WorkerPool) : WorkerPool :=
  let '(mkWorkerPool n st sp q cl qu ca ws m ac ex pa) := s in
  mkWorkerPool n st sp q cl qu ca ws (f m) ac ex pa.
Definition set_workers (ws : list Worker) (s : WorkerPool) : WorkerPool :=
  let '(mkWorkerPool n st sp q cl qu ca _ m ac ex pa) := s in
  mkWorkerPool n st sp q cl qu ca ws m ac ex pa.
Definition panic (s : WorkerPool) : WorkerPool :=
  let '(mkWorkerPool n st sp q cl qu ca ws m ac ex pa) := s in
  mkWorkerPool n st sp q cl qu ca ws m ac ex (S pa).

Definition capacity (s : WorkerPool) : nat := 2 * wp_size s.
Definition sendable (s : WorkerPool) : bool := (length (wp_jobQueue s) <? capacity s)%nat.

Definition count_submission (s : WorkerPool) (m : WorkerPoolMetrics) : WorkerPoolMetrics :=
  let '(mkPoolMetrics su co pr ac _ av) := m in
  mkPoolMetrics (wrap64 (su + 1)) co pr ac (Z.of_nat (length (wp_jobQueue s))) av.

(** The send case: a send on a closed channel panics. *)
Definition send (job : J) (s : WorkerPool) : option WorkerPool :=
  if wp_closed s then Some (panic s)
  else if sendable s then
    let '(mkWorkerPool n st sp q cl qu ca ws m ac ex pa) := s in
    Some (mkWorkerPool n st sp (q ++ [job]) cl qu ca ws m (ac ++ [job]) ex pa)
  else None.

Definition Submit (job : J) (c : submit_case) (s : WorkerPool) : option WorkerPool :=
  let s1 := set_metrics (count_submission s) s in
  match c with
  | Sent => send job s1
  | Cancelled => if wp_cancelled s1 then Some s1 else None
  | Full => if negb (wp_closed s1) && negb (sendable s1) && negb (wp_cancelled s1)
            then Some s1 else None
  | TimedOut => None
  end.

Definition SubmitWithTimeout (job : J) (c : submit_case) (s : WorkerPool) : option WorkerPool :=
  let s1 := set_metrics (count_submission s) s in
  match c with
  | Sent => send job s1
  | Cancelled => if wp_cancelled s1 then Some s1 else None
  | TimedOut => Some s1
  | Full => None
  end.

(** [Start] and [Stop] hold the pool's mutex. *)
Definition Start (s : WorkerPool) : option WorkerPool :=
  if wp_stopping s then None
  else if wp_started s then Some s
  else
    let '(mkWorkerPool n st sp q cl qu ca ws m ac ex pa) := s in
    let '(mkPoolMetrics su co pr _ ql av) := m in
    Some (mkWorkerPool n true sp q cl false ca (replicate n Idle)
            (mkPoolMetrics su co pr (Z.of_nat n) ql av) ac ex pa).

(** Closing the quit channels a second time panics (there are none when the
    size is 0). *)
Definition Stop_signal (s : WorkerPool) : option WorkerPool :=
  if wp_stopping s then None
  else if negb (wp_started s) then Some s
  else if wp_quit s && (0 <? wp_size s)%nat then Some (panic s)
  else
    let '(mkWorkerPool n st _ q cl _ _ ws m ac ex pa) := s in
    Some (mkWorkerPool n st true q cl true true ws m ac ex pa).

Definition exited (w : Worker) : bool := match w with Exited => true | _ => false end.

(** [wg.Wait] has returned; closing the channel a second time panics and the
    deferred unlock releases the mutex. *)
Definition Stop_close (s : WorkerPool) : option WorkerPool :=
  if negb (wp_stopping s) || negb (forallb exited (wp_workers s)) then None
  else
    let '(mkWorkerPool n st _ q cl qu ca ws m ac ex pa) := s in
    if cl then Some (mkWorkerPool n st false q cl qu ca ws m ac ex (S pa))
    else
      let '(mkPoolMetrics su co pr _ ql av) := m in
      Some (mkWorkerPool n false false q true qu ca ws (mkPoolMetrics su co pr 0 ql av) ac ex pa).

Definition begin_job (m : WorkerPoolMetrics) : WorkerPoolMetrics :=
  let '(mkPoolMetrics su co pr ac ql av) := m in
  mkPoolMetrics su co (wrap64 (pr + 1)) ac ql av.
Definition end_job (dur : Z) (m : WorkerPoolMetrics) : WorkerPoolMetrics :=
  let '(mkPoolMetrics su co pr ac ql av) := m in
  let co' := wrap64 (co + 1) in
  mkPoolMetrics su co' (wrap64 (pr - 1)) ac ql
    (if (co' =? 1)%Z then dur else Z.quot (wrap64 (av + dur)) 2).

(** One turn of the worker loop: the receive case.  A closed channel hands
    out what is left and then nil jobs, which are skipped. *)
Definition worker_take (i : nat) (s : WorkerPool) : option WorkerPool :=
  match wp_workers s !! i with
  | Some Idle =>
      match wp_jobQueue s with
      | job :: rest =>
          let '(mkWorkerPool n st sp _ cl qu ca ws m ac ex pa) := s in
          Some (mkWorkerPool n st sp rest cl qu ca (<[i := Busy job]> ws) (begin_job m) ac ex pa)
      | [] => if wp_closed s then Some s else None
      end
  | _ => None
  end.

(** [executeJob] returning: the deferred function. *)
Definition executeJob_end (i : nat) (dur : Z) (s : WorkerPool) : option WorkerPool :=
  match wp_workers s !! i with
  | Some (Busy job) =>
      let '(mkWorkerPool n st sp q cl qu ca ws m ac ex pa) := s in
      Some (mkWorkerPool n st sp q cl qu ca (<[i := Idle]> ws) (end_job dur m) ac (ex ++ [job]) pa)
  | _ => None
  end.

Definition worker_quit (i : nat) (s : WorkerPool) : option WorkerPool :=
  match wp_workers s !! i with
  | Some Idle =>
      if wp_quit s || wp_cancelled s then Some (set_workers (<[i := Exited]> (wp_workers s)) s)
      else None
  | _ => None
  end.

Definition wstep (e : event) (s : WorkerPool) : option WorkerPool :=
  match e with
  | EvStart => Start s
  | EvSubmit job c => Submit job c s
  | EvSubmitWithTimeout job c => SubmitWithTimeout job c s
  | EvTake i => worker_take i s
  | EvFinish i dur => executeJob_end i dur s
  | EvQuit i => worker_quit i s
  | EvStop => Stop_signal s
  | EvStopped => Stop_close s
  end.

Fixpoint wrun (es : list event) (s : WorkerPool) : option WorkerPool :=
  match es with [] => Some s | e :: es' => wstep e s ≫= wrun es' end.

(** The manager keeps one pool per name; a second creation returns the
    first pool. *)
Definition CreatePool (name : string) (size : nat) (pools : gmap string WorkerPool)
    : WorkerPool * gmap string WorkerPool :=
  match pools !! name with
  | Some pool => (pool, pools)
  | None => let pool := NewWorkerPool size in (pool, <[name := pool]> pools)
  end.
Definition GetPool (name : string) (pools : gmap string WorkerPool) : option WorkerPool := pools !! name.

(** [GetMetrics] refreshes the queue length. *)
Definition GetMetrics (s : WorkerPool) : WorkerPoolMetrics :=
  let '(mkPoolMetrics su co pr ac _ av) := wp_metrics s in
  mkPoolMetrics su co pr ac (Z.of_nat (length (wp_jobQueue s))) av.

(** ** Lemmas *)

Definition busy_jobs (ws : list Worker) : list J :=
  omap (λ w, match w with Busy j => Some j | _ => None end) ws.

(** Where every accepted job is: finished, running or still queued. *)
Record pool_ok (s : WorkerPool) : Prop := {
  ok_workers : (length (wp_workers s) <= wp_size s)%nat;
  ok_queue : (length (wp_jobQueue s) <= capacity s)%nat;
  ok_jobs : wp_accepted s ≡ₚ wp_executed s ++ busy_jobs (wp_workers s) ++ wp_jobQueue s;
  ok_progress : JobsInProgress (wp_metrics s) = wrap64 (Z.of_nat (length (busy_jobs (wp_workers s))));
  ok_completed : JobsCompleted (wp_metrics s) = wrap64 (Z.of_nat (length (wp_executed s)));
  ok_restart : wp_started s = false →
    wp_stopping s = false ∧ forallb exited (wp_workers s) = true;
  ok_stopping : wp_stopping s = true → wp_quit s = true ∧ wp_cancelled s = true;
  ok_closed : wp_closed s = true → wp_cancelled s = true }.

Lemma busy_replicate n : busy_jobs (replicate n Idle) = [].
Proof. induction n; simpl; auto. Qed.

Lemma busy_exited ws : forallb exited ws = true → busy_jobs ws = [].
Proof. induction ws as [|[] ws IH]; simpl; done || auto. Qed.

Lemma busy_take ws i j : ws !! i = Some Idle →
  busy_jobs (<[i := Busy j]> ws) ≡ₚ j :: busy_jobs ws.
Proof.
  revert i. induction ws as [|w ws IH]; intros [|i] Hi; simpl in *; simplify_eq; [done|].
  destruct w; simpl; rewrite IH by done; [done | apply Permutation_swap | done].
Qed.

Lemma busy_free ws i w' j : ws !! i = Some (Busy j) → w' = Idle ∨ w' = Exited →
  busy_jobs ws ≡ₚ j :: busy_jobs (<[i := w']> ws).
Proof.
  revert i. induction ws as [|w ws IH]; intros [|i] Hi Hw; simpl in *; simplify_eq.
  - by destruct Hw as [->| ->].
  - destruct w; simpl; rewrite IH by done; [done | apply Permutation_swap | done].
Qed.

Lemma busy_quit ws i : ws !! i = Some Idle → busy_jobs (<[i := Exited]> ws) = busy_jobs ws.
Proof.
  revert i. induction ws as [|w ws IH]; intros [|i] Hi; simpl in *; simplify_eq; [done|].
  destruct w; simpl; by rewrite IH.
Qed.

Lemma pool_ok_new n : pool_ok (NewWorkerPool n).
Proof. by split; simpl; try lia. Qed.

Lemma exited_idle ws i w : forallb exited ws = true → ws !! i = Some w → w = Exited.
Proof.
  rewrite forallb_forall. intros Hf Hi. apply list_elem_of_lookup_2, list_elem_of_In in Hi.
  apply Hf in Hi. by destruct w.
Qed.

(** Each operation keeps the invariant. *)
Ltac open_pool s H Hok :=
  destruct s as [n st sp q cl qu ca ws [su co pr aw ql av] ac ex pa];
  intros H Hok; destruct Hok as [Hws Hq Hjobs Hpr Hco Hre Hsp Hcl];
  unfold capacity in *; simpl in *.

Lemma send_ok job s s' : send job s = Some s' → pool_ok s → pool_ok s'.
Proof.
  unfold send, sendable. open_pool s H Hok.
  destruct cl; [by simplify_eq|]. destruct (Nat.ltb_spec (length q) (n + (n + 0))); simplify_eq.
  split; unfold capacity; simpl; auto; [rewrite length_app; simpl; lia|].
  by rewrite Hjobs, <- !app_assoc.
Qed.

Lemma set_metrics_ok f s : pool_ok s →
  JobsInProgress (f (wp_metrics s)) = JobsInProgress (wp_metrics s) →
  JobsCompleted (f (wp_metrics s)) = JobsCompleted (wp_metrics s) → pool_ok (set_metrics f s).
Proof. destruct s; intros [] Hp Hc; split; simpl in *; congruence || auto. Qed.

Lemma count_submission_ok s : pool_ok s → pool_ok (set_metrics (count_submission s) s).
Proof. intros H. apply set_metrics_ok; [done|..]; by destruct (wp_metrics s). Qed.

Lemma Start_ok s s' : Start s = Some s' → pool_ok s → pool_ok s'.
Proof.
  unfold Start. open_pool s H Hok. destruct sp; [done|]. destruct st; simplify_eq; [done|].
  destruct (Hre eq_refl) as [_ Hb]. apply busy_exited in Hb. rewrite Hb in *.
  split; simpl; rewrite ?length_replicate, ?busy_replicate; auto; done.
Qed.

Lemma Stop_signal_ok s s' : Stop_signal s = Some s' → pool_ok s → pool_ok s'.
Proof.
  unfold Stop_signal. open_pool s H Hok. destruct sp; [done|]. destruct st; simpl in *; [|by simplify_eq].
  destruct (qu && _); simplify_eq; split; simpl; auto; done.
Qed.

Lemma Stop_close_ok s s' : Stop_close s = Some s' → pool_ok s → pool_ok s'.
Proof.
  unfold Stop_close. open_pool s H Hok. destruct sp; [|done].
  destruct (forallb exited ws) eqn:Ex; [|done]. destruct (Hsp eq_refl) as [-> ->].
  simpl in H. destruct cl; simplify_eq; split; simpl; auto; done.
Qed.

Lemma worker_take_ok i s s' : worker_take i s = Some s' → pool_ok s → pool_ok s'.
Proof.
  unfold worker_take. open_pool s H Hok. destruct (ws !! i) as [[]|] eqn:Ei; try done.
  destruct q as [|j q]; [by destruct cl; simplify_eq|]. simplify_eq.
  pose proof (busy_take _ _ j Ei) as Hb. simpl in Hq.
  split; unfold capacity; simpl; rewrite ?length_insert; auto; [lia| | |].
  - rewrite Hjobs, Hb. solve_Permutation.
  - rewrite Hb, wrap64_add. simpl. f_equal. lia.
  - intros Hst. destruct (Hre Hst) as [? Hn]. by apply (exited_idle _ _ _ Hn) in Ei.
Qed.

Lemma executeJob_end_ok i dur s s' : executeJob_end i dur s = Some s' → pool_ok s → pool_ok s'.
Proof.
  unfold executeJob_end. open_pool s H Hok. destruct (ws !! i) as [[|j|]|] eqn:Ei; try done.
  simplify_eq. pose proof (busy_free _ _ Idle j Ei ltac:(by left)) as Hb.
  split; unfold capacity; simpl; rewrite ?length_insert; auto.
  - rewrite Hjobs, Hb. solve_Permutation.
  - rewrite Hb. unfold Z.sub. rewrite wrap64_add. simpl. f_equal. lia.
  - rewrite wrap64_add, length_app. simpl. f_equal. lia.
  - intros Hst. destruct (Hre Hst) as [? Hn]. by apply (exited_idle _ _ _ Hn) in Ei.
Qed.

Lemma worker_quit_ok i s s' : worker_quit i s = Some s' → pool_ok s → pool_ok s'.
Proof.
  unfold worker_quit. open_pool s H Hok. destruct (ws !! i) as [[|j|]|] eqn:Ei; try done.
  destruct (qu || ca); simplify_eq.
  split; unfold capacity; simpl; rewrite ?length_insert, ?busy_quit by done; auto.
  intros Hst. destruct (Hre Hst) as [? Hn]. by apply (exited_idle _ _ _ Hn) in Ei.
Qed.

Lemma wstep_ok e s s' : wstep e s = Some s' → pool_ok s → pool_ok s'.
Proof.
  intros H Hok. destruct e as [|job c|job c|i|i dur|i| |]; simpl in H;
    eauto using Start_ok, Stop_signal_ok, Stop_close_ok, worker_take_ok, executeJob_end_ok,
      worker_quit_ok;
    pose proof (count_submission_ok s Hok) as Hok1; unfold Submit, SubmitWithTimeout in H;
    destruct c; try done; try (by case_match; simplify_eq); [by eapply send_ok | by eapply send_ok | by simplify_eq].
Qed.

(** Runs: any interleaving of enabled events. *)
Definition pool_step (s s' : WorkerPool) : Prop := ∃ e, wstep e s = Some s'.

Lemma pool_reachable_ok s s' : star pool_step s s' → pool_ok s → pool_ok s'.
Proof. intros Hs Hok. eapply (star_invariant pool_step pool_ok); [|done|done]. intros a b ? [e He]. by eapply wstep_ok. Qed.

Lemma busy_length ws : (length (busy_jobs ws) <= length ws)%nat.
Proof. induction ws as [|[] ws IH]; simpl; lia. Qed.

(** A closed channel takes no job any more. *)
Definition shut (ac : list J) (s : WorkerPool) : Prop := wp_closed s = true ∧ wp_accepted s = ac.
Lemma wstep_shut ac e s s' : wstep e s = Some s' → shut ac s → shut ac s'.
Proof.
  unfold shut. destruct s as [n st sp q cl qu ca ws [su co pr aw ql av] acc ex pa].
  destruct e as [|job []|job []|i|i dur|i| |]; simpl; intros H [Hc <-]; simpl in Hc; subst cl;
    unfold send, Start, Stop_signal, Stop_close, worker_take, executeJob_end, worker_quit in H;
    simpl in H; repeat case_match; simplify_eq; done.
Qed.

Lemma shut_forever s s' : wp_closed s = true → star pool_step s s' →
  wp_closed s' = true ∧ wp_accepted s' = wp_accepted s.
Proof.
  intros Hc Hs. eapply (star_invariant pool_step (shut (wp_accepted s))); [|done|done].
  intros a b ? [e He]. by eapply wstep_shut.
Qed.

(** [Stop] drains: while it waits, some worker can always move until all
    have exited. *)
Definition weight (w : Worker) : nat := match w with Busy _ => 2 | Idle => 1 | Exited => 0 end.
Fixpoint weights (ws : list Worker) : nat :=
  match ws with [] => 0 | w :: ws' => weight w + weights ws' end.

Lemma weights_insert ws i w w' : ws !! i = Some w → (weight w' < weight w)%nat →
  (weights (<[i := w']> ws) < weights ws)%nat.
Proof.
  revert i. induction ws as [|x ws IH]; intros [|i] Hi Hw; simpl in *; simplify_eq; [lia|].
  specialize (IH i Hi Hw). lia.
Qed.

Lemma not_all_exited ws : forallb exited ws = false → ∃ i w, ws !! i = Some w ∧ w ≠ Exited.
Proof.
  induction ws as [|w ws IH]; simpl; [done|]. destruct (exited w) eqn:Ew; simpl.
  - intros H. destruct (IH H) as (i & x & Hi & Hx). by exists (S i), x.
  - intros _. exists 0%nat, w. split; [done|]. by intros ->.
Qed.

Lemma stop_drains m s : (weights (wp_workers s) <= m)%nat →
  wp_stopping s = true → wp_quit s = true → wp_closed s = false →
  ∃ es s', wrun es s = Some s' ∧ wp_closed s' = true ∧ wp_started s' = false ∧
           wp_stopping s' = false ∧ wp_panics s' = wp_panics s.
Proof.
  revert s. induction m as [m IH] using lt_wf_ind. intros s Hm Hsp Hqu Hcl.
  destruct s as [n st sp q cl qu ca ws [su co pr aw ql av] ac ex pa]; simpl in *; subst.
  destruct (forallb exited ws) eqn:Ex.
  - exists [EvStopped]. simpl. unfold Stop_close. simpl. rewrite Ex. simpl. eauto 10.
  - destruct (not_all_exited _ Ex) as (i & w & Hi & Hw).
    set (s0 := mkWorkerPool _ _ _ _ _ _ _ _ _ _ _ _).
    assert (∃ e s1, wstep e s0 = Some s1 ∧ (weights (wp_workers s1) < weights ws)%nat ∧
      wp_stopping s1 = true ∧ wp_quit s1 = true ∧ wp_closed s1 = false ∧ wp_panics s1 = pa)
      as (e & s1 & He & Hlt & Hsp1 & Hqu1 & Hcl1 & Hpa1).
    { destruct w as [|j|]; [| |done].
      - exists (EvQuit i). simpl. unfold worker_quit. simpl. rewrite Hi. simpl.
        eexists. split; [done|]. simpl. split_and!; try done. eapply weights_insert; [exact Hi | simpl; lia].
      - exists (EvFinish i 0). simpl. unfold executeJob_end. simpl. rewrite Hi. simpl.
        eexists. split; [done|]. simpl. split_and!; try done. eapply weights_insert; [exact Hi | simpl; lia]. }
    destruct (IH (weights (wp_workers s1)) ltac:(lia) s1) as (es & s2 & Hr & Hc2 & Hst2 & Hsp2 & Hp2);
      [lia|done..|].
    exists (e :: es), s2. simpl. rewrite He. simpl. split_and!; try done. by rewrite Hp2.
Qed.

Lemma wrun_star es s s' : wrun es s = Some s' → star pool_step s s'.
Proof.
  intros H. enough (∀ s0, star pool_step s0 s → star pool_step s0 s') by (apply H0; constructor).
  revert s H. induction es as [|e es IH]; intros s H s0 H0; simpl in H; [by simplify_eq|].
  destruct (wstep e s) as [s1|] eqn:E; [|done]. simpl in H. eapply IH; [exact H|].
  eapply star_snoc; [exact H0 | by exists e].
Qed.

(** A submission always has a case to take. *)
Lemma Submit_case job s : ∃ c s', Submit job c s = Some s'.
Proof.
  remember (set_metrics (count_submission s) s) as s1 eqn:E1.
  assert (Hs : Submit job Sent s = send job s1) by (by subst).
  assert (Hc : Submit job Cancelled s = if wp_cancelled s1 then Some s1 else None) by (by subst).
  assert (Hf : Submit job Full s =
    if negb (wp_closed s1) && negb (sendable s1) && negb (wp_cancelled s1) then Some s1 else None)
    by (by subst).
  unfold send in Hs. destruct (wp_closed s1); [exists Sent; eexists; exact Hs|].
  destruct (sendable s1); [destruct s1; exists Sent; eexists; exact Hs|].
  destruct (wp_cancelled s1); [exists Cancelled | exists Full]; eexists; [exact Hc | exact Hf].
Qed.
End pool.

Arguments Worker : clear implicits.
Arguments WorkerPool : clear implicits.
Arguments event : clear implicits.

(** ** Properties *)

(** C4: nothing is lost and nothing is run twice.  In every reachable state of
    a pool of [n] workers the accepted jobs are exactly the finished, the
    running and the queued ones; at most [n] run and at most [2 n] wait; and
    the in-progress counter is the number of running jobs. *)
Theorem worker_pool_invariant {J} n (s : WorkerPool J) :
  star pool_step (NewWorkerPool n) s → Z.of_nat n ≤ max_int →
  wp_accepted s ≡ₚ wp_executed s ++ busy_jobs (wp_workers s) ++ wp_jobQueue s ∧
  (length (busy_jobs (wp_workers s)) <= n)%nat ∧ (length (wp_jobQueue s) <= 2 * n)%nat ∧
  JobsInProgress (wp_metrics s) = Z.of_nat (length (busy_jobs (wp_workers s))).
Proof.
  intros Hs Hn. pose proof (pool_reachable_ok _ _ Hs (pool_ok_new n)) as Hok.
  assert (Hsz : wp_size s = n).
  { eapply (star_invariant pool_step (λ x, wp_size x = n)) in Hs; [done| |done].
    intros a b Ha [e He]. destruct a as [? st sp q cl qu ca ws [] ac ex pa]. simpl in Ha. subst.
    destruct e as [|job []|job []|i|i dur|i| |]; simpl in He;
      unfold Submit, SubmitWithTimeout, send, Start, Stop_signal, Stop_close, worker_take,
        executeJob_end, worker_quit in He; simpl in He; repeat case_match; by simplify_eq. }
  destruct Hok as [Hws Hq Hj Hp _ _ _ _]. pose proof (busy_length (wp_workers s)).
  unfold capacity in Hq. rewrite Hsz in *. split_and!; [done|lia|lia|].
  rewrite Hp. apply wrap64_small. unfold min_int, max_int in *. lia.
Qed.

(** C23: a stopped pool cannot be used again.  Once [Stop] has closed the job
    channel, no later run, restarts included, ever accepts another job, and
    every later [Stop] that gets past its waiting panics. *)
Theorem stopped_pool_is_dead {J} (s s' : WorkerPool J) :
  wp_closed s = true → star pool_step s s' →
  wp_accepted s' = wp_accepted s ∧
  (∀ job c s'', Submit job c s' = Some s'' → wp_accepted s'' = wp_accepted s) ∧
  (∀ s'', Stop_close s' = Some s'' → wp_panics s'' = S (wp_panics s')).
Proof.
  intros Hc Hs. destruct (shut_forever _ _ Hc Hs) as [Hc' Ha]. split_and!; [done| |].
  - intros job c s'' Hsub. by destruct (wstep_shut (wp_accepted s) (EvSubmit job c) s' s'' Hsub).
  - intros s''. unfold Stop_close. destruct s' as [n st sp q cl qu ca ws m ac ex pa].
    simpl in *. subst cl. case_match; intros; by simplify_eq.
Qed.

(** C32: [Stop] terminates.  While it waits for its workers on a pool whose
    channel is still open, there is a run of worker events after which it has
    closed the channel and returned, without a panic: no deadlock. *)
Theorem Stop_terminates {J} n (s : WorkerPool J) :
  star pool_step (NewWorkerPool n) s → wp_stopping s = true → wp_closed s = false →
  ∃ es s', wrun es s = Some s' ∧ wp_closed s' = true ∧ wp_started s' = false ∧
           wp_stopping s' = false ∧ wp_panics s' = wp_panics s.
Proof.
  intros Hs Hsp Hcl. pose proof (pool_reachable_ok _ _ Hs (pool_ok_new n)) as Hok.
  destruct (ok_stopping _ Hok Hsp) as [Hqu _]. by eapply stop_drains.
Qed.

(** ** Witnesses

    A pool of two workers: three jobs, two of them running, one finished. *)
Definition demo_events : list (event string) :=
  [EvStart; EvSubmit "a" Sent; EvSubmit "b" Sent; EvTake 0; EvSubmit "c" Sent; EvTake 1;
   EvFinish 0 5; EvTake 0].
Definition demo_pool : WorkerPool string :=
  match wrun demo_events (NewWorkerPool 2) with Some s => s | None => NewWorkerPool 0 end.

Example worker_pool_invariant_witness :
  wp_accepted demo_pool ≡ₚ ["a"] ++ ["c"; "b"] ++ [] ∧
  JobsInProgress (wp_metrics demo_pool) = 2.
Proof.
  destruct (worker_pool_invariant 2 demo_pool) as (Hj & _ & _ & Hp).
  - apply (wrun_star demo_events). reflexivity.
  - vm_compute. discriminate.
  - split; [exact Hj | exact Hp].
Defined.

Definition stop_events : list (event string) := [EvStart; EvStop; EvQuit 0; EvQuit 1; EvStopped].
Definition dead_pool : WorkerPool string :=
  match wrun stop_events (NewWorkerPool 2) with Some s => s | None => NewWorkerPool 0 end.
(** The same pool after another start and stop signal. *)
Definition dead_again : WorkerPool string :=
  match wrun [EvStart; EvStop; EvQuit 0; EvQuit 1] dead_pool with
  | Some s => s | None => NewWorkerPool 0 end.

Example stopped_pool_is_dead_witness :
  ∃ s'', Stop_close dead_again = Some s'' ∧ wp_panics s'' = 1%nat.
Proof.
  eexists. split; [reflexivity|].
  apply (stopped_pool_is_dead dead_pool dead_again).
  - reflexivity.
  - apply (wrun_star [EvStart; EvStop; EvQuit 0; EvQuit 1]). reflexivity.
  - reflexivity.
Defined.

Definition stopping_pool : WorkerPool string :=
  match wrun [EvStart; EvSubmit "a" Sent; EvTake 1; EvStop] (NewWorkerPool 2) with
  | Some s => s | None => NewWorkerPool 0 end.
Example Stop_terminates_witness :
  ∃ es s', wrun es stopping_pool = Some s' ∧ wp_closed s' = true ∧ wp_started s' = false.
Proof.
  destruct (Stop_terminates 2 stopping_pool) as (es & s' & Hr & Hc & Hs & _).
  - apply (wrun_star [EvStart; EvSubmit "a" Sent; EvTake 1; EvStop]). reflexivity.
  - reflexivity.
  - reflexivity.
  - exists es, s'. split; [exact Hr | split; [exact Hc | exact Hs]].
Defined.
