(* ===== verification/Bulk.v ===== *)
(** * Bulk permission checks (src/internal/application/services/bulk_permission_evaluator.go)

    The bulk evaluator turns every request into a job of its own worker pool
    and collects the answers from a channel.  One call is a run of the pool
    ([WorkerPool.v]) in which the caller's submissions are interleaved with
    worker events; a job is the index of its request.  The answers of the
    requests are an argument [eval]: a job evaluates its request with
    [evaluatePermission] on the repository and changes nothing. *)

From S2P Require Import Prelude Errors Models Ifaces Permission WorkerPool.

Record BulkPermissionEvaluator := mkBulkEvaluator {
  maxWorkers : nat; batchSize : nat; evaluationTimeout : Z }.
Definition NewBulkPermissionEvaluator : BulkPermissionEvaluator * WorkerPool nat :=
  let evaluator := mkBulkEvaluator 10 50 (5 * Second) in
  (evaluator, NewWorkerPool (maxWorkers evaluator)).

Record BulkEvaluationResult := mkBulkEvaluationResult {
  ber_Index : nat; ber_Result : PermissionEvaluationResult; ber_Error : option error }.

(** The zero value of a result slot. *)
Definition zero_result : PermissionEvaluationResult := mkEvalResult false None "" zero_time.

Section evaluate.
Context (eval : PermissionCheckRequest → PermissionEvaluationResult * option error).

(** The message a finished job sends: [evaluatePermission] always returns a
    result, with or without an error. *)
Definition processEvaluationJobFunc (i : nat) (req : PermissionCheckRequest) : BulkEvaluationResult :=
  let (result, err) := eval req in mkBulkEvaluationResult i result err.

(** One round of the collecting goroutine. *)
Definition collect_one (now : Z) (results : list PermissionEvaluationResult)
    (m : BulkEvaluationResult) : list PermissionEvaluationResult :=
  <[ber_Index m := bulk_entry now (ber_Result m, ber_Error m)]> results.

(** The messages of the jobs that finished, in the order they did. *)
Definition messages (reqs : list PermissionCheckRequest) (jobs : list nat) : list BulkEvaluationResult :=
  omap (λ i, processEvaluationJobFunc i <$> (reqs !! i)) jobs.

Definition submissions (es : list (event nat)) : list nat :=
  omap (λ e, match e with EvSubmit j _ => Some j | _ => None end) es.

(** The pool belongs to the evaluator: the caller submits, the workers work. *)
Definition own_event (e : event nat) : bool :=
  match e with EvSubmit _ _ | EvTake _ | EvFinish _ _ | EvQuit _ => true | _ => false end.

(** [EvaluateBulk] up to the moment the caller stops waiting, because all
    results arrived or at the timeout: [es] is what happened in the pool after
    [Start].  The loop submits the indices in order; the result channel holds
    one slot per request, so no job waits to answer. *)
Definition EvaluateBulk (now : Z) (request : BulkPermissionRequest) (es : list (event nat))
    (s : WorkerPool nat) : option (BulkPermissionResponse * WorkerPool nat) :=
  let reqs := bpr_Permissions request in
  match reqs with
  | [] => Some (mkBulkResponse (bpr_UserID request) [], s)
  | _ =>
      s0 ← wstep EvStart s;
      s1 ← wrun es s0;
      if bool_decide (submissions es = seq 0 (length reqs)) && forallb own_event es then
        let fresh := drop (length (wp_executed s)) (wp_executed s1) in
        let results := foldl (collect_one now) (replicate (length reqs) zero_result)
                         (messages reqs fresh) in
        Some (mkBulkResponse (bpr_UserID request) results, s1)
      else None
  end.
End evaluate.

(** ** Deduplication *)

Definition request_key (r : PermissionCheckRequest) : string :=
  pcr_Resource r +:+ ":" +:+ pcr_Action r +:+ ":" +:+ pcr_Scope r.

(** The loop of [deduplicateRequests], from the maps built so far. *)
Fixpoint dedup_requests (reqs : list PermissionCheckRequest) (seen : gmap string nat)
    (unique : list PermissionCheckRequest) (indexMap : list nat)
    : list PermissionCheckRequest * list nat :=
  match reqs with
  | [] => (unique, indexMap)
  | req :: rest =>
      let key := request_key req in
      match seen !! key with
      | Some uniqueIndex => dedup_requests rest seen unique (indexMap ++ [uniqueIndex])
      | None =>
          let uniqueIndex := length unique in
          dedup_requests rest (<[key := uniqueIndex]> seen) (unique ++ [req])
            (indexMap ++ [uniqueIndex])
      end
  end.
Definition deduplicateRequests (reqs : list PermissionCheckRequest)
    : list PermissionCheckRequest * list nat := dedup_requests reqs ∅ [] [].

Section callers.
(** [bulk] is a call of [EvaluateBulk]. *)
Context {W : Type} (bulk : BulkPermissionRequest → M W BulkPermissionResponse).

Definition OptimizedBulkEvaluate (request : BulkPermissionRequest) : M W BulkPermissionResponse :=
  let (uniqueRequests, indexMap) := deduplicateRequests (bpr_Permissions request) in
  let* response := bulk (mkBulkRequest (bpr_UserID request) uniqueRequests) in
  ret (mkBulkResponse (bpr_UserID request)
         ((λ uniqueIndex, default zero_result (bps_Results response !! uniqueIndex)) <$> indexMap)).

(** [copy(allResults[i:end], results)]. *)
Definition copy_at (i n : nat) (src dst : list PermissionEvaluationResult)
    : list PermissionEvaluationResult :=
  take i dst ++ take n src ++ drop (i + Nat.min n (length src)) dst.

(** The batch loop from index [i]; the fuel is the number of requests, and
    every round advances by the positive batch size. *)
Fixpoint batch_loop (fuel size : nat) (request : BulkPermissionRequest) (i : nat)
    (all : list PermissionEvaluationResult) : M W (list PermissionEvaluationResult) :=
  match fuel with
  | O => ret all
  | S fuel' =>
      if (i <? length (bpr_Permissions request))%nat then
        let end_ := Nat.min (i + size) (length (bpr_Permissions request)) in
        let batch := mkBulkRequest (bpr_UserID request)
                       (take (end_ - i) (drop i (bpr_Permissions request))) in
        let* response := wrap_err (ErrorWrap "batch evaluation failed") (bulk batch) in
        batch_loop fuel' size request (i + size)
          (copy_at i (end_ - i) (bps_Results response) all)
      else ret all
  end.
Definition EvaluateBulkWithBatching (bpe : BulkPermissionEvaluator) (request : BulkPermissionRequest)
    : M W BulkPermissionResponse :=
  let n := length (bpr_Permissions request) in
  if (n <=? batchSize bpe)%nat then bulk request
  else
    let* all := batch_loop n (batchSize bpe) request 0 (replicate n zero_result) in
    ret (mkBulkResponse (bpr_UserID request) all).
End callers.

(** ** Lemmas *)

#[local] Arguments submissions : simpl never.

Lemma collect_lookup eval now reqs jobs results i :
  NoDup jobs → (∀ j, j ∈ jobs → j < length reqs)%nat → length results = length reqs →
  foldl (collect_one now) results (messages eval reqs jobs) !! i =
  if decide (i ∈ jobs) then bulk_entry now ∘ eval <$> reqs !! i else results !! i.
Proof.
  revert results. induction jobs as [|j jobs IH]; intros results Hnd Hlt Hlen.
  { case_decide as Hi; [by apply elem_of_nil in Hi | done]. }
  apply NoDup_cons in Hnd as [Hj Hnd].
  assert (Hjl : (j < length reqs)%nat) by (apply Hlt; left).
  destruct (lookup_lt_is_Some_2 reqs j Hjl) as [r Hr].
  unfold messages. simpl. rewrite Hr. simpl. unfold messages in IH.
  rewrite IH; [|done | intros k Hk; apply Hlt; by right | unfold collect_one; by rewrite length_insert].
  destruct (decide (i ∈ jobs)) as [Hi|Hi].
  { rewrite decide_True by (by right). done. }
  unfold collect_one, processEvaluationJobFunc. destruct (eval r) as [res err] eqn:Ee. simpl.
  destruct (decide (i = j)) as [->|Hne].
  - rewrite decide_True by left. rewrite list_lookup_insert_eq by lia. by rewrite Hr; simpl; rewrite Ee.
  - rewrite list_lookup_insert_ne by done. rewrite decide_False; [done|].
    intros [?|?]%elem_of_cons; done.
Qed.

(** What a run accepts is a part of what it submits, in order. *)
Lemma wstep_accepts e (s s' : WorkerPool nat) : wstep e s = Some s' → own_event e = true →
  ∃ l, wp_accepted s' = wp_accepted s ++ l ∧ l `sublist_of` submissions [e].
Proof.
  destruct s as [n st sp q cl qu ca ws [su co pr aw ql av] ac ex pa].
  destruct e as [|job c|job c|i|i dur|i| |]; intros H Hown; try done; simpl in H.
  - unfold Submit, send in H. destruct c; simpl in H; repeat case_match; simplify_eq; simpl;
      first [ exists [job]; split; [done|]; by constructor
            | exists []; split; [by rewrite app_nil_r | by repeat constructor]].
  - unfold worker_take in H; simpl in H; repeat case_match; simplify_eq; exists []; simpl;
      (split; [by rewrite app_nil_r | constructor]).
  - unfold executeJob_end in H; simpl in H; repeat case_match; simplify_eq; exists []; simpl;
      (split; [by rewrite app_nil_r | constructor]).
  - unfold worker_quit in H; simpl in H; repeat case_match; simplify_eq; exists []; simpl;
      (split; [by rewrite app_nil_r | constructor]).
Qed.

Lemma submissions_cons e es : submissions (e :: es) = submissions [e] ++ submissions es.
Proof. unfold submissions. by destruct e. Qed.

Lemma wrun_accepts es (s s' : WorkerPool nat) : wrun es s = Some s' → forallb own_event es = true →
  ∃ l, wp_accepted s' = wp_accepted s ++ l ∧ l `sublist_of` submissions es.
Proof.
  revert s. induction es as [|e es IH]; intros s H Hown; simpl in *.
  - simplify_eq. exists []. split; [by rewrite app_nil_r | constructor].
  - apply andb_true_iff in Hown as [He Hown]. destruct (wstep e s) as [s1|] eqn:E; [|done].
    destruct (wstep_accepts e s s1 E He) as (l1 & Ha1 & Hs1).
    destruct (IH s1 H Hown) as (l2 & Ha2 & Hs2).
    exists (l1 ++ l2). rewrite Ha2, Ha1, app_assoc. split; [done|].
    rewrite submissions_cons. by apply sublist_app.
Qed.

(** Deduplication: every request is mapped to the first one with its key. *)
Lemma dedup_requests_spec reqs seen unique idx U I :
  dedup_requests reqs seen unique idx = (U, I) →
  (∀ k n, seen !! k = Some n → ∃ u, unique !! n = Some u ∧ request_key u = k) →
  unique `prefix_of` U ∧
  ∃ J, I = idx ++ J ∧ length J = length reqs ∧
    ∀ i r, reqs !! i = Some r → ∃ n u, J !! i = Some n ∧ U !! n = Some u ∧ request_key u = request_key r.
Proof.
  revert seen unique idx. induction reqs as [|r reqs IH]; intros seen unique idx H Hseen; simpl in H.
  - simplify_eq. split; [done|]. exists []. rewrite app_nil_r. done.
  - destruct (seen !! request_key r) as [n|] eqn:En.
    + destruct (IH _ _ _ H Hseen) as (Hp & J & -> & Hl & HJ). split; [done|].
      exists (n :: J). rewrite <- app_assoc. split_and!; [done | simpl; by f_equal|].
      intros [|i] r' Hr; simpl in Hr; [|by apply HJ]. simplify_eq.
      destruct (Hseen _ _ En) as (u & Hu & Hk). exists n, u. split_and!; [done| |done].
      by eapply prefix_lookup_Some.
    + assert (Hlast : (unique ++ [r]) !! length unique = Some r) by (by apply list_lookup_middle).
      destruct (IH _ _ _ H) as (Hp & J & -> & Hl & HJ).
      { intros k n. destruct (decide (k = request_key r)) as [->|Hne].
        - rewrite lookup_insert_eq. intros [= <-]. exists r. done.
        - rewrite lookup_insert_ne by done. intros Hk. destruct (Hseen _ _ Hk) as (u & Hu & Huk).
          exists u. split; [|done]. by apply lookup_app_l_Some. }
      split; [by eapply prefix_app_l|].
      exists (length unique :: J). rewrite <- app_assoc. split_and!; [done | simpl; by f_equal|].
      intros [|i] r' Hr; simpl in Hr; [|by apply HJ]. simplify_eq.
      exists (length unique), r'. split_and!; [done| |done]. by eapply prefix_lookup_Some.
Qed.

Lemma request_key_inj r1 r2 :
  colon_free (pcr_Resource r1) = true → colon_free (pcr_Resource r2) = true →
  colon_free (pcr_Action r1) = true → colon_free (pcr_Action r2) = true →
  request_key r1 = request_key r2 → r1 = r2.
Proof.
  destruct r1 as [a1 b1 c1], r2 as [a2 b2 c2]. unfold request_key. simpl. intros H1 H2 H3 H4 Hk.
  apply colon_free_split in Hk as [-> Hk]; [|done|done].
  by apply colon_free_split in Hk as [-> ->].
Qed.

(** The jobs of one call on a new pool are distinct request indices. *)
Lemma EvaluateBulk_run eval now request es n resp s' :
  EvaluateBulk eval now request es (NewWorkerPool n) = Some (resp, s') →
  bpr_Permissions request ≠ [] →
  ∃ s0, Start (NewWorkerPool n) = Some s0 ∧ wrun es s0 = Some s' ∧
    submissions es = seq 0 (length (bpr_Permissions request)) ∧ forallb own_event es = true ∧
    NoDup (wp_executed s') ∧ wp_executed s' ⊆ wp_accepted s' ∧
    wp_accepted s' `sublist_of` seq 0 (length (bpr_Permissions request)) ∧
    bps_Results resp = foldl (collect_one now)
      (replicate (length (bpr_Permissions request)) zero_result)
      (messages eval (bpr_Permissions request) (wp_executed s')).
Proof.
  unfold EvaluateBulk. generalize (bpr_Permissions request). intros reqs H Hne.
  assert (Hcase : ∀ (X : Type) (a b c : X), match reqs with [] => a | _ => b end = c → b = c)
    by (by destruct reqs).
  apply Hcase in H. clear Hcase. cbn [wstep] in H.
  set (s0 := mkWorkerPool (J:=nat) n true false [] false false false (replicate n Idle)
               (mkPoolMetrics 0 0 0 (Z.of_nat n) 0 0) [] [] 0).
  assert (H0 : Start (NewWorkerPool n) = Some s0) by done.
  rewrite H0 in H. simpl in H. fold s0 in H.
  destruct (wrun es s0) as [s1|] eqn:Er; [|done]. simpl in H.
  destruct (bool_decide_reflect (submissions es = seq 0 (length reqs))) as [Hs|]; [|done].
  destruct (forallb own_event es) eqn:Eo; [|done]. simpl in H. simplify_eq.
  exists s0. destruct (wrun_accepts _ _ _ Er Eo) as (l & Ha & Hl). simpl in Ha.
  assert (Hsub : wp_accepted s' `sublist_of` seq 0 (length reqs)) by (by rewrite Ha, <- Hs).
  assert (Hok : pool_ok s').
  { eapply pool_reachable_ok, (pool_ok_new n).
    eapply star_trans, (wrun_star _ _ _ Er).
    eapply star_snoc; [constructor | by exists EvStart]. }
  destruct Hok as [_ _ Hj _ _ _ _ _].
  assert (Hnd : NoDup (wp_accepted s')) by (eapply sublist_NoDup; [apply NoDup_seq | exact Hsub]).
  split_and!; try done.
  - rewrite Hj in Hnd. by apply NoDup_app in Hnd as [? _].
  - intros j Hin. rewrite Hj. apply elem_of_app. by left.
Qed.

(** Submissions before any worker moves fill the queue and no more. *)
Definition is_submit (e : event nat) : bool := match e with EvSubmit _ _ => true | _ => false end.

Lemma submit_burst es (s s' : WorkerPool nat) :
  forallb is_submit es = true → wp_closed s = false → wp_cancelled s = false →
  wrun es s = Some s' →
  wp_accepted s' = wp_accepted s ++ take (capacity s - length (wp_jobQueue s)) (submissions es).
Proof.
  revert s. induction es as [|e es IH]; intros s Hsub Hcl Hca H; cbn [wrun] in H.
  { simplify_eq. unfold submissions. simpl. by rewrite take_nil, app_nil_r. }
  cbn [forallb] in Hsub. apply andb_true_iff in Hsub as [He Hsub].
  destruct (wstep e s) as [s1|] eqn:E; [|done]. simpl in H. rewrite submissions_cons.
  destruct e as [|job c| | | | | |]; try done. simpl in E.
  destruct s as [n st sp q cl qu ca ws [su co pr aw ql av] ac ex pa]; simpl in *; subst.
  unfold Submit, send, sendable, capacity in *. simpl in E.
  destruct (Nat.ltb_spec (length q) (n + (n + 0))) as [Hlt|Hge]; destruct c; simpl in E; simplify_eq;
    (apply IH in H; [|done..]); rewrite H; unfold submissions at 2; simpl.
  - rewrite <- app_assoc, length_app. simpl.
    replace (n + (n + 0) - length q)%nat with (S (n + (n + 0) - (length q + 1))) by lia. done.
  - replace (n + (n + 0) - length q)%nat with 0%nat by lia. done.
Qed.

Lemma dedup_requests_in all reqs seen unique idx U I :
  dedup_requests reqs seen unique idx = (U, I) → reqs ⊆ all →
  (∀ n u, unique !! n = Some u → u ∈ all) → ∀ n u, U !! n = Some u → u ∈ all.
Proof.
  revert seen unique idx. induction reqs as [|r reqs IH]; intros seen unique idx H Hall Hu; simpl in H.
  - by simplify_eq.
  - assert (reqs ⊆ all) by set_solver. destruct (seen !! request_key r); [by eapply IH|].
    eapply IH; [exact H | done|]. intros n u Hn.
    apply lookup_app_Some in Hn as [Hn|[_ Hn]]; [by eapply Hu|].
    apply list_lookup_singleton_Some in Hn as [_ <-]. set_solver.
Qed.

(** The effect of a bulk call that answers every request. *)
Definition bulk_answers {W} (bulk : BulkPermissionRequest → M W BulkPermissionResponse)
    (f : N → PermissionCheckRequest → PermissionEvaluationResult) : Prop :=
  ∀ req w, ∃ w', bulk req w =
    (Ok (mkBulkResponse (bpr_UserID req) (f (bpr_UserID req) <$> bpr_Permissions req)), w').

(** The batch loop fills the slots from [i] on. *)
Lemma batch_loop_spec {W} (bulk : BulkPermissionRequest → M W BulkPermissionResponse) f size request :
  bulk_answers bulk f → (0 < size)%nat → ∀ fuel i all w,
  (length (bpr_Permissions request) <= i + fuel)%nat → length all = length (bpr_Permissions request) →
  ∃ w', batch_loop bulk fuel size request i all w =
    (Ok (take i all ++ drop i (f (bpr_UserID request) <$> bpr_Permissions request)), w').
Proof.
  intros Hb Hsz. set (reqs := bpr_Permissions request). set (g := f (bpr_UserID request)).
  induction fuel as [|fuel IH]; intros i all w Hf Hl; simpl.
  - exists w. rewrite take_ge, drop_ge, app_nil_r by (rewrite ?length_fmap; lia). done.
  - fold reqs. destruct (Nat.ltb_spec i (length reqs)) as [Hi|Hi].
    2:{ exists w. rewrite take_ge, drop_ge, app_nil_r by (rewrite ?length_fmap; lia). done. }
    set (m := (Nat.min (i + size) (length reqs) - i)%nat).
    destruct (Hb (mkBulkRequest (bpr_UserID request) (take m (drop i reqs))) w) as (w1 & Hw1).
    rewrite bind_wrap_err. fold reqs. fold m. rewrite Hw1. simpl. fold g.
    assert (Hlen : length (g <$> take m (drop i reqs)) = m)
      by (rewrite length_fmap, length_take, length_drop; unfold m; lia).
    set (src := g <$> take m (drop i reqs)) in *.
    assert (Hcopy : copy_at i m src all = take i all ++ src ++ drop (i + m) all).
    { unfold copy_at. by rewrite Hlen, Nat.min_id, (take_ge src m) by lia. }
    destruct (IH (i + size)%nat (copy_at i m src all) w1) as (w2 & Hw2); [lia| |].
    { rewrite Hcopy, !length_app, length_take, length_drop, Hlen. unfold m. lia. }
    exists w2. rewrite Hw2. do 2 f_equal. rewrite Hcopy.
    destruct (decide (i + size <= length reqs)%nat) as [Hle|Hgt].
    + assert (m = size) as Hm by (unfold m; lia).
      rewrite app_assoc, take_app_le by (rewrite length_app, length_take, Hlen; lia).
      rewrite take_ge by (rewrite length_app, length_take, Hlen; lia).
      rewrite <- app_assoc. f_equal. unfold src. rewrite fmap_take, fmap_drop, Hm.
      rewrite <- drop_drop. apply take_drop.
    + assert (i + m = length reqs)%nat as Hm by (unfold m; lia).
      rewrite (drop_ge all), app_nil_r by lia.
      rewrite take_ge by (rewrite length_app, length_take, Hlen; lia).
      rewrite (drop_ge _ (i + size)), app_nil_r by (rewrite length_fmap; lia).
      f_equal. unfold src. rewrite fmap_take, fmap_drop. apply take_ge.
      rewrite length_drop, length_fmap. unfold m. lia.
Qed.

(** ** Properties *)

(** The results of a bulk check.  In every run of [EvaluateBulk] on a
    new pool, the slot of a request whose job has finished holds exactly the
    evaluation of that request, and every other slot is a denial. *)
Theorem EvaluateBulk_results eval now request es n resp s' i r :
  EvaluateBulk eval now request es (NewWorkerPool n) = Some (resp, s') →
  bpr_Permissions request !! i = Some r →
  bps_Results resp !! i =
    Some (if decide (i ∈ wp_executed s') then bulk_entry now (eval r) else zero_result) ∧
  per_Allowed zero_result = false.
Proof.
  intros H Hr. split; [|done].
  apply EvaluateBulk_run in H as (s0 & _ & _ & _ & _ & Hnd & Hin & Hsub & ->); [|by intros E; rewrite E in Hr].
  rewrite collect_lookup; [|done| |by rewrite length_replicate].
  - case_decide; [by rewrite Hr|]. apply lookup_replicate. split; [done|].
    by eapply lookup_lt_Some.
  - intros j Hj. apply Hin in Hj. eapply elem_of_sublist in Hj; [|exact Hsub].
    apply elem_of_seq in Hj. lia.
Qed.

(** Large bulk requests lose answers.  [Submit] rejects a job when the
    queue is full, so when the caller submits everything before a worker gets
    to run, every request from index [2 n] on is answered with a denial that
    was never evaluated; the default pool has [n = 10] and batches of 50. *)
Theorem EvaluateBulk_burst eval now request submits rest n resp s' i :
  forallb is_submit submits = true → submissions rest = [] →
  EvaluateBulk eval now request (submits ++ rest) (NewWorkerPool n) = Some (resp, s') →
  (2 * n <= i < length (bpr_Permissions request))%nat →
  bps_Results resp !! i = Some zero_result.
Proof.
  intros Hs Hrest H Hi.
  destruct (lookup_lt_is_Some_2 (bpr_Permissions request) i) as [r Hr]; [lia|].
  destruct (EvaluateBulk_results _ _ _ _ _ _ _ _ _ H Hr) as [-> _].
  apply EvaluateBulk_run in H as (s0 & H0 & Hw & Hsub & Hown & _ & Hin & _ & _); [|by intros E; rewrite E in Hr].
  rewrite decide_False; [done|]. intros Hex. apply Hin in Hex.
  assert (Hrun : ∃ s1, wrun submits s0 = Some s1 ∧ wrun rest s1 = Some s').
  { clear -Hw. revert s0 Hw. induction submits as [|e es IH]; intros s0 Hw; simpl in *; [eauto|].
    destruct (wstep e s0) as [s1|]; [simpl in *; eauto | done]. }
  destruct Hrun as (s1 & Hw1 & Hw2).
  unfold submissions in Hsub. rewrite omap_app in Hsub. fold (submissions submits) in Hsub.
  fold (submissions rest) in Hsub. rewrite Hrest, app_nil_r in Hsub.
  injection H0 as <-. apply submit_burst in Hw1; [|done..].
  rewrite forallb_app in Hown. apply andb_true_iff in Hown as [_ Hown].
  apply wrun_accepts in Hw2 as (l & Ha & Hl); [|done]. rewrite Hrest in Hl.
  apply sublist_nil_r in Hl as ->. rewrite app_nil_r in Ha.
  rewrite Ha, Hw1, Hsub in Hex. unfold capacity in Hex. simpl in Hex.
  rewrite take_seq in Hex. apply elem_of_seq in Hex. lia.
Qed.

(** Deduplication is transparent.  For requests whose resource and action
    hold no colon, evaluating the deduplicated list and mapping the results
    back gives every request its own result, in the original order. *)
Theorem OptimizedBulkEvaluate_direct {W} (bulk : BulkPermissionRequest → M W BulkPermissionResponse)
    f request (w : W) :
  bulk_answers bulk f →
  (∀ r, r ∈ bpr_Permissions request →
     colon_free (pcr_Resource r) = true ∧ colon_free (pcr_Action r) = true) →
  (OptimizedBulkEvaluate bulk request w).1 =
  Ok (mkBulkResponse (bpr_UserID request) (f (bpr_UserID request) <$> bpr_Permissions request)).
Proof.
  intros Hb Hc. unfold OptimizedBulkEvaluate, deduplicateRequests.
  set (reqs := bpr_Permissions request) in *.
  destruct (dedup_requests reqs ∅ [] []) as [U I] eqn:Ed.
  pose proof (dedup_requests_spec reqs ∅ [] [] U I Ed) as Hd.
  destruct Hd as (_ & J & -> & Hl & HJ); [by intros k n Hk; rewrite lookup_empty in Hk|].
  assert (Hin : ∀ n u, U !! n = Some u → u ∈ reqs).
  { eapply (dedup_requests_in reqs); [exact Ed|done|]. intros n u Hn. by rewrite lookup_nil in Hn. }
  destruct (Hb (mkBulkRequest (bpr_UserID request) U) w) as (w' & Hbulk).
  unfold bind, ret. rewrite Hbulk. simpl. do 2 f_equal. apply list_eq. intros i.
  rewrite !list_lookup_fmap. destruct (reqs !! i) as [r|] eqn:Er.
  - destruct (HJ _ _ Er) as (n & u & Hn & Hu & Hk). rewrite Hn. simpl.
    rewrite list_lookup_fmap, Hu. simpl. do 2 f_equal.
    apply list_elem_of_lookup_2 in Er. apply Hin in Hu.
    destruct (Hc u Hu), (Hc r Er). by apply request_key_inj.
  - apply lookup_ge_None in Er. by rewrite (proj2 (lookup_ge_None J i)) by lia.
Qed.

(** Batching is transparent.  With a positive batch size, evaluating a
    long request in batches and copying the results into place gives the
    results of one evaluation of the whole list. *)
Theorem EvaluateBulkWithBatching_direct {W} (bulk : BulkPermissionRequest → M W BulkPermissionResponse)
    f bpe request (w : W) :
  bulk_answers bulk f → (0 < batchSize bpe)%nat →
  (EvaluateBulkWithBatching bulk bpe request w).1 =
  Ok (mkBulkResponse (bpr_UserID request) (f (bpr_UserID request) <$> bpr_Permissions request)).
Proof.
  intros Hb Hsz. unfold EvaluateBulkWithBatching.
  destruct (_ <=? _)%nat; [destruct (Hb request w) as (w' & ->); done|].
  set (n := length (bpr_Permissions request)).
  destruct (batch_loop_spec bulk f (batchSize bpe) request Hb Hsz n 0
              (replicate n zero_result) w) as (w' & Hl); [lia | by rewrite length_replicate |].
  unfold bind. rewrite Hl. simpl. by rewrite drop_0.
Qed.

(** ** Witnesses *)

Definition check_request (r a : string) : PermissionCheckRequest := mkCheckRequest r a "".
Definition three_requests : BulkPermissionRequest :=
  mkBulkRequest 7 [check_request "docs" "read"; check_request "docs" "write"; check_request "docs" "read"].
(** Reading is allowed, everything else is not. *)
Definition readers_eval (r : PermissionCheckRequest) : PermissionEvaluationResult * option error :=
  (mkEvalResult (String.eqb (pcr_Action r) "read") None "" 0, None).

Definition one_by_one : list (event nat) :=
  [EvSubmit 0%nat Sent; EvTake 0; EvFinish 0 1; EvSubmit 1%nat Sent; EvTake 0; EvSubmit 2%nat Sent;
   EvFinish 0 1; EvTake 0; EvFinish 0 1].
Example EvaluateBulk_results_witness :
  ∃ resp s', EvaluateBulk readers_eval 0 three_requests one_by_one (NewWorkerPool 1) = Some (resp, s') ∧
  bps_Results resp !! 2%nat = Some (readers_eval (check_request "docs" "read")).1.
Proof.
  eexists _, _. split; [reflexivity|].
  destruct (EvaluateBulk_results readers_eval 0 three_requests one_by_one 1 _ _ 2
              (check_request "docs" "read") eq_refl eq_refl) as [Hr _].
  exact Hr.
Defined.

(** All three at once on one worker: the third is rejected, and denied
    although reading is allowed. *)
Definition burst : list (event nat) := [EvSubmit 0%nat Sent; EvSubmit 1%nat Sent; EvSubmit 2%nat Full].
Example EvaluateBulk_burst_witness :
  ∃ resp s', EvaluateBulk readers_eval 0 three_requests (burst ++ [EvTake 0; EvFinish 0 1; EvTake 0; EvFinish 0 1])
               (NewWorkerPool 1) = Some (resp, s') ∧
  bps_Results resp !! 2%nat = Some zero_result.
Proof.
  eexists _, _. split; [reflexivity|].
  eapply (EvaluateBulk_burst readers_eval 0 three_requests burst
            [EvTake 0; EvFinish 0 1; EvTake 0; EvFinish 0 1] 1);
    [reflexivity | reflexivity | reflexivity | simpl; lia].
Defined.

Definition direct_bulk : BulkPermissionRequest → M unit BulkPermissionResponse :=
  λ req w, (Ok (mkBulkResponse (bpr_UserID req) ((λ r, (readers_eval r).1) <$> bpr_Permissions req)), w).
Lemma direct_bulk_answers : bulk_answers direct_bulk (λ _ r, (readers_eval r).1).
Proof. intros req w. by exists w. Qed.

Example OptimizedBulkEvaluate_direct_witness :
  (OptimizedBulkEvaluate direct_bulk three_requests tt).1 =
  Ok (mkBulkResponse 7 ((λ r, (readers_eval r).1) <$> bpr_Permissions three_requests)).
Proof.
  apply (OptimizedBulkEvaluate_direct direct_bulk (λ _ r, (readers_eval r).1) three_requests tt
           direct_bulk_answers).
  intros r Hr. simpl in Hr. rewrite !elem_of_cons, elem_of_nil in Hr. destruct_or! Hr; by subst.
Defined.

Example EvaluateBulkWithBatching_direct_witness :
  (EvaluateBulkWithBatching direct_bulk (mkBulkEvaluator 10 2 0) three_requests tt).1 =
  Ok (mkBulkResponse 7 ((λ r, (readers_eval r).1) <$> bpr_Permissions three_requests)).
Proof.
  apply (EvaluateBulkWithBatching_direct direct_bulk (λ _ r, (readers_eval r).1)
           (mkBulkEvaluator 10 2 0) three_requests tt direct_bulk_answers). simpl. lia.
Defined.
