(* ===== verification/AuthService.v ===== *)
(** * Authentication (src/internal/application/services/auth_service.go)

    Login, registration, password change and two-factor setup.  The service
    works on its metrics, the cache (through its rate limiter), the user and
    organization repositories and the token service, all behind interfaces,
    and records what it hands to the event publisher and the audit pool
    ([AW]).  The failures of the publisher are ignored by the code.  A nil
    dereference is a panic: the call does not return. *)

From S2P Require Import Prelude Errors Models Ifaces RateLimiter TokenService.

Record AuthMetrics := mkAuthMetrics {
  AuthenticationAttempts : Z; SuccessfulLogins : Z; FailedLogins : Z;
  RegistrationAttempts : Z; SuccessfulRegistrations : Z; PasswordChanges : Z;
  TwoFactorEnabled : Z; BruteForceBlocked : Z; RateLimitBlocked : Z }.

Record AuthRequest := mkAuthRequest {
  arq_Email : string; arq_Password : string; arq_OrganizationDomain : string;
  arq_TwoFactorCode : string; arq_SecurityContext : option SecurityContext;
  arq_RememberMe : bool }.
(** [Warnings] is never set. *)
Record AuthResponse := mkAuthResponse {
  ars_Success : bool; ars_TokenPair : option TokenPair; ars_User : option EUser;
  ars_RequiresTwoFA : bool; ars_Error : string }.
Record RegistrationRequest := mkRegistrationRequest {
  rrq_Email : string; rrq_Password : string; rrq_FirstName : string; rrq_LastName : string;
  rrq_OrganizationName : string; rrq_OrganizationDomain : string;
  rrq_SecurityContext : option SecurityContext }.
Record RegistrationResponse := mkRegistrationResponse {
  rrs_Success : bool; rrs_TokenPair : option TokenPair; rrs_User : option EUser;
  rrs_Error : string }.
Record PasswordChangeRequest := mkPasswordChangeRequest {
  pcq_UserID : N; pcq_CurrentPassword : string; pcq_NewPassword : string;
  pcq_SecurityContext : option SecurityContext }.
Record TwoFactorSetupRequest := mkTwoFactorSetupRequest { tfq_UserID : N; tfq_Enable : bool }.
Record TwoFactorSetupResponse := mkTwoFactorSetupResponse {
  tfs_Success : bool; tfs_Secret : string; tfs_QRCodeURL : string;
  tfs_BackupCodes : list string; tfs_Error : string }.

(** What the service publishes and logs. *)
Inductive AuthEvent :=
| UserLoggedIn (userID orgID : N) (email method ip agent : string)
| OrganizationCreated (orgID createdBy : N) (name domain ip agent : string)
| UserRegistered (userID orgID : N) (email first last ip agent : string)
| PasswordChanged (userID orgID changedBy : N) (ip agent : string)
| AuditLogin (userID orgID : N) (ip agent email : string) (twoFactor : bool).

(** [TokenServiceInterface]; the random values of the new pair are an
    argument. *)
Class TokenServiceInterface (T : Type) := {
  ts_GenerateTokenPair :
    Z → TokenRand → N → N → string → option SecurityContext → M T TokenPair;
  ts_RevokeAllUserTokens : Z → N → TokenType → M T unit }.

(** golang.org/x/crypto/bcrypt, github.com/pquerna/otp/totp and
    encoding/base32.  [bcrypt_Compare hash password] is a nil error;
    [totp_Generate] gives the secret and the URL. *)
Class CryptoLib := {
  bcrypt_Compare : string → string → bool;
  bcrypt_Generate : Z → string → res error string;
  totp_Validate : Z → string → string → bool;
  totp_Generate : string → res error (string * string);
  base32_Encode : string → string }.
(** A fresh hash admits its own password. *)
Class CryptoLaws `{CryptoLib} := {
  bcrypt_Compare_Generate cost p h : bcrypt_Generate cost p = Ok h → bcrypt_Compare h p = true }.

Record AW (C U O T : Type) := mkAW {
  aw_metrics : AuthMetrics; aw_cache : C; aw_users : U; aw_orgs : O; aw_tokens : T;
  aw_events : list AuthEvent }.
Arguments mkAW {C U O T}. Arguments aw_metrics {C U O T}. Arguments aw_cache {C U O T}.
Arguments aw_users {C U O T}. Arguments aw_orgs {C U O T}. Arguments aw_tokens {C U O T}.
Arguments aw_events {C U O T}.

(** ** Password hashing (specialized_worker_pools.go)

    [HashPasswordSync] submits a job to the password pool and waits.  Its
    caller sees one of four fates: the job ran, the hashing semaphore could
    not be acquired, the wait timed out, or the context ended. *)
Inductive hash_fate := Hashed | RateLimited | WaitTimedOut | ContextDone (e : error).

Section hashing.
Context `{CryptoLib}.
Definition hashCost : Z := 10.
(** The message [processHashingRequest] sends. *)
Definition processHashingRequest (acquired : bool) (password : string) : res error string :=
  if negb acquired then Err (ErrorString "hashing rate limit exceeded")
  else bcrypt_Generate hashCost password.
Definition HashPasswordSync (fate : hash_fate) (password : string) : res error string :=
  match fate with
  | Hashed => processHashingRequest true password
  | RateLimited => processHashingRequest false password
  | WaitTimedOut => Err (ErrorString "password hashing timeout after 10s")
  | ContextDone e => Err e
  end.
End hashing.

(** ** Validation *)

Definition validateAuthRequest (req : AuthRequest) : option error :=
  if String.eqb (arq_Email req) "" then Some (ErrorString "email is required")
  else if String.eqb (arq_Password req) "" then Some (ErrorString "password is required")
  else match arq_SecurityContext req with
       | None => Some (ErrorString "security context is required")
       | Some _ => None
       end.

Definition validateRegistrationRequest (req : RegistrationRequest) : option error :=
  if String.eqb (rrq_Email req) "" then Some (ErrorString "email is required")
  else if String.eqb (rrq_Password req) "" then Some (ErrorString "password is required")
  else if (str_len (rrq_Password req) <? 8)%nat
  then Some (ErrorString "password must be at least 8 characters")
  else if String.eqb (rrq_FirstName req) "" then Some (ErrorString "first name is required")
  else if String.eqb (rrq_LastName req) "" then Some (ErrorString "last name is required")
  else if String.eqb (rrq_OrganizationName req) ""
  then Some (ErrorString "organization name is required")
  else if String.eqb (rrq_OrganizationDomain req) ""
  then Some (ErrorString "organization domain is required")
  else None.

(** [modelToEntity] leaves the secrets of the user out. *)
Definition user_entity (u : User) : EUser :=
  mkEUser (u_ID u) (u_OrganizationID u) (u_Email u) "" (u_FirstName u) (u_LastName u)
    (u_IsActive u) (u_IsVerified u) (u_LastLoginAt u) (u_PasswordResetAt u)
    (u_TwoFactorEnabled u) "" [] (u_FailedLoginAttempts u) (u_LockedUntil u)
    (u_CreatedAt u) (u_UpdatedAt u) (GetFullName u) "".

(** [append(codes[:i], codes[i+1:]...)] shifts the shared backing array: the
    caller's slice keeps its length, and its last element stays. *)
Definition remove_shared (i : nat) (codes : list string) : list string :=
  take i codes ++ drop (S i) codes ++ drop (length codes - 1) codes.

(** The loop over the backup codes: the index of the first match. *)
Fixpoint find_code (code : string) (codes : list string) (i : nat) : option nat :=
  match codes with
  | [] => None
  | c :: rest => if String.eqb c code then Some i else find_code code rest (S i)
  end.

(** The answer and what the caller's slice of backup codes holds after. *)
Definition verifyTwoFactorCode `{CryptoLib} (now : Z) (secret code : string)
    (backupCodes : list string) : bool * list string :=
  if totp_Validate now code secret then (true, backupCodes)
  else match find_code code backupCodes 0 with
       | Some i => (true, remove_shared i backupCodes)
       | None => (false, backupCodes)
       end.

(** [bytes i] are the random bytes of the [i]-th code. *)
Definition generateBackupCodes `{CryptoLib} (bytes : nat → string) (count : nat) : list string :=
  (λ i, ToUpper (base32_Encode (bytes i))) <$> seq 0 count.

(** ** Operations *)

Section ops.
Context {C U O T : Type} `{CacheOps C} `{UserRepository U} `{OrganizationRepository O}.
Context `{TokenServiceInterface T} `{CryptoLib}.
(** The limiter's settings, and whether an event publisher is installed. *)
Context (rl : RateLimiter) (hasPublisher : bool).
Abbreviation W := (AW C U O T).
Abbreviation MF := (GoM (option error)).

Definition on_acache {A} (m : M C A) : M W A :=
  zoom aw_cache (λ c w, mkAW (aw_metrics w) c (aw_users w) (aw_orgs w) (aw_tokens w) (aw_events w)) m.
Definition on_users {A} (m : M U A) : M W A :=
  zoom aw_users (λ u w, mkAW (aw_metrics w) (aw_cache w) u (aw_orgs w) (aw_tokens w) (aw_events w)) m.
Definition on_orgs {A} (m : M O A) : M W A :=
  zoom aw_orgs (λ o w, mkAW (aw_metrics w) (aw_cache w) (aw_users w) o (aw_tokens w) (aw_events w)) m.
Definition on_tsvc {A} (m : M T A) : M W A :=
  zoom aw_tokens (λ t w, mkAW (aw_metrics w) (aw_cache w) (aw_users w) (aw_orgs w) t (aw_events w)) m.
Definition emit (e : AuthEvent) : MF W unit :=
  modify (λ w, mkAW (aw_metrics w) (aw_cache w) (aw_users w) (aw_orgs w) (aw_tokens w)
                 (aw_events w ++ [e])).
Definition updateAuthMetrics (f : AuthMetrics → AuthMetrics) : MF W unit :=
  modify (λ w, mkAW (f (aw_metrics w)) (aw_cache w) (aw_users w) (aw_orgs w) (aw_tokens w) (aw_events w)).

Definition incAttempts (m : AuthMetrics) : AuthMetrics :=
  let '(mkAuthMetrics a s f r sr p t b l) := m in mkAuthMetrics (wrap64 (a + 1)) s f r sr p t b l.
Definition incLogins (m : AuthMetrics) : AuthMetrics :=
  let '(mkAuthMetrics a s f r sr p t b l) := m in mkAuthMetrics a (wrap64 (s + 1)) f r sr p t b l.
Definition incFailed (m : AuthMetrics) : AuthMetrics :=
  let '(mkAuthMetrics a s f r sr p t b l) := m in mkAuthMetrics a s (wrap64 (f + 1)) r sr p t b l.
Definition incRegistrations (m : AuthMetrics) : AuthMetrics :=
  let '(mkAuthMetrics a s f r sr p t b l) := m in mkAuthMetrics a s f (wrap64 (r + 1)) sr p t b l.
Definition incRegistered (m : AuthMetrics) : AuthMetrics :=
  let '(mkAuthMetrics a s f r sr p t b l) := m in mkAuthMetrics a s f r (wrap64 (sr + 1)) p t b l.
Definition incPasswords (m : AuthMetrics) : AuthMetrics :=
  let '(mkAuthMetrics a s f r sr p t b l) := m in mkAuthMetrics a s f r sr (wrap64 (p + 1)) t b l.
Definition incTwoFactor (m : AuthMetrics) : AuthMetrics :=
  let '(mkAuthMetrics a s f r sr p t b l) := m in mkAuthMetrics a s f r sr p (wrap64 (t + 1)) b l.
Definition incBruteForce (m : AuthMetrics) : AuthMetrics :=
  let '(mkAuthMetrics a s f r sr p t b l) := m in mkAuthMetrics a s f r sr p t (wrap64 (b + 1)) l.
Definition incRateLimited (m : AuthMetrics) : AuthMetrics :=
  let '(mkAuthMetrics a s f r sr p t b l) := m in mkAuthMetrics a s f r sr p t b (wrap64 (l + 1)).

Definition auth_failure (msg : string) : AuthResponse := mkAuthResponse false None None false msg.

(** The lookup in the cache only logs; the user always comes from the
    repository. *)
Definition getUserByEmail (now : Z) (email : string) : M W User :=
  attempt (F:=error) (on_acache (cache_Get now ("user:email:" +:+ email))) ;;;
  on_users (usr_GetByEmailWithOrganization email).

Definition recordFailedAttempt (now : Z) (email ip : string) : MF W unit :=
  attemptF (on_acache (RateLimiter.RecordAttempt rl now email ip false)) ;;; ret tt.

Definition maxAttempts : Z := 5.
Definition lockDuration : Z := 15 * Minute.
Definition handleFailedLogin (now : Z) (user : User) (ip : string) : MF W unit :=
  let* r := attemptF (on_users (usr_IncrementFailedLoginAttempts (u_ID user))) in
  match r with
  | Err _ => ret tt
  | Ok _ =>
      (if (maxAttempts <=? wrap64 (u_FailedLoginAttempts user + 1))%Z then
         attemptF (on_users (usr_LockUser now (u_ID user) (now + lockDuration))) ;;; ret tt
       else ret tt) ;;;
      recordFailedAttempt now (u_Email user) ip
  end.

Definition publishLoginEvent (user : User) (sec : SecurityContext) : MF W unit :=
  if negb hasPublisher then ret tt
  else emit (UserLoggedIn (u_ID user) (u_OrganizationID user) (u_Email user) "password"
               (sc_IPAddress sec) (sc_UserAgent sec)).

(** [Authenticate] once the password and the second factor are accepted. *)
Definition completeLogin (now : Z) (rnd : TokenRand) (user : User) (sec : SecurityContext)
    : MF W AuthResponse :=
  attemptF (on_users (usr_ResetFailedLoginAttempts now (u_ID user))) ;;;
  attemptF (on_users (usr_UpdateLastLogin now (u_ID user) now)) ;;;
  let* generated := attemptF (on_tsvc (ts_GenerateTokenPair now rnd (u_ID user) (u_OrganizationID user)
                                    (u_Email user) (Some sec))) in
  match generated with
  | Err _ => ret (auth_failure "failed to generate authentication tokens")
  | Ok tokenPair =>
      let userEntity := user_entity user in
      publishLoginEvent user sec ;;;
      emit (AuditLogin (u_ID user) (u_OrganizationID user) (sc_IPAddress sec) (sc_UserAgent sec)
              (u_Email user) (u_TwoFactorEnabled user)) ;;;
      updateAuthMetrics incLogins ;;;
      ret (mkAuthResponse true (Some tokenPair) (Some userEntity) false "")
  end.

(** [Authenticate] from the found user on. *)
Definition checkCredentials (now : Z) (rnd : TokenRand) (req : AuthRequest) (sec : SecurityContext)
    (user : User) : MF W AuthResponse :=
  if IsLocked user now then
    updateAuthMetrics incBruteForce ;;;
    ret (auth_failure "account is temporarily locked due to multiple failed login attempts")
  else if negb (bcrypt_Compare (u_PasswordHash user) (arq_Password req)) then
    handleFailedLogin now user (sc_IPAddress sec) ;;;
    updateAuthMetrics incFailed ;;;
    ret (auth_failure "invalid credentials")
  else if u_TwoFactorEnabled user then
    if String.eqb (arq_TwoFactorCode req) "" then
      ret (mkAuthResponse false None None true "two-factor authentication code required")
    else if negb (verifyTwoFactorCode now (u_TwoFactorSecret user) (arq_TwoFactorCode req)
                    (u_BackupCodes user)).1 then
      handleFailedLogin now user (sc_IPAddress sec) ;;;
      updateAuthMetrics incFailed ;;;
      ret (auth_failure "invalid two-factor authentication code")
    else completeLogin now rnd user sec
  else completeLogin now rnd user sec.

(** [Authenticate] once the limiter let the attempt through. *)
Definition authenticateAllowed (now : Z) (rnd : TokenRand) (req : AuthRequest) (sec : SecurityContext)
    : MF W AuthResponse :=
  let* found := attemptF (getUserByEmail now (arq_Email req)) in
  match found with
  | Err _ =>
      recordFailedAttempt now (arq_Email req) (sc_IPAddress sec) ;;;
      updateAuthMetrics incFailed ;;;
      ret (auth_failure "invalid credentials")
  | Ok user => checkCredentials now rnd req sec user
  end.

Definition Authenticate (now : Z) (rnd : TokenRand) (req : AuthRequest) : MF W AuthResponse :=
  updateAuthMetrics incAttempts ;;;
  match validateAuthRequest req, arq_SecurityContext req with
  | Some err, _ => ret (auth_failure ("invalid request: " +:+ Error err))
  | None, None => panics
  | None, Some sec =>
      let* blocked := attemptF (on_acache (IsBlocked rl now (arq_Email req) (sc_IPAddress sec))) in
      match blocked with
      | Ok true =>
          updateAuthMetrics incRateLimited ;;;
          ret (auth_failure "too many authentication attempts, please try again later")
      | _ => authenticateAllowed now rnd req sec
      end
  end.

(** ** Registration *)

Definition exists_unless_not_found {A} (r : res error A) : res error bool :=
  match r with
  | Ok _ => Ok true
  | Err err => if Contains (Error err) "not found" then Ok false else Err err
  end.
Definition organizationDomainExists (domain : string) : M W bool :=
  let* r := attempt (on_orgs (org_GetByDomain domain)) in lift_res (exists_unless_not_found r).
Definition userEmailExists (email : string) : M W bool :=
  let* r := attempt (on_users (usr_GetByEmail email)) in lift_res (exists_unless_not_found r).

Definition default_settings : Settings :=
  mkSettings "UTC" "YYYY-MM-DD" "USD" "en" false 3600 ∅.
Definition new_organization (orgID : N) (now : Z) (req : RegistrationRequest) : Organization :=
  mkOrganization orgID (rrq_OrganizationName req) (rrq_OrganizationDomain req) default_settings
    false now now.
Definition new_user (userID orgID : N) (now : Z) (req : RegistrationRequest) (hash : string) : User :=
  mkUser userID orgID (rrq_Email req) hash (rrq_FirstName req) (rrq_LastName req) true false
    None None false "" [] 0 None now now "" "".

(** Two inserts, no transaction; the ids are fresh. *)
Definition createUserWithOrganization (now : Z) (orgID userID : N) (req : RegistrationRequest)
    (passwordHash : string) : M W (User * Organization) :=
  let org := new_organization orgID now req in
  wrap_err (ErrorWrap "failed to create organization") (on_orgs (org_Create org)) ;;;
  let user := new_user userID (o_ID org) now req passwordHash in
  wrap_err (ErrorWrap "failed to create user") (on_users (usr_Create user)) ;;;
  ret (user, org).

(** [securityCtx] is dereferenced without a check. *)
Definition publishRegistrationEvents (user : User) (org : Organization)
    (sec : option SecurityContext) : MF W unit :=
  if negb hasPublisher then ret tt
  else match sec with
  | None => panics
  | Some s =>
      emit (OrganizationCreated (o_ID org) (u_ID user) (o_Name org) (o_Domain org)
              (sc_IPAddress s) (sc_UserAgent s)) ;;;
      emit (UserRegistered (u_ID user) (u_OrganizationID user) (u_Email user) (u_FirstName user)
              (u_LastName user) (sc_IPAddress s) (sc_UserAgent s))
  end.

Definition registration_failure (msg : string) : RegistrationResponse :=
  mkRegistrationResponse false None None msg.

(** [Register] once the domain and the email are known to be free. *)
Definition createAccount (now : Z) (rnd : TokenRand) (orgID userID : N) (fate : hash_fate)
    (req : RegistrationRequest) : MF W RegistrationResponse :=
  match HashPasswordSync fate (rrq_Password req) with
  | Err _ => ret (registration_failure "failed to process password")
  | Ok hashedPassword =>
      let* created := attemptF (createUserWithOrganization now orgID userID req hashedPassword) in
      match created with
      | Err _ => ret (registration_failure "failed to create account")
      | Ok (user, org) =>
          let* generated := attemptF (on_tsvc (ts_GenerateTokenPair now rnd (u_ID user)
                         (u_OrganizationID user) (u_Email user) (rrq_SecurityContext req))) in
          match generated with
          | Err _ => ret (registration_failure "failed to generate authentication tokens")
          | Ok tokenPair =>
              let userEntity := user_entity user in
              publishRegistrationEvents user org (rrq_SecurityContext req) ;;;
              updateAuthMetrics incRegistered ;;;
              ret (mkRegistrationResponse true (Some tokenPair) (Some userEntity) "")
          end
      end
  end.

Definition Register (now : Z) (rnd : TokenRand) (orgID userID : N) (fate : hash_fate)
    (req : RegistrationRequest) : MF W RegistrationResponse :=
  updateAuthMetrics incRegistrations ;;;
  match validateRegistrationRequest req with
  | Some err => ret (registration_failure ("invalid request: " +:+ Error err))
  | None =>
      let* domain := attemptF (organizationDomainExists (rrq_OrganizationDomain req)) in
      match domain with
      | Err _ => ret (registration_failure "internal server error")
      | Ok true => ret (registration_failure "organization domain already exists")
      | Ok false =>
          let* email := attemptF (userEmailExists (rrq_Email req)) in
          match email with
          | Err _ => ret (registration_failure "internal server error")
          | Ok true => ret (registration_failure "user email already exists")
          | Ok false => createAccount now rnd orgID userID fate req
          end
      end
  end.

(** ** Password change and two-factor setup *)

Definition publishPasswordChangeEvent (user : User) (sec : option SecurityContext) : MF W unit :=
  if negb hasPublisher then ret tt
  else match sec with
  | None => panics
  | Some s => emit (PasswordChanged (u_ID user) (u_OrganizationID user) (u_ID user)
                      (sc_IPAddress s) (sc_UserAgent s))
  end.

Definition ChangePassword (now : Z) (fate : hash_fate) (req : PasswordChangeRequest) : MF W unit :=
  let* user := liftF (wrap_err (ErrorWrap "user not found") (on_users (usr_GetByID (pcq_UserID req)))) in
  if negb (bcrypt_Compare (u_PasswordHash user) (pcq_CurrentPassword req)) then
    fail (Some (ErrorString "current password is incorrect"))
  else
    let* hashedPassword := liftF (wrap_err (ErrorWrap "failed to hash new password")
                             (lift_res (HashPasswordSync fate (pcq_NewPassword req)))) in
    let user' := set_Password hashedPassword now user in
    liftF (wrap_err (ErrorWrap "failed to update password") (on_users (usr_Update now user'))) ;;;
    attemptF (on_tsvc (ts_RevokeAllUserTokens now (pcq_UserID req) AccessToken)) ;;;
    attemptF (on_tsvc (ts_RevokeAllUserTokens now (pcq_UserID req) RefreshToken)) ;;;
    publishPasswordChangeEvent user' (pcq_SecurityContext req) ;;;
    updateAuthMetrics incPasswords.

Definition two_factor_failure (msg : string) : TwoFactorSetupResponse :=
  mkTwoFactorSetupResponse false "" "" [] msg.

Definition SetupTwoFactor (now : Z) (bytes : nat → string) (req : TwoFactorSetupRequest)
    : MF W TwoFactorSetupResponse :=
  let* found := attemptF (on_users (usr_GetByID (tfq_UserID req))) in
  match found with
  | Err _ => ret (two_factor_failure "user not found")
  | Ok user =>
      if tfq_Enable req then
        match totp_Generate (u_Email user) with
        | Err _ => ret (two_factor_failure "failed to generate 2FA secret")
        | Ok (secret, url) =>
            let backupCodes := generateBackupCodes bytes 10 in
            let* r := attemptF (on_users (usr_Update now (set_TwoFactor true secret backupCodes user))) in
            match r with
            | Err _ => ret (two_factor_failure "failed to enable 2FA")
            | Ok _ =>
                updateAuthMetrics incTwoFactor ;;;
                ret (mkTwoFactorSetupResponse true secret url backupCodes "")
            end
        end
      else
        let* r := attemptF (on_users (usr_Update now (set_TwoFactor false "" [] user))) in
        match r with
        | Err _ => ret (two_factor_failure "failed to disable 2FA")
        | Ok _ => ret (mkTwoFactorSetupResponse true "" "" [] "")
        end
  end.
End ops.

(** ** Lemmas *)

Lemma find_code_some code codes i n : find_code code codes i = Some n → code ∈ codes.
Proof.
  revert i. induction codes as [|c codes IH]; intros i; simpl; [done|].
  destruct (String.eqb_spec c code) as [->|]; [intros _; by left | intros H; right; eauto].
Qed.

Lemma find_code_in code codes i : code ∈ codes → is_Some (find_code code codes i).
Proof.
  revert i. induction codes as [|c codes IH]; intros i Hin; simpl; [by apply elem_of_nil in Hin|].
  destruct (String.eqb_spec c code) as [|Hne]; [eauto|].
  apply elem_of_cons in Hin as [->|Hin]; [done | by apply IH].
Qed.

Lemma verifyTwoFactorCode_spec `{CryptoLib} now secret code codes :
  (verifyTwoFactorCode now secret code codes).1 = true ↔
  totp_Validate now code secret = true ∨ code ∈ codes.
Proof.
  unfold verifyTwoFactorCode. destruct (totp_Validate now code secret); simpl; [naive_solver|].
  destruct (find_code code codes 0) as [n|] eqn:E; simpl.
  - apply find_code_some in E. naive_solver.
  - split; [done|]. intros [?|Hin]; [done|]. apply (find_code_in _ _ 0) in Hin as [n Hn]. congruence.
Qed.

Section lemmas.
Context {C U O T : Type} `{CacheOps C} `{UserRepositoryLaws U} `{OrganizationRepository O}.
Context `{TokenServiceInterface T} `{CryptoLib}.
Context (rl : RateLimiter) (hasPublisher : bool).
Abbreviation W := (AW C U O T).

(** The user store is untouched, except for what the login itself writes. *)
Definition users_are (us : U) (w : W) : Prop := aw_users w = us.

Lemma on_acache_users us {A} (m : M C A) : preserves (users_are us) (on_acache m).
Proof. intros w Hw. unfold on_acache. by rewrite zoom_eq. Qed.
Lemma on_tsvc_users us {A} (m : M T A) : preserves (users_are us) (on_tsvc m).
Proof. intros w Hw. unfold on_tsvc. by rewrite zoom_eq. Qed.

(** What a login stores about a user keeps the credentials. *)
Definition same_credentials (u u' : User) : Prop :=
  u_ID u' = u_ID u ∧ u_Email u' = u_Email u ∧ u_PasswordHash u' = u_PasswordHash u ∧
  u_TwoFactorEnabled u' = u_TwoFactorEnabled u ∧ u_TwoFactorSecret u' = u_TwoFactorSecret u ∧
  u_BackupCodes u' = u_BackupCodes u.
Definition credentials_kept (i : N) (u : User) (w : W) : Prop :=
  ∃ u', uview (aw_users w) i = Some u' ∧ same_credentials u u'.

Lemma kept_view i u (w w' : W) : uview (aw_users w') i = uview (aw_users w) i →
  credentials_kept i u w → credentials_kept i u w'.
Proof. intros He (u' & Hu & Hs). exists u'. by rewrite He. Qed.

Lemma reset_keeps_credentials i u now :
  preserves (credentials_kept i u) (on_users (C:=C) (O:=O) (T:=T) (usr_ResetFailedLoginAttempts now i)).
Proof.
  intros w (u' & Hu & Hs). unfold on_users. rewrite zoom_eq.
  destruct (usr_ResetFailedLoginAttempts now i (aw_users w)) as [[[]|e] d'] eqn:E.
  - apply usr_Reset_ok in E as [E _]. eexists. simpl. rewrite E, Hu. split; [done|]. by destruct u'.
  - exists u'. simpl. by rewrite (usr_Reset_err _ _ _ _ _ E).
Qed.

Lemma last_login_keeps_credentials i u now t :
  preserves (credentials_kept i u) (on_users (C:=C) (O:=O) (T:=T) (usr_UpdateLastLogin now i t)).
Proof.
  intros w (u' & Hu & Hs). unfold on_users. rewrite zoom_eq.
  destruct (usr_UpdateLastLogin now i t (aw_users w)) as [[[]|e] d'] eqn:E.
  - apply usr_UpdateLastLogin_ok in E as [E _]. eexists. simpl. rewrite E, Hu.
    split; [done|]. by destruct u'.
  - exists u'. simpl. by rewrite (usr_UpdateLastLogin_err _ _ _ _ _ _ E).
Qed.

Lemma completeLogin_keeps now rnd u sec :
  preserves (credentials_kept (u_ID u) u) (completeLogin (C:=C) (U:=U) (O:=O) (T:=T) hasPublisher now rnd u sec).
Proof.
  unfold completeLogin, publishLoginEvent, emit, updateAuthMetrics. preserve;
    try apply reset_keeps_credentials; try apply last_login_keeps_credentials;
    intros w Hw; unfold on_tsvc; rewrite ?zoom_eq; (eapply kept_view; [|exact Hw]); done.
Qed.

(** A response of [completeLogin]. *)
Lemma completeLogin_ok now rnd u sec (w : W) : ∃ resp,
  (completeLogin hasPublisher now rnd u sec w).1 = Ok resp ∧
  (ars_Success resp = true ∧ ars_Error resp = "" ∧
     (∃ p t t', ts_GenerateTokenPair now rnd (u_ID u) (u_OrganizationID u) (u_Email u) (Some sec) t
                  = (Ok p, t') ∧ ars_TokenPair resp = Some p) ∨
   ars_Success resp = false ∧ ars_Error resp ≠ "" ∧ ars_TokenPair resp = None).
Proof.
  unfold completeLogin, on_users, on_tsvc. rewrite !bind_attemptF, !zoom_eq. simpl.
  match goal with |- context [ts_GenerateTokenPair _ _ _ _ _ _ ?t] => set (t0 := t) end.
  destruct (ts_GenerateTokenPair _ _ _ _ _ _ t0) as [[p|e] t'] eqn:E; simpl.
  - unfold publishLoginEvent, emit, updateAuthMetrics. destruct hasPublisher; simpl;
      (eexists; split; [done|]; left; split_and!; [done|done|eauto]).
  - eexists; split; [done|]; right. done.
Qed.

(** The second factor of a login. *)
Definition second_factor_ok (now : Z) (req : AuthRequest) (u : User) : Prop :=
  u_TwoFactorEnabled u = true →
  arq_TwoFactorCode req ≠ "" ∧
  (totp_Validate now (arq_TwoFactorCode req) (u_TwoFactorSecret u) = true ∨
   arq_TwoFactorCode req ∈ u_BackupCodes u).

Lemma recordFailedAttempt_returns now email ip (w : W) :
  (recordFailedAttempt rl now email ip w).1 = Ok tt.
Proof. unfold recordFailedAttempt. by rewrite bind_attemptF. Qed.

Lemma handleFailedLogin_returns now u ip (w : W) : (handleFailedLogin rl now u ip w).1 = Ok tt.
Proof.
  unfold handleFailedLogin. rewrite bind_attemptF.
  destruct (on_users _ w) as [[x|e] w1]; simpl; [|done].
  destruct (_ <=? _)%Z; [|apply recordFailedAttempt_returns].
  rewrite bind_assoc, bind_attemptF. apply recordFailedAttempt_returns.
Qed.

(** Every outcome of the checks after the user is found. *)
Lemma checkCredentials_cases now rnd req sec u (w : W) :
  (∃ resp, (checkCredentials rl hasPublisher now rnd req sec u w).1 = Ok resp ∧
     ars_Success resp = false ∧ ars_Error resp ≠ "" ∧ ars_TokenPair resp = None) ∨
  (IsLocked u now = false ∧ bcrypt_Compare (u_PasswordHash u) (arq_Password req) = true ∧
   second_factor_ok now req u ∧
   checkCredentials rl hasPublisher now rnd req sec u w = completeLogin hasPublisher now rnd u sec w).
Proof.
  unfold checkCredentials.
  destruct (IsLocked u now); [left; eexists; split; [done|]; by split_and!|].
  destruct (bcrypt_Compare _ _); simpl.
  2:{ left. exists (auth_failure "invalid credentials"). split; [|done].
      unfold bind at 1. pose proof (handleFailedLogin_returns now u (sc_IPAddress sec) w) as Hh.
      destruct (handleFailedLogin _ _ _ _ w) as [r w1]. simpl in Hh. by subst r. }
  unfold second_factor_ok. destruct (u_TwoFactorEnabled u); [|right; by split_and!].
  destruct (String.eqb_spec (arq_TwoFactorCode req) "") as [Hc|Hc].
  { left. eexists. split; [done|]. by split_and!. }
  destruct (verifyTwoFactorCode _ _ _ _).1 eqn:Ev; simpl.
  - apply verifyTwoFactorCode_spec in Ev. right. by split_and!.
  - left. exists (auth_failure "invalid two-factor authentication code"). split; [|done].
    unfold bind at 1. pose proof (handleFailedLogin_returns now u (sc_IPAddress sec) w) as Hh.
    destruct (handleFailedLogin _ _ _ _ w) as [r w1]. simpl in Hh. by subst r.
Qed.

(** Every outcome of a login. *)
Lemma Authenticate_cases now rnd req (w : W) :
  (∃ resp, (Authenticate rl hasPublisher now rnd req w).1 = Ok resp ∧
     ars_Success resp = false ∧ ars_Error resp ≠ "" ∧ ars_TokenPair resp = None) ∨
  (∃ sec u w1, arq_SecurityContext req = Some sec ∧
     (IsBlocked rl now (arq_Email req) (sc_IPAddress sec) (aw_cache w)).1 ≠ Ok true ∧
     usr_GetByEmailWithOrganization (arq_Email req) (aw_users w) = (Ok u, aw_users w1) ∧
     IsLocked u now = false ∧ bcrypt_Compare (u_PasswordHash u) (arq_Password req) = true ∧
     second_factor_ok now req u ∧
     Authenticate rl hasPublisher now rnd req w = completeLogin hasPublisher now rnd u sec w1).
Proof.
  remember (Authenticate rl hasPublisher now rnd req w) as out eqn:Ho.
  unfold Authenticate, updateAuthMetrics at 1 in Ho. rewrite bind_modify in Ho.
  set (w0 := mkAW _ _ _ _ _ _) in Ho.
  destruct (validateAuthRequest req) as [err|] eqn:Ev.
  { left. exists (auth_failure ("invalid request: " +:+ Error err)). by subst out. }
  destruct (arq_SecurityContext req) as [sec|] eqn:Es.
  2:{ unfold validateAuthRequest in Ev. rewrite Es in Ev. by repeat case_match. }
  rewrite bind_attemptF in Ho. unfold on_acache in Ho. rewrite zoom_eq in Ho. cbn [fst snd] in Ho.
  change (aw_cache w0) with (aw_cache w) in Ho.
  set (b := (IsBlocked rl now (arq_Email req) (sc_IPAddress sec) (aw_cache w)).1) in *.
  assert (b = Ok true ∨ b ≠ Ok true) as [Eb|Eb] by (clear; destruct b as [[]|]; auto).
  { rewrite Eb in Ho. left.
    exists (auth_failure "too many authentication attempts, please try again later"). by subst out. }
  match type of Ho with _ = _ ?x =>
    assert (Ho' : out = authenticateAllowed rl hasPublisher now rnd req sec x)
      by (rewrite Ho; clear -Eb; by destruct b as [[]|]) end.
  clear Ho. unfold authenticateAllowed in Ho'. rewrite bind_attemptF in Ho'.
  unfold getUserByEmail, on_users in Ho'.
  rewrite !bind_attempt, !zoom_eq in Ho'. cbn [fst snd] in Ho'.
  unfold on_acache in Ho'. rewrite !zoom_eq in Ho'. cbn [fst snd aw_users] in Ho'.
  change (aw_users w0) with (aw_users w) in Ho'.
  destruct (usr_GetByEmailWithOrganization (arq_Email req) (aw_users w)) as [[u|e'] d1] eqn:Eu;
    cbn [fst snd] in Ho'.
  2:{ left. exists (auth_failure "invalid credentials"). split; [|done]. rewrite Ho'. cbv beta iota.
      unfold recordFailedAttempt. by rewrite bind_assoc, bind_attemptF. }
  match type of Ho' with context [checkCredentials _ _ _ _ _ _ _ ?x] => set (w1 := x) in Ho' end.
  destruct (checkCredentials_cases now rnd req sec u w1) as [Hf|(Hl & Hp & Hsf & Hrun)].
  - left. by rewrite Ho'.
  - right. exists sec, u, w1. split_and!; try done. by rewrite Ho'.
Qed.
End lemmas.

(** Emails identify rows, as the unique index of the table enforces. *)
Definition emails_unique {U} `{UserRepositoryLaws U} (d : U) : Prop :=
  ∀ i j u v, uview d i = Some u → uview d j = Some v → u_Email u = u_Email v → i = j.

Section lockout.
Context {C U O T : Type} `{CacheOps C} `{UserRepositoryLaws U} `{OrganizationRepository O}.
Context `{TokenServiceInterface T} `{CryptoLib}.
Context (rl : RateLimiter) (hasPublisher : bool).
Abbreviation W := (AW C U O T).

Definition user_writes_up : Prop := ∀ (d : U) now i t,
  is_ok (usr_IncrementFailedLoginAttempts i d).1 = true ∧ is_ok (usr_LockUser now i t d).1 = true.

(** The failure that reaches the limit locks the row. *)
Lemma handleFailedLogin_locks now u ip (w : W) :
  user_writes_up → uview (aw_users w) (u_ID u) = Some u →
  maxAttempts - 1 ≤ u_FailedLoginAttempts u < max_int →
  let w' := (handleFailedLogin rl now u ip w).2 in
  (∃ u', uview (aw_users w') (u_ID u) = Some u' ∧ u_Email u' = u_Email u ∧
         u_LockedUntil u' = Some (now + lockDuration)) ∧
  (∀ j, j ≠ u_ID u → uview (aw_users w') j = uview (aw_users w) j).
Proof.
  intros Hup Hu Hn.
  destruct (Hup (aw_users w) now (u_ID u) (now + lockDuration)) as [Hi _].
  destruct (usr_IncrementFailedLoginAttempts (u_ID u) (aw_users w)) as [[[]|e] d1] eqn:E1; [|done].
  destruct (Hup d1 now (u_ID u) (now + lockDuration)) as [_ Hl].
  destruct (usr_LockUser now (u_ID u) (now + lockDuration) d1) as [[[]|e] d2] eqn:E2; [|done].
  assert (Hrun : aw_users (handleFailedLogin rl now u ip w).2 = d2).
  { unfold handleFailedLogin. rewrite bind_attemptF. unfold on_users at 1 2.
    rewrite !zoom_eq, E1. cbn [fst snd].
    rewrite wrap64_small by (unfold maxAttempts, min_int in *; lia).
    replace (maxAttempts <=? u_FailedLoginAttempts u + 1)%Z with true
      by (symmetry; apply Z.leb_le; lia).
    rewrite bind_assoc, bind_attemptF. unfold on_users. rewrite !zoom_eq. cbn [fst snd aw_users].
    rewrite E1. cbn [fst snd]. rewrite E2. unfold recordFailedAttempt. rewrite bind_ret_l, bind_attemptF.
    unfold on_acache. by rewrite zoom_eq. }
  cbv zeta. rewrite Hrun.
  apply usr_Increment_ok in E1 as [E1 E1']. apply usr_LockUser_ok in E2 as [E2 E2'].
  rewrite E1, Hu in E2. split; [eexists; split; [exact E2|]; by destruct u|].
  intros k Hk. by rewrite E2', E1'.
Qed.
End lockout.

(** The row of a locked user refuses every login until the lock ends. *)
Section refused.
Context {C U O T : Type} `{CacheOps C} `{UserRepositoryLaws U} `{OrganizationRepository O}.
Context `{TokenServiceInterface T} `{CryptoLib}.
Context (rl : RateLimiter) (hasPublisher : bool).
Abbreviation W := (AW C U O T).

Lemma locked_row_refuses now rnd req (w : W) resp w' i u t :
  (∀ j v, uview (aw_users w) j = Some v → u_Email v = arq_Email req → j = i) →
  uview (aw_users w) i = Some u → u_LockedUntil u = Some t → now < t →
  Authenticate rl hasPublisher now rnd req w = (Ok resp, w') → ars_Success resp = false.
Proof.
  intros Huniq Hu Ht Hn Ha.
  destruct (Authenticate_cases rl hasPublisher now rnd req w)
    as [(r & Hr & Hs & _)|(sec & v & w1 & _ & _ & Hg & Hl & _)].
  - rewrite Ha in Hr. by injection Hr as ->.
  - apply usr_GetByEmail_ok in Hg as (Hv & He & _ & _).
    pose proof (Huniq _ _ Hv He) as Hi. rewrite Hi, Hu in Hv. injection Hv as <-.
    unfold IsLocked, After in Hl. rewrite Ht in Hl. apply Z.ltb_ge in Hl. lia.
Qed.
End refused.

Section forward.
Context {C U O T : Type} `{CacheOps C} `{UserRepository U} `{OrganizationRepository O}.
Context `{TokenServiceInterface T} `{CryptoLib}.
Context (rl : RateLimiter) (hasPublisher : bool).
Abbreviation W := (AW C U O T).

(** A well-formed login that is not blocked and finds its user is decided by
    [checkCredentials]. *)
Lemma Authenticate_finds now rnd req sec u (w : W) :
  arq_Email req ≠ "" → arq_Password req ≠ "" → arq_SecurityContext req = Some sec →
  (IsBlocked rl now (arq_Email req) (sc_IPAddress sec) (aw_cache w)).1 ≠ Ok true →
  (usr_GetByEmailWithOrganization (arq_Email req) (aw_users w)).1 = Ok u →
  ∃ w1, Authenticate rl hasPublisher now rnd req w
        = checkCredentials rl hasPublisher now rnd req sec u w1.
Proof.
  intros He Hp Hs Hb Hg. unfold Authenticate, updateAuthMetrics at 1. rewrite bind_modify.
  unfold validateAuthRequest. rewrite Hs.
  destruct (String.eqb_spec (arq_Email req) ""); [done|].
  destruct (String.eqb_spec (arq_Password req) ""); [done|].
  rewrite bind_attemptF. unfold on_acache at 1 2. rewrite !zoom_eq. cbn [fst snd aw_cache].
  set (b := (IsBlocked _ _ _ _ _).1) in *. set (w1 := mkAW _ _ _ _ _ _).
  assert (Hu : aw_users w1 = aw_users w) by done. clearbody b w1.
  assert (∀ {A} (x y : A), match b with Ok true => x | _ => y end = y) as -> by
    (intros; by destruct b as [[]|]).
  unfold authenticateAllowed. rewrite bind_attemptF.
  unfold getUserByEmail, on_users, on_acache. rewrite bind_attempt, !zoom_eq.
  cbn [fst snd aw_users]. rewrite Hu, Hg. by eexists.
Qed.

(** A user without second factor whose password is right gets the tokens. *)
Lemma checkCredentials_accepts now rnd req sec u (w : W) :
  IsLocked u now = false → bcrypt_Compare (u_PasswordHash u) (arq_Password req) = true →
  u_TwoFactorEnabled u = false →
  (∀ t, is_ok (ts_GenerateTokenPair now rnd (u_ID u) (u_OrganizationID u) (u_Email u) (Some sec) t).1
        = true) →
  ∃ resp, (checkCredentials rl hasPublisher now rnd req sec u w).1 = Ok resp ∧
          ars_Success resp = true.
Proof.
  intros Hl Hp H2f Ht. unfold checkCredentials. rewrite Hl, Hp, H2f. simpl.
  unfold completeLogin, on_users, on_tsvc. rewrite !bind_attemptF, !zoom_eq. cbn [fst snd].
  match goal with |- context [ts_GenerateTokenPair _ _ _ _ _ _ ?t] => specialize (Ht t); set (t0 := t) in * end.
  destruct (ts_GenerateTokenPair _ _ _ _ _ _ t0) as [[p|e] t']; [|done]. cbn [fst snd].
  unfold publishLoginEvent, emit, updateAuthMetrics. by destruct hasPublisher; eexists.
Qed.
End forward.

(** ** Registration *)
Section registration.
Context {C U O T : Type} `{CacheOps C} `{UserRepositoryLaws U} `{OrganizationRepositoryLaws O}.
Context `{TokenServiceInterface T} `{CryptoLib}.
Context (hasPublisher : bool).
Abbreviation W := (AW C U O T).

(** The two inserts, one after the other. *)
Lemma createUser_inv now orgID userID req h (w w' : W) r :
  createUserWithOrganization now orgID userID req h w = (r, w') →
  (∃ e d, r = Err e ∧ org_Create (new_organization orgID now req) (aw_orgs w) = (Err d, aw_orgs w') ∧
     aw_users w' = aw_users w) ∨
  (org_Create (new_organization orgID now req) (aw_orgs w) = (Ok tt, aw_orgs w') ∧
   (∃ e d, r = Err e ∧
      usr_Create (new_user userID orgID now req h) (aw_users w) = (Err d, aw_users w')) ∨
   org_Create (new_organization orgID now req) (aw_orgs w) = (Ok tt, aw_orgs w') ∧
    usr_Create (new_user userID orgID now req h) (aw_users w) = (Ok tt, aw_users w') ∧
    r = Ok (new_user userID orgID now req h, new_organization orgID now req)).
Proof.
  unfold createUserWithOrganization, on_orgs, on_users. rewrite bind_wrap_err, zoom_eq.
  destruct (org_Create _ _) as [[[]|e] d1] eqn:E1; cbn [fst snd].
  - rewrite bind_wrap_err, zoom_eq. cbn [fst snd aw_users].
    change (o_ID (new_organization orgID now req)) with orgID.
    destruct (usr_Create _ _) as [[[]|e] d2] eqn:E2; cbn [fst snd]; intros [= <- <-]; simpl.
    + right. by right.
    + right. left. split; [done|]. by eexists _, _.
  - intros [= <- <-]. left. by eexists _, _.
Qed.

Lemma exists_check_ok {A} (r : res error A) b : exists_unless_not_found r = Ok b → b = is_ok r.
Proof. destruct r; simpl; [by intros [= <-]|]. by destruct (Contains _ _); intros [= <-]. Qed.

(** Every outcome of a registration: refused or failed without tokens, or
    [createAccount] ran to its end. *)
Lemma Register_reaches now rnd orgID userID fate req (w w' : W) resp :
  Register hasPublisher now rnd orgID userID fate req w = (Ok resp, w') →
  rrs_Success resp = true →
  validateRegistrationRequest req = None ∧
  ∃ w1, createAccount hasPublisher now rnd orgID userID fate req w1 = (Ok resp, w').
Proof.
  intros Hr Hs. unfold Register, updateAuthMetrics in Hr. rewrite bind_modify in Hr.
  destruct (validateRegistrationRequest req) as [e|]; [by injection Hr as <-|]. split; [done|].
  rewrite bind_attemptF in Hr.
  destruct (organizationDomainExists _ _) as [[[]|e] w1]; cbn [fst snd] in Hr;
    [by injection Hr as <- | | by injection Hr as <-].
  rewrite bind_attemptF in Hr.
  destruct (userEmailExists _ _) as [[[]|e] w2]; cbn [fst snd] in Hr;
    [by injection Hr as <- | | by injection Hr as <-].
  by exists w2.
Qed.

Lemma createAccount_success now rnd orgID userID fate req (w w' : W) resp :
  createAccount hasPublisher now rnd orgID userID fate req w = (Ok resp, w') →
  rrs_Success resp = true →
  ∃ h (w1 : W), HashPasswordSync fate (rrq_Password req) = Ok h ∧
    usr_Create (new_user userID orgID now req h) (aw_users w) = (Ok tt, aw_users w1) ∧
    org_Create (new_organization orgID now req) (aw_orgs w) = (Ok tt, aw_orgs w1) ∧
    aw_users w' = aw_users w1 ∧ aw_orgs w' = aw_orgs w1.
Proof.
  unfold createAccount. destruct (HashPasswordSync _ _) as [h|e]; [|by intros [= <-]].
  rewrite bind_attemptF.
  destruct (createUserWithOrganization _ _ _ _ _ w) as [r w1] eqn:Ec. cbn [fst snd].
  apply createUser_inv in Ec as [(e & d & -> & _)|[(_ & e & d & -> & _)|(Ho & Hu & ->)]];
    [by intros [= <-] | by intros [= <-] |].
  rewrite bind_attemptF. unfold on_tsvc. rewrite zoom_eq. cbn [fst snd].
  destruct (ts_GenerateTokenPair _ _ _ _ _ _ _).1 as [p|e]; [|by intros [= <-]].
  set (w2 := mkAW _ _ _ _ _ _). intros Hrun _. exists h, w1.
  split_and!; [done | exact Hu | exact Ho | |];
    [change (aw_users w1) with (aw_users w2) | change (aw_orgs w1) with (aw_orgs w2)];
    clearbody w2; revert Hrun; unfold publishRegistrationEvents, emit, updateAuthMetrics;
    (destruct hasPublisher; [destruct (rrq_SecurityContext req); [|by intros [=]]|]);
    by intros [= _ <-].
Qed.
End registration.

(** ** The token service behind the interface *)
Section token_service.
Context {C R D : Type} `{CacheOps C} `{RedisOps R} `{TokenRepository D}.
Context `{JwtLib} `{UuidLib} `{ClaimsJson}.
Context (sha256_hex : string → string) (config : JWTConfig).
Definition token_service : TokenServiceInterface (TSW C R D) := {|
  ts_GenerateTokenPair := GenerateTokenPair sha256_hex config;
  ts_RevokeAllUserTokens := RevokeAllUserTokens config |}.
End token_service.

Section password.
Context {C U O T : Type} `{CacheOps C} `{UserRepository U} `{OrganizationRepository O}.
Context `{TokenServiceInterface T} `{CryptoLib}.
Context (hasPublisher : bool).
Abbreviation W := (AW C U O T).

(** What a successful change of password did. *)
Lemma ChangePassword_ok now fate req (w w' : W) :
  ChangePassword hasPublisher now fate req w = (Ok tt, w') →
  ∃ u h d, usr_GetByID (pcq_UserID req) (aw_users w) = (Ok u, d) ∧
    bcrypt_Compare (u_PasswordHash u) (pcq_CurrentPassword req) = true ∧
    HashPasswordSync fate (pcq_NewPassword req) = Ok h ∧
    usr_Update now (set_Password h now u) d = (Ok tt, aw_users w') ∧
    aw_tokens w' = (ts_RevokeAllUserTokens now (pcq_UserID req) RefreshToken
      (ts_RevokeAllUserTokens now (pcq_UserID req) AccessToken (aw_tokens w)).2).2.
Proof.
  intros Hc. unfold ChangePassword, on_users, on_tsvc in Hc.
  apply bind_ok_inv in Hc as (u & w1 & Hu & Hc). apply wrap_err_ok, wrap_err_ok in Hu.
  apply zoom_inv in Hu as (d & Hu & ->).
  destruct (bcrypt_Compare _ _) eqn:Eb; [|done]. cbn [negb] in Hc.
  apply bind_ok_inv in Hc as (h & w2 & Hh & Hc). apply wrap_err_ok, wrap_err_ok in Hh.
  unfold lift_res in Hh. injection Hh as Hh <-.
  apply bind_ok_inv in Hc as ([] & w3 & Hw & Hc). apply wrap_err_ok, wrap_err_ok in Hw.
  apply zoom_inv in Hw as (d3 & Hw & ->). cbn [aw_users] in Hw.
  rewrite bind_attemptF, zoom_eq in Hc. cbn [fst snd aw_tokens] in Hc.
  rewrite bind_attemptF, zoom_eq in Hc. cbn [fst snd aw_tokens] in Hc.
  exists u, h, d. split_and!; [done|done|done| |];
    revert Hc; unfold publishPasswordChangeEvent, emit, updateAuthMetrics;
    (destruct hasPublisher; [destruct (pcq_SecurityContext req); [|by intros [=]]|]);
    by intros [= <-].
Qed.
End password.

(** ** Properties *)

(** A login always answers.  [Authenticate] returns a response for every
    request and every state, never panics, and the response carries tokens
    exactly when it is a success, and an error text exactly when it is not. *)
Theorem Authenticate_total {C U O T} `{CacheOps C} `{UserRepositoryLaws U} `{OrganizationRepository O}
    `{TokenServiceInterface T} `{CryptoLib} rl pub now rnd req (w : AW C U O T) :
  ∃ resp, (Authenticate rl pub now rnd req w).1 = Ok resp ∧
    (ars_Success resp = true ↔ is_Some (ars_TokenPair resp)) ∧
    (ars_Success resp = true ↔ ars_Error resp = "").
Proof.
  destruct (Authenticate_cases rl pub now rnd req w)
    as [(r & Hr & Hs & He & Ht)|(sec & u & w1 & _ & _ & _ & _ & _ & _ & Hrun)].
  - exists r. rewrite Hs, Ht. split; [done|]. by split; split; try done; intros [? ?].
  - rewrite Hrun. destruct (completeLogin_ok pub now rnd u sec w1)
      as (r & Hr & [(Hs & He & p & t & t' & _ & Ht)|(Hs & He & Ht)]);
      exists r; rewrite Hs, Ht; (split; [done|]); (split; split; try done); intros [? ?]; done.
Qed.

(** C6: soundness of login.  A successful login had a security context, was
    let through by the rate limiter, found an active, unlocked user with that
    email in the store whose hash admits the password, whose second factor,
    if enabled, was answered with a valid TOTP or a backup code, and its
    tokens are the pair generated for that user and organization. *)
Theorem Authenticate_sound {C U O T} `{CacheOps C} `{UserRepositoryLaws U} `{OrganizationRepository O}
    `{TokenServiceInterface T} `{CryptoLib} rl pub now rnd req (w w' : AW C U O T) resp :
  Authenticate rl pub now rnd req w = (Ok resp, w') → ars_Success resp = true →
  ∃ sec u, arq_SecurityContext req = Some sec ∧
    (IsBlocked rl now (arq_Email req) (sc_IPAddress sec) (aw_cache w)).1 ≠ Ok true ∧
    uview (aw_users w) (u_ID u) = Some u ∧ u_Email u = arq_Email req ∧ u_IsActive u = true ∧
    IsLocked u now = false ∧ bcrypt_Compare (u_PasswordHash u) (arq_Password req) = true ∧
    second_factor_ok now req u ∧
    ∃ p t t', ts_GenerateTokenPair now rnd (u_ID u) (u_OrganizationID u) (u_Email u) (Some sec) t
                = (Ok p, t') ∧ ars_TokenPair resp = Some p.
Proof.
  intros Ha Hs. destruct (Authenticate_cases rl pub now rnd req w)
    as [(r & Hr & Hf & _)|(sec & u & w1 & Hsec & Hb & Hg & Hl & Hp & H2f & Hrun)].
  { rewrite Ha in Hr. injection Hr as ->. by rewrite Hf in Hs. }
  apply usr_GetByEmail_ok in Hg as (Hv & He & Hact & _). exists sec, u. split_and!; try done.
  destruct (completeLogin_ok pub now rnd u sec w1) as (r & Hr & [(_ & _ & Hgen)|(Hf & _)]);
    rewrite <- Hrun, Ha in Hr; injection Hr as ->; [exact Hgen | by rewrite Hf in Hs].
Qed.


(** Backup codes are not used up.  After a successful login the row still
    holds all backup codes and the same secrets, so the code that was just
    used as a second factor is accepted again at any later time. *)
Theorem backup_codes_are_reusable {C U O T} `{CacheOps C} `{UserRepositoryLaws U}
    `{OrganizationRepository O} `{TokenServiceInterface T} `{CryptoLib}
    rl pub now rnd req (w w' : AW C U O T) resp :
  Authenticate rl pub now rnd req w = (Ok resp, w') → ars_Success resp = true →
  ∃ u u', uview (aw_users w) (u_ID u) = Some u ∧ uview (aw_users w') (u_ID u) = Some u' ∧
    u_BackupCodes u' = u_BackupCodes u ∧
    ∀ code later, code ∈ u_BackupCodes u →
      (verifyTwoFactorCode later (u_TwoFactorSecret u') code (u_BackupCodes u')).1 = true.
Proof.
  intros Ha Hs. destruct (Authenticate_cases rl pub now rnd req w)
    as [(r & Hr & Hf & _)|(sec & u & w1 & _ & _ & Hg & _ & _ & _ & Hrun)].
  { rewrite Ha in Hr. injection Hr as ->. by rewrite Hf in Hs. }
  apply usr_GetByEmail_ok in Hg as (Hv & _ & _ & Hsame).
  destruct (completeLogin_keeps pub now rnd u sec w1) as (u' & Hu' & Hc).
  { exists u. rewrite Hsame. by split_and!. }
  rewrite <- Hrun, Ha in Hu'. exists u, u'. destruct Hc as (_ & _ & _ & _ & _ & Hcodes).
  split_and!; [done|done|done|]. intros code later Hin.
  apply verifyTwoFactorCode_spec. right. by rewrite Hcodes.
Qed.

(** C31: registration then login.  After a successful registration, a login
    with the same email and password that is not rate limited, on a store
    that answers and with token generation available, succeeds. *)
Theorem registered_user_can_login {C U O T} `{CacheOps C} `{UserRepositoryLaws U}
    `{OrganizationRepositoryLaws O} `{TokenServiceInterface T} `{CryptoLaws}
    pub now rnd orgID userID fate req (w w' : AW C U O T) resp
    rl now2 rnd2 login sec (w2 : AW C U O T) :
  Register pub now rnd orgID userID fate req w = (Ok resp, w') → rrs_Success resp = true →
  emails_unique (aw_users w') → aw_users w2 = aw_users w' →
  arq_Email login = rrq_Email req → arq_Password login = rrq_Password req →
  arq_SecurityContext login = Some sec →
  (IsBlocked rl now2 (arq_Email login) (sc_IPAddress sec) (aw_cache w2)).1 ≠ Ok true →
  is_ok (usr_GetByEmailWithOrganization (arq_Email login) (aw_users w2)).1 = true →
  (∀ i o e t, is_ok (ts_GenerateTokenPair now2 rnd2 i o e (Some sec) t).1 = true) →
  ∃ resp2, (Authenticate rl pub now2 rnd2 login w2).1 = Ok resp2 ∧ ars_Success resp2 = true.
Proof.
  intros Hr Hs Hun Hw2 He Hp Hsec Hb Hg Ht.
  destruct (Register_reaches _ _ _ _ _ _ _ _ _ _ Hr Hs) as (Hv & w1 & Hc).
  destruct (createAccount_success _ _ _ _ _ _ _ _ _ _ Hc Hs)
    as (h & w1' & Hh & Hu & _ & Hus & _).
  assert (Hgen : bcrypt_Compare h (rrq_Password req) = true).
  { destruct fate; try discriminate Hh. eapply bcrypt_Compare_Generate. exact Hh. }
  rewrite <- Hus in Hu.
  apply usr_Create_ok in Hu as (i & u & _ & Hview & Hui & Hue & Huh & H2f & Hlk & _).
  assert (rrq_Email req ≠ "" ∧ rrq_Password req ≠ "") as [Hne Hnp].
  { unfold validateRegistrationRequest in Hv. split; intros E; rewrite E, String.eqb_refl in Hv; [done|].
    by destruct (String.eqb (rrq_Email req) ""). }
  rewrite Hw2 in Hg. destruct (usr_GetByEmailWithOrganization _ _) as [[v|e] d] eqn:Eg; [|done].
  pose proof (usr_GetByEmail_ok _ _ _ _ Eg) as (Hvv & Hve & _).
  assert (u_ID v = i) as Hid by (eapply Hun; [exact Hvv | exact Hview | simpl in Hue; congruence]).
  assert (v = u) as -> by congruence.
  destruct (Authenticate_finds rl pub now2 rnd2 login sec u w2) as [w3 ->];
    rewrite ?He, ?Hp, ?Hw2; try done; [by rewrite <- He | by rewrite <- He, Eg |].
  apply checkCredentials_accepts; [by unfold IsLocked; rewrite Hlk | | by rewrite H2f | intros; apply Ht].
  by rewrite Huh, Hp.
Qed.


(** Two-factor setup.  After a successful enabling, no login for that
    user's email succeeds without a code, and each of the backup codes handed
    out is accepted as one. *)
Theorem enabled_two_factor_is_required {C U O T} `{CacheOps C} `{UserRepositoryLaws U}
    `{OrganizationRepository O} `{TokenServiceInterface T} `{CryptoLib}
    rl pub now bytes req (w w' w2 w3 : AW C U O T) resp now2 rnd login resp2 :
  SetupTwoFactor now bytes req w = (Ok resp, w') → tfq_Enable req = true →
  tfs_Success resp = true → emails_unique (aw_users w') →
  aw_users w2 = aw_users w' → arq_TwoFactorCode login = "" →
  Authenticate rl pub now2 rnd login w2 = (Ok resp2, w3) →
  ∃ u, uview (aw_users w') (tfq_UserID req) = Some u ∧ u_BackupCodes u = tfs_BackupCodes resp ∧
    length (tfs_BackupCodes resp) = 10%nat ∧
    (arq_Email login = u_Email u → ars_Success resp2 = false) ∧
    (∀ code later, code ∈ tfs_BackupCodes resp →
       (verifyTwoFactorCode later (u_TwoFactorSecret u) code (u_BackupCodes u)).1 = true).
Proof.
  intros Hs Hen Hok Hun Hw2 Hcode Ha. unfold SetupTwoFactor, on_users in Hs.
  rewrite bind_attemptF, zoom_eq in Hs. cbn [fst snd] in Hs.
  destruct (usr_GetByID _ _) as [[u|e] d] eqn:Eu; cbn [fst snd] in Hs; [|by injection Hs as <-].
  rewrite Hen in Hs. destruct (totp_Generate _) as [[secret url]|e]; [|by injection Hs as <-].
  rewrite bind_attemptF, zoom_eq in Hs. cbn [fst snd aw_users] in Hs.
  destruct (usr_Update _ _ _) as [[[]|e] d2] eqn:Eup; cbn [fst snd] in Hs; [|by injection Hs as <-].
  unfold updateAuthMetrics in Hs. rewrite bind_modify in Hs. injection Hs as <- Hw'.
  apply usr_GetByID_ok in Eu as (Hview & Hid & Hact & Hsame). apply usr_Update_ok in Eup as [Eup _];
    [|rewrite Hsame; exists u; rewrite <- Hview; f_equal; by destruct u].
  set (codes := generateBackupCodes bytes 10) in *.
  set (u' := as_saved now (set_TwoFactor true secret codes u)) in *.
  assert (u_ID (set_TwoFactor true secret codes u) = tfq_UserID req) as Hid' by (by destruct u).
  assert (Hv : uview (aw_users w') (tfq_UserID req) = Some u') by (by rewrite <- Hid', <- Hw').
  assert (u_BackupCodes u' = codes ∧ u_TwoFactorEnabled u' = true ∧ u_ID u' = tfq_UserID req)
    as (Hcodes & H2f & Hid2) by (by destruct u).
  exists u'. split_and!; [done|done|done| |].
  - intros Hmail. destruct (ars_Success resp2) eqn:Esucc; [|done]. exfalso.
    destruct (Authenticate_cases rl pub now2 rnd login w2)
      as [(r & Hr & Hf & _)|(sec & v & w1 & _ & _ & Hg & _ & _ & Hsf & _)].
    { rewrite Ha in Hr. injection Hr as ->. congruence. }
    apply usr_GetByEmail_ok in Hg as (Hvv & Hve & _). rewrite Hw2 in Hvv.
    assert (u_ID v = tfq_UserID req) as E by (eapply Hun; [exact Hvv | exact Hv | congruence]).
    rewrite E, Hv in Hvv. injection Hvv as <-. by destruct (Hsf H2f) as [? _].
  - intros code later Hin. apply verifyTwoFactorCode_spec. right. by rewrite Hcodes.
Qed.

(** Registration without a security context.  Validation does not ask for
    one; where the registration succeeds on a service without an event
    publisher, the same call on a service with one panics, after the user
    and the organization have been stored. *)
Theorem registration_without_context_panics {C U O T} `{CacheOps C} `{UserRepositoryLaws U}
    `{OrganizationRepositoryLaws O} `{TokenServiceInterface T} `{CryptoLib}
    now rnd orgID userID fate req (w w' : AW C U O T) resp :
  rrq_SecurityContext req = None →
  Register false now rnd orgID userID fate req w = (Ok resp, w') → rrs_Success resp = true →
  ∃ w'', Register true now rnd orgID userID fate req w = (Err None, w'') ∧
    (∃ i u, uview (aw_users w'') i = Some u ∧ u_Email u = rrq_Email req) ∧
    (∃ i o, oview (aw_orgs w'') i = Some o ∧ o_Domain o = rrq_OrganizationDomain req).
Proof.
  intros Hsec Hr Hs. pose proof Hr as Hr'.
  apply Register_reaches in Hr' as (Hv & _); [|done]. revert Hr.
  unfold Register, updateAuthMetrics. rewrite !bind_modify, Hv. cbv beta iota.
  rewrite !bind_attemptF. destruct (organizationDomainExists _ _) as [[[]|e] w1]; cbn [fst snd];
    [by intros [= <-] | | by intros [= <-]].
  rewrite !bind_attemptF. destruct (userEmailExists _ _) as [[[]|e] w2]; cbn [fst snd];
    [by intros [= <-] | | by intros [= <-]].
  intros Hc. destruct (createAccount_success _ _ _ _ _ _ _ _ _ _ Hc Hs)
    as (h & w3 & Hh & Hu & Ho & _). revert Hc. unfold createAccount. rewrite Hh, !bind_attemptF.
  destruct (createUserWithOrganization _ _ _ _ _ w2) as [r w4] eqn:Ec. cbn [fst snd].
  apply createUser_inv in Ec as [(e & d & -> & _)|[(_ & e & d & -> & _)|(Ho4 & Hu4 & ->)]];
    [by intros [= <-] | by intros [= <-] |].
  rewrite !bind_attemptF. unfold on_tsvc. rewrite zoom_eq. cbn [fst snd].
  destruct (ts_GenerateTokenPair _ _ _ _ _ _ _).1 as [p|e]; [|by intros [= <-]].
  intros _. unfold publishRegistrationEvents. rewrite Hsec. eexists. split; [reflexivity|].
  cbn [aw_users aw_orgs]. split.
  - apply usr_Create_ok in Hu4 as (i & u & _ & Hview & _ & He & _). by exists i, u.
  - apply org_Create_ok in Ho4 as (i & o & _ & Hview & _ & Hd). by exists i, o.
Qed.

(** Registration is not atomic.  When the user insert fails after the
    organization insert, the caller is told that the account could not be
    created, the organization row stays, and every further registration for
    that domain is refused because the domain already exists. *)
Theorem failed_registration_keeps_domain {C U O T} `{CacheOps C} `{UserRepository U}
    `{OrganizationRepositoryLaws O} `{TokenServiceInterface T} `{CryptoLib}
    pub now rnd orgID userID fate req h (w : AW C U O T) :
  validateRegistrationRequest req = None → HashPasswordSync fate (rrq_Password req) = Ok h →
  (organizationDomainExists (rrq_OrganizationDomain req) w).1 = Ok false →
  (userEmailExists (rrq_Email req) w).1 = Ok false →
  (∀ o (d : O), is_ok (org_Create o d).1 = true) →
  (∀ d : U, is_ok (usr_Create (new_user userID orgID now req h) d).1 = false) →
  (∀ i o (d : O), oview d i = Some o → is_ok (org_GetByDomain (o_Domain o) d).1 = true) →
  let out := Register pub now rnd orgID userID fate req w in
  out.1 = Ok (registration_failure "failed to create account") ∧
  (∃ i o, oview (aw_orgs out.2) i = Some o ∧ o_Name o = rrq_OrganizationName req ∧
        o_Domain o = rrq_OrganizationDomain req) ∧
  ∀ pub' now' rnd' orgID' userID' fate' req' (w2 : AW C U O T), aw_orgs w2 = aw_orgs out.2 →
    validateRegistrationRequest req' = None →
    rrq_OrganizationDomain req' = rrq_OrganizationDomain req →
    (Register pub' now' rnd' orgID' userID' fate' req' w2).1
      = Ok (registration_failure "organization domain already exists").
Proof.
  intros Hv Hh Hdom Hmail Horg Huser Hfound out.
  assert (Hrun : out.1 = Ok (registration_failure "failed to create account") ∧
    ∃ i o, oview (aw_orgs out.2) i = Some o ∧ o_Name o = rrq_OrganizationName req ∧
        o_Domain o = rrq_OrganizationDomain req).
  { unfold out, Register, updateAuthMetrics. rewrite !bind_modify, Hv. cbv beta iota.
    rewrite !bind_attemptF. set (w0 := mkAW _ _ _ _ _ _).
    assert (Hd0 : (organizationDomainExists (rrq_OrganizationDomain req) w0).1 = Ok false).
    { revert Hdom. unfold organizationDomainExists, on_orgs. by rewrite !bind_attempt, !zoom_eq. }
    assert (Hu0 : aw_users (organizationDomainExists (rrq_OrganizationDomain req) w0).2 = aw_users w).
    { unfold organizationDomainExists, on_orgs. by rewrite bind_attempt, zoom_eq. }
    destruct (organizationDomainExists _ w0) as [r w1]. cbn [fst] in Hd0. subst r. cbn [fst snd] in *.
    rewrite !bind_attemptF. assert (Hm1 : (userEmailExists (rrq_Email req) w1).1 = Ok false).
    { revert Hmail. unfold userEmailExists, on_users. by rewrite !bind_attempt, !zoom_eq, Hu0. }
    destruct (userEmailExists _ w1) as [r w2]. cbn [fst] in Hm1. subst r. cbn [fst snd].
    unfold createAccount. rewrite Hh, !bind_attemptF.
    destruct (createUserWithOrganization _ _ _ _ _ w2) as [r w4] eqn:Ec. cbn [fst snd].
    apply createUser_inv in Ec as [(e & d & -> & Ho & _)|[(Ho & e & d & -> & _)|(_ & Hu & _)]].
    - specialize (Horg (new_organization orgID now req) (aw_orgs w2)). by rewrite Ho in Horg.
    - apply org_Create_ok in Ho as (i & o & _ & Ho & Hn & Hd). split; [done|]. by exists i, o.
    - specialize (Huser (aw_users w2)). by rewrite Hu in Huser. }
  destruct Hrun as [Hrun (i & o & Ho & Hn & Hd)]. split; [done|]. split; [by exists i, o|].
  intros pub' now' rnd' orgID' userID' fate' req' w2 Hw2 Hv' Hd'.
  unfold Register, updateAuthMetrics at 1. rewrite bind_modify, Hv', bind_attemptF.
  set (w3 := mkAW _ _ _ _ _ _). unfold organizationDomainExists, on_orgs.
  rewrite bind_attempt, zoom_eq. cbn [fst snd]. unfold lift_res.
  change (aw_orgs w3) with (aw_orgs w2). rewrite Hw2, Hd', <- Hd.
  specialize (Hfound _ _ _ Ho). by destruct (org_GetByDomain _ _) as [[x|e] d].
Qed.

(** ** Witnesses *)

(** Hashes are the passwords themselves, a code is right when it is the
    secret: enough for the documented behaviour the theorems rely on. *)
#[local, refine] Instance ref_crypto : CryptoLib := {
  bcrypt_Compare h p := String.eqb h p;
  bcrypt_Generate cost p := Ok p;
  totp_Validate now code secret := String.eqb code secret;
  totp_Generate email := Ok ("secret", "otpauth://totp/" +:+ email);
  base32_Encode s := s }.
Defined.
#[local, refine] Instance ref_crypto_laws : CryptoLaws := {}.
Proof. intros cost p h [= <-]. apply String.eqb_refl. Defined.
#[local] Instance ref_tsvc : TokenServiceInterface unit := {
  ts_GenerateTokenPair now rnd u o e sec := ret (mkTokenPair "access" "refresh" now now "Bearer");
  ts_RevokeAllUserTokens now u ty := ret tt }.
Abbreviation RW := (AW ref_cache ref_users ref_orgs unit).

Definition ref_metrics : AuthMetrics := mkAuthMetrics 0 0 0 0 0 0 0 0 0.
Definition ref_world (us : ref_users) : RW :=
  mkAW ref_metrics (∅ : gmap string (string * Z)) us (∅ : gmap N Organization) tt [].
Definition ref_sec : SecurityContext := mkSecurityContext "10.0.0.1" "curl" "" "".
Definition ref_user (two_factor : bool) (codes : list string) (failures : Z) : User :=
  mkUser 7 9 "a@b.c" "password" "A" "B" true false None None two_factor "secret" codes failures
    None 0 0 "" "".
Definition ref_one (u : User) : ref_users := <[7%N := u]> (∅ : gmap N User).
Definition ref_auth (code : string) : AuthRequest :=
  mkAuthRequest "a@b.c" "password" "" code (Some ref_sec) false.

Lemma one_user_unique (d : ref_users) i0 :
  forallb (λ iu, (iu.1 =? i0)%N) (map_to_list (d : gmap N User)) = true → emails_unique d.
Proof.
  intros Hf i j u v Hu Hv _. assert (Hall : ∀ k x, (d : gmap N User) !! k = Some x → k = i0).
  { intros k x Hk. apply elem_of_map_to_list, list_elem_of_In in Hk.
    apply (proj1 (forallb_forall _ _) Hf), N.eqb_eq in Hk. done. }
  by rewrite (Hall _ _ Hu), (Hall _ _ Hv).
Qed.
Lemma ref_one_unique u : emails_unique (ref_one u).
Proof. by apply (one_user_unique _ 7). Qed.

Definition default_ars (r : res (option error) AuthResponse) : AuthResponse :=
  match r with Ok a => a | Err _ => auth_failure "" end.
Lemma run_ars (m : res (option error) AuthResponse * RW) :
  is_ok m.1 = true → m = (Ok (default_ars m.1), m.2).
Proof. by destruct m as [[]]. Qed.

Definition ref_session : res (option error) AuthResponse * RW :=
  Authenticate NewRateLimiter true 0 ref_rand (ref_auth "code2")
    (ref_world (ref_one (ref_user true ["code1"; "code2"] 0))).
Lemma ref_session_ok : is_ok ref_session.1 = true.
Proof. vm_refl. Qed.
Lemma ref_session_success : ars_Success (default_ars ref_session.1) = true.
Proof. vm_refl. Qed.

Example Authenticate_sound_witness :
  ∃ u, uview (ref_one (ref_user true ["code1"; "code2"] 0)) (u_ID u) = Some u ∧
       bcrypt_Compare (u_PasswordHash u) "password" = true ∧ second_factor_ok 0 (ref_auth "code2") u.
Proof.
  destruct (Authenticate_sound NewRateLimiter true 0 ref_rand (ref_auth "code2") _ ref_session.2
    _ (run_ars _ ref_session_ok) ref_session_success)
    as (sec & u & _ & _ & Hv & _ & _ & _ & Hp & H2f & _).
  exists u. split; [exact Hv | split; [exact Hp | exact H2f]].
Defined.

Example backup_codes_are_reusable_witness :
  ∃ u', uview (aw_users ref_session.2) 7 = Some u' ∧ u_BackupCodes u' = ["code1"; "code2"].
Proof.
  destruct (backup_codes_are_reusable NewRateLimiter true 0 ref_rand (ref_auth "code2") _
    ref_session.2 _ (run_ars _ ref_session_ok) ref_session_success)
    as (u & u' & Hu & Hu' & Hc & _).
  assert (Hu7 : (<[7%N := ref_user true ["code1"; "code2"] 0]> (∅ : gmap N User)) !! u_ID u = Some u)
    by exact Hu.
  apply lookup_insert_Some in Hu7 as [[E1 E2]|[_ E2]]; [|discriminate E2].
  exists u'. rewrite E1. split; [exact Hu'|]. rewrite Hc. by rewrite <- E2.
Defined.

Definition ref_locked : ref_users :=
  aw_users (handleFailedLogin NewRateLimiter 0 (ref_user false [] 4) "10.0.0.1"
              (ref_world (ref_one (ref_user false [] 4)))).2.
Definition ref_late : res (option error) AuthResponse * RW :=
  Authenticate NewRateLimiter true (14 * Minute) ref_rand (ref_auth "") (ref_world ref_locked).
Lemma ref_late_ok : is_ok ref_late.1 = true.
Proof. vm_refl. Qed.
Lemma ref_users_up : user_writes_up (U:=ref_users).
Proof. by intros d now i t. Qed.


Definition ref_rreq : RegistrationRequest :=
  mkRegistrationRequest "a@b.c" "password" "A" "B" "Org" "org.io" None.
Definition ref_joined : res (option error) RegistrationResponse * RW :=
  Register false 0 ref_rand 9 7 Hashed ref_rreq (ref_world (∅ : gmap N User)).
Definition default_rrs (r : res (option error) RegistrationResponse) : RegistrationResponse :=
  match r with Ok a => a | Err _ => registration_failure "" end.
Lemma run_rrs (m : res (option error) RegistrationResponse * RW) :
  is_ok m.1 = true → m = (Ok (default_rrs m.1), m.2).
Proof. by destruct m as [[]]. Qed.
Lemma ref_joined_ok : is_ok ref_joined.1 = true.
Proof. vm_refl. Qed.
Lemma ref_joined_success : rrs_Success (default_rrs ref_joined.1) = true.
Proof. vm_refl. Qed.
Lemma ref_joined_unique : emails_unique (aw_users ref_joined.2).
Proof. apply (one_user_unique _ 7). vm_refl. Qed.
Lemma ref_joined_found :
  is_ok (usr_GetByEmailWithOrganization "a@b.c" (aw_users ref_joined.2)).1 = true.
Proof. vm_refl. Qed.

Example registered_user_can_login_witness :
  ∃ resp, (Authenticate NewRateLimiter false Hour ref_rand (ref_auth "") ref_joined.2).1 = Ok resp ∧
          ars_Success resp = true.
Proof.
  apply (registered_user_can_login false 0 ref_rand 9 7 Hashed ref_rreq _ ref_joined.2 _
    NewRateLimiter Hour ref_rand (ref_auth "") ref_sec ref_joined.2 (run_rrs _ ref_joined_ok)
    ref_joined_success ref_joined_unique);
    [ reflexivity | reflexivity | reflexivity | reflexivity | vm_compute; discriminate
    | exact ref_joined_found | reflexivity ].
Defined.

Example registration_without_context_panics_witness :
  ∃ w'', Register true 0 ref_rand 9 7 Hashed ref_rreq (ref_world (∅ : gmap N User)) = (Err None, w'') ∧
         ∃ i u, uview (aw_users w'') i = Some u.
Proof.
  destruct (registration_without_context_panics 0 ref_rand 9 7 Hashed ref_rreq
    (ref_world (∅ : gmap N User)) ref_joined.2 _ eq_refl (run_rrs _ ref_joined_ok) ref_joined_success)
    as (w'' & Hr & (i & u & Hu & _) & _).
  exists w''. split; [exact Hr | exists i, u; exact Hu].
Defined.

Definition ref_bytes (i : nat) : string := Itoa (Z.of_nat i).
Definition ref_plain : RW := ref_world (ref_one (ref_user false [] 0)).
Definition ref_setup : res (option error) TwoFactorSetupResponse * RW :=
  SetupTwoFactor 0 ref_bytes (mkTwoFactorSetupRequest 7 true) ref_plain.
Definition default_tfs (r : res (option error) TwoFactorSetupResponse) : TwoFactorSetupResponse :=
  match r with Ok a => a | Err _ => two_factor_failure "" end.
Lemma run_tfs (m : res (option error) TwoFactorSetupResponse * RW) :
  is_ok m.1 = true → m = (Ok (default_tfs m.1), m.2).
Proof. by destruct m as [[]]. Qed.
Lemma ref_setup_ok : is_ok ref_setup.1 = true.
Proof. vm_refl. Qed.
Lemma ref_setup_run : SetupTwoFactor 0 ref_bytes (mkTwoFactorSetupRequest 7 true) ref_plain
  = (Ok (default_tfs ref_setup.1), ref_setup.2).
Proof. exact (run_tfs _ ref_setup_ok). Qed.
Lemma ref_setup_success : tfs_Success (default_tfs ref_setup.1) = true.
Proof. vm_refl. Qed.
Lemma ref_setup_unique : emails_unique (aw_users ref_setup.2).
Proof. apply (one_user_unique _ 7). vm_refl. Qed.
Definition ref_codeless : res (option error) AuthResponse * RW :=
  Authenticate NewRateLimiter true Hour ref_rand (ref_auth "") ref_setup.2.
Lemma ref_codeless_ok : is_ok ref_codeless.1 = true.
Proof. vm_refl. Qed.
Lemma ref_setup_email u : uview (aw_users ref_setup.2) 7 = Some u → u_Email u = "a@b.c".
Proof.
  intros Hu. assert (Hm : u_Email <$> uview (aw_users ref_setup.2) 7 = Some "a@b.c") by vm_refl.
  rewrite Hu in Hm. by injection Hm.
Qed.

Example enabled_two_factor_is_required_witness :
  ars_Success (default_ars ref_codeless.1) = false.
Proof.
  destruct (enabled_two_factor_is_required NewRateLimiter true 0 ref_bytes (mkTwoFactorSetupRequest 7 true) ref_plain
    ref_setup.2 ref_setup.2 ref_codeless.2 _ Hour ref_rand (ref_auth "") _
    ref_setup_run eq_refl ref_setup_success ref_setup_unique eq_refl eq_refl
    (run_ars _ ref_codeless_ok)) as (u & Hu & _ & _ & Hmail & _).
  apply Hmail. symmetry. exact (ref_setup_email u Hu).
Defined.

(** The same user store with a table that refuses inserts. *)
Definition full_users : UserRepository ref_users := {|
  usr_GetByID := usr_GetByID; usr_GetByEmail := usr_GetByEmail;
  usr_GetByEmailWithOrganization := usr_GetByEmailWithOrganization;
  usr_Create u := fail (ErrorString "disk full"); usr_Update := usr_Update;
  usr_Delete := usr_Delete; usr_UpdateLastLogin := usr_UpdateLastLogin;
  usr_IncrementFailedLoginAttempts := usr_IncrementFailedLoginAttempts;
  usr_ResetFailedLoginAttempts := usr_ResetFailedLoginAttempts; usr_LockUser := usr_LockUser |}.

Lemma ref_orgs_found i o (d : ref_orgs) :
  oview d i = Some o → is_ok (org_GetByDomain (o_Domain o) d).1 = true.
Proof.
  intros Ho. simpl. destruct (List.find _ _) as [x|] eqn:E; [done|].
  eapply find_none in E; [by rewrite String.eqb_refl in E|].
  apply list_elem_of_In, list_elem_of_fmap. exists (i, o). split; [done|].
  by apply elem_of_map_to_list.
Qed.

Example failed_registration_keeps_domain_witness :
  let out := Register (H0 := full_users) false 0 ref_rand 9 7 Hashed ref_rreq
               (ref_world (∅ : gmap N User)) in
  (Register (H0 := full_users) false Hour ref_rand 19 17 Hashed ref_rreq out.2).1
    = Ok (registration_failure "organization domain already exists").
Proof.
  pose proof (failed_registration_keeps_domain (H0 := full_users) false 0 ref_rand 9 7 Hashed
    ref_rreq "password" (ref_world (∅ : gmap N User))) as Hf.
  destruct Hf as (_ & _ & Hlater);
    [ reflexivity | reflexivity | reflexivity | reflexivity | done | done | exact ref_orgs_found |].
  apply Hlater; reflexivity.
Defined.

(** The user of [ref_login] changes the password. *)
#[local] Existing Instances ref_uuid ref_json ref_jwt.
Definition ref_changing : AW ref_cache ref_users ref_orgs (TSW ref_cache ref_redis ref_tokens) :=
  mkAW ref_metrics (∅ : gmap string (string * Z)) (ref_one (ref_user false [] 0))
    (∅ : gmap N Organization) ref_login.2 [].
Definition ref_change : res (option error) unit * AW ref_cache ref_users ref_orgs (TSW ref_cache ref_redis ref_tokens) :=
  ChangePassword (H2 := token_service ref_hash ref_config) true Hour Hashed
    (mkPasswordChangeRequest 7 "password" "new password" (Some ref_sec)) ref_changing.
Lemma ref_change_run : ref_change.1 = Ok tt.
Proof. vm_refl. Qed.
Lemma ref_tokens_up : tokens_up (D:=ref_tokens).
Proof. by intros d now u ty. Qed.

