(* ===== verification/Cache.v ===== *)
(** * The two-level cache (src/internal/cache)

    [BigCacheImpl] (bigcache.go) is the first level, [RedisCacheImpl]
    (redis_cache.go) the second, [CacheManagerImpl] (manager.go, with the key
    and pattern operations of invalidator.go) puts them together.  The two
    stores and the JSON encoding of an entry are parameters with documented
    behaviour.  The goroutines that the manager starts and does not wait for
    are pending tasks of its state, which run at any later time
    ([background]); the goroutines that one call starts and waits for touch
    separate stores and are run in order. *)

From S2P Require Import Prelude Errors Ifaces.

(** ** Data (types.go) *)

Record CacheEntry := mkCacheEntry {
  ce_Key : string; ce_Value : string; ce_TTL : Z; ce_CreatedAt : Z; ce_AccessedAt : Z;
  ce_HitCount : Z; ce_Version : Z }.
Record cacheStats := mkCacheStats {
  cs_hits : Z; cs_misses : Z; cs_sets : Z; cs_deletes : Z; cs_evictions : Z }.
Inductive CacheLevel := L1Cache | L2Cache | L3Cache.
Inductive CacheStrategy := WriteThrough | WriteBack | ReadThrough | CacheAside.

Definition ErrCacheNotFound : error := ErrorCache "cache_not_found" "cache entry not found" None.
Definition ErrCacheExpired : error := ErrorCache "cache_expired" "cache entry expired" None.
Definition ErrInvalidKey : error := ErrorCache "invalid_key" "invalid cache key" None.
Definition NewCacheErrorWithCause (code message : string) (cause : error) : error :=
  ErrorCache code message (Some cause).
(** [err == ErrCacheNotFound] compares pointers; no other error of the
    program has this code. *)
Definition is_ErrCacheNotFound (e : error) : bool :=
  match e with ErrorCache c _ None => String.eqb c "cache_not_found" | _ => false end.

Definition hit (s : cacheStats) : cacheStats :=
  let '(mkCacheStats h m st d e) := s in mkCacheStats (wrap64 (h + 1)) m st d e.
Definition miss (s : cacheStats) : cacheStats :=
  let '(mkCacheStats h m st d e) := s in mkCacheStats h (wrap64 (m + 1)) st d e.
Definition set_done (s : cacheStats) : cacheStats :=
  let '(mkCacheStats h m st d e) := s in mkCacheStats h m (wrap64 (st + 1)) d e.
Definition deleted (n : Z) (s : cacheStats) : cacheStats :=
  let '(mkCacheStats h m st d e) := s in mkCacheStats h m st (wrap64 (d + n)) e.
Definition no_stats : cacheStats := mkCacheStats 0 0 0 0 0.

(** An entry as it is read: access time and hit count are updated. *)
Definition touch (now : Z) (e : CacheEntry) : CacheEntry :=
  let '(mkCacheEntry k v ttl cr _ h ver) := e in mkCacheEntry k v ttl cr now (wrap64 (h + 1)) ver.
Definition new_entry (key value : string) (ttl now version : Z) : CacheEntry :=
  mkCacheEntry key value ttl now now 0 version.

(** ** The libraries *)

(** [encoding/json] on a [CacheEntry]: it encodes every entry and decodes
    it back. *)
Class EntryJson := {
  entry_Marshal : CacheEntry → res error string;
  entry_Unmarshal : string → res error CacheEntry }.
Class EntryJsonLaws `{EntryJson} := {
  entry_roundtrip e : ∃ s, entry_Marshal e = Ok s ∧ entry_Unmarshal s = Ok e }.
(** [updatedEntry, _ := json.Marshal(cacheEntry)]. *)
Definition marshal_or_nil `{EntryJson} (e : CacheEntry) : string :=
  match entry_Marshal e with Ok s => s | Err _ => "" end.

(** github.com/allegro/bigcache. *)
Class BigCacheLib (B : Type) := {
  big_Get : string → M B string;
  big_Set : string → string → M B unit;
  big_Delete : string → M B unit;
  big_Reset : M B unit }.
(** [bent b k]: the entry stored under [k].  Any operation may evict entries,
    and none makes up one. *)
Class BigCacheLaws (B : Type) `{BigCacheLib B} := {
  bent : B → string → option string;
  bevicts (b b' : B) : Prop := ∀ k e, bent b' k = Some e → bent b k = Some e;
  big_Get_ok b b' k e : big_Get k b = (Ok e, b') → bent b k = Some e;
  big_Get_evicts b k : bevicts b (big_Get k b).2;
  big_Set_stores b k e k' e' : bent (big_Set k e b).2 k' = Some e' →
    k' = k ∧ e' = e ∨ bent b k' = Some e' ∧ (k' = k → is_ok (big_Set k e b).1 = false);
  big_Delete_evicts b k : bevicts b (big_Delete k b).2;
  big_Delete_gone b b' k r : big_Delete k b = (r, b') →
    r = Ok tt ∨ (∃ t, r = Err (ErrorLib bigcache_ErrEntryNotFound t)) → bent b' k = None;
  big_Reset_gone b b' k : big_Reset b = (Ok tt, b') → bent b' k = None }.

(** github.com/redis/go-redis: the commands the cache uses. *)
Class RedisKV (R : Type) := {
  rc_Get : Z → string → M R string;
  rc_Set : Z → string → string → Z → M R unit;
  rc_Del : Z → list string → M R Z;
  rc_Exists : Z → string → M R Z;
  rc_Scan : Z → string → M R (list string) }.
(** [rval r k]: the value of [k] and the time it expires at, if any.  Expired
    keys may be dropped at any time. *)
Definition rlive (now : Z) (o : option (string * option Z)) : option string :=
  match o with
  | Some (v, None) => Some v
  | Some (v, Some d) => if (now <? d)%Z then Some v else None
  | None => None
  end.
Class RedisKVLaws (R : Type) `{RedisKV R} := {
  rval : R → string → option (string * option Z);
  rsame (now : Z) (r r' : R) (k : string) : Prop :=
    rval r' k = rval r k ∨ rval r' k = None ∧ rlive now (rval r k) = None;
  rc_Get_ok r r' k v now : rc_Get now k r = (Ok v, r') → rlive now (rval r k) = Some v;
  rc_Get_nil r r' k now t : rc_Get now k r = (Err (ErrorLib redis_Nil t), r') →
    rlive now (rval r k) = None;
  rc_Get_same r k now k' : rsame now r (rc_Get now k r).2 k';
  rc_Set_ok r r' k v ex now : 0 < ex → rc_Set now k v ex r = (Ok tt, r') →
    rval r' k = Some (v, Some (now + ex));
  rc_Set_err r r' k v ex now e : 0 < ex → rc_Set now k v ex r = (Err e, r') →
    rsame now r r' k ∨ rval r' k = Some (v, Some (now + ex));
  rc_Set_same r k v ex now k' : k' ≠ k → rsame now r (rc_Set now k v ex r).2 k';
  rc_Del_ok r r' ks now n : rc_Del now ks r = (Ok n, r') → ∀ k, k ∈ ks → rval r' k = None;
  rc_Del_err r r' ks now e : rc_Del now ks r = (Err e, r') → ∀ k, k ∈ ks →
    rsame now r r' k ∨ rval r' k = None;
  rc_Del_same r ks now k' : k' ∉ ks → rsame now r (rc_Del now ks r).2 k';
  rc_Exists_ok r r' k now n : rc_Exists now k r = (Ok n, r') →
    n = match rlive now (rval r k) with Some _ => 1 | None => 0 end;
  rc_Exists_same r k now k' : rsame now r (rc_Exists now k r).2 k';
  rc_Scan_same r p now k' : rsame now r (rc_Scan now p r).2 k' }.

(** The server answers reads. *)
Definition redis_reachable {R} `{RedisKV R} : Prop := ∀ (r : R) now k,
  (∀ e, (rc_Get now k r).1 = Err e → ∃ t, e = ErrorLib redis_Nil t) ∧
  is_ok (rc_Exists now k r).1 = true.

(** ** The first level (bigcache.go) *)

Record BigCacheImpl (B : Type) := mkBigCacheImpl { bc_cache : B; bc_stats : cacheStats }.
Arguments mkBigCacheImpl {B}. Arguments bc_cache {B}. Arguments bc_stats {B}.

Section bigcache.
Context {B : Type} `{BigCacheLib B} `{EntryJson}.
Abbreviation W := (BigCacheImpl B).
Definition on_big {A} (m : M B A) : M W A :=
  zoom bc_cache (λ b w, mkBigCacheImpl b (bc_stats w)) m.
Definition big_stats (f : cacheStats → cacheStats) : M W unit :=
  modify (λ w, mkBigCacheImpl (bc_cache w) (f (bc_stats w))).

Definition BigCacheImpl_Get (now : Z) (key : string) : M W string :=
  if String.eqb key "" then fail ErrInvalidKey
  else
    let* got := attempt (on_big (big_Get key)) in
    match got with
    | Err err =>
        big_stats miss ;;;
        if is_sentinel bigcache_ErrEntryNotFound err then fail ErrCacheNotFound
        else fail (NewCacheErrorWithCause "bigcache_get_failed" "failed to get from BigCache" err)
    | Ok entry =>
        match entry_Unmarshal entry with
        | Err err =>
            big_stats miss ;;;
            fail (NewCacheErrorWithCause "unmarshal_failed" "failed to unmarshal cache entry" err)
        | Ok cacheEntry =>
            if (0 <? ce_TTL cacheEntry)%Z && (ce_TTL cacheEntry <? now - ce_CreatedAt cacheEntry)%Z then
              attempt (F:=error) (on_big (big_Delete key)) ;;;
              big_stats miss ;;;
              fail ErrCacheExpired
            else
              attempt (F:=error) (on_big (big_Set key (marshal_or_nil (touch now cacheEntry)))) ;;;
              big_stats hit ;;;
              ret (ce_Value cacheEntry)
        end
    end.

Definition BigCacheImpl_Set (now : Z) (key value : string) (ttl : Z) : M W unit :=
  if String.eqb key "" then fail ErrInvalidKey
  else match entry_Marshal (new_entry key value ttl now 1) with
  | Err err => fail (NewCacheErrorWithCause "marshal_failed" "failed to marshal cache entry" err)
  | Ok entryBytes =>
      wrap_err (NewCacheErrorWithCause "bigcache_set_failed" "failed to set in BigCache")
        (on_big (big_Set key entryBytes)) ;;;
      big_stats set_done
  end.

Definition BigCacheImpl_Delete (key : string) : M W unit :=
  if String.eqb key "" then fail ErrInvalidKey
  else
    wrap_err (λ err, if is_sentinel bigcache_ErrEntryNotFound err then ErrCacheNotFound
                     else NewCacheErrorWithCause "bigcache_delete_failed"
                            "failed to delete from BigCache" err)
      (on_big (big_Delete key)) ;;;
    big_stats (deleted 1).

Definition BigCacheImpl_Exists (key : string) : M W bool :=
  if String.eqb key "" then fail ErrInvalidKey
  else
    let* got := attempt (on_big (big_Get key)) in
    match got with
    | Ok _ => ret true
    | Err err =>
        if is_sentinel bigcache_ErrEntryNotFound err then ret false
        else fail (NewCacheErrorWithCause "bigcache_exists_failed"
                     "failed to check existence in BigCache" err)
    end.

Definition BigCacheImpl_Clear : M W unit :=
  wrap_err (NewCacheErrorWithCause "bigcache_clear_failed" "failed to clear BigCache")
    (on_big big_Reset) ;;;
  big_stats (λ _, no_stats).
End bigcache.

(** ** The second level (redis_cache.go) *)

Record RedisCacheImpl (R : Type) := mkRedisCacheImpl { rc_client : R; rc_stats : cacheStats }.
Arguments mkRedisCacheImpl {R}. Arguments rc_client {R}. Arguments rc_stats {R}.

Section redis.
Context {R : Type} `{RedisKV R} `{EntryJson}.
Abbreviation W := (RedisCacheImpl R).
Definition on_client {A} (m : M R A) : M W A :=
  zoom rc_client (λ r w, mkRedisCacheImpl r (rc_stats w)) m.
Definition redis_stats (f : cacheStats → cacheStats) : M W unit :=
  modify (λ w, mkRedisCacheImpl (rc_client w) (f (rc_stats w))).
(** The manager names this level "l2". *)
Definition prefix : string := "l2:".
Definition full_key (key : string) : string := prefix +:+ key.
#[global] Arguments full_key : simpl never.

(** The result of the write back is not looked at. *)
Definition RedisCacheImpl_Get (now : Z) (key : string) : M W string :=
  if String.eqb key "" then fail ErrInvalidKey
  else
    let fullKey := full_key key in
    let* got := attempt (on_client (rc_Get now fullKey)) in
    match got with
    | Err err =>
        redis_stats miss ;;;
        if is_sentinel redis_Nil err then fail ErrCacheNotFound
        else fail (NewCacheErrorWithCause "redis_get_failed" "failed to get from Redis" err)
    | Ok result =>
        match entry_Unmarshal result with
        | Err err =>
            redis_stats miss ;;;
            fail (NewCacheErrorWithCause "unmarshal_failed" "failed to unmarshal cache entry" err)
        | Ok cacheEntry =>
            attempt (F:=error) (on_client (rc_Set now fullKey (marshal_or_nil (touch now cacheEntry))
                                  (ce_CreatedAt cacheEntry + ce_TTL cacheEntry - now))) ;;;
            redis_stats hit ;;;
            ret (ce_Value cacheEntry)
        end
    end.

Definition SetWithVersion (now : Z) (key value : string) (ttl version : Z) : M W unit :=
  if String.eqb key "" then fail ErrInvalidKey
  else match entry_Marshal (new_entry key value ttl now version) with
  | Err err => fail (NewCacheErrorWithCause "marshal_failed" "failed to marshal cache entry" err)
  | Ok entryBytes =>
      wrap_err (NewCacheErrorWithCause "redis_set_failed" "failed to set in Redis")
        (on_client (rc_Set now (full_key key) entryBytes ttl)) ;;;
      redis_stats set_done
  end.
Definition RedisCacheImpl_Set (now : Z) (key value : string) (ttl : Z) : M W unit :=
  SetWithVersion now key value ttl 1.

Definition RedisCacheImpl_Delete (now : Z) (key : string) : M W unit :=
  if String.eqb key "" then fail ErrInvalidKey
  else
    let* result := wrap_err (NewCacheErrorWithCause "redis_delete_failed" "failed to delete from Redis")
                     (on_client (rc_Del now [full_key key])) in
    if (result =? 0)%Z then fail ErrCacheNotFound else redis_stats (deleted 1).

Definition RedisCacheImpl_Exists (now : Z) (key : string) : M W bool :=
  if String.eqb key "" then fail ErrInvalidKey
  else
    let* result := wrap_err (NewCacheErrorWithCause "redis_exists_failed"
                               "failed to check existence in Redis")
                     (on_client (rc_Exists now (full_key key))) in
    ret (0 <? result)%Z.

(** [Scan] is iterated to its end. *)
Definition RedisCacheImpl_Clear (now : Z) : M W unit :=
  let* keys := wrap_err (NewCacheErrorWithCause "redis_scan_failed" "failed to scan Redis keys")
                 (on_client (rc_Scan now (prefix +:+ "*"))) in
  (if (0 <? length keys)%nat then
     wrap_err (NewCacheErrorWithCause "redis_clear_failed" "failed to clear Redis cache")
       (on_client (rc_Del now keys)) ;;; ret tt
   else ret tt) ;;;
  redis_stats (λ _, no_stats).

Definition DeletePattern (now : Z) (pattern : string) : M W unit :=
  let* keys := wrap_err (NewCacheErrorWithCause "redis_scan_failed" "failed to scan Redis keys")
                 (on_client (rc_Scan now (prefix +:+ pattern))) in
  if (0 <? length keys)%nat then
    wrap_err (NewCacheErrorWithCause "redis_delete_pattern_failed"
                "failed to delete pattern from Redis")
      (on_client (rc_Del now keys)) ;;;
    redis_stats (deleted (Z.of_nat (length keys)))
  else ret tt.
End redis.

(** ** The manager (manager.go, invalidator.go) *)

(** A goroutine that has been started and not waited for. *)
Inductive task := PopulateL1 (key value : string) | WriteL2 (key value : string) (ttl : Z).

Record CacheManagerImpl (B R : Type) := mkCacheManager {
  l1Cache : BigCacheImpl B; l2Cache : RedisCacheImpl R; cm_strategy : CacheStrategy;
  taggedKeys : gmap string (list string); pending : list task }.
Arguments mkCacheManager {B R}. Arguments l1Cache {B R}. Arguments l2Cache {B R}.
Arguments cm_strategy {B R}. Arguments taggedKeys {B R}. Arguments pending {B R}.

(** Two operations that run at the same time on the two levels: both are
    waited for, and the error that arrives first is returned. *)
Definition first_error (l1_first : bool) (r1 r2 : res error unit) : res error unit :=
  match r1, r2 with
  | Err e1, Err e2 => Err (if l1_first then e1 else e2)
  | Err e1, Ok _ => Err e1
  | Ok _, r => r
  end.
(** [err != nil && err != ErrCacheNotFound]. *)
Definition unless_not_found (r : res error unit) : res error unit :=
  match r with Err e => if is_ErrCacheNotFound e then Ok tt else Err e | Ok _ => Ok tt end.

Section manager.
Context {B R : Type} `{BigCacheLib B} `{RedisKV R} `{EntryJson}.
(** [config.DefaultTTL], and which level answers first. *)
Context (DefaultTTL : Z) (l1_first : bool).
Abbreviation W := (CacheManagerImpl B R).

Definition on_l1 {A} (m : M (BigCacheImpl B) A) : M W A :=
  zoom l1Cache (λ c w, mkCacheManager c (l2Cache w) (cm_strategy w) (taggedKeys w) (pending w)) m.
Definition on_l2 {A} (m : M (RedisCacheImpl R) A) : M W A :=
  zoom l2Cache (λ c w, mkCacheManager (l1Cache w) c (cm_strategy w) (taggedKeys w) (pending w)) m.
Definition go (t : task) : M W unit :=
  modify (λ w, mkCacheManager (l1Cache w) (l2Cache w) (cm_strategy w) (taggedKeys w) (pending w ++ [t])).
Definition on_tags (f : gmap string (list string) → gmap string (list string)) : M W unit :=
  modify (λ w, mkCacheManager (l1Cache w) (l2Cache w) (cm_strategy w) (f (taggedKeys w)) (pending w)).
Definition both (m1 m2 : M W unit) (keep : res error unit → res error unit) : M W unit :=
  let* r1 := attempt m1 in
  let* r2 := attempt m2 in
  lift_res (first_error l1_first (keep r1) (keep r2)).

Definition CacheManagerImpl_Get (now : Z) (key : string) : M W string :=
  if String.eqb key "" then fail ErrInvalidKey
  else
    let* first := attempt (F:=error) (on_l1 (BigCacheImpl_Get now key)) in
    match first with
    | Ok value => ret value
    | Err _ =>
        let* value := on_l2 (RedisCacheImpl_Get now key) in
        go (PopulateL1 key value) ;;;
        ret value
    end.

Definition setWriteThrough (now : Z) (key value : string) (ttl : Z) : M W unit :=
  both (on_l1 (BigCacheImpl_Set now key value ttl)) (on_l2 (RedisCacheImpl_Set now key value ttl))
    (λ r, r).
Definition setWriteBack (now : Z) (key value : string) (ttl : Z) : M W unit :=
  on_l1 (BigCacheImpl_Set now key value ttl) ;;; go (WriteL2 key value ttl).

Definition CacheManagerImpl_Set (now : Z) (key value : string) (ttl : Z) : M W unit :=
  if String.eqb key "" then fail ErrInvalidKey
  else
    let ttl := if (ttl =? 0)%Z then DefaultTTL else ttl in
    let* strategy := gets (λ w : W, cm_strategy w) in
    match strategy with
    | WriteBack => setWriteBack now key value ttl
    | WriteThrough | ReadThrough | CacheAside => setWriteThrough now key value ttl
    end.

Definition CacheManagerImpl_Delete (now : Z) (key : string) : M W unit :=
  if String.eqb key "" then fail ErrInvalidKey
  else both (on_l1 (BigCacheImpl_Delete key)) (on_l2 (RedisCacheImpl_Delete now key)) unless_not_found.

Definition CacheManagerImpl_Exists (now : Z) (key : string) : M W bool :=
  if String.eqb key "" then fail ErrInvalidKey
  else
    let* first := attempt (F:=error) (on_l1 (BigCacheImpl_Exists key)) in
    match first with
    | Ok true => ret true
    | _ => on_l2 (RedisCacheImpl_Exists now key)
    end.

Definition CacheManagerImpl_Clear (now : Z) : M W unit :=
  both (on_l1 BigCacheImpl_Clear) (on_l2 (RedisCacheImpl_Clear now)) (λ r, r).

Definition GetFromLevel (now : Z) (key : string) (level : CacheLevel) : M W string :=
  match level with
  | L1Cache => on_l1 (BigCacheImpl_Get now key)
  | L2Cache => on_l2 (RedisCacheImpl_Get now key)
  | L3Cache => fail (ErrorString "unsupported cache level: 2")
  end.
Definition SetToLevel (now : Z) (key value : string) (ttl : Z) (level : CacheLevel) : M W unit :=
  match level with
  | L1Cache => on_l1 (BigCacheImpl_Set now key value ttl)
  | L2Cache => on_l2 (RedisCacheImpl_Set now key value ttl)
  | L3Cache => fail (ErrorString "unsupported cache level: 2")
  end.

Definition SetStrategy (s : CacheStrategy) : M W unit :=
  modify (λ w, mkCacheManager (l1Cache w) (l2Cache w) s (taggedKeys w) (pending w)).

(** *** Invalidation *)

(** One key leaves the list of each tag; empty tags are dropped. *)
Fixpoint remove_first (key : string) (keys : list string) : list string :=
  match keys with
  | [] => []
  | k :: rest => if String.eqb k key then rest else k :: remove_first key rest
  end.
Definition removeKeyFromTags (key : string) : M W unit :=
  on_tags (λ tags, omap (λ keys, match remove_first key keys with [] => None | l => Some l end) tags).
Definition TagKey (key : string) (tags : list string) : M W unit :=
  if String.eqb key "" || (length tags =? 0)%nat then ret tt
  else on_tags (λ m, fold_left (λ m tag,
         let keys := default [] (m !! tag) in
         <[tag := if existsb (String.eqb key) keys then keys else keys ++ [key]]> m) tags m).

Definition InvalidateKey (now : Z) (key : string) : M W unit :=
  if String.eqb key "" then fail ErrInvalidKey
  else
    both (on_l1 (BigCacheImpl_Delete key)) (on_l2 (RedisCacheImpl_Delete now key)) unless_not_found ;;;
    removeKeyFromTags key.

(** The first level is only logged about. *)
Definition InvalidatePattern (now : Z) (pattern : string) : M W unit :=
  if String.eqb pattern "" then fail (ErrorString "pattern cannot be empty")
  else on_l2 (DeletePattern now pattern).

(** The loop over [keySet]: each key at its first occurrence. *)
Fixpoint unique_keys (seen keys : list string) : list string :=
  match keys with
  | [] => []
  | k :: rest =>
      if existsb (String.eqb k) seen then unique_keys seen rest
      else k :: unique_keys (k :: seen) rest
  end.
(** The goroutines of one call are waited for, and their errors logged. *)
Definition InvalidateByTags (now : Z) (tags : list string) : M W unit :=
  if (length tags =? 0)%nat then fail (ErrorString "tags cannot be empty")
  else
    let* tagged := gets (λ w : W, taggedKeys w) in
    let keysToInvalidate := tags ≫= (λ tag, default [] (tagged !! tag)) in
    if (length keysToInvalidate =? 0)%nat then ret tt
    else
      for_each (λ k, attempt (F:=error) (InvalidateKey now k) ;;; ret tt) (unique_keys [] keysToInvalidate) ;;;
      on_tags (λ m, fold_left (λ m tag, delete tag m) tags m).

(** *** Background writes *)

Definition run_task (now : Z) (t : task) : M W unit :=
  match t with
  | PopulateL1 key value => attempt (F:=error) (on_l1 (BigCacheImpl_Set now key value DefaultTTL)) ;;; ret tt
  | WriteL2 key value ttl => attempt (F:=error) (on_l2 (RedisCacheImpl_Set now key value ttl)) ;;; ret tt
  end.
End manager.

(** ** Lemmas: the first level *)

Section bigcache_lemmas.
Context {B : Type} `{BigCacheLaws B} `{EntryJsonLaws}.
Abbreviation W := (BigCacheImpl B).

(** If the first level answers for [k], it answers [v]; it has no [k]. *)
Definition entry_of (v e : string) : Prop := ∃ ce, entry_Unmarshal e = Ok ce ∧ ce_Value ce = v.
Definition l1_only (k v : string) (w : W) : Prop := ∀ e, bent (bc_cache w) k = Some e → entry_of v e.
Definition l1_none (k : string) (w : W) : Prop := bent (bc_cache w) k = None.

Lemma marshal_entry e : ∃ s, entry_Marshal e = Ok s ∧ entry_of (ce_Value e) s.
Proof. destruct (entry_roundtrip e) as (s & Hm & Hu). exists s. split; [done|]. by exists e. Qed.
Lemma marshal_or_nil_of e : entry_of (ce_Value e) (marshal_or_nil e).
Proof. unfold marshal_or_nil. by destruct (marshal_entry e) as (s & -> & Hs). Qed.
Lemma touch_value now e : ce_Value (touch now e) = ce_Value e.
Proof. by destruct e. Qed.

Lemma l1_only_evicts k v b b' st st' : bevicts b b' →
  l1_only k v (mkBigCacheImpl b st) → l1_only k v (mkBigCacheImpl b' st').
Proof. intros He Hl e Hb. apply Hl, He, Hb. Qed.
Lemma l1_none_evicts k b b' st st' : bevicts b b' →
  l1_none k (mkBigCacheImpl b st) → l1_none k (mkBigCacheImpl b' st').
Proof.
  unfold l1_none. simpl. intros He Hl. destruct (bent b' k) as [e|] eqn:E; [|done].
  apply He in E. congruence.
Qed.

(** What a write does to the knowledge about [k]. *)
Lemma big_Set_only k v k' e b st st' : (k' = k → entry_of v e) →
  l1_only k v (mkBigCacheImpl b st) → l1_only k v (mkBigCacheImpl (big_Set k' e b).2 st').
Proof. intros He Hl e' [[-> ->]|[Hb _]]%big_Set_stores; [by apply He | by apply Hl]. Qed.
Lemma big_Set_none k k' e b st st' : k' ≠ k →
  l1_none k (mkBigCacheImpl b st) → l1_none k (mkBigCacheImpl (big_Set k' e b).2 st').
Proof.
  unfold l1_none. simpl. intros Hne Hl. destruct (bent (big_Set k' e b).2 k) as [e'|] eqn:E; [|done].
  apply big_Set_stores in E as [[-> _]|[Hb _]]; [done | congruence].
Qed.

(** A read: its answer is the stored value, and what it writes back is the
    touched entry. *)
Lemma BigCacheImpl_Get_cases now k (w : W) :
  (is_ok (BigCacheImpl_Get now k w).1 = false ∧
   bevicts (bc_cache w) (bc_cache (BigCacheImpl_Get now k w).2)) ∨
  (∃ e ce b, bent (bc_cache w) k = Some e ∧ entry_Unmarshal e = Ok ce ∧ bevicts (bc_cache w) b ∧
     (BigCacheImpl_Get now k w).1 = Ok (ce_Value ce) ∧
     bc_cache (BigCacheImpl_Get now k w).2 = (big_Set k (marshal_or_nil (touch now ce)) b).2).
Proof.
  unfold BigCacheImpl_Get, on_big, big_stats. destruct (String.eqb k ""); [left; split; [done|]; by intros ??|].
  rewrite bind_attempt, zoom_eq. pose proof (big_Get_evicts (bc_cache w) k) as Hev.
  destruct (big_Get k (bc_cache w)) as [[e|err] b1] eqn:E; cbn [fst snd] in *.
  2:{ left. destruct (is_sentinel _ _); split; done. }
  apply big_Get_ok in E. destruct (entry_Unmarshal e) as [ce|err] eqn:Eu; [|left; by split].
  destruct (_ && _).
  - left. rewrite bind_attempt, zoom_eq. split; [done|]. intros k' e' Hb. apply Hev.
    by apply (big_Delete_evicts b1 k) in Hb.
  - right. exists e, ce, b1. rewrite bind_attempt, zoom_eq. by split_and!.
Qed.

Lemma Get_only k v now k' : preserves (l1_only k v) (BigCacheImpl_Get now k').
Proof.
  intros [b st] Hw. destruct (BigCacheImpl_Get_cases now k' (mkBigCacheImpl b st))
    as [[_ He]|(e & ce & b1 & Hb & Hu & Hev & _ & Hs)];
    destruct (BigCacheImpl_Get now k' _) as [r [b' st']]; simpl in *.
  - by eapply l1_only_evicts.
  - subst b'. eapply big_Set_only; [|by eapply (l1_only_evicts _ _ _ _ st)].
    intros ->. destruct (Hw _ Hb) as (ce' & Hu' & <-). rewrite Hu in Hu'. injection Hu' as <-.
    rewrite <- (touch_value now ce). apply marshal_or_nil_of.
  Unshelve. exact st.
Qed.
Lemma Get_none k now k' : preserves (l1_none k) (BigCacheImpl_Get now k').
Proof.
  intros [b st] Hw. destruct (BigCacheImpl_Get_cases now k' (mkBigCacheImpl b st))
    as [[_ He]|(e & ce & b1 & Hb & Hu & Hev & _ & Hs)];
    destruct (BigCacheImpl_Get now k' _) as [r [b' st']]; simpl in *.
  - by eapply l1_none_evicts.
  - subst b'. eapply big_Set_none; [|by eapply (l1_none_evicts _ _ _ st)].
    intros ->. unfold l1_none in Hw. simpl in Hw. congruence.
  Unshelve. exact st.
Qed.
Lemma Get_only_value k v now (w : W) x : l1_only k v w → (BigCacheImpl_Get now k w).1 = Ok x → x = v.
Proof.
  intros Hw Hr. destruct (BigCacheImpl_Get_cases now k w) as [[Hf _]|(e & ce & b1 & Hb & Hu & _ & Hv & _)].
  - by rewrite Hr in Hf.
  - destruct (Hw _ Hb) as (ce' & Hu' & <-). congruence.
Qed.
Lemma Get_none_value k now (w : W) : l1_none k w → is_ok (BigCacheImpl_Get now k w).1 = false.
Proof.
  intros Hw. destruct (BigCacheImpl_Get_cases now k w) as [[Hf _]|(e & ce & b1 & Hb & _)]; [done|].
  unfold l1_none in Hw. congruence.
Qed.

Lemma Set_only k v now k' x ttl : (k' = k → x = v) →
  preserves (l1_only k v) (BigCacheImpl_Set now k' x ttl).
Proof.
  intros Hx [b st] Hw. unfold BigCacheImpl_Set, on_big, big_stats.
  destruct (String.eqb k' ""); [done|].
  destruct (marshal_entry (new_entry k' x ttl now 1)) as (e & -> & He).
  rewrite bind_wrap_err, zoom_eq. cbn [fst snd bc_cache bc_stats].
  assert (Hs : ∀ st', l1_only k v (mkBigCacheImpl (big_Set k' e b).2 st')).
  { intros st'. apply (big_Set_only k v k' e b st); [|done]. intros Hk. by rewrite <- (Hx Hk). }
  destruct (big_Set k' e b).1; apply Hs.
Qed.
Lemma Set_none k now k' x ttl : k' ≠ k → preserves (l1_none k) (BigCacheImpl_Set now k' x ttl).
Proof.
  intros Hx [b st] Hw. unfold BigCacheImpl_Set, on_big, big_stats.
  destruct (String.eqb k' ""); [done|].
  destruct (marshal_entry (new_entry k' x ttl now 1)) as (e & -> & He).
  rewrite bind_wrap_err, zoom_eq. cbn [fst snd bc_cache bc_stats].
  assert (Hs : ∀ st', l1_none k (mkBigCacheImpl (big_Set k' e b).2 st'))
    by (intros st'; by apply (big_Set_none k k' e b st)).
  destruct (big_Set k' e b).1; apply Hs.
Qed.
(** A write that succeeded: the old value cannot come back. *)
Lemma Set_ok_only k v now ttl (w w' : W) :
  BigCacheImpl_Set now k v ttl w = (Ok tt, w') → l1_only k v w'.
Proof.
  unfold BigCacheImpl_Set, on_big, big_stats. destruct (String.eqb k ""); [done|].
  destruct (marshal_entry (new_entry k v ttl now 1)) as (e & -> & He).
  rewrite bind_wrap_err, zoom_eq. cbn [fst snd].
  pose proof (big_Set_stores (bc_cache w) k e k) as Hs.
  destruct (big_Set k e (bc_cache w)) as [[[]|err] b']; [|done]. intros [= <-] e' Hb.
  apply Hs in Hb as [[_ ->]|[_ Hf]]; [done | by specialize (Hf eq_refl)].
Qed.

Lemma Delete_only k v k' : preserves (l1_only k v) (BigCacheImpl_Delete k').
Proof.
  intros [b st] Hw. unfold BigCacheImpl_Delete, on_big, big_stats.
  destruct (String.eqb k' ""); [done|]. rewrite bind_wrap_err, zoom_eq. cbn [fst snd bc_cache bc_stats].
  destruct (big_Delete k' b).1; eapply l1_only_evicts; eauto using big_Delete_evicts.
Qed.
Lemma Delete_none k k' : preserves (l1_none k) (BigCacheImpl_Delete k').
Proof.
  intros [b st] Hw. unfold BigCacheImpl_Delete, on_big, big_stats.
  destruct (String.eqb k' ""); [done|]. rewrite bind_wrap_err, zoom_eq. cbn [fst snd bc_cache bc_stats].
  destruct (big_Delete k' b).1; eapply l1_none_evicts; eauto using big_Delete_evicts.
Qed.
Lemma Delete_gone k (w : W) : k ≠ "" →
  unless_not_found (BigCacheImpl_Delete k w).1 = Ok tt → l1_none k (BigCacheImpl_Delete k w).2.
Proof.
  intros Hk. unfold BigCacheImpl_Delete, on_big, big_stats.
  destruct (String.eqb_spec k ""); [done|]. rewrite bind_wrap_err, zoom_eq. cbn [fst snd].
  destruct (big_Delete k (bc_cache w)) as [r b'] eqn:E. pose proof (big_Delete_gone _ _ _ _ E) as Hg.
  unfold l1_none. destruct r as [[]|[]]; simpl; try done; [by intros _; apply Hg; left|].
  intros Hn. apply Hg. right. destruct l; try discriminate Hn. by exists text.
Qed.

Lemma Exists_bevicts k (w : W) : bevicts (bc_cache w) (bc_cache (BigCacheImpl_Exists k w).2).
Proof.
  unfold BigCacheImpl_Exists, on_big. destruct (String.eqb k ""); [by intros ??|].
  rewrite bind_attempt, zoom_eq. pose proof (big_Get_evicts (bc_cache w) k) as Hev.
  destruct (big_Get k (bc_cache w)) as [[e|err] b1]; cbn [fst snd] in *; [done|].
  by destruct (is_sentinel _ _).
Qed.
Lemma Exists_only k v k' : preserves (l1_only k v) (BigCacheImpl_Exists k').
Proof.
  intros [b st] Hw. pose proof (Exists_bevicts k' (mkBigCacheImpl b st)) as He.
  destruct (BigCacheImpl_Exists k' _) as [r [b' st']]. by eapply l1_only_evicts.
Qed.
Lemma Exists_none k k' : preserves (l1_none k) (BigCacheImpl_Exists k').
Proof.
  intros [b st] Hw. pose proof (Exists_bevicts k' (mkBigCacheImpl b st)) as He.
  destruct (BigCacheImpl_Exists k' _) as [r [b' st']]. by eapply l1_none_evicts.
Qed.
Lemma Exists_none_value k (w : W) : l1_none k w → (BigCacheImpl_Exists k w).1 ≠ Ok true.
Proof.
  unfold l1_none, BigCacheImpl_Exists, on_big. intros Hn. destruct (String.eqb k ""); [done|].
  rewrite bind_attempt, zoom_eq. destruct (big_Get k (bc_cache w)) as [[e|err] b1] eqn:E;
    cbn [fst snd]; [apply big_Get_ok in E; congruence|]. by destruct (is_sentinel _ _).
Qed.
End bigcache_lemmas.

(** ** Lemmas: the second level *)

Section redis_lemmas.
Context {R : Type} `{RedisKVLaws R} `{EntryJsonLaws}.
Abbreviation W := (RedisCacheImpl R).
Abbreviation full k := (full_key k).

(** Redis holds the value [v] of [k] at least until [d]; it has no [k]. *)
Definition l2_has (k v : string) (d : Z) (w : W) : Prop :=
  ∃ s ce, rval (rc_client w) (full k) = Some (s, Some (ce_CreatedAt ce + ce_TTL ce)) ∧
    entry_Unmarshal s = Ok ce ∧ ce_Value ce = v ∧ d ≤ ce_CreatedAt ce + ce_TTL ce.
Definition l2_none (k : string) (w : W) : Prop := rval (rc_client w) (full k) = None.

Lemma full_inj k k' : full k = full k' → k = k'.
Proof. apply str_app_inj_l. Qed.

(** Nothing a read or a write of another key does is seen at [k]. *)
Lemma l2_has_same k v d now r r' st st' : now < d → rsame now r r' (full k) →
  l2_has k v d (mkRedisCacheImpl r st) → l2_has k v d (mkRedisCacheImpl r' st').
Proof.
  intros Hd Hs (s & ce & Hv & Hu & Hval & Hle). exists s, ce. simpl in *.
  destruct Hs as [->|[_ Hl]]; [done|]. rewrite Hv in Hl. simpl in Hl.
  destruct (Z.ltb_spec now (ce_CreatedAt ce + ce_TTL ce)); [done | lia].
Qed.
Lemma l2_none_same k now r r' st st' : rsame now r r' (full k) →
  l2_none k (mkRedisCacheImpl r st) → l2_none k (mkRedisCacheImpl r' st').
Proof. unfold l2_none. simpl. intros [->|[-> _]]; done. Qed.

Lemma rsame_trans now r1 r2 r3 k : rsame now r1 r2 k → rsame now r2 r3 k → rsame now r1 r3 k.
Proof.
  intros [E1|[E1 L1]] [E2|[E2 L2]]; unfold rsame;
    [left; by rewrite E2 | right; by rewrite E2, <- E1 | right; by rewrite E2, E1 | right; done].
Qed.

(** A read: either nothing is written, or the touched entry is written back
    with the rest of its life. *)
Lemma RedisCacheImpl_Get_cases now k (w : W) :
  (is_ok (RedisCacheImpl_Get now k w).1 = false ∧
   ∀ k', rsame now (rc_client w) (rc_client (RedisCacheImpl_Get now k w).2) k') ∨
  (∃ s ce r, rlive now (rval (rc_client w) (full k)) = Some s ∧ entry_Unmarshal s = Ok ce ∧
     (∀ k', rsame now (rc_client w) r k') ∧
     (RedisCacheImpl_Get now k w).1 = Ok (ce_Value ce) ∧
     rc_client (RedisCacheImpl_Get now k w).2 =
       (rc_Set now (full k) (marshal_or_nil (touch now ce)) (ce_CreatedAt ce + ce_TTL ce - now) r).2).
Proof.
  unfold RedisCacheImpl_Get, on_client, redis_stats.
  destruct (String.eqb k ""); [left; split; [done|]; by left|].
  rewrite bind_attempt, zoom_eq. pose proof (rc_Get_same (rc_client w) (full k) now) as Hev.
  destruct (rc_Get now (full k) (rc_client w)) as [[s|err] r1] eqn:E; cbn [fst snd] in *.
  2:{ left. destruct (is_sentinel _ _); split; done. }
  apply rc_Get_ok in E. destruct (entry_Unmarshal s) as [ce|err] eqn:Eu; [|left; by split].
  right. exists s, ce, r1. rewrite bind_attempt, zoom_eq. by split_and!.
Qed.

Lemma touch_deadline now e : ce_CreatedAt (touch now e) + ce_TTL (touch now e) = ce_CreatedAt e + ce_TTL e.
Proof. by destruct e. Qed.

Lemma l2_get_has k v d now k' : now < d → preserves (l2_has k v d) (RedisCacheImpl_Get now k').
Proof.
  intros Hd [r0 st] Hw. destruct (RedisCacheImpl_Get_cases now k' (mkRedisCacheImpl r0 st))
    as [[_ He]|(s & ce & r & Hl & Hu & Hs & _ & Hset)];
    destruct (RedisCacheImpl_Get now k' _) as [res [r' st']]; simpl in *.
  - eapply (l2_has_same k v d now r0 r' st); [done | apply He | done].
  - apply (l2_has_same k v d now r0 r st st' Hd (Hs _)) in Hw. subst r'.
    destruct (decide (full k' = full k)) as [Ek|Hne].
    2:{ eapply (l2_has_same _ _ _ now r _ st'); [done | by apply rc_Set_same | done]. }
    apply full_inj in Ek as ->. destruct Hw as (s2 & ce2 & Hv2 & Hu2 & Hval & Hle). simpl in Hv2.
    assert (s2 = s ∧ now < ce_CreatedAt ce2 + ce_TTL ce2) as [-> Hlt].
    { split; [|lia]. destruct (Hs (full k)) as [E|[E _]]; [|congruence]. rewrite <- E, Hv2 in Hl.
      simpl in Hl. destruct (Z.ltb_spec now (ce_CreatedAt ce2 + ce_TTL ce2)); [congruence|lia]. }
    rewrite Hu in Hu2. injection Hu2 as <-.
    destruct (entry_roundtrip (touch now ce)) as (s3 & Hm3 & Hu3).
    unfold marshal_or_nil. rewrite Hm3.
    assert (Hnew : ∀ r'', rval r'' (full k) = Some (s3, Some (now + (ce_CreatedAt ce + ce_TTL ce - now)))
              → l2_has k v d (mkRedisCacheImpl r'' st')).
    { intros r'' E. exists s3, (touch now ce). simpl. rewrite E, touch_deadline, touch_value.
      split_and!; [do 3 f_equal; lia | done | done | done]. }
    destruct (rc_Set now (full k) s3 _ r) as [[[]|e] r''] eqn:Eset; simpl.
    + apply rc_Set_ok in Eset; [by apply Hnew | lia].
    + apply rc_Set_err in Eset as [Eset|Eset]; [ |by apply Hnew | lia].
      eapply (l2_has_same _ _ _ now r _ st'); [done | exact Eset |]. by exists s, ce.
Qed.
Lemma l2_get_none k now k' : preserves (l2_none k) (RedisCacheImpl_Get now k').
Proof.
  intros [r0 st] Hw. destruct (RedisCacheImpl_Get_cases now k' (mkRedisCacheImpl r0 st))
    as [[_ He]|(s & ce & r & Hl & Hu & Hs & _ & Hset)];
    destruct (RedisCacheImpl_Get now k' _) as [res [r' st']]; simpl in *.
  - eapply (l2_none_same k now r0 r' st); [apply He | done].
  - subst r'. destruct (decide (full k' = full k)) as [Ek|Hne].
    + rewrite Ek in Hl. unfold l2_none in Hw. simpl in Hw. by rewrite Hw in Hl.
    + eapply (l2_none_same k now r0 _ st); [|done].
      eapply rsame_trans; [apply Hs | by apply rc_Set_same].
Qed.
Lemma l2_get_value k v d now (w : W) : redis_reachable (R:=R) → k ≠ "" → now < d → l2_has k v d w →
  (RedisCacheImpl_Get now k w).1 = Ok v.
Proof.
  intros Hup Hk Hd (s & ce & Hv & Hu & <- & Hle).
  unfold RedisCacheImpl_Get, on_client, redis_stats. destruct (String.eqb_spec k ""); [done|].
  rewrite bind_attempt, zoom_eq. destruct (Hup (rc_client w) now (full k)) as [Hup1 _].
  destruct (rc_Get now (full k) (rc_client w)) as [[s'|err] r1] eqn:E; cbn [fst snd] in *.
  - apply rc_Get_ok in E. rewrite Hv in E. simpl in E.
    destruct (Z.ltb_spec now (ce_CreatedAt ce + ce_TTL ce)); [|lia]. injection E as ->.
    rewrite Hu. by rewrite bind_attempt, zoom_eq.
  - destruct (Hup1 err eq_refl) as [t ->]. apply rc_Get_nil in E. rewrite Hv in E. simpl in E.
    destruct (Z.ltb_spec now (ce_CreatedAt ce + ce_TTL ce)); [done|lia].
Qed.
Lemma l2_get_none_value k now (w : W) : l2_none k w → is_ok (RedisCacheImpl_Get now k w).1 = false.
Proof.
  intros Hn. destruct (RedisCacheImpl_Get_cases now k w) as [[Hf _]|(s & ce & r & Hl & _)]; [done|].
  unfold l2_none in Hn. by rewrite Hn in Hl.
Qed.

Lemma l2_set_has k v d now k' x ttl : now < d → k' ≠ k →
  preserves (l2_has k v d) (RedisCacheImpl_Set now k' x ttl).
Proof.
  intros Hd Hne [r st] Hw. unfold RedisCacheImpl_Set, SetWithVersion, on_client, redis_stats.
  destruct (String.eqb k' ""); [done|]. destruct (marshal_entry (new_entry k' x ttl now 1)) as (e & -> & _).
  rewrite bind_wrap_err, zoom_eq. cbn [fst snd rc_client rc_stats].
  assert (Hs : ∀ st', l2_has k v d (mkRedisCacheImpl (rc_Set now (full k') e ttl r).2 st')).
  { intros st'. eapply (l2_has_same _ _ _ now r _ st); [done| |done].
    apply rc_Set_same. intros Hf. by apply full_inj in Hf. }
  destruct (rc_Set now (full k') e ttl r).1; apply Hs.
Qed.
Lemma l2_set_none k now k' x ttl : k' ≠ k → preserves (l2_none k) (RedisCacheImpl_Set now k' x ttl).
Proof.
  intros Hne [r st] Hw. unfold RedisCacheImpl_Set, SetWithVersion, on_client, redis_stats.
  destruct (String.eqb k' ""); [done|]. destruct (marshal_entry (new_entry k' x ttl now 1)) as (e & -> & _).
  rewrite bind_wrap_err, zoom_eq. cbn [fst snd rc_client rc_stats].
  assert (Hs : ∀ st', l2_none k (mkRedisCacheImpl (rc_Set now (full k') e ttl r).2 st')).
  { intros st'. eapply (l2_none_same _ now r _ st); [|done].
    apply rc_Set_same. intros Hf. by apply full_inj in Hf. }
  destruct (rc_Set now (full k') e ttl r).1; apply Hs.
Qed.
Lemma l2_set_ok k v now ttl (w w' : W) : 0 < ttl →
  RedisCacheImpl_Set now k v ttl w = (Ok tt, w') → l2_has k v (now + ttl) w'.
Proof.
  intros Ht. unfold RedisCacheImpl_Set, SetWithVersion, on_client, redis_stats.
  destruct (String.eqb k ""); [done|].
  destruct (entry_roundtrip (new_entry k v ttl now 1)) as (s & -> & Hu).
  rewrite bind_wrap_err, zoom_eq. cbn [fst snd].
  destruct (rc_Set now (full k) s ttl (rc_client w)) as [[[]|err] r'] eqn:E; [|done].
  apply rc_Set_ok in E; [|done]. intros [= <-]. exists s, (new_entry k v ttl now 1).
  by split_and!.
Qed.

Lemma l2_delete_same now k' k (w : W) : k' ≠ k →
  rsame now (rc_client w) (rc_client (RedisCacheImpl_Delete now k' w).2) (full k).
Proof.
  intros Hne. unfold RedisCacheImpl_Delete, on_client, redis_stats.
  destruct (String.eqb k' ""); [by left|]. rewrite bind_wrap_err, zoom_eq. cbn [fst snd].
  assert (full k ∉ [full k']) as Hn.
  { intros Hin%list_elem_of_singleton. by apply full_inj in Hin. }
  pose proof (rc_Del_same (rc_client w) _ now _ Hn) as Hs.
  destruct (rc_Del now [full k'] (rc_client w)) as [[n|e] r']; cbn [fst snd] in *; [|done].
  by destruct (_ =? 0)%Z.
Qed.
Lemma l2_delete_has k v d now k' : now < d → k' ≠ k → preserves (l2_has k v d) (RedisCacheImpl_Delete now k').
Proof.
  intros Hd Hne [r st] Hw. pose proof (l2_delete_same now k' k (mkRedisCacheImpl r st) Hne) as Hs.
  destruct (RedisCacheImpl_Delete now k' _) as [res [r' st']]. by eapply (l2_has_same _ _ _ now r).
Qed.
Lemma l2_delete_none k now k' : preserves (l2_none k) (RedisCacheImpl_Delete now k').
Proof.
  intros [r st] Hw. destruct (decide (k' = k)) as [->|Hne].
  - unfold RedisCacheImpl_Delete, on_client, redis_stats.
    destruct (String.eqb k ""); [done|]. rewrite bind_wrap_err, zoom_eq. cbn [fst snd rc_client rc_stats].
    destruct (rc_Del now [full k] r) as [[n|e] r'] eqn:E; cbn [fst snd].
    + eapply rc_Del_ok in E; [|by left]. by destruct (_ =? 0)%Z.
    + pose proof (rc_Del_err _ _ _ _ _ E (full k) ltac:(by left)) as Hx.
      unfold l2_none in *. simpl in *. destruct Hx as [[->|[-> _]]|]; done.
  - pose proof (l2_delete_same now k' k (mkRedisCacheImpl r st) Hne) as Hs.
    destruct (RedisCacheImpl_Delete now k' _) as [res [r' st']]. by eapply (l2_none_same _ now r).
Qed.
Lemma l2_delete_gone k now (w : W) : k ≠ "" →
  unless_not_found (RedisCacheImpl_Delete now k w).1 = Ok tt → l2_none k (RedisCacheImpl_Delete now k w).2.
Proof.
  intros Hk. unfold RedisCacheImpl_Delete, on_client, redis_stats.
  destruct (String.eqb_spec k ""); [done|]. rewrite bind_wrap_err, zoom_eq. cbn [fst snd].
  destruct (rc_Del now [full k] (rc_client w)) as [[m|e] r'] eqn:E; cbn [fst snd].
  - eapply rc_Del_ok in E; [|by left]. by destruct (_ =? 0)%Z.
  - done.
Qed.

Lemma l2_exists_same now k' k (w : W) :
  rsame now (rc_client w) (rc_client (RedisCacheImpl_Exists now k' w).2) (full k).
Proof.
  unfold RedisCacheImpl_Exists, on_client. destruct (String.eqb k' ""); [by left|].
  rewrite bind_wrap_err, zoom_eq. cbn [fst snd].
  pose proof (rc_Exists_same (rc_client w) (full k') now (full k)) as Hs.
  by destruct (rc_Exists now (full k') (rc_client w)) as [[n|e] r'].
Qed.
Lemma l2_exists_value k now (w : W) : redis_reachable (R:=R) → k ≠ "" →
  (RedisCacheImpl_Exists now k w).1
  = Ok (match rlive now (rval (rc_client w) (full k)) with Some _ => true | None => false end).
Proof.
  intros Hup Hk. unfold RedisCacheImpl_Exists, on_client. destruct (String.eqb_spec k ""); [done|].
  rewrite bind_wrap_err, zoom_eq. cbn [fst snd]. destruct (Hup (rc_client w) now (full k)) as [_ Hx].
  destruct (rc_Exists now (full k) (rc_client w)) as [[m|e] r'] eqn:E; [|done].
  apply rc_Exists_ok in E. subst m. simpl. by destruct (rlive _ _).
Qed.
End redis_lemmas.

(** ** Lemmas: the manager *)

Section manager_lemmas.
Context {B R : Type} `{BigCacheLaws B} `{RedisKVLaws R} `{EntryJsonLaws}.
Context (DefaultTTL : Z) (l1_first : bool).
Abbreviation W := (CacheManagerImpl B R).

(** A background write that cannot disturb the value [v] of [k]; one that
    is about another key. *)
Definition harmless (k v : string) (t : task) : Prop :=
  match t with PopulateL1 k' x => k' = k → x = v | WriteL2 k' _ _ => k' ≠ k end.
Definition avoids (k : string) (t : task) : Prop :=
  match t with PopulateL1 k' _ => k' ≠ k | WriteL2 k' _ _ => k' ≠ k end.

(** The manager holds [v] for [k] until [d]; it has no [k]. *)
Definition mhas (k v : string) (d : Z) (w : W) : Prop :=
  l1_only k v (l1Cache w) ∧ l2_has k v d (l2Cache w) ∧ Forall (harmless k v) (pending w).
Definition mabs (k : string) (w : W) : Prop :=
  l1_none k (l1Cache w) ∧ l2_none k (l2Cache w) ∧ Forall (avoids k) (pending w).

Lemma on_l1_has k v d {A} (m : M _ A) : preserves (l1_only k v) m → preserves (mhas k v d) (on_l1 m).
Proof. intros Hm w (H1w & H2w & Hp). unfold on_l1. rewrite zoom_eq. split_and!; [by apply Hm|done|done]. Qed.
Lemma on_l2_has k v d {A} (m : M _ A) : preserves (l2_has k v d) m → preserves (mhas k v d) (on_l2 m).
Proof. intros Hm w (H1w & H2w & Hp). unfold on_l2. rewrite zoom_eq. split_and!; [done|by apply Hm|done]. Qed.
Lemma on_l1_abs k {A} (m : M _ A) : preserves (l1_none k) m → preserves (mabs k) (on_l1 m).
Proof. intros Hm w (H1w & H2w & Hp). unfold on_l1. rewrite zoom_eq. split_and!; [by apply Hm|done|done]. Qed.
Lemma on_l2_abs k {A} (m : M _ A) : preserves (l2_none k) m → preserves (mabs k) (on_l2 m).
Proof. intros Hm w (H1w & H2w & Hp). unfold on_l2. rewrite zoom_eq. split_and!; [done|by apply Hm|done]. Qed.
Lemma go_has k v d t : harmless k v t → preserves (mhas k v d) (go t).
Proof. intros Ht w (H1w & H2w & Hp). split_and!; [done|done|]. simpl. apply Forall_app. by rewrite Forall_singleton. Qed.
Lemma go_abs k t : avoids k t → preserves (mabs k) (go t).
Proof. intros Ht w (H1w & H2w & Hp). split_and!; [done|done|]. simpl. apply Forall_app. by rewrite Forall_singleton. Qed.
Lemma on_tags_has k v d f : preserves (mhas k v d) (on_tags f).
Proof. by intros w Hw. Qed.
Lemma on_tags_abs k f : preserves (mabs k) (on_tags f).
Proof. by intros w Hw. Qed.

Ltac mgr :=
  repeat first [ apply on_l1_has | apply on_l2_has | apply on_l1_abs | apply on_l2_abs
    | apply on_tags_has | apply on_tags_abs | progress preserve ].

(** Operations about other keys. *)
Lemma exists_has k v d now k' : now < d → preserves (mhas k v d) (CacheManagerImpl_Exists now k').
Proof.
  intros Hd. unfold CacheManagerImpl_Exists. mgr; first [apply Exists_only | idtac];
    intros w Hw; destruct w as [r st]; pose proof (l2_exists_same now k' k (mkRedisCacheImpl r st)) as Hs;
    destruct (RedisCacheImpl_Exists now k' _) as [res [r' st']]; by eapply (l2_has_same _ _ _ now r).
Qed.
Lemma exists_abs k now k' : preserves (mabs k) (CacheManagerImpl_Exists now k').
Proof.
  unfold CacheManagerImpl_Exists. mgr; first [apply Exists_none | idtac];
    intros w Hw; destruct w as [r st]; pose proof (l2_exists_same now k' k (mkRedisCacheImpl r st)) as Hs;
    destruct (RedisCacheImpl_Exists now k' _) as [res [r' st']]; by eapply (l2_none_same _ now r).
Qed.
Lemma delete_has k v d now k' : now < d → k' ≠ k →
  preserves (mhas k v d) (CacheManagerImpl_Delete l1_first now k').
Proof.
  intros Hd Hne. unfold CacheManagerImpl_Delete, both. mgr; [apply Delete_only | by apply l2_delete_has].
Qed.
Lemma delete_abs k now k' : preserves (mabs k) (CacheManagerImpl_Delete l1_first now k').
Proof.
  unfold CacheManagerImpl_Delete, both. mgr; [apply Delete_none | by apply l2_delete_none].
Qed.
Lemma invalidate_has k v d now k' : now < d → k' ≠ k →
  preserves (mhas k v d) (InvalidateKey l1_first now k').
Proof.
  intros Hd Hne. unfold InvalidateKey, both, removeKeyFromTags.
  mgr; [apply Delete_only | by apply l2_delete_has].
Qed.
Lemma invalidate_abs k now k' : preserves (mabs k) (InvalidateKey l1_first now k').
Proof.
  unfold InvalidateKey, both, removeKeyFromTags. mgr; [apply Delete_none | by apply l2_delete_none].
Qed.
Lemma set_has k v d now k' x ttl : now < d → k' ≠ k →
  preserves (mhas k v d) (CacheManagerImpl_Set DefaultTTL l1_first now k' x ttl).
Proof.
  intros Hd Hne. unfold CacheManagerImpl_Set, setWriteThrough, setWriteBack, both.
  mgr; first [by apply Set_only | by apply l2_set_has | by apply go_has].
Qed.
Lemma set_abs k now k' x ttl : k' ≠ k →
  preserves (mabs k) (CacheManagerImpl_Set DefaultTTL l1_first now k' x ttl).
Proof.
  intros Hne. unfold CacheManagerImpl_Set, setWriteThrough, setWriteBack, both.
  mgr; first [by apply Set_none | by apply l2_set_none | by apply go_abs].
Qed.

(** A read of the manager, of any key. *)
Lemma get_has k v d now k' : now < d → preserves (mhas k v d) (CacheManagerImpl_Get now k').
Proof.
  intros Hd w Hw. unfold CacheManagerImpl_Get. destruct (String.eqb_spec k' "") as [|Hne]; [done|].
  rewrite bind_attempt. pose proof (on_l1_has k v d _ (Get_only k v now k') w Hw) as Hw1.
  destruct (on_l1 _ w) as [[x|e] w1]; cbn [fst snd] in *; [done|].
  unfold bind at 1. pose proof (on_l2_has k v d _ (l2_get_has k v d now k' Hd) w1 Hw1) as Hw2.
  destruct (on_l2 _ w1) as [[x|e2] w2] eqn:E2; cbn [fst snd] in *; [|done].
  apply (go_has k v d (PopulateL1 k' x)); [|done]. intros ->.
  unfold on_l2 in E2. rewrite zoom_eq in E2. injection E2 as E2 _. destruct Hw1 as (_ & Hl2 & _).
  destruct (RedisCacheImpl_Get_cases now k (l2Cache w1)) as [[Hf _]|(s & ce & r & Hl & Hu & _ & Hr & _)];
    [by rewrite E2 in Hf|].
  destruct Hl2 as (s2 & ce2 & Hv2 & Hu2 & <- & Hle). rewrite Hv2 in Hl. simpl in Hl.
  destruct (Z.ltb_spec now (ce_CreatedAt ce2 + ce_TTL ce2)); [|lia]. injection Hl as ->. congruence.
Qed.
Lemma get_abs k now k' : preserves (mabs k) (CacheManagerImpl_Get now k').
Proof.
  intros w Hw. unfold CacheManagerImpl_Get. destruct (String.eqb_spec k' "") as [|Hne]; [done|].
  rewrite bind_attempt. pose proof (on_l1_abs k _ (Get_none k now k') w Hw) as Hw1.
  destruct (on_l1 _ w) as [[x|e] w1]; cbn [fst snd] in *; [done|].
  unfold bind at 1. pose proof (on_l2_abs k _ (l2_get_none k now k') w1 Hw1) as Hw2.
  destruct (on_l2 _ w1) as [[x|e2] w2] eqn:E2; cbn [fst snd] in *; [|done].
  apply (go_abs k (PopulateL1 k' x)); [|done]. intros ->.
  unfold on_l2 in E2. rewrite zoom_eq in E2. injection E2 as E2 _. destruct Hw1 as (_ & Hl2 & _).
  pose proof (l2_get_none_value k now (l2Cache w1) Hl2) as Hf. by rewrite E2 in Hf.
Qed.
Lemma get_has_value k v d now (w : W) : redis_reachable (R:=R) → k ≠ "" → now < d → mhas k v d w →
  (CacheManagerImpl_Get now k w).1 = Ok v.
Proof.
  intros Hup Hk Hd Hw. unfold CacheManagerImpl_Get. destruct (String.eqb_spec k ""); [done|].
  rewrite bind_attempt. pose proof (on_l1_has k v d _ (Get_only k v now k) w Hw) as Hw1.
  unfold on_l1 in *. rewrite zoom_eq in *. cbn [fst snd] in *.
  destruct (BigCacheImpl_Get now k (l1Cache w)).1 as [x|e] eqn:E1.
  - simpl. f_equal. destruct Hw as [Hw _]. by eapply Get_only_value.
  - unfold on_l2. destruct Hw1 as (_ & Hl2 & _).
    pose proof (l2_get_value k v d now _ Hup Hk Hd Hl2) as Hv. unfold bind at 1. rewrite zoom_eq.
    cbn [l2Cache] in *. by rewrite Hv.
Qed.
Lemma get_abs_value k now (w : W) : mabs k w → is_ok (CacheManagerImpl_Get now k w).1 = false.
Proof.
  intros Hw. unfold CacheManagerImpl_Get. destruct (String.eqb_spec k ""); [done|].
  rewrite bind_attempt. pose proof (on_l1_abs k _ (Get_none k now k) w Hw) as Hw1.
  unfold on_l1 in *. rewrite zoom_eq in *. cbn [fst snd] in *. destruct Hw as [Hw _].
  pose proof (Get_none_value k now _ Hw) as Hf.
  destruct (BigCacheImpl_Get now k (l1Cache w)).1 as [x|e]; [done|].
  unfold on_l2. destruct Hw1 as (_ & Hl2 & _).
  pose proof (l2_get_none_value k now _ Hl2) as Hv. unfold bind at 1. rewrite zoom_eq.
  cbn [l2Cache] in *. by destruct (RedisCacheImpl_Get now k (l2Cache w)).1.
Qed.

(** Background writes. *)
Lemma task_has k v d now t : now < d → harmless k v t →
  preserves (mhas k v d) (run_task DefaultTTL now t).
Proof.
  intros Hd Ht. destruct t as [k' x|k' x ttl]; simpl in *; mgr;
    [by apply Set_only | by apply l2_set_has].
Qed.
Lemma task_abs k now t : avoids k t → preserves (mabs k) (run_task DefaultTTL now t).
Proof.
  intros Ht. destruct t as [k' x|k' x ttl]; simpl in *; mgr;
    [by apply Set_none | by apply l2_set_none].
Qed.

(** A successful write or delete, with no background write outstanding. *)
Lemma set_ok now k v ttl (w w' : W) : 0 < ttl → cm_strategy w ≠ WriteBack → pending w = [] →
  CacheManagerImpl_Set DefaultTTL l1_first now k v ttl w = (Ok tt, w') → mhas k v (now + ttl) w'.
Proof.
  intros Ht Hst Hp. unfold CacheManagerImpl_Set. destruct (String.eqb k ""); [done|].
  destruct (Z.eqb_spec ttl 0); [lia|]. rewrite bind_gets.
  assert (∀ {A} (x y : A), match cm_strategy w with WriteBack => y | _ => x end = x) as Hm
    by (intros; by destruct (cm_strategy w)).
  intros Hr. assert (Hr' : setWriteThrough l1_first now k v ttl w = (Ok tt, w'))
    by (revert Hr; clear -Hst; by destruct (cm_strategy w)). clear Hr Hm.
  unfold setWriteThrough, both, on_l1, on_l2 in Hr'. rewrite !bind_attempt, !zoom_eq in Hr'.
  cbn [fst snd l2Cache] in Hr'.
  destruct (BigCacheImpl_Set now k v ttl (l1Cache w)) as [[[]|e1] c1] eqn:E1; cbn [fst snd] in Hr'.
  2:{ destruct (RedisCacheImpl_Set now k v ttl (l2Cache w)).1; discriminate Hr'. }
  destruct (RedisCacheImpl_Set now k v ttl (l2Cache w)) as [[[]|e2] c2] eqn:E2; [|discriminate Hr'].
  injection Hr' as <-. split_and!; simpl; [by eapply Set_ok_only | by eapply l2_set_ok | by rewrite Hp].
Qed.

Lemma first_error_ok r1 r2 : first_error l1_first r1 r2 = Ok tt → r1 = Ok tt ∧ r2 = Ok tt.
Proof. destruct r1 as [[]|], r2 as [[]|]; by intros. Qed.

Lemma delete_ok now k (w w' : W) : pending w = [] →
  CacheManagerImpl_Delete l1_first now k w = (Ok tt, w') → mabs k w'.
Proof.
  intros Hp. unfold CacheManagerImpl_Delete. destruct (String.eqb_spec k "") as [|Hk]; [done|].
  unfold both, on_l1, on_l2. rewrite !bind_attempt, !zoom_eq. cbn [fst snd l2Cache].
  unfold lift_res. intros [= Hr <-]. apply first_error_ok in Hr as [Hr1 Hr2].
  split_and!; simpl; [by apply Delete_gone | by apply l2_delete_gone | by rewrite Hp].
Qed.
End manager_lemmas.

(** ** Traces *)

(** What the callers and the started goroutines do, in any order; each event
    has its own clock reading. *)
Inductive cache_event :=
| EvGet (key : string) | EvSet (key value : string) (ttl : Z) | EvDelete (key : string)
| EvExists (key : string) | EvInvalidateKey (key : string) | EvBackground (i : nat).

Definition writes (k : string) (e : cache_event) : bool :=
  match e with
  | EvSet k' _ _ | EvDelete k' | EvInvalidateKey k' => String.eqb k' k
  | EvGet _ | EvExists _ | EvBackground _ => false
  end.
Definition sets (k : string) (e : cache_event) : bool :=
  match e with EvSet k' _ _ => String.eqb k' k | _ => false end.

Section traces.
Context {B R : Type} `{BigCacheLib B} `{RedisKV R} `{EntryJson}.
Context (DefaultTTL : Z) (l1_first : bool).
Abbreviation W := (CacheManagerImpl B R).

Definition background (now : Z) (i : nat) : M W unit :=
  let* tasks := gets (λ w : W, pending w) in
  match tasks !! i with
  | None => ret tt
  | Some t =>
      modify (λ w, mkCacheManager (l1Cache w) (l2Cache w) (cm_strategy w) (taggedKeys w)
                     (take i (pending w) ++ drop (S i) (pending w))) ;;;
      run_task DefaultTTL now t
  end.

Definition cache_step (e : Z * cache_event) (w : W) : W :=
  let now := e.1 in
  match e.2 with
  | EvGet k => (CacheManagerImpl_Get now k w).2
  | EvSet k v ttl => (CacheManagerImpl_Set DefaultTTL l1_first now k v ttl w).2
  | EvDelete k => (CacheManagerImpl_Delete l1_first now k w).2
  | EvExists k => (CacheManagerImpl_Exists now k w).2
  | EvInvalidateKey k => (InvalidateKey l1_first now k w).2
  | EvBackground i => (background now i w).2
  end.
Definition cache_run (es : list (Z * cache_event)) (w : W) : W := fold_left (λ w e, cache_step e w) es w.
End traces.

Section trace_lemmas.
Context {B R : Type} `{BigCacheLaws B} `{RedisKVLaws R} `{EntryJsonLaws}.
Context (DefaultTTL : Z) (l1_first : bool).
Abbreviation W := (CacheManagerImpl B R).
Abbreviation run := (cache_run (B:=B) (R:=R) DefaultTTL l1_first).

Lemma forall_without {A} (P : A → Prop) l i : Forall P l → Forall P (take i l ++ drop (S i) l).
Proof. intros Hl. apply Forall_app. split; [by apply Forall_take | by apply Forall_drop]. Qed.

Lemma background_has k v d now i : now < d → preserves (mhas (B:=B) (R:=R) k v d) (background DefaultTTL now i).
Proof.
  intros Hd w (Hl1 & Hl2 & Hp). unfold background. rewrite bind_gets.
  destruct (pending w !! i) as [t|] eqn:E; [|by split_and!]. rewrite bind_modify.
  apply task_has; [done | by eapply Forall_lookup_1 | split_and!; [done|done|]].
  simpl. by apply forall_without.
Qed.
Lemma background_abs k now i : preserves (mabs (B:=B) (R:=R) k) (background DefaultTTL now i).
Proof.
  intros w (Hl1 & Hl2 & Hp). unfold background. rewrite bind_gets.
  destruct (pending w !! i) as [t|] eqn:E; [|by split_and!]. rewrite bind_modify.
  apply task_abs; [by eapply Forall_lookup_1 | split_and!; [done|done|]].
  simpl. by apply forall_without.
Qed.

Lemma step_has k v d e (w : W) : e.1 < d → writes k e.2 = false → mhas k v d w →
  mhas k v d (cache_step DefaultTTL l1_first e w).
Proof.
  destruct e as [now []]; simpl; intros Hd Hk Hw;
    first [ by apply get_has | by apply exists_has | by apply background_has
          | apply String.eqb_neq in Hk;
            first [by apply set_has | by apply delete_has | by apply invalidate_has] ].
Qed.
Lemma step_abs k e (w : W) : sets k e.2 = false → mabs k w →
  mabs k (cache_step DefaultTTL l1_first e w).
Proof.
  destruct e as [now []]; simpl; intros Hk Hw;
    first [ by apply get_abs | by apply exists_abs | by apply background_abs | by apply delete_abs
          | by apply invalidate_abs | apply String.eqb_neq in Hk; by apply set_abs ].
Qed.
Lemma run_has k v d es (w : W) : Forall (λ e, e.1 < d ∧ writes k e.2 = false) es →
  mhas k v d w → mhas k v d (run es w).
Proof.
  revert w. induction es as [|e es IH]; intros w Hes Hw; [done|].
  apply Forall_cons in Hes as [[Hd Hk] Hes]. simpl. apply IH; [done|]. by apply step_has.
Qed.
Lemma run_abs k es (w : W) : Forall (λ e, sets k e.2 = false) es → mabs k w → mabs k (run es w).
Proof.
  revert w. induction es as [|e es IH]; intros w Hes Hw; [done|].
  apply Forall_cons in Hes as [Hk Hes]. simpl. apply IH; [done|]. by apply step_abs.
Qed.
End trace_lemmas.

(** ** A background write lands *)
Section populate.
Context {B R : Type} `{BigCacheLaws B} `{RedisKV R} `{EntryJsonLaws}.
Context (DefaultTTL : Z) (l1_first : bool).
Abbreviation W := (CacheManagerImpl B R).

(** BigCache stores [k], and still has it. *)
Definition l1_stores (k : string) : Prop := ∀ (b : B) e, is_ok (big_Set k e b).1 = true.
Definition l1_keeps (k : string) (w : W) : Prop :=
  is_ok (big_Get k (bc_cache (l1Cache w))).1 = true.

Lemma populated now k v now' (w : W) : k ≠ "" → l1_stores k →
  let w' := (run_task DefaultTTL now (PopulateL1 k v) w).2 in
  l1_keeps k w' → now' ≤ now + DefaultTTL → (CacheManagerImpl_Get now' k w').1 = Ok v.
Proof.
  intros Hk Hst w' Hg Hn. unfold CacheManagerImpl_Get. destruct (String.eqb_spec k ""); [done|].
  rewrite bind_attempt. unfold on_l1 at 1. rewrite zoom_eq. cbn [fst].
  assert (Hs : ∃ s b, entry_Unmarshal s = Ok (new_entry k v DefaultTTL now 1) ∧
    bc_cache (l1Cache w') = (big_Set k s b).2).
  { destruct (entry_roundtrip (new_entry k v DefaultTTL now 1)) as (s & Hm & Hu).
    exists s, (bc_cache (l1Cache w)). split; [done|]. unfold w', run_task, on_l1.
    rewrite bind_attempt, zoom_eq. unfold BigCacheImpl_Set, on_big, big_stats.
    destruct (String.eqb_spec k ""); [done|]. rewrite Hm, bind_wrap_err, zoom_eq. cbn [fst snd].
    by destruct (big_Set k s (bc_cache (l1Cache w))).1. }
  destruct Hs as (s & b & Hu & Hb). unfold l1_keeps in Hg.
  unfold BigCacheImpl_Get, on_big. destruct (String.eqb_spec k ""); [done|].
  rewrite bind_attempt, zoom_eq. destruct (big_Get k (bc_cache (l1Cache w'))) as [[e|e] b'] eqn:Eg; [|done].
  apply big_Get_ok in Eg. rewrite Hb in Eg.
  apply big_Set_stores in Eg as [[_ ->]|[_ Hf]]; [|specialize (Hf eq_refl); by rewrite Hst in Hf].
  cbn [fst snd]. rewrite Hu. cbn [ce_TTL ce_CreatedAt new_entry].
  destruct (Z.ltb_spec DefaultTTL (now' - now)); [lia|]. rewrite andb_false_r.
  by rewrite bind_attempt, zoom_eq.
Qed.

(** A read that misses the first level leaves the write that refills it. *)
Lemma Get_refills now k v (w : W) : pending w = [] →
  is_ok (BigCacheImpl_Get now k (l1Cache w)).1 = false →
  (CacheManagerImpl_Get now k w).1 = Ok v →
  k ≠ "" ∧ pending (CacheManagerImpl_Get now k w).2 = [PopulateL1 k v].
Proof.
  intros Hp Hm. unfold CacheManagerImpl_Get. destruct (String.eqb_spec k "") as [|Hk]; [done|].
  rewrite bind_attempt. unfold on_l1. rewrite zoom_eq. cbn [fst snd].
  destruct (BigCacheImpl_Get now k (l1Cache w)).1 as [x|e]; [done|].
  unfold on_l2. unfold bind at 1 3. rewrite zoom_eq. cbn [fst snd l2Cache].
  destruct (RedisCacheImpl_Get now k (l2Cache w)).1 as [x|e2]; [|done].
  unfold go. rewrite !bind_modify. cbn [fst snd pending]. intros [= ->]. by rewrite Hp.
Qed.

Lemma background_first now t (w : W) l : pending w = t :: l →
  ∃ w', background DefaultTTL now 0 w = run_task DefaultTTL now t w'.
Proof. intros Hp. unfold background. rewrite bind_gets, Hp. by eexists. Qed.

Lemma both_pending (m1 m2 : M W unit) keep (w : W) :
  (∀ w, pending (m1 w).2 = pending w) → (∀ w, pending (m2 w).2 = pending w) →
  pending (both l1_first m1 m2 keep w).2 = pending w.
Proof. intros Hm1 Hm2. unfold both. rewrite !bind_attempt. unfold lift_res. cbn [snd]. by rewrite Hm2. Qed.
Lemma Delete_pending now k (w : W) :
  pending (CacheManagerImpl_Delete l1_first now k w).2 = pending w.
Proof.
  unfold CacheManagerImpl_Delete. destruct (String.eqb k ""); [done|].
  apply both_pending; intros w'; unfold on_l1, on_l2; by rewrite zoom_eq.
Qed.
End populate.

(** ** Properties *)


(** Deletion is final.  With no background write outstanding, a key whose
    [Delete] succeeded on both levels is not found again before it is set
    again, whatever else happens. *)
Theorem manager_delete_is_final {B R} `{BigCacheLaws B} `{RedisKVLaws R} `{EntryJsonLaws}
    DefaultTTL l1_first now k (w w' : CacheManagerImpl B R) es now' :
  pending w = [] → CacheManagerImpl_Delete l1_first now k w = (Ok tt, w') →
  Forall (λ e, sets k e.2 = false) es →
  is_ok (CacheManagerImpl_Get now' k (cache_run DefaultTTL l1_first es w')).1 = false.
Proof.
  intros Hp Hd Hes. apply get_abs_value. apply run_abs; [done|]. by eapply delete_ok.
Qed.

(** An entry can outlive its time to live.  A read that finds the value
    in Redis only refills the first level with the default time to live,
    counted from the read: the value is served for that long, whatever the
    time to live it was stored with. *)
Theorem refilled_entry_outlives_its_ttl {B R} `{BigCacheLaws B} `{RedisKV R} `{EntryJsonLaws}
    DefaultTTL l1_first now k v (w : CacheManagerImpl B R) now' :
  pending w = [] → is_ok (BigCacheImpl_Get now k (l1Cache w)).1 = false →
  (CacheManagerImpl_Get now k w).1 = Ok v → l1_stores (B:=B) k →
  let w' := cache_run DefaultTTL l1_first [(now, EvGet k); (now, EvBackground 0)] w in
  l1_keeps k w' → now' ≤ now + DefaultTTL → (CacheManagerImpl_Get now' k w').1 = Ok v.
Proof.
  intros Hp Hm Hg Hst w' Hk Hn. destruct (Get_refills now k v w Hp Hm Hg) as [Hne Hp1].
  unfold w', cache_run, cache_step in *. cbn [fold_left fst snd] in *.
  destruct (background_first DefaultTTL now _ _ _ Hp1) as [w2 Hb]. rewrite Hb in *. by apply populated.
Qed.

(** A deleted key can return.  When the refill that a read started runs
    after a successful [Delete] of the key, the deleted value is served from
    the first level again, for the default time to live. *)
Theorem late_refill_revives_deleted_key {B R} `{BigCacheLaws B} `{RedisKV R} `{EntryJsonLaws}
    DefaultTTL l1_first now now1 now2 k v (w : CacheManagerImpl B R) now' :
  pending w = [] → is_ok (BigCacheImpl_Get now k (l1Cache w)).1 = false →
  (CacheManagerImpl_Get now k w).1 = Ok v → l1_stores (B:=B) k →
  let w1 := (CacheManagerImpl_Get now k w).2 in
  (CacheManagerImpl_Delete l1_first now1 k w1).1 = Ok tt →
  let w' := cache_run DefaultTTL l1_first
              [(now, EvGet k); (now1, EvDelete k); (now2, EvBackground 0)] w in
  l1_keeps k w' → now' ≤ now2 + DefaultTTL → (CacheManagerImpl_Get now' k w').1 = Ok v.
Proof.
  intros Hp Hm Hg Hst w1 _ w' Hk Hn. destruct (Get_refills now k v w Hp Hm Hg) as [Hne Hp1].
  unfold w', cache_run, cache_step in *. cbn [fold_left fst snd] in *. fold w1 in Hp1, Hk |- *.
  rewrite <- (Delete_pending l1_first now1 k w1) in Hp1.
  destruct (background_first DefaultTTL now2 _ _ _ Hp1) as [w2 Hb]. rewrite Hb in *. by apply populated.
Qed.

(** Pattern invalidation does not reach the first level.  While BigCache
    answers for a key, a successful [InvalidatePattern] with any pattern, one
    that matches the key included, leaves its value readable. *)
Theorem InvalidatePattern_leaves_first_level {B R} `{BigCacheLib B} `{RedisKV R} `{EntryJson}
    now pattern k v now' (w w' : CacheManagerImpl B R) : k ≠ "" →
  (BigCacheImpl_Get now' k (l1Cache w)).1 = Ok v →
  InvalidatePattern now pattern w = (Ok tt, w') →
  (CacheManagerImpl_Get now' k w').1 = Ok v.
Proof.
  intros Hk Hg Hi. unfold InvalidatePattern in Hi. destruct (String.eqb pattern ""); [done|].
  unfold on_l2 in Hi. apply zoom_inv in Hi as (c & _ & ->).
  unfold CacheManagerImpl_Get. destruct (String.eqb_spec k ""); [done|].
  rewrite bind_attempt. unfold on_l1. rewrite zoom_eq. cbn [fst snd l1Cache]. by rewrite Hg.
Qed.

(** ** Witnesses: the stores as maps *)

Definition entry_fields (e : CacheEntry) : list string :=
  [ce_Key e; ce_Value e; Itoa (ce_TTL e); Itoa (ce_CreatedAt e); Itoa (ce_AccessedAt e);
   Itoa (ce_HitCount e); Itoa (ce_Version e)].
Definition entry_of_fields (l : list string) : option CacheEntry :=
  match l with
  | [k; v; t; c; a; h; n] =>
      match parse_Z t, parse_Z c, parse_Z a, parse_Z h, parse_Z n with
      | Some t, Some c, Some a, Some h, Some n => Some (mkCacheEntry k v t c a h n)
      | _, _, _, _, _ => None
      end
  | _ => None
  end.
#[local] Instance ref_entry_json : EntryJson := {
  entry_Marshal e := Ok (text_of_list (entry_fields e));
  entry_Unmarshal s := match list_of_text s ≫= entry_of_fields with
                       | Some e => Ok e | None => Err (ErrorString "bad entry") end }.
#[local, refine] Instance ref_entry_json_laws : EntryJsonLaws := {}.
Proof.
  intros e. eexists. split; [done|]. simpl. rewrite list_of_text_of_list. simpl.
  rewrite !parse_Itoa. by destruct e.
Defined.

Definition ref_big := gmap string string.
#[local] Instance ref_big_lib : BigCacheLib ref_big := {
  big_Get k := λ b : gmap string string,
    (match b !! k with Some e => Ok e
     | None => Err (ErrorLib bigcache_ErrEntryNotFound "Entry not found") end, b);
  big_Set k e := λ b : gmap string string, (Ok tt, <[k := e]> b);
  big_Delete k := λ b : gmap string string, (Ok tt, delete k b);
  big_Reset := λ b : gmap string string, (Ok tt, (∅ : gmap string string)) }.
#[local, refine] Instance ref_big_laws : BigCacheLaws ref_big := {
  bent b k := (b : gmap string string) !! k }.
Proof.
  all: simpl; intros.
  - destruct ((b : gmap string string) !! k); by simplify_eq.
  - done.
  - destruct (decide (k' = k)) as [->|Hne].
    + rewrite lookup_insert_eq in H. simplify_eq. by left.
    + rewrite lookup_insert_ne in H by done. by right.
  - by apply lookup_delete_Some in H as [_ H].
  - simplify_eq. apply lookup_delete_eq.
  - by simplify_eq.
Defined.

Definition ref_kv := gmap string (string * option Z).
Definition ref_kv_live (r : gmap string (string * option Z)) (now : Z) (k : string) : option string :=
  rlive now (r !! k).
#[local] Instance ref_kv_lib : RedisKV ref_kv := {
  rc_Get now k := λ r, (match ref_kv_live r now k with Some v => Ok v
                        | None => Err (ErrorLib redis_Nil "redis: nil") end, r);
  rc_Set now k v ex := λ r : gmap string (string * option Z),
    (Ok tt, <[k := (v, if (0 <? ex)%Z then Some (now + ex) else None)]> r);
  rc_Del now ks := λ r : gmap string (string * option Z),
    (Ok (Z.of_nat (length (filter (λ k, is_Some (ref_kv_live r now k)) ks))),
     fold_right delete r ks);
  rc_Exists now k := λ r, (Ok (match ref_kv_live r now k with Some _ => 1 | None => 0 end), r);
  rc_Scan now p := λ r, (Ok [], r) }.

Lemma delete_all_lookup (ks : list string) (r : gmap string (string * option Z)) k :
  fold_right delete r ks !! k = if decide (k ∈ ks) then None else r !! k.
Proof.
  induction ks as [|k0 ks IH]; simpl.
  - destruct (decide (k ∈ [])) as [Hin|]; [by apply elem_of_nil in Hin | done].
  - destruct (decide (k = k0)) as [->|Hne].
    + rewrite lookup_delete_eq. destruct (decide (k0 ∈ k0 :: ks)) as [|Hn]; [done|]. destruct Hn. by left.
    + rewrite lookup_delete_ne, IH by done.
      destruct (decide (k ∈ ks)), (decide (k ∈ k0 :: ks)) as [Hin|Hin]; try done.
      * destruct Hin. by right.
      * by apply elem_of_cons in Hin as [|].
Qed.
#[local, refine] Instance ref_kv_laws : RedisKVLaws ref_kv := {
  rval r k := (r : gmap string (string * option Z)) !! k }.
Proof.
  all: simpl; unfold ref_kv_live; intros.
  - destruct (rlive _ _); by simplify_eq.
  - destruct (rlive _ _); by simplify_eq.
  - by left.
  - simplify_eq. rewrite lookup_insert_eq. by destruct (Z.ltb_spec 0 ex); [|lia].
  - done.
  - left. by rewrite lookup_insert_ne.
  - simplify_eq. rewrite delete_all_lookup. by destruct (decide (k ∈ ks)).
  - done.
  - left. rewrite delete_all_lookup. by destruct (decide (k' ∈ ks)).
  - by simplify_eq.
  - by left.
  - by left.
Defined.

Lemma ref_kv_reachable : redis_reachable (R:=ref_kv).
Proof.
  intros r now k. simpl. split; [|done]. intros e. destruct (ref_kv_live r now k); [done|].
  intros [= <-]. by eexists.
Qed.

Abbreviation RM := (CacheManagerImpl ref_big ref_kv).
Definition ref_manager : RM :=
  mkCacheManager (mkBigCacheImpl (∅ : gmap string string) no_stats)
    (mkRedisCacheImpl (∅ : gmap string (string * option Z)) no_stats) WriteThrough ∅ [].
Definition ref_stored : res error unit * RM :=
  CacheManagerImpl_Set (5 * Minute) true 0 "k" "v" Hour ref_manager.
Lemma ref_stored_run : ref_stored.1 = Ok tt.
Proof. vm_refl. Qed.
(** The same, after the first level has evicted everything. *)
Definition ref_evicted : RM :=
  let w := ref_stored.2 in
  mkCacheManager (mkBigCacheImpl (∅ : gmap string string) no_stats) (l2Cache w) (cm_strategy w)
    (taggedKeys w) (pending w).


Definition ref_deleted : res error unit * RM := CacheManagerImpl_Delete true Minute "k" ref_stored.2.
Lemma ref_deleted_run : ref_deleted.1 = Ok tt.
Proof. vm_refl. Qed.
Lemma ref_stored_idle : pending ref_stored.2 = [].
Proof. reflexivity. Qed.

Example manager_delete_is_final_witness :
  is_ok (CacheManagerImpl_Get (2 * Minute) "k"
    (cache_run (5 * Minute) true [(Minute, EvGet "k"); (Minute, EvSet "j" "x" Hour)] ref_deleted.2)).1
  = false.
Proof.
  apply (manager_delete_is_final (5 * Minute) true Minute "k" ref_stored.2);
    [exact ref_stored_idle | exact (run_split _ _ ref_deleted_run) | repeat constructor; reflexivity].
Defined.

Lemma ref_big_stores k : l1_stores (B:=ref_big) k.
Proof. by intros b e. Qed.
Definition ref_refilled : RM :=
  cache_run (5 * Minute) true [(59 * Minute, EvGet "k"); (59 * Minute, EvBackground 0)] ref_evicted.
Lemma ref_refilled_kept : is_ok (big_Get "k" (bc_cache (l1Cache ref_refilled))).1 = true.
Proof. vm_refl. Qed.
Lemma ref_evicted_miss now : is_ok (BigCacheImpl_Get now "k" (l1Cache ref_evicted)).1 = false.
Proof. reflexivity. Qed.
Lemma ref_evicted_hit : (CacheManagerImpl_Get (59 * Minute) "k" ref_evicted).1 = Ok "v".
Proof. vm_refl. Qed.

(** Stored for one hour, served four minutes later. *)
Example refilled_entry_outlives_its_ttl_witness :
  (CacheManagerImpl_Get (64 * Minute) "k" ref_refilled).1 = Ok "v".
Proof.
  apply (refilled_entry_outlives_its_ttl (5 * Minute) true (59 * Minute) "k" "v" ref_evicted);
    [reflexivity | exact (ref_evicted_miss _) | exact ref_evicted_hit | exact (ref_big_stores "k")
    | exact ref_refilled_kept | vm_compute; discriminate].
Defined.

Definition ref_revived : RM :=
  cache_run (5 * Minute) true
    [(59 * Minute, EvGet "k"); (59 * Minute, EvDelete "k"); (59 * Minute, EvBackground 0)] ref_evicted.
Lemma ref_revived_kept : is_ok (big_Get "k" (bc_cache (l1Cache ref_revived))).1 = true.
Proof. vm_refl. Qed.
Lemma ref_evicted_deleted : (CacheManagerImpl_Delete true (59 * Minute) "k"
  (CacheManagerImpl_Get (59 * Minute) "k" ref_evicted).2).1 = Ok tt.
Proof. vm_refl. Qed.

Example late_refill_revives_deleted_key_witness :
  (CacheManagerImpl_Get (60 * Minute) "k" ref_revived).1 = Ok "v".
Proof.
  apply (late_refill_revives_deleted_key (5 * Minute) true (59 * Minute) (59 * Minute) (59 * Minute)
    "k" "v" ref_evicted);
    [reflexivity | exact (ref_evicted_miss _) | exact ref_evicted_hit | exact (ref_big_stores "k")
    | exact ref_evicted_deleted | exact ref_revived_kept | vm_compute; discriminate].
Defined.

Example InvalidatePattern_leaves_first_level_witness :
  ∃ w', InvalidatePattern Minute "k*" ref_stored.2 = (Ok tt, w') ∧
        (CacheManagerImpl_Get (2 * Minute) "k" w').1 = Ok "v".
Proof.
  set (out := InvalidatePattern Minute "k*" ref_stored.2).
  assert (Hr : out.1 = Ok tt) by vm_refl. exists out.2. split; [exact (run_split _ _ Hr)|].
  assert (Hl : (BigCacheImpl_Get (2 * Minute) "k" (l1Cache ref_stored.2)).1 = Ok "v") by vm_refl.
  apply (InvalidatePattern_leaves_first_level Minute "k*" "k" "v" (2 * Minute) ref_stored.2);
    [discriminate | exact Hl | exact (run_split _ _ Hr)].
Defined.
