(* ===== verification/Retry.v ===== *)
(** * Retries with exponential backoff (src/internal/errors/retry.go)

    [ExecuteWithContext] and [ExecuteWithResultAndContext] call a stateful
    operation again until it succeeds, fails for good, is cancelled, or the
    attempts are used up.  What the context and the random source do is an
    argument.  Floats are the IEEE doubles of the Standard Library. *)

From Stdlib Require Import SpecFloat.
From S2P Require Import Prelude Errors.

(** ** Go's float64 *)

Definition float64 := spec_float.
Definition f_of_int (z : Z) : float64 := binary_normalize 53 1024 z 0 false.
Definition f_mul : float64 → float64 → float64 := SFmul 53 1024.
Definition f_add : float64 → float64 → float64 := SFadd 53 1024.
Definition f_lit (m : positive) (e : Z) : float64 := S754_finite false m e.
Definition f_one : float64 := f_lit 4503599627370496 (-52).
Definition f_half : float64 := f_lit 4503599627370496 (-53).
Definition f_two : float64 := f_lit 4503599627370496 (-51).
Definition f_one_half : float64 := f_lit 6755399441055744 (-52).
Definition f_tenth : float64 := f_lit 7205759403792794 (-56).

(** [time.Duration(f)]: towards zero; out of range the value is the one of
    amd64. *)
Definition int64_of_f (f : float64) : Z :=
  match f with
  | S754_zero _ => 0
  | S754_finite s m e =>
      let a := if (0 <=? e)%Z then Z.shiftl (Zpos m) e else Z.shiftr (Zpos m) (- e) in
      let z := if s then - a else a in
      if (min_int <=? z)%Z && (z <=? max_int)%Z then z else min_int
  | S754_infinity _ | S754_nan => min_int
  end.

(** [math.Pow(x, n)] for an integer [0 <= n < 2^63], the loop of the Go
    library: repeated squaring of the fraction of [x]. *)
Fixpoint pow_loop (fuel : nat) (i : Z) (x1 : float64) (xe : Z) (a1 : float64) (ae : Z) : float64 * Z :=
  match fuel with
  | O => (a1, ae)
  | S fuel' =>
      if (i =? 0)%Z then (a1, ae)
      else if (xe <? - 4096)%Z || (4096 <? xe)%Z then (a1, ae + xe)
      else
        let '(a1, ae) := if Z.odd i then (f_mul a1 x1, ae + xe) else (a1, ae) in
        let x1 := f_mul x1 x1 in
        let xe := xe * 2 in
        let '(x1, xe) := if SFltb x1 f_half then (f_add x1 x1, xe - 1) else (x1, xe) in
        pow_loop fuel' (Z.shiftr i 1) x1 xe a1 ae
  end.
Definition Pow (x : float64) (n : Z) : float64 :=
  if (n =? 0)%Z || SFeqb x f_one then f_one
  else if (n =? 1)%Z then x
  else match x with
  | S754_nan => S754_nan
  | S754_zero s => S754_zero (s && Z.odd n)
  | S754_infinity s => S754_infinity (s && Z.odd n)
  | S754_finite _ _ _ =>
      let '(x1, xe) := SFfrexp 53 1024 x in
      let '(a1, ae) := pow_loop 64 n x1 xe f_one 0 in
      SFldexp 53 1024 a1 ae
  end.

(** ** Configuration *)

(** [OnRetry] only observes; its calls are part of the trace below. *)
Record RetryConfig := mkRetryConfig {
  rc_MaxAttempts : Z; rc_InitialDelay : Z; rc_MaxDelay : Z; rc_Multiplier : float64;
  rc_Jitter : bool; rc_RetryableErrors : option (error → bool) }.

Definition matches_any (err : error) (patterns : list string) : bool :=
  existsb (contains (Error err)) patterns.

(** [err] is not nil in these. *)
Definition DefaultRetryableErrors (err : error) : bool :=
  match err with
  | ErrorAuth a => IsRetryable a
  | _ => matches_any err ["connection refused"; "connection reset"; "timeout"; "temporary failure";
           "service unavailable"; "too many requests"; "rate limit"; "circuit breaker";
           "deadline exceeded"; "context deadline exceeded"]
  end.
Definition by_code_or_text (codes : list ErrorCode) (patterns : list string) (err : error) : bool :=
  match err with ErrorAuth a => code_in (ae_Code a) codes | _ => matches_any err patterns end.

Definition GetDefaultRetryConfig : RetryConfig :=
  mkRetryConfig 3 (100 * Millisecond) (30 * Second) f_two true (Some DefaultRetryableErrors).
Definition GetDatabaseRetryConfig : RetryConfig :=
  mkRetryConfig 5 (50 * Millisecond) (5 * Second) f_one_half true
    (Some (by_code_or_text
       [ErrorCodeDatabaseError; ErrorCodeUnavailable; ErrorCodeDeadlineExceeded]
       ["connection refused"; "connection reset"; "timeout"; "deadlock"; "lock wait timeout";
        "connection lost"; "server has gone away"])).
Definition GetCacheRetryConfig : RetryConfig :=
  mkRetryConfig 3 (25 * Millisecond) Second f_two true
    (Some (by_code_or_text
       [ErrorCodeCacheError; ErrorCodeUnavailable; ErrorCodeDeadlineExceeded]
       ["connection refused"; "connection reset"; "timeout"; "redis: nil"; "connection lost";
        "LOADING"; "READONLY"])).
Definition GetEventRetryConfig : RetryConfig :=
  mkRetryConfig 5 (200 * Millisecond) (10 * Second) f_two true
    (Some (by_code_or_text
       [ErrorCodeEventPublishError; ErrorCodeUnavailable; ErrorCodeDeadlineExceeded]
       ["connection refused"; "broker not available"; "timeout"; "network error";
        "leader not available"; "not enough replicas"])).

(** The manager with the defaults filled in. *)
Record RetryManager := mkRetryManager {
  MaxAttempts : Z; InitialDelay : Z; MaxDelay : Z; Multiplier : float64; Jitter : bool;
  RetryableErrors : error → bool }.
Definition NewRetryManager (config : option RetryConfig) : RetryManager :=
  let c := default GetDefaultRetryConfig config in
  mkRetryManager
    (if (rc_MaxAttempts c <=? 0)%Z then 3 else rc_MaxAttempts c)
    (if (rc_InitialDelay c <=? 0)%Z then 100 * Millisecond else rc_InitialDelay c)
    (if (rc_MaxDelay c <=? 0)%Z then 30 * Second else rc_MaxDelay c)
    (if SFleb (rc_Multiplier c) (S754_zero false) then f_two else rc_Multiplier c)
    (rc_Jitter c)
    (default DefaultRetryableErrors (rc_RetryableErrors c)).

(** [draw] is what [rand.Float64()] returned. *)
Definition calculateDelay (rm : RetryManager) (attempt : Z) (draw : float64) : Z :=
  let delay := f_mul (f_of_int (InitialDelay rm)) (Pow (Multiplier rm) (attempt - 1)) in
  let delay := if SFltb (f_of_int (MaxDelay rm)) delay then f_of_int (MaxDelay rm) else delay in
  int64_of_f
    (if Jitter rm then f_add delay (f_mul (f_mul delay f_tenth) draw) else delay).

(** ** Execution *)

(** The environment of one execution: what [ctx.Err()] is before attempt
    [i], whether the context ends during the wait after it, and the draws. *)
Record RetryEnv := mkRetryEnv {
  done_before : Z → option error; done_waiting : Z → option error; draw : Z → float64 }.

(** A retry as [OnRetry] sees it. *)
Record retry := mkRetry { rt_attempt : Z; rt_err : error; rt_delay : Z }.

Section execute.
Context {W A : Type} (rt : Runtime) (rm : RetryManager) (env : RetryEnv).

Definition cancelled (message : string) (attempt : Z) (ctxErr : error) : error :=
  ErrorAuth (WithMetadata "max_attempts" (MInt (MaxAttempts rm))
    (WithMetadata "attempt" (MInt attempt) (WithRetryable false (WithSeverity SeverityInfo
      (WithCategory CategoryInternal (WithCause (Some ctxErr)
        (NewError rt ErrorCodeCancelled message))))))).
Definition exhausted (lastErr : option error) : error :=
  ErrorAuth (WithMetadata "max_attempts" (MInt (MaxAttempts rm))
    (WithRetryable false (WithSeverity SeverityError (WithCategory CategoryInternal
      (WithCause lastErr (NewError rt ErrorCodeRetryExhausted
        ("All " +:+ Itoa (MaxAttempts rm) +:+ " retry attempts exhausted"))))))).

(** One operation: a result and an error, either possibly nil. *)
Abbreviation op := (W → option A * option error * W).
Abbreviation answer := (option A * option error * W * list retry)%type.

(** The loop from [attempt] on, with [n] attempts left. *)
Fixpoint execute_from (fn : op) (n : nat) (attempt : Z) (result : option A) (lastErr : option error)
    (w : W) (log : list retry) : answer :=
  match n with
  | O => (result, Some (exhausted lastErr), w, log)
  | S n' =>
      match done_before env attempt with
      | Some e => (None, Some (cancelled "Context cancelled during retry" attempt e), w, log)
      | None =>
          match fn w with
          | (res, None, w1) => (res, None, w1, log)
          | (res, Some err, w1) =>
              if negb (RetryableErrors rm err) then (res, Some err, w1, log)
              else if (attempt =? MaxAttempts rm)%Z then
                (res, Some (exhausted (Some err)), w1, log)
              else
                let delay := calculateDelay rm attempt (draw env attempt) in
                let log := log ++ [mkRetry attempt err delay] in
                match done_waiting env attempt with
                | Some e =>
                    (None, Some (cancelled "Context cancelled during retry delay" attempt e), w1, log)
                | None => execute_from fn n' (attempt + 1) res (Some err) w1 log
                end
          end
      end
  end.
Definition ExecuteWithResultAndContext (fn : op) (w : W) : answer :=
  execute_from fn (Z.to_nat (MaxAttempts rm)) 1 None None w [].
End execute.

(** [ExecuteWithContext]: the loop for an operation without a result. *)
Fixpoint execute_err_from {W} (rt : Runtime) (rm : RetryManager) (env : RetryEnv)
    (fn : W → option error * W) (n : nat) (attempt : Z) (lastErr : option error)
    (w : W) (log : list retry) : option error * W * list retry :=
  match n with
  | O => (Some (exhausted rt rm lastErr), w, log)
  | S n' =>
      match done_before env attempt with
      | Some e => (Some (cancelled rt rm "Context cancelled during retry" attempt e), w, log)
      | None =>
          match fn w with
          | (None, w1) => (None, w1, log)
          | (Some err, w1) =>
              if negb (RetryableErrors rm err) then (Some err, w1, log)
              else if (attempt =? MaxAttempts rm)%Z then
                (Some (exhausted rt rm (Some err)), w1, log)
              else
                let delay := calculateDelay rm attempt (draw env attempt) in
                let log := log ++ [mkRetry attempt err delay] in
                match done_waiting env attempt with
                | Some e =>
                    (Some (cancelled rt rm "Context cancelled during retry delay" attempt e), w1, log)
                | None => execute_err_from rt rm env fn n' (attempt + 1) (Some err) w1 log
                end
          end
      end
  end.
Definition ExecuteWithContext {W} (rt : Runtime) (rm : RetryManager) (env : RetryEnv)
    (fn : W → option error * W) (w : W) : option error * W * list retry :=
  execute_err_from rt rm env fn (Z.to_nat (MaxAttempts rm)) 1 None w [].

(** [Execute] and [ExecuteWithResult] run with a context that never ends. *)
Definition never_done (draws : Z → float64) : RetryEnv := mkRetryEnv (λ _, None) (λ _, None) draws.
Definition Execute {W} (rt : Runtime) (rm : RetryManager) (draws : Z → float64)
    (fn : W → option error * W) : W → option error * W * list retry :=
  ExecuteWithContext rt rm (never_done draws) fn.
Definition ExecuteWithResult {W A} (rt : Runtime) (rm : RetryManager) (draws : Z → float64)
    (fn : W → option A * option error * W) : W → option A * option error * W * list retry :=
  ExecuteWithResultAndContext rt rm (never_done draws) fn.

(** A batch: each operation with its own manager or the shared one, in the
    environment of its position; a later operation of the same name replaces
    the earlier result. *)
Record RetryableOperation (W A : Type) := mkRetryableOperation {
  ro_Name : string; ro_Operation : W → option A * option error * W;
  ro_RetryConfig : option RetryConfig }.
Arguments ro_Name {W A}. Arguments ro_Operation {W A}. Arguments ro_RetryConfig {W A}.
Arguments mkRetryableOperation {W A}.
Fixpoint ExecuteBatch {W A} (rt : Runtime) (shared : RetryManager) (envs : nat → RetryEnv)
    (ops : list (RetryableOperation W A)) (results : gmap string (option error)) (w : W)
    : gmap string (option error) * W :=
  match ops with
  | [] => (results, w)
  | op :: rest =>
      let rm := match ro_RetryConfig op with Some c => NewRetryManager (Some c) | None => shared end in
      let '(_, err, w', _) := ExecuteWithResultAndContext rt rm (envs O) (ro_Operation op) w in
      ExecuteBatch rt shared (λ i, envs (S i)) rest (<[ro_Name op := err]> results) w'
  end.

Example default_delays :
  (λ a, calculateDelay (NewRetryManager None) a (S754_zero false)) <$> [1; 2; 3; 10; 63]
  = [100 * Millisecond; 200 * Millisecond; 400 * Millisecond; 30 * Second; 30 * Second].
Proof. vm_compute. reflexivity. Qed.
Example database_delays :
  (λ a, calculateDelay (NewRetryManager (Some GetDatabaseRetryConfig)) a (S754_zero false))
    <$> [1; 2; 3; 4; 5; 20]
  = [50000000; 75000000; 112500000; 168750000; 253125000; 5 * Second].
Proof. vm_compute. reflexivity. Qed.

(** ** Lemmas *)

Section retry_lemmas.
Context {W A : Type} (rt : Runtime) (rm : RetryManager) (env : RetryEnv).
Context (fn : W → option A * option error * W).

(** Consecutive calls that all failed, with their errors. *)
Inductive failing_run : list error → W → W → Prop :=
| failing_nil w : failing_run [] w w
| failing_cons res e es w w1 w2 :
    fn w = (res, Some e, w1) → failing_run es w1 w2 → failing_run (e :: es) w w2.

(** The retries after the failures [es], the first of them at attempt [a]. *)
Definition retries (a : Z) (es : list error) : list retry :=
  imap (λ i e, mkRetry (a + Z.of_nat i) e
                 (calculateDelay rm (a + Z.of_nat i) (draw env (a + Z.of_nat i)))) es.

Lemma retries_cons a e es :
  retries a (e :: es) = mkRetry a e (calculateDelay rm a (draw env a)) :: retries (a + 1) es.
Proof.
  unfold retries. rewrite imap_cons, Z.add_0_r. f_equal. apply imap_ext. intros i x _. simpl.
  by replace (a + Z.of_nat (S i)) with (a + 1 + Z.of_nat i) by lia.
Qed.

(** How an execution ends after the failures [es] reached state [w1]. *)
Definition retry_end (n : nat) (a : Z) (log : list retry) (es : list error) (w1 : W)
    (out : option A * option error * W * list retry) : Prop :=
  let '(res, err, w', log') := out in
  (err = None ∧ fn w1 = (res, None, w') ∧ (length es < n)%nat ∧ log' = log ++ retries a es) ∨
  (∃ e, err = Some e ∧ fn w1 = (res, Some e, w') ∧ RetryableErrors rm e = false ∧
        (length es < n)%nat ∧ log' = log ++ retries a es) ∨
  (∃ es' e, es = es' ++ [e] ∧ length es = n ∧ err = Some (exhausted rt rm (Some e)) ∧ w' = w1 ∧
        log' = log ++ retries a es') ∨
  (∃ i e m, (done_before env i = Some e ∨ done_waiting env i = Some e) ∧
        err = Some (cancelled rt rm m i e) ∧ res = None ∧ w' = w1 ∧ log' = log ++ retries a es).

Lemma retry_end_cons n a log res e es w w1 w2 out : fn w = (res, Some e, w1) →
  retry_end n (a + 1) (log ++ [mkRetry a e (calculateDelay rm a (draw env a))]) es w2 out →
  retry_end (S n) a log (e :: es) w2 out.
Proof.
  destruct out as [[[r err] w'] log']. intros Hf. unfold retry_end. rewrite retries_cons.
  intros [(-> & Hw & Hl & ->)|[(e' & -> & Hw & Hr & Hl & ->)|
          [(es' & e' & -> & Hl & -> & -> & ->)|(i & e' & m & Hi & -> & -> & -> & ->)]]].
  - left. split_and!; [done|done|simpl; lia|]. by rewrite <- app_assoc.
  - right; left. exists e'. split_and!; [done|done|done|simpl; lia|]. by rewrite <- app_assoc.
  - right; right; left. exists (e :: es'), e'. rewrite retries_cons, <- app_assoc.
    split_and!; try done. simpl. by rewrite Hl.
  - do 3 right. exists i, e', m. split_and!; try done. by rewrite <- app_assoc.
Qed.

Lemma execute_from_spec n a result lastErr w log :
  (0 < n)%nat → MaxAttempts rm = a + Z.of_nat n - 1 →
  ∃ es w1, failing_run es w w1 ∧ Forall (λ e, RetryableErrors rm e = true) es ∧
    (length es <= n)%nat ∧
    retry_end n a log es w1 (execute_from rt rm env fn n a result lastErr w log).
Proof.
  revert a result lastErr w log. induction n as [|n IH]; intros a result lastErr w log Hn Hm; [lia|].
  cbn [execute_from]. destruct (done_before env a) as [e|] eqn:Eb.
  { exists [], w. split_and!; [constructor|constructor|simpl; lia|]. do 3 right.
    exists a, e, "Context cancelled during retry". rewrite app_nil_r. split_and!; auto. }
  destruct (fn w) as [[res [err|]] w1] eqn:Ef.
  2:{ exists [], w. split_and!; [constructor|constructor|simpl; lia|]. left.
      rewrite app_nil_r. split_and!; [done|done|simpl; lia|done]. }
  destruct (RetryableErrors rm err) eqn:Er; cbn [negb].
  2:{ exists [], w. split_and!; [constructor|constructor|simpl; lia|]. right; left. exists err.
      rewrite app_nil_r. split_and!; [done|done|done|simpl; lia|done]. }
  assert (Hone : failing_run [err] w w1) by (econstructor; [done|constructor]).
  destruct (Z.eqb_spec a (MaxAttempts rm)) as [Ha|Ha].
  { exists [err], w1. split_and!; [done|by constructor|simpl; lia|]. right; right; left.
    exists [], err. rewrite app_nil_r. split_and!; try done. simpl. lia. }
  destruct (done_waiting env a) as [e|] eqn:Ew.
  { exists [err], w1. split_and!; [done|by constructor|simpl; lia|]. do 3 right.
    exists a, e, "Context cancelled during retry delay". split_and!; auto. by rewrite retries_cons. }
  destruct (IH (a + 1) res (Some err) w1 (log ++ [mkRetry a err (calculateDelay rm a (draw env a))]))
    as (es & w2 & Hrun & Hall & Hlen & Hend); [lia|lia|].
  exists (err :: es), w2. split_and!; [by econstructor | by constructor | simpl; lia |].
  by eapply retry_end_cons.
Qed.
End retry_lemmas.

(** The two loops agree. *)
Lemma execute_err_from_eq {W} rt rm env (fn : W → option error * W) n a result lastErr w log :
  let '(_, err, w', log') := execute_from (A:=unit) rt rm env
     (λ w, let '(e, w') := fn w in (None, e, w')) n a result lastErr w log in
  execute_err_from rt rm env fn n a lastErr w log = (err, w', log').
Proof.
  revert a result lastErr w log. induction n as [|n IH]; intros a result lastErr w log; [done|].
  cbn [execute_from execute_err_from]. destruct (done_before env a); [done|].
  destruct (fn w) as [[e|] w1]; [|done]. destruct (negb _); [done|].
  destruct (_ =? _)%Z; [done|]. destruct (done_waiting env a); [done|]. apply IH.
Qed.

Lemma NewRetryManager_positive config : 0 < MaxAttempts (NewRetryManager config).
Proof. unfold NewRetryManager. simpl. by destruct (Z.leb_spec (rc_MaxAttempts (default GetDefaultRetryConfig config)) 0). Qed.

(** ** Properties *)

(** C27: what a retried execution does.  The operation is called at most
    [MaxAttempts] times: after a run of retryable failures it ends with the
    first success, with the first error that is not retryable, with
    RetryExhausted over the last error exactly when the last of
    [MaxAttempts] calls failed, or with the cancellation of the context; and
    between two calls it waits once, for the delay of that attempt. *)
Theorem ExecuteWithResultAndContext_spec {W A} rt config env
    (fn : W → option A * option error * W) w :
  let rm := NewRetryManager config in
  ∃ es w1, failing_run fn es w w1 ∧ Forall (λ e, RetryableErrors rm e = true) es ∧
    (Z.of_nat (length es) ≤ MaxAttempts rm) ∧
    retry_end rt rm env fn (Z.to_nat (MaxAttempts rm)) 1 [] es w1
      (ExecuteWithResultAndContext rt rm env fn w).
Proof.
  intros rm. pose proof (NewRetryManager_positive config) as Hp. fold rm in Hp.
  destruct (execute_from_spec rt rm env fn (Z.to_nat (MaxAttempts rm)) 1 None None w [])
    as (es & w1 & Hrun & Hall & Hlen & Hend); [lia|lia|].
  exists es, w1. split_and!; [done|done|lia|done].
Qed.

(** The duplicated loop.  [ExecuteWithContext] is
    [ExecuteWithResultAndContext] on the operation without a result: the same
    error, the same final state and the same waits. *)
Theorem ExecuteWithContext_agrees {W} rt rm env (fn : W → option error * W) w :
  let '(_, err, w', log) := ExecuteWithResultAndContext (A:=unit) rt rm env
     (λ w, let '(e, w') := fn w in (None, e, w')) w in
  ExecuteWithContext rt rm env fn w = (err, w', log).
Proof. apply execute_err_from_eq. Qed.
