(* ===== verification/CacheJobs.v ===== *)
(** * Cache warming and scheduled invalidation
    (src/internal/cache/warmer.go and the job table of invalidator.go)

    Both keep a table of jobs over the cache manager of Cache.v.  The
    goroutines of one call to [WarmKeys] interleave their keys; a run is the
    list of keys in the order they are reached, keys that are not reached
    before the context ends left out, and the statements hold for every such
    list.  A job started by the tick of a scheduler is a goroutine of its own:
    it waits in [running] until its event. *)

From S2P Require Import Prelude Errors Models Ifaces Cache.

#[local] Open Scope Z_scope.

Record WarmJob := mkWarmJob {
  wj_Keys : list string; wj_Interval : Z; wj_LastRun : option Z; wj_Active : bool }.
Record InvalidationJob := mkInvalidationJob {
  ij_Key : string; ij_Tags : list string; ij_Pattern : string;
  ij_ScheduledAt : Z; ij_ExecuteAt : Z; ij_Active : bool }.

(** ** Batches *)

(** The loop of [WarmKeys]: [batchSize] keys at a time from index [i]. *)
Fixpoint batch_loop (fuel i batchSize : nat) (keys : list string) : list (list string) :=
  match fuel with
  | O => []
  | S fuel' =>
      if (i <? length keys)%nat then
        let finish := if (length keys <? i + batchSize)%nat then length keys else (i + batchSize)%nat in
        take (finish - i) (drop i keys) :: batch_loop fuel' (i + batchSize) batchSize keys
      else []
  end.
(** [config.WarmupBatchSize], 100 when it is not positive. *)
Definition batch_size (WarmupBatchSize : Z) : nat :=
  if (WarmupBatchSize <=? 0)%Z then 100 else Z.to_nat WarmupBatchSize.
Definition warm_batches (WarmupBatchSize : Z) (keys : list string) : list (list string) :=
  batch_loop (length keys) 0 (batch_size WarmupBatchSize) keys.

(** ** The warmer *)

Section warmer.
Context {B R : Type} `{BigCacheLib B} `{RedisKV R} `{EntryJson}.
Context (DefaultTTL : Z).
Abbreviation MW := (CacheManagerImpl B R).

Definition warmSingleKey (now : Z) (key : string) : M MW unit :=
  let* exists_ := attempt (F:=error) (on_l1 (BigCacheImpl_Exists key)) in
  match exists_ with
  | Err _ | Ok true => ret tt
  | Ok false =>
      let* value := attempt (F:=error) (on_l2 (RedisCacheImpl_Get now key)) in
      match value with
      | Err _ => ret tt
      | Ok v => attempt (F:=error) (on_l1 (BigCacheImpl_Set now key v DefaultTTL)) ;;; ret tt
      end
  end.

(** [warmBatch] on the keys it reaches before the context ends. *)
Definition warmBatch (now : Z) (reached : list string) : M MW unit := for_each (warmSingleKey now) reached.

(** [WarmKeys]: the keys in the order the goroutines of the batches reach
    them. *)
Definition WarmKeys (now : Z) (order : list string) : M MW unit := warmBatch now order.

(** [WarmPattern]: the scan is on the client itself, with the pattern as it
    was given; what [warm] does with the keys found is [WarmKeys]. *)
Definition strip_prefix (key : string) : string :=
  if (str_len prefix <? str_len key)%nat && String.eqb (str_take (str_len prefix) key) prefix
  then str_drop (str_len prefix) key else key.
Definition WarmPattern (now : Z) (pattern : string) : M MW unit :=
  let* keys := on_l2 (on_client (rc_Scan now pattern)) in
  if (length keys =? 0)%nat then ret tt else WarmKeys now (List.map strip_prefix keys).
End warmer.

(** ** The job tables *)

Record JobsW (B R : Type) := mkJobs {
  jw_manager : CacheManagerImpl B R;
  jw_warmJobs : gmap string WarmJob;
  jw_scheduler : bool;                     (* [warmTicker] is set *)
  jw_stopped : bool;                       (* [stopChan] is closed *)
  jw_warming : list (string * list string * Z);  (* warm goroutines: job, keys, tick *)
  jw_invalidations : gmap string InvalidationJob;
  jw_invalidating : list (string * InvalidationJob) }.
Arguments mkJobs {B R}. Arguments jw_manager {B R}. Arguments jw_warmJobs {B R}.
Arguments jw_scheduler {B R}. Arguments jw_stopped {B R}. Arguments jw_warming {B R}.
Arguments jw_invalidations {B R}. Arguments jw_invalidating {B R}.

Section jobs.
Context {B R : Type} `{BigCacheLib B} `{RedisKV R} `{EntryJson}.
Context (DefaultTTL : Z) (l1_first : bool).
Abbreviation W := (JobsW B R).
Abbreviation MF := (GoM (option error)).

Definition on_manager {A} (m : M (CacheManagerImpl B R) A) : M W A :=
  zoom jw_manager (λ c w, mkJobs c (jw_warmJobs w) (jw_scheduler w) (jw_stopped w) (jw_warming w)
                            (jw_invalidations w) (jw_invalidating w)) m.
Definition set_warmJobs (f : gmap string WarmJob → gmap string WarmJob) (w : W) : W :=
  mkJobs (jw_manager w) (f (jw_warmJobs w)) (jw_scheduler w) (jw_stopped w) (jw_warming w)
    (jw_invalidations w) (jw_invalidating w).
Definition set_warming (f : list (string * list string * Z) → list (string * list string * Z)) (w : W) : W :=
  mkJobs (jw_manager w) (jw_warmJobs w) (jw_scheduler w) (jw_stopped w) (f (jw_warming w))
    (jw_invalidations w) (jw_invalidating w).
Definition set_scheduler (b stopped : bool) (w : W) : W :=
  mkJobs (jw_manager w) (jw_warmJobs w) b stopped (jw_warming w) (jw_invalidations w) (jw_invalidating w).
Definition set_invalidations (f : gmap string InvalidationJob → gmap string InvalidationJob) (w : W) : W :=
  mkJobs (jw_manager w) (jw_warmJobs w) (jw_scheduler w) (jw_stopped w) (jw_warming w)
    (f (jw_invalidations w)) (jw_invalidating w).
Definition set_invalidating (f : list (string * InvalidationJob) → list (string * InvalidationJob)) (w : W) : W :=
  mkJobs (jw_manager w) (jw_warmJobs w) (jw_scheduler w) (jw_stopped w) (jw_warming w)
    (jw_invalidations w) (f (jw_invalidating w)).

(** *** Warming jobs *)

Definition ScheduleWarming (now : Z) (keys : list string) (interval : Z) : M W unit :=
  if (length keys =? 0)%nat || (interval <=? 0)%Z
  then fail (ErrorString "invalid parameters for scheduled warming")
  else
    modify (set_warmJobs <["warm_" +:+ Itoa now := mkWarmJob keys interval None true]>) ;;;
    modify (λ w, set_scheduler true (jw_stopped w) w).  (* startWarmingScheduler *)

Definition due (now : Z) (job : WarmJob) : bool :=
  wj_Active job &&
  match wj_LastRun job with None => true | Some last => (wj_Interval job <=? now - last)%Z end.
(** The tick of the scheduler; its loop has ended once [stopChan] is closed. *)
Definition processWarmingJobs (now : Z) (w : W) : option W :=
  if jw_scheduler w && negb (jw_stopped w) then
    Some (set_warming (λ l, l ++ ((λ j, (j.1, wj_Keys j.2, now)) <$>
            List.filter (λ j, due now j.2) (map_to_list (jw_warmJobs w)))) w)
  else None.
(** A warming goroutine: the first one started, with the keys it reached. *)
Definition run_warming (now : Z) (order : list string) : M W unit :=
  let* l := gets jw_warming in
  match l with
  | [] => ret tt
  | (id, _, tick) :: rest =>
      modify (set_warming (λ _, rest)) ;;;
      on_manager (WarmKeys DefaultTTL now order) ;;;
      modify (set_warmJobs (alter (λ j, mkWarmJob (wj_Keys j) (wj_Interval j) (Some tick) (wj_Active j)) id))
  end.
(** [StopWarming]; closing [stopChan] again panics. *)
Definition StopWarming : MF W unit := λ w,
  let w' := set_warmJobs (fmap (λ j, mkWarmJob (wj_Keys j) (wj_Interval j) (wj_LastRun j) false)) w in
  if jw_stopped w then (Err None, set_scheduler false true w')
  else (Ok tt, set_scheduler false true w').
Definition running_jobs (w : W) : nat :=
  length (List.filter (λ j, wj_Active j) (map_to_list (jw_warmJobs w)).*2).

(** *** Scheduled invalidations *)

Definition ScheduleInvalidation (now : Z) (key : string) (delay : Z) : M W unit :=
  if String.eqb key "" then fail ErrInvalidKey
  else if (delay <? 0)%Z then fail (ErrorString "delay cannot be negative")
  else modify (set_invalidations
         <["invalidate_" +:+ key +:+ "_" +:+ Itoa now :=
             mkInvalidationJob key [] "" now (now + delay) true]>).
Definition SchedulePatternInvalidation (now : Z) (pattern : string) (delay : Z) : M W unit :=
  if String.eqb pattern "" then fail (ErrorString "pattern cannot be empty")
  else if (delay <? 0)%Z then fail (ErrorString "delay cannot be negative")
  else modify (set_invalidations
         <["invalidate_pattern_" +:+ Itoa now :=
             mkInvalidationJob "" [] pattern now (now + delay) true]>).
Definition ScheduleTagInvalidation (now : Z) (tags : list string) (delay : Z) : M W unit :=
  if (length tags =? 0)%nat then fail (ErrorString "tags cannot be empty")
  else if (delay <? 0)%Z then fail (ErrorString "delay cannot be negative")
  else modify (set_invalidations
         <["invalidate_tags_" +:+ Itoa now :=
             mkInvalidationJob "" tags "" now (now + delay) true]>).

Definition ready (now : Z) (job : InvalidationJob) : bool := ij_Active job && After now (ij_ExecuteAt job).
Definition processScheduledInvalidations (now : Z) (w : W) : W :=
  set_invalidating (λ l, l ++ List.filter (λ j, ready now j.2) (map_to_list (jw_invalidations w))) w.
(** What a job does. *)
Definition execute_invalidation (now : Z) (j : InvalidationJob) : M (CacheManagerImpl B R) unit :=
  if negb (String.eqb (ij_Key j) "") then InvalidateKey l1_first now (ij_Key j)
  else if negb (String.eqb (ij_Pattern j) "") then InvalidatePattern now (ij_Pattern j)
  else if (0 <? length (ij_Tags j))%nat then InvalidateByTags l1_first now (ij_Tags j)
  else ret tt.
(** The [i]-th invalidation goroutine; an error is logged. *)
Definition run_invalidation (now : Z) (i : nat) : M W unit :=
  let* l := gets jw_invalidating in
  match l !! i with
  | None => ret tt
  | Some (id, j) =>
      modify (set_invalidating (λ l, take i l ++ drop (S i) l)) ;;;
      attempt (F:=error) (on_manager (execute_invalidation now j)) ;;;
      modify (set_invalidations (delete id))
  end.
Definition ClearScheduledInvalidations : M W unit := modify (set_invalidations (λ _, ∅)).
End jobs.

Definition GetTaggedKeys {B R} (tag : string) (w : CacheManagerImpl B R) : option (list string) :=
  taggedKeys w !! tag.
(** The interval of the invalidation ticker. *)
Definition invalidation_interval (InvalidationDelay : Z) : Z :=
  if (0 <? InvalidationDelay)%Z && (InvalidationDelay <? 10 * Second)%Z
  then InvalidationDelay else 10 * Second.

(** ** Lemmas *)

Lemma take_all_drop {A} i (l : list A) : take (length l - i) (drop i l) = drop i l.
Proof. apply take_ge. rewrite length_drop. lia. Qed.

Lemma batch_loop_cover size keys fuel i : (0 < size)%nat → (length keys - i <= fuel)%nat →
  concat (batch_loop fuel i size keys) = drop i keys ∧
  Forall (λ b, 0 < length b <= size)%nat (batch_loop fuel i size keys).
Proof.
  intros Hs. revert i. induction fuel as [|fuel IH]; intros i Hf; simpl.
  - rewrite drop_ge by lia. done.
  - destruct (Nat.ltb_spec i (length keys)) as [Hi|Hi]; simpl; [|by rewrite drop_ge by lia].
    destruct (IH (i + size)%nat ltac:(lia)) as [Hc Hf']. rewrite Hc.
    destruct (Nat.ltb_spec (length keys) (i + size)) as [Hl|Hl].
    + rewrite take_all_drop, (drop_ge keys (i + size)) by lia. split; [by rewrite app_nil_r|].
      constructor; [rewrite length_drop; lia | done].
    + replace (i + size - i)%nat with size by lia. split.
      * rewrite <- drop_drop. apply take_drop.
      * constructor; [rewrite length_take, length_drop; lia | done].
Qed.

Section warm_lemmas.
Context {B R : Type} `{BigCacheLaws B} `{RedisKVLaws R} `{EntryJsonLaws}.
Context (DefaultTTL : Z).
Abbreviation MW := (CacheManagerImpl B R).

(** Reading the second level for the first: the value found is the one
    promised, and a key that is absent is not found. *)
Lemma l2_found k v d now x (w : MW) : now < d → mhas k v d w →
  (on_l2 (RedisCacheImpl_Get now k) w).1 = Ok x → x = v.
Proof.
  intros Hd (_ & Hl2 & _) Hx. unfold on_l2 in Hx. rewrite zoom_eq in Hx. simpl in Hx.
  destruct (RedisCacheImpl_Get_cases now k (l2Cache w)) as [[Hf _]|(s & ce & r & Hl & Hu & _ & Hr & _)];
    [by rewrite Hx in Hf|].
  destruct Hl2 as (s2 & ce2 & Hv2 & Hu2 & <- & Hle). rewrite Hv2 in Hl. simpl in Hl.
  destruct (Z.ltb_spec now (ce_CreatedAt ce2 + ce_TTL ce2)); [|lia]. injection Hl as ->. congruence.
Qed.
Lemma l2_not_found k now (w : MW) : mabs k w → is_ok (on_l2 (RedisCacheImpl_Get now k) w).1 = false.
Proof.
  intros (_ & Hl2 & _). unfold on_l2. rewrite zoom_eq. apply (l2_get_none_value k now _ Hl2).
Qed.

Lemma warmSingleKey_has k v d now k' : now < d →
  preserves (mhas k v d) (warmSingleKey (B:=B) (R:=R) DefaultTTL now k').
Proof.
  intros Hd w Hw. unfold warmSingleKey. rewrite bind_attempt.
  pose proof (on_l1_has k v d _ (Exists_only k v k') w Hw) as Hw1.
  destruct (on_l1 _ w) as [[[]|e] w1]; cbn [fst snd] in *; [done| |done].
  rewrite bind_attempt. pose proof (on_l2_has k v d _ (l2_get_has k v d now k' Hd) w1 Hw1) as Hw2.
  destruct (on_l2 (RedisCacheImpl_Get now k') w1) as [[x|e2] w2] eqn:E2; cbn [fst snd] in *; [|done].
  rewrite bind_attempt. cbn [fst snd]. apply on_l1_has; [|done]. apply Set_only. intros ->.
  eapply l2_found; [exact Hd | exact Hw1|]. by rewrite E2.
Qed.
Lemma warmSingleKey_abs k now k' : preserves (mabs k) (warmSingleKey (B:=B) (R:=R) DefaultTTL now k').
Proof.
  intros w Hw. unfold warmSingleKey. rewrite bind_attempt.
  pose proof (on_l1_abs k _ (Exists_none k k') w Hw) as Hw1.
  destruct (on_l1 _ w) as [[[]|e] w1]; cbn [fst snd] in *; [done| |done].
  rewrite bind_attempt. pose proof (on_l2_abs k _ (l2_get_none k now k') w1 Hw1) as Hw2.
  destruct (on_l2 (RedisCacheImpl_Get now k') w1) as [[x|e2] w2] eqn:E2; cbn [fst snd] in *; [|done].
  rewrite bind_attempt. cbn [fst snd]. apply on_l1_abs; [|done]. apply Set_none. intros ->.
  pose proof (l2_not_found k now w1 Hw1) as Hf. by rewrite E2 in Hf.
Qed.

Lemma WarmKeys_has k v d now order : now < d →
  preserves (mhas k v d) (WarmKeys (B:=B) (R:=R) DefaultTTL now order).
Proof. intros Hd. apply preserves_for_each. intros k' _. by apply warmSingleKey_has. Qed.
Lemma WarmKeys_abs k now order : preserves (mabs k) (WarmKeys (B:=B) (R:=R) DefaultTTL now order).
Proof. apply preserves_for_each. intros k' _. apply warmSingleKey_abs. Qed.
End warm_lemmas.

Section invalidation_lemmas.
Context {B R : Type} `{BigCacheLaws B} `{RedisKVLaws R} `{EntryJsonLaws}.
Context (l1_first : bool).

Lemma invalidate_ok now k (w w' : CacheManagerImpl B R) : pending w = [] →
  InvalidateKey l1_first now k w = (Ok tt, w') → mabs k w'.
Proof.
  intros Hp. unfold InvalidateKey. destruct (String.eqb_spec k "") as [|Hk]; [done|]. intros Hr.
  apply bind_ok_inv in Hr as ([] & w1 & Hd & Hr). injection Hr as <-.
  assert (Hd' : CacheManagerImpl_Delete l1_first now k w = (Ok tt, w1)).
  { unfold CacheManagerImpl_Delete. by destruct (String.eqb_spec k ""). }
  apply (on_tags_abs k _ w1). by eapply delete_ok.
Qed.

Lemma run_invalidation_run now i (w : JobsW B R) id j : jw_invalidating w !! i = Some (id, j) →
  jw_manager (run_invalidation l1_first now i w).2 =
    (execute_invalidation l1_first now j (jw_manager w)).2 ∧
  jw_invalidations (run_invalidation l1_first now i w).2 = delete id (jw_invalidations w).
Proof.
  intros Hi. unfold run_invalidation. rewrite bind_gets, Hi, bind_modify, bind_attempt.
  unfold on_manager. rewrite zoom_eq. cbn [fst snd]. done.
Qed.
End invalidation_lemmas.

(** Stopping is for good: once [StopWarming] has run, jobs scheduled later are
    accepted and never started. *)
Theorem scheduling_after_stop_never_runs {B R} (w w1 w2 : JobsW B R) now keys interval t :
  StopWarming w = (Ok tt, w1) → ScheduleWarming now keys interval w1 = (Ok tt, w2) →
  jw_scheduler w2 = true ∧ processWarmingJobs t w2 = None.
Proof.
  unfold StopWarming. destruct (jw_stopped w); [done|]. intros [= <-].
  unfold ScheduleWarming. destruct (_ || _); [done|]. intros [= <-]. done.
Qed.

(** The scan of [WarmPattern] matches the raw Redis keys, which all start with
    the prefix of the level: a pattern that does not finds none of them. *)
Theorem unprefixed_pattern_matches_nothing `{GlobLaws} c p q k :
  c ≠ "l"%char → glob_literal (String c p) = true → glob_literal q = true →
  glob_match (String c p +:+ "*" +:+ q) (full_key k) = false.
Proof.
  intros Hc Hp Hq. destruct (glob_match _ _) eqn:E; [|done].
  apply (glob_star _ _ _ Hp Hq) in E as [m Hm]. unfold full_key, prefix in Hm.
  simpl in Hm. by injection Hm as <- _.
Qed.

(** [WarmKeys] leaves no key out and none in twice: its batches, put together,
    are the list of keys, and each has between one and [batchSize] of them. *)
Theorem warm_batches_cover size keys :
  concat (warm_batches size keys) = keys ∧
  Forall (λ b, 0 < length b <= batch_size size)%nat (warm_batches size keys).
Proof.
  apply batch_loop_cover; [|lia]. unfold batch_size.
  destruct (Z.leb_spec size 0); lia.
Qed.

(** ** Properties *)

(** Warming is transparent.  Whatever keys are warmed and in whatever order
    the goroutines reach them, a key the manager holds until a deadline is
    still read with its value before that deadline, and a key the manager does
    not have is still not found. *)
Theorem warming_is_transparent {B R} `{BigCacheLaws B} `{RedisKVLaws R} `{EntryJsonLaws}
    DefaultTTL now order k v d (w : CacheManagerImpl B R) now' :
  redis_reachable (R:=R) → k ≠ "" → now < d → now' < d →
  let w' := (WarmKeys DefaultTTL now order w).2 in
  (mhas k v d w → (CacheManagerImpl_Get now' k w').1 = Ok v) ∧
  (mabs k w → is_ok (CacheManagerImpl_Get now' k w').1 = false).
Proof.
  intros Hup Hk Hd Hd'. split; intros Hw.
  - eapply get_has_value; [done..|exact Hd'|]. by apply WarmKeys_has.
  - apply get_abs_value. by apply WarmKeys_abs.
Qed.

(** A scheduled invalidation happens after its delay and not before.  With
    no other invalidation running, a tick starts the job exactly when its time
    has passed; and when the started job's deletion succeeds on both levels,
    the key is not found any more and the job has left the table. *)
Theorem scheduled_invalidation_happens {B R} `{BigCacheLaws B} `{RedisKVLaws R} `{EntryJsonLaws}
    l1_first now key delay (w w1 : JobsW B R) t i now2 :
  ScheduleInvalidation now key delay w = (Ok tt, w1) → jw_invalidating w = [] →
  let id := "invalidate_" +:+ key +:+ "_" +:+ Itoa now in
  let job := mkInvalidationJob key [] "" now (now + delay) true in
  let w2 := processScheduledInvalidations t w1 in
  ((id, job) ∈ jw_invalidating w2 ↔ now + delay < t) ∧
  (jw_invalidating w2 !! i = Some (id, job) → pending (jw_manager w2) = [] →
   (InvalidateKey l1_first now2 key (jw_manager w2)).1 = Ok tt →
   let w3 := (run_invalidation l1_first now2 i w2).2 in
   (∀ now', is_ok (CacheManagerImpl_Get now' key (jw_manager w3)).1 = false) ∧
   jw_invalidations w3 !! id = None).
Proof.
  intros Hs Hidle id job w2. unfold ScheduleInvalidation in Hs.
  destruct (String.eqb_spec key "") as [|Hk]; [done|]. destruct (Z.ltb_spec delay 0); [done|].
  injection Hs as <-. split.
  - unfold w2, processScheduledInvalidations. simpl. rewrite Hidle. simpl.
    rewrite list_elem_of_In, filter_In, <- list_elem_of_In, elem_of_map_to_list.
    fold id job. rewrite lookup_insert_eq. unfold ready, After. simpl. rewrite Z.ltb_lt. naive_solver.
  - intros Hi Hp Hr w3. destruct (run_invalidation_run l1_first now2 i w2 id job Hi) as [Hm Hj].
    assert (He : execute_invalidation (B:=B) (R:=R) l1_first now2 job = InvalidateKey l1_first now2 key).
    { unfold execute_invalidation. simpl. by destruct (String.eqb_spec key ""). }
    rewrite He in Hm. split.
    + intros now'. apply get_abs_value. unfold w3. rewrite Hm.
      eapply invalidate_ok; [exact Hp|]. by apply run_split.
    + unfold w3. rewrite Hj. apply lookup_delete_eq.
Qed.

(** ** Witnesses *)

#[local] Existing Instances ref_entry_json ref_entry_json_laws ref_big_lib ref_big_laws ref_kv_lib ref_kv_laws.

Example warming_is_transparent_witness :
  (CacheManagerImpl_Get (30 * Minute) "k"
     (WarmKeys (5 * Minute) Minute ["k"; "j"] ref_stored.2).2).1 = Ok "v".
Proof.
  apply (warming_is_transparent (5 * Minute) Minute ["k"; "j"] "k" "v" Hour ref_stored.2 (30 * Minute));
    [exact ref_kv_reachable | discriminate | reflexivity | reflexivity |].
  apply (set_ok (5 * Minute) true 0 "k" "v" Hour ref_manager);
    [reflexivity | discriminate | reflexivity | exact (run_split _ _ ref_stored_run)].
Defined.

Definition ref_jobs : JobsW ref_big ref_kv := mkJobs ref_stored.2 ∅ false false [] ∅ [].
Definition ref_scheduled : res error unit * JobsW ref_big ref_kv := ScheduleInvalidation 0 "k" Minute ref_jobs.
Lemma ref_scheduled_run : ref_scheduled.1 = Ok tt.
Proof. vm_refl. Qed.
Definition ref_started : JobsW ref_big ref_kv := processScheduledInvalidations (2 * Minute) ref_scheduled.2.
Lemma ref_started_ok : (InvalidateKey true (2 * Minute) "k" (jw_manager ref_started)).1 = Ok tt.
Proof. vm_refl. Qed.

Example scheduled_invalidation_happens_witness :
  is_ok (CacheManagerImpl_Get (3 * Minute) "k"
           (jw_manager (run_invalidation true (2 * Minute) 0 ref_started).2)).1 = false.
Proof.
  destruct (scheduled_invalidation_happens true 0 "k" Minute ref_jobs ref_scheduled.2 (2 * Minute) 0
    (2 * Minute)) as [_ Hrun].
  - exact (run_split _ _ ref_scheduled_run).
  - reflexivity.
  - apply Hrun; [vm_refl | reflexivity | exact ref_started_ok].
Defined.
