(* ===== verification/SpecializedPools.v ===== *)
(** * The specialised pools (src/internal/application/services/specialized_worker_pools.go)

    The hashing limiter, the scheduler and the tasks of the cache-warming
    pool, and the audit pool with its batch processor.  The hashing path the
    authentication service waits on is in AuthService.v; the pool itself is
    WorkerPool.v, and the audit pool is composed with it: a run interleaves
    callers, the flush timer, the delivery goroutine and the pool's own
    events. *)

From S2P Require Import Prelude Errors Models Ifaces WorkerPool Permission.

#[local] Open Scope Z_scope.

(** ** The hashing limiter

    [current] is updated next to the channel operation; the two are one
    action. *)

Record HashingRateLimiter := mkHashingRateLimiter {
  hrl_maxConcurrent : nat; hrl_current : Z; hrl_semaphore : nat }.

Definition NewHashingRateLimiter (maxConcurrent : nat) : HashingRateLimiter :=
  mkHashingRateLimiter maxConcurrent 0 0.

(** [Acquire] with the case its [select] took: a slot, or the context. *)
Definition Acquire (slot : bool) (l : HashingRateLimiter) : option (bool * HashingRateLimiter) :=
  if slot then
    if (hrl_semaphore l <? hrl_maxConcurrent l)%nat
    then Some (true, mkHashingRateLimiter (hrl_maxConcurrent l) (hrl_current l + 1)
                       (S (hrl_semaphore l)))
    else None
  else Some (false, l).

Definition Release (l : HashingRateLimiter) : HashingRateLimiter :=
  match hrl_semaphore l with
  | O => l
  | S n => mkHashingRateLimiter (hrl_maxConcurrent l) (hrl_current l - 1) n
  end.
Definition GetCurrentLoad (l : HashingRateLimiter) : Z := hrl_current l.

Inductive limiter_step : HashingRateLimiter → HashingRateLimiter → Prop :=
| ls_acquire slot b l l' : Acquire slot l = Some (b, l') → limiter_step l l'
| ls_release l : limiter_step l (Release l).

(** ** Cache-warming tasks *)

Inductive WarmingTaskType :=
| WarmUserPermissions | WarmFrequentlyUsed | WarmPredictive | WarmBulkUsers | UnknownTask (n : Z).
Inductive TaskPriority := LowPriority | NormalPriority | HighPriority | OtherPriority (n : Z).

Record CacheWarmingTask := mkTask {
  wt_Type : WarmingTaskType; wt_UserID : uuid; wt_Resources : list string;
  wt_Priority : TaskPriority; wt_CreatedAt : Z; wt_Deadline : Z }.

Record CacheWarmingResult := mkWarmingResult {
  wr_Success : bool; wr_ItemsWarmed : Z; wr_Error : option error }.

Record CacheWarmingMetrics := mkWarmingMetrics {
  WarmingTasks : Z; WarmingCompleted : Z; WarmingFailed : Z; AverageWarmTime : Z }.

(** *** The priority scheduler *)

Record WarmingTaskScheduler := mkScheduler {
  highPriorityQueue : list CacheWarmingTask; normalPriorityQueue : list CacheWarmingTask;
  lowPriorityQueue : list CacheWarmingTask }.
Definition NewWarmingTaskScheduler : WarmingTaskScheduler := mkScheduler [] [] [].
Definition high_capacity : nat := 100.
Definition normal_capacity : nat := 500.
Definition low_capacity : nat := 1000.

(** A non-blocking send: [None] when the buffer is full. *)
Definition try_send {A} (cap : nat) (x : A) (q : list A) : option (list A) :=
  if (length q <? cap)%nat then Some (q ++ [x]) else None.

Definition send_high (t : CacheWarmingTask) (s : WarmingTaskScheduler) : option WarmingTaskScheduler :=
  (λ q, mkScheduler q (normalPriorityQueue s) (lowPriorityQueue s))
    <$> try_send high_capacity t (highPriorityQueue s).
Definition send_normal (t : CacheWarmingTask) (s : WarmingTaskScheduler) : option WarmingTaskScheduler :=
  (λ q, mkScheduler (highPriorityQueue s) q (lowPriorityQueue s))
    <$> try_send normal_capacity t (normalPriorityQueue s).
Definition send_low (t : CacheWarmingTask) (s : WarmingTaskScheduler) : option WarmingTaskScheduler :=
  (λ q, mkScheduler (highPriorityQueue s) (normalPriorityQueue s) q)
    <$> try_send low_capacity t (lowPriorityQueue s).

Definition ScheduleTask (task : CacheWarmingTask) (s : WarmingTaskScheduler) : WarmingTaskScheduler :=
  match wt_Priority task with
  | HighPriority =>
      match send_high task s with Some s' => s' | None => default s (send_normal task s) end
  | NormalPriority =>
      match send_normal task s with Some s' => s' | None => default s (send_low task s) end
  | LowPriority => default s (send_low task s)
  | OtherPriority _ => s
  end.

(** *** The tasks

    [SpecializedCacheManager]: only [Set] is called. *)
Inductive warm_value := VText (s : string) | VPermission (p : EPermission).
Class SpecializedCache (C : Type) := sc_Set : Z → string → warm_value → Z → M C unit.

Section tasks.
Context {W : Type} `{SpecializedCache W} `{UuidLib}.
(** The permission service, when there is one: its [GetUserEffectivePermissions]. *)
Context (permissionService : option (uuid → M W (list EPermission))).

(** The loops over keys: a failed [Set] is skipped. *)
Fixpoint warm_items (now ttl : Z) (items : list (string * warm_value)) (warmed : Z) : M W Z :=
  match items with
  | [] => ret warmed
  | (key, v) :: rest =>
      let* r := attempt (sc_Set now key v ttl) in
      warm_items now ttl rest (match r with Ok _ => warmed + 1 | Err _ => warmed end)
  end.

Definition simulated_key (u : uuid) (i : Z) : string :=
  "user:" +:+ uuid_String u +:+ ":perm:simulated:" +:+ Itoa i.
Definition permission_key (u : uuid) (p : EPermission) : string :=
  "user:" +:+ uuid_String u +:+ ":perm:" +:+ ep_Resource p +:+ ":" +:+ ep_Action p +:+ ":" +:+ ep_Scope p.
Definition resource_key (resource : string) : string := "frequent:resource:" +:+ resource.

Definition warmUserPermissions (now : Z) (task : CacheWarmingTask) : M W CacheWarmingResult :=
  match permissionService with
  | None =>
      let* _ := warm_items now (5 * Minute)
        (List.map (λ i, (simulated_key (wt_UserID task) i, VText "simulated_permission")) [0; 1; 2]) 0 in
      ret (mkWarmingResult true 3 None)
  | Some get =>
      let* r := attempt (get (wt_UserID task)) in
      match r with
      | Err e => ret (mkWarmingResult false 0 (Some (ErrorWrap "failed to get user permissions" e)))
      | Ok permissions =>
          let* n := warm_items now (5 * Minute)
            (List.map (λ p, (permission_key (wt_UserID task) p, VPermission p)) permissions) 0 in
          ret (mkWarmingResult true n None)
      end
  end.

Definition warmFrequentlyUsed (now : Z) (task : CacheWarmingTask) : M W CacheWarmingResult :=
  let* n := warm_items now (10 * Minute)
    (List.map (λ r, (resource_key r, VText "warmed")) (wt_Resources task)) 0 in
  ret (mkWarmingResult true n None).
Definition warmPredictive : M W CacheWarmingResult := ret (mkWarmingResult true 10 None).
Definition warmBulkUsers : M W CacheWarmingResult := ret (mkWarmingResult true 50 None).

(** [updateWarmingMetrics], after the counters. *)
Definition updateWarmingMetrics (duration : Z) (m : CacheWarmingMetrics) : CacheWarmingMetrics :=
  let '(mkWarmingMetrics t c f avg) := m in
  mkWarmingMetrics t c f
    (if (0 <? c)%Z then Z.quot (wrap64 (wrap64 (avg * (c - 1)) + duration)) c else duration).
Definition count_result (r : CacheWarmingResult) (m : CacheWarmingMetrics) : CacheWarmingMetrics :=
  let '(mkWarmingMetrics t c f avg) := m in
  if wr_Success r then mkWarmingMetrics t (wrap64 (c + 1)) f avg
  else mkWarmingMetrics t c (wrap64 (f + 1)) avg.

(** [processWarmingTask]: the result is sent on a channel with room for it. *)
Definition processWarmingTask (now duration : Z) (task : CacheWarmingTask) (m : CacheWarmingMetrics)
    : M W (CacheWarmingResult * CacheWarmingMetrics) :=
  let* r := match wt_Type task with
            | WarmUserPermissions => warmUserPermissions now task
            | WarmFrequentlyUsed => warmFrequentlyUsed now task
            | WarmPredictive => warmPredictive
            | WarmBulkUsers => warmBulkUsers
            | UnknownTask n =>
                ret (mkWarmingResult false 0 (Some (ErrorString ("unknown warming task type: " +:+ Itoa n))))
            end in
  ret (r, updateWarmingMetrics duration (count_result r m)).
End tasks.

(** [ScheduleWarmingTask]: the task goes to the scheduler and, as a job, to
    the pool. *)
Record CacheWarmingPool := mkWarmingPool {
  cwp_pool : WorkerPool CacheWarmingTask; cwp_scheduler : WarmingTaskScheduler;
  cwp_metrics : CacheWarmingMetrics }.
Definition NewCacheWarmingPool (size : nat) : CacheWarmingPool :=
  mkWarmingPool (NewWorkerPool size) NewWarmingTaskScheduler (mkWarmingMetrics 0 0 0 0).
Definition ScheduleWarmingTask (task : CacheWarmingTask) (c : submit_case) (s : CacheWarmingPool)
    : option CacheWarmingPool :=
  let '(mkWarmingMetrics t co f avg) := cwp_metrics s in
  pool ← Submit task c (cwp_pool s);
  Some (mkWarmingPool pool (ScheduleTask task (cwp_scheduler s)) (mkWarmingMetrics (wrap64 (t + 1)) co f avg)).

Definition WarmUserPermissionsAsync (now : Z) (userID : uuid) (priority : TaskPriority) : CacheWarmingTask :=
  mkTask WarmUserPermissions userID [] priority now (now + 30 * Second).
Definition WarmFrequentlyUsedAsync (now : Z) (resources : list string) : CacheWarmingTask :=
  mkTask WarmFrequentlyUsed uuid_Nil resources NormalPriority now (now + 60 * Second).

(** ** The audit pool *)

Record AuditEvent := mkAuditEvent {
  au_EventType : string; au_UserID : uuid; au_OrganizationID : uuid; au_Resource : string;
  au_Action : string; au_IPAddress : string; au_UserAgent : string;
  au_Metadata : gmap string string; au_Timestamp : Z; au_SessionID : uuid; au_RequestID : uuid }.

Record AuditLoggingMetrics := mkAuditMetrics {
  AuditEvents : Z; EventsProcessed : Z; EventsFailed : Z; BatchesProcessed : Z;
  AverageProcessTime : Z }.

Record AuditBatchProcessor := mkBatchProcessor {
  abp_batchSize : nat; abp_eventBuffer : list AuditEvent; abp_flushChan : list (list AuditEvent);
  abp_dropped : list (list AuditEvent) (* history: batches dropped, in order *) }.
Definition NewAuditBatchProcessor (batchSize : nat) : AuditBatchProcessor :=
  mkBatchProcessor batchSize [] [] [].
Definition flush_capacity : nat := 10.

Definition flushBufferUnsafe (p : AuditBatchProcessor) : AuditBatchProcessor :=
  let '(mkBatchProcessor n buf ch dr) := p in
  match buf with
  | [] => p
  | _ :: _ =>
      if (length ch <? flush_capacity)%nat
      then mkBatchProcessor n [] (ch ++ [buf]) dr
      else mkBatchProcessor n [] ch (dr ++ [buf])
  end.
Definition flushBuffer (p : AuditBatchProcessor) : AuditBatchProcessor := flushBufferUnsafe p.

Definition AddEvent (event : AuditEvent) (p : AuditBatchProcessor) : AuditBatchProcessor :=
  let '(mkBatchProcessor n buf ch dr) := p in
  let p' := mkBatchProcessor n (buf ++ [event]) ch dr in
  if (n <=? length (buf ++ [event]))%nat then flushBufferUnsafe p' else p'.

(** The pool with its batch processor.  [alp_rejected] is the history of
    batches the worker pool did not take. *)
Record AuditLoggingPool := mkAuditPool {
  alp_pool : WorkerPool (list AuditEvent); alp_batchProcessor : AuditBatchProcessor;
  alp_metrics : AuditLoggingMetrics;
  alp_logged : list AuditEvent; alp_rejected : list (list AuditEvent) }.
Definition NewAuditLoggingPool (size : nat) : AuditLoggingPool :=
  mkAuditPool (NewWorkerPool size) (NewAuditBatchProcessor 50) (mkAuditMetrics 0 0 0 0 0) [] [].

Definition LogAuditEventAsync (event : AuditEvent) (s : AuditLoggingPool) : AuditLoggingPool :=
  let '(mkAuditPool po bp (mkAuditMetrics ev pr fa ba av) lo re) := s in
  mkAuditPool po (AddEvent event bp) (mkAuditMetrics (wrap64 (ev + 1)) pr fa ba av) (lo ++ [event]) re.

(** [LogAuthenticationEvent]; the two identifiers are fresh. *)
Definition LogAuthenticationEvent (now : Z) (session request : uuid) (userID orgID : uuid)
    (eventType action ipAddress userAgent : string) (metadata : gmap string string)
    : AuditLoggingPool → AuditLoggingPool :=
  LogAuditEventAsync (mkAuditEvent eventType userID orgID "authentication" action ipAddress userAgent
    metadata now session request).

(** [processBatch] on the batch the delivery goroutine received. *)
Definition deliver (c : submit_case) (s : AuditLoggingPool) : option AuditLoggingPool :=
  let '(mkAuditPool po (mkBatchProcessor n buf ch dr) m lo re) := s in
  match ch with
  | [] => None
  | batch :: rest =>
      match batch with
      | [] => Some (mkAuditPool po (mkBatchProcessor n buf rest dr) m lo re)
      | _ =>
          po' ← Submit batch c po;
          Some (mkAuditPool po' (mkBatchProcessor n buf rest dr) m lo
                  (if (length (wp_accepted po) <? length (wp_accepted po'))%nat then re else re ++ [batch]))
      end
  end.

(** [processAuditBatch]: the counters of one batch. *)
Fixpoint count_events (events : list AuditEvent) (processed : Z) : Z :=
  match events with [] => processed | _ :: rest => count_events rest (wrap64 (processed + 1)) end.
Definition updateAuditMetrics (duration : Z) (m : AuditLoggingMetrics) : AuditLoggingMetrics :=
  let '(mkAuditMetrics ev pr fa ba av) := m in
  mkAuditMetrics ev pr fa ba
    (if (0 <? ba)%Z then Z.quot (wrap64 (wrap64 (av * (ba - 1)) + duration)) ba else duration).
Definition processAuditBatch (events : list AuditEvent) (duration : Z) (m : AuditLoggingMetrics)
    : AuditLoggingMetrics :=
  let '(mkAuditMetrics ev pr fa ba av) := m in
  updateAuditMetrics duration (mkAuditMetrics ev (count_events events pr) fa (wrap64 (ba + 1)) av).

(** An event of the worker pool other than a submission; when a worker
    finishes, its job has run. *)
Definition is_submission {J} (e : WorkerPool.event J) : bool :=
  match e with EvSubmit _ _ | EvSubmitWithTimeout _ _ => true | _ => false end.

Definition pool_event (e : WorkerPool.event (list AuditEvent)) (s : AuditLoggingPool)
    : option AuditLoggingPool :=
  if is_submission e then None
  else
    po ← wstep e (alp_pool s);
    let m := match e with
             | EvFinish i dur =>
                 match wp_workers (alp_pool s) !! i with
                 | Some (Busy batch) => processAuditBatch batch dur (alp_metrics s)
                 | _ => alp_metrics s
                 end
             | _ => alp_metrics s
             end in
    Some (mkAuditPool po (alp_batchProcessor s) m (alp_logged s) (alp_rejected s)).

Inductive audit_event :=
| ALog (e : AuditEvent)          (* a caller *)
| ATimer                         (* the flush timer *)
| ADeliver (c : submit_case)     (* the delivery goroutine *)
| APool (e : WorkerPool.event (list AuditEvent)).

Definition astep (e : audit_event) (s : AuditLoggingPool) : option AuditLoggingPool :=
  match e with
  | ALog ev => Some (LogAuditEventAsync ev s)
  | ATimer => Some (mkAuditPool (alp_pool s) (flushBuffer (alp_batchProcessor s)) (alp_metrics s)
                      (alp_logged s) (alp_rejected s))
  | ADeliver c => deliver c s
  | APool e => pool_event e s
  end.
Fixpoint arun (es : list audit_event) (s : AuditLoggingPool) : option AuditLoggingPool :=
  match es with [] => Some s | e :: es' => astep e s ≫= arun es' end.
Definition audit_step (s s' : AuditLoggingPool) : Prop := ∃ e, astep e s = Some s'.

(** Metadata helpers. *)
Definition getEmailFromMetadata (metadata : gmap string string) : string :=
  default "" (metadata !! "email").
Definition getLoginMethodFromMetadata (metadata : gmap string string) : string :=
  default "password" (metadata !! "login_method").

(** ** Lemmas *)

Lemma limiter_ok l l' : limiter_step l l' →
  hrl_current l = Z.of_nat (hrl_semaphore l) ∧ (hrl_semaphore l <= hrl_maxConcurrent l)%nat →
  hrl_maxConcurrent l' = hrl_maxConcurrent l ∧
  hrl_current l' = Z.of_nat (hrl_semaphore l') ∧ (hrl_semaphore l' <= hrl_maxConcurrent l')%nat.
Proof.
  intros H [Hc Hs]. destruct l as [n c sem]; simpl in *. inversion H as [slot b l0 l1 Ha|l0]; subst.
  - unfold Acquire in Ha. simpl in Ha. destruct slot; [|by simplify_eq].
    destruct (Nat.ltb_spec sem n); simplify_eq. simpl. lia.
  - unfold Release. simpl. destruct sem; simpl; lia.
Qed.

Lemma limiter_reachable n l : star limiter_step (NewHashingRateLimiter n) l →
  hrl_maxConcurrent l = n ∧ hrl_current l = Z.of_nat (hrl_semaphore l) ∧
  (hrl_semaphore l <= n)%nat.
Proof.
  intros Hs. eapply (star_invariant limiter_step (λ l, hrl_maxConcurrent l = n ∧
    hrl_current l = Z.of_nat (hrl_semaphore l) ∧ (hrl_semaphore l <= n)%nat)) in Hs; [done| |].
  - intros a b (Hn & Hc & Hle) Hab. rewrite <- Hn in Hle.
    destruct (limiter_ok a b Hab (conj Hc Hle)) as (Hm & Hc' & Hle'). rewrite Hm, Hn in Hle'.
    by rewrite Hm.
  - simpl. lia.
Qed.

(** The scheduler's buffers. *)
Definition scheduler_ok (s : WarmingTaskScheduler) : Prop :=
  (length (highPriorityQueue s) <= high_capacity)%nat ∧
  (length (normalPriorityQueue s) <= normal_capacity)%nat ∧
  (length (lowPriorityQueue s) <= low_capacity)%nat.

Lemma try_send_len {A} cap (x : A) q q' : try_send cap x q = Some q' →
  (length q < cap)%nat ∧ q' = q ++ [x].
Proof. unfold try_send. destruct (Nat.ltb_spec (length q) cap); [|done]. by intros [= <-]. Qed.

Lemma send_ok_high t s s' : send_high t s = Some s' → scheduler_ok s → scheduler_ok s'.
Proof.
  unfold send_high. destruct (try_send _ _ _) as [q|] eqn:E; [|done]. intros [= <-] (Hh & Hn & Hl).
  apply try_send_len in E as [Hlt ->]. split_and!; simpl; try done. rewrite length_app. simpl. lia.
Qed.
Lemma send_ok_normal t s s' : send_normal t s = Some s' → scheduler_ok s → scheduler_ok s'.
Proof.
  unfold send_normal. destruct (try_send _ _ _) as [q|] eqn:E; [|done]. intros [= <-] (Hh & Hn & Hl).
  apply try_send_len in E as [Hlt ->]. split_and!; simpl; try done. rewrite length_app. simpl. lia.
Qed.
Lemma send_ok_low t s s' : send_low t s = Some s' → scheduler_ok s → scheduler_ok s'.
Proof.
  unfold send_low. destruct (try_send _ _ _) as [q|] eqn:E; [|done]. intros [= <-] (Hh & Hn & Hl).
  apply try_send_len in E as [Hlt ->]. split_and!; simpl; try done. rewrite length_app. simpl. lia.
Qed.

Lemma ScheduleTask_ok t s : scheduler_ok s → scheduler_ok (ScheduleTask t s).
Proof.
  intros Hok. unfold ScheduleTask. destruct (wt_Priority t); [| | |done].
  - destruct (send_low t s) eqn:E; simpl; [by eapply send_ok_low | done].
  - destruct (send_normal t s) eqn:E; [by eapply send_ok_normal|].
    destruct (send_low t s) eqn:E'; simpl; [by eapply send_ok_low | done].
  - destruct (send_high t s) eqn:E; [by eapply send_ok_high|].
    destruct (send_normal t s) eqn:E'; simpl; [by eapply send_ok_normal | done].
Qed.

(** *** The audit pool *)

Lemma count_events_wrap l n : count_events l (wrap64 n) = wrap64 (n + Z.of_nat (length l)).
Proof.
  revert n. induction l as [|e l IH]; intros n; simpl; [f_equal; lia|].
  rewrite wrap64_add, IH. f_equal. lia.
Qed.

Lemma Submit_accepted {J} (job : J) c s s' : Submit job c s = Some s' →
  wp_executed s' = wp_executed s ∧
  (wp_accepted s' = wp_accepted s ∨ wp_accepted s' = wp_accepted s ++ [job]).
Proof.
  unfold Submit. remember (set_metrics (count_submission s) s) as s1 eqn:E.
  assert (wp_executed s1 = wp_executed s ∧ wp_accepted s1 = wp_accepted s) as [He Ha]
    by (subst; by destruct s).
  rewrite <- He, <- Ha. clear E He Ha. destruct c; intros H.
  - unfold send in H. destruct s1 as [n st sp q cl qu ca ws m ac ex pa]; simpl in *.
    destruct cl; [simplify_eq; auto|]. destruct (sendable _); simplify_eq; auto.
  - destruct (wp_cancelled s1); simplify_eq; auto.
  - destruct (_ && _); simplify_eq; auto.
  - done.
Qed.

Lemma Submit_ok {J} (job : J) c s s' : Submit job c s = Some s' → pool_ok s → pool_ok s'.
Proof. intros H. exact (wstep_ok (EvSubmit job c) s s' H). Qed.

Lemma wstep_accepted {J} (e : WorkerPool.event J) s s' : wstep e s = Some s' →
  is_submission e = false →
  wp_accepted s' = wp_accepted s ∧
  wp_executed s' = wp_executed s ++
    match e with
    | EvFinish i _ => match wp_workers s !! i with Some (Busy b) => [b] | _ => [] end
    | _ => []
    end.
Proof.
  intros H Hn. destruct s as [n st sp q cl qu ca ws [su co pr aw ql av] ac ex pa].
  destruct e; simpl in *; try done;
    unfold Start, Stop_signal, Stop_close, worker_take, executeJob_end, worker_quit in H;
    simpl in H; repeat case_match; simplify_eq; simpl; rewrite ?app_nil_r; done.
Qed.

Record audit_ok (s : AuditLoggingPool) : Prop := {
  ao_pool : pool_ok (alp_pool s);
  ao_size : abp_batchSize (alp_batchProcessor s) = 50%nat;
  ao_events : alp_logged s ≡ₚ
    concat (wp_accepted (alp_pool s)) ++ concat (abp_flushChan (alp_batchProcessor s)) ++
    abp_eventBuffer (alp_batchProcessor s) ++
    concat (abp_dropped (alp_batchProcessor s)) ++ concat (alp_rejected s);
  ao_buffer : (length (abp_eventBuffer (alp_batchProcessor s)) < 50)%nat;
  ao_chan : (length (abp_flushChan (alp_batchProcessor s)) <= flush_capacity)%nat;
  ao_batches : Forall (λ b, 0 < length b <= 50)%nat (abp_flushChan (alp_batchProcessor s));
  ao_logged : AuditEvents (alp_metrics s) = wrap64 (Z.of_nat (length (alp_logged s)));
  ao_processed : EventsProcessed (alp_metrics s) =
    wrap64 (Z.of_nat (length (concat (wp_executed (alp_pool s)))));
  ao_counted : BatchesProcessed (alp_metrics s) =
    wrap64 (Z.of_nat (length (wp_executed (alp_pool s)))) }.

Lemma concat_snoc {A} (ls : list (list A)) (l : list A) : concat (ls ++ [l]) = concat ls ++ l.
Proof. rewrite concat_app. simpl. by rewrite app_nil_r. Qed.

(** Flushing moves the buffer to the channel or to the dropped batches. *)
Lemma flush_cases p : flushBufferUnsafe p = p ∧ abp_eventBuffer p = [] ∨
  abp_eventBuffer (flushBufferUnsafe p) = [] ∧
  abp_batchSize (flushBufferUnsafe p) = abp_batchSize p ∧
  (0 < length (abp_eventBuffer p))%nat ∧
  (abp_flushChan (flushBufferUnsafe p) = abp_flushChan p ++ [abp_eventBuffer p] ∧
   abp_dropped (flushBufferUnsafe p) = abp_dropped p ∧
   (length (abp_flushChan p) < flush_capacity)%nat ∨
   abp_flushChan (flushBufferUnsafe p) = abp_flushChan p ∧
   abp_dropped (flushBufferUnsafe p) = abp_dropped p ++ [abp_eventBuffer p]).
Proof.
  unfold flushBufferUnsafe. destruct p as [n [|e buf] ch dr]; simpl; [by left|]. right.
  destruct (Nat.ltb_spec (length ch) flush_capacity); simpl; split_and!; auto; lia.
Qed.

Lemma flush_ok po bp m lo re :
  (length (abp_eventBuffer bp) <= 50)%nat →
  abp_batchSize bp = 50%nat →
  (length (abp_flushChan bp) <= flush_capacity)%nat →
  Forall (λ b, 0 < length b <= 50)%nat (abp_flushChan bp) →
  lo ≡ₚ concat (wp_accepted po) ++ concat (abp_flushChan bp) ++ abp_eventBuffer bp ++
        concat (abp_dropped bp) ++ concat re →
  pool_ok po → AuditEvents m = wrap64 (Z.of_nat (length lo)) →
  EventsProcessed m = wrap64 (Z.of_nat (length (concat (wp_executed po)))) →
  BatchesProcessed m = wrap64 (Z.of_nat (length (wp_executed po))) →
  audit_ok (mkAuditPool po (flushBufferUnsafe bp) m lo re).
Proof.
  intros Hb Hsz Hc Hf Hlo Hpo Hm1 Hm2 Hm3.
  destruct (flush_cases bp) as [[-> He]|(He & Hsz' & Hpos & [(Hch & Hdr & Hlt)|(Hch & Hdr)])].
  - split; simpl; try done. rewrite He. simpl. lia.
  - split; simpl; try done; rewrite ?He, ?Hch, ?Hdr, ?Hsz'; simpl; try done; [|lia| |].
    + rewrite Hlo, concat_snoc. solve_Permutation.
    + rewrite length_app. simpl. lia.
    + apply Forall_app_2; [done|]. constructor; [lia | done].
  - split; simpl; try done; rewrite ?He, ?Hch, ?Hdr, ?Hsz'; simpl; try done; [|lia].
    rewrite Hlo, concat_snoc. solve_Permutation.
Qed.

Lemma LogAuditEventAsync_ok e s : audit_ok s → audit_ok (LogAuditEventAsync e s).
Proof.
  intros []. destruct s as [po [n buf ch dr] [ev pr fa ba av] lo re]. simpl in *. subst n.
  assert (Hlo : lo ++ [e] ≡ₚ concat (wp_accepted po) ++ concat ch ++ (buf ++ [e]) ++ concat dr ++ concat re)
    by (rewrite ao_events0; solve_Permutation).
  assert (Hev : wrap64 (ev + 1) = wrap64 (Z.of_nat (length (lo ++ [e])))).
  { rewrite ao_logged0, wrap64_add, length_app. f_equal. simpl. lia. }
  destruct (Nat.leb_spec 50 (length (buf ++ [e]))) as [Hge|Hlt].
  - apply (flush_ok po (mkBatchProcessor 50 (buf ++ [e]) ch dr)); simpl; try done.
    rewrite length_app. simpl. lia.
  - by split.
Qed.

Lemma deliver_ok c s s' : deliver c s = Some s' → audit_ok s → audit_ok s'.
Proof.
  intros H []. destruct s as [po [n buf [|batch ch] dr] m lo re]; simpl in *; [done|].
  apply Forall_cons in ao_batches0 as [Hbatch Hch]. destruct batch as [|e0 batch0]; [simpl in *; lia|].
  remember (e0 :: batch0) as batch. destruct (Submit batch c po) as [po'|] eqn:Es; [|done].
  injection H as <-. destruct (Submit_accepted _ _ _ _ Es) as [Hex Hac].
  pose proof (Submit_ok _ _ _ _ Es ao_pool0) as Hpo.
  destruct Hac as [Hac|Hac]; rewrite Hac.
  - rewrite Nat.ltb_irrefl. split; simpl; try done; rewrite ?Hac, ?Hex; try done; [|lia].
    rewrite ao_events0, concat_snoc. solve_Permutation.
  - replace (_ <? _)%nat with true by (symmetry; apply Nat.ltb_lt; rewrite length_app; simpl; lia).
    split; simpl; try done; rewrite ?Hac, ?Hex; try done; [|lia].
    rewrite ao_events0, concat_snoc. solve_Permutation.
Qed.

Lemma processAuditBatch_counts b d m :
  AuditEvents (processAuditBatch b d m) = AuditEvents m ∧
  EventsProcessed (processAuditBatch b d m) = count_events b (EventsProcessed m) ∧
  BatchesProcessed (processAuditBatch b d m) = wrap64 (BatchesProcessed m + 1).
Proof. by destruct m. Qed.

Lemma pool_event_ok e s s' : pool_event e s = Some s' → audit_ok s → audit_ok s'.
Proof.
  unfold pool_event. intros H Hok. destruct (is_submission e) eqn:Hs; [done|].
  destruct (wstep e (alp_pool s)) as [po|] eqn:Hw; [|done]. injection H as <-.
  destruct (wstep_accepted _ _ _ Hw Hs) as [Hac Hex].
  pose proof (wstep_ok _ _ _ Hw (ao_pool s Hok)) as Hpok.
  destruct Hok. split; simpl; rewrite ?Hac; try done.
  - destruct e; try done. destruct (wp_workers (alp_pool s) !! i) as [[|b|]|]; try done.
    by destruct (processAuditBatch_counts b dur (alp_metrics s)) as (-> & _).
  - rewrite Hex. destruct e; rewrite ?app_nil_r; try done.
    destruct (wp_workers (alp_pool s) !! i) as [[|b|]|]; rewrite ?app_nil_r; try done.
    destruct (processAuditBatch_counts b dur (alp_metrics s)) as (_ & -> & _).
    rewrite ao_processed0, count_events_wrap, concat_snoc, length_app. f_equal. lia.
  - rewrite Hex. destruct e; rewrite ?app_nil_r; try done.
    destruct (wp_workers (alp_pool s) !! i) as [[|b|]|]; rewrite ?app_nil_r; try done.
    destruct (processAuditBatch_counts b dur (alp_metrics s)) as (_ & _ & ->).
    rewrite ao_counted0, wrap64_add, length_app. f_equal. simpl. lia.
Qed.

Lemma astep_ok e s s' : astep e s = Some s' → audit_ok s → audit_ok s'.
Proof.
  destruct e; simpl; intros H Hok.
  - injection H as <-. by apply LogAuditEventAsync_ok.
  - injection H as <-. destruct Hok. apply flush_ok; try done. lia.
  - by eapply deliver_ok.
  - by eapply pool_event_ok.
Qed.

Lemma audit_reachable_ok n s : star audit_step (NewAuditLoggingPool n) s → audit_ok s.
Proof.
  intros Hs. eapply (star_invariant audit_step audit_ok); [| |exact Hs].
  - intros a b Ha [e He]. by eapply astep_ok.
  - split; simpl; try done; [apply pool_ok_new|lia|lia].
Qed.

Lemma arun_star es s s' : arun es s = Some s' → star audit_step s s'.
Proof.
  intros H. enough (∀ s0, star audit_step s0 s → star audit_step s0 s') by (apply H0; constructor).
  revert s H. induction es as [|e es IH]; intros s H s0 H0; simpl in H; [by simplify_eq|].
  destruct (astep e s) as [s1|] eqn:E; [|done]. simpl in H. eapply IH; [exact H|].
  eapply star_snoc; [exact H0 | by exists e].
Qed.

Lemma concat_Permutation {A} (ls ls' : list (list A)) : ls ≡ₚ ls' → concat ls ≡ₚ concat ls'.
Proof.
  induction 1 as [|x l l' _ IH|x y l|l1 l2 l3 _ IH1 _ IH2]; simpl; [done | by rewrite IH | | by rewrite IH1].
  rewrite !app_assoc. by rewrite (Permutation_app_comm y x).
Qed.

(** *** Warming *)
Section warming.
Context {W : Type} `{SpecializedCache W} `{UuidLib}.

Lemma warm_items_count now ttl items n (w : W) :
  ∃ k w', warm_items now ttl items n w = (Ok k, w') ∧ n ≤ k ≤ n + Z.of_nat (length items).
Proof.
  revert n w. induction items as [|[key v] items IH]; intros n w; simpl.
  - exists n, w. split; [done | lia].
  - rewrite bind_attempt. destruct (sc_Set now key v ttl w) as [[[]|e] w1]; simpl.
    + destruct (IH (n + 1) w1) as (k & w' & -> & Hk). exists k, w'. split; [done | lia].
    + destruct (IH n w1) as (k & w' & -> & Hk). exists k, w'. split; [done | lia].
Qed.

Lemma warm_items_all now ttl items n (w : W) :
  (∀ key v (w0 : W), is_ok (sc_Set now key v ttl w0).1 = true) →
  (warm_items now ttl items n w).1 = Ok (n + Z.of_nat (length items)).
Proof.
  intros Hs. revert n w. induction items as [|[key v] items IH]; intros n w; simpl.
  - f_equal. lia.
  - rewrite bind_attempt. pose proof (Hs key v w) as Hk.
    destruct (sc_Set now key v ttl w) as [[[]|e] w1]; simpl in *; [|done]. rewrite IH. f_equal. lia.
Qed.
End warming.

(** A canonical UUID text is made of hexadecimal digits and dashes; all that
    matters here is its first character. *)
Definition uuid_hex `{UuidLib} : Prop := ∀ u, HasPrefix (uuid_String u) "p" = false.

(** The entries of the warming pool are under keys the permission service
    never reads: neither a decision's key nor the one of a user's effective
    permissions. *)
Theorem warmed_keys_are_never_read `{UuidLaws} u p v r a s :
  uuid_hex → permission_key u p ≠ buildPermissionCacheKey v r a s ∧
             permission_key u p ≠ effectiveKey v.
Proof.
  intros Hh. assert (Hp : ∀ t t', uuid_String u +:+ t ≠ "p" +:+ t').
  { intros t t' Ht. specialize (Hh u). pose proof (uuid_String_len u) as Hl.
    destruct (uuid_String u) as [|c us]; [done|]. simpl in Ht. injection Ht as -> _. done. }
  unfold permission_key, buildPermissionCacheKey, effectiveKey. split; intros Hk.
  - apply (str_app_inj_l "user:") in Hk. by apply Hp in Hk.
  - apply (str_app_inj_l "user:") in Hk. by apply Hp in Hk.
Qed.

Definition grows (s s' : WarmingTaskScheduler) : Prop :=
  (∃ l, highPriorityQueue s' = highPriorityQueue s ++ l) ∧
  (∃ l, normalPriorityQueue s' = normalPriorityQueue s ++ l) ∧
  (∃ l, lowPriorityQueue s' = lowPriorityQueue s ++ l).

Lemma grows_refl s : grows s s.
Proof. split_and!; exists []; by rewrite app_nil_r. Qed.
Lemma grows_trans s1 s2 s3 : grows s1 s2 → grows s2 s3 → grows s1 s3.
Proof.
  intros ((a1 & E1) & (a2 & E2) & (a3 & E3)) ((b1 & F1) & (b2 & F2) & (b3 & F3)).
  split_and!; eexists; [rewrite F1, E1 | rewrite F2, E2 | rewrite F3, E3]; by rewrite <- app_assoc.
Qed.
Lemma send_grows t s s' : send_high t s = Some s' ∨ send_normal t s = Some s' ∨ send_low t s = Some s' →
  grows s s'.
Proof.
  unfold send_high, send_normal, send_low, try_send. intros [H|[H|H]];
    (destruct (_ <? _)%nat; [|done]); injection H as <-; unfold grows; simpl;
    split_and!; eauto; exists []; by rewrite app_nil_r.
Qed.
Lemma fallback_grows s o : (∀ s', o = Some s' → grows s s') → grows s (default s o).
Proof. intros Ho. destruct o; simpl; [by apply Ho | apply grows_refl]. Qed.
Lemma ScheduleTask_grows t s : grows s (ScheduleTask t s).
Proof.
  unfold ScheduleTask. destruct (wt_Priority t); [| | |apply grows_refl].
  - apply fallback_grows. intros s' Hs. apply (send_grows t). auto.
  - destruct (send_normal t s) eqn:E; [apply (send_grows t); auto|].
    apply fallback_grows. intros s' Hs. apply (send_grows t). auto.
  - destruct (send_high t s) eqn:E; [apply (send_grows t); auto|].
    apply fallback_grows. intros s' Hs. apply (send_grows t). auto.
Qed.

(** Nothing ever takes a task out of the scheduler: whatever is scheduled, its
    queues only grow, so once they are full every further task is dropped. *)
Theorem scheduler_never_drains ts s : grows s (foldl (λ s t, ScheduleTask t s) s ts).
Proof.
  revert s. induction ts as [|t ts IH]; intros s; simpl; [apply grows_refl|].
  eapply grows_trans; [apply ScheduleTask_grows | apply IH].
Qed.

(** Warming one user: the number of items reported is the number of cache
    writes that succeeded, all of them when the cache accepts every write. *)
Theorem warmUserPermissions_spec {W} `{SpecializedCache W} `{UuidLib} get now task perms (w w1 : W) :
  get (wt_UserID task) w = (Ok perms, w1) →
  ∃ n w2, warmUserPermissions (Some get) now task w = (Ok (mkWarmingResult true n None), w2) ∧
    0 ≤ n ≤ Z.of_nat (length perms) ∧
    ((∀ key v ttl (w0 : W), is_ok (sc_Set now key v ttl w0).1 = true) → n = Z.of_nat (length perms)).
Proof.
  intros Hg. set (items := List.map (λ p, (permission_key (wt_UserID task) p, VPermission p)) perms).
  destruct (warm_items_count now (5 * Minute) items 0 w1) as (n & w2 & Hrun & Hn).
  assert (Hlen : length items = length perms) by apply length_map. rewrite Hlen in Hn.
  exists n, w2. split_and!; [|lia..|].
  - unfold warmUserPermissions. rewrite bind_attempt, Hg. cbn [fst snd]. fold items.
    by rewrite (bind_step _ _ _ _ _ Hrun).
  - intros Hs. pose proof (warm_items_all now (5 * Minute) items 0 w1 (λ k v, Hs k v _)) as Ha.
    rewrite Hrun, Hlen in Ha. simpl in Ha. by injection Ha.
Qed.

(** ** Properties *)

(** Every audit event is accounted for.  In every reachable state of the
    audit pool the events logged so far are exactly those processed, those in
    a running or queued job, those in the delivery channel, those still
    buffered, and those dropped with a batch that found a full channel or a
    full pool; the counters are exact; fewer than 50 events are buffered, at
    most 10 batches wait, and each has between 1 and 50 events. *)
Theorem audit_events_accounted n s : star audit_step (NewAuditLoggingPool n) s →
  alp_logged s ≡ₚ
    concat (wp_executed (alp_pool s)) ++ concat (busy_jobs (wp_workers (alp_pool s))) ++
    concat (wp_jobQueue (alp_pool s)) ++ concat (abp_flushChan (alp_batchProcessor s)) ++
    abp_eventBuffer (alp_batchProcessor s) ++
    (concat (abp_dropped (alp_batchProcessor s)) ++ concat (alp_rejected s)) ∧
  AuditEvents (alp_metrics s) = wrap64 (Z.of_nat (length (alp_logged s))) ∧
  EventsProcessed (alp_metrics s) = wrap64 (Z.of_nat (length (concat (wp_executed (alp_pool s))))) ∧
  BatchesProcessed (alp_metrics s) = wrap64 (Z.of_nat (length (wp_executed (alp_pool s)))) ∧
  (length (abp_eventBuffer (alp_batchProcessor s)) < 50)%nat ∧
  (length (abp_flushChan (alp_batchProcessor s)) <= 10)%nat ∧
  (∀ b, b ∈ abp_flushChan (alp_batchProcessor s) → (0 < length b <= 50)%nat).
Proof.
  intros Hs. destruct (audit_reachable_ok n s Hs). split_and!; try done.
  - rewrite ao_events0, (concat_Permutation _ _ (ok_jobs _ ao_pool0)), !concat_app, <- !app_assoc. done.
  - by apply Forall_forall.
Qed.

(** Stopping the audit pool leaves its flush goroutines running: delivering a
    batch afterwards may send on the closed job channel, which panics outside
    any recovery. *)
Theorem audit_flush_after_stop_panics s b rest :
  wp_closed (alp_pool s) = true → abp_flushChan (alp_batchProcessor s) = b :: rest → b ≠ [] →
  ∃ s', astep (ADeliver Sent) s = Some s' ∧ wp_panics (alp_pool s') = S (wp_panics (alp_pool s)).
Proof.
  intros Hc Hch Hb. destruct s as [[n st sp q cl qu ca ws m ac ex pa] [k buf ch dr] me lo re].
  simpl in *. subst cl ch. destruct b as [|e b]; [done|]. unfold Submit. simpl.
  eexists. split; [reflexivity|]. done.
Qed.

(** The hashing limiter: along every interleaving of [Acquire] and [Release]
    the load is the number of held slots and never exceeds the limit. *)
Theorem hashing_limiter_bounds n l : star limiter_step (NewHashingRateLimiter n) l →
  GetCurrentLoad l = Z.of_nat (hrl_semaphore l) ∧ 0 ≤ GetCurrentLoad l ≤ Z.of_nat n.
Proof.
  intros Hs. destruct (limiter_reachable n l Hs) as (Hm & Hc & Hle). unfold GetCurrentLoad.
  split; [done | lia].
Qed.

(** ** Witnesses *)

Definition demo_audit (i : N) : AuditEvent :=
  mkAuditEvent "user_login" i 3 "authentication" "login" "" "" ∅ 0 0 i.
Definition audit_run : list audit_event :=
  [APool EvStart; ALog (demo_audit 1); ALog (demo_audit 2); ATimer; ALog (demo_audit 3);
   ADeliver Sent; APool (EvTake 0); APool (EvFinish 0 5)].
Definition audited : AuditLoggingPool :=
  match arun audit_run (NewAuditLoggingPool 3) with Some s => s | None => NewAuditLoggingPool 0 end.

Example audit_events_accounted_witness :
  alp_logged audited ≡ₚ [demo_audit 1; demo_audit 2] ++ [] ++ [] ++ [] ++ [demo_audit 3] ++ ([] ++ []) ∧
  EventsProcessed (alp_metrics audited) = 2.
Proof.
  destruct (audit_events_accounted 3 audited) as (He & _ & Hp & _).
  - apply (arun_star audit_run). reflexivity.
  - split; [exact He | exact Hp].
Defined.
