(* ===== verification/PermissionWarmer.v ===== *)
(** * Permission cache warming
    (src/internal/application/services/permission_cache_warmer.go)

    The usage tracker, the scheduler's queue and the warming operations over
    the permission service of Permission.v.  A [range] over a Go map visits
    its entries in an unspecified order; the order of [map_to_list] stands for
    one, and no statement depends on it.  [AccessPattern.Frequency] is a float
    that is written and never read, and [Regularity] and [PeakHours] are never
    written; the pattern is its [Trending] flag. *)

From S2P Require Import Prelude Errors Models Ifaces Permission.

#[local] Open Scope Z_scope.

Record CacheWarmerConfig := mkWarmerConfig {
  WarmingInterval : Z; UsageTrackingWindow : Z; MinUsageThreshold : Z; MaxWarmingBatch : nat;
  WarmingTimeout : Z; PredictiveWarming : bool }.
(** The configuration [NewPermissionCacheWarmer] builds. *)
Definition warmer_config : CacheWarmerConfig :=
  mkWarmerConfig (5 * Minute) (24 * Hour) 3 100 (30 * Second) true.

(** ** The usage tracker *)

Record UsageStats := mkUsageStats {
  us_UserID : N; us_Resource : string; us_Action : string; us_Scope : string;
  us_AccessCount : Z; us_LastAccessed : Z; us_FirstSeen : Z; us_Trending : bool }.
Abbreviation UsageTracker := (gmap string UsageStats).
Definition NewUsageTracker : UsageTracker := ∅.

(** [updateAccessPattern], reading the clock at [now]. *)
Definition updateAccessPattern (now : Z) (st : UsageStats) : UsageStats :=
  let '(mkUsageStats u r a s n last first trending) := st in
  if (1 <? n)%Z then
    let recentAccesses := if (now - last <? Hour)%Z then Z.quot n 2 else 0 in
    mkUsageStats u r a s n last first (Z.quot n 2 <? recentAccesses)%Z
  else st.

Definition usage_key `{UuidLib} (userID : N) (resource action scope : string) : string :=
  uuid_String userID +:+ ":" +:+ resource +:+ ":" +:+ action +:+ ":" +:+ scope.
#[global] Arguments usage_key : simpl never.

Definition count_access (now : Z) (st : UsageStats) : UsageStats :=
  let '(mkUsageStats u r a s n last first trending) := st in
  mkUsageStats u r a s (wrap64 (n + 1)) now first trending.

(** [TrackUsage] at [now]; the pattern is updated a little later, at [later]. *)
Definition TrackUsage `{UuidLib} (now later : Z) (userID : N) (resource action scope : string)
    (ut : UsageTracker) : UsageTracker :=
  let key := usage_key userID resource action scope in
  let stats := match ut !! key with
               | Some st => st
               | None => mkUsageStats userID resource action scope 0 0 now false
               end in
  <[key := updateAccessPattern later (count_access now stats)]> ut.

Definition GetFrequentlyUsed (minThreshold : Z) (ut : UsageTracker) : list UsageStats :=
  List.filter (λ st, minThreshold <=? us_AccessCount st)%Z (map_to_list ut).*2.
Definition GetTrendingPermissions (ut : UsageTracker) : list UsageStats :=
  List.filter us_Trending (map_to_list ut).*2.
Definition cleanup (now timeWindow : Z) (ut : UsageTracker) : UsageTracker :=
  filter (λ kv, Before (us_LastAccessed kv.2) (now - timeWindow) = false) ut.
Definition tracked_permissions (ut : UsageTracker) : nat := size ut.

Inductive tracker_step `{UuidLib} (ut : UsageTracker) : UsageTracker → Prop :=
| ts_track now later u r a s : tracker_step ut (TrackUsage now later u r a s ut)
| ts_cleanup now window : tracker_step ut (cleanup now window ut).

(** ** The warmer *)

Record WarmingTask := mkWarmingTask {
  wtk_UserID : N; wtk_Permissions : list PermissionCheckRequest; wtk_Priority : Z; wtk_CreatedAt : Z }.

(** The queue of [WarmingScheduler]; [Stop] closes it. *)
Record WarmingScheduler := mkWarmingScheduler { warmingQueue : list WarmingTask; wsc_closed : bool }.
Definition NewWarmingScheduler : WarmingScheduler := mkWarmingScheduler [] false.
Definition warming_capacity : nat := 1000.

Record PermissionCacheWarmer (C D : Type) := mkWarmer {
  pcw_service : PSW C D; pcw_tracker : UsageTracker; pcw_scheduler : WarmingScheduler }.
Arguments mkWarmer {C D}. Arguments pcw_service {C D}. Arguments pcw_tracker {C D}.
Arguments pcw_scheduler {C D}.

Definition criticalResources : list string := ["user"; "organization"; "role"; "permission"; "auth"].
Definition isCriticalResource (resource : string) : bool := existsb (String.eqb resource) criticalResources.
Definition calculatePriority (permissions : list PermissionCheckRequest) : Z :=
  foldl (λ priority perm, if isCriticalResource (pcr_Resource perm) then priority + 10 else priority)
    (Z.of_nat (length permissions)) permissions.

(** Grouping by user. *)
Definition group_by_user (stats : list UsageStats) : gmap N (list PermissionCheckRequest) :=
  foldl (λ m st, <[us_UserID st := default [] (m !! us_UserID st) ++
                     [mkCheckRequest (us_Resource st) (us_Action st) (us_Scope st)]]> m) ∅ stats.

Definition warming_task (config : CacheWarmerConfig) (now : Z)
    (entry : N * list PermissionCheckRequest) : WarmingTask :=
  let permissions := if (MaxWarmingBatch config <? length entry.2)%nat
                     then take (MaxWarmingBatch config) entry.2 else entry.2 in
  mkWarmingTask entry.1 permissions (calculatePriority permissions) now.

Section warmer.
Context {C D : Type} `{CacheOps C} `{PermissionRepository D}.
Context `{PermissionJson} `{UuidLib} (psconfig : PermissionServiceConfig) (config : CacheWarmerConfig).
Abbreviation W := (PermissionCacheWarmer C D).
Abbreviation MF := (GoM (option error)).

Definition on_service {A} (m : M (PSW C D) A) : M W A :=
  zoom pcw_service (λ s w, mkWarmer s (pcw_tracker w) (pcw_scheduler w)) m.
Definition on_serviceF {A} (m : MF (PSW C D) A) : MF W A :=
  λ w, let (r, s) := m (pcw_service w) in (r, mkWarmer s (pcw_tracker w) (pcw_scheduler w)).

Definition preloaded (now : Z) (perm : EPermission) : PermissionEvaluationResult :=
  mkEvalResult true (Some perm) "preloaded permission" now.

(** The inner loop of [WarmUserPermissions]: a failed write is logged. *)
Fixpoint preload (now : Z) (userID : N) (permissions : list EPermission) : M (PSW C D) unit :=
  match permissions with
  | [] => ret tt
  | perm :: rest =>
      let cacheKey := buildPermissionCacheKey userID (ep_Resource perm) (ep_Action perm) (ep_Scope perm) in
      attempt (F:=error) (cacheResult psconfig now cacheKey (preloaded now perm)) ;;;
      preload now userID rest
  end.

Definition warm_user (now : Z) (userID : N) : M (PSW C D) unit :=
  let* permissions := attempt (GetUserEffectivePermissions psconfig now userID) in
  match permissions with Err _ => ret tt | Ok l => preload now userID l end.

Definition WarmUserPermissions (now : Z) (userIDs : list N) : M W unit :=
  for_each (λ userID, on_service (warm_user now userID)) userIDs.

(** The send of one task: [done] is the error of the context when the
    [select] takes that case; a send on the closed queue panics. *)
Definition offer (task : WarmingTask) (done : option error) : MF W unit :=
  match done with
  | Some e => fail (Some e)
  | None => λ w,
      let q := pcw_scheduler w in
      if wsc_closed q then (Err None, w)
      else if (length (warmingQueue q) <? warming_capacity)%nat
      then (Ok tt, mkWarmer (pcw_service w) (pcw_tracker w)
                     (mkWarmingScheduler (warmingQueue q ++ [task]) false))
      else (Ok tt, w)
  end.
Fixpoint offer_all (tasks : list WarmingTask) (done : nat → option error) (i : nat) : MF W unit :=
  match tasks with
  | [] => ret tt
  | task :: rest => offer task (done i) ;;; offer_all rest done (S i)
  end.

Definition WarmFrequentlyUsedPermissions (now : Z) (done : nat → option error) : MF W unit :=
  let* ut := gets pcw_tracker in
  let frequentPermissions := GetFrequentlyUsed (MinUsageThreshold config) ut in
  offer_all (warming_task config now <$> map_to_list (group_by_user frequentPermissions)) done 0.

(** One turn of [PredictiveWarm]. *)
Definition predict (fuel : nat) (now : Z) (st : UsageStats) : MF (PSW C D) unit :=
  let cacheKey := buildPermissionCacheKey (us_UserID st) (us_Resource st) (us_Action st) (us_Scope st) in
  let* cached := attemptF (on_pcache (cache_Get now cacheKey)) in
  match cached with
  | Ok _ => ret tt
  | Err _ =>
      let* (result, err) := on_repoF (evaluatePermission fuel now (us_UserID st) (us_Resource st)
                                        (us_Action st) (us_Scope st)) in
      match err with
      | Some _ => ret tt
      | None => attemptF (cacheResult psconfig now cacheKey result) ;;; ret tt
      end
  end.
Definition PredictiveWarm (fuel : nat) (now : Z) : MF W unit :=
  if negb (PredictiveWarming config) then ret tt
  else
    let* ut := gets pcw_tracker in
    for_each (λ st, on_serviceF (predict fuel now st)) (GetTrendingPermissions ut).

(** [performScheduledWarming]: both errors are logged only. *)
Definition performScheduledWarming (fuel : nat) (now : Z) (done : nat → option error) : MF W unit :=
  λ w, match WarmFrequentlyUsedPermissions now done w with
       | (Err None, w1) => (Err None, w1)
       | (_, w1) => match PredictiveWarm fuel now w1 with
                    | (Err None, w2) => (Err None, w2)
                    | (_, w2) => (Ok tt, w2)
                    end
       end.

(** [Stop] closes the queue; the second close panics. *)
Definition WarmingScheduler_Stop (s : WarmingScheduler) : option WarmingScheduler :=
  if wsc_closed s then None else Some (mkWarmingScheduler (warmingQueue s) true).
(** A worker's receive: the next task, or [None] once closed and empty. *)
Definition worker_receive (s : WarmingScheduler) : option (option WarmingTask * WarmingScheduler) :=
  match warmingQueue s with
  | task :: rest => Some (Some task, mkWarmingScheduler rest (wsc_closed s))
  | [] => if wsc_closed s then Some (None, s) else None
  end.
(** The bulk request a worker issues for a task. *)
Definition processWarmingTask (task : WarmingTask) : BulkPermissionRequest :=
  mkBulkRequest (wtk_UserID task) (wtk_Permissions task).
End warmer.

(** [Start] defers the stop of the ticker it creates, so the ticker runs only
    until [Start] returns; the goroutine it leaves behind waits on it. *)
Inductive ticker := Running (next interval : Z) | Stopped.
Definition tick (t : ticker) (now : Z) : option ticker :=
  match t with
  | Running next interval => if (next <=? now)%Z then Some (Running (now + interval) interval) else None
  | Stopped => None
  end.
Definition NewTicker (now interval : Z) : ticker := Running (now + interval) interval.
Definition ticker_Stop (t : ticker) : ticker := Stopped.
(** The ticker as [Start] leaves it to its goroutine. *)
Definition Start (config : CacheWarmerConfig) (now : Z) : ticker :=
  let t := NewTicker now (WarmingInterval config) in
  ticker_Stop t. (* the deferred call *)

(** ** Lemmas *)

Lemma updateAccessPattern_trending now st : us_Trending st = false →
  us_Trending (updateAccessPattern now st) = false.
Proof.
  destruct st as [u r a s n last first tr]. simpl. intros ->. destruct (Z.ltb_spec 1 n) as [Hn|]; [|done].
  simpl. assert (0 ≤ Z.quot n 2) by (apply Z.quot_pos; lia).
  destruct (now - last <? Hour)%Z; [apply Z.ltb_irrefl|]. apply Z.ltb_ge. lia.
Qed.

Section tracker.
Context `{UuidLib}.

Definition quiet (ut : UsageTracker) : Prop := map_Forall (λ _ st, us_Trending st = false) ut.

Lemma TrackUsage_quiet now later u r a s ut : quiet ut → quiet (TrackUsage now later u r a s ut).
Proof.
  intros Hq. unfold TrackUsage. apply map_Forall_insert_2; [|done].
  apply updateAccessPattern_trending.
  destruct (ut !! usage_key u r a s) as [st|] eqn:E; [|done].
  specialize (Hq _ _ E). by destruct st.
Qed.

Lemma cleanup_quiet now window ut : quiet ut → quiet (cleanup now window ut).
Proof. intros Hq k st Hk. apply map_lookup_filter_Some in Hk as [Hk _]. by apply (Hq k). Qed.

Lemma tracker_quiet ut : star tracker_step NewUsageTracker ut → quiet ut.
Proof.
  intros Hs. eapply (star_invariant tracker_step quiet); [| |exact Hs].
  - intros x y Hx []; [by apply TrackUsage_quiet | by apply cleanup_quiet].
  - apply map_Forall_empty.
Qed.

Lemma quiet_none ut : quiet ut → GetTrendingPermissions ut = [].
Proof.
  intros Hq. unfold GetTrendingPermissions.
  assert (Hl : ∀ st, st ∈ (map_to_list ut).*2 → us_Trending st = false).
  { intros st Hin. apply list_elem_of_fmap in Hin as ([k st'] & -> & Hin).
    apply elem_of_map_to_list in Hin. by apply (Hq k). }
  induction (map_to_list ut).*2 as [|st l IH]; [done|]. simpl.
  rewrite (Hl st) by left. apply IH. intros st' Hin. apply Hl. by right.
Qed.

(** Counting. *)
Fixpoint track_n (n : nat) (now : Z) (u : N) (r a s : string) (ut : UsageTracker) : UsageTracker :=
  match n with O => ut | S n' => TrackUsage now now u r a s (track_n n' now u r a s ut) end.

Lemma updateAccessPattern_count now st : us_AccessCount (updateAccessPattern now st) = us_AccessCount st.
Proof. destruct st; simpl. by destruct (1 <? _)%Z. Qed.

Lemma track_n_count n now u r a s ut : Z.of_nat n ≤ max_int → ut !! usage_key u r a s = None →
  match track_n n now u r a s ut !! usage_key u r a s with
  | Some st => us_AccessCount st = Z.of_nat n ∧ (0 < n)%nat
  | None => n = 0%nat
  end.
Proof.
  intros Hn Hk. induction n as [|n IH]; simpl; [by rewrite Hk|].
  unfold TrackUsage. rewrite lookup_insert_eq, updateAccessPattern_count.
  specialize (IH ltac:(lia)).
  destruct (track_n n now u r a s ut !! _) as [[u' r' a' s' c l f t]|]; simpl in *.
  - destruct IH as [-> _]. rewrite wrap64_small; [lia|]. unfold min_int, max_int in *. lia.
  - subst. rewrite wrap64_small; [lia|]. unfold min_int, max_int in *. lia.
Qed.
End tracker.

Section preloading.
Context {C D : Type} `{CacheLaws C} `{PermissionRepository D}.
Context `{PermissionJsonLaws} `{UuidLib} (psconfig : PermissionServiceConfig).
Context (Hup : ∀ k v ttl now (c : C), is_ok (cache_Set now k v ttl c).1 = true).
Context (Hjson : ∀ x, is_ok (result_Marshal x) = true) (Httl : 0 < CacheTTL psconfig).

(** [key] answers yes until [d]. *)
Definition grants (key : string) (d : Z) (w : PSW C D) : Prop :=
  ∃ data out, result_Unmarshal data = Ok out ∧ per_Allowed out = true ∧ chas (pw_cache w) key data d.

Lemma cacheResult_run now key r (w : PSW C D) :
  ∃ data c', cacheResult psconfig now key r w = (Ok tt, mkPSW c' (pw_repo w)) ∧
    result_Unmarshal data = Ok r ∧ cache_Set now key data (CacheTTL psconfig) (pw_cache w) = (Ok tt, c').
Proof.
  pose proof (Hjson r) as Hr. destruct (result_Marshal r) as [data|] eqn:Em; [|done].
  pose proof (Hup key data (CacheTTL psconfig) now (pw_cache w)) as Hs.
  destruct (cache_Set now key data (CacheTTL psconfig) (pw_cache w)) as [[[]|] c'] eqn:Ec; [|done].
  exists data, c'. split_and!; [| by apply result_Unmarshal_Marshal | done].
  unfold cacheResult. rewrite bind_lift, Em. unfold on_pcache. by rewrite zoom_eq, Ec.
Qed.

Lemma preload_grants now u l (w : PSW C D) : (preload psconfig now u l w).1 = Ok tt ∧
  (∀ key, grants key (now + CacheTTL psconfig) w →
          grants key (now + CacheTTL psconfig) (preload psconfig now u l w).2) ∧
  (∀ p, p ∈ l → grants (buildPermissionCacheKey u (ep_Resource p) (ep_Action p) (ep_Scope p))
                  (now + CacheTTL psconfig) (preload psconfig now u l w).2).
Proof.
  revert w. induction l as [|p l IH]; intros w; simpl.
  - split_and!; [done | done |]. intros p Hp. by apply elem_of_nil in Hp.
  - rewrite bind_attempt. set (key := buildPermissionCacheKey u (ep_Resource p) (ep_Action p) (ep_Scope p)).
    destruct (cacheResult_run now key (preloaded now p) w) as (data & c' & -> & Hu & Hset). simpl.
    destruct (IH (mkPSW c' (pw_repo w))) as (Hok & Hkeep & Hall).
    assert (Hnew : grants key (now + CacheTTL psconfig) (mkPSW c' (pw_repo w))).
    { exists data, (preloaded now p). split_and!; [done..|]. simpl. by eapply cache_Set_has. }
    split_and!; [done| |].
    + intros k Hk. apply Hkeep. destruct (decide (k = key)) as [->|Hne]; [done|].
      destruct Hk as (d0 & out & Hd0 & Ha & Hc). exists d0, out. split_and!; [done..|].
      destruct (cache_Set_keeps (pw_cache w) key data (CacheTTL psconfig) now) as [Hks _].
      rewrite Hset in Hks. simpl in *. apply Hks; [done | lia | done].
    + intros q Hq. apply elem_of_cons in Hq as [->|Hq]; [by apply Hkeep | by apply Hall].
Qed.
End preloading.

(** A permission tracked at least as often as the threshold is reported as
    frequently used. *)
Theorem tracked_often_is_frequent `{UuidLib} n now u r a s ut min :
  Z.of_nat n ≤ max_int → ut !! usage_key u r a s = None → 0 < min ≤ Z.of_nat n →
  ∃ st, st ∈ GetFrequentlyUsed min (track_n n now u r a s ut) ∧ us_AccessCount st = Z.of_nat n.
Proof.
  intros Hn Hk Hm. pose proof (track_n_count n now u r a s ut Hn Hk) as Hc.
  destruct (track_n n now u r a s ut !! usage_key u r a s) as [st|] eqn:E; [|lia].
  destruct Hc as [Hc _]. exists st. split; [|done]. unfold GetFrequentlyUsed.
  apply list_elem_of_In, filter_In. split; [|apply Z.leb_le; lia].
  apply list_elem_of_In, list_elem_of_fmap. exists (usage_key u r a s, st).
  by rewrite elem_of_map_to_list.
Qed.

(** The scheduled warming never runs: the ticker is stopped by the time
    [Start] returns. *)
Theorem scheduled_warming_never_ticks config now later : tick (Start config now) later = None.
Proof. done. Qed.

(** ** Properties *)

(** Nothing is ever trending.  Whatever is tracked and cleaned up, the
    trend test compares half the access count with itself or with zero, so no
    permission is reported as trending and predictive warming leaves the
    cache, the repository and the scheduler as they were. *)
Theorem nothing_is_ever_trending {C D} `{CacheOps C} `{PermissionRepository D} `{PermissionJson}
    `{UuidLib} psconfig config fuel now (w : PermissionCacheWarmer C D) :
  star tracker_step NewUsageTracker (pcw_tracker w) →
  GetTrendingPermissions (pcw_tracker w) = [] ∧ PredictiveWarm psconfig config fuel now w = (Ok tt, w).
Proof.
  intros Hs. pose proof (quiet_none _ (tracker_quiet _ Hs)) as Ht. split; [done|].
  unfold PredictiveWarm. destruct (negb _); [done|]. rewrite bind_gets, Ht. done.
Qed.

(** A warmed permission is granted until its entry expires.  After
    [WarmUserPermissions] for a user whose effective permissions were
    obtained, the check of any of them is answered with yes for the cache
    lifetime, whatever the repository says by then. *)
Theorem warmed_permission_is_granted {C D} `{CacheLaws C} `{PermissionRepository D}
    `{PermissionJsonLaws} `{UuidLib} psconfig fuel now now' u p l (w : PermissionCacheWarmer C D) s1 repo' :
  (∀ k v ttl t (c : C), is_ok (cache_Set t k v ttl c).1 = true) →
  (∀ x, is_ok (result_Marshal x) = true) → 0 < CacheTTL psconfig →
  GetUserEffectivePermissions psconfig now u (pcw_service w) = (Ok l, s1) → p ∈ l →
  now' < now + CacheTTL psconfig →
  (CheckUserPermissionWithScope psconfig fuel now' u (ep_Resource p) (ep_Action p) (ep_Scope p)
     (mkPSW (pw_cache (pcw_service (WarmUserPermissions psconfig now [u] w).2)) repo')).1 = Ok true.
Proof.
  intros Hup Hj Ht Hg Hp Hn.
  destruct (preload_grants psconfig Hup Hj Ht now u l s1) as (Hrun & _ & Hall).
  destruct (Hall p Hp) as (data & out & Hu & Ha & Hc).
  assert (Hw : pcw_service (WarmUserPermissions psconfig now [u] w).2 = (preload psconfig now u l s1).2).
  { assert (Hwu : warm_user psconfig now u (pcw_service w) = preload psconfig now u l s1)
      by (unfold warm_user; by rewrite bind_attempt, Hg).
    unfold WarmUserPermissions, for_each, on_service, bind. rewrite zoom_eq, Hwu, Hrun. done. }
  rewrite Hw, <- Ha. by eapply Check_cached.
Qed.

(** ** Witnesses *)
#[local] Existing Instances ref_uuid ref_perm_json ref_perm_json_laws.

Definition tracked_twice : UsageTracker :=
  track_n 2 0 7 "docs" "read" "" NewUsageTracker.
Definition ref_warmer (ut : UsageTracker) : PermissionCacheWarmer ref_cache ref_perms :=
  mkWarmer ref_psw ut NewWarmingScheduler.

Example nothing_is_ever_trending_witness :
  PredictiveWarm ref_perm_config warmer_config 6 0 (ref_warmer tracked_twice) =
    (Ok tt, ref_warmer tracked_twice).
Proof.
  apply (nothing_is_ever_trending ref_perm_config warmer_config 6 0 (ref_warmer tracked_twice)).
  eapply star_snoc; [eapply star_snoc; [constructor|]|]; apply ts_track.
Defined.

Definition docs_list : EPermission := modelToEntity (row 1 "docs" "docs" "list" None).
Definition effective_of_7 : res error (list EPermission) * PSW ref_cache ref_perms :=
  GetUserEffectivePermissions ref_perm_config 0 7 ref_psw.
Lemma effective_of_7_run :
  effective_of_7.1 = Ok [docs_list; modelToEntity (row 2 "read" "docs" "read" (Some 1%N))].
Proof. vm_refl. Qed.

Example warmed_permission_is_granted_witness :
  (CheckUserPermissionWithScope ref_perm_config 6 Minute 7 "docs" "list" ""
     (mkPSW (pw_cache (pcw_service (WarmUserPermissions ref_perm_config 0 [7%N]
        (ref_warmer ∅)).2)) (mkRefPerms [] (λ _, [])))).1 = Ok true.
Proof.
  apply (warmed_permission_is_granted ref_perm_config 6 0 Minute 7 docs_list
    [docs_list; modelToEntity (row 2 "read" "docs" "read" (Some 1%N))] (ref_warmer ∅)
    effective_of_7.2 (mkRefPerms [] (λ _, []))).
  - done.
  - done.
  - reflexivity.
  - apply run_split, effective_of_7_run.
  - left.
  - vm_compute. reflexivity.
Defined.
