(* ===== verification/Events.v ===== *)
(** * Event publishing (src/internal/events)

    [types.go], [producer.go], [enhanced_producer.go] and
    [persistent_queue.go].  JSON is modelled as trees: [encoding/json] on a
    struct lists its fields in declaration order under their tags; what is
    decoded into an [interface{}] is a map, which is encoded with its keys
    sorted.  Identifiers and instants inside a JSON string or a header are
    kept as such: their texts are the library's.

    The storage directory is a map from file names to files, walked in
    lexical order.  The enhanced producer is an event semantics, like the
    worker pool: an event is one atomic action of a caller or of one of its
    goroutines, a [select] with several ready cases may take any of them, and
    the outcome of a write to Kafka is part of the event. *)

From S2P Require Import Prelude Errors Models.
From stdpp Require Import sorting.

#[local] Open Scope Z_scope.

(** ** JSON trees *)

Inductive Json :=
| JNull
| JStr (s : string)
| JInt (z : Z)
| JBool (b : bool)
| JUuid (u : uuid)
| JTime (t : Z)
| JArr (l : list Json)
| JObj (l : list (string * Json)).

#[export] Instance Json_eq_JNull (j : Json) : Decision (j = JNull).
Proof. destruct j; (by left) || (by right). Defined.

Definition key_le (a b : string * Json) : bool := String.leb a.1 b.1.
Fixpoint insert_key (x : string * Json) (l : list (string * Json)) : list (string * Json) :=
  match l with
  | [] => [x]
  | y :: l' => if key_le x y then x :: l else y :: insert_key x l'
  end.
Fixpoint sort_keys (l : list (string * Json)) : list (string * Json) :=
  match l with [] => [] | x :: l' => insert_key x (sort_keys l') end.

(** Decoding an object into an [interface{}] makes a map of it, which is
    printed with its keys in order. *)
Fixpoint normalize (j : Json) : Json :=
  match j with
  | JArr l => JArr (List.map normalize l)
  | JObj l => JObj (sort_keys (List.map (λ kv, (kv.1, normalize kv.2)) l))
  | _ => j
  end.

(** ** Event types (types.go) *)

Definition EventTypeUserRegistered : string := "user.registered".
Definition EventTypeUserLoggedIn : string := "user.logged_in".
Definition EventTypeUserLoggedOut : string := "user.logged_out".
Definition EventTypePasswordChanged : string := "user.password_changed".
Definition EventTypeTokenRefreshed : string := "token.refreshed".
Definition EventTypeTokenRevoked : string := "token.revoked".
Definition EventTypeRoleAssigned : string := "role.assigned".
Definition EventTypeRoleRevoked : string := "role.revoked".
Definition EventTypePermissionChanged : string := "permission.changed".
Definition EventType2FAEnabled : string := "user.2fa_enabled".
Definition EventType2FADisabled : string := "user.2fa_disabled".
Definition EventTypeOrganizationCreated : string := "organization.created".
Definition EventTypeOrganizationUpdated : string := "organization.updated".

Record UserRegisteredData := mkUserRegistered {
  urd_UserID : uuid; urd_Email : string; urd_FirstName : string; urd_LastName : string;
  urd_OrganizationID : uuid }.
Record UserLoggedInData := mkUserLoggedIn {
  uli_UserID : uuid; uli_Email : string; uli_OrganizationID : uuid; uli_LoginMethod : string }.
Record UserLoggedOutData := mkUserLoggedOut {
  ulo_UserID : uuid; ulo_OrganizationID : uuid; ulo_LogoutReason : string }.
Record PasswordChangedData := mkPasswordChanged {
  pcd_UserID : uuid; pcd_OrganizationID : uuid; pcd_ChangedBy : uuid }.
Record TokenRefreshedData := mkTokenRefreshed {
  trf_UserID : uuid; trf_OrganizationID : uuid; trf_TokenID : string }.
Record TokenRevokedData := mkTokenRevoked {
  trv_UserID : uuid; trv_OrganizationID : uuid; trv_TokenID : string; trv_TokenType : string;
  trv_RevokedBy : uuid; trv_Reason : string }.
Record RoleAssignedData := mkRoleAssigned {
  rad_UserID : uuid; rad_RoleID : uuid; rad_RoleName : string; rad_OrganizationID : uuid;
  rad_AssignedBy : uuid }.
Record RoleRevokedData := mkRoleRevoked {
  rrd_UserID : uuid; rrd_RoleID : uuid; rrd_RoleName : string; rrd_OrganizationID : uuid;
  rrd_RevokedBy : uuid }.
Record TwoFAEnabledData := mkTwoFAEnabled {
  tfe_UserID : uuid; tfe_OrganizationID : uuid; tfe_Method : string }.
Record TwoFADisabledData := mkTwoFADisabled {
  tfd_UserID : uuid; tfd_OrganizationID : uuid; tfd_DisabledBy : uuid }.
Record OrganizationCreatedData := mkOrganizationCreated {
  ocd_OrganizationID : uuid; ocd_Name : string; ocd_Domain : string; ocd_CreatedBy : uuid }.
Record OrganizationUpdatedData := mkOrganizationUpdated {
  oud_OrganizationID : uuid; oud_UpdatedBy : uuid; oud_Changes : list string }.

(** The [interface{}] of [BaseEvent.Data]: nil, one of the payloads, a
    decoded value, or a value [encoding/json] refuses (a channel, say). *)
Inductive EventData :=
| DNil
| DUserRegistered (d : UserRegisteredData)
| DUserLoggedIn (d : UserLoggedInData)
| DUserLoggedOut (d : UserLoggedOutData)
| DPasswordChanged (d : PasswordChangedData)
| DTokenRefreshed (d : TokenRefreshedData)
| DTokenRevoked (d : TokenRevokedData)
| DRoleAssigned (d : RoleAssignedData)
| DRoleRevoked (d : RoleRevokedData)
| DTwoFAEnabled (d : TwoFAEnabledData)
| DTwoFADisabled (d : TwoFADisabledData)
| DOrganizationCreated (d : OrganizationCreatedData)
| DOrganizationUpdated (d : OrganizationUpdatedData)
| DDecoded (j : Json)
| DUnsupported.

Definition UserRegistered_json (d : UserRegisteredData) : Json :=
  JObj [("user_id", JUuid (urd_UserID d)); ("email", JStr (urd_Email d));
        ("first_name", JStr (urd_FirstName d)); ("last_name", JStr (urd_LastName d));
        ("organization_id", JUuid (urd_OrganizationID d))].
Definition UserLoggedIn_json (d : UserLoggedInData) : Json :=
  JObj [("user_id", JUuid (uli_UserID d)); ("email", JStr (uli_Email d));
        ("organization_id", JUuid (uli_OrganizationID d));
        ("login_method", JStr (uli_LoginMethod d))].
Definition UserLoggedOut_json (d : UserLoggedOutData) : Json :=
  JObj [("user_id", JUuid (ulo_UserID d)); ("organization_id", JUuid (ulo_OrganizationID d));
        ("logout_reason", JStr (ulo_LogoutReason d))].
Definition PasswordChanged_json (d : PasswordChangedData) : Json :=
  JObj [("user_id", JUuid (pcd_UserID d)); ("organization_id", JUuid (pcd_OrganizationID d));
        ("changed_by", JUuid (pcd_ChangedBy d))].
Definition TokenRefreshed_json (d : TokenRefreshedData) : Json :=
  JObj [("user_id", JUuid (trf_UserID d)); ("organization_id", JUuid (trf_OrganizationID d));
        ("token_id", JStr (trf_TokenID d))].
Definition TokenRevoked_json (d : TokenRevokedData) : Json :=
  JObj [("user_id", JUuid (trv_UserID d)); ("organization_id", JUuid (trv_OrganizationID d));
        ("token_id", JStr (trv_TokenID d)); ("token_type", JStr (trv_TokenType d));
        ("revoked_by", JUuid (trv_RevokedBy d)); ("reason", JStr (trv_Reason d))].
Definition RoleAssigned_json (d : RoleAssignedData) : Json :=
  JObj [("user_id", JUuid (rad_UserID d)); ("role_id", JUuid (rad_RoleID d));
        ("role_name", JStr (rad_RoleName d)); ("organization_id", JUuid (rad_OrganizationID d));
        ("assigned_by", JUuid (rad_AssignedBy d))].
Definition RoleRevoked_json (d : RoleRevokedData) : Json :=
  JObj [("user_id", JUuid (rrd_UserID d)); ("role_id", JUuid (rrd_RoleID d));
        ("role_name", JStr (rrd_RoleName d)); ("organization_id", JUuid (rrd_OrganizationID d));
        ("revoked_by", JUuid (rrd_RevokedBy d))].
Definition TwoFAEnabled_json (d : TwoFAEnabledData) : Json :=
  JObj [("user_id", JUuid (tfe_UserID d)); ("organization_id", JUuid (tfe_OrganizationID d));
        ("method", JStr (tfe_Method d))].
Definition TwoFADisabled_json (d : TwoFADisabledData) : Json :=
  JObj [("user_id", JUuid (tfd_UserID d)); ("organization_id", JUuid (tfd_OrganizationID d));
        ("disabled_by", JUuid (tfd_DisabledBy d))].
Definition OrganizationCreated_json (d : OrganizationCreatedData) : Json :=
  JObj [("organization_id", JUuid (ocd_OrganizationID d)); ("name", JStr (ocd_Name d));
        ("domain", JStr (ocd_Domain d)); ("created_by", JUuid (ocd_CreatedBy d))].
Definition OrganizationUpdated_json (d : OrganizationUpdatedData) : Json :=
  JObj [("organization_id", JUuid (oud_OrganizationID d)); ("updated_by", JUuid (oud_UpdatedBy d));
        ("changes", JArr (List.map JStr (oud_Changes d)))].

(** [json.Marshal] of the payload; [None] is an error. *)
Definition data_json (d : EventData) : option Json :=
  match d with
  | DNil => Some JNull
  | DUserRegistered d => Some (UserRegistered_json d)
  | DUserLoggedIn d => Some (UserLoggedIn_json d)
  | DUserLoggedOut d => Some (UserLoggedOut_json d)
  | DPasswordChanged d => Some (PasswordChanged_json d)
  | DTokenRefreshed d => Some (TokenRefreshed_json d)
  | DTokenRevoked d => Some (TokenRevoked_json d)
  | DRoleAssigned d => Some (RoleAssigned_json d)
  | DRoleRevoked d => Some (RoleRevoked_json d)
  | DTwoFAEnabled d => Some (TwoFAEnabled_json d)
  | DTwoFADisabled d => Some (TwoFADisabled_json d)
  | DOrganizationCreated d => Some (OrganizationCreated_json d)
  | DOrganizationUpdated d => Some (OrganizationUpdated_json d)
  | DDecoded j => Some j
  | DUnsupported => None
  end.

(** ** The envelope and its encoding *)

Record BaseEvent := mkBaseEvent {
  be_ID : uuid; be_Type : string; be_Source : string; be_Timestamp : Z;
  be_UserID : option uuid; be_OrganizationID : option uuid;
  be_IPAddress : string; be_UserAgent : string; be_Data : EventData }.

Definition omit_uuid (k : string) (o : option uuid) : list (string * Json) :=
  match o with Some u => [(k, JUuid u)] | None => [] end.
Definition omit_str (k : string) (s : string) : list (string * Json) :=
  if String.eqb s "" then [] else [(k, JStr s)].

Definition BaseEvent_Marshal (e : BaseEvent) : option Json :=
  data ← data_json (be_Data e);
  Some (JObj ([("id", JUuid (be_ID e)); ("type", JStr (be_Type e));
               ("source", JStr (be_Source e)); ("timestamp", JTime (be_Timestamp e))]
              ++ omit_uuid "user_id" (be_UserID e)
              ++ omit_uuid "organization_id" (be_OrganizationID e)
              ++ omit_str "ip_address" (be_IPAddress e)
              ++ omit_str "user_agent" (be_UserAgent e)
              ++ [("data", data)])).

Inductive EventStatus :=
| EventStatusPending | EventStatusProcessing | EventStatusSent | EventStatusFailed
| EventStatusDeadLetter.
#[export] Instance EventStatus_eq_dec : EqDecision EventStatus.
Proof. solve_decision. Defined.
Definition status_num (s : EventStatus) : Z :=
  match s with
  | EventStatusPending => 0 | EventStatusProcessing => 1 | EventStatusSent => 2
  | EventStatusFailed => 3 | EventStatusDeadLetter => 4
  end.
Definition status_of (z : Z) : option EventStatus :=
  match z with
  | 0 => Some EventStatusPending | 1 => Some EventStatusProcessing | 2 => Some EventStatusSent
  | 3 => Some EventStatusFailed | 4 => Some EventStatusDeadLetter | _ => None
  end.

Record QueuedEvent := mkQueued {
  qe_ID : uuid; qe_Event : BaseEvent; qe_Attempts : Z; qe_Status : EventStatus;
  qe_CreatedAt : Z; qe_LastAttempt : Z; qe_NextRetry : Z; qe_Error : string }.

Definition QueuedEvent_Marshal (q : QueuedEvent) : option Json :=
  ev ← BaseEvent_Marshal (qe_Event q);
  Some (JObj ([("id", JUuid (qe_ID q)); ("event", ev); ("attempts", JInt (qe_Attempts q));
               ("status", JInt (status_num (qe_Status q)));
               ("created_at", JTime (qe_CreatedAt q));
               ("last_attempt", JTime (qe_LastAttempt q));
               ("next_retry", JTime (qe_NextRetry q))]
              ++ omit_str "error" (qe_Error q))).

(** [json.Unmarshal] into the structs: a missing field keeps its zero value,
    a field of the wrong kind is an error. *)
Fixpoint field (k : string) (l : list (string * Json)) : option Json :=
  match l with
  | [] => None
  | (k', v) :: l' => if String.eqb k k' then Some v else field k l'
  end.
Definition get_uuid (o : option Json) : option uuid :=
  match o with None | Some JNull => Some uuid_Nil | Some (JUuid u) => Some u | _ => None end.
Definition get_uuid_ptr (o : option Json) : option (option uuid) :=
  match o with None | Some JNull => Some None | Some (JUuid u) => Some (Some u) | _ => None end.
Definition get_str (o : option Json) : option string :=
  match o with None | Some JNull => Some "" | Some (JStr s) => Some s | _ => None end.
Definition get_int (o : option Json) : option Z :=
  match o with None | Some JNull => Some 0 | Some (JInt z) => Some z | _ => None end.
Definition get_time (o : option Json) : option Z :=
  match o with None | Some JNull => Some zero_time | Some (JTime t) => Some t | _ => None end.
Definition get_any (o : option Json) : EventData :=
  match o with None | Some JNull => DNil | Some j => DDecoded (normalize j) end.

Definition BaseEvent_Unmarshal (o : option Json) : option BaseEvent :=
  l ← match o with None | Some JNull => Some [] | Some (JObj l) => Some l | _ => None end;
  id ← get_uuid (field "id" l);
  ty ← get_str (field "type" l);
  src ← get_str (field "source" l);
  ts ← get_time (field "timestamp" l);
  u ← get_uuid_ptr (field "user_id" l);
  org ← get_uuid_ptr (field "organization_id" l);
  ip ← get_str (field "ip_address" l);
  ua ← get_str (field "user_agent" l);
  Some (mkBaseEvent id ty src ts u org ip ua (get_any (field "data" l))).

Definition QueuedEvent_Unmarshal (j : Json) : option QueuedEvent :=
  l ← match j with JObj l => Some l | JNull => Some [] | _ => None end;
  id ← get_uuid (field "id" l);
  ev ← BaseEvent_Unmarshal (field "event" l);
  att ← get_int (field "attempts" l);
  st ← get_int (field "status" l) ≫= status_of;
  cr ← get_time (field "created_at" l);
  la ← get_time (field "last_attempt" l);
  nr ← get_time (field "next_retry" l);
  er ← get_str (field "error" l);
  Some (mkQueued id ev att st cr la nr er).

(** What a reload makes of an event: its payload becomes a map. *)
Definition reloaded_data (d : EventData) : EventData := get_any (data_json d).
Definition reloaded_event (e : BaseEvent) : BaseEvent :=
  mkBaseEvent (be_ID e) (be_Type e) (be_Source e) (be_Timestamp e) (be_UserID e)
    (be_OrganizationID e) (be_IPAddress e) (be_UserAgent e) (reloaded_data (be_Data e)).
Definition reloaded (q : QueuedEvent) : QueuedEvent :=
  mkQueued (qe_ID q) (reloaded_event (qe_Event q)) (qe_Attempts q) (qe_Status q)
    (qe_CreatedAt q) (qe_LastAttempt q) (qe_NextRetry q) (qe_Error q).

(** ** Kafka messages *)

Inductive HeaderValue := HText (s : string) | HTime (t : Z) | HUuid (u : uuid).
Record Message := mkMessage {
  msg_Key : uuid; msg_Value : Json; msg_Headers : list (string * HeaderValue) }.

Definition id_headers (e : BaseEvent) : list (string * HeaderValue) :=
  match be_UserID e with Some u => [("user-id", HUuid u)] | None => [] end ++
  match be_OrganizationID e with Some o => [("organization-id", HUuid o)] | None => [] end.

(** [sendEvent] up to the write, for the attempt being made. *)
Definition event_message (attempt : Z) (e : BaseEvent) : option Message :=
  v ← BaseEvent_Marshal e;
  Some (mkMessage (be_ID e) v
    ([("event-type", HText (be_Type e)); ("source", HText (be_Source e));
      ("timestamp", HTime (be_Timestamp e)); ("attempt", HText (Itoa attempt))]
     ++ id_headers e)).

(** [sendToDeadLetterQueue] up to the write. *)
Definition dead_letter_message (now : Z) (q : QueuedEvent) : option Message :=
  v ← BaseEvent_Marshal (qe_Event q);
  Some (mkMessage (be_ID (qe_Event q))
    (JObj [("failure_info", JObj [("attempts", JInt (qe_Attempts q));
             ("created_at", JTime (qe_CreatedAt q)); ("failed_at", JTime (qe_LastAttempt q));
             ("last_error", JStr (qe_Error q))]);
           ("original_event", v)])
    [("original-event-type", HText (be_Type (qe_Event q)));
     ("failure-reason", HText "max-retries-exceeded"); ("dlq-timestamp", HTime now)]).

(** ** The plain producer (producer.go)

    The typed events embed [BaseEvent] and have a [Data] field of their own,
    which shadows the embedded one.  A call is given the identifier and the
    clock reading it takes, and its result is the message handed to the
    writer or the error. *)

Record TypedEvent (D : Type) := mkTyped { te_BaseEvent : BaseEvent; te_Data : D }.
Arguments mkTyped {D}.
Arguments te_BaseEvent {D}.

Definition marshal_error : error :=
  ErrorWrap "failed to marshal event" (ErrorString "json: unsupported type").

Definition Producer_PublishEvent (event : BaseEvent) : res error Message :=
  match BaseEvent_Marshal event with
  | None => Err marshal_error
  | Some v =>
      Ok (mkMessage (be_ID event) v
        ([("event-type", HText (be_Type event)); ("source", HText (be_Source event));
          ("timestamp", HTime (be_Timestamp event))] ++ id_headers event))
  end.

Section publishers.
Context (id : uuid) (now : Z) (userID orgID : uuid) (ipAddress userAgent : string).

(** The composite literal all the publishers build. *)
Definition envelope (type : string) (data : EventData) : BaseEvent :=
  mkBaseEvent id type "auth-service" now (Some userID) (Some orgID) ipAddress userAgent data.
(** The literal of producer.go leaves the embedded [Data] nil. *)
Definition publish_typed {D} (type : string) (data : D) : res error Message :=
  let event := mkTyped (envelope type DNil) data in
  Producer_PublishEvent (te_BaseEvent event).

Definition Producer_PublishUserRegistered (data : UserRegisteredData) :=
  publish_typed EventTypeUserRegistered data.
Definition Producer_PublishUserLoggedIn (data : UserLoggedInData) :=
  publish_typed EventTypeUserLoggedIn data.
Definition Producer_PublishUserLoggedOut (data : UserLoggedOutData) :=
  publish_typed EventTypeUserLoggedOut data.
Definition Producer_PublishPasswordChanged (data : PasswordChangedData) :=
  publish_typed EventTypePasswordChanged data.
Definition Producer_PublishTokenRefreshed (data : TokenRefreshedData) :=
  publish_typed EventTypeTokenRefreshed data.
Definition Producer_PublishTokenRevoked (data : TokenRevokedData) :=
  publish_typed EventTypeTokenRevoked data.
Definition Producer_PublishRoleAssigned (data : RoleAssignedData) :=
  publish_typed EventTypeRoleAssigned data.
Definition Producer_PublishRoleRevoked (data : RoleRevokedData) :=
  publish_typed EventTypeRoleRevoked data.
Definition Producer_PublishOrganizationCreated (data : OrganizationCreatedData) :=
  publish_typed EventTypeOrganizationCreated data.

(** The events the publishers of enhanced_producer.go enqueue. *)
Definition PublishUserRegistered (data : UserRegisteredData) : BaseEvent :=
  envelope EventTypeUserRegistered (DUserRegistered data).
Definition PublishUserLoggedIn (data : UserLoggedInData) : BaseEvent :=
  envelope EventTypeUserLoggedIn (DUserLoggedIn data).
Definition PublishUserLoggedOut (data : UserLoggedOutData) : BaseEvent :=
  envelope EventTypeUserLoggedOut (DUserLoggedOut data).
Definition PublishPasswordChanged (data : PasswordChangedData) : BaseEvent :=
  envelope EventTypePasswordChanged (DPasswordChanged data).
Definition PublishTokenRefreshed (data : TokenRefreshedData) : BaseEvent :=
  envelope EventTypeTokenRefreshed (DTokenRefreshed data).
Definition PublishTokenRevoked (data : TokenRevokedData) : BaseEvent :=
  envelope EventTypeTokenRevoked (DTokenRevoked data).
Definition PublishRoleAssigned (data : RoleAssignedData) : BaseEvent :=
  envelope EventTypeRoleAssigned (DRoleAssigned data).
Definition PublishRoleRevoked (data : RoleRevokedData) : BaseEvent :=
  envelope EventTypeRoleRevoked (DRoleRevoked data).
Definition PublishOrganizationCreated (data : OrganizationCreatedData) : BaseEvent :=
  envelope EventTypeOrganizationCreated (DOrganizationCreated data).
Definition Publish2FAEnabled (data : TwoFAEnabledData) : BaseEvent :=
  envelope EventType2FAEnabled (DTwoFAEnabled data).
Definition Publish2FADisabled (data : TwoFADisabledData) : BaseEvent :=
  envelope EventType2FADisabled (DTwoFADisabled data).
Definition PublishOrganizationUpdated (data : OrganizationUpdatedData) : BaseEvent :=
  envelope EventTypeOrganizationUpdated (DOrganizationUpdated data).
End publishers.

(** All the publishers of a producer, by payload. *)
Definition EnhancedProducer_Publish (id : uuid) (now : Z) (u o : uuid) (ip ua : string)
    (d : EventData) : option BaseEvent :=
  match d with
  | DUserRegistered d => Some (PublishUserRegistered id now u o ip ua d)
  | DUserLoggedIn d => Some (PublishUserLoggedIn id now u o ip ua d)
  | DUserLoggedOut d => Some (PublishUserLoggedOut id now u o ip ua d)
  | DPasswordChanged d => Some (PublishPasswordChanged id now u o ip ua d)
  | DTokenRefreshed d => Some (PublishTokenRefreshed id now u o ip ua d)
  | DTokenRevoked d => Some (PublishTokenRevoked id now u o ip ua d)
  | DRoleAssigned d => Some (PublishRoleAssigned id now u o ip ua d)
  | DRoleRevoked d => Some (PublishRoleRevoked id now u o ip ua d)
  | DTwoFAEnabled d => Some (Publish2FAEnabled id now u o ip ua d)
  | DTwoFADisabled d => Some (Publish2FADisabled id now u o ip ua d)
  | DOrganizationCreated d => Some (PublishOrganizationCreated id now u o ip ua d)
  | DOrganizationUpdated d => Some (PublishOrganizationUpdated id now u o ip ua d)
  | _ => None
  end.
Definition Producer_Publish (id : uuid) (now : Z) (u o : uuid) (ip ua : string)
    (d : EventData) : option (res error Message) :=
  match d with
  | DUserRegistered d => Some (Producer_PublishUserRegistered id now u o ip ua d)
  | DUserLoggedIn d => Some (Producer_PublishUserLoggedIn id now u o ip ua d)
  | DUserLoggedOut d => Some (Producer_PublishUserLoggedOut id now u o ip ua d)
  | DPasswordChanged d => Some (Producer_PublishPasswordChanged id now u o ip ua d)
  | DTokenRefreshed d => Some (Producer_PublishTokenRefreshed id now u o ip ua d)
  | DTokenRevoked d => Some (Producer_PublishTokenRevoked id now u o ip ua d)
  | DRoleAssigned d => Some (Producer_PublishRoleAssigned id now u o ip ua d)
  | DRoleRevoked d => Some (Producer_PublishRoleRevoked id now u o ip ua d)
  | DOrganizationCreated d => Some (Producer_PublishOrganizationCreated id now u o ip ua d)
  | _ => None
  end.

(** Each payload's event type, as the typed constructors pair them. *)
Definition payload_type (d : EventData) : option string :=
  match d with
  | DUserRegistered _ => Some EventTypeUserRegistered
  | DUserLoggedIn _ => Some EventTypeUserLoggedIn
  | DUserLoggedOut _ => Some EventTypeUserLoggedOut
  | DPasswordChanged _ => Some EventTypePasswordChanged
  | DTokenRefreshed _ => Some EventTypeTokenRefreshed
  | DTokenRevoked _ => Some EventTypeTokenRevoked
  | DRoleAssigned _ => Some EventTypeRoleAssigned
  | DRoleRevoked _ => Some EventTypeRoleRevoked
  | DTwoFAEnabled _ => Some EventType2FAEnabled
  | DTwoFADisabled _ => Some EventType2FADisabled
  | DOrganizationCreated _ => Some EventTypeOrganizationCreated
  | DOrganizationUpdated _ => Some EventTypeOrganizationUpdated
  | _ => None
  end.

(** The payload inside a message. *)
Definition message_data (m : Message) : option Json :=
  match msg_Value m with JObj l => field "data" l | _ => None end.

(** ** The persistent queue (persistent_queue.go)

    A file is its contents as [json.Unmarshal] parses them ([None]: not
    JSON), whether it can be read and removed, and its modification time.
    [dk_writable] is false when [os.WriteFile] fails, [dk_walkable] is false
    when the directory cannot be walked. *)

Record File := mkFile {
  f_isDir : bool; f_data : option Json; f_readable : bool; f_removable : bool; f_ModTime : Z }.
Record Disk := mkDisk {
  dk_files : gmap string File; dk_writable : bool; dk_walkable : bool }.

Section queue.
Context `{UuidLib}.

Definition filename (id : uuid) : string := uuid_String id +:+ ".json".

Definition Enqueue (now : Z) (event : QueuedEvent) : M Disk unit := λ d,
  match QueuedEvent_Marshal event with
  | None => (Err marshal_error, d)
  | Some data =>
      if dk_writable d
      then (Ok tt, mkDisk (<[filename (qe_ID event) := mkFile false (Some data) true true now]>
                             (dk_files d)) (dk_writable d) (dk_walkable d))
      else (Err (ErrorWrap "failed to write event to file" (ErrorString "no space left on device")), d)
  end.

Definition Remove (eventID : uuid) : M Disk unit := λ d,
  match dk_files d !! filename eventID with
  | None => (Ok tt, d)
  | Some f =>
      if f_removable f
      then (Ok tt, mkDisk (delete (filename eventID) (dk_files d)) (dk_writable d) (dk_walkable d))
      else (Err (ErrorWrap "failed to remove event file" (ErrorString "permission denied")), d)
  end.

(** [filepath.WalkDir]: the entries in lexical order of their names. *)
Definition entry_le (a b : string * File) : Prop := String.leb a.1 b.1 = true.
#[export] Instance entry_le_dec a b : Decision (entry_le a b).
Proof. unfold entry_le. apply _. Defined.
Definition WalkDir (d : Disk) : list (string * File) :=
  merge_sort entry_le (map_to_list (dk_files d)).

(** [d.IsDir() || filepath.Ext(path) != ".json"], negated. *)
Definition event_file (e : string * File) : bool :=
  negb (f_isDir e.2) && HasSuffix e.1 ".json".

(** One visit of [GetAll]: an unreadable or unparsable file is skipped. *)
Definition read_event (e : string * File) : option QueuedEvent :=
  if event_file e && f_readable e.2 then f_data e.2 ≫= QueuedEvent_Unmarshal else None.

Definition walk_error : error :=
  ErrorWrap "failed to walk storage directory" (ErrorString "permission denied").

Definition GetAll (d : Disk) : res error (list QueuedEvent) :=
  if dk_walkable d then Ok (omap read_event (WalkDir d)) else Err walk_error.

Definition retryable (now : Z) (q : QueuedEvent) : bool :=
  bool_decide (qe_Status q = EventStatusFailed) && After now (qe_NextRetry q).

Definition GetRetryableEvents (now : Z) (d : Disk) : res error (list QueuedEvent) :=
  match GetAll d with
  | Err e => Err e
  | Ok allEvents => Ok (List.filter (retryable now) allEvents)
  end.

Definition GetCount (d : Disk) : res error Z :=
  if dk_walkable d then Ok (Z.of_nat (length (List.filter event_file (WalkDir d))))
  else Err (ErrorString "permission denied").

(** The visit of [Cleanup] for one entry. *)
Definition cleanup_entry (cutoff : Z) (files : gmap string File) (e : string * File)
    : gmap string File :=
  if event_file e && Before (f_ModTime e.2) cutoff && f_removable e.2
  then delete e.1 files else files.
Definition Cleanup (now maxAge : Z) : M Disk unit := λ d,
  if dk_walkable d
  then (Ok tt, mkDisk (foldl (cleanup_entry (now - maxAge)) (dk_files d) (WalkDir d))
                 (dk_writable d) (dk_walkable d))
  else (Err (ErrorString "permission denied"), d).
End queue.

(** ** Lemmas *)

Lemma key_le_total a b : key_le a b = false → key_le b a = true.
Proof. unfold key_le. destruct (String.leb_total a.1 b.1) as [H|H]; [congruence | done]. Qed.

(** The keys are in order, given the head's predecessor. *)
Fixpoint keys_from (x : option (string * Json)) (l : list (string * Json)) : Prop :=
  match l with
  | [] => True
  | y :: l' => match x with Some x => key_le x y = true | None => True end ∧ keys_from (Some y) l'
  end.

Lemma insert_key_from p x l :
  keys_from p l → match p with Some q => key_le q x = true | None => True end →
  keys_from p (insert_key x l).
Proof.
  revert p. induction l as [|y l IH]; intros p Hl Hp; simpl in *; [done|].
  destruct Hl as [Hy Hl]. destruct (key_le x y) eqn:E; simpl; [done|].
  split; [done|]. apply IH; [done|]. by apply key_le_total.
Qed.

Lemma sort_keys_sorted l : keys_from None (sort_keys l).
Proof. induction l as [|x l IH]; simpl; [done|]. by apply insert_key_from. Qed.

Lemma sort_keys_id x l : keys_from x l → sort_keys l = l.
Proof.
  revert x. induction l as [|y l IH]; intros x Hx; simpl; [done|].
  destruct Hx as [Hy Hl]. rewrite (IH _ Hl). destruct l as [|z l]; simpl in *; [done|]. by destruct Hl as [-> _].
Qed.

Lemma sort_keys_map f l :
  sort_keys (List.map (λ kv, (kv.1, f kv.2)) l) = List.map (λ kv, (kv.1, f kv.2)) (sort_keys l).
Proof.
  induction l as [|[k v] l IH]; simpl; [done|]. rewrite IH.
  generalize (sort_keys l) as m. clear. intros m.
  induction m as [|[k' v'] m IH]; simpl; [done|].
  unfold key_le in *; simpl. destruct (String.leb k k'); simpl; [done|]. by f_equal.
Qed.

Section json_ind.
Variable P : Json → Prop.
Hypothesis Hleaf : ∀ j, (∀ l, j ≠ JArr l) → (∀ l, j ≠ JObj l) → P j.
Hypothesis Harr : ∀ l, Forall P l → P (JArr l).
Hypothesis Hobj : ∀ l, Forall (λ kv, P kv.2) l → P (JObj l).
Fixpoint json_ind (j : Json) : P j :=
  match j with
  | JArr l => Harr l ((fix go (l : list Json) : Forall P l :=
      match l with [] => Forall_nil_2 _ | x :: l' => Forall_cons_2 _ _ _ (json_ind x) (go l') end) l)
  | JObj l => Hobj l ((fix go (l : list (string * Json)) : Forall (λ kv, P kv.2) l :=
      match l with
      | [] => Forall_nil_2 _
      | x :: l' => Forall_cons_2 (λ kv, P kv.2) x l' (json_ind x.2) (go l')
      end) l)
  | j => Hleaf j ltac:(done) ltac:(done)
  end.
End json_ind.

Lemma normalize_idem j : normalize (normalize j) = normalize j.
Proof.
  induction j as [j Ha Ho|l IH|l IH] using json_ind; simpl.
  - destruct j; try done; [by destruct (Ha l) | by destruct (Ho l)].
  - f_equal. induction IH as [|x l Hx _ IHl]; simpl; [done | by f_equal].
  - f_equal. rewrite <- sort_keys_map, (List.map_map _ _ l). simpl.
    rewrite (List.map_ext_in _ (λ kv : string * Json, (kv.1, normalize kv.2))).
    + apply (sort_keys_id None), sort_keys_sorted.
    + intros [k v] Hin. simpl. f_equal. rewrite Forall_forall in IH.
      apply (IH (k, v)). by apply list_elem_of_In.
Qed.

Lemma Unmarshal_Marshal_event e j : BaseEvent_Marshal e = Some j →
  BaseEvent_Unmarshal (Some j) = Some (reloaded_event e).
Proof.
  unfold BaseEvent_Marshal, reloaded_event, reloaded_data.
  destruct (data_json (be_Data e)) as [data|]; [|done]. simpl. intros [= <-].
  destruct e as [id ty src ts [u|] [o|] ip ua dt]; unfold omit_str;
    cbn [be_ID be_Type be_Source be_Timestamp be_UserID be_OrganizationID be_IPAddress
         be_UserAgent be_Data];
    destruct (String.eqb_spec ip ""), (String.eqb_spec ua ""); subst; reflexivity.
Qed.

Lemma status_of_num s : status_of (status_num s) = Some s.
Proof. by destruct s. Qed.

Lemma Unmarshal_Marshal q j : QueuedEvent_Marshal q = Some j →
  QueuedEvent_Unmarshal j = Some (reloaded q).
Proof.
  unfold QueuedEvent_Marshal. destruct (BaseEvent_Marshal (qe_Event q)) as [ev|] eqn:Ev; [|done].
  intros [= <-]. pose proof (Unmarshal_Marshal_event _ _ Ev) as He.
  destruct q as [id e att st cr la nr er]; simpl in *.
  unfold omit_str. destruct (String.eqb_spec er ""); subst; simpl;
    unfold QueuedEvent_Unmarshal; simpl; rewrite He; simpl; by rewrite status_of_num.
Qed.

(** The message of a reloaded event has the same JSON value up to the order
    of the payload's keys. *)
Lemma data_json_reloaded d j : data_json d = Some j →
  ∃ j', data_json (reloaded_data d) = Some j' ∧ normalize j' = normalize j.
Proof.
  unfold reloaded_data. intros ->.
  destruct (decide (j = JNull)) as [->|Hn]; [by exists JNull|].
  exists (normalize j). split; [by destruct j | apply normalize_idem].
Qed.

(** The data field of an encoded event is its encoded payload. *)
Lemma field_data e j : BaseEvent_Marshal e = Some j →
  ∃ l, j = JObj l ∧ field "data" l = data_json (be_Data e).
Proof.
  unfold BaseEvent_Marshal. destruct (data_json (be_Data e)) as [data|]; [|done].
  intros [= <-]. eexists. split; [reflexivity|].
  destruct e as [id ty src ts [u|] [o|] ip ua dt]; unfold omit_str;
    cbn [be_ID be_Type be_Source be_Timestamp be_UserID be_OrganizationID be_IPAddress
         be_UserAgent be_Data];
    by destruct (String.eqb_spec ip ""), (String.eqb_spec ua "").
Qed.

Lemma event_message_some n e data : data_json (be_Data e) = Some data →
  ∃ m, event_message n e = Some m ∧ message_data m = Some data.
Proof.
  intros Hd. unfold event_message. destruct (BaseEvent_Marshal e) as [v|] eqn:Ev.
  - destruct (field_data _ _ Ev) as (l & -> & Hl). eexists. split; [reflexivity|].
    unfold message_data. simpl. congruence.
  - unfold BaseEvent_Marshal in Ev. by rewrite Hd in Ev.
Qed.

Lemma Producer_PublishEvent_some e data : data_json (be_Data e) = Some data →
  ∃ m, Producer_PublishEvent e = Ok m ∧ message_data m = Some data.
Proof.
  intros Hd. unfold Producer_PublishEvent. destruct (BaseEvent_Marshal e) as [v|] eqn:Ev.
  - destruct (field_data _ _ Ev) as (l & -> & Hl). eexists. split; [reflexivity|].
    unfold message_data. simpl. congruence.
  - unfold BaseEvent_Marshal in Ev. by rewrite Hd in Ev.
Qed.

Lemma normalize_obj_ext l l' :
  List.map (λ kv, (kv.1, normalize kv.2)) l = List.map (λ kv, (kv.1, normalize kv.2)) l' →
  normalize (JObj l) = normalize (JObj l').
Proof. simpl. by intros ->. Qed.

Lemma event_message_reloaded n e m : event_message n e = Some m →
  ∃ m', event_message n (reloaded_event e) = Some m' ∧ msg_Key m' = msg_Key m ∧
        msg_Headers m' = msg_Headers m ∧ normalize (msg_Value m') = normalize (msg_Value m).
Proof.
  unfold event_message, BaseEvent_Marshal. destruct (data_json (be_Data e)) as [j|] eqn:Hj; [|done].
  destruct (data_json_reloaded _ _ Hj) as (j' & Hj' & Hn).
  cbn [mbind option_bind reloaded_event be_Data]. rewrite Hj'. cbn [mbind option_bind].
  intros [= <-]. destruct e as [id ty src ts u o ip ua dt]. eexists. split; [reflexivity|].
  split; [done|]. split; [done|]. cbn [msg_Value]. apply normalize_obj_ext.
  rewrite !List.map_app. simpl. by rewrite !List.map_app, Hn.
Qed.

Section queue_lemmas.
Context `{UuidLaws}.

Lemma filename_inj i j : is_uuid i → is_uuid j → filename i = filename j → i = j.
Proof.
  intros Hi Hj Hf. unfold filename in Hf. apply uuid_String_inj; [done..|].
  apply str_app_inj_len in Hf as [Hu _]; [done|]. by rewrite !uuid_String_len.
Qed.

Lemma filename_json i : HasSuffix (filename i) ".json" = true.
Proof. apply HasSuffix_spec. by exists (uuid_String i). Qed.

Lemma elem_of_WalkDir d k f : (k, f) ∈ WalkDir d ↔ dk_files d !! k = Some f.
Proof. unfold WalkDir. by rewrite merge_sort_Permutation, elem_of_map_to_list. Qed.

Lemma elem_of_GetAll d l q : GetAll d = Ok l →
  q ∈ l ↔ ∃ k f, dk_files d !! k = Some f ∧ read_event (k, f) = Some q.
Proof.
  unfold GetAll. case_match; [|done]. intros [= <-]. rewrite list_elem_of_omap.
  split.
  - intros ([k f] & Hin & Hr). apply elem_of_WalkDir in Hin. eauto.
  - intros (k & f & Hk & Hr). exists (k, f). by rewrite elem_of_WalkDir.
Qed.

Lemma WalkDir_single k f w r : WalkDir (mkDisk {[k := f]} w r) = [(k, f)].
Proof. unfold WalkDir. cbn [dk_files]. by rewrite map_to_list_singleton. Qed.

Lemma read_stored i data now :
  read_event (filename i, mkFile false (Some data) true true now) = QueuedEvent_Unmarshal data.
Proof. unfold read_event, event_file. cbn [fst snd f_isDir f_readable f_data]. by rewrite filename_json. Qed.

Lemma Enqueue_ok now q d d' : Enqueue now q d = (Ok tt, d') →
  ∃ data, QueuedEvent_Marshal q = Some data ∧
    d' = mkDisk (<[filename (qe_ID q) := mkFile false (Some data) true true now]> (dk_files d))
           (dk_writable d) (dk_walkable d).
Proof.
  unfold Enqueue. destruct (QueuedEvent_Marshal q) as [data|]; [|done].
  destruct (dk_writable d) eqn:E; [|done]. intros [= <-]. exists data. by rewrite <- E.
Qed.

Lemma GetAll_Enqueue now q d d' l l' : Enqueue now q d = (Ok tt, d') →
  GetAll d = Ok l → GetAll d' = Ok l' →
  reloaded q ∈ l' ∧
  (∀ x, x ∈ l' → x = reloaded q ∨ x ∈ l) ∧
  (∀ k f x, k ≠ filename (qe_ID q) → dk_files d !! k = Some f → read_event (k, f) = Some x → x ∈ l').
Proof.
  intros He Hl Hl'. destruct (Enqueue_ok _ _ _ _ He) as (data & Hm & ->).
  pose proof (Unmarshal_Marshal _ _ Hm) as Hu. split_and!.
  - apply (elem_of_GetAll _ _ _ Hl'). eexists _, _. simpl. split; [apply lookup_insert_eq|].
    by rewrite read_stored.
  - intros x Hx. apply (elem_of_GetAll _ _ _ Hl') in Hx as (k & f & Hk & Hr). simpl in Hk.
    destruct (decide (k = filename (qe_ID q))) as [->|Hne].
    + rewrite lookup_insert_eq in Hk. simplify_eq. left. rewrite read_stored in Hr. congruence.
    + rewrite lookup_insert_ne in Hk by done. right. apply (elem_of_GetAll _ _ _ Hl). eauto.
  - intros k f x Hne Hk Hr. apply (elem_of_GetAll _ _ _ Hl'). eexists _, _. split; [|exact Hr].
    simpl. by rewrite lookup_insert_ne.
Qed.

Lemma Remove_gone i d d' : Remove i d = (Ok tt, d') →
  dk_files d' = delete (filename i) (dk_files d) ∧ dk_writable d' = dk_writable d ∧
  dk_walkable d' = dk_walkable d.
Proof.
  unfold Remove. destruct (dk_files d !! filename i) as [f|] eqn:E.
  - case_match; intros [= <-]; done.
  - intros [= <-]. by rewrite delete_id.
Qed.

(** [Cleanup] drops exactly the removable event files older than the cut. *)
Definition old_event (c : Z) (e : string * File) : bool :=
  event_file e && Before (f_ModTime e.2) c && f_removable e.2.

Lemma cleanup_entry_ne c files k0 f0 k : k ≠ k0 →
  cleanup_entry c files (k0, f0) !! k = files !! k.
Proof. intros Hne. unfold cleanup_entry. case_match; [by rewrite lookup_delete_ne | done]. Qed.

Lemma foldl_cleanup_skip c es files k : k ∉ es.*1 →
  foldl (cleanup_entry c) files es !! k = files !! k.
Proof.
  revert files. induction es as [|[k0 f0] es IH]; intros files Hk; simpl; [done|].
  rewrite fmap_cons, not_elem_of_cons in Hk. destruct Hk as [Hne Hk].
  rewrite (IH _ Hk). by apply cleanup_entry_ne.
Qed.

Lemma foldl_cleanup_lookup c es files k f : NoDup es.*1 → (k, f) ∈ es → files !! k = Some f →
  foldl (cleanup_entry c) files es !! k = if old_event c (k, f) then None else Some f.
Proof.
  revert files. induction es as [|[k0 f0] es IH]; intros files Hnd Hin Hk; simpl; [by inversion Hin|].
  inversion Hnd as [|? ? Hk0 Hnd']; subst. apply elem_of_cons in Hin as [[= -> ->]|Hin].
  - rewrite (foldl_cleanup_skip _ _ _ _ Hk0). unfold cleanup_entry, old_event. simpl.
    destruct (event_file (k0, f0) && _ && _); [apply lookup_delete_eq | done].
  - apply (IH _ Hnd' Hin). rewrite cleanup_entry_ne; [done|]. intros ->.
    apply Hk0, list_elem_of_fmap. by exists (k0, f).
Qed.

Lemma Cleanup_lookup now maxAge d d' k : Cleanup now maxAge d = (Ok tt, d') →
  dk_files d' !! k = match dk_files d !! k with
                     | Some f => if old_event (now - maxAge) (k, f) then None else Some f
                     | None => None
                     end.
Proof.
  unfold Cleanup. destruct (dk_walkable d); [|done]. intros [= <-]. simpl.
  destruct (dk_files d !! k) as [f|] eqn:Hk.
  - apply foldl_cleanup_lookup; [|by apply elem_of_WalkDir | done].
    unfold WalkDir. rewrite merge_sort_Permutation. apply NoDup_fst_map_to_list.
  - rewrite foldl_cleanup_skip; [done|]. rewrite list_elem_of_fmap.
    intros ([k' f] & -> & Hin). apply elem_of_WalkDir in Hin. simpl in *. congruence.
Qed.
End queue_lemmas.

(** ** Properties *)


(** After [Remove] succeeded the event's file is gone, so no reader finds
    it, and exactly the other files remain; after [Cleanup] succeeded exactly
    the removable event files last written before [now - maxAge] are gone. *)
Theorem queue_removal `{UuidLaws} i now maxAge d d1 d2 :
  Remove i d = (Ok tt, d1) → Cleanup now maxAge d = (Ok tt, d2) →
  (∀ k, dk_files d1 !! k = if bool_decide (k = filename i) then None else dk_files d !! k) ∧
  (∀ k f, dk_files d2 !! k = Some f ↔
     dk_files d !! k = Some f ∧ old_event (now - maxAge) (k, f) = false).
Proof.
  intros Hr Hc. split.
  - intros k. destruct (Remove_gone _ _ _ Hr) as (-> & _).
    case_bool_decide as Hk; [subst; apply lookup_delete_eq | by rewrite lookup_delete_ne].
  - intros k f. rewrite (Cleanup_lookup _ _ _ _ _ Hc).
    destruct (dk_files d !! k) as [g|]; [|by split; [|intros [? _]]].
    destruct (old_event _ (k, g)) eqn:E; split; try done.
    + intros [Hg E']. congruence.
    + intros Hg. split; congruence.
    + by intros [Hg _].
Qed.

(** Every publisher of the enhanced producer builds a well-typed event:
    its type is the one of its payload, its source is this service, both
    identifiers are present, and it can be encoded, with the payload it was
    given under the data field. *)
Theorem enhanced_events_well_typed id now u o ip ua d e n :
  EnhancedProducer_Publish id now u o ip ua d = Some e →
  payload_type (be_Data e) = Some (be_Type e) ∧ be_Source e = "auth-service" ∧
  be_UserID e = Some u ∧ be_OrganizationID e = Some o ∧
  ∃ m, event_message n e = Some m ∧ message_data m = data_json d ∧ message_data m ≠ Some JNull.
Proof.
  intros He. assert (∃ j, data_json d = Some j ∧ j ≠ JNull ∧ data_json (be_Data e) = Some j ∧
    payload_type (be_Data e) = Some (be_Type e) ∧ be_Source e = "auth-service" ∧
    be_UserID e = Some u ∧ be_OrganizationID e = Some o)
    as (j & Hj & Hn & Hd & Ht & Hs & Hu & Ho).
  { destruct d; simpl in He; try done; injection He as <-; eexists; by split_and!. }
  destruct (event_message_some n e _ Hd) as (m & Hm & Hmd).
  split_and!; try done. exists m. split_and!; congruence.
Qed.

(** The plain producer, the one the servers use, publishes none of its
    payloads: whatever data a publisher is given, the message says the data is
    null. *)
Theorem Producer_drops_payload id now u o ip ua d r :
  Producer_Publish id now u o ip ua d = Some r →
  ∃ m, r = Ok m ∧ message_data m = Some JNull.
Proof.
  destruct d; simpl; try done; intros [= <-]; by apply Producer_PublishEvent_some.
Qed.

(** ** Witnesses *)
#[local] Existing Instances ref_uuid ref_uuid_laws.

Definition login_data : UserLoggedInData := mkUserLoggedIn 7 "a@b.c" 3 "password".
Definition login_event : BaseEvent := PublishUserLoggedIn 11 5 7 3 "" "curl" login_data.
Definition queued_login : QueuedEvent :=
  mkQueued 12 login_event 1 EventStatusFailed 5 6 1000000006 "broker down".
Definition empty_disk : Disk := mkDisk ∅ true true.


Definition login_disk : Disk := (Enqueue 9 queued_login empty_disk).2.

Example queue_removal_witness :
  dk_files (Remove 12 login_disk).2 !! filename 12 = None ∧
  (∃ f, dk_files (Cleanup 10 3 login_disk).2 !! filename 12 = Some f).
Proof.
  destruct (queue_removal 12 10 3 login_disk (Remove 12 login_disk).2
    (Cleanup 10 3 login_disk).2) as [Hr Hc].
  - vm_compute. reflexivity.
  - vm_compute. reflexivity.
  - split; [apply Hr|]. eexists. apply Hc. split; vm_compute; reflexivity.
Defined.

Example enhanced_events_well_typed_witness : payload_type (be_Data login_event) = Some "user.logged_in".
Proof.
  by apply (enhanced_events_well_typed 11 5 7 3 "" "curl" (DUserLoggedIn login_data) login_event 1).
Defined.

Example Producer_drops_payload_witness :
  ∃ m, Producer_PublishUserLoggedIn 11 5 7 3 "" "curl" login_data = Ok m ∧
       message_data m = Some JNull.
Proof.
  by apply (Producer_drops_payload 11 5 7 3 "" "curl" (DUserLoggedIn login_data)).
Defined.
