(* ===== verification/EventProducer.v ===== *)
(** * The enhanced producer (src/internal/events/enhanced_producer.go)

    An event semantics: an event is one atomic action of a caller or of one
    of the producer's goroutines ([processLocalQueue],
    [processDeadLetterQueue], [retryFailedEvents], [loadPersistedEvents]).
    [pstep] says whether an event is enabled and what it does.  A [select]
    with several ready cases may take any of them, so the case taken is part
    of the event, and so is the outcome of a write to Kafka.  A counter and
    the channel operation next to it are one action.  A panic in a goroutine
    ends the process: nothing is enabled afterwards. *)

From S2P Require Import Prelude Errors Models Events.

#[local] Open Scope Z_scope.

(** [config.KafkaConfig], the fields the producer reads. *)
Record KafkaConfig := mkKafkaConfig {
  kc_RetryAttempts : Z; kc_RetryBackoffMs : Z; kc_ConnectionPoolSize : nat;
  kc_LocalQueueSize : nat; kc_EnableLocalPersistence : bool }.

Record ProducerMetrics := mkProducerMetrics {
  EventsPublished : Z; EventsFailed : Z; EventsRetried : Z; EventsDeadLettered : Z;
  QueueSize : Z; AvgLatency : Z }.

(** The goroutines.  [processLocalQueue] is sending an event or waiting; a
    scanning goroutine is about to list the directory, or has the rest of its list and, between a push and the
    removal of the file, the identifier to remove. *)
Inductive Sender := SNone | SIdle | SSending (q : QueuedEvent) | SExited.
Inductive Scanner := NotRunning | Listing | Scanning (l : list QueuedEvent) (removing : option uuid).
Inductive Simple := Off | On | Done.

Record EnhancedProducer := mkProducer {
  ep_config : KafkaConfig;
  ep_isRunning : bool;
  ep_stopping : bool;               (* inside [Stop], waiting for the goroutines *)
  ep_cancelled : bool;
  ep_localQueue : list QueuedEvent;
  ep_disk : option Disk;            (* [persistentQueue], nil without persistence *)
  ep_deadLetterQueue : list QueuedEvent;
  ep_sender : Sender;
  ep_dlq : Simple;                  (* [processDeadLetterQueue] *)
  ep_retry : Simple;                (* [retryFailedEvents] *)
  ep_retrying : Scanner;            (* its current scan *)
  ep_loaders : list Scanner;        (* one [loadPersistedEvents] per start *)
  ep_metrics : ProducerMetrics;
  ep_sent : list Message;           (* history: messages Kafka took *)
  ep_deadLetters : list Message;    (* history: messages the dead-letter topic took *)
  ep_crashed : bool }.

(** Field updates. *)
Definition upd_queue (f : list QueuedEvent → list QueuedEvent) (s : EnhancedProducer) :=
  let '(mkProducer c r st ca q d dl sn dg rt rs lo m se de cr) := s in
  mkProducer c r st ca (f q) d dl sn dg rt rs lo m se de cr.
Definition upd_disk (d : option Disk) (s : EnhancedProducer) :=
  let '(mkProducer c r st ca q _ dl sn dg rt rs lo m se de cr) := s in
  mkProducer c r st ca q d dl sn dg rt rs lo m se de cr.
Definition upd_dlq (f : list QueuedEvent → list QueuedEvent) (s : EnhancedProducer) :=
  let '(mkProducer c r st ca q d dl sn dg rt rs lo m se de cr) := s in
  mkProducer c r st ca q d (f dl) sn dg rt rs lo m se de cr.
Definition upd_sender (sn : Sender) (s : EnhancedProducer) :=
  let '(mkProducer c r st ca q d dl _ dg rt rs lo m se de cr) := s in
  mkProducer c r st ca q d dl sn dg rt rs lo m se de cr.
Definition upd_retrying (rs : Scanner) (s : EnhancedProducer) :=
  let '(mkProducer c r st ca q d dl sn dg rt _ lo m se de cr) := s in
  mkProducer c r st ca q d dl sn dg rt rs lo m se de cr.
Definition upd_loaders (lo : list Scanner) (s : EnhancedProducer) :=
  let '(mkProducer c r st ca q d dl sn dg rt rs _ m se de cr) := s in
  mkProducer c r st ca q d dl sn dg rt rs lo m se de cr.
Definition upd_metrics (f : ProducerMetrics → ProducerMetrics) (s : EnhancedProducer) :=
  let '(mkProducer c r st ca q d dl sn dg rt rs lo m se de cr) := s in
  mkProducer c r st ca q d dl sn dg rt rs lo (f m) se de cr.
Definition upd_sent (f : list Message → list Message) (s : EnhancedProducer) :=
  let '(mkProducer c r st ca q d dl sn dg rt rs lo m se de cr) := s in
  mkProducer c r st ca q d dl sn dg rt rs lo m (f se) de cr.
Definition crash (s : EnhancedProducer) :=
  let '(mkProducer c r st ca q d dl sn dg rt rs lo m se de _) := s in
  mkProducer c r st ca q d dl sn dg rt rs lo m se de true.

Definition count_queue (n : Z) (m : ProducerMetrics) : ProducerMetrics :=
  let '(mkProducerMetrics p f r d q l) := m in mkProducerMetrics p f r d (wrap64 (q + n)) l.
Definition count_retried (m : ProducerMetrics) : ProducerMetrics :=
  let '(mkProducerMetrics p f r d q l) := m in mkProducerMetrics p f (wrap64 (r + 1)) d q l.
Definition count_failed (m : ProducerMetrics) : ProducerMetrics :=
  let '(mkProducerMetrics p f r d q l) := m in mkProducerMetrics p (wrap64 (f + 1)) r d q l.
Definition count_dead (m : ProducerMetrics) : ProducerMetrics :=
  let '(mkProducerMetrics p f r d q l) := m in mkProducerMetrics p f r (wrap64 (d + 1)) q l.
Definition count_published (latency : Z) (m : ProducerMetrics) : ProducerMetrics :=
  let '(mkProducerMetrics p f r d q l) := m in
  mkProducerMetrics (wrap64 (p + 1)) f r d q (Z.quot (wrap64 (l + latency)) 2).

(** [NewEnhancedProducer]; [disk] is the storage directory it opens. *)
Definition NewEnhancedProducer (config : KafkaConfig) (disk : Disk) : EnhancedProducer :=
  mkProducer config false false false []
    (if kc_EnableLocalPersistence config then Some disk else None) []
    SNone Off Off NotRunning [] (mkProducerMetrics 0 0 0 0 0 0) [] [] false.

(** A send on a buffered channel that is not full. *)
Definition queue_room (s : EnhancedProducer) : bool :=
  (length (ep_localQueue s) <? kc_LocalQueueSize (ep_config s))%nat.
Definition dlq_capacity : nat := 1000.
Definition push (q : QueuedEvent) (s : EnhancedProducer) : EnhancedProducer :=
  upd_metrics (count_queue 1) (upd_queue (λ l, l ++ [q]) s).

Section producer.
Context `{UuidLib}.

Definition Start (s : EnhancedProducer) : option (res error unit * EnhancedProducer) :=
  if ep_stopping s then None
  else if ep_isRunning s then Some (Err (ErrorString "producer is already running"), s)
  else
    let '(mkProducer c _ st ca q d dl _ _ _ _ lo m se de cr) := s in
    Some (Ok tt,
          mkProducer c true st ca q d dl SIdle On
            (match d with Some _ => On | None => Done end) NotRunning
            (lo ++ match d with Some _ => [Listing] | None => [] end) m se de cr).

(** [Stop] up to [p.wg.Wait()], and after it. *)
Definition Stop_cancel (s : EnhancedProducer) : option EnhancedProducer :=
  if ep_stopping s then None
  else if negb (ep_isRunning s) then Some s
  else
    let '(mkProducer c r _ _ q d dl sn dg rt rs lo m se de cr) := s in
    Some (mkProducer c r true true q d dl sn dg rt rs lo m se de cr).
Definition goroutines_done (s : EnhancedProducer) : bool :=
  match ep_sender s, ep_dlq s, ep_retry s with SExited, Done, Done => true | _, _, _ => false end.
Definition Stop_done (s : EnhancedProducer) : option EnhancedProducer :=
  if negb (ep_stopping s) || negb (goroutines_done s) then None
  else
    let '(mkProducer c _ _ ca q d dl sn dg rt rs lo m se de cr) := s in
    Some (mkProducer c false false ca q d dl sn dg rt rs lo m se de cr).

(** [PublishEvent]: the case its [select] took. *)
Inductive publish_case := ToQueue | CallerDone (e : error) | QueueFull.
Definition PublishEvent (c : publish_case) (id : uuid) (now : Z) (event : BaseEvent)
    (s : EnhancedProducer) : option (res error unit * EnhancedProducer) :=
  if negb (ep_isRunning s) then Some (Err (ErrorString "producer is not running"), s)
  else
    let queuedEvent := mkQueued id event 0 EventStatusPending now zero_time zero_time "" in
    match c with
    | ToQueue => if queue_room s then Some (Ok tt, push queuedEvent s) else None
    | CallerDone e => Some (Err e, s)
    | QueueFull =>
        if queue_room s then None
        else match ep_disk s with
             | Some d => let (r, d') := Enqueue now queuedEvent d in
                         Some (r, upd_disk (Some d') s)
             | None =>
                 Some (Err (ErrorString "local queue is full and persistence is disabled"), s)
             end
    end.

(** [processLocalQueue]: the receive case, up to the call of [sendEvent]. *)
Definition take (s : EnhancedProducer) : option EnhancedProducer :=
  match ep_sender s, ep_localQueue s with
  | SIdle, q :: _ => Some (upd_sender (SSending q) (upd_metrics (count_queue (-1)) (upd_queue (tl) s)))
  | _, _ => None
  end.

(** How a send went: the context was done before a writer was free, or the
    write returned. *)
Inductive send_outcome := CtxDone | Written (latency : Z) | WriteFailed (e : error).

Definition sent_once (now : Z) (status : EventStatus) (q : QueuedEvent) : QueuedEvent :=
  mkQueued (qe_ID q) (qe_Event q) (wrap64 (qe_Attempts q + 1)) status (qe_CreatedAt q) now
    (qe_NextRetry q) (qe_Error q).

(** [sendEvent]: its result, the event it leaves, and the message that was
    written; [None] when this outcome cannot happen. *)
Definition sendEvent (cancelled : bool) (pool : nat) (o : send_outcome) (now : Z) (q : QueuedEvent)
    : option (res error unit * QueuedEvent * option Message) :=
  match o with
  | CtxDone => if cancelled then Some (Err (ErrorString "context canceled"), q, None) else None
  | _ =>
      if (pool =? 0)%nat then None
      else match event_message (qe_Attempts q + 1) (qe_Event q) with
           | None => Some (Err marshal_error, q, None)
           | Some m =>
               match o with
               | WriteFailed e =>
                   Some (Err (ErrorWrap "failed to write message to Kafka" e),
                         sent_once now EventStatusProcessing q, None)
               | _ => Some (Ok tt, sent_once now EventStatusSent q, Some m)
               end
           end
  end.

(** [p.config.RetryBackoffMs * (1 << (Attempts - 1))] milliseconds, on
    64-bit integers; a negative shift count panics ([None]). *)
Definition backoff (base attempts : Z) : option Z :=
  if (attempts - 1 <? 0)%Z then None
  else Some (wrap64 (wrap64 (base * wrap64 (Z.shiftl 1 (attempts - 1))) * Millisecond)).

Definition failed (err : error) (status : EventStatus) (nextRetry : Z) (q : QueuedEvent)
    : QueuedEvent :=
  mkQueued (qe_ID q) (qe_Event q) (qe_Attempts q) status (qe_CreatedAt q) (qe_LastAttempt q)
    nextRetry (Error err).

Definition handleFailedEvent (now : Z) (err : error) (q : QueuedEvent) (s : EnhancedProducer)
    : EnhancedProducer :=
  if (qe_Attempts q <? kc_RetryAttempts (ep_config s))%Z then
    match backoff (kc_RetryBackoffMs (ep_config s)) (qe_Attempts q) with
    | None => crash s
    | Some wait =>
        let q' := failed err EventStatusFailed (now + wait) q in
        let s' := match ep_disk s with
                  | Some d => upd_disk (Some (Enqueue now q' d).2) s
                  | None => s
                  end in
        upd_metrics count_retried s'
    end
  else
    let q' := failed err EventStatusDeadLetter (qe_NextRetry q) q in
    let s' := if (length (ep_deadLetterQueue s) <? dlq_capacity)%nat
              then upd_dlq (λ l, l ++ [q']) s else s in
    upd_metrics count_failed s'.

(** The rest of the receive case of [processLocalQueue]. *)
Definition send (o : send_outcome) (now : Z) (s : EnhancedProducer) : option EnhancedProducer :=
  match ep_sender s with
  | SSending q =>
      match sendEvent (ep_cancelled s) (kc_ConnectionPoolSize (ep_config s)) o now q with
      | None => None
      | Some (Ok _, _, m) =>
          let latency := match o with Written l => l | _ => 0 end in
          Some (upd_sender SIdle (upd_metrics (count_published latency)
                  (upd_sent (λ l, l ++ option_list m) s)))
      | Some (Err e, q', _) => Some (handleFailedEvent now e q' (upd_sender SIdle s))
      end
  | _ => None
  end.

(** [processDeadLetterQueue]: one event, written or not. *)
Definition dead_letter (ok : bool) (now : Z) (s : EnhancedProducer) : option EnhancedProducer :=
  match ep_dlq s, ep_deadLetterQueue s with
  | On, q :: rest =>
      let '(mkProducer c r st ca lq d _ sn dg rt rs lo m se de cr) := s in
      match dead_letter_message now q with
      | Some msg =>
          if ok then Some (mkProducer c r st ca lq d rest sn dg rt rs lo (count_dead m) se (de ++ [msg]) cr)
          else Some (mkProducer c r st ca lq d rest sn dg rt rs lo m se de cr)
      | None => Some (mkProducer c r st ca lq d rest sn dg rt rs lo m se de cr)
      end
  | _, _ => None
  end.

(** [retryFailedEvents]: a tick, then one listed event at a time; the push
    and the removal of its file are two actions. *)
Definition retry_scan (now : Z) (s : EnhancedProducer) : option EnhancedProducer :=
  match ep_retry s, ep_retrying s, ep_disk s with
  | On, NotRunning, Some d =>
      match GetRetryableEvents now d with
      | Ok events => Some (upd_retrying (Scanning events None) s)
      | Err _ => Some s
      end
  | _, _, _ => None
  end.
(** One listed event: pushed, or left in storage when the queue is full or
    it is not due. *)
Definition scan_next (due : QueuedEvent → bool) (l : list QueuedEvent) (s : EnhancedProducer)
    : Scanner * EnhancedProducer :=
  match l with
  | [] => (NotRunning, s)
  | event :: rest =>
      if due event && queue_room s then (Scanning rest (Some (qe_ID event)), push event s)
      else (Scanning rest None, s)
  end.
Definition remove_scanned (id : uuid) (s : EnhancedProducer) : EnhancedProducer :=
  match ep_disk s with Some d => upd_disk (Some (Remove id d).2) s | None => s end.
Definition retry_next (now : Z) (s : EnhancedProducer) : option EnhancedProducer :=
  match ep_retrying s with
  | Scanning l None =>
      let (sc, s') := scan_next (λ q, After now (qe_NextRetry q)) l s in Some (upd_retrying sc s')
  | Scanning l (Some id) => Some (upd_retrying (Scanning l None) (remove_scanned id s))
  | _ => None
  end.

(** [loadPersistedEvents], the [i]-th one; it may give up once the context is
    done. *)
Definition load_next (i : nat) (abandon : bool) (s : EnhancedProducer) : option EnhancedProducer :=
  match ep_loaders s !! i, ep_disk s with
  | Some Listing, Some d =>
      let sc := match GetAll d with Ok events => Scanning events None | Err _ => NotRunning end in
      Some (upd_loaders (<[i := sc]> (ep_loaders s)) s)
  | Some (Scanning l None), _ =>
      if abandon then
        if ep_cancelled s then Some (upd_loaders (<[i := NotRunning]> (ep_loaders s)) s) else None
      else
        let (sc, s') := scan_next (λ _, true) l s in
        Some (upd_loaders (<[i := sc]> (ep_loaders s)) s')
  | Some (Scanning l (Some id)), _ =>
      Some (upd_loaders (<[i := Scanning l None]> (ep_loaders s)) (remove_scanned id s))
  | _, _ => None
  end.

(** A goroutine takes the [p.ctx.Done()] case of its loop. *)
Inductive goroutine := GSender | GDeadLetter | GRetry.
Definition exit (g : goroutine) (s : EnhancedProducer) : option EnhancedProducer :=
  if negb (ep_cancelled s) then None
  else
    let '(mkProducer c r st ca q d dl sn dg rt rs lo m se de cr) := s in
    match g with
    | GSender => match sn with
                 | SIdle => Some (mkProducer c r st ca q d dl SExited dg rt rs lo m se de cr)
                 | _ => None end
    | GDeadLetter => match dg with
                     | On => Some (mkProducer c r st ca q d dl sn Done rt rs lo m se de cr)
                     | _ => None end
    | GRetry => match rt, rs with
                | On, NotRunning => Some (mkProducer c r st ca q d dl sn dg Done rs lo m se de cr)
                | _, _ => None end
    end.

Inductive event :=
| EvStart | EvStop | EvStopped
| EvPublish (c : publish_case) (id : uuid) (now : Z) (e : BaseEvent)
| EvTake | EvSend (o : send_outcome) (now : Z)
| EvDeadLetter (ok : bool) (now : Z)
| EvRetryScan (now : Z) | EvRetryNext (now : Z)
| EvLoadNext (i : nat) (abandon : bool)
| EvExit (g : goroutine).

Definition pstep (e : event) (s : EnhancedProducer) : option EnhancedProducer :=
  if ep_crashed s then None
  else match e with
  | EvStart => snd <$> Start s
  | EvStop => Stop_cancel s
  | EvStopped => Stop_done s
  | EvPublish c id now e => snd <$> PublishEvent c id now e s
  | EvTake => take s
  | EvSend o now => send o now s
  | EvDeadLetter ok now => dead_letter ok now s
  | EvRetryScan now => retry_scan now s
  | EvRetryNext now => retry_next now s
  | EvLoadNext i g => load_next i g s
  | EvExit g => exit g s
  end.

Fixpoint prun (es : list event) (s : EnhancedProducer) : option EnhancedProducer :=
  match es with [] => Some s | e :: es' => pstep e s ≫= prun es' end.
Definition producer_step (s s' : EnhancedProducer) : Prop := ∃ e, pstep e s = Some s'.

(** [IsHealthy]. *)
Definition IsHealthy (s : EnhancedProducer) : bool := ep_isRunning s.
Definition GetMetrics (s : EnhancedProducer) : ProducerMetrics := ep_metrics s.
End producer.

(** ** The invariant *)

Section invariant.
Context `{Uu : UuidLib} (config : KafkaConfig).

#[local] Abbreviation R := (kc_RetryAttempts config).

(** An event that may still be sent, and one that was given up. *)
Definition live (q : QueuedEvent) : Prop := 0 ≤ qe_Attempts q ∧ (qe_Attempts q = 0 ∨ qe_Attempts q < R).
Definition dead (q : QueuedEvent) : Prop := 0 ≤ qe_Attempts q ≤ Z.max 1 R.

Definition disk_ok (d : Disk) : Prop :=
  map_Forall (λ _ f, ∀ q, f_data f ≫= QueuedEvent_Unmarshal = Some q → live q) (dk_files d).
Definition scanner_ok (sc : Scanner) : Prop :=
  match sc with Scanning l _ => Forall live l | _ => True end.

(** The message of some attempt within the bound. *)
Definition bounded_message (m : Message) : Prop :=
  ∃ n e, 1 ≤ n ≤ Z.max 1 R ∧ event_message n e = Some m.

Record producer_ok (s : EnhancedProducer) : Prop := {
  po_config : ep_config s = config;
  po_queue_len : (length (ep_localQueue s) <= kc_LocalQueueSize config)%nat;
  po_dlq_len : (length (ep_deadLetterQueue s) <= dlq_capacity)%nat;
  po_size : QueueSize (ep_metrics s) = wrap64 (Z.of_nat (length (ep_localQueue s)));
  po_queue : Forall live (ep_localQueue s);
  po_dlq : Forall dead (ep_deadLetterQueue s);
  po_disk : ∀ d, ep_disk s = Some d → disk_ok d;
  po_sender : ∀ q, ep_sender s = SSending q → live q;
  po_retrying : scanner_ok (ep_retrying s);
  po_loaders : Forall scanner_ok (ep_loaders s);
  po_sent : Forall bounded_message (ep_sent s) }.

Hypothesis HR : R ≤ max_int.

Lemma live_sent now st q : live q →
  1 ≤ qe_Attempts (sent_once now st q) ≤ Z.max 1 R ∧ qe_Attempts (sent_once now st q) = qe_Attempts q + 1.
Proof.
  intros [H0 H1]. simpl. rewrite wrap64_small; [lia|]. unfold max_int, min_int in *. lia.
Qed.

Lemma disk_ok_Enqueue now q d : disk_ok d → live q → disk_ok (Enqueue now q d).2.
Proof.
  intros Hd Hq. destruct (Enqueue now q d) as [r d'] eqn:He. simpl. unfold Enqueue in He.
  destruct (QueuedEvent_Marshal q) as [data|] eqn:Hm; [|by injection He as _ <-].
  destruct (dk_writable d); injection He as _ <-; [|done].
  apply map_Forall_insert_2; [|done]. simpl. intros q' Hq'.
  rewrite (Unmarshal_Marshal _ _ Hm) in Hq'. injection Hq' as <-. exact Hq.
Qed.

Lemma disk_ok_Remove i d : disk_ok d → disk_ok (Remove i d).2.
Proof.
  intros Hd. unfold Remove. destruct (dk_files d !! filename i) as [f|]; [|done].
  destruct (f_removable f); [|done]. by apply map_Forall_delete.
Qed.

Lemma disk_ok_read k f d q : disk_ok d → dk_files d !! k = Some f → read_event (k, f) = Some q → live q.
Proof.
  intros Hd Hk Hr. unfold read_event in Hr. simpl in Hr. destruct (event_file _ && _); [|done].
  by apply (Hd k f Hk).
Qed.

Lemma disk_ok_GetAll d l : disk_ok d → GetAll d = Ok l → Forall live l.
Proof.
  intros Hd Hl. unfold GetAll in Hl. destruct (dk_walkable d); [|done]. injection Hl as <-.
  apply Forall_forall. intros q Hq. apply list_elem_of_omap in Hq as ([k f] & Hin & Hr).
  apply elem_of_WalkDir in Hin. by eapply disk_ok_read.
Qed.

Lemma disk_ok_retryable now d l : disk_ok d → GetRetryableEvents now d = Ok l → Forall live l.
Proof.
  intros Hd. unfold GetRetryableEvents. destruct (GetAll d) as [l0|] eqn:Hl; [|done]. intros [= <-].
  pose proof (disk_ok_GetAll _ _ Hd Hl) as Hf. rewrite !Forall_forall in *.
  intros q Hq. apply list_elem_of_In, filter_In in Hq as [Hq _]. by apply Hf, list_elem_of_In.
Qed.

Lemma push_ok q s : producer_ok s → live q → queue_room s = true → producer_ok (push q s).
Proof.
  intros Hok Hq Hr. destruct Hok. destruct s as [c r st ca lq d dl sn dg rt rs lo [] se dm cr].
  unfold queue_room in Hr. simpl in *. apply Nat.ltb_lt in Hr.
  split; simpl; try done.
  - rewrite length_app. simpl. subst c. lia.
  - rewrite length_app, po_size0, wrap64_add. f_equal. simpl. lia.
  - by apply Forall_app_2; [|constructor].
Qed.

Lemma scan_next_ok due l s sc s' : scan_next due l s = (sc, s') → Forall live l →
  producer_ok s → scanner_ok sc ∧ producer_ok s'.
Proof.
  unfold scan_next. destruct l as [|e l]; [by intros [= <- <-] _ Hok|]. intros H Hl Hok.
  apply Forall_cons in Hl as [He Hl].
  destruct (due e && queue_room s) eqn:E; injection H as <- <-; (split; [done|]); [|done].
  apply andb_true_iff in E as [_ Hr]. by apply push_ok.
Qed.

Lemma upd_disk_ok d s : producer_ok s → (∀ d0, d = Some d0 → disk_ok d0) → producer_ok (upd_disk d s).
Proof. intros [] Hd. destruct s. split; done. Qed.
Lemma upd_retrying_ok sc s : producer_ok s → scanner_ok sc → producer_ok (upd_retrying sc s).
Proof. intros [] Hd. destruct s. split; done. Qed.
Lemma upd_loaders_ok i sc s : producer_ok s → scanner_ok sc →
  producer_ok (upd_loaders (<[i := sc]> (ep_loaders s)) s).
Proof. intros [] Hd. destruct s. split; simpl in *; try done. by apply Forall_insert. Qed.
Lemma upd_sender_idle s : producer_ok s → producer_ok (upd_sender SIdle s).
Proof. intros []. destruct s. split; done. Qed.
Lemma upd_metrics_ok f s : producer_ok s →
  QueueSize (f (ep_metrics s)) = QueueSize (ep_metrics s) → producer_ok (upd_metrics f s).
Proof. intros [] Hf. destruct s. split; simpl in *; done || congruence. Qed.

Lemma remove_scanned_ok id s : producer_ok s → producer_ok (remove_scanned id s).
Proof.
  intros Hok. unfold remove_scanned. destruct (ep_disk s) as [d|] eqn:Ed; [|done].
  apply upd_disk_ok; [done|]. intros d0 [= <-]. by apply disk_ok_Remove, (po_disk s Hok).
Qed.

Lemma handleFailedEvent_ok now err q s : producer_ok s →
  (0 ≤ qe_Attempts q ≤ Z.max 1 R) → producer_ok (handleFailedEvent now err q s).
Proof.
  intros Hok Hq. unfold handleFailedEvent. rewrite (po_config s Hok).
  destruct (Z.ltb_spec (qe_Attempts q) (kc_RetryAttempts config)) as [Hlt|Hge].
  - destruct (backoff _ _) as [wait|].
    + apply upd_metrics_ok.
      * destruct (ep_disk s) as [d|] eqn:Ed; [|done]. apply upd_disk_ok; [done|].
        intros d0 [= <-]. apply disk_ok_Enqueue; [by apply (po_disk s Hok)|].
        split; simpl; [lia|]. right. exact Hlt.
      * by destruct (ep_metrics _).
    + destruct Hok. destruct s. by split.
  - apply upd_metrics_ok; [|by destruct (ep_metrics _)].
    destruct (Nat.ltb_spec (length (ep_deadLetterQueue s)) dlq_capacity) as [Hl|]; [|done].
    destruct Hok. destruct s. split; simpl in *; try done.
    + rewrite length_app. simpl. lia.
    + apply Forall_app_2; [done|]. by constructor.
Qed.

Lemma producer_send_ok o now s s' : send o now s = Some s' → producer_ok s → producer_ok s'.
Proof.
  unfold send. intros H Hok. destruct (ep_sender s) as [| |q|] eqn:Es; try done.
  pose proof (po_sender s Hok q Es) as Hq. pose proof (live_sent now EventStatusProcessing q Hq) as [Hb Ha].
  destruct (sendEvent _ _ o now q) as [[[[[]|e] q'] m]|] eqn:Ev; [..|done]; injection H as <-.
  - apply upd_sender_idle, upd_metrics_ok; [|by destruct (ep_metrics _)].
    assert (Forall bounded_message (option_list m)) as Hm.
    { destruct m as [m|]; [|by constructor]. apply Forall_singleton.
      unfold sendEvent in Ev. destruct o; simpl in Ev; repeat case_match; simplify_eq.
      exists (qe_Attempts q + 1), (qe_Event q). simpl in *. rewrite Ha in Hb. split; [lia | done]. }
    destruct Hok. destruct s. split; simpl in *; try done. by apply Forall_app_2.
  - apply handleFailedEvent_ok; [by apply upd_sender_idle|].
    destruct Hq as [Hq0 Hq1]. unfold sendEvent in Ev. destruct o; simpl in Ev;
      repeat case_match; simplify_eq; simpl in *; lia.
Qed.

Lemma take_ok s s' : take s = Some s' → producer_ok s → producer_ok s'.
Proof.
  unfold take. intros H [].
  destruct s as [c r st ca q d dl sn dg rt rs lo [] se dm cr]; simpl in *.
  destruct sn; try done. destruct q as [|e q]; [done|]. injection H as <-.
  apply Forall_cons in po_queue0 as [He Hq]. split; simpl in *; try done.
  - lia.
  - rewrite po_size0, wrap64_add. f_equal. lia.
  - by intros ? [= <-].
Qed.

Lemma PublishEvent_ok c id now e s r s' : PublishEvent c id now e s = Some (r, s') →
  producer_ok s → producer_ok s'.
Proof.
  unfold PublishEvent. intros H Hok. destruct (negb (ep_isRunning s)); [by simplify_eq|].
  assert (Hl : live (mkQueued id e 0 EventStatusPending now zero_time zero_time ""))
    by (split; simpl; lia).
  destruct c; [|by simplify_eq|].
  - destruct (queue_room s) eqn:Er; [|done]. injection H as _ <-. by apply push_ok.
  - destruct (queue_room s); [done|]. destruct (ep_disk s) as [d|] eqn:Ed; [|by simplify_eq].
    pose proof (disk_ok_Enqueue now _ d (po_disk s Hok d Ed) Hl) as Hd.
    destruct (Enqueue now _ d) as [r' d']. injection H as _ <-.
    apply upd_disk_ok; [done|]. by intros ? [= <-].
Qed.

Lemma retry_next_ok now s s' : retry_next now s = Some s' → producer_ok s → producer_ok s'.
Proof.
  unfold retry_next. intros H Hok. pose proof (po_retrying s Hok) as Hl.
  destruct (ep_retrying s) as [| |l [id|]]; try done; simpl in Hl.
  - injection H as <-. apply upd_retrying_ok; [by apply remove_scanned_ok | done].
  - destruct (scan_next _ l s) as [sc s1] eqn:Es. injection H as <-.
    destruct (scan_next_ok _ _ _ _ _ Es Hl Hok). by apply upd_retrying_ok.
Qed.

Lemma retry_scan_ok now s s' : retry_scan now s = Some s' → producer_ok s → producer_ok s'.
Proof.
  unfold retry_scan. intros H Hok. destruct (ep_retry s), (ep_retrying s); try done.
  destruct (ep_disk s) as [d|] eqn:Ed; [|done].
  destruct (GetRetryableEvents now d) as [l|] eqn:El; injection H as <-; [|done].
  apply upd_retrying_ok; [done|]. simpl. eapply disk_ok_retryable; [|exact El].
  by apply (po_disk s Hok).
Qed.

Lemma load_next_ok i g s s' : load_next i g s = Some s' → producer_ok s → producer_ok s'.
Proof.
  unfold load_next. intros H Hok. destruct (ep_loaders s !! i) as [[| |l [id|]]|] eqn:Ei; try done.
  - destruct (ep_disk s) as [d|] eqn:Ed; [|done]. injection H as <-.
    apply upd_loaders_ok; [done|]. destruct (GetAll d) as [l|] eqn:El; [|done].
    simpl. eapply disk_ok_GetAll; [|exact El]. by apply (po_disk s Hok).
  - injection H as <-. pose proof (Forall_lookup_1 _ _ _ _ (po_loaders s Hok) Ei) as Hl.
    pose proof (remove_scanned_ok id s Hok) as Hok1.
    replace (ep_loaders s) with (ep_loaders (remove_scanned id s))
      by (unfold remove_scanned; by destruct s as [? ? ? ? ? []]).
    by apply upd_loaders_ok.
  - pose proof (Forall_lookup_1 _ _ _ _ (po_loaders s Hok) Ei) as Hl. destruct g.
    + destruct (ep_cancelled s); [|done]. injection H as <-. by apply upd_loaders_ok.
    + destruct (scan_next _ l s) as [sc s1] eqn:Es. injection H as <-.
      destruct (scan_next_ok _ _ _ _ _ Es Hl Hok) as [Hsc Hok1].
      replace (ep_loaders s) with (ep_loaders s1); [by apply upd_loaders_ok|].
      unfold scan_next in Es. destruct l; [by simplify_eq|].
      destruct (_ && _); injection Es as _ <-; by destruct s.
Qed.

Lemma control_ok s s' :
  (∃ r, Start s = Some (r, s')) ∨ Stop_cancel s = Some s' ∨ Stop_done s = Some s' ∨
  (∃ ok now, dead_letter ok now s = Some s') ∨ (∃ g, exit g s = Some s') →
  producer_ok s → producer_ok s'.
Proof.
  intros H [].
  destruct s as [c r st ca q d dl sn dg rt rs lo m se dm cr]; simpl in *.
  destruct H as [[r0 H]|[H|[H|[(ok & now & H)|[g H]]]]].
  - unfold Start in H. simpl in H. repeat case_match; simplify_eq; split; simpl; try done;
      apply Forall_app_2; repeat constructor; done.
  - unfold Stop_cancel in H. simpl in H. repeat case_match; simplify_eq; by split.
  - unfold Stop_done in H. simpl in H. repeat case_match; simplify_eq; by split.
  - unfold dead_letter in H. simpl in H. destruct dg, dl as [|e dl]; try done.
    apply Forall_cons in po_dlq0 as [He Hd]. simpl in *.
    repeat case_match; simplify_eq; split; simpl; try done; try lia; by destruct m.
  - unfold exit in H. simpl in H. repeat case_match; simplify_eq; by split.
Qed.

Lemma pstep_ok e s s' : pstep e s = Some s' → producer_ok s → producer_ok s'.
Proof.
  unfold pstep. destruct (ep_crashed s); [done|]. intros H Hok.
  destruct e; simpl in H; eauto using take_ok, producer_send_ok, retry_scan_ok, retry_next_ok, load_next_ok.
  - destruct (Start s) as [[r s1]|] eqn:E; [|done]. injection H as <-. apply (control_ok s); eauto.
  - apply (control_ok s); eauto.
  - apply (control_ok s); eauto.
  - destruct (PublishEvent _ _ _ _ s) as [[r s1]|] eqn:E; [|done]. injection H as <-.
    by eapply PublishEvent_ok.
  - apply (control_ok s); eauto 10.
  - apply (control_ok s); eauto 10.
Qed.

Lemma producer_ok_new d : disk_ok d → producer_ok (NewEnhancedProducer config d).
Proof.
  intros Hd. split; simpl; try done; [lia..|].
  destruct (kc_EnableLocalPersistence config); by intros ? [= <-].
Qed.

Lemma producer_reachable_ok d s : disk_ok d →
  star producer_step (NewEnhancedProducer config d) s → producer_ok s.
Proof.
  intros Hd Hs. eapply (star_invariant producer_step producer_ok); [|by apply producer_ok_new|done].
  intros a b Ha [e He]. by eapply pstep_ok.
Qed.
End invariant.

(** ** Delivery *)

Section delivery.
Context `{Uu : UuidLib}.

Lemma prun_app es1 es2 s s1 s2 : prun es1 s = Some s1 → prun es2 s1 = Some s2 →
  prun (es1 ++ es2) s = Some s2.
Proof.
  revert s. induction es1 as [|e es1 IH]; intros s H1 H2; simpl in *; [by simplify_eq|].
  destruct (pstep e s) as [s'|]; [|done]. simpl in *. by apply IH.
Qed.

Lemma prun_cons e es s s1 s2 : pstep e s = Some s1 → prun es s1 = Some s2 → prun (e :: es) s = Some s2.
Proof. simpl. by intros ->. Qed.

Lemma prun_star es s s' : prun es s = Some s' → star producer_step s s'.
Proof.
  intros H. enough (∀ s0, star producer_step s0 s → star producer_step s0 s') by (apply H0; constructor).
  revert s H. induction es as [|e es IH]; intros s H s0 H0; simpl in H; [by simplify_eq|].
  destruct (pstep e s) as [s1|] eqn:E; [|done]. simpl in H. eapply IH; [exact H|].
  eapply star_snoc; [exact H0 | by exists e].
Qed.

Lemma sent_once_attempts now st q : 0 ≤ qe_Attempts q → qe_Attempts q + 1 ≤ max_int →
  qe_Attempts (sent_once now st q) = qe_Attempts q + 1.
Proof. intros. simpl. apply wrap64_small. unfold min_int, max_int in *. lia. Qed.

(** A quiet producer with one event to deliver and nothing stored. *)
Record ready (s : EnhancedProducer) (q : QueuedEvent) : Prop := {
  rd_running : ep_crashed s = false;
  rd_queue : ep_localQueue s = [q];
  rd_disk : ep_disk s = Some (mkDisk ∅ true true);
  rd_dlq : ep_deadLetterQueue s = [];
  rd_sender : ep_sender s = SIdle;
  rd_retry : ep_retry s = On;
  rd_retrying : ep_retrying s = NotRunning;
  rd_pool : kc_ConnectionPoolSize (ep_config s) ≠ 0%nat;
  rd_size : kc_LocalQueueSize (ep_config s) ≠ 0%nat }.

Definition encodable (q : QueuedEvent) : Prop := data_json (be_Data (qe_Event q)) ≠ None.

Lemma encodable_message n q : encodable q → ∃ m, event_message n (qe_Event q) = Some m.
Proof.
  unfold encodable. destruct (data_json _) as [j|] eqn:Ej; [|done]. intros _.
  destruct (event_message_some n (qe_Event q) j Ej) as (m & Hm & _). eauto.
Qed.

Lemma encodable_reloaded q : encodable q → encodable (reloaded q).
Proof.
  unfold encodable. destruct (data_json (be_Data (qe_Event q))) as [j|] eqn:Ej; [|done]. intros _.
  destruct (data_json_reloaded _ _ Ej) as (j' & Hj' & _). simpl. unfold reloaded_data in *.
  by rewrite Hj'.
Qed.

Lemma encodable_Marshal q : encodable q → ∃ j, QueuedEvent_Marshal q = Some j.
Proof.
  unfold encodable, QueuedEvent_Marshal, BaseEvent_Marshal.
  destruct (data_json _) as [j|]; [|done]. intros _. simpl. eauto.
Qed.

(** One stored event: what the reader sees. *)
Lemma GetRetryable_single now t q d : encodable q → qe_Status q = EventStatusFailed →
  After t (qe_NextRetry q) = true → d = (Enqueue now q (mkDisk ∅ true true)).2 →
  GetRetryableEvents t d = Ok [reloaded q] ∧ (Remove (qe_ID q) d) = (Ok tt, mkDisk ∅ true true).
Proof.
  intros He Hst Ht ->. destruct (encodable_Marshal q He) as [j Hj].
  unfold Enqueue. rewrite Hj. cbn [dk_writable dk_files dk_walkable snd]. split.
  - unfold GetRetryableEvents, GetAll. rewrite insert_empty, WalkDir_single.
    cbn [dk_walkable omap list_omap]. rewrite read_stored, (Unmarshal_Marshal _ _ Hj). cbn [List.filter].
    unfold retryable. cbn [reloaded qe_Status qe_NextRetry]. rewrite Hst, Ht. done.
  - unfold Remove. cbn [dk_files]. rewrite lookup_insert_eq. cbn [f_removable dk_writable dk_walkable].
    by rewrite delete_insert_eq, delete_empty.
Qed.

Definition failing (now : Z) (e : error) : event := EvSend (WriteFailed e) now.

(** The state after a failed attempt that is retried. *)
Lemma failed_attempt s q now e wait : ready s q → encodable q →
  0 ≤ qe_Attempts q → qe_Attempts q + 1 < kc_RetryAttempts (ep_config s) ≤ max_int →
  backoff (kc_RetryBackoffMs (ep_config s)) (qe_Attempts q + 1) = Some wait →
  ∃ s1 q1, prun [EvTake; failing now e] s = Some s1 ∧
    qe_ID q1 = qe_ID q ∧ qe_Attempts q1 = qe_Attempts q + 1 ∧ qe_Status q1 = EventStatusFailed ∧
    qe_NextRetry q1 = now + wait ∧ encodable q1 ∧ ep_config s1 = ep_config s ∧
    ep_crashed s1 = false ∧ ep_localQueue s1 = [] ∧
    ep_disk s1 = Some (Enqueue now q1 (mkDisk ∅ true true)).2 ∧ ep_deadLetterQueue s1 = [] ∧
    ep_sender s1 = SIdle ∧ ep_retry s1 = On ∧ ep_retrying s1 = NotRunning.
Proof.
  intros Hr He H0 Hlt Hb. destruct (encodable_message (qe_Attempts q + 1) q He) as [m Hm].
  destruct Hr. destruct s as [c r st ca lq d dl sn dg rt rs lo [pu fa re de qs la] se dm cr].
  simpl in *. subst. unfold failing. simpl. unfold take. simpl.
  unfold pstep, send, sendEvent. cbn [ep_crashed ep_sender ep_config ep_cancelled]. destruct (Nat.eqb_spec (kc_ConnectionPoolSize c) 0) as [|_]; [done|].
  rewrite Hm. cbn [upd_sender mbind option_bind]. unfold handleFailedEvent.
  cbn [ep_config ep_disk ep_deadLetterQueue].
  rewrite (sent_once_attempts now EventStatusProcessing q) by (unfold max_int in *; lia).
  destruct (Z.ltb_spec (qe_Attempts q + 1) (kc_RetryAttempts c)) as [_|]; [|lia].
  rewrite Hb. eexists _, (failed (ErrorWrap "failed to write message to Kafka" e) EventStatusFailed
    (now + wait) (sent_once now EventStatusProcessing q)). split; [reflexivity|].
  split_and!; try done. cbn [failed qe_Attempts].
  apply sent_once_attempts; unfold max_int in *; lia.
Qed.

(** The retry goroutine puts a stored event that is due back in the queue. *)
Lemma retried s q t now : ep_crashed s = false → ep_localQueue s = [] →
  ep_disk s = Some (Enqueue now q (mkDisk ∅ true true)).2 → ep_retry s = On →
  ep_retrying s = NotRunning → kc_LocalQueueSize (ep_config s) ≠ 0%nat → encodable q →
  qe_Status q = EventStatusFailed → After t (qe_NextRetry q) = true →
  ∃ s1, prun [EvRetryScan t; EvRetryNext t; EvRetryNext t; EvRetryNext t] s = Some s1 ∧
    ep_config s1 = ep_config s ∧ ep_crashed s1 = false ∧ ep_localQueue s1 = [reloaded q] ∧
    ep_disk s1 = Some (mkDisk ∅ true true) ∧ ep_deadLetterQueue s1 = ep_deadLetterQueue s ∧
    ep_sender s1 = ep_sender s ∧ ep_retry s1 = On ∧ ep_retrying s1 = NotRunning.
Proof.
  intros Hcr Hlq Hd Hrt Hrs Hsz He Hst Ht.
  remember (Enqueue now q (mkDisk ∅ true true)).2 as d0 eqn:Ed0.
  destruct (GetRetryable_single now t q d0 He Hst Ht Ed0) as [Hget Hrem]. clear Ed0.
  destruct s as [c r st ca lq d dl sn dg rt rs lo [pu fa re de qs la] se dm cr].
  cbn [ep_crashed ep_localQueue ep_disk ep_retry ep_retrying ep_config] in *. subst.
  eexists. split.
  - eapply prun_cons.
    { unfold pstep, retry_scan. cbn [ep_crashed ep_retry ep_retrying ep_disk]. by rewrite Hget. }
    eapply prun_cons.
    { unfold pstep, retry_next, scan_next, queue_room.
      cbn [ep_crashed ep_retrying upd_retrying ep_localQueue ep_config length reloaded qe_NextRetry].
      rewrite Ht. destruct (Nat.ltb_spec 0 (kc_LocalQueueSize c)) as [_|]; [|lia]. reflexivity. }
    eapply prun_cons.
    { unfold pstep, retry_next, remove_scanned. cbn [ep_crashed ep_retrying upd_retrying push upd_queue
        upd_metrics ep_disk reloaded qe_ID]. by rewrite Hrem. }
    reflexivity.
  - by split_and!.
Qed.

Definition sends (es : list event) : nat :=
  length (List.filter (λ e, match e with EvSend _ _ => true | _ => false end) es).

Lemma last_attempt s q now e : ready s q → encodable q → 0 ≤ qe_Attempts q →
  qe_Attempts q + 1 = kc_RetryAttempts (ep_config s) → kc_RetryAttempts (ep_config s) ≤ max_int →
  ∃ s1 q1, prun [EvTake; failing now e] s = Some s1 ∧ ep_deadLetterQueue s1 = [q1] ∧
    ep_localQueue s1 = [] ∧ ep_disk s1 = Some (mkDisk ∅ true true) ∧ qe_ID q1 = qe_ID q ∧
    qe_Attempts q1 = kc_RetryAttempts (ep_config s) ∧ qe_Status q1 = EventStatusDeadLetter.
Proof.
  intros Hr He H0 Heq Hmax. destruct (encodable_message (qe_Attempts q + 1) q He) as [m Hm].
  destruct Hr. destruct s as [c r st ca lq d dl sn dg rt rs lo [pu fa re de qs la] se dm cr].
  simpl in *. subst. unfold failing. simpl. unfold take. simpl.
  unfold pstep, send, sendEvent. cbn [ep_crashed ep_sender ep_config ep_cancelled]. destruct (Nat.eqb_spec (kc_ConnectionPoolSize c) 0) as [|_]; [done|].
  rewrite Hm. cbn [upd_sender mbind option_bind]. unfold handleFailedEvent.
  cbn [ep_config ep_disk ep_deadLetterQueue].
  rewrite (sent_once_attempts now EventStatusProcessing q) by (unfold max_int in *; lia).
  destruct (Z.ltb_spec (qe_Attempts q + 1) (kc_RetryAttempts c)) as [|_]; [lia|].
  eexists _, _. split; [reflexivity|].
  split_and!; try done. cbn [failed qe_Attempts]. rewrite <- Heq.
  apply sent_once_attempts; unfold max_int in *; lia.
Qed.

Lemma dead_lettered k s q e : ready s q → encodable q → 0 ≤ qe_Attempts q →
  qe_Attempts q + 1 + Z.of_nat k = kc_RetryAttempts (ep_config s) →
  kc_RetryAttempts (ep_config s) ≤ max_int →
  ∃ es s1 q1, prun es s = Some s1 ∧ sends es = S k ∧
    Forall (λ ev, match ev with EvSend o _ => o = WriteFailed e | _ => True end) es ∧
    ep_deadLetterQueue s1 = [q1] ∧ ep_localQueue s1 = [] ∧
    ep_disk s1 = Some (mkDisk ∅ true true) ∧ qe_ID q1 = qe_ID q ∧
    qe_Attempts q1 = kc_RetryAttempts (ep_config s) ∧ qe_Status q1 = EventStatusDeadLetter.
Proof.
  revert s q. induction k as [|k IH]; intros s q Hr He H0 Hk Hmax.
  - destruct (last_attempt s q 0 e Hr He H0 ltac:(lia) Hmax) as (s1 & q1 & Hrun & Hrest).
    eexists _, s1, q1. split; [exact Hrun|]. split; [done|]. split; [by repeat constructor|]. done.
  - assert (∃ wait, backoff (kc_RetryBackoffMs (ep_config s)) (qe_Attempts q + 1) = Some wait)
      as [wait Hw].
    { unfold backoff. destruct (Z.ltb_spec (qe_Attempts q + 1 - 1) 0); [lia | eauto]. }
    destruct (failed_attempt s q 0 e wait Hr He H0 ltac:(lia) Hw)
      as (s1 & q1 & Hrun1 & Hid & Hat & Hst & Hnr & He1 & Hc1 & Hcr & Hlq & Hd & Hdl & Hsn & Hrt & Hrs).
    destruct (retried s1 q1 (qe_NextRetry q1 + 1) 0 Hcr Hlq Hd Hrt Hrs) as
      (s2 & Hrun2 & Hc2 & Hcr2 & Hlq2 & Hd2 & Hdl2 & Hsn2 & Hrt2 & Hrs2).
    { rewrite Hc1. apply (rd_size _ _ Hr). } { done. } { done. }
    { unfold After. apply Z.ltb_lt. lia. }
    destruct (IH s2 (reloaded q1)) as (es & s3 & q3 & Hrun3 & Hs3 & Hf3 & Hdl3 & Hlq3 & Hd3 & Hi3 & Ha3 & Hst3).
    { split; try done; try congruence; rewrite Hc2, Hc1; apply Hr. }
    { by apply encodable_reloaded. } { simpl. lia. }
    { simpl. rewrite Hc2, Hc1. lia. } { by rewrite Hc2, Hc1. }
    eexists _, s3, q3. split; [exact (prun_app _ _ _ _ _ (prun_app _ _ _ _ _ Hrun1 Hrun2) Hrun3)|].
    split; [unfold sends in *; simpl; by rewrite Hs3|].
    split; [simpl; repeat (constructor; [done|]); done|].
    simpl in Hi3. rewrite Hc2, Hc1 in Ha3. split_and!; congruence.
Qed.
End delivery.

(** ** Properties *)



(** Stopping the producer can crash the service.  If an event that was
    never attempted is waiting when [Stop] cancels the context, the sender may
    take it, see the context done before it gets a writer, and compute the
    back-off of attempt 0: a shift by a negative count, which panics. *)
Theorem Stop_can_crash `{UuidLib} s q rest now :
  ep_crashed s = false → ep_isRunning s = true → ep_stopping s = false →
  ep_sender s = SIdle → ep_localQueue s = q :: rest → qe_Attempts q = 0 →
  0 < kc_RetryAttempts (ep_config s) →
  ∃ s', prun [EvStop; EvTake; EvSend CtxDone now] s = Some s' ∧ ep_crashed s' = true ∧
        ∀ e, pstep e s' = None.
Proof.
  intros Hc Hr Hst Hs Hq Ha HR.
  destruct s as [c r st ca lq d dl sn dg rt rs lo [pu fa re de qs la] se dm cr]; simpl in *; subst.
  unfold Stop_cancel. simpl. unfold handleFailedEvent. simpl. rewrite Ha.
  destruct (Z.ltb_spec 0 (kc_RetryAttempts c)); [|lia]. simpl.
  eexists. split; [reflexivity|]. split; [done|]. intros e. done.
Qed.

(** Without persistence a failed write that has attempts left is counted as
    retried, and the event is gone: neither queue holds it. *)
Theorem failed_send_without_persistence `{UuidLib} s q e now m :
  ep_crashed s = false → ep_sender s = SSending q → ep_disk s = None →
  kc_ConnectionPoolSize (ep_config s) ≠ 0%nat →
  event_message (qe_Attempts q + 1) (qe_Event q) = Some m →
  0 ≤ qe_Attempts q → qe_Attempts q + 1 < kc_RetryAttempts (ep_config s) ≤ max_int →
  ∃ s', pstep (EvSend (WriteFailed e) now) s = Some s' ∧
    EventsRetried (GetMetrics s') = wrap64 (EventsRetried (GetMetrics s) + 1) ∧
    ep_sender s' = SIdle ∧ ep_localQueue s' = ep_localQueue s ∧
    ep_deadLetterQueue s' = ep_deadLetterQueue s ∧ ep_disk s' = None ∧ ep_sent s' = ep_sent s.
Proof.
  intros Hc Hs Hd Hp Hm H0 Hlt.
  destruct s as [c r st ca lq d dl sn dg rt rs lo [pu fa re de qs la] se dm cr].
  cbn [ep_crashed ep_sender ep_disk ep_config] in *. subst.
  unfold pstep, send, sendEvent. cbn [ep_crashed ep_sender ep_config ep_cancelled].
  destruct (Nat.eqb_spec (kc_ConnectionPoolSize c) 0) as [|_]; [done|]. rewrite Hm.
  cbn [upd_sender]. unfold handleFailedEvent. cbn [ep_config ep_disk].
  rewrite (sent_once_attempts now EventStatusProcessing q) by (unfold max_int in *; lia).
  destruct (Z.ltb_spec (qe_Attempts q + 1) (kc_RetryAttempts c)) as [_|]; [|lia].
  unfold backoff. destruct (Z.ltb_spec (qe_Attempts q + 1 - 1) 0); [lia|].
  eexists. split; [reflexivity|]. by split_and!.
Qed.

(** An event accepted because the local queue was full is stored with status
    Pending, which no retry scan ever selects: only a restart loads it. *)
Theorem overflowed_event_is_never_retried `{UuidLib} id now e d d' l t :
  let q := mkQueued id e 0 EventStatusPending now zero_time zero_time "" in
  Enqueue now q d = (Ok tt, d') → GetRetryableEvents t d' = Ok l →
  ∀ x, x ∈ l → qe_Status x = EventStatusFailed ∧ x ≠ reloaded q.
Proof.
  intros q _ Hl x Hx. unfold GetRetryableEvents in Hl. destruct (GetAll d') as [l0|]; [|done].
  injection Hl as <-. apply list_elem_of_In, filter_In in Hx as [_ Hx].
  unfold retryable in Hx. apply andb_true_iff in Hx as [Hx _]. apply bool_decide_eq_true in Hx.
  split; [done|]. intros ->. discriminate Hx.
Qed.

(** ** Witnesses *)
#[local] Existing Instances ref_uuid.

Definition demo_config : KafkaConfig := mkKafkaConfig 3 1000 1 10 true.
Definition demo_login : BaseEvent :=
  PublishUserLoggedIn 11 5 7 3 "" "curl" (mkUserLoggedIn 7 "a@b.c" 3 "password").
Definition demo_producer (es : list event) : EnhancedProducer :=
  match prun es (NewEnhancedProducer demo_config (mkDisk ∅ true true)) with
  | Some s => s | None => NewEnhancedProducer demo_config (mkDisk ∅ true true) end.
Definition published : list event := [EvStart; EvPublish ToQueue 1 5 demo_login].

Lemma empty_disk_ok : disk_ok demo_config (mkDisk ∅ true true).
Proof. apply map_Forall_empty. Qed.


Definition waiting_event : QueuedEvent :=
  mkQueued 1 demo_login 0 EventStatusPending 5 zero_time zero_time "".

Lemma demo_ready : ready (demo_producer published) waiting_event.
Proof. split; try reflexivity; done. Qed.


Example Stop_can_crash_witness :
  ∃ s', prun [EvStop; EvTake; EvSend CtxDone 9] (demo_producer published) = Some s' ∧
        ep_crashed s' = true.
Proof.
  destruct (Stop_can_crash (demo_producer published) waiting_event [] 9) as (s' & Hr & Hc & _);
    try reflexivity.
  exists s'. split; [exact Hr | exact Hc].
Defined.

(** The retry goroutine pushes a stored event and removes its file in two
    steps.  When the event is sent, fails and is stored again in between, the
    removal deletes the new file: the event is lost, though attempts are
    left. *)
Definition race : list event :=
  published ++ [EvTake; EvSend (WriteFailed (ErrorString "broker down")) 9;
    EvRetryScan 2000000000; EvRetryNext 2000000000;            (* pushed *)
    EvTake; EvSend (WriteFailed (ErrorString "broker down")) 2000000001;
    EvRetryNext 2000000002].                                   (* removed *)
Example retry_race_loses_event :
  let s := demo_producer race in
  ep_localQueue s = [] ∧ ep_sender s = SIdle ∧ ep_deadLetterQueue s = [] ∧
  ep_disk s = Some (mkDisk ∅ true true) ∧ ep_sent s = [] ∧
  EventsRetried (GetMetrics s) = 2 ∧ EventsFailed (GetMetrics s) = 0.
Proof. vm_compute. by split_and!. Qed.

(** After [Stop] the producer starts and accepts events again, but its
    context stays cancelled: the sender may exit at once. *)
Example restarted_producer_accepts_and_never_sends :
  let s := demo_producer [EvStart; EvStop; EvExit GSender; EvExit GDeadLetter; EvExit GRetry;
    EvStopped; EvStart; EvExit GSender; EvPublish ToQueue 1 5 demo_login] in
  IsHealthy s = true ∧ length (ep_localQueue s) = 1%nat ∧ ep_sender s = SExited ∧
  pstep EvTake s = None.
Proof. vm_compute. by split_and!. Qed.
