(* ===== verification/ErrorLogging.v ===== *)
(** * Error logging, metrics and alerts (src/internal/errors/logging.go)

    The state of an [ErrorLogger]: its counters, the alerter with its rules,
    channels and cool-down table, the lines handed to zap and the alerts
    handed to the channels.  A call reads the clock once, [rt_now rt].  An
    [AlertChannel] is known by its name; an error of its [SendAlert] is only
    logged. *)

From Stdlib Require Import SpecFloat.
From S2P Require Import Prelude Errors Retry.

#[local] Open Scope Z_scope.

#[export] Instance ErrorSeverity_eq_dec : EqDecision ErrorSeverity.
Proof. solve_decision. Defined.
#[export] Instance ErrorCategory_eq_dec : EqDecision ErrorCategory.
Proof. solve_decision. Defined.

(** The text of a severity and of a category. *)
Definition severity_string (s : ErrorSeverity) : string :=
  match s with
  | SeverityInfo => "INFO" | SeverityWarning => "WARNING" | SeverityError => "ERROR"
  | SeverityCritical => "CRITICAL" | SeverityUnset => ""
  end.
Definition category_string (c : ErrorCategory) : string :=
  match c with
  | CategoryAuthentication => "AUTHENTICATION" | CategoryAuthorization => "AUTHORIZATION"
  | CategoryValidation => "VALIDATION" | CategoryDatabase => "DATABASE" | CategoryCache => "CACHE"
  | CategoryNetwork => "NETWORK" | CategoryInternal => "INTERNAL" | CategoryExternal => "EXTERNAL"
  | CategoryRateLimit => "RATE_LIMIT" | CategoryCircuitBreaker => "CIRCUIT_BREAKER"
  | CategoryUnset => ""
  end.

(** ** Metrics

    The maps keyed by severity and category are keyed by their texts. *)

Record ErrorMetrics := mkErrorMetrics {
  em_ErrorCounts : gmap ErrorCode Z; em_ErrorRates : gmap ErrorCode float64;
  em_SeverityCounts : gmap string Z; em_CategoryCounts : gmap string Z;
  em_LastErrorTime : gmap ErrorCode Z; em_TotalErrors : Z }.

Definition NewErrorMetrics : ErrorMetrics := mkErrorMetrics ∅ ∅ ∅ ∅ ∅ 0.

(** [m[k]++] on an int64 map. *)
Definition bump `{Countable K} (k : K) (m : gmap K Z) : gmap K Z :=
  <[k := wrap64 (default 0 (m !! k) + 1)]> m.

Definition RecordError (now : Z) (a : AuthError) (em : ErrorMetrics) : ErrorMetrics :=
  mkErrorMetrics (bump (ae_Code a) (em_ErrorCounts em)) (em_ErrorRates em)
    (bump (severity_string (ae_Severity a)) (em_SeverityCounts em))
    (bump (category_string (ae_Category a)) (em_CategoryCounts em))
    (<[ae_Code a := now]> (em_LastErrorTime em)) (wrap64 (em_TotalErrors em + 1)).

(** The copy loops of [GetSnapshot] fill fresh maps entry by entry. *)
Definition copy_map `{Countable K} {A} (m : gmap K A) : gmap K A :=
  foldl (λ acc kv, <[kv.1 := kv.2]> acc) ∅ (map_to_list m).
Definition GetSnapshot (em : ErrorMetrics) : ErrorMetrics :=
  mkErrorMetrics (copy_map (em_ErrorCounts em)) (copy_map (em_ErrorRates em))
    (copy_map (em_SeverityCounts em)) (copy_map (em_CategoryCounts em))
    (copy_map (em_LastErrorTime em)) (em_TotalErrors em).

(** ** Alerts *)

Record AlertThreshold := mkAlertThreshold { at_Count : Z; at_Rate : float64; at_TimeWindow : Z }.
Record AlertRateLimiting := mkAlertRateLimiting {
  MaxAlertsPerMinute : Z; CooldownPeriod : Z; LastAlertTime : gmap ErrorCode Z }.
Record AlertingConfig := mkAlertingConfig {
  ac_Enabled : bool; DefaultChannel : string; AlertThresholds : gmap string AlertThreshold;
  RateLimiting : option AlertRateLimiting }.

Record AlertRule := mkAlertRule {
  ar_Name : string; ar_Condition : AuthError → bool; ar_Severity : ErrorSeverity;
  ar_Channel : string; ar_Message : string; ar_Metadata : gmap string meta }.
Record Alert := mkAlert {
  al_ID : string; al_Timestamp : Z; al_Severity : ErrorSeverity; al_Title : string;
  al_Message : string; al_Error : AuthError; al_Metadata : gmap string meta; al_Channel : string }.

(** [ea_sent] is the trace of deliveries: the channel and the alert. *)
Record ErrorAlerter := mkErrorAlerter {
  ea_config : AlertingConfig; ea_channels : list string; ea_rules : list AlertRule;
  ea_sent : list (string * Alert) }.

Definition AddChannel (channel : string) (ea : ErrorAlerter) : ErrorAlerter :=
  mkErrorAlerter (ea_config ea) (ea_channels ea ++ [channel]) (ea_rules ea) (ea_sent ea).
Definition AddRule (rule : AlertRule) (ea : ErrorAlerter) : ErrorAlerter :=
  mkErrorAlerter (ea_config ea) (ea_channels ea) (ea_rules ea ++ [rule]) (ea_sent ea).

Definition LogAlertChannel_GetName : string := "log".
Definition is_critical (err : AuthError) : bool := bool_decide (ae_Severity err = SeverityCritical).
Definition is_auth_failure (err : AuthError) : bool :=
  bool_decide (ae_Category err = CategoryAuthentication) && bool_decide (ae_Severity err = SeverityError).
Definition NewErrorAlerter (config : AlertingConfig) : ErrorAlerter :=
  AddRule (mkAlertRule "authentication_failures" is_auth_failure SeverityError "log"
             "Authentication failure detected" ∅)
    (AddRule (mkAlertRule "critical_errors" is_critical SeverityCritical "log"
                "Critical error occurred" ∅)
      (AddChannel LogAlertChannel_GetName (mkErrorAlerter config [] [] []))).

Definition isRateLimited (now : Z) (a : AuthError) (ea : ErrorAlerter) : bool :=
  match RateLimiting (ea_config ea) with
  | None => false
  | Some rl =>
      match LastAlertTime rl !! ae_Code a with
      | None => false
      | Some lastAlert => (now - lastAlert <? CooldownPeriod rl)%Z
      end
  end.
Definition updateRateLimit (now : Z) (a : AuthError) (ea : ErrorAlerter) : ErrorAlerter :=
  match RateLimiting (ea_config ea) with
  | None => ea
  | Some rl =>
      let rl' := mkAlertRateLimiting (MaxAlertsPerMinute rl) (CooldownPeriod rl)
                   (<[ae_Code a := now]> (LastAlertTime rl)) in
      mkErrorAlerter
        (mkAlertingConfig (ac_Enabled (ea_config ea)) (DefaultChannel (ea_config ea))
           (AlertThresholds (ea_config ea)) (Some rl'))
        (ea_channels ea) (ea_rules ea) (ea_sent ea)
  end.

(** The channel of that name, else the first one, else none. *)
Definition targetChannel (name : string) (channels : list string) : option string :=
  match List.find (String.eqb name) channels with Some c => Some c | None => head channels end.
Definition sendAlert (alert : Alert) (ea : ErrorAlerter) : ErrorAlerter :=
  match targetChannel (al_Channel alert) (ea_channels ea) with
  | Some c => mkErrorAlerter (ea_config ea) (ea_channels ea) (ea_rules ea) (ea_sent ea ++ [(c, alert)])
  | None => ea
  end.

Definition rule_alert (now : Z) (rule : AlertRule) (a : AuthError) : Alert :=
  mkAlert (Itoa now +:+ "-" +:+ Itoa (ae_Code a)) now (ar_Severity rule) (ar_Name rule)
    (ar_Message rule) a (ar_Metadata rule) (ar_Channel rule).
(** The loop over the copied rules. *)
Fixpoint apply_rules (now : Z) (a : AuthError) (rules : list AlertRule) (ea : ErrorAlerter) : ErrorAlerter :=
  match rules with
  | [] => ea
  | rule :: rest =>
      if ar_Condition rule a
      then apply_rules now a rest (updateRateLimit now a (sendAlert (rule_alert now rule a) ea))
      else apply_rules now a rest ea
  end.
Definition ProcessError (now : Z) (a : AuthError) (ea : ErrorAlerter) : ErrorAlerter :=
  if negb (ac_Enabled (ea_config ea)) then ea
  else if isRateLimited now a ea then ea
  else apply_rules now a (ea_rules ea) ea.

(** ** The logger *)

Record SamplingConfig := mkSamplingConfig { sc_Initial : Z; sc_Thereafter : Z; sc_Tick : Z }.
(** zap's levels, as far as they are used. *)
Inductive Level := InfoLevel | WarnLevel | ErrorLevel.
Record ErrorLoggingConfig := mkErrorLoggingConfig {
  LogLevel : Level; EnableStackTrace : bool; EnableMetrics : bool; elc_EnableAlerting : bool;
  elc_SamplingConfig : option SamplingConfig; StructuredLogging : bool; ErrorBufferSize : Z;
  FlushInterval : Z }.
Definition GetDefaultErrorLoggingConfig : ErrorLoggingConfig :=
  mkErrorLoggingConfig ErrorLevel true true true (Some (mkSamplingConfig 100 100 Second)) true 1000
    (30 * Second).

(** A zap field; the stack trace is the JSON text of its frames. *)
Inductive field_value :=
| FString (s : string) | FBool (b : bool) | FTime (t : Z) | FAny (m : meta)
| FStack (l : list StackFrame) | FError (e : error).
Record LogLine := mkLogLine { ll_Level : Level; ll_Message : string; ll_Fields : list (string * field_value) }.

Record ErrorLogger := mkErrorLogger {
  el_alerter : option ErrorAlerter; el_metrics : ErrorMetrics; el_config : ErrorLoggingConfig;
  el_lines : list LogLine }.

Definition default_alerting : AlertingConfig :=
  mkAlertingConfig true "log"
    (<["CRITICAL" := mkAlertThreshold 1 (f_of_int 1) Minute]>
      (<["ERROR" := mkAlertThreshold 5 (f_of_int 5) Minute]>
        (<["WARNING" := mkAlertThreshold 10 (f_of_int 10) Minute]> ∅)))
    (Some (mkAlertRateLimiting 10 (5 * Minute) ∅)).
Definition NewErrorLogger (config : option ErrorLoggingConfig) : ErrorLogger :=
  let config := default GetDefaultErrorLoggingConfig config in
  mkErrorLogger (if elc_EnableAlerting config then Some (NewErrorAlerter default_alerting) else None)
    NewErrorMetrics config [].

Definition base_fields (a : AuthError) : list (string * field_value) :=
  [("error_code", FString (Itoa (ae_Code a))); ("error_category", FString (category_string (ae_Category a)));
   ("error_severity", FString (severity_string (ae_Severity a))); ("retryable", FBool (ae_Retryable a));
   ("trace_id", FString (ae_TraceID a)); ("request_id", FString (ae_RequestID a));
   ("user_id", FString (ae_UserID a)); ("timestamp", FTime (ae_Timestamp a))].
Definition meta_fields (a : AuthError) : list (string * field_value) :=
  (λ kv, ("meta_" +:+ kv.1, FAny kv.2)) <$> map_to_list (ae_Metadata a).
Definition tail_fields (config : ErrorLoggingConfig) (a : AuthError) : list (string * field_value) :=
  (if EnableStackTrace config && (0 <? length (ae_Stack a))%nat
   then [("stack_trace", FStack (ae_Stack a))] else []) ++
  match ae_Cause a with Some c => [("error", FError c)] | None => [] end.
Definition line_level (s : ErrorSeverity) : Level :=
  match s with
  | SeverityCritical | SeverityError => ErrorLevel
  | SeverityWarning => WarnLevel
  | SeverityInfo => InfoLevel
  | SeverityUnset => ErrorLevel
  end.
Definition write_line (line : LogLine) (el : ErrorLogger) : ErrorLogger :=
  mkErrorLogger (el_alerter el) (el_metrics el) (el_config el) (el_lines el ++ [line]).
Definition logStructuredError (a : AuthError) (el : ErrorLogger) : ErrorLogger :=
  write_line (mkLogLine (line_level (ae_Severity a)) (ae_Message a)
    (base_fields a ++ meta_fields a ++ tail_fields (el_config el) a)) el.
Definition logStructuredErrorWithFields (a : AuthError) (additionalFields : list (string * field_value))
    (el : ErrorLogger) : ErrorLogger :=
  write_line (mkLogLine (line_level (ae_Severity a)) (ae_Message a)
    (base_fields a ++ meta_fields a ++ additionalFields ++ tail_fields (el_config el) a)) el.

Section logger.
Context (rt : Runtime) (ctx : Ctx).

Definition record_metrics (a : AuthError) (el : ErrorLogger) : ErrorLogger :=
  if EnableMetrics (el_config el)
  then mkErrorLogger (el_alerter el) (RecordError (rt_now rt) a (el_metrics el)) (el_config el) (el_lines el)
  else el.
Definition send_alerts (a : AuthError) (el : ErrorLogger) : ErrorLogger :=
  if elc_EnableAlerting (el_config el)
  then mkErrorLogger (ProcessError (rt_now rt) a <$> el_alerter el) (el_metrics el) (el_config el) (el_lines el)
  else el.

(** The error as it is logged: one that is no [AuthError] is wrapped, and the
    identifiers of the context are filled in. *)
Definition logged_error (err : error) : AuthError :=
  ErrorFromContext rt ctx (ErrorAuth (GetAuthError rt err)).

Definition LogError (err : error) (el : ErrorLogger) : ErrorLogger :=
  let a := logged_error err in
  send_alerts a (logStructuredError a (record_metrics a el)).
Definition LogErrorWithContext (err : error) (fields : list (string * field_value))
    (el : ErrorLogger) : ErrorLogger :=
  let a := logged_error err in
  send_alerts a (logStructuredErrorWithFields a fields (record_metrics a el)).
End logger.

Definition GetMetrics (el : ErrorLogger) : option ErrorMetrics :=
  if EnableMetrics (el_config el) then Some (GetSnapshot (el_metrics el)) else None.

(** ** Runs

    A run of the logger from its construction: the clock never goes back. *)
Inductive logger_step : Z * ErrorLogger → Z * ErrorLogger → Prop :=
| ls_log t el rt ctx err : t ≤ rt_now rt → logger_step (t, el) (rt_now rt, LogError rt ctx err el)
| ls_log_with t el rt ctx err fields : t ≤ rt_now rt →
    logger_step (t, el) (rt_now rt, LogErrorWithContext rt ctx err fields el)
| ls_rule t el rule :
    logger_step (t, el)
      (t, mkErrorLogger (AddRule rule <$> el_alerter el) (el_metrics el) (el_config el) (el_lines el))
| ls_channel t el c :
    logger_step (t, el)
      (t, mkErrorLogger (AddChannel c <$> el_alerter el) (el_metrics el) (el_config el) (el_lines el)).

(** Two alerts for one code were sent by the same call or lie at least [cool]
    apart. *)
Definition spaced (cool : Z) (l : list Alert) : Prop :=
  ∀ i j a b, (i < j)%nat → l !! i = Some a → l !! j = Some b →
    ae_Code (al_Error a) = ae_Code (al_Error b) →
    al_Timestamp a = al_Timestamp b ∨ al_Timestamp a + cool ≤ al_Timestamp b.

(** ** Lemmas *)

Lemma spaced_app cool l l' :
  spaced cool l → spaced cool l' →
  (∀ a b, a ∈ l → b ∈ l' → ae_Code (al_Error a) = ae_Code (al_Error b) →
     al_Timestamp a + cool ≤ al_Timestamp b) →
  spaced cool (l ++ l').
Proof.
  intros Hl Hl' Hx i j a b Hij Hi Hj Hc.
  apply lookup_app_Some in Hi as [Hi|[Hi Hi']]; apply lookup_app_Some in Hj as [Hj|[Hj Hj']].
  - eauto.
  - right. apply Hx; [by eapply list_elem_of_lookup_2 | by eapply list_elem_of_lookup_2 | done].
  - apply lookup_lt_Some in Hj. lia.
  - apply (Hl' (i - length l)%nat (j - length l)%nat); [lia|done..].
Qed.
Lemma spaced_same cool l t : (∀ a, a ∈ l → al_Timestamp a = t) → spaced cool l.
Proof.
  intros Ht i j a b _ Hi Hj _. left.
  by rewrite (Ht a), (Ht b) by (by eapply list_elem_of_lookup_2).
Qed.

(** What the rules send: one alert per rule that matches and has a channel. *)
Definition rule_deliveries (now : Z) (a : AuthError) (rules : list AlertRule) (channels : list string)
    : list (string * Alert) :=
  omap (λ rule, (λ c, (c, rule_alert now rule a)) <$> targetChannel (ar_Channel rule) channels)
    (List.filter (λ rule, ar_Condition rule a) rules).

Lemma apply_rules_spec now a rules ea :
  let ea' := apply_rules now a rules ea in
  ea_sent ea' = ea_sent ea ++ rule_deliveries now a rules (ea_channels ea) ∧
  ea_channels ea' = ea_channels ea ∧ ea_rules ea' = ea_rules ea ∧
  ea_config ea' = (if existsb (λ rule, ar_Condition rule a) rules
                   then ea_config (updateRateLimit now a ea) else ea_config ea).
Proof.
  revert ea. induction rules as [|rule rest IH]; intros ea; cbn [apply_rules]; unfold rule_deliveries; simpl.
  - by rewrite app_nil_r.
  - destruct (ar_Condition rule a) eqn:Ec; simpl; [|apply IH].
    destruct (IH (updateRateLimit now a (sendAlert (rule_alert now rule a) ea))) as (Hs & Hch & Hr & Hcf).
    rewrite Hs, Hch, Hr, Hcf. unfold rule_deliveries.
    set (ea1 := sendAlert (rule_alert now rule a) ea).
    assert (E1 : ea_channels ea1 = ea_channels ea ∧ ea_rules ea1 = ea_rules ea ∧ ea_config ea1 = ea_config ea)
      by (unfold ea1, sendAlert; by case_goal).
    assert (E2 : ∀ x, ea_channels (updateRateLimit now a x) = ea_channels x ∧
                      ea_rules (updateRateLimit now a x) = ea_rules x ∧
                      ea_sent (updateRateLimit now a x) = ea_sent x)
      by (intros x; unfold updateRateLimit; by case_goal).
    destruct E1 as (C1 & R1 & F1), (E2 ea1) as (C2 & R2 & S2). rewrite C2, R2, S2, C1, R1.
    split_and!; [|done|done|].
    + unfold ea1, sendAlert. cbn [al_Channel rule_alert]. destruct (targetChannel _ _); simpl; [|done].
      by rewrite <- app_assoc.
    + unfold updateRateLimit. rewrite !F1.
      destruct (RateLimiting (ea_config ea)) as [rl|] eqn:Er; cbn; rewrite ?F1, ?Er; [|by destruct existsb].
      destruct existsb; [|done]. by rewrite insert_insert_eq.
Qed.

Lemma rule_deliveries_same now a rules channels al :
  al ∈ (rule_deliveries now a rules channels).*2 → al_Timestamp al = now ∧ al_Error al = a.
Proof.
  intros (d & -> & Hd)%list_elem_of_fmap.
  apply list_elem_of_omap in Hd as (rule & _ & Hr). by destruct (targetChannel _ _); simplify_eq/=.
Qed.

Section runs.
Context (config : option ErrorLoggingConfig).

(** The invariant of the default alerter at time [now]. *)
Record alerter_ok (now : Z) (ea : ErrorAlerter) : Prop := {
  ok_enabled : ac_Enabled (ea_config ea) = true;
  ok_limit : ∃ rl, RateLimiting (ea_config ea) = Some rl ∧ CooldownPeriod rl = 5 * Minute ∧
     (∀ c t, LastAlertTime rl !! c = Some t →
        t ≤ now ∧ ∃ al, al ∈ (ea_sent ea).*2 ∧ ae_Code (al_Error al) = c ∧ al_Timestamp al = t) ∧
     (∀ al, al ∈ (ea_sent ea).*2 → ∃ t, LastAlertTime rl !! ae_Code (al_Error al) = Some t ∧
        al_Timestamp al ≤ t);
  ok_channel : ea_channels ea ≠ [];
  ok_critical : ∃ rule, rule ∈ ea_rules ea ∧ ar_Condition rule = is_critical;
  ok_spaced : spaced (5 * Minute) (ea_sent ea).*2 }.

Lemma alerter_ok_new now : alerter_ok now (NewErrorAlerter default_alerting).
Proof.
  split; simpl; [done| |done| |].
  - eexists. split_and!; [done|done| |]; simpl.
    + intros c t Hc. done.
    + intros al Hal. by apply elem_of_nil in Hal.
  - eexists. split; [left|done].
  - intros i j a b _ Hi. done.
Qed.
Lemma alerter_ok_later now now' ea : now ≤ now' → alerter_ok now ea → alerter_ok now' ea.
Proof.
  intros Hn [He (rl & Hr & Hc & Ht & Hs) Hch Hcr Hsp]. split; try done.
  exists rl. split_and!; try done. intros c t Hl. destruct (Ht c t Hl) as [? ?]. split; [lia|done].
Qed.

Lemma targetChannel_some name channels : channels ≠ [] → is_Some (targetChannel name channels).
Proof. intros Hc. unfold targetChannel. destruct (List.find _ _); [done|]. by destruct channels. Qed.

Lemma delivered now a rules channels : channels ≠ [] →
  existsb (λ rule, ar_Condition rule a) rules = true →
  ∃ al, al ∈ (rule_deliveries now a rules channels).*2.
Proof.
  intros Hc Hx. apply existsb_exists in Hx as (rule & Hin & Hr).
  destruct (targetChannel_some (ar_Channel rule) channels Hc) as [c Hch].
  exists (rule_alert now rule a). apply list_elem_of_fmap. exists (c, rule_alert now rule a).
  split; [done|]. apply list_elem_of_omap. exists rule. split.
  - apply list_elem_of_In, filter_In. done.
  - by rewrite Hch.
Qed.

Lemma ProcessError_ok now a ea : alerter_ok now ea → alerter_ok now (ProcessError now a ea).
Proof.
  intros Hok. destruct Hok as [He (rl & Hr & Hc & Ht & Hs) Hch Hcr Hsp] eqn:Eok. clear Eok.
  unfold ProcessError. rewrite He. simpl. destruct (isRateLimited now a ea) eqn:El; [done|].
  destruct (apply_rules_spec now a (ea_rules ea) ea) as (Sent & Chan & Rules & Conf).
  set (ea' := apply_rules now a (ea_rules ea) ea) in *.
  unfold isRateLimited in El. rewrite Hr in El.
  assert (Hnew : spaced (5 * Minute) (ea_sent ea').*2).
  { rewrite Sent, fmap_app. apply spaced_app; [done| |].
    - apply (spaced_same _ _ now). intros al Hal. by apply rule_deliveries_same in Hal as [].
    - intros x y Hx Hy Hxy. apply rule_deliveries_same in Hy as [Hy1 Hy2].
      destruct (Hs x Hx) as (t & Hlt & Hle). rewrite Hxy, Hy2 in Hlt. rewrite Hlt in El.
      apply Z.ltb_ge in El. lia. }
  destruct (existsb (λ rule, ar_Condition rule a) (ea_rules ea)) eqn:Ex.
  - split; rewrite ?Chan, ?Rules, ?Conf; unfold updateRateLimit; rewrite ?Hr; simpl; try done.
    eexists. split_and!; [done|done| |]; simpl.
    + intros c t [[<- <-]|[Hne Hl]]%lookup_insert_Some.
      * split; [lia|]. destruct (delivered now a (ea_rules ea) (ea_channels ea) Hch Ex) as [al Hal].
        exists al. rewrite Sent, fmap_app. destruct (rule_deliveries_same _ _ _ _ _ Hal) as [Hts Hea].
        split_and!; [by apply elem_of_app; right | by rewrite Hea | done].
      * destruct (Ht c t Hl) as [Hle (al & Hal & Hcode & Hts)]. split; [done|]. exists al.
        rewrite Sent, fmap_app. split_and!; [by apply elem_of_app; left | done | done].
    + intros al. rewrite Sent, fmap_app, elem_of_app. intros [Hal|Hal].
      * destruct (Hs al Hal) as (t & Hl & Hle). destruct (Ht _ _ Hl) as [Htn _].
        destruct (decide (ae_Code a = ae_Code (al_Error al))) as [Heq|Hne].
        { exists now. rewrite <- Heq, lookup_insert_eq. split; [done|lia]. }
        exists t. by rewrite lookup_insert_ne.
      * apply rule_deliveries_same in Hal as [Hts Hal]. exists now. rewrite Hal, lookup_insert_eq.
        split; [done|lia].
  - split; rewrite ?Chan, ?Rules, ?Conf; try done. exists rl.
    assert (Hnil : rule_deliveries now a (ea_rules ea) (ea_channels ea) = []).
    { unfold rule_deliveries. clear -Ex. induction (ea_rules ea) as [|r l IH]; [done|]. simpl in *.
      apply orb_false_iff in Ex as [-> Ex]. by apply IH. }
    rewrite Sent, Hnil, app_nil_r. done.
Qed.

Definition logger_ok (s : Z * ErrorLogger) : Prop :=
  el_config s.2 = default GetDefaultErrorLoggingConfig config ∧
  match el_alerter s.2 with
  | Some ea => alerter_ok s.1 ea
  | None => elc_EnableAlerting (el_config s.2) = false
  end.

Lemma log_ok t now el a (f : ErrorLogger → ErrorLogger) rt :
  rt_now rt = now → t ≤ now →
  (∀ x, el_config (f x) = el_config x ∧ el_alerter (f x) = el_alerter x) →
  logger_ok (t, el) → logger_ok (now, send_alerts rt a (f (record_metrics rt a el))).
Proof.
  intros Hnow Ht Hf [Hc Ha]. simpl in *. unfold send_alerts.
  assert (Hrec : el_config (record_metrics rt a el) = el_config el ∧
                 el_alerter (record_metrics rt a el) = el_alerter el)
    by (unfold record_metrics; by case_goal).
  destruct (Hf (record_metrics rt a el)) as [Hxc Hxa], Hrec as [Hrc Hra].
  set (x := f (record_metrics rt a el)) in *. rewrite Hrc in Hxc. rewrite Hra in Hxa.
  unfold logger_ok. rewrite Hxc. destruct (elc_EnableAlerting (el_config el)) eqn:Ee; cbn; rewrite ?Hxc, ?Hxa.
  - split; [done|]. destruct (el_alerter el) as [ea|]; [|done]. simpl. subst now. apply ProcessError_ok.
    by eapply alerter_ok_later.
  - split; [done|]. destruct (el_alerter el); [by eapply alerter_ok_later | done].
Qed.

Lemma logger_reachable_ok t0 s : star logger_step (t0, NewErrorLogger config) s → logger_ok s.
Proof.
  intros Hs. eapply (star_invariant logger_step logger_ok); [| |exact Hs].
  - intros x y Hx Hxy. destruct Hxy; simpl in *.
    + by apply (log_ok t (rt_now rt) el _ (logStructuredError (logged_error rt ctx err)) rt).
    + by apply (log_ok t (rt_now rt) el _ (logStructuredErrorWithFields (logged_error rt ctx err) fields) rt).
    + destruct Hx as [Hc Ha]. split; [done|]. simpl in *. destruct (el_alerter el) as [ea|]; [|done]. simpl.
      destruct Ha as [? ? ? (r & ? & ?) ?]. split; simpl; try done. exists r. split; [by apply elem_of_app; left|done].
    + destruct Hx as [Hc Ha]. split; [done|]. simpl in *. destruct (el_alerter el) as [ea|]; [|done]. simpl.
      destruct Ha as [? ? ? ? ?]. split; simpl; try done. by destruct (ea_channels ea).
  - unfold logger_ok, NewErrorLogger. simpl. split; [done|].
    destruct (elc_EnableAlerting _) eqn:E; [apply alerter_ok_new | done].
Qed.
End runs.

(** Metrics against the list of errors recorded. *)
Definition record_all (evs : list (Z * AuthError)) (em : ErrorMetrics) : ErrorMetrics :=
  foldl (λ em ev, RecordError ev.1 ev.2 em) em evs.

Lemma record_all_snoc evs ev em : record_all (evs ++ [ev]) em = RecordError ev.1 ev.2 (record_all evs em).
Proof. unfold record_all. by rewrite foldl_app. Qed.

Definition occurrences `{EqDecision K} (f : AuthError → K) (k : K) (evs : list (Z * AuthError)) : Z :=
  Z.of_nat (length (filter (λ ev, f ev.2 = k) evs)).

Lemma occurrences_snoc `{EqDecision K} (f : AuthError → K) k evs ev :
  occurrences f k (evs ++ [ev]) = occurrences f k evs + (if decide (f ev.2 = k) then 1 else 0).
Proof.
  unfold occurrences. rewrite filter_app, length_app, filter_cons, filter_nil.
  destruct (decide (f ev.2 = k)); simpl; lia.
Qed.
Lemma occurrences_bounds `{EqDecision K} (f : AuthError → K) k evs :
  0 ≤ occurrences f k evs ≤ Z.of_nat (length evs).
Proof.
  unfold occurrences. pose proof (length_filter (λ ev : Z * AuthError, f ev.2 = k) evs). lia.
Qed.

Lemma bump_count `{Countable K} (f : AuthError → K) k evs ev (m : gmap K Z) :
  Z.of_nat (length (evs ++ [ev])) ≤ max_int →
  (∀ k, default 0 (m !! k) = occurrences f k evs) →
  default 0 (bump (f ev.2) m !! k) = occurrences f k (evs ++ [ev]).
Proof.
  intros Hb Hm. rewrite occurrences_snoc. unfold bump. destruct (decide (f ev.2 = k)) as [<-|Hne].
  - rewrite lookup_insert_eq. simpl. rewrite Hm. apply wrap64_small.
    pose proof (occurrences_bounds f (f ev.2) evs). rewrite length_app in Hb. simpl in Hb.
    unfold min_int, max_int in *. lia.
  - rewrite lookup_insert_ne by done. rewrite Hm. lia.
Qed.

Lemma copy_map_eq `{Countable K} {A} (m : gmap K A) : copy_map m = m.
Proof.
  unfold copy_map.
  assert (Hg : ∀ (l : list (K * A)) (acc : gmap K A), NoDup l.*1 →
    foldl (λ acc kv, <[kv.1 := kv.2]> acc) acc l = (list_to_map l : gmap K A) ∪ acc).
  { induction l as [|[k a] l IH]; intros acc Hd; simpl; [by rewrite (left_id_L ∅ _)|].
    apply NoDup_cons in Hd as [Hk Hd]. rewrite IH by done. apply not_elem_of_list_to_map in Hk.
    rewrite <- insert_union_l. by rewrite insert_union_r. }
  rewrite Hg by apply NoDup_fst_map_to_list.
  by rewrite list_to_map_to_list, (right_id_L ∅ _).
Qed.
Lemma GetSnapshot_eq em : GetSnapshot em = em.
Proof. unfold GetSnapshot. rewrite !copy_map_eq. by destruct em. Qed.

(** ** Properties *)

(** Alerts are sent, and not too often.  In every run of a logger from its
    construction, whatever rules and channels are added, two alerts for one
    error code come from the same call or lie five minutes apart; and when
    alerting is on, logging a critical error leaves an alert for its code not
    older than five minutes. *)
Theorem alerts_respect_cooldown config t0 t el ea rt ctx err :
  star logger_step (t0, NewErrorLogger config) (t, el) → el_alerter el = Some ea → t ≤ rt_now rt →
  spaced (5 * Minute) (ea_sent ea).*2 ∧
  (elc_EnableAlerting (default GetDefaultErrorLoggingConfig config) = true →
   ae_Severity (logged_error rt ctx err) = SeverityCritical →
   ∃ ea' al, el_alerter (LogError rt ctx err el) = Some ea' ∧ al ∈ (ea_sent ea').*2 ∧
     ae_Code (al_Error al) = ae_Code (logged_error rt ctx err) ∧
     rt_now rt - 5 * Minute < al_Timestamp al ≤ rt_now rt).
Proof.
  intros Hs Ha Ht. destruct (logger_reachable_ok _ _ _ Hs) as [Hc Hok]. simpl in *. rewrite Ha in Hok.
  split; [by destruct Hok|]. intros Hen Hcrit.
  set (a := logged_error rt ctx err) in *. exists (ProcessError (rt_now rt) a ea).
  assert (Hea : el_alerter (LogError rt ctx err el) = Some (ProcessError (rt_now rt) a ea)).
  { unfold LogError, send_alerts, record_metrics. cbv zeta. fold a. rewrite Hc.
    destruct (EnableMetrics _); simpl; rewrite ?Hc, Hen, Ha; done. }
  pose proof (alerter_ok_later _ _ _ Ht Hok) as Hlate.
  destruct Hok as [He (rl & Hr & Hcd & Hlt & Hsent) Hch (rule & Hin & Hrule) Hsp].
  unfold ProcessError. rewrite He. simpl. destruct (isRateLimited (rt_now rt) a ea) eqn:El.
  - unfold isRateLimited in El. rewrite Hr in El.
    destruct (LastAlertTime rl !! ae_Code a) as [lt|] eqn:El2; [|done]. apply Z.ltb_lt in El.
    destruct (Hlt _ _ El2) as [Hle (al & Hal & Hcode & Hts)]. exists al.
    unfold ProcessError in Hea. rewrite He in Hea. simpl in Hea. unfold isRateLimited in Hea.
    rewrite Hr, El2 in Hea. apply Z.ltb_lt in El. rewrite El in Hea. apply Z.ltb_lt in El.
    split_and!; [done|done|done|lia|lia].
  - assert (Hx : existsb (λ r, ar_Condition r a) (ea_rules ea) = true).
    { apply existsb_exists. exists rule. split; [by apply list_elem_of_In|]. rewrite Hrule.
      unfold is_critical. by apply bool_decide_eq_true. }
    destruct (apply_rules_spec (rt_now rt) a (ea_rules ea) ea) as (Hsnt & _).
    destruct (delivered (rt_now rt) a (ea_rules ea) (ea_channels ea) Hch Hx) as [al Hal].
    exists al. unfold ProcessError in Hea. rewrite He, El in Hea. simpl in Hea.
    destruct (rule_deliveries_same _ _ _ _ _ Hal) as [Hts Herr].
    split_and!; [done| | by rewrite Herr | unfold Minute, Second, Millisecond; lia | lia].
    rewrite Hsnt, fmap_app. apply elem_of_app. by right.
Qed.

(** The metrics are exact.  After fewer than 2^63 errors the total, and
    the count of every code, severity and category, are the numbers of errors
    recorded; the snapshot is a faithful copy; the error rates, though
    exported, are never computed. *)
Theorem metrics_are_exact evs : Z.of_nat (length evs) ≤ max_int →
  let em := GetSnapshot (record_all evs NewErrorMetrics) in
  em_TotalErrors em = Z.of_nat (length evs) ∧
  (∀ c, default 0 (em_ErrorCounts em !! c) = occurrences ae_Code c evs) ∧
  (∀ s, default 0 (em_SeverityCounts em !! s) =
        occurrences (λ a, severity_string (ae_Severity a)) s evs) ∧
  (∀ c, default 0 (em_CategoryCounts em !! c) =
        occurrences (λ a, category_string (ae_Category a)) c evs) ∧
  em_ErrorRates em = ∅.
Proof.
  rewrite GetSnapshot_eq. induction evs as [|ev evs IH] using rev_ind; intros Hb.
  - simpl. split_and!; try done.
  - destruct IH as (Ht & Hc & Hs & Hk & Hr); [rewrite length_app in Hb; simpl in Hb; lia|].
    rewrite record_all_snoc. simpl. split_and!.
    + rewrite Ht, length_app. simpl. rewrite wrap64_small; [lia|].
      rewrite length_app in Hb. simpl in Hb. unfold min_int, max_int in *. lia.
    + intros c. by apply (bump_count ae_Code).
    + intros s. by apply (bump_count (λ a, severity_string (ae_Severity a))).
    + intros c. by apply (bump_count (λ a, category_string (ae_Category a))).
    + done.
Qed.

(** The thresholds and the limit of alerts per minute are never consulted. *)
Theorem thresholds_are_ignored now a ea th n :
  let with_limits ea := mkErrorAlerter
    (mkAlertingConfig (ac_Enabled (ea_config ea)) (DefaultChannel (ea_config ea)) th
       ((λ rl, mkAlertRateLimiting n (CooldownPeriod rl) (LastAlertTime rl)) <$> RateLimiting (ea_config ea)))
    (ea_channels ea) (ea_rules ea) (ea_sent ea) in
  ProcessError now a (with_limits ea) = with_limits (ProcessError now a ea).
Proof.
  intros wl. unfold ProcessError.
  assert (Hl : isRateLimited now a (wl ea) = isRateLimited now a ea)
    by (unfold isRateLimited, wl; simpl; by destruct (RateLimiting _)).
  rewrite Hl. simpl. destruct (negb _); [done|]. destruct (isRateLimited now a ea); [done|].
  generalize (ea_rules ea) as rules. intros rules. clear Hl. revert ea.
  induction rules as [|r rules IH]; intros ea; simpl; [done|].
  destruct (ar_Condition r a); [|apply IH]. rewrite <- IH. f_equal.
  unfold updateRateLimit, sendAlert, wl. cbn [al_Channel rule_alert ea_channels].
  destruct (targetChannel _ _); simpl; destruct (RateLimiting (ea_config ea)) eqn:E; cbn; rewrite ?E; done.
Qed.

(** ** Witnesses *)

Definition ref_rt (now : Z) : Runtime := mkRuntime now (λ _, None).
Definition ref_ctx : Ctx := mkCtx (λ _, None) None.
Definition ref_critical : error :=
  ErrorAuth (WithSeverity SeverityCritical (NewError (ref_rt 0) ErrorCodeInternal "disk full")).
Definition ref_logger : ErrorLogger := LogError (ref_rt Minute) ref_ctx ref_critical (NewErrorLogger None).
Definition ref_alerter : ErrorAlerter := default (NewErrorAlerter default_alerting) (el_alerter ref_logger).

Example alerts_respect_cooldown_witness :
  spaced (5 * Minute) (ea_sent ref_alerter).*2 ∧ length (ea_sent ref_alerter) = 1%nat.
Proof.
  split; [|reflexivity].
  apply (alerts_respect_cooldown None 0 Minute ref_logger ref_alerter (ref_rt Minute) ref_ctx ref_critical).
  - eapply star_snoc; [constructor|]. apply (ls_log 0 (NewErrorLogger None) (ref_rt Minute)). vm_compute. discriminate.
  - reflexivity.
  - vm_compute. discriminate.
Defined.

Example metrics_are_exact_witness :
  em_TotalErrors (GetSnapshot (record_all [(0, NewError (ref_rt 0) 5 "a"); (1, NewError (ref_rt 1) 5 "b")]
    NewErrorMetrics)) = 2.
Proof.
  apply (metrics_are_exact [(0, NewError (ref_rt 0) 5 "a"); (1, NewError (ref_rt 1) 5 "b")]).
  vm_compute. discriminate.
Defined.
