(* ===== verification/Breaker.v ===== *)
(** * Circuit breakers
    (src/internal/errors/circuit_breaker.go, src/internal/grpc/interceptors/circuit_breaker.go)

    Two managers of [gobreaker.CircuitBreaker]s.  The breaker is third-party:
    a parameter, the class [BreakerLib], with the documented behaviour the code
    relies on in [BreakerLaws].  [Execute] of the library is its documented
    two steps, the admission before the call and the report after it; between
    them the operation may do anything, also replace the breaker in the
    manager, so breakers live in a heap and the managers map names to
    addresses.  The callback [OnStateChange] only logs and is left out. *)

From Stdlib Require Import SpecFloat.
From S2P Require Import Prelude Errors Retry.

#[local] Open Scope Z_scope.

(** [gobreaker.Counts]; the fields are uint32. *)
Record Counts := mkCounts {
  Requests : Z; TotalSuccesses : Z; TotalFailures : Z; ConsecutiveSuccesses : Z; ConsecutiveFailures : Z }.

(** [gobreaker.Settings]. *)
Record Settings := mkSettings {
  st_Name : string; st_MaxRequests : Z; st_Interval : Z; st_Timeout : Z;
  st_ReadyToTrip : Counts → bool; st_IsSuccessful : option error → bool }.

(** [gobreaker.State] is an int; [iota] numbers the constants. *)
Definition gobreaker_StateClosed : Z := 0.
Definition gobreaker_StateHalfOpen : Z := 1.
Definition gobreaker_StateOpen : Z := 2.

(** A breaker: [cb_before] is the admission of a request, with the generation
    it belongs to, and [cb_after] the report of its success or failure. *)
Class BreakerLib (CB : Type) := {
  NewBreaker : Settings → CB;
  cb_State : Z → CB → Z * CB;
  cb_Counts : CB → Counts;
  cb_settings : CB → Settings;
  cb_before : Z → CB → res error Z * CB;
  cb_after : Z → Z → bool → CB → CB;
  state_String : Z → string }.

Class BreakerLaws (CB : Type) `{BreakerLib CB} := {
  new_closed s now : (cb_State now (NewBreaker s)).1 = gobreaker_StateClosed;
  new_settings s : cb_settings (NewBreaker s) = s;
  closed_accepts now cb : (cb_State now cb).1 = gobreaker_StateClosed → is_ok (cb_before now cb).1 = true;
  open_rejects now cb : (cb_State now cb).1 = gobreaker_StateOpen →
    ∃ text, (cb_before now cb).1 = Err (ErrorLib gobreaker_ErrOpenState text);
  reject_reason now cb e : (cb_before now cb).1 = Err e →
    is_sentinel gobreaker_ErrOpenState e = true ∨ is_sentinel gobreaker_ErrTooManyRequests e = true }.

(** ** The manager of package errors *)

Inductive CircuitBreakerState := StateClosed | StateOpen | StateHalfOpen.
Definition stateToString (s : Z) : string :=
  if (s =? gobreaker_StateClosed)%Z then "CLOSED"
  else if (s =? gobreaker_StateOpen)%Z then "OPEN"
  else if (s =? gobreaker_StateHalfOpen)%Z then "HALF_OPEN"
  else "UNKNOWN".

(** [IsSuccessful] is given the error, [None] for nil. *)
Record CircuitBreakerConfig := mkBreakerConfig {
  cbc_Name : string; cbc_MaxRequests : Z; cbc_Interval : Z; cbc_Timeout : Z;
  cbc_ReadyToTrip : Counts → bool; cbc_IsSuccessful : option (option error → bool) }.

Definition is_nil (err : option error) : bool := match err with None => true | Some _ => false end.
(** [RegisterBreaker] fills in the name and the default of [IsSuccessful]. *)
Definition with_defaults (name : string) (c : CircuitBreakerConfig) : CircuitBreakerConfig :=
  mkBreakerConfig name (cbc_MaxRequests c) (cbc_Interval c) (cbc_Timeout c) (cbc_ReadyToTrip c)
    (Some (default is_nil (cbc_IsSuccessful c))).
Definition settings_of (name : string) (c : CircuitBreakerConfig) : Settings :=
  mkSettings name (cbc_MaxRequests c) (cbc_Interval c) (cbc_Timeout c) (cbc_ReadyToTrip c)
    (default is_nil (cbc_IsSuccessful c)).

Record CircuitBreakerManager (CB : Type) := mkManager {
  cbm_heap : list CB; cbm_breakers : gmap string nat; cbm_configs : gmap string CircuitBreakerConfig }.
Arguments mkManager {CB}. Arguments cbm_heap {CB}. Arguments cbm_breakers {CB}. Arguments cbm_configs {CB}.

Section manager.
Context {CB : Type} `{BreakerLib CB} (rt : Runtime).
Abbreviation Mgr := (CircuitBreakerManager CB).

Definition NewCircuitBreakerManager : Mgr := mkManager [] ∅ ∅.

(** A new breaker at a fresh address, installed under [name]. *)
Definition install (name : string) (s : Settings) (m : Mgr) : Mgr :=
  mkManager (cbm_heap m ++ [NewBreaker s]) (<[name := length (cbm_heap m)]> (cbm_breakers m)) (cbm_configs m).
Definition RegisterBreaker (name : string) (config : CircuitBreakerConfig) (m : Mgr) : Mgr :=
  let config := with_defaults name config in
  let m' := install name (settings_of name config) m in
  mkManager (cbm_heap m') (cbm_breakers m') (<[name := config]> (cbm_configs m')).

Definition at_heap (i : nat) (f : CB → CB) (m : Mgr) : Mgr :=
  mkManager (alter f i (cbm_heap m)) (cbm_breakers m) (cbm_configs m).

Definition not_found (code : ErrorCode) (name : string) : error :=
  ErrorAuth (WithRetryable false (WithSeverity SeverityError (WithCategory CategoryCircuitBreaker
    (NewError rt code ("Circuit breaker '" +:+ name +:+ "' not found"))))).
Definition too_many (name : string) : error :=
  ErrorAuth (WithMetadata "service" (MStr name) (WithRetryable true (WithSeverity SeverityWarning
    (WithCategory CategoryCircuitBreaker
      (NewError rt ErrorCodeResourceExhausted ("Too many requests to service: " +:+ name)))))).
Definition execution_failed (name : string) (err : error) : AuthError :=
  WrapError rt err ErrorCodeInternal ("Circuit breaker execution failed for service: " +:+ name).
Definition cancelled_before (ctxErr : error) : error :=
  ErrorAuth (WithRetryable false (WithSeverity SeverityInfo (WithCategory CategoryInternal
    (WithCause (Some ctxErr)
      (NewError rt ErrorCodeCancelled "Context cancelled before circuit breaker execution"))))).

Section run.
Context {W A : Type}.
(** An operation may act on the manager too. *)
Abbreviation op := (Mgr * W → option A * option error * (Mgr * W)).

(** [breaker.Execute(fn)] on the breaker at address [i]: admitted at
    [rt_now rt], reported at [finish]. *)
Definition breaker_Execute (finish : Z) (i : nat) (cb : CB) (fn : op) (s : Mgr * W)
    : option A * option error * (Mgr * W) :=
  let '(m, w) := s in
  match cb_before (rt_now rt) cb with
  | (Err e, cb') => (None, Some e, (at_heap i (λ _, cb') m, w))
  | (Ok generation, cb') =>
      let '(result, err, (m', w')) := fn (at_heap i (λ _, cb') m, w) in
      (result, err, (at_heap i (λ c, cb_after finish generation (st_IsSuccessful (cb_settings cb) err) c) m', w'))
  end.

(** What the managers answer for an outcome of the breaker. *)
Definition translate (name : string) (wrap : AuthError → AuthError)
    (out : option A * option error * (Mgr * W)) : option A * option error * (Mgr * W) :=
  match out with
  | (result, None, s) => (result, None, s)
  | (_, Some err, s) =>
      (None,
       Some (if is_sentinel gobreaker_ErrOpenState err then ErrorAuth (NewCircuitBreakerError rt name)
             else if is_sentinel gobreaker_ErrTooManyRequests err then too_many name
             else ErrorAuth (wrap (execution_failed name err))), s)
  end.

Definition Execute (finish : Z) (name : string) (fn : op) (s : Mgr * W)
    : option A * option error * (Mgr * W) :=
  match cbm_breakers s.1 !! name ≫= λ i, (λ cb, (i, cb)) <$> cbm_heap s.1 !! i with
  | None => (None, Some (not_found ErrorCodeInternal name), s)
  | Some (i, cb) => translate name id (breaker_Execute finish i cb fn s)
  end.

Definition ExecuteWithContext (ctx : Ctx) (finish : Z) (name : string) (fn : op) (s : Mgr * W)
    : option A * option error * (Mgr * W) :=
  match cbm_breakers s.1 !! name ≫= λ i, (λ cb, (i, cb)) <$> cbm_heap s.1 !! i with
  | None => (None, Some (not_found ErrorCodeInternal name), s)
  | Some (i, cb) =>
      match ctx_Err ctx with
      | Some e => (None, Some (cancelled_before e), s)
      | None =>
          translate name (λ a, ErrorFromContext rt ctx (ErrorAuth a)) (breaker_Execute finish i cb fn s)
      end
  end.
End run.

(** The state of a breaker; asking may move it from open to half-open. *)
Definition classify (s : Z) : option CircuitBreakerState :=
  if (s =? gobreaker_StateClosed)%Z then Some StateClosed
  else if (s =? gobreaker_StateOpen)%Z then Some StateOpen
  else if (s =? gobreaker_StateHalfOpen)%Z then Some StateHalfOpen
  else None.
Definition unknown_state (s : Z) : error :=
  ErrorAuth (WithRetryable false (WithSeverity SeverityError (WithCategory CategoryCircuitBreaker
    (NewError rt ErrorCodeUnknown ("Unknown circuit breaker state: " +:+ state_String s))))).
Definition GetState (name : string) : M Mgr CircuitBreakerState := λ m,
  match cbm_breakers m !! name ≫= λ i, (λ cb, (i, cb)) <$> cbm_heap m !! i with
  | None => (Err (not_found ErrorCodeNotFound name), m)
  | Some (i, cb) =>
      let '(s, cb') := cb_State (rt_now rt) cb in
      (match classify s with Some st => Ok st | None => Err (unknown_state s) end, at_heap i (λ _, cb') m)
  end.
Definition GetCounts (name : string) (m : Mgr) : res error Counts :=
  match cbm_breakers m !! name ≫= λ i, cbm_heap m !! i with
  | None => Err (not_found ErrorCodeNotFound name)
  | Some cb => Ok (cb_Counts cb)
  end.
Definition Reset (name : string) : M Mgr unit := λ m,
  match cbm_configs m !! name with
  | None => (Err (not_found ErrorCodeNotFound name), m)
  | Some config => (Ok tt, install name (settings_of name config) m)
  end.

(** The loops over all breakers. *)
Definition state_of_entry (acc : gmap string CircuitBreakerState * Mgr) (entry : string * nat)
    : gmap string CircuitBreakerState * Mgr :=
  let '(states, m) := acc in
  match cbm_heap m !! entry.2 with
  | None => acc
  | Some cb =>
      let '(s, cb') := cb_State (rt_now rt) cb in
      (match classify s with Some st => <[entry.1 := st]> states | None => states end,
       at_heap entry.2 (λ _, cb') m)
  end.
Definition GetAllStates (m : Mgr) : gmap string CircuitBreakerState * Mgr :=
  foldl state_of_entry (∅, m) (map_to_list (cbm_breakers m)).
Definition GetAllCounts (m : Mgr) : gmap string Counts :=
  omap (λ i, cb_Counts <$> cbm_heap m !! i) (cbm_breakers m).
End manager.

(** ** The predefined configurations *)

Definition f_div : float64 → float64 → float64 := SFdiv 53 1024.
(** The literals 0.3, 0.6 and 0.7. *)
Definition f_three_tenths : float64 := f_lit 5404319552844595 (-54).
Definition f_six_tenths : float64 := f_lit 5404319552844595 (-53).
Definition f_seven_tenths : float64 := f_lit 6305039478318694 (-53).

(** [counts.Requests >= least && failureRatio >= ratio]. *)
Definition ratio_trips (least : Z) (ratio : float64) (counts : Counts) : bool :=
  let failureRatio := f_div (f_of_int (TotalFailures counts)) (f_of_int (Requests counts)) in
  (least <=? Requests counts)%Z && SFleb ratio failureRatio.
(** [!(contains(errStr, p1) || ...)]. *)
Definition matches_none (patterns : list string) (err : option error) : bool :=
  match err with None => true | Some e => negb (existsb (contains (Error e)) patterns) end.

Definition GetDefaultDatabaseConfig : CircuitBreakerConfig :=
  mkBreakerConfig "" 10 (30 * Second) (60 * Second) (ratio_trips 5 f_six_tenths)
    (Some (matches_none ["connection refused"; "connection reset"; "timeout"; "connection lost"])).
Definition GetDefaultRedisConfig : CircuitBreakerConfig :=
  mkBreakerConfig "" 15 (20 * Second) (30 * Second) (ratio_trips 3 f_half)
    (Some (matches_none ["connection refused"; "connection reset"; "timeout"; "connection lost"; "redis: nil"])).
Definition GetDefaultKafkaConfig : CircuitBreakerConfig :=
  mkBreakerConfig "" 5 (60 * Second) (120 * Second) (ratio_trips 3 f_seven_tenths)
    (Some (matches_none ["connection refused"; "broker not available"; "timeout"; "network error"])).
Definition GetDefaultGRPCConfig : CircuitBreakerConfig :=
  mkBreakerConfig "" 20 (30 * Second) (60 * Second) (ratio_trips 10 f_three_tenths)
    (Some (λ err, match err with
                  | None => true
                  | Some (ErrorAuth a) =>
                      negb (ae_Code a =? ErrorCodeInternal)%Z && negb (ae_Code a =? ErrorCodeDatabaseError)%Z &&
                      negb (ae_Code a =? ErrorCodeCacheError)%Z
                  | Some _ => false
                  end)).

(** ** The interceptors' manager *)

Module Interceptor.

Record CircuitBreakerConfig := mkInterceptorBreakerConfig {
  MaxRequests : Z; Interval : Z; Timeout : Z; ReadyToTrip : Counts → bool }.

Section manager.
Context {CB : Type} `{BreakerLib CB}.
Abbreviation Mgr := (CircuitBreakerManager CB).

(** No [IsSuccessful] is given: the library counts every error a failure. *)
Definition RegisterBreaker (name : string) (config : CircuitBreakerConfig) (m : Mgr) : Mgr :=
  install name (mkSettings name (MaxRequests config) (Interval config) (Timeout config)
                  (ReadyToTrip config) is_nil) m.

Section run.
Context {W A : Type} (rt : Runtime) (finish : Z).
Abbreviation op := (Mgr * W → option A * option error * (Mgr * W)).

(** Without a breaker of that name the call is not protected. *)
Definition Execute (name : string) (fn : op) (s : Mgr * W) : option A * option error * (Mgr * W) :=
  match cbm_breakers s.1 !! name ≫= λ i, (λ cb, (i, cb)) <$> cbm_heap s.1 !! i with
  | None => fn s
  | Some (i, cb) => breaker_Execute rt finish i cb fn s
  end.

Definition intercept (name : string) (handler : op) (s : Mgr * W)
    : option A * option error * (Mgr * W) :=
  match Execute name handler s with
  | (result, Some err, s') =>
      if is_sentinel gobreaker_ErrOpenState err
      then (None, Some (ErrorStatus Unavailable "service temporarily unavailable"), s')
      else if is_sentinel gobreaker_ErrTooManyRequests err
      then (None, Some (ErrorStatus ResourceExhausted "too many requests"), s')
      else (result, Some err, s')
  | out => out
  end.
Definition UnaryServerInterceptor (handler : op) : op := intercept "grpc-handler" handler.
Definition StreamServerInterceptor (handler : op) : op := intercept "grpc-stream-handler" handler.
End run.
End manager.

Definition GetDefaultDatabaseConfig : CircuitBreakerConfig :=
  mkInterceptorBreakerConfig 3 (30 * Second) (60 * Second) (ratio_trips 3 f_six_tenths).
Definition GetDefaultRedisConfig : CircuitBreakerConfig :=
  mkInterceptorBreakerConfig 5 (10 * Second) (30 * Second) (ratio_trips 5 f_half).
Definition GetDefaultKafkaConfig : CircuitBreakerConfig :=
  mkInterceptorBreakerConfig 2 (20 * Second) (45 * Second) (ratio_trips 2 f_seven_tenths).

(** [setupCircuitBreakers] of the server. *)
Definition grpc_handler_config : CircuitBreakerConfig :=
  mkInterceptorBreakerConfig 10 (30 * Second) (60 * Second) (ratio_trips 10 f_three_tenths).
Definition setupCircuitBreakers `{BreakerLib CB} (m : CircuitBreakerManager CB) : CircuitBreakerManager CB :=
  RegisterBreaker "grpc-handler" grpc_handler_config
    (RegisterBreaker "kafka" GetDefaultKafkaConfig
      (RegisterBreaker "redis" GetDefaultRedisConfig
        (RegisterBreaker "database" GetDefaultDatabaseConfig m))).
End Interceptor.

(** ** Lemmas *)

Section lemmas.
Context {CB : Type} `{BreakerLaws CB}.
Abbreviation Mgr := (CircuitBreakerManager CB).

(** Every name has a breaker of its own. *)
Definition manager_ok (m : Mgr) : Prop :=
  (∀ n i, cbm_breakers m !! n = Some i → (i < length (cbm_heap m))%nat) ∧
  (∀ n n' i, cbm_breakers m !! n = Some i → cbm_breakers m !! n' = Some i → n = n').

(** The breaker of a name. *)
Definition breaker_of (name : string) (m : Mgr) : option (nat * CB) :=
  cbm_breakers m !! name ≫= λ i, (λ cb, (i, cb)) <$> cbm_heap m !! i.

Lemma manager_ok_new : manager_ok NewCircuitBreakerManager.
Proof. by split. Qed.
Lemma install_ok name s m : manager_ok m → manager_ok (install name s m).
Proof.
  intros [Hr Hi]. split; simpl.
  - intros n i Hn. rewrite length_app. simpl. apply lookup_insert_Some in Hn as [[_ <-]|[_ Hn]]; [lia|].
    specialize (Hr n i Hn). lia.
  - intros n n' i Hn Hn'. apply lookup_insert_Some in Hn as [[<- <-]|[Hne Hn]];
      apply lookup_insert_Some in Hn' as [[<- Hn']|[Hne' Hn']]; try done.
    + specialize (Hr n' _ Hn'). lia.
    + subst i. specialize (Hr n _ Hn). lia.
    + by eapply Hi.
Qed.
Lemma RegisterBreaker_ok name c m : manager_ok m → manager_ok (RegisterBreaker name c m).
Proof. intros Hm. destruct (install_ok name (settings_of name (with_defaults name c)) m Hm). by split. Qed.
Lemma at_heap_ok i f m : manager_ok m → manager_ok (at_heap i f m).
Proof. intros [Hr Hi]. split; simpl; [|done]. intros n j. rewrite length_alter. apply Hr. Qed.

Lemma install_lookup name s m : breaker_of name (install name s m) = Some (length (cbm_heap m), NewBreaker s).
Proof. unfold breaker_of. simpl. rewrite lookup_insert_eq. simpl. by rewrite list_lookup_middle. Qed.
Lemma install_other name name' s m : manager_ok m → name ≠ name' →
  breaker_of name' (install name s m) = breaker_of name' m.
Proof.
  intros [Hr _] Hne. unfold breaker_of. simpl. rewrite lookup_insert_ne by done.
  destruct (cbm_breakers m !! name') as [i|] eqn:E; [|done]. simpl.
  by rewrite lookup_app_l by (by eapply Hr).
Qed.
Lemma at_heap_same name i f m cb : breaker_of name m = Some (i, cb) →
  breaker_of name (at_heap i f m) = Some (i, f cb).
Proof.
  unfold breaker_of. simpl. destruct (cbm_breakers m !! name) as [j|]; [|done]. simpl.
  destruct (cbm_heap m !! j) as [c|] eqn:E; [|done]. simpl. intros [= -> ->].
  by rewrite list_lookup_alter_eq, E.
Qed.
Lemma at_heap_other name name' i f m cb : manager_ok m → name ≠ name' → breaker_of name m = Some (i, cb) →
  breaker_of name' (at_heap i f m) = breaker_of name' m.
Proof.
  intros [_ Hi] Hne. unfold breaker_of. simpl. destruct (cbm_breakers m !! name) as [j|] eqn:Ej; [|done]. simpl.
  destruct (cbm_heap m !! j); [|done]. simpl. intros [= -> _].
  destruct (cbm_breakers m !! name') as [k|] eqn:Ek; [|done]. simpl.
  rewrite list_lookup_alter_ne; [done|]. intros ->. apply Hne. by eapply Hi.
Qed.
End lemmas.

(** The failure ratio of the thresholds is the exact rational comparison, for
    every count up to 20 requests. *)
Definition trips_exactly (least num den : Z) (ratio : float64) : bool :=
  forallb (λ r, forallb (λ f, Bool.eqb
      (ratio_trips least ratio (mkCounts r (r - f) f 0 0))
      ((least <=? r)%Z && (num * r <=? den * f)%Z)) (seqZ 0 (r + 1))) (seqZ 1 20).
Lemma ratio_trips_exact :
  trips_exactly 5 3 5 f_six_tenths = true ∧ trips_exactly 3 1 2 f_half = true ∧
  trips_exactly 3 7 10 f_seven_tenths = true ∧ trips_exactly 10 3 10 f_three_tenths = true.
Proof. split_and!; vm_compute; reflexivity. Qed.

(** ** Properties *)

Section properties.
Context {CB : Type} `{BreakerLaws CB}.
Abbreviation Mgr := (CircuitBreakerManager CB).

Lemma GetState_inv rt name (m : Mgr) st : (GetState rt name m).1 = Ok st →
  ∃ i cb, breaker_of name m = Some (i, cb) ∧ classify (cb_State (rt_now rt) cb).1 = Some st.
Proof.
  unfold GetState. fold (breaker_of name m). destruct (breaker_of name m) as [[i cb]|]; [|done].
  intros Hs. exists i, cb. split; [done|]. destruct (cb_State (rt_now rt) cb) as [z cb']. simpl in *.
  destruct (classify z); by simplify_eq/=.
Qed.
Lemma classify_closed z : classify z = Some StateClosed → z = gobreaker_StateClosed.
Proof. unfold classify. destruct (Z.eqb_spec z gobreaker_StateClosed); [done|]. by repeat case_goal. Qed.
Lemma classify_open z : classify z = Some StateOpen → z = gobreaker_StateOpen.
Proof.
  unfold classify. destruct (Z.eqb_spec z gobreaker_StateClosed); [done|].
  destruct (Z.eqb_spec z gobreaker_StateOpen); [done|]. by repeat case_goal.
Qed.

(** What the breaker decides.  While [GetState] answers OPEN an execution
    calls nothing and fails with the circuit breaker error; while it answers
    CLOSED the operation is called once: its success is handed on as it is,
    and an error that is no refusal of a breaker comes back as an internal
    error caused by it. *)
Theorem execution_follows_state {W A} rt ctx finish name (m : Mgr) (w : W)
    (fn : Mgr * W → option A * option error * (Mgr * W)) st :
  (GetState rt name m).1 = Ok st → ctx_Err ctx = None →
  (st = StateOpen → ∃ m', ExecuteWithContext rt ctx finish name fn (m, w) =
     (None, Some (ErrorAuth (NewCircuitBreakerError rt name)), (m', w))) ∧
  (st = StateClosed → ∃ m1, let '(r, err, (m2, w2)) := fn (m1, w) in
     ∃ m3, match err with
           | None => ExecuteWithContext rt ctx finish name fn (m, w) = (r, None, (m3, w2))
           | Some e =>
               is_sentinel gobreaker_ErrOpenState e = false →
               is_sentinel gobreaker_ErrTooManyRequests e = false →
               ∃ a, ExecuteWithContext rt ctx finish name fn (m, w) = (None, Some (ErrorAuth a), (m3, w2)) ∧
                    ae_Code a = ErrorCodeInternal ∧ ae_Cause a = Some e
           end).
Proof.
  intros Hs Hc. destruct (GetState_inv _ _ _ _ Hs) as (i & cb & Hb & Hst).
  unfold ExecuteWithContext. simpl. fold (breaker_of name m). rewrite Hb, Hc. unfold breaker_Execute. split.
  - intros ->. destruct (open_rejects (rt_now rt) cb (classify_open _ Hst)) as [text He].
    destruct (cb_before (rt_now rt) cb) as [r cb']. simpl in He. subst r. by eexists.
  - intros ->. pose proof (closed_accepts (rt_now rt) cb (classify_closed _ Hst)) as Ho.
    destruct (cb_before (rt_now rt) cb) as [[g|] cb']; [|done]. exists (at_heap i (λ _, cb') m).
    destruct (fn _) as [[r err] [m2 w2]]. eexists. destruct err as [e|]; [|done].
    intros He1 He2. unfold translate. rewrite He1, He2. eexists. split; [done|].
    unfold ErrorFromContext, execution_failed, WrapError. simpl.
    by repeat case_goal.
Qed.

(** A reset, like a registration, closes the breaker of that name and touches
    no other. *)
Theorem Reset_closes rt name (m : Mgr) c : manager_ok m → cbm_configs m !! name = Some c →
  let m' := (Reset rt name m).2 in
  manager_ok m' ∧ (GetState rt name m').1 = Ok StateClosed ∧
  ∀ name', name ≠ name' → breaker_of name' m' = breaker_of name' m.
Proof.
  intros Hm Hc. unfold Reset. rewrite Hc. simpl. split_and!.
  - by apply install_ok.
  - unfold GetState. fold (breaker_of name (install name (settings_of name c) m)). rewrite install_lookup.
    pose proof (new_closed (settings_of name c) (rt_now rt)) as Hn.
    destruct (cb_State _ _) as [z cb']. simpl in *. by rewrite Hn.
  - intros name' Hne. by apply install_other.
Qed.

(** The server registers no breaker for streams: the stream interceptor calls
    every handler, whatever failed before. *)
Theorem streams_are_unprotected {W A} rt finish w
    (handler : Mgr * W → option A * option error * (Mgr * W)) :
  let m := Interceptor.setupCircuitBreakers NewCircuitBreakerManager in
  (∀ e, (handler (m, w)).1.2 = Some e → is_sentinel gobreaker_ErrOpenState e = false ∧
                                        is_sentinel gobreaker_ErrTooManyRequests e = false) →
  Interceptor.StreamServerInterceptor rt finish handler (m, w) = handler (m, w).
Proof.
  intros m Hh. unfold Interceptor.StreamServerInterceptor, Interceptor.intercept, Interceptor.Execute.
  change (cbm_breakers (m, w).1 !! "grpc-stream-handler") with (@None nat). simpl.
  destruct (handler (m, w)) as [[r [e|]] s']; [|done]. simpl in Hh.
  by destruct (Hh e eq_refl) as [-> ->].
Qed.

(** While its breaker is open the server calls no unary handler. *)
Theorem open_server_refuses {W A} rt finish (m : Mgr) (w : W)
    (handler : Mgr * W → option A * option error * (Mgr * W)) :
  (GetState rt "grpc-handler" m).1 = Ok StateOpen →
  ∃ m', Interceptor.UnaryServerInterceptor rt finish handler (m, w) =
    (None, Some (ErrorStatus Unavailable "service temporarily unavailable"), (m', w)).
Proof.
  intros Hs. destruct (GetState_inv _ _ _ _ Hs) as (i & cb & Hb & Hst).
  destruct (open_rejects (rt_now rt) cb (classify_open _ Hst)) as [text He].
  unfold Interceptor.UnaryServerInterceptor, Interceptor.intercept, Interceptor.Execute. simpl.
  fold (breaker_of "grpc-handler" m). rewrite Hb. unfold breaker_Execute.
  destruct (cb_before (rt_now rt) cb) as [r cb']. simpl in He. subst r. by eexists.
Qed.
End properties.

(** ** A breaker by the documented rules, for the witnesses *)

Record ref_cb := mkRefCb {
  rb_settings : Settings; rb_state : Z; rb_generation : Z; rb_counts : Counts; rb_expiry : Z }.
Definition no_counts : Counts := mkCounts 0 0 0 0 0.
Definition ref_current (now : Z) (b : ref_cb) : ref_cb :=
  if (rb_state b =? gobreaker_StateOpen)%Z && (rb_expiry b <? now)%Z
  then mkRefCb (rb_settings b) gobreaker_StateHalfOpen (rb_generation b + 1) no_counts 0 else b.
Definition ref_before (now : Z) (b : ref_cb) : res error Z * ref_cb :=
  let b := ref_current now b in
  if (rb_state b =? gobreaker_StateOpen)%Z
  then (Err (ErrorLib gobreaker_ErrOpenState "circuit breaker is open"), b)
  else if (rb_state b =? gobreaker_StateHalfOpen)%Z && (st_MaxRequests (rb_settings b) <=? Requests (rb_counts b))%Z
  then (Err (ErrorLib gobreaker_ErrTooManyRequests "too many requests"), b)
  else let '(mkCounts n s f cs cf) := rb_counts b in
       (Ok (rb_generation b),
        mkRefCb (rb_settings b) (rb_state b) (rb_generation b) (mkCounts (n + 1) s f cs cf) (rb_expiry b)).
Definition ref_after (now generation : Z) (success : bool) (b : ref_cb) : ref_cb :=
  let b := ref_current now b in
  let '(mkCounts n s f cs cf) := rb_counts b in
  if negb (rb_generation b =? generation)%Z then b
  else if success then
    if (rb_state b =? gobreaker_StateHalfOpen)%Z && (st_MaxRequests (rb_settings b) <=? cs + 1)%Z
    then mkRefCb (rb_settings b) gobreaker_StateClosed (rb_generation b + 1) no_counts 0
    else mkRefCb (rb_settings b) (rb_state b) (rb_generation b) (mkCounts n (s + 1) f (cs + 1) 0) (rb_expiry b)
  else
    let counts := mkCounts n s (f + 1) 0 (cf + 1) in
    if (rb_state b =? gobreaker_StateHalfOpen)%Z || st_ReadyToTrip (rb_settings b) counts
    then mkRefCb (rb_settings b) gobreaker_StateOpen (rb_generation b + 1) no_counts
           (now + st_Timeout (rb_settings b))
    else mkRefCb (rb_settings b) (rb_state b) (rb_generation b) counts (rb_expiry b).
#[local] Instance ref_breaker : BreakerLib ref_cb := {
  NewBreaker s := mkRefCb s gobreaker_StateClosed 0 no_counts 0;
  cb_State now b := let b := ref_current now b in (rb_state b, b);
  cb_Counts := rb_counts; cb_settings := rb_settings;
  cb_before := ref_before; cb_after := ref_after;
  state_String z := "unknown state: " +:+ Itoa z }.
#[local, refine] Instance ref_breaker_laws : BreakerLaws ref_cb := {}.
Proof.
  - done.
  - done.
  - intros now b Hs. simpl in *. unfold ref_before. rewrite Hs. simpl. by destruct (rb_counts _).
  - intros now b Hs. simpl in *. unfold ref_before. rewrite Hs. simpl. by eexists.
  - intros now b e. simpl. unfold ref_before. cbv zeta. destruct (_ =? gobreaker_StateOpen)%Z.
    + intros [= <-]. by left.
    + destruct (_ && _); [intros [= <-]; by right|]. by destruct (rb_counts _).
Defined.

Definition ref_clock (now : Z) : Runtime := mkRuntime now (λ _, None).
Definition ref_live_ctx : Ctx := mkCtx (λ _, None) None.
Abbreviation RMgr := (CircuitBreakerManager ref_cb).
Definition ref_down : RMgr * nat → option Z * option error * (RMgr * nat) :=
  λ s, (None, Some (ErrorString "dial tcp: connection refused"), (s.1, S s.2)).
(** A manager after [n] failing calls of the database. *)
Fixpoint ref_failing (n : nat) (s : RMgr * nat) : RMgr * nat :=
  match n with
  | O => s
  | S n' => (ExecuteWithContext (ref_clock Second) ref_live_ctx Second "database" ref_down (ref_failing n' s)).2
  end.
Definition ref_database : RMgr :=
  RegisterBreaker "database" GetDefaultDatabaseConfig NewCircuitBreakerManager.

(** Five refused connections open the database breaker; the sixth execution
    calls nothing. *)
Example execution_follows_state_witness :
  (ref_failing 5 (ref_database, 0%nat)).2 = 5%nat ∧
  ∃ m', ExecuteWithContext (ref_clock Second) ref_live_ctx Second "database" ref_down
          (ref_failing 5 (ref_database, 0%nat)) =
        (None, Some (ErrorAuth (NewCircuitBreakerError (ref_clock Second) "database")), (m', 5%nat)).
Proof.
  assert (Hc : (ref_failing 5 (ref_database, 0%nat)).2 = 5%nat) by vm_refl. split; [exact Hc|].
  assert (Hs : (GetState (ref_clock Second) "database" (ref_failing 5 (ref_database, 0%nat)).1).1 = Ok StateOpen)
    by vm_refl.
  rewrite (surjective_pairing (ref_failing 5 (ref_database, 0%nat))), Hc.
  by apply (execution_follows_state (ref_clock Second) ref_live_ctx Second "database"
    (ref_failing 5 (ref_database, 0%nat)).1 5%nat ref_down StateOpen).
Defined.
