(* ===== verification/Recovery.v ===== *)
(** * Error recovery and the error handler
    (src/internal/errors/recovery.go, handler.go)

    The recovery manager runs an operation under the strategy registered for
    its service.  Its states and its bulkhead channels are shared by pointer
    and a registration replaces them while operations are under way, so they
    live in heaps and the tables hold addresses.  An operation may act on the
    whole state; [rt] is the runtime as it is when the operation has returned.
    An answer [None] is a panic.

    [ErrorHandler] puts recovery, circuit breakers (Breaker.v), retries
    (Retry.v) and the error logger (ErrorLogging.v) behind one call. *)

From S2P Require Import Prelude Errors Retry ErrorLogging Breaker.

#[local] Open Scope Z_scope.

Inductive RecoveryStrategy :=
| StrategyFailFast | StrategyGracefulDegradation | StrategyFallback | StrategyRetryWithBackoff
| StrategyCircuitBreaker | StrategyBulkhead | StrategyOther (s : string).
Definition strategy_string (s : RecoveryStrategy) : string :=
  match s with
  | StrategyFailFast => "FAIL_FAST" | StrategyGracefulDegradation => "GRACEFUL_DEGRADATION"
  | StrategyFallback => "FALLBACK" | StrategyRetryWithBackoff => "RETRY_WITH_BACKOFF"
  | StrategyCircuitBreaker => "CIRCUIT_BREAKER" | StrategyBulkhead => "BULKHEAD"
  | StrategyOther s => s
  end.

Record GracefulDegradationConfig (A : Type) := mkGracefulConfig {
  ReducedFunctionality : gmap string bool; FallbackData : option A; MaxDegradationTime : Z }.
Arguments mkGracefulConfig {A}. Arguments FallbackData {A}. Arguments MaxDegradationTime {A}.
Arguments ReducedFunctionality {A}.
Record BulkheadConfig := mkBulkheadConfig {
  MaxConcurrentRequests : Z; TimeoutPerRequest : Z; QueueSize : Z }.

(** The callbacks act on the state outside the manager, of type [X]. *)
Record RecoveryConfig (A X : Type) := mkRecoveryConfig {
  rcf_Strategy : RecoveryStrategy;
  rcf_FallbackFunction : option (Runtime → Ctx → error → X → option A * option error * X);
  rcf_RetryConfig : option RetryConfig;
  rcf_CircuitBreakerConfig : option CircuitBreakerConfig;
  rcf_GracefulDegradationConfig : option (GracefulDegradationConfig A);
  rcf_BulkheadConfig : option BulkheadConfig;
  rcf_OnRecovery : option (Runtime → RecoveryStrategy → option error → bool → X → X) }.
Arguments mkRecoveryConfig {A X}. Arguments rcf_Strategy {A X}. Arguments rcf_FallbackFunction {A X}.
Arguments rcf_RetryConfig {A X}. Arguments rcf_CircuitBreakerConfig {A X}.
Arguments rcf_GracefulDegradationConfig {A X}. Arguments rcf_BulkheadConfig {A X}.
Arguments rcf_OnRecovery {A X}.

(** A zero [time.Time] is [None]. *)
Record RecoveryState := mkRecoveryState {
  rs_ServiceName : string; rs_Strategy : RecoveryStrategy; rs_LastFailure : option Z;
  rs_FailureCount : Z; rs_RecoveryAttempts : Z; rs_InDegradedMode : bool;
  rs_DegradationStart : option Z; rs_LastRecoveryTime : option Z }.

(** A bulkhead channel: its capacity and the tokens in it. *)
Record Bulkhead := mkBulkhead { bh_cap : Z; bh_used : Z }.

Record RecoveryManager (A X : Type) := mkRecoveryManager {
  strategies : gmap string (RecoveryConfig A X);
  recoveryStates : gmap string nat; states : list RecoveryState;
  bulkheads : gmap string nat; channels : list Bulkhead }.
Arguments mkRecoveryManager {A X}. Arguments strategies {A X}. Arguments recoveryStates {A X}.
Arguments states {A X}. Arguments bulkheads {A X}. Arguments channels {A X}.

Section recovery.
Context {CB : Type} `{BreakerLib CB} {A X : Type}.
Abbreviation RM := (RecoveryManager A X).
Abbreviation W := (RM * X)%type.
Abbreviation answer := (option A * option error * W)%type.
(** An operation is given the timeout put on its context, if any. *)
Abbreviation op := (option Z → W → answer).

Definition NewRecoveryManager : RM := mkRecoveryManager ∅ ∅ [] ∅ [].

(** [make] panics on a negative capacity; the tables are set before it. *)
Definition RegisterRecoveryStrategy (serviceName : string) (config : RecoveryConfig A X) (rm : RM)
    : option RM :=
  let rm1 := mkRecoveryManager (<[serviceName := config]> (strategies rm))
    (<[serviceName := length (states rm)]> (recoveryStates rm))
    (states rm ++ [mkRecoveryState serviceName (rcf_Strategy config) None 0 0 false None None])
    (bulkheads rm) (channels rm) in
  match rcf_Strategy config, rcf_BulkheadConfig config with
  | StrategyBulkhead, Some b =>
      if (MaxConcurrentRequests b <? 0)%Z then None
      else Some (mkRecoveryManager (strategies rm1) (recoveryStates rm1) (states rm1)
                   (<[serviceName := length (channels rm)]> (bulkheads rm))
                   (channels rm ++ [mkBulkhead (MaxConcurrentRequests b) 0]))
  | _, _ => Some rm1
  end.

Definition set_config (serviceName : string) (c : RecoveryConfig A X) (rm : RM) : RM :=
  mkRecoveryManager (<[serviceName := c]> (strategies rm)) (recoveryStates rm) (states rm)
    (bulkheads rm) (channels rm).
Definition at_state (i : nat) (f : RecoveryState → RecoveryState) (rm : RM) : RM :=
  mkRecoveryManager (strategies rm) (recoveryStates rm) (alter f i (states rm)) (bulkheads rm) (channels rm).
Definition at_channel (i : nat) (f : Bulkhead → Bulkhead) (rm : RM) : RM :=
  mkRecoveryManager (strategies rm) (recoveryStates rm) (states rm) (bulkheads rm) (alter f i (channels rm)).

Context (rt : Runtime) (ctx : Ctx).

Definition updateFailureState (s : RecoveryState) : RecoveryState :=
  mkRecoveryState (rs_ServiceName s) (rs_Strategy s) (Some (rt_now rt)) (wrap64 (rs_FailureCount s + 1))
    (rs_RecoveryAttempts s) (rs_InDegradedMode s) (rs_DegradationStart s) (rs_LastRecoveryTime s).
Definition enter_degraded (s : RecoveryState) : RecoveryState :=
  if rs_InDegradedMode s then s
  else mkRecoveryState (rs_ServiceName s) (rs_Strategy s) (rs_LastFailure s) (rs_FailureCount s)
         (rs_RecoveryAttempts s) true (Some (rt_now rt)) (rs_LastRecoveryTime s).
Definition leave_degraded (s : RecoveryState) : RecoveryState :=
  if rs_InDegradedMode s
  then mkRecoveryState (rs_ServiceName s) (rs_Strategy s) (rs_LastFailure s) (rs_FailureCount s)
         (rs_RecoveryAttempts s) false (rs_DegradationStart s) (Some (rt_now rt))
  else s.
Definition recovered_state (s : RecoveryState) : RecoveryState :=
  mkRecoveryState (rs_ServiceName s) (rs_Strategy s) (rs_LastFailure s) (rs_FailureCount s)
    (wrap64 (rs_RecoveryAttempts s + 1)) (rs_InDegradedMode s) (rs_DegradationStart s) (Some (rt_now rt)).

(** [time.Since], which saturates at the largest duration. *)
Definition Since (t : option Z) : Z := match t with None => max_int | Some t => rt_now rt - t end.

Definition on_recovery (config : RecoveryConfig A X) (strategy : RecoveryStrategy) (err : option error)
    (recovered : bool) (w : W) : W :=
  match rcf_OnRecovery config with
  | Some f => (w.1, f rt strategy err recovered w.2)
  | None => w
  end.
Definition on_state (i : nat) (f : RecoveryState → RecoveryState) (w : W) : W := (at_state i f w.1, w.2).

Section strategies.
Context (serviceName : string) (operation : op) (config : RecoveryConfig A X) (i : nat).

Definition executeFailFast (w : W) : answer :=
  match operation None w with
  | (result, Some err, w1) => (result, Some err, on_state i updateFailureState w1)
  | out => out
  end.

Definition limit_exceeded (err : error) : error :=
  ErrorAuth (WithRetryable false (WithSeverity SeverityError (WithCategory CategoryInternal
    (WithCause (Some err) (NewError rt ErrorCodeUnavailable
      ("Service " +:+ serviceName +:+ " degradation time limit exceeded")))))).
(** [rcf] is [config.GracefulDegradationConfig]. *)
Definition too_long (start : option Z) : bool :=
  match rcf_GracefulDegradationConfig config with
  | Some g => (0 <? MaxDegradationTime g)%Z && (MaxDegradationTime g <? Since start)%Z
  | None => false
  end.
Definition fallback_data : option A :=
  match rcf_GracefulDegradationConfig config with Some g => FallbackData g | None => None end.
Definition executeGracefulDegradation (w : W) : answer :=
  match operation None w with
  | (_, Some err, w1) =>
      let w2 := on_state i (λ s, enter_degraded (updateFailureState s)) w1 in
      let start := states w2.1 !! i ≫= rs_DegradationStart in
      if too_long start then (None, Some (limit_exceeded err), w2)
      else match fallback_data with
           | Some d => (Some d, None, w2)
           | None => (None, Some err, w2)
           end
  | (result, None, w1) => (result, None, on_state i leave_degraded w1)
  end.

Definition executeFallback (w : W) : answer :=
  match operation None w with
  | (_, Some err, w1) =>
      let w2 := on_state i updateFailureState w1 in
      match rcf_FallbackFunction config with
      | Some fb =>
          match fb rt ctx err w2.2 with
          | (fallbackResult, None, x) =>
              (fallbackResult, None,
               on_recovery config StrategyFallback (Some err) true (on_state i recovered_state (w2.1, x)))
          | (_, Some fallbackErr, x) =>
              (None, Some fallbackErr, on_recovery config StrategyFallback (Some err) false (w2.1, x))
          end
      | None => (None, Some err, w2)
      end
  | (result, None, w1) => (result, None, w1)
  end.

(** The bookkeeping after a retried, broken or bulkheaded operation. *)
Definition settle (strategy : RecoveryStrategy) (out : answer) : answer :=
  match out with
  | (result, Some err, w1) =>
      (result, Some err, on_recovery config strategy (Some err) false (on_state i updateFailureState w1))
  | (result, None, w1) =>
      (result, None, on_recovery config strategy None true (on_state i recovered_state w1))
  end.

Definition executeRetryWithBackoff (env : RetryEnv) (w : W) : answer :=
  let w0 := match rcf_RetryConfig config with
            | Some _ => w
            | None => (set_config serviceName
                 (mkRecoveryConfig (rcf_Strategy config) (rcf_FallbackFunction config)
                    (Some GetDefaultRetryConfig) (rcf_CircuitBreakerConfig config)
                    (rcf_GracefulDegradationConfig config) (rcf_BulkheadConfig config)
                    (rcf_OnRecovery config)) w.1, w.2)
            end in
  let retryManager := NewRetryManager (Some (default GetDefaultRetryConfig (rcf_RetryConfig config))) in
  let '(result, err, w1, _) := ExecuteWithResultAndContext rt retryManager env (operation None) w0 in
  settle StrategyRetryWithBackoff (result, err, w1).

(** The breaker manager is created for this call; registering a breaker in it
    completes the caller's configuration. *)
Definition executeCircuitBreaker (w : W) : answer :=
  let cbConfig := default GetDefaultDatabaseConfig (rcf_CircuitBreakerConfig config) in
  let w0 := (set_config serviceName
       (mkRecoveryConfig (rcf_Strategy config) (rcf_FallbackFunction config) (rcf_RetryConfig config)
          (Some (with_defaults serviceName cbConfig)) (rcf_GracefulDegradationConfig config)
          (rcf_BulkheadConfig config) (rcf_OnRecovery config)) w.1, w.2) in
  let cbManager : CircuitBreakerManager CB := RegisterBreaker serviceName cbConfig NewCircuitBreakerManager in
  let fn s := let '(result, err, w') := operation None s.2 in (result, err, (s.1, w')) in
  let '(result, err, (_, w1)) :=
    Breaker.ExecuteWithContext rt ctx (rt_now rt) serviceName fn (cbManager, w0) in
  settle StrategyCircuitBreaker (result, err, w1).

(** The [select]: which of its ready cases it takes is not determined;
    [prefer_done] says that a context that has ended wins over a free slot. *)
Inductive selected := Acquired | Cancelled (e : error) | Rejected.
Definition select_bulkhead (prefer_done : bool) (b : Bulkhead) : selected :=
  let room := (bh_used b <? bh_cap b)%Z in
  match ctx_Err ctx with
  | Some e => if room && negb prefer_done then Acquired else Cancelled e
  | None => if room then Acquired else Rejected
  end.
Definition acquire (b : Bulkhead) : Bulkhead := mkBulkhead (bh_cap b) (bh_used b + 1).
Definition release (b : Bulkhead) : Bulkhead := mkBulkhead (bh_cap b) (bh_used b - 1).
Definition on_channel (ch : nat) (f : Bulkhead → Bulkhead) (w : W) : W := (at_channel ch f w.1, w.2).

Definition acquisition_cancelled (e : error) : error :=
  ErrorAuth (WithRetryable true (WithSeverity SeverityWarning (WithCategory CategoryInternal
    (WithCause (Some e) (NewError rt ErrorCodeResourceExhausted
      ("Bulkhead semaphore acquisition cancelled for service: " +:+ serviceName)))))).
Definition capacity_exceeded (b : BulkheadConfig) : error :=
  ErrorAuth (WithMetadata "max_concurrent" (MInt (MaxConcurrentRequests b)) (WithRetryable true
    (WithSeverity SeverityWarning (WithCategory CategoryInternal (NewError rt ErrorCodeResourceExhausted
      ("Bulkhead capacity exceeded for service: " +:+ serviceName)))))).

Definition request_timeout : option Z :=
  match rcf_BulkheadConfig config with
  | Some b => if (0 <? TimeoutPerRequest b)%Z then Some (TimeoutPerRequest b) else None
  | None => None
  end.
Definition executeBulkhead (prefer_done : bool) (w : W) : option answer :=
  match bulkheads w.1 !! serviceName ≫= λ ch, (λ b, (ch, b)) <$> channels w.1 !! ch with
  | None => Some (operation None w)
  | Some (ch, b) =>
      match select_bulkhead prefer_done b with
      | Acquired =>
          let '(result, err, w1) :=
            settle StrategyBulkhead (operation request_timeout (on_channel ch acquire w)) in
          Some (result, err, on_channel ch release w1)
      | Cancelled e =>
          Some (None, Some (acquisition_cancelled e), on_state i updateFailureState w)
      | Rejected =>
          match rcf_BulkheadConfig config with
          | Some b => Some (None, Some (capacity_exceeded b), on_state i updateFailureState w)
          | None => None                                   (* nil dereference *)
          end
      end
  end.
End strategies.

Definition ExecuteWithRecovery (env : RetryEnv) (prefer_done : bool) (serviceName : string)
    (operation : op) (w : W) : option answer :=
  match strategies w.1 !! serviceName with
  | None => Some (operation None w)
  | Some config =>
      let i := default 0%nat (recoveryStates w.1 !! serviceName) in
      match rcf_Strategy config with
      | StrategyFailFast => Some (executeFailFast operation i w)
      | StrategyGracefulDegradation => Some (executeGracefulDegradation serviceName operation config i w)
      | StrategyFallback => Some (executeFallback operation config i w)
      | StrategyRetryWithBackoff => Some (executeRetryWithBackoff serviceName operation config i env w)
      | StrategyCircuitBreaker => Some (executeCircuitBreaker serviceName operation config i w)
      | StrategyBulkhead => executeBulkhead serviceName operation config i prefer_done w
      | StrategyOther _ => Some (operation None w)
      end
  end.

(** [GetRecoveryState] returns a copy. *)
Definition state_missing (serviceName : string) : error :=
  ErrorAuth (WithRetryable false (WithSeverity SeverityWarning (WithCategory CategoryInternal
    (NewError rt ErrorCodeNotFound ("Recovery state not found for service: " +:+ serviceName))))).
Definition GetRecoveryState (serviceName : string) (rm : RM) : res error RecoveryState :=
  match recoveryStates rm !! serviceName ≫= λ i, states rm !! i with
  | Some s => Ok s
  | None => Err (state_missing serviceName)
  end.
Definition GetAllRecoveryStates (rm : RM) : gmap string RecoveryState :=
  omap (λ i, states rm !! i) (recoveryStates rm).
Definition reset_state (s : RecoveryState) : RecoveryState :=
  mkRecoveryState (rs_ServiceName s) (rs_Strategy s) None 0 0 false None None.
Definition ResetRecoveryState (serviceName : string) : M RM unit := λ rm,
  match recoveryStates rm !! serviceName with
  | None => (Err (state_missing serviceName), rm)
  | Some i => (Ok tt, at_state i reset_state rm)
  end.

Definition isHealthy (s : RecoveryState) : bool :=
  negb (match rs_LastFailure s with Some t => (rt_now rt - t <? 5 * Minute)%Z | None => false end) &&
  negb (rs_InDegradedMode s) && negb (10 <? rs_FailureCount s)%Z.
Definition RecoveryManager_HealthCheck (rm : RM) : gmap string bool :=
  isHealthy <$> GetAllRecoveryStates rm.
End recovery.

(** ** The error handler *)

Record ErrorHandlerConfig := mkErrorHandlerConfig {
  EnableCircuitBreaker : bool; EnableRetry : bool; EnableRecovery : bool; EnableLogging : bool;
  ehc_EnableAlerting : bool; DefaultRetryConfig : option RetryConfig;
  ehc_ErrorLoggingConfig : option ErrorLoggingConfig }.
Definition GetDefaultErrorHandlerConfig : ErrorHandlerConfig :=
  mkErrorHandlerConfig true true true true true (Some GetDefaultRetryConfig)
    (Some GetDefaultErrorLoggingConfig).

(** What the handler keeps besides its two managers: the logger, the number of
    global error handlers, the goroutines that were started for them, and the
    state [Y] outside.  A manager or the logger is nil exactly when the
    configuration disables it. *)
Record HandlerRest (Y : Type) := mkRest {
  eh_logger : ErrorLogger; GlobalErrorHandlers : nat; eh_started : list (nat * AuthError); eh_out : Y }.
Arguments mkRest {Y}. Arguments eh_logger {Y}. Arguments GlobalErrorHandlers {Y}.
Arguments eh_started {Y}. Arguments eh_out {Y}.

Section handler.
Context {CB : Type} `{BreakerLib CB} {A Y : Type}.
Abbreviation Rest := (HandlerRest Y).
Abbreviation HX := (CircuitBreakerManager CB * Rest)%type.
Abbreviation HM := (RecoveryManager A HX).
Abbreviation EH := (HM * HX)%type.
Abbreviation answer := (option A * option error * EH)%type.
Abbreviation op := (option Z → EH → answer).

Definition on_rest (f : Rest → Rest) (x : HX) : HX := (x.1, f x.2).
Definition log (rt : Runtime) (ctx : Ctx) (err : error) (r : Rest) : Rest :=
  mkRest (LogError rt ctx err (eh_logger r)) (GlobalErrorHandlers r) (eh_started r) (eh_out r).

(** [OnRecovery] of a default strategy; [context.Background()] holds nothing. *)
Definition background : Ctx := mkCtx (λ _, None) None.
Definition report (cat : ErrorCategory) (failure : ErrorCode) (sev : ErrorSeverity) (name : string)
    (logging : bool) (rt : Runtime) (strategy : RecoveryStrategy) (err : option error) (recovered : bool)
    (x : HX) : HX :=
  if negb logging then x
  else
    on_rest (log rt background (ErrorAuth
      (if recovered
       then WithMetadata "strategy" (MStr (strategy_string strategy)) (WithRetryable false
              (WithSeverity SeverityInfo (WithCategory cat
                (NewError rt ErrorCodeOK (name +:+ " recovery successful")))))
       else WithMetadata "strategy" (MStr (strategy_string strategy)) (WithRetryable true
              (WithSeverity sev (WithCategory cat (WithCause err
                (NewError rt failure (name +:+ " recovery failed")))))))) ) x.

Definition database_strategy (logging : bool) : RecoveryConfig A HX :=
  mkRecoveryConfig StrategyRetryWithBackoff None (Some GetDatabaseRetryConfig)
    (Some GetDefaultDatabaseConfig) None None
    (Some (report CategoryDatabase ErrorCodeDatabaseError SeverityError "Database" logging)).
Definition cache_strategy (logging : bool) : RecoveryConfig A HX :=
  mkRecoveryConfig StrategyGracefulDegradation None (Some GetCacheRetryConfig) None
    (Some (mkGracefulConfig (<["read_through" := true]> (<["write_through" := false]> ∅)) None (10 * Minute)))
    None
    (Some (report CategoryCache ErrorCodeCacheError SeverityWarning "Cache" logging)).
Definition stored_locally (rt : Runtime) (ctx : Ctx) (err : error) (x : HX) : option A * option error * HX :=
  (None, Some (ErrorAuth (WithRetryable false (WithSeverity SeverityInfo (WithCategory CategoryExternal
     (NewError rt ErrorCodeOK "Event stored locally for later retry"))))), x).
Definition events_strategy (logging : bool) : RecoveryConfig A HX :=
  mkRecoveryConfig StrategyRetryWithBackoff (Some stored_locally) (Some GetEventRetryConfig) None None None
    (Some (report CategoryExternal ErrorCodeEventPublishError SeverityWarning "Event publishing" logging)).

(** None of the three is a bulkhead, so no registration can panic. *)
Definition register (name : string) (c : RecoveryConfig A HX) (rm : HM) : HM :=
  default rm (RegisterRecoveryStrategy name c rm).
Definition registerDefaultRecoveryStrategies (logging : bool) (rm : HM) : HM :=
  register "events" (events_strategy logging)
    (register "cache" (cache_strategy logging) (register "database" (database_strategy logging) rm)).

Definition NewErrorHandler (config : ErrorHandlerConfig) (y : Y) : EH :=
  let breakers : CircuitBreakerManager CB :=
    if EnableCircuitBreaker config
    then RegisterBreaker "kafka" GetDefaultKafkaConfig
           (RegisterBreaker "redis" GetDefaultRedisConfig
             (RegisterBreaker "database" GetDefaultDatabaseConfig NewCircuitBreakerManager))
    else NewCircuitBreakerManager in
  let rm := if EnableRecovery config
            then registerDefaultRecoveryStrategies (EnableLogging config) NewRecoveryManager
            else NewRecoveryManager in
  (rm, (breakers, mkRest (NewErrorLogger (ehc_ErrorLoggingConfig config)) 0 [] y)).

Context (config : ErrorHandlerConfig) (rt : Runtime) (ctx : Ctx).

(** One goroutine per global handler. *)
Definition processGlobalHandlers (a : AuthError) (r : Rest) : Rest :=
  mkRest (eh_logger r) (GlobalErrorHandlers r)
    (eh_started r ++ ((λ i, (i, a)) <$> seq 0 (GlobalErrorHandlers r))) (eh_out r).
Definition AddGlobalErrorHandler (r : Rest) : Rest :=
  mkRest (eh_logger r) (S (GlobalErrorHandlers r)) (eh_started r) (eh_out r).
(** Such a goroutine ends; a panic of its handler is recovered and logged. *)
Definition handler_goroutine (i : nat) (panicked : option string) (r : Rest) : Rest :=
  let r' := mkRest (eh_logger r) (GlobalErrorHandlers r)
              (take i (eh_started r) ++ drop (S i) (eh_started r)) (eh_out r) in
  match panicked with
  | Some text =>
      if EnableLogging config
      then log rt ctx (ErrorAuth (WithRetryable false (WithSeverity SeverityCritical
             (WithCategory CategoryInternal (NewError rt ErrorCodeInternal
               ("Panic in global error handler: " +:+ text)))))) r'
      else r'
  | None => r'
  end.

Definition handled_error (err : error) : AuthError := ErrorFromContext rt ctx (ErrorAuth (GetAuthError rt err)).
Definition HandleError (err : option error) (s : EH) : option AuthError * EH :=
  match err with
  | None => (None, s)
  | Some err =>
      let a := handled_error err in
      let s1 := (s.1, on_rest (processGlobalHandlers a) s.2) in
      (Some a, if EnableLogging config then (s1.1, on_rest (log rt ctx (ErrorAuth a)) s1.2) else s1)
  end.

(** [updateFailureState] is applied to the copy that [GetRecoveryState]
    returned; the updated copy is dropped. *)
Definition HandleErrorWithRecovery (serviceName : string) (err : option error) (s : EH)
    : option AuthError * EH :=
  match HandleError err s with
  | (None, s1) => (None, s1)
  | (Some a, s1) =>
      if EnableRecovery config then
        match GetRecoveryState rt serviceName s1.1 with
        | Ok state_copy => let _ := updateFailureState rt state_copy in (Some a, s1)
        | Err _ => (Some a, s1)
        end
      else (Some a, s1)
  end.

(** An operation's answer with its error handled. *)
Definition handle_answer (out : answer) : answer :=
  match out with
  | (result, Some err, s) =>
      let '(a, s') := HandleError (Some err) s in (result, ErrorAuth <$> a, s')
  | out => out
  end.

Definition with_breaker (serviceName : string) (operation : op) (s : EH) : answer :=
  let fn st := let '(m, (rm, r)) := st in
               let '(result, err, (rm', (m', r'))) := operation None (rm, (m, r)) in
               (result, err, (m', (rm', r'))) in
  let '(result, err, (m', (rm', r'))) :=
    Breaker.ExecuteWithContext rt ctx (rt_now rt) serviceName fn (s.2.1, (s.1, s.2.2)) in
  (result, err, (rm', (m', r'))).
Definition with_retry (env : RetryEnv) (operation : op) (s : EH) : answer :=
  let '(result, err, s', _) :=
    ExecuteWithResultAndContext rt (NewRetryManager (DefaultRetryConfig config)) env (operation None) s in
  (result, err, s').

Definition ExecuteWithErrorHandling (env : RetryEnv) (prefer_done : bool) (serviceName : string)
    (operation : op) (s : EH) : option answer :=
  if EnableRecovery config
  then handle_answer <$> ExecuteWithRecovery rt ctx env prefer_done serviceName operation s
  else Some (handle_answer
    (if EnableCircuitBreaker config then with_breaker serviceName operation s
     else if EnableRetry config then with_retry env operation s
     else operation None s)).
Definition ExecuteWithRetry (env : RetryEnv) (operation : op) (s : EH) : answer :=
  handle_answer (if EnableRetry config then with_retry env operation s else operation None s).
Definition ExecuteWithCircuitBreaker (serviceName : string) (operation : op) (s : EH) : answer :=
  handle_answer (if EnableCircuitBreaker config then with_breaker serviceName operation s
                 else operation None s).
Definition ErrorHandlerMiddleware (next : op) (s : EH) : answer := handle_answer (next None s).

Definition not_enabled (message : string) : error :=
  ErrorAuth (WithRetryable false (WithSeverity SeverityError (WithCategory CategoryInternal
    (NewError rt ErrorCodeFailedPrecondition message)))).
Definition RegisterCircuitBreaker (serviceName : string) (c : CircuitBreakerConfig) : M EH unit :=
  if EnableCircuitBreaker config
  then modify (λ s, (s.1, (RegisterBreaker serviceName c s.2.1, s.2.2)))
  else fail (not_enabled "Circuit breaker is not enabled").
Definition EH_RegisterRecoveryStrategy (serviceName : string) (c : RecoveryConfig A HX)
    : GoM (option error) EH unit := λ s,
  if EnableRecovery config
  then match RegisterRecoveryStrategy serviceName c s.1 with
       | Some rm => (Ok tt, (rm, s.2))
       | None => (Err None, s)
       end
  else (Err (Some (not_enabled "Recovery manager is not enabled")), s).

Definition GetErrorMetrics (s : EH) : option ErrorMetrics :=
  if EnableLogging config then GetMetrics (eh_logger s.2.2) else None.
Definition GetCircuitBreakerStates (s : EH) : option (gmap string CircuitBreakerState) :=
  if EnableCircuitBreaker config then Some (GetAllStates rt s.2.1).1 else None.
Definition GetRecoveryStates (s : EH) : option (gmap string RecoveryState) :=
  if EnableRecovery config then Some (GetAllRecoveryStates s.1) else None.

Record HealthReport := mkHealth {
  h_circuit_breakers : option (gmap string CircuitBreakerState);
  h_recovery_states : option (gmap string bool);
  h_error_metrics : option ErrorMetrics; h_timestamp : Z; h_status : string }.
Definition EH_HealthCheck (s : EH) : HealthReport :=
  mkHealth (GetCircuitBreakerStates s)
    (if EnableRecovery config then Some (RecoveryManager_HealthCheck rt s.1) else None)
    (GetErrorMetrics s) (rt_now rt) "healthy".
End handler.

(** ** Bulkheads under concurrency

    The operations under way, by the channel each of them holds a token of,
    and the events that change the channels.  [executeBulkhead] is an entry, the
    operation and the exit (lemma [executeBulkhead_run]). *)
Section bulkheads.
Context {A X : Type}.
Abbreviation RM := (RecoveryManager A X).

Inductive bstep : RM * list nat → RM * list nat → Prop :=
| bs_register name config rm rm' fl : RegisterRecoveryStrategy name config rm = Some rm' →
    bstep (rm, fl) (rm', fl)
| bs_state i f rm fl : bstep (rm, fl) (at_state i f rm, fl)
| bs_config name c rm fl : bstep (rm, fl) (set_config name c rm, fl)
| bs_enter ctx prefer ch b rm fl : channels rm !! ch = Some b → select_bulkhead ctx prefer b = Acquired →
    bstep (rm, fl) (at_channel ch acquire rm, ch :: fl)
| bs_leave ch rm fl1 fl2 : bstep (rm, fl1 ++ ch :: fl2) (at_channel ch release rm, fl1 ++ fl2).

Definition holding (ch : nat) (fl : list nat) : Z := Z.of_nat (length (filter (λ c, c = ch) fl)).

Definition bulkheads_ok (s : RM * list nat) : Prop :=
  (∀ ch b, channels s.1 !! ch = Some b → bh_used b = holding ch s.2 ∧ bh_used b ≤ bh_cap b) ∧
  (∀ ch, ch ∈ s.2 → (ch < length (channels s.1))%nat).

Lemma holding_cons ch c fl : holding ch (c :: fl) = holding ch fl + (if decide (c = ch) then 1 else 0).
Proof. unfold holding. rewrite filter_cons. destruct (decide (c = ch)); simpl; lia. Qed.
Lemma holding_middle ch c fl1 fl2 :
  holding ch (fl1 ++ c :: fl2) = holding ch (fl1 ++ fl2) + (if decide (c = ch) then 1 else 0).
Proof.
  unfold holding. rewrite !filter_app, filter_cons, !length_app.
  destruct (decide (c = ch)); simpl; lia.
Qed.
Lemma holding_nonneg ch fl : 0 ≤ holding ch fl.
Proof. unfold holding. lia. Qed.
Lemma holding_absent ch fl : (∀ c, c ∈ fl → (c < ch)%nat) → holding ch fl = 0.
Proof.
  intros Hc. unfold holding. rewrite filter_none; [done|]. intros c Hin ->. specialize (Hc ch Hin). lia.
Qed.

Lemma register_channels name config (rm rm' : RM) : RegisterRecoveryStrategy name config rm = Some rm' →
  channels rm' = channels rm ∨ ∃ n, 0 ≤ n ∧ channels rm' = channels rm ++ [mkBulkhead n 0].
Proof.
  unfold RegisterRecoveryStrategy. intros Hr.
  repeat case_hyp Hr; simplify_eq/=; try (by left). right. eexists. split; [|done]. by apply Z.ltb_ge.
Qed.

Lemma select_acquired ctx prefer b : select_bulkhead ctx prefer b = Acquired → bh_used b < bh_cap b.
Proof.
  unfold select_bulkhead. destruct (Z.ltb_spec (bh_used b) (bh_cap b)); [done|]. by destruct (ctx_Err ctx).
Qed.

Lemma bstep_ok s s' : bulkheads_ok s → bstep s s' → bulkheads_ok s'.
Proof.
  intros [Hu Hr] Hs. destruct Hs as [name config rm rm' fl Hreg|i f rm fl|name c rm fl
    |ctx prefer ch b rm fl Hb Hsel|ch rm fl1 fl2]; simpl in *; try done.
  - destruct (register_channels _ _ _ _ Hreg) as [Hc|(n & Hn & Hc)]; split; simpl; rewrite Hc; try done.
    + intros ch b [Hl|[Hl Hl']]%lookup_app_Some; [by apply Hu|].
      destruct (ch - length (channels rm))%nat eqn:E; [|done]. injection Hl' as <-. simpl.
      rewrite holding_absent; [lia|]. intros c Hin. specialize (Hr c Hin). lia.
    + intros ch Hin. rewrite length_app. simpl. specialize (Hr ch Hin). lia.
  - apply select_acquired in Hsel. split; simpl.
    + intros ch' b'. rewrite holding_cons. destruct (decide (ch = ch')) as [<-|Hne].
      * rewrite list_lookup_alter_eq, Hb. intros [= <-]. simpl. destruct (Hu ch b Hb). lia.
      * rewrite list_lookup_alter_ne by done. intros Hl. destruct (Hu ch' b' Hl). lia.
    + intros c Hin. rewrite length_alter. apply elem_of_cons in Hin as [->|Hin]; [|by apply Hr].
      by apply lookup_lt_Some in Hb.
  - split; simpl.
    + intros ch' b'. destruct (decide (ch = ch')) as [<-|Hne].
      * rewrite list_lookup_alter_eq. destruct (channels rm !! ch) as [b|] eqn:Hb; [|done].
        intros [= <-]. simpl. destruct (Hu ch b Hb) as [Hu1 Hu2]. rewrite holding_middle in Hu1.
        rewrite decide_True in Hu1 by done. lia.
      * rewrite list_lookup_alter_ne by done. intros Hl. destruct (Hu ch' b' Hl) as [Hu1 Hu2].
        rewrite holding_middle, decide_False in Hu1 by done. lia.
    + intros c Hin. rewrite length_alter. apply Hr. apply elem_of_app in Hin as [Hin|Hin];
        apply elem_of_app; [by left|right; by right].
Qed.

(** A bulkheaded execution whose operation is a run of such events, is one. *)
Lemma executeBulkhead_run rt ctx name (operation : option Z → RM * X → option A * option error * (RM * X))
    config i prefer w r err w' fl :
  (∀ timeout w0 r0 err0 w1 fl0, operation timeout w0 = (r0, err0, w1) →
     star bstep (w0.1, fl0) (w1.1, fl0)) →
  executeBulkhead rt ctx name operation config i prefer w = Some (r, err, w') →
  star bstep (w.1, fl) (w'.1, fl).
Proof.
  intros Hop. unfold executeBulkhead.
  assert (Hst : ∀ f (u : RM * X), star bstep (u.1, fl) ((on_state i f u).1, fl))
    by (intros f u; eapply star_snoc; [constructor|apply bs_state]).
  destruct (bulkheads w.1 !! name) as [ch|] eqn:Eb; simpl.
  2:{ intros [= Hr]. eapply Hop. exact Hr. }
  destruct (channels w.1 !! ch) as [b|] eqn:Ec; simpl.
  2:{ intros [= Hr]. eapply Hop. exact Hr. }
  destruct (select_bulkhead ctx prefer b) as [|e|] eqn:Es.
  - destruct (operation (request_timeout config) (on_channel ch acquire w)) as [[r0 err0] w1] eqn:Eo.
    assert (Hin : star bstep (w.1, fl) (w1.1, ch :: fl)).
    { eapply star_trans; [eapply star_snoc; [constructor|by eapply bs_enter]|].
      exact (Hop _ _ _ _ _ (ch :: fl) Eo). }
    intros Hr. assert (Hw : ∃ f, w'.1 = at_channel ch release (at_state i f w1.1)).
    { unfold settle in Hr. destruct err0; cbn in Hr; injection Hr as <- <- <-;
        unfold on_recovery, on_channel; destruct (rcf_OnRecovery config); by eexists. }
    destruct Hw as [f ->]. eapply star_trans; [exact Hin|].
    eapply star_snoc; [eapply star_snoc; [constructor|apply bs_state]|]. apply (bs_leave ch _ [] fl).
  - intros [= <- <- <-]. apply Hst.
  - destruct (rcf_BulkheadConfig config); [|done]. intros [= <- <- <-]. apply Hst.
Qed.

End bulkheads.

(** ** Properties of the strategies *)
Section strategies_properties.
Context {CB : Type} `{BreakerLaws CB} {A X : Type}.
Abbreviation RM := (RecoveryManager A X).
Abbreviation W := (RM * X)%type.
Abbreviation op := (option Z → W → option A * option error * W).

(** An operation that fails and leaves the manager as it was. *)
Definition failing (operation : op) : Prop :=
  ∀ timeout w, ∃ r e x, operation timeout w = (r, Some e, (w.1, x)).

(** Executions of one service under graceful degradation, at increasing
    times, with their answers. *)
Fixpoint degraded_run (rt : Z → Runtime) (name : string) (operation : op) (config : RecoveryConfig A X)
    (i : nat) (times : list Z) (w : W) : list (option A * option error) * W :=
  match times with
  | [] => ([], w)
  | t :: rest =>
      let '(r, e, w1) := executeGracefulDegradation (rt t) name operation config i w in
      let '(l, w2) := degraded_run rt name operation config i rest w1 in ((r, e) :: l, w2)
  end.

(** What the caller sees of a failure at [t] when the mode was entered at
    [start]. *)
Definition degraded_answer (d : A) (limit start t : Z) (out : option A * option error) : Prop :=
  if (limit <? t - start)%Z
  then ∃ a, out = (None, Some (ErrorAuth a)) ∧ ae_Code a = ErrorCodeUnavailable ∧ ae_Retryable a = false
  else out = (Some d, None).

Lemma executeGracefulDegradation_degraded rt t name operation g d (config : RecoveryConfig A X) i s start w :
  rt_now (rt t) = t → failing operation →
  rcf_GracefulDegradationConfig config = Some g → FallbackData g = Some d → 0 < MaxDegradationTime g →
  states w.1 !! i = Some s →
  start = (if rs_InDegradedMode s then rs_DegradationStart s else Some t) → is_Some start →
  ∃ r e w1 s1, executeGracefulDegradation (rt t) name operation config i w = (r, e, w1) ∧
    degraded_answer d (MaxDegradationTime g) (default 0 start) t (r, e) ∧
    states w1.1 !! i = Some s1 ∧ rs_InDegradedMode s1 = true ∧ rs_DegradationStart s1 = start.
Proof.
  intros Ht Hf Hg Hd Hmax Hs Hstart [st Hst]. unfold executeGracefulDegradation.
  destruct (Hf None w) as (r0 & e0 & x & ->).
  set (s1 := enter_degraded (rt t) (updateFailureState (rt t) s)).
  assert (Hl : states (on_state i (λ s, enter_degraded (rt t) (updateFailureState (rt t) s)) (w.1, x)).1 !! i
               = Some s1) by (simpl; by rewrite list_lookup_alter_eq, Hs).
  assert (Hs1 : rs_InDegradedMode s1 = true ∧ rs_DegradationStart s1 = start).
  { unfold s1, enter_degraded. simpl. destruct (rs_InDegradedMode s) eqn:E; simpl; rewrite ?Ht; done. }
  destruct Hs1 as [Hm1 Hd1]. rewrite Hl. simpl. rewrite Hd1.
  unfold too_long, fallback_data, degraded_answer, Since. rewrite Hg, Hd, Hst, Ht.
  destruct (Z.ltb_spec 0 (MaxDegradationTime g)); [|lia]. simpl.
  destruct (_ <? t - st)%Z; (do 4 eexists; split_and!; [done| |exact Hl|done|by rewrite Hd1]); [|done].
  by eexists.
Qed.

(** The degradation window.  From the first failure on, as long as the
    service keeps failing, the caller is given the fallback data exactly
    until the configured time has passed since that failure, and an
    Unavailable error that is not retryable from then on. *)
Theorem degradation_window rt name operation g d (config : RecoveryConfig A X) i s t0 times w :
  (∀ t, rt_now (rt t) = t) → failing operation →
  rcf_GracefulDegradationConfig config = Some g → FallbackData g = Some d → 0 < MaxDegradationTime g →
  states w.1 !! i = Some s → rs_InDegradedMode s = false →
  Forall2 (degraded_answer d (MaxDegradationTime g) t0) (t0 :: times)
    (degraded_run rt name operation config i (t0 :: times) w).1.
Proof.
  intros Ht Hf Hg Hd Hmax Hs Hm.
  destruct (executeGracefulDegradation_degraded rt t0 name operation g d config i s (Some t0) w)
    as (r & e & w1 & s1 & Hrun & Hans & Hs1 & Hm1 & Hst1); [done..|by rewrite Hm|done|].
  cbn [degraded_run]. rewrite Hrun.
  assert (Hrest : Forall2 (degraded_answer d (MaxDegradationTime g) t0) times
                    (degraded_run rt name operation config i times w1).1).
  { clear Hrun Hans Hs Hm. revert w1 s1 Hs1 Hm1 Hst1.
    induction times as [|t times IH]; intros w1 s1 Hs1 Hm1 Hst1; [constructor|].
    destruct (executeGracefulDegradation_degraded rt t name operation g d config i s1 (Some t0) w1)
      as (r' & e' & w2 & s2 & Hrun & Hans & Hs2 & Hm2 & Hst2); [done..|by rewrite Hm1|done|].
    cbn [degraded_run]. rewrite Hrun. specialize (IH w2 s2 Hs2 Hm2 Hst2).
    destruct (degraded_run rt name operation config i times w2). by constructor. }
  destruct (degraded_run rt name operation config i times w1). by constructor.
Qed.

(** The circuit breaker strategy never opens.  Whatever state the manager
    is in, so whatever failed before, the operation is called: every
    execution makes a breaker of its own, which has seen no failure. *)
Theorem breaker_strategy_never_opens rt ctx env prefer name (operation : op) (config : RecoveryConfig A X) w :
  strategies w.1 !! name = Some config → rcf_Strategy config = StrategyCircuitBreaker → ctx_Err ctx = None →
  ∃ w0, w0.2 = w.2 ∧ states w0.1 = states w.1 ∧
    let '(r, err, w1) := operation None w0 in
    ∃ w2, match err with
          | None => ExecuteWithRecovery rt ctx env prefer name operation w = Some (r, None, w2)
          | Some e => ∃ e', ExecuteWithRecovery rt ctx env prefer name operation w = Some (None, Some e', w2)
          end.
Proof.
  intros Hc Hst Hctx. unfold ExecuteWithRecovery. rewrite Hc, Hst. unfold executeCircuitBreaker.
  set (cfg := default GetDefaultDatabaseConfig (rcf_CircuitBreakerConfig config)).
  set (m := RegisterBreaker name cfg NewCircuitBreakerManager).
  eexists. split; [|split; [|destruct (operation None _) as [[r err] w1] eqn:Eo]].
  3: unfold Breaker.ExecuteWithContext; simpl fst;
     change (cbm_breakers m !! name ≫= λ i, (λ cb, (i, cb)) <$> cbm_heap m !! i) with (breaker_of name m).
  3: assert (Hb : breaker_of name m = Some (0%nat, NewBreaker (settings_of name (with_defaults name cfg))))
       by (unfold m, RegisterBreaker, breaker_of; simpl; by rewrite lookup_insert_eq).
  3: rewrite Hb, Hctx; unfold breaker_Execute.
  3: pose proof (closed_accepts (rt_now rt) _ (new_closed (settings_of name (with_defaults name cfg)) (rt_now rt))) as Ho.
  3: destruct (cb_before (rt_now rt) (NewBreaker (settings_of name (with_defaults name cfg)))) as [[gen|] cb']; [|done].
  3: cbn [snd fst]; rewrite Eo; destruct err as [e|]; unfold translate, settle;
     [eexists; eexists; reflexivity | eexists; reflexivity].
  all: done.
Qed.

(** Failures are never forgotten: no success lowers the count, so a service
    that failed more than ten times since it was registered is reported
    unhealthy until its state is reset by hand. *)
Inductive success_step (s : RecoveryState) : RecoveryState → Prop :=
| ss_leave rt : success_step s (leave_degraded rt s)
| ss_recovered rt : success_step s (recovered_state rt s).
Theorem failures_are_never_forgotten rt s s' : 10 < rs_FailureCount s →
  star success_step s s' → isHealthy rt s' = false.
Proof.
  intros Hf Hs. assert (Hc : 10 < rs_FailureCount s').
  { eapply (star_invariant success_step (λ s, 10 < rs_FailureCount s)); [|exact Hf|exact Hs].
    intros x y Hx []; [|done]. unfold leave_degraded. by destruct (rs_InDegradedMode x). }
  unfold isHealthy. apply Z.ltb_lt in Hc. rewrite Hc. by rewrite andb_false_r.
Qed.
End strategies_properties.

(** ** Properties of the handler *)
Section handler_properties.
Context {CB : Type} `{BreakerLaws CB} {A Y : Type}.
Abbreviation HX := (CircuitBreakerManager CB * HandlerRest Y)%type.
Abbreviation EH := (RecoveryManager A HX * HX)%type.

(** The failure is recorded in a copy of the recovery state: handling an error
    with recovery is handling it. *)
Theorem recovery_state_is_not_updated config rt ctx name err (s : EH) :
  HandleErrorWithRecovery config rt ctx name err s = HandleError config rt ctx err s.
Proof.
  unfold HandleErrorWithRecovery. destruct (HandleError config rt ctx err s) as [[a|] s1]; [|done].
  destruct (EnableRecovery config); [|done]. by destruct (GetRecoveryState _ _ _).
Qed.

Definition default_handler (y : Y) : EH := NewErrorHandler (A:=A) GetDefaultErrorHandlerConfig y.

(** The default handler bypasses its breakers.  With the default
    configuration recovery comes first, and a service without a recovery
    strategy is called directly, once, without the circuit breaker registered
    for it and without the retries, though both are enabled.  Redis and Kafka
    are such services: they have a breaker and no strategy. *)
Theorem default_handler_bypasses_breakers rt ctx env prefer name
    (operation : option Z → EH → option A * option error * EH) (s : EH) y :
  let config := GetDefaultErrorHandlerConfig in
  (strategies s.1 !! name = None →
   ExecuteWithErrorHandling config rt ctx env prefer name operation s =
     Some (handle_answer config rt ctx (operation None s))) ∧
  (name ∈ ["redis"; "kafka"] →
   strategies (default_handler y).1 !! name = None ∧ is_Some (breaker_of name (default_handler y).2.1)).
Proof.
  intros config. split.
  - intros Hn. unfold ExecuteWithErrorHandling, ExecuteWithRecovery. simpl. by rewrite Hn.
  - rewrite !elem_of_cons, elem_of_nil. intros [->|[->|[]]]; by split.
Qed.

(** The fallback of the event strategy is never called: its strategy is to
    retry. *)
Theorem event_fallback_is_never_called rt ctx env prefer logging fb
    (operation : option Z → EH → option A * option error * EH) (s : EH) :
  let ev := events_strategy logging in
  let ev' := mkRecoveryConfig (rcf_Strategy ev) fb (rcf_RetryConfig ev) (rcf_CircuitBreakerConfig ev)
               (rcf_GracefulDegradationConfig ev) (rcf_BulkheadConfig ev) (rcf_OnRecovery ev) in
  executeRetryWithBackoff rt "events" operation ev' 0 env s =
  executeRetryWithBackoff rt "events" operation ev 0 env s ∧
  (strategies s.1 !! "events" = Some ev →
   ExecuteWithRecovery rt ctx env prefer "events" operation s =
   Some (executeRetryWithBackoff rt "events" operation ev
           (default 0%nat (recoveryStates s.1 !! "events")) env s)).
Proof. intros ev ev'. split; [done|]. intros Hs. unfold ExecuteWithRecovery. by rewrite Hs. Qed.
End handler_properties.

(** ** Witnesses *)

#[local] Existing Instances ref_breaker ref_breaker_laws.

Definition ref_bulkhead_config : RecoveryConfig Z unit :=
  mkRecoveryConfig StrategyBulkhead None None None None (Some (mkBulkheadConfig 1 0 0)) None.
Definition ref_bulkheaded : RecoveryManager Z unit :=
  default NewRecoveryManager (RegisterRecoveryStrategy "db" ref_bulkhead_config NewRecoveryManager).
Definition ref_one_inside : RecoveryManager Z unit := at_channel 0 acquire ref_bulkheaded.


Definition ref_graceful : RecoveryConfig Z nat :=
  mkRecoveryConfig StrategyGracefulDegradation None None None
    (Some (mkGracefulConfig ∅ (Some 42) (10 * Minute))) None None.
Definition ref_graceful_rm : RecoveryManager Z nat :=
  default NewRecoveryManager (RegisterRecoveryStrategy "cache" ref_graceful NewRecoveryManager).
Definition ref_op_fails {A X} : option Z → RecoveryManager A X * X → option A * option error * (RecoveryManager A X * X) :=
  λ _ w, (None, Some (ErrorString "redis: connection pool timeout"), w).

Example degradation_window_witness :
  Forall2 (degraded_answer 42 (10 * Minute) Minute) [Minute; 11 * Minute; 12 * Minute]
    (degraded_run ref_clock "cache" ref_op_fails ref_graceful 0 [Minute; 11 * Minute; 12 * Minute]
       (ref_graceful_rm, 0%nat)).1.
Proof.
  apply (degradation_window ref_clock "cache" ref_op_fails (mkGracefulConfig ∅ (Some 42) (10 * Minute)) 42
    ref_graceful 0 (mkRecoveryState "cache" StrategyGracefulDegradation None 0 0 false None None)
    Minute [11 * Minute; 12 * Minute]); try reflexivity.
  intros timeout w. exists None, (ErrorString "redis: connection pool timeout"), w.2. by destruct w.
Defined.

Definition ref_broken : RecoveryConfig Z nat :=
  mkRecoveryConfig StrategyCircuitBreaker None None (Some GetDefaultDatabaseConfig) None None None.
Definition ref_broken_rm : RecoveryManager Z nat :=
  default NewRecoveryManager (RegisterRecoveryStrategy "db" ref_broken NewRecoveryManager).
(** It counts its calls and always fails. *)
Definition ref_op_down : option Z → RecoveryManager Z nat * nat → option Z * option error * (RecoveryManager Z nat * nat) :=
  λ _ w, (None, Some (ErrorString "connection refused"), (w.1, S w.2)).
Definition ref_env : RetryEnv := never_done (λ _, f_half).
Fixpoint ref_down_calls (n : nat) (w : RecoveryManager Z nat * nat) : RecoveryManager Z nat * nat :=
  match n with
  | O => w
  | S n' =>
      let w1 := ref_down_calls n' w in
      match ExecuteWithRecovery (CB:=ref_cb) (ref_clock 0) ref_live_ctx ref_env false "db" ref_op_down w1 with
      | Some (_, _, w2) => w2
      | None => w1
      end
  end.
Lemma ref_down_config :
  rcf_Strategy <$> (strategies (ref_down_calls 2 (ref_broken_rm, 0%nat)).1 !! "db") = Some StrategyCircuitBreaker.
Proof. vm_refl. Qed.
Lemma ref_down_count : (ref_down_calls 2 (ref_broken_rm, 0%nat)).2 = 2%nat.
Proof. vm_refl. Qed.

(** After two refused connections the third call is made. *)
Example breaker_strategy_never_opens_witness :
  ∃ w0, w0.2 = 2%nat ∧ (ref_op_down None w0).2.2 = 3%nat ∧
    ∃ e w2, ExecuteWithRecovery (CB:=ref_cb) (ref_clock 0) ref_live_ctx ref_env false "db" ref_op_down
              (ref_down_calls 2 (ref_broken_rm, 0%nat)) = Some (None, Some e, w2).
Proof.
  pose proof ref_down_config as Hst. pose proof ref_down_count as Hn.
  revert Hst Hn.
  generalize (ref_down_calls 2 (ref_broken_rm, 0%nat)). intros w (config & Hc & Hst)%fmap_Some Hn.
  destruct (breaker_strategy_never_opens (ref_clock 0) ref_live_ctx ref_env false "db" ref_op_down config
    w Hc (eq_sym Hst) eq_refl) as (w0 & Hw & _ & w2 & e & Hrun).
  rewrite Hn in Hw. exists w0. split; [exact Hw|]. split; [simpl; by rewrite Hw|]. exists e, w2. exact Hrun.
Defined.

Definition ref_handler : RecoveryManager Z (CircuitBreakerManager ref_cb * HandlerRest nat) *
  (CircuitBreakerManager ref_cb * HandlerRest nat) := default_handler 0%nat.
Example default_handler_bypasses_breakers_witness :
  ExecuteWithErrorHandling (CB:=ref_cb) GetDefaultErrorHandlerConfig (ref_clock 0) ref_live_ctx ref_env false
    "redis" ref_op_fails ref_handler =
  Some (handle_answer GetDefaultErrorHandlerConfig (ref_clock 0) ref_live_ctx (ref_op_fails None ref_handler)).
Proof.
  apply (default_handler_bypasses_breakers (ref_clock 0) ref_live_ctx ref_env false "redis" ref_op_fails
    ref_handler 0%nat). reflexivity.
Defined.
