(* ===== verification/Interceptors.v ===== *)
(** * Interceptors and middleware
    (src/internal/grpc/interceptors/rate_limiter.go, auth.go, src/internal/middleware/auth.go)

    The gRPC rate limiter over a Redis sorted set, the JWT interceptor and the
    HTTP middleware.  A Redis pipeline is a parameter, [RedisPipe]; what its
    commands do to a sorted set is written out in [zcmd_run], and the laws say
    that a pipeline that succeeds ran its commands in order.  The in-memory
    limiter used when Redis fails is the parameter [LimiterLib], the JWT
    library that of TokenService.v: the fields of [Claims] are three of the
    fields of [TokenClaims], under the same JSON names.

    Unary and stream interceptors decide alike; the stream handler is given a
    stream that answers the new context. *)

From S2P Require Import Prelude Errors Models Ifaces TokenService.

#[local] Open Scope Z_scope.

(** ** What a request carries

    Metadata keys are in lower case; a key may have several values. *)
Record Incoming := mkIncoming {
  in_md : option (gmap string (list string)); in_peer : option string }.
Definition md_Get (md : gmap string (list string)) (key : string) : list string := default [] (md !! key).

(** ** The rate limiter *)

Record RateLimiterConfig := mkRLConfig {
  RequestsPerSecond : Z; BurstSize : Z; WindowSize : Z; RedisKeyPrefix : string }.
(** The configuration of [NewEnhancedAuthGRPCServer]. *)
Definition server_limiter : RateLimiterConfig := mkRLConfig 1000 100 Minute "ratelimit".

(** Sorted sets with their deadline; a set whose deadline has passed is
    empty. *)
Abbreviation zstore := (gmap string (gmap string Z * option Z)).
Definition zlive (now : Z) (st : zstore) (key : string) : gmap string Z :=
  match st !! key with
  | Some (z, Some d) => if (d <=? now)%Z then ∅ else z
  | Some (z, None) => z
  | None => ∅
  end.
Definition zdeadline (now : Z) (st : zstore) (key : string) : option Z :=
  match st !! key with
  | Some (_, Some d) => if (d <=? now)%Z then None else Some d
  | _ => None
  end.

Inductive zcmd :=
| ZRemRangeByScore (key : string) (min max : Z)
| ZCard (key : string)
| ZAdd (key : string) (score : Z) (member : string)
| Expire (key : string) (ttl : Z).
(** One command: its integer reply and the new store. *)
Definition zcmd_run (now : Z) (c : zcmd) (st : zstore) : Z * zstore :=
  match c with
  | ZRemRangeByScore k lo hi =>
      let z := zlive now st k in
      let z' := filter (λ ms, ¬ (lo ≤ ms.2 ≤ hi)) z in
      (Z.of_nat (size z) - Z.of_nat (size z'), <[k := (z', zdeadline now st k)]> st)
  | ZCard k => (Z.of_nat (size (zlive now st k)), st)
  | ZAdd k s m =>
      let z := zlive now st k in
      (match z !! m with Some _ => 0 | None => 1 end, <[k := (<[m := s]> z, zdeadline now st k)]> st)
  | Expire k ttl => (1, <[k := (zlive now st k, Some (now + ttl))]> st)
  end.
Fixpoint zrun (now : Z) (cmds : list zcmd) (st : zstore) : list Z * zstore :=
  match cmds with
  | [] => ([], st)
  | c :: rest =>
      let '(r, st1) := zcmd_run now c st in
      let '(rs, st2) := zrun now rest st1 in (r :: rs, st2)
  end.

(** [pipe.Exec]: the replies, or the error of the pipeline. *)
Class RedisPipe (R : Type) := { pipe_Exec : Z → list zcmd → M R (list Z) }.
Class RedisPipeLaws (R : Type) `{RedisPipe R} := {
  zabs : R → zstore;
  pipe_Exec_ok now cmds r replies r' : pipe_Exec now cmds r = (Ok replies, r') →
    zrun now cmds (zabs r) = (replies, zabs r') }.

(** [golang.org/x/time/rate.Limiter]. *)
Class LimiterLib (L : Type) := { limiter_Allow : Z → L → bool * L }.

(** [time.Now().Unix()]. *)
Definition Unix (now : Z) : Z := now / Second.

(** [fmt.Sprintf("%s:%s:%s", prefix, clientID, method)]. *)
Definition limiter_key (config : RateLimiterConfig) (clientID method : string) : string :=
  RedisKeyPrefix config +:+ ":" +:+ clientID +:+ ":" +:+ method.

Definition getClientIdentifier (r : Incoming) : string :=
  match in_md r ≫= λ md, head (md_Get md "user-id") with
  | Some u => "user:" +:+ u
  | None => match in_peer r with Some a => "ip:" +:+ a | None => "unknown" end
  end.

Section limiter.
Context {R L : Type} `{RedisPipe R} `{LimiterLib L} (config : RateLimiterConfig).

(** The window in whole seconds, [int64(WindowSize.Seconds())]. *)
Definition window_seconds : Z := Z.quot (WindowSize config) Second.
Definition limiter_cmds (now : Z) (key : string) : list zcmd :=
  let windowStart := Unix now - window_seconds in
  [ZRemRangeByScore key 0 windowStart; ZCard key; ZAdd key (Unix now) (Itoa (Unix now));
   Expire key (WindowSize config)].
(** The count is the reply of the second command. *)
Definition isAllowed (now : Z) (clientID method : string) : M R bool :=
  let* replies := pipe_Exec now (limiter_cmds now (limiter_key config clientID method)) in
  ret (default 0 (replies !! 1%nat) <? RequestsPerSecond config)%Z.

(** The decision of both interceptors: [None] lets the call pass. *)
Definition limit (now : Z) (r : Incoming) (fullMethod : string) : GoM error (R * L) (option error) := λ w,
  match isAllowed now (getClientIdentifier r) fullMethod w.1 with
  | (Err _, r') =>
      let '(allow, l') := limiter_Allow now w.2 in
      (Ok (if allow then None else Some (ErrorStatus ResourceExhausted "rate limit exceeded")), (r', l'))
  | (Ok allowed, r') =>
      (Ok (if allowed then None else Some (ErrorStatus ResourceExhausted "rate limit exceeded")), (r', w.2))
  end.
(** The handler answers on the state [W] outside. *)
Definition rateLimit {W A} (now : Z) (r : Incoming) (fullMethod : string) (handler : W → res error A * W)
    (s : R * L * W) : res error A * (R * L * W) :=
  let '(rl, w) := s in
  match limit now r fullMethod rl with
  | (Ok None, rl') => let '(out, w') := handler w in (out, (rl', w'))
  | (Ok (Some e), rl') => (Err e, (rl', w))
  | (Err e, rl') => (Err e, (rl', w))
  end.
End limiter.

(** ** The JWT interceptor *)

Record AuthInterceptor := mkAuthInterceptor {
  ai_jwtSecret : string; ai_publicMethods : list string; ai_serviceKeyMethods : list string;
  ai_serviceKey : string }.
Definition NewAuthInterceptor (jwtSecret serviceKey : string) : AuthInterceptor :=
  mkAuthInterceptor jwtSecret
    ["/auth.AuthService/HealthCheck"; "/auth.AuthService/GetMetrics"]
    ["/auth.AuthService/ValidateToken"; "/auth.AuthService/CheckPermission"; "/auth.AuthService/GetUser";
     "/auth.AuthService/Authenticate"; "/auth.AuthService/CreateOrganization";
     "/auth.AuthService/RefreshToken"; "/auth.AuthService/RevokeToken"]
    serviceKey.
Definition in_methods (l : list string) (m : string) : bool := existsb (String.eqb m) l.

Definition validateServiceKey (ai : AuthInterceptor) (key : string) : bool :=
  String.eqb key (ai_serviceKey ai) && negb (String.eqb (ai_serviceKey ai) "").

Record Claims := mkClaims { cl_UserID : N; cl_OrganizationID : N; cl_Email : string }.
Definition claims_of (c : TokenClaims) : Claims := mkClaims (tc_UserID c) (tc_OrganizationID c) (tc_Email c).

Section auth.
Context `{JwtLib} `{UuidLib}.

(** The key function offers the secret whatever the header says. *)
Definition ErrTokenMalformed : error := ErrorString "token is malformed".
Definition validateJWT (ai : AuthInterceptor) (now : Z) (tokenString : string) : res error Claims :=
  match jwt_ParseWithClaims now tokenString (λ _ _, Ok (ai_jwtSecret ai)) with
  | Err e => Err e
  | Ok (claims, valid) => if valid then Ok (claims_of claims) else Err ErrTokenMalformed
  end.

(** The incoming metadata is replaced, not extended. *)
Definition addUserContext (claims : Claims) (r : Incoming) : Incoming :=
  mkIncoming (Some (<["user-id" := [uuid_String (cl_UserID claims)]]>
    (<["organization-id" := [uuid_String (cl_OrganizationID claims)]]>
      (<["email" := [cl_Email claims]]> ∅)))) (in_peer r).

(** The request the handler is given, or the refusal. *)
Definition authenticate (ai : AuthInterceptor) (now : Z) (fullMethod : string) (r : Incoming)
    : res error Incoming :=
  if in_methods (ai_publicMethods ai) fullMethod then Ok r
  else match in_md r with
  | None => Err (ErrorStatus Unauthenticated "missing metadata")
  | Some md =>
      let by_key := in_methods (ai_serviceKeyMethods ai) fullMethod &&
        match md_Get md "x-service-key" with k :: _ => validateServiceKey ai k | [] => false end in
      if by_key then Ok r
      else match md_Get md "authorization" with
      | [] => Err (ErrorStatus Unauthenticated "missing authorization header")
      | h :: _ =>
          let token := TrimPrefix h "Bearer " in
          if String.eqb token h
          then Err (ErrorStatus Unauthenticated "invalid authorization header format")
          else match validateJWT ai now token with
          | Err _ => Err (ErrorStatus Unauthenticated "invalid token")
          | Ok claims => Ok (addUserContext claims r)
          end
      end
  end.
Definition authenticated {W A} (ai : AuthInterceptor) (now : Z) (fullMethod : string)
    (handler : Incoming → W → res error A * W) (r : Incoming) : W → res error A * W :=
  match authenticate ai now fullMethod r with Ok r' => handler r' | Err e => fail e end.
End auth.

(** ** The HTTP middleware

    A gin context, as far as it is used: headers, the keys set on it, and the
    answer when the chain was aborted. *)
Inductive ctx_value := CUuid (n : N) | CStr (s : string).
Record GinContext := mkGin {
  gc_headers : gmap string string; gc_keys : gmap string ctx_value; gc_answer : option (Z * string) }.
Definition GetHeader (c : GinContext) (k : string) : string := default "" (gc_headers c !! k).
Definition gin_Set (k : string) (v : ctx_value) (c : GinContext) : GinContext :=
  mkGin (gc_headers c) (<[k := v]> (gc_keys c)) (gc_answer c).
Definition AbortWith (status : Z) (message : string) (c : GinContext) : GinContext :=
  mkGin (gc_headers c) (gc_keys c) (Some (status, message)).
Definition StatusUnauthorized : Z := 401.

Section middleware.
Context `{JwtLib}.

Definition AuthMiddleware (jwtSecret : string) (now : Z) (c : GinContext) : GinContext :=
  let authHeader := GetHeader c "Authorization" in
  if String.eqb authHeader "" then AbortWith StatusUnauthorized "Authorization header required" c
  else
    let tokenString := TrimPrefix authHeader "Bearer " in
    if String.eqb tokenString authHeader then AbortWith StatusUnauthorized "Bearer token required" c
    else match jwt_ParseWithClaims now tokenString (λ _ _, Ok jwtSecret) with
         | Ok (claims, true) =>
             gin_Set "email" (CStr (tc_Email claims))
               (gin_Set "organization_id" (CUuid (tc_OrganizationID claims))
                 (gin_Set "user_id" (CUuid (tc_UserID claims)) c))
         | _ => AbortWith StatusUnauthorized "Invalid token" c
         end.
End middleware.

Definition TenantMiddleware (c : GinContext) : GinContext :=
  match gc_keys c !! "organization_id" with
  | None => AbortWith StatusUnauthorized "Organization context required" c
  | Some organizationID => gin_Set "tenant_id" organizationID c
  end.
Definition isValidServiceKey (key : string) : bool := String.eqb key "internal-service-key".
Definition ServiceAuthMiddleware (c : GinContext) : GinContext :=
  let serviceKey := GetHeader c "X-Service-Key" in
  if String.eqb serviceKey "" then AbortWith StatusUnauthorized "Service key required" c
  else if negb (isValidServiceKey serviceKey) then AbortWith StatusUnauthorized "Invalid service key" c
  else c.
(** A chain stops at the first middleware that aborts. *)
Definition chain (ms : list (GinContext → GinContext)) (c : GinContext) : GinContext :=
  foldl (λ c m, match gc_answer c with None => m c | Some _ => c end) c ms.

(** ** The HTTP middleware decides *)

(** What a request that passes carries, and who it speaks for. *)
Definition set_claims (claims : TokenClaims) (c : GinContext) : GinContext :=
  gin_Set "email" (CStr (tc_Email claims))
    (gin_Set "organization_id" (CUuid (tc_OrganizationID claims))
      (gin_Set "user_id" (CUuid (tc_UserID claims)) c)).
Definition bearer_of `{JwtLib} (jwtSecret : string) (now : Z) (c : GinContext) (claims : TokenClaims) : Prop :=
  ∃ token, GetHeader c "Authorization" = "Bearer " +:+ token ∧
           jwt_ParseWithClaims now token (λ _ _, Ok jwtSecret) = Ok (claims, true).
Lemma AuthMiddleware_cases `{JwtLib} jwtSecret now c :
  (∃ claims, bearer_of jwtSecret now c claims ∧ AuthMiddleware jwtSecret now c = set_claims claims c) ∨
  ((∀ claims, ¬ bearer_of jwtSecret now c claims) ∧
   ∃ message, AuthMiddleware jwtSecret now c = AbortWith StatusUnauthorized message c).
Proof.
  unfold AuthMiddleware, bearer_of. cbv zeta. set (h := GetHeader c "Authorization").
  destruct (String.eqb_spec h "") as [Hh|Hh].
  { right. split; [|by eexists]. intros claims (token & Ht & _). rewrite Hh in Ht. discriminate Ht. }
  destruct (String.eqb_spec (TrimPrefix h "Bearer ") h) as [Hp|Hp].
  { right. split; [|by eexists]. intros claims (token & Ht & _). rewrite Ht, TrimPrefix_app in Hp.
    apply (f_equal str_len) in Hp. rewrite str_len_app in Hp. simpl in Hp. lia. }
  assert (Ht : h = "Bearer " +:+ TrimPrefix h "Bearer ").
  { clear -Hp. unfold TrimPrefix in *. destruct (HasPrefix h "Bearer ") eqn:E; [|done].
    apply HasPrefix_spec in E as [t ->]. done. }
  destruct (jwt_ParseWithClaims now (TrimPrefix h "Bearer ") _) as [[claims []]|] eqn:Hj.
  { left. exists claims. split; [|done]. by exists (TrimPrefix h "Bearer "). }
  all: right; split; [|by eexists]; intros claims' (token & Ht' & Hj'); rewrite Ht' in Hj at 1;
    rewrite TrimPrefix_app in Hj; congruence.
Qed.

(** ** Lemmas on the limiter *)

#[local] Arguments zlive : simpl never.
#[local] Arguments zdeadline : simpl never.

Lemma zlive_kept now st k z : zlive now (<[k := (z, zdeadline now st k)]> st) k = z.
Proof.
  unfold zlive. rewrite lookup_insert_eq. unfold zdeadline.
  destruct (st !! k) as [[z' [d|]]|]; [|done|done].
  destruct (d <=? now)%Z eqn:E; [done|]. by rewrite E.
Qed.
Lemma zdeadline_kept now st k z : zdeadline now (<[k := (z, zdeadline now st k)]> st) k = zdeadline now st k.
Proof.
  unfold zdeadline at 1. rewrite lookup_insert_eq. unfold zdeadline.
  destruct (st !! k) as [[z' [d|]]|]; [|done|done].
  destruct (d <=? now)%Z eqn:E; [done|]. by rewrite E.
Qed.

Section limiter_lemmas.
Context {R : Type} `{Hpipe : RedisPipeLaws R} (config : RateLimiterConfig) (Hwin : 0 < WindowSize config).
Abbreviation win := (window_seconds config).

(** The set left of [key] when the entries before the window are removed. *)
Definition in_window (now : Z) (z : gmap string Z) : gmap string Z :=
  filter (λ ms, ¬ (0 ≤ ms.2 ≤ Unix now - win)) z.

Lemma limiter_cmds_run now key st :
  let z := in_window now (zlive now st key) in
  let '(replies, st') := zrun now (limiter_cmds config now key) st in
  default 0 (replies !! 1%nat) = Z.of_nat (size z) ∧
  st' !! key = Some (<[Itoa (Unix now) := Unix now]> z, Some (now + WindowSize config)) ∧
  ∀ k, k ≠ key → st' !! k = st !! k.
Proof.
  unfold limiter_cmds. simpl. unfold in_window.
  set (z := filter _ (zlive now st key)). rewrite !zlive_kept, zdeadline_kept. split_and!.
  - done.
  - by rewrite !insert_insert_eq, lookup_insert_eq.
  - intros k Hk. by rewrite !lookup_insert_ne by done.
Qed.

(** The set of [key] after requests in the seconds [ts], the last at [now]. *)
Record tracks (key : string) (now : Z) (ts : list Z) (st : zstore) : Prop := {
  tk_sound later m s : zlive later st key !! m = Some s → m = Itoa s ∧ s ∈ ts;
  tk_complete later u : now ≤ later → u ∈ ts → Unix later - win < u →
    zlive later st key !! Itoa u = Some u;
  tk_past u : u ∈ ts → 0 ≤ u ≤ Unix now }.

Lemma Unix_mono a b : a ≤ b → Unix a ≤ Unix b.
Proof. intros Hab. apply Z.div_le_mono; [unfold Second, Millisecond; lia | done]. Qed.
Lemma window_open now later : Unix later - win < Unix now → later < now + WindowSize config.
Proof.
  unfold Unix. intros Hl. unfold window_seconds in Hl.
  assert (Hs : 0 < Second) by (unfold Second, Millisecond; lia).
  rewrite Z.quot_div_nonneg in Hl by lia.
  pose proof (Z.mul_div_le now Second Hs). pose proof (Z.mul_div_le (WindowSize config) Second Hs).
  pose proof (Z.mod_pos_bound later Second Hs). pose proof (Z.div_mod later Second ltac:(lia)). nia.
Qed.
Lemma win_nonneg : 0 ≤ win.
Proof.
  unfold window_seconds. apply Z.quot_pos; [lia | unfold Second, Millisecond; lia].
Qed.

Lemma tracks_later key now now' ts st : now ≤ now' → tracks key now ts st → tracks key now' ts st.
Proof.
  intros Hn [Hs Hc Hp]. split; [done| |].
  - intros later u Hl. apply Hc. lia.
  - intros u Hu. destruct (Hp u Hu). pose proof (Unix_mono _ _ Hn). lia.
Qed.

Lemma tracks_request key now now' ts st st' : now ≤ now' → 0 ≤ now' → tracks key now ts st →
  (zrun now' (limiter_cmds config now' key) st).2 = st' → tracks key now' (ts ++ [Unix now']) st'.
Proof.
  intros Hn Hz Ht <-. pose proof (tracks_later _ _ _ _ _ Hn Ht) as [Hs Hc Hp].
  pose proof (limiter_cmds_run now' key st) as Hrun. cbv zeta in Hrun.
  destruct (zrun now' (limiter_cmds config now' key) st) as [replies st']. simpl.
  destruct Hrun as (_ & Hst & _).
  assert (Hz' : 0 ≤ Unix now') by (apply Z.div_pos; [done | unfold Second, Millisecond; lia]). split.
  - intros later m s. unfold zlive at 1. rewrite Hst. destruct (_ <=? later)%Z; [done|].
    intros [[<- <-]|[_ Hm]]%lookup_insert_Some.
    + split; [done|]. apply elem_of_app. right. by left.
    + apply map_lookup_filter_Some in Hm as [Hm _]. destruct (Hs _ _ _ Hm) as [-> Hin].
      split; [done|]. apply elem_of_app. by left.
  - intros later u Hl Hu Hw.
    assert (Hle : u ≤ Unix now').
    { apply elem_of_app in Hu as [Hu|Hu]; [by apply Hp|]. apply list_elem_of_singleton in Hu. lia. }
    unfold zlive. rewrite Hst. destruct (Z.leb_spec (now' + WindowSize config) later) as [Hx|_].
    { pose proof (window_open now' later ltac:(lia)). lia. }
    destruct (decide (u = Unix now')) as [->|Hne]; [by rewrite lookup_insert_eq|].
    rewrite lookup_insert_ne by (by intros Hi%Itoa_inj). apply map_lookup_filter_Some.
    apply elem_of_app in Hu as [Hu|Hu]; [|by apply list_elem_of_singleton in Hu].
    pose proof (Unix_mono _ _ Hl). split; [apply Hc; [lia|done|lia]|simpl; lia].
  - intros u Hu. apply elem_of_app in Hu as [Hu|Hu]; [by apply Hp|].
    apply list_elem_of_singleton in Hu. lia.
Qed.
Lemma tracks_other key key' now now' ts st st' : key ≠ key' → now ≤ now' → tracks key now ts st →
  (zrun now' (limiter_cmds config now' key') st).2 = st' → tracks key now' ts st'.
Proof.
  intros Hk Hn Ht <-. pose proof (tracks_later _ _ _ _ _ Hn Ht) as [Hs Hc Hp].
  pose proof (limiter_cmds_run now' key' st) as Hrun. cbv zeta in Hrun.
  destruct (zrun now' (limiter_cmds config now' key') st) as [replies st']. simpl.
  destruct Hrun as (_ & _ & Ho).
  assert (Hl : ∀ later, zlive later st' key = zlive later st key) by (intros; unfold zlive; by rewrite Ho).
  split; [intros later; rewrite Hl; apply Hs | intros later; rewrite Hl; apply Hc | done].
Qed.

(** The distinct seconds of the window that ends at [now]. *)
Definition busy_seconds (now : Z) (ts : list Z) : list Z :=
  remove_dups (filter (λ u, Unix now - win < u) ts).

Lemma tracks_count key now ts st : tracks key now ts st →
  size (in_window now (zlive now st key)) = length (busy_seconds now ts).
Proof.
  intros [Hs Hc Hp].
  assert (Hnd : NoDup ((λ u, (Itoa u, u)) <$> busy_seconds now ts).*1).
  { rewrite <- list_fmap_compose. apply NoDup_fmap_2; [|apply NoDup_remove_dups].
    intros u v Huv. simpl in Huv. by apply Itoa_inj. }
  assert (Heq : in_window now (zlive now st key) =
                list_to_map ((λ u, (Itoa u, u)) <$> busy_seconds now ts)).
  { apply map_eq. intros m. apply option_eq. intros s.
    rewrite <- elem_of_list_to_map by done. unfold in_window. rewrite map_lookup_filter_Some.
    rewrite list_elem_of_fmap. unfold busy_seconds. split.
    - intros [Hl Hw]. destruct (Hs _ _ _ Hl) as [-> Hin]. exists s. split; [done|].
      apply elem_of_remove_dups, list_elem_of_filter. simpl in Hw. destruct (Hp s Hin). split; [lia|done].
    - intros (u & [= -> ->] & Hu). apply elem_of_remove_dups, list_elem_of_filter in Hu as [Hu Hin].
      split; [by apply Hc | simpl; lia]. }
  rewrite Heq, map_size_list_to_map by done. by rewrite length_fmap.
Qed.

Lemma busy_seconds_bound now ts : (∀ u, u ∈ ts → u ≤ Unix now) →
  Z.of_nat (length (busy_seconds now ts)) ≤ win.
Proof.
  intros Hp. pose proof win_nonneg.
  assert (Hsub : busy_seconds now ts ⊆+ seqZ (Unix now - win + 1) win).
  { apply NoDup_submseteq; [apply NoDup_remove_dups|]. intros u Hu.
    apply elem_of_remove_dups, list_elem_of_filter in Hu as [Hu Hin]. apply elem_of_seqZ.
    specialize (Hp u Hin). lia. }
  apply submseteq_length in Hsub. rewrite length_seqZ in Hsub. lia.
Qed.

(** Calls of the limiter that all found Redis up, the clock going forward. *)
Fixpoint run_calls (calls : list (Z * (string * string))) (r : R) : option R :=
  match calls with
  | [] => Some r
  | (now, (c, m)) :: rest =>
      match isAllowed config now c m r with (Ok _, r') => run_calls rest r' | (Err _, _) => None end
  end.
Definition seconds_of (key : string) (calls : list (Z * (string * string))) : list Z :=
  (λ c, Unix c.1) <$> filter (λ c, limiter_key config c.2.1 c.2.2 = key) calls.
Fixpoint forward (now : Z) (calls : list (Z * (string * string))) : Prop :=
  match calls with [] => True | c :: rest => now ≤ c.1 ∧ forward c.1 rest end.
Definition end_time (now : Z) (calls : list (Z * (string * string))) : Z := foldl (λ _ c, c.1) now calls.

Lemma isAllowed_ok now c m r b r' : isAllowed config now c m r = (Ok b, r') →
  (zrun now (limiter_cmds config now (limiter_key config c m)) (zabs r)).2 = zabs r' ∧
  b = (Z.of_nat (size (in_window now (zlive now (zabs r) (limiter_key config c m)))) <? RequestsPerSecond config)%Z.
Proof.
  unfold isAllowed. intros (replies & r1 & Hp & [= <- <-])%bind_ok_inv. apply pipe_Exec_ok in Hp.
  pose proof (limiter_cmds_run now (limiter_key config c m) (zabs r)) as Hrun. cbv zeta in Hrun.
  rewrite Hp in *. simpl. destruct Hrun as [-> _]. done.
Qed.

Lemma run_calls_tracks key calls now ts r r' : 0 ≤ now → forward now calls → run_calls calls r = Some r' →
  tracks key now ts (zabs r) → tracks key (end_time now calls) (ts ++ seconds_of key calls) (zabs r').
Proof.
  revert now ts r. induction calls as [|[t [c m]] calls IH]; intros now ts r Hz Hf Hr Ht; simpl in *.
  - injection Hr as <-. by rewrite app_nil_r.
  - destruct Hf as [Hn Hf]. destruct (isAllowed config t c m r) as [[b|e] r1] eqn:Ea; [|done].
    apply isAllowed_ok in Ea as [Hst _]. unfold seconds_of. rewrite filter_cons. cbn [fst snd].
    destruct (decide (limiter_key config c m = key)) as [<-|Hne].
    + rewrite fmap_cons, cons_middle, (assoc_L (++)).
      apply (IH t (ts ++ [Unix t]) r1); [lia|done|done|].
      eapply tracks_request; [exact Hn|lia|exact Ht|exact Hst].
    + apply (IH t ts r1); [lia|done|done|].
      eapply tracks_other; [|exact Hn|exact Ht|exact Hst]. congruence.
Qed.
End limiter_lemmas.

(** ** Properties *)

(** The limiter counts seconds.  After any sequence of successful calls,
    the next call of a client for a method is allowed exactly when fewer
    distinct seconds of the window held a call of that client for that method
    than the configured rate, refused calls included: all calls of one second
    count once. *)
Theorem limiter_counts_seconds {R} `{RedisPipeLaws R} config calls (r0 r r' : R) t0 now c m b :
  0 < WindowSize config → 0 ≤ t0 → zabs r0 = ∅ →
  forward t0 calls → end_time t0 calls ≤ now → run_calls config calls r0 = Some r →
  isAllowed config now c m r = (Ok b, r') →
  b = (Z.of_nat (length (busy_seconds config now (seconds_of config (limiter_key config c m) calls)))
       <? RequestsPerSecond config)%Z.
Proof.
  intros Hw Ht0 Hr0 Hf He Hrun Ha. set (key := limiter_key config c m).
  assert (Hi : tracks config key t0 [] (zabs r0)).
  { rewrite Hr0. split; [|intros later u _ Hu; by apply elem_of_nil in Hu|intros u Hu; by apply elem_of_nil in Hu].
    intros later mm s Hl. unfold zlive in Hl. by rewrite lookup_empty in Hl. }
  pose proof (run_calls_tracks config Hw key calls t0 [] r0 r Ht0 Hf Hrun Hi) as Ht. simpl in Ht.
  apply (tracks_later config key _ now) in Ht; [|done].
  apply isAllowed_ok in Ha as [_ ->]. fold key. by rewrite (tracks_count config key now _ _ Ht).
Qed.

Lemma seconds_of_past config key calls t0 now u : forward t0 calls → end_time t0 calls ≤ now →
  u ∈ seconds_of config key calls → u ≤ Unix now.
Proof.
  revert t0. induction calls as [|[t cm] calls IH]; intros t0 Hf He Hu; simpl in *.
  - by apply elem_of_nil in Hu.
  - destruct Hf as [Hn Hf]. unfold seconds_of in Hu. rewrite filter_cons in Hu.
    destruct (decide _); [apply elem_of_cons in Hu as [->|Hu]|]; [|by eapply IH..].
    apply Unix_mono. simpl. clear -Hf He. revert t Hf He.
    induction calls as [|c calls IH]; intros t Hf He; simpl in *; [done|].
    destruct Hf as [Hc Hf]. specialize (IH _ Hf He). lia.
Qed.

(** The server's limiter never refuses.  The server allows 1000 requests
    per second in a window of one minute; a window of one minute has sixty
    seconds, so whatever a client sends the limiter lets it pass as long as
    Redis answers. *)
Theorem server_limiter_never_refuses {R L} `{RedisPipeLaws R} `{LimiterLib L} calls (r0 r : R) t0 now req m
    (l : L) out :
  0 ≤ t0 → zabs r0 = ∅ → forward t0 calls → end_time t0 calls ≤ now →
  run_calls server_limiter calls r0 = Some r →
  is_ok (pipe_Exec now (limiter_cmds server_limiter now
           (limiter_key server_limiter (getClientIdentifier req) m)) r).1 = true →
  (limit server_limiter now req m (r, l)).1 = Ok out → out = None.
Proof.
  intros Ht0 Hr0 Hf He Hrun Hup. unfold limit. simpl.
  destruct (isAllowed server_limiter now (getClientIdentifier req) m r) as [[b|e] r'] eqn:Ea.
  - assert (Hb : b = true); [|by subst b; intros [= <-]].
    set (key := limiter_key server_limiter (getClientIdentifier req) m).
    assert (Hw : 0 < WindowSize server_limiter) by (unfold server_limiter, Minute, Second, Millisecond; simpl; lia).
    assert (Hi : tracks server_limiter key t0 [] (zabs r0)).
    { rewrite Hr0. split; [|intros later u _ Hu; by apply elem_of_nil in Hu|intros u Hu; by apply elem_of_nil in Hu].
      intros later mm s Hl. unfold zlive in Hl. by rewrite lookup_empty in Hl. }
    pose proof (run_calls_tracks server_limiter Hw key calls t0 [] r0 r Ht0 Hf Hrun Hi) as Ht. simpl in Ht.
    apply (tracks_later server_limiter key _ now) in Ht; [|done].
    apply isAllowed_ok in Ea as [_ ->]. fold key. rewrite (tracks_count server_limiter key now _ _ Ht).
    apply Z.ltb_lt. pose proof (busy_seconds_bound server_limiter Hw now (seconds_of server_limiter key calls)
      (λ u, seconds_of_past server_limiter key calls t0 now u Hf He)) as Hbd.
    assert (Hwin : window_seconds server_limiter = 60) by reflexivity. simpl. lia.
  - exfalso. unfold isAllowed, bind in Ea. destruct (pipe_Exec _ _ r) as [[|] ?]; [done|].
    done.
Qed.

Lemma bearer_differs tok : String.eqb tok ("Bearer " +:+ tok) = false.
Proof.
  apply String.eqb_neq. intros Heq. apply (f_equal str_len) in Heq. rewrite str_len_app in Heq.
  unfold str_len in *. simpl in Heq. lia.
Qed.

(** The metadata of a request that brings a bearer token. *)
Definition with_bearer (tok : string) (peer : option string) : Incoming :=
  mkIncoming (Some (<["authorization" := ["Bearer " +:+ tok]]> ∅)) peer.

Lemma authenticate_bearer `{JwtLib} `{UuidLib} ai now m tok peer :
  in_methods (ai_publicMethods ai) m = false →
  authenticate ai now m (with_bearer tok peer) =
  match validateJWT ai now tok with
  | Ok claims => Ok (addUserContext claims (with_bearer tok peer))
  | Err _ => Err (ErrorStatus Unauthenticated "invalid token")
  end.
Proof.
  intros Hm. unfold authenticate, with_bearer. rewrite Hm. simpl. unfold md_Get.
  rewrite lookup_insert_eq, lookup_insert_ne, lookup_empty, andb_false_r by done. simpl.
  change (String "B" (String "e" (String "a" (String "r" (String "e" (String "r" (String " " tok)))))))
    with ("Bearer " +:+ tok).
  rewrite TrimPrefix_app, bearer_differs. by destruct (validateJWT ai now tok).
Qed.

(** C8: who gets past the interceptor.  A call that is handed on is for a
    public method, or for a service method with the configured, non-empty
    service key, or it carries a bearer token that parses under the secret;
    in the last case the handler sees the identity of the token and nothing
    of the metadata the client sent. *)
Theorem authenticate_sound `{JwtLib} `{UuidLib} ai now m r r' :
  authenticate ai now m r = Ok r' →
  (m ∈ ai_publicMethods ai ∧ r' = r) ∨
  (m ∈ ai_serviceKeyMethods ai ∧ r' = r ∧ ai_serviceKey ai ≠ "" ∧
   ∃ md rest, in_md r = Some md ∧ md_Get md "x-service-key" = ai_serviceKey ai :: rest) ∨
  (∃ md tok rest c, in_md r = Some md ∧ md_Get md "authorization" = ("Bearer " +:+ tok) :: rest ∧
     jwt_ParseWithClaims now tok (λ _ _, Ok (ai_jwtSecret ai)) = Ok (c, true) ∧
     r' = addUserContext (claims_of c) r).
Proof.
  assert (Hin : ∀ l, in_methods l m = true → m ∈ l).
  { intros l (x & Hx & ->%String.eqb_eq)%existsb_exists. by apply list_elem_of_In. }
  unfold authenticate. destruct (in_methods (ai_publicMethods ai) m) eqn:Ep.
  { intros [= <-]. left. split; [by apply Hin | done]. }
  destruct (in_md r) as [md|]; [|done].
  destruct (in_methods (ai_serviceKeyMethods ai) m && _) eqn:Ek.
  { intros [= <-]. right; left. apply andb_true_iff in Ek as [Es Ek].
    destruct (md_Get md "x-service-key") as [|k rest] eqn:Eg; [done|].
    unfold validateServiceKey in Ek. apply andb_true_iff in Ek as [->%String.eqb_eq Ene].
    apply negb_true_iff, String.eqb_neq in Ene. split_and!; [by apply Hin|done|done|by exists md, rest]. }
  destruct (md_Get md "authorization") as [|h rest] eqn:Eh; [done|].
  destruct (String.eqb (TrimPrefix h "Bearer ") h) eqn:Et; [done|].
  unfold validateJWT. destruct (jwt_ParseWithClaims _ _ _) as [[c []]|e] eqn:Ej; simpl; [|done|done].
  intros [= <-]. right; right.
  assert (Hh : HasPrefix h "Bearer " = true).
  { destruct (HasPrefix h "Bearer ") eqn:E; [done|]. unfold TrimPrefix in Et. by rewrite E, String.eqb_refl in Et. }
  apply HasPrefix_spec in Hh as [tok ->]. rewrite TrimPrefix_app in Ej.
  exists md, tok, rest, c. done.
Qed.

(** The interceptor trusts the signature alone.  A token minted with the
    configured secret passes the interceptor as long as its own dates admit
    it, refresh tokens too, although [RevokeToken] has succeeded and the token
    service refuses it, whatever ran in between. *)
Theorem revoked_token_passes_interceptor {C R D} `{CacheOps C} `{RedisLaws R} `{TokenRepository D}
    `{JwtLaws} `{UuidLib} `{ClaimsJson} sha256_hex config svc s jti u o e ty sec sid t0 exp tok now
    (w w1 w2 : TSW C R D) now2 now3 m peer :
  ts_currentKey s = jc_Secret config → minted config s jti u o e ty sec sid t0 exp tok →
  0 < seconds (jc_RefreshExpiry config) →
  RevokeToken sha256_hex config now tok w = (Ok tt, w1) →
  star (tstep sha256_hex config) (now, w1) (now2, w2) → now3 < now + seconds (jc_RefreshExpiry config) →
  time_valid now3 (mintClaims (ts_keyVersion s) jti u o e ty sec sid t0 exp) = true →
  in_methods (ai_publicMethods (NewAuthInterceptor (jc_Secret config) svc)) m = false →
  (ValidateToken sha256_hex config now3 tok w2).1 = Err (ErrorString "token is blacklisted") ∧
  authenticate (NewAuthInterceptor (jc_Secret config) svc) now3 m (with_bearer tok peer) =
    Ok (addUserContext (mkClaims u o e) (with_bearer tok peer)).
Proof.
  intros Hk [_ Hs] Hp Hr Hrun Hn Hv Hm. split.
  - pose proof (RevokeToken_blacklists _ _ _ _ _ _ Hp Hr) as Hb.
    eapply ValidateToken_refuses; [by eapply blacklisted_runs | exact Hn].
  - rewrite authenticate_bearer by done. unfold validateJWT. simpl ai_jwtSecret. rewrite Hk in Hs.
    rewrite (jwt_Parse_signed _ _ _ now3 (λ _ _, Ok (jc_Secret config)) Hs eq_refl Hv). done.
Qed.

(** A key rotation locks everybody out.  After the token service has
    rotated to a key other than the configured secret, the tokens it mints are
    accepted by its own key function and refused by the gRPC interceptor and
    the HTTP middleware, which know only the configured secret. *)
Theorem rotation_locks_out `{JwtLaws} `{UuidLib} config svc s key jti u o e ty sec sid t0 exp tok now m peer :
  key ≠ jc_Secret config →
  let s' := w_ts (rotateKeys (Ok key) (mkTSW s tt tt tt)).2 in
  minted config s' jti u o e ty sec sid t0 exp tok →
  time_valid now (mintClaims (ts_keyVersion s') jti u o e ty sec sid t0 exp) = true →
  in_methods (ai_publicMethods (NewAuthInterceptor (jc_Secret config) svc)) m = false →
  is_ok (jwt_ParseWithClaims now tok (select_key s')) = true ∧
  authenticate (NewAuthInterceptor (jc_Secret config) svc) now m (with_bearer tok peer) =
    Err (ErrorStatus Unauthenticated "invalid token") ∧
  gc_answer (AuthMiddleware (jc_Secret config) now
    (mkGin (<["Authorization" := "Bearer " +:+ tok]> ∅) ∅ None)) = Some (StatusUnauthorized, "Invalid token").
Proof.
  intros Hne s' [_ Hs] Hv Hm.
  assert (Hkey : ts_currentKey s' = key) by done. rewrite Hkey in Hs.
  assert (Href : is_ok (jwt_ParseWithClaims now tok (λ _ _, Ok (jc_Secret config))) = false).
  { eapply jwt_Parse_refused; [exact Hs|]. congruence. }
  split_and!.
  - rewrite (jwt_Parse_signed _ _ _ now (select_key s') Hs); [done| |done].
    unfold select_key. simpl. by rewrite Z.eqb_refl.
  - rewrite authenticate_bearer by done. unfold validateJWT. simpl ai_jwtSecret.
    by destruct (jwt_ParseWithClaims now tok (λ _ _, Ok (jc_Secret config))).
  - unfold AuthMiddleware, GetHeader. simpl gc_headers. rewrite lookup_insert_eq. simpl default.
    change (String.eqb (String "B" ?x) "") with false. cbv iota.
    change (String "B" (String "e" (String "a" (String "r" (String "e" (String "r" (String " " tok)))))))
      with ("Bearer " +:+ tok).
    rewrite TrimPrefix_app, bearer_differs.
    by destruct (jwt_ParseWithClaims now tok (λ _ _, Ok (jc_Secret config))).
Qed.

(** The protected HTTP routes: a request that is not aborted has the user and
    organization of a token under the secret, the latter as its tenant. *)
Theorem protected_route_spec `{JwtLib} secret now c :
  gc_answer c = None →
  let c' := chain [AuthMiddleware secret now; TenantMiddleware] c in
  gc_answer c' = None →
  ∃ tok claims, GetHeader c "Authorization" = "Bearer " +:+ tok ∧
    jwt_ParseWithClaims now tok (λ _ _, Ok secret) = Ok (claims, true) ∧
    gc_keys c' !! "user_id" = Some (CUuid (tc_UserID claims)) ∧
    gc_keys c' !! "tenant_id" = Some (CUuid (tc_OrganizationID claims)).
Proof.
  intros Hc. unfold chain. simpl. rewrite Hc. unfold AuthMiddleware.
  set (h := GetHeader c "Authorization"). destruct (String.eqb h "") eqn:Ee; [by simpl|].
  destruct (String.eqb (TrimPrefix h "Bearer ") h) eqn:Et; [by simpl|].
  destruct (jwt_ParseWithClaims now (TrimPrefix h "Bearer ") _) as [[claims []]|e] eqn:Ej; [|by simpl|by simpl].
  simpl. rewrite Hc. unfold TenantMiddleware. simpl.
  rewrite lookup_insert_ne, lookup_insert_eq by done. simpl. intros _.
  assert (Hh : HasPrefix h "Bearer " = true).
  { destruct (HasPrefix h "Bearer ") eqn:E; [done|]. unfold TrimPrefix in Et. by rewrite E, String.eqb_refl in Et. }
  apply HasPrefix_spec in Hh as [tok Hh]. rewrite Hh, TrimPrefix_app in Ej.
  exists tok, claims. split_and!; [done|done| |by rewrite lookup_insert_eq].
  by rewrite !lookup_insert_ne, lookup_insert_eq by done.
Qed.

(** The limiter runs before authentication and trusts the metadata: a client
    chooses the bucket it is counted in. *)
Theorem client_chooses_its_bucket config u r m :
  limiter_key config (getClientIdentifier (mkIncoming (Some (<["user-id" := [u]]> (default ∅ (in_md r)))) (in_peer r))) m =
  limiter_key config ("user:" +:+ u) m.
Proof. unfold getClientIdentifier, md_Get. simpl. by rewrite lookup_insert_eq. Qed.

(** ** Witnesses *)

#[local] Existing Instances ref_uuid ref_json ref_json_laws ref_jwt ref_jwt_laws.

(** A pipeline that runs its commands. *)
#[local] Instance ref_pipe : RedisPipe zstore := {
  pipe_Exec now cmds := λ st, let '(replies, st') := zrun now cmds st in (Ok replies, st') }.
#[local, refine] Instance ref_pipe_laws : RedisPipeLaws zstore := { zabs st := st }.
Proof. intros now cmds r replies r'. simpl. destruct (zrun now cmds r). by intros [= <- <-]. Defined.
#[local] Instance ref_limiter : LimiterLib unit := { limiter_Allow now l := (true, l) }.

Definition ref_two_per_window : RateLimiterConfig := mkRLConfig 2 1 Minute "ratelimit".
(** Three calls of one client in one second, and one of another. *)
Definition ref_calls : list (Z * (string * string)) :=
  [(Second, ("ip:a", "m")); (Second + 1, ("ip:a", "m")); (Second + 2, ("ip:b", "m"));
   (Second + 3, ("ip:a", "m"))].
Definition ref_after_calls : zstore := default ∅ (run_calls ref_two_per_window ref_calls ∅).

Lemma ref_calls_run : run_calls ref_two_per_window ref_calls ∅ = Some ref_after_calls.
Proof. vm_refl. Qed.
Lemma ref_calls_forward config : config = ref_two_per_window ∨ config = server_limiter →
  forward 0 ref_calls ∧ end_time 0 ref_calls ≤ 2 * Second.
Proof. intros _. vm_compute. repeat split; discriminate. Qed.
Lemma ref_busy : length (busy_seconds ref_two_per_window (2 * Second)
  (seconds_of ref_two_per_window (limiter_key ref_two_per_window "ip:a" "m") ref_calls)) = 1%nat.
Proof. vm_refl. Qed.

Definition ref_fourth : res error bool * zstore :=
  isAllowed ref_two_per_window (2 * Second) "ip:a" "m" ref_after_calls.
Lemma ref_fourth_ok : is_ok ref_fourth.1 = true.
Proof. vm_refl. Qed.

(** Three calls of one second leave room for another under a limit of two. *)
Example limiter_counts_seconds_witness : ref_fourth.1 = Ok true.
Proof.
  destruct (run_ok ref_fourth ref_fourth_ok) as [b Hb].
  pose proof (limiter_counts_seconds ref_two_per_window ref_calls ∅ ref_after_calls ref_fourth.2 0 (2 * Second)
    "ip:a" "m" b ltac:(reflexivity) ltac:(done) eq_refl
    (proj1 (ref_calls_forward _ (or_introl eq_refl))) (proj2 (ref_calls_forward _ (or_introl eq_refl)))
    ref_calls_run Hb) as He.
  rewrite ref_busy in He. rewrite Hb, He. reflexivity.
Defined.

Definition ref_request : Incoming := mkIncoming None (Some "a").
Lemma ref_server_run : run_calls server_limiter ref_calls ∅ =
  Some (default ∅ (run_calls server_limiter ref_calls (∅ : zstore))).
Proof. vm_refl. Qed.
Definition ref_server_store : zstore := default ∅ (run_calls server_limiter ref_calls ∅).
Definition ref_limit : res error (option error) :=
  (limit server_limiter (2 * Second) ref_request "m" (ref_server_store, tt)).1.
Lemma ref_limit_ok : match ref_limit with Ok _ => true | Err _ => false end = true.
Proof. vm_refl. Qed.
Lemma ref_server_up : is_ok (pipe_Exec (2 * Second) (limiter_cmds server_limiter (2 * Second)
  (limiter_key server_limiter (getClientIdentifier ref_request) "m")) ref_server_store).1 = true.
Proof. vm_refl. Qed.
Example server_limiter_never_refuses_witness : ref_limit = Ok None.
Proof.
  pose proof ref_limit_ok as Hok. destruct ref_limit as [out|e] eqn:E; [|discriminate Hok]. f_equal.
  exact (server_limiter_never_refuses ref_calls ∅ ref_server_store 0 (2 * Second) ref_request "m" tt out ltac:(done)
    eq_refl (proj1 (ref_calls_forward _ (or_intror eq_refl))) (proj2 (ref_calls_forward _ (or_intror eq_refl)))
    ref_server_run ref_server_up E).
Defined.

Definition ref_ai : AuthInterceptor := NewAuthInterceptor "secret" "internal-service-key".
Definition ref_pass : res error Incoming :=
  authenticate ref_ai Second "/auth.AuthService/UpdateUser" (with_bearer ref_access (Some "1.2.3.4:5")).
Definition ref_passed : Incoming := match ref_pass with Ok r => r | Err _ => ref_request end.
Lemma ref_pass_ok : ref_pass = Ok ref_passed.
Proof. vm_refl. Qed.
Lemma ref_method_protected : in_methods (ai_publicMethods ref_ai ++ ai_serviceKeyMethods ref_ai)
  "/auth.AuthService/UpdateUser" = false.
Proof. vm_refl. Qed.

Example authenticate_sound_witness :
  ∃ tok c, jwt_ParseWithClaims Second tok (λ _ _, Ok "secret") = Ok (c, true) ∧
    ref_passed = addUserContext (claims_of c) (with_bearer ref_access (Some "1.2.3.4:5")).
Proof.
  assert (Hno : ∀ l l', in_methods (l ++ l') "/auth.AuthService/UpdateUser" = false →
    "/auth.AuthService/UpdateUser" ∉ l ∧ "/auth.AuthService/UpdateUser" ∉ l').
  { intros l l' Hf. assert (∀ x, x ∈ l ++ l' → x ≠ "/auth.AuthService/UpdateUser").
    { intros x Hx ->. assert (in_methods (l ++ l') "/auth.AuthService/UpdateUser" = true); [|congruence].
      apply existsb_exists. exists "/auth.AuthService/UpdateUser". split; [by apply list_elem_of_In|].
      apply String.eqb_refl. }
    split; intros Hin; eapply H; [|reflexivity| |reflexivity]; apply elem_of_app; [by left|by right]. }
  destruct (Hno _ _ ref_method_protected) as [Hp Hs].
  destruct (authenticate_sound ref_ai Second "/auth.AuthService/UpdateUser"
    (with_bearer ref_access (Some "1.2.3.4:5")) ref_passed ref_pass_ok)
    as [[Hin _]|[[Hin _]|(md & tok & rest & c & _ & _ & Hj & Hr)]].
  - by destruct Hp.
  - by destruct Hs.
  - by exists tok, c.
Defined.

Definition ref_refresh_token : string := tp_RefreshToken ref_pair.
Lemma ref_minted_refresh : minted ref_config (w_ts ref_tsw) 13 7 9 "a@b.c" RefreshToken None "sid" 0
  (604800 * Second) ref_refresh_token.
Proof. split; vm_refl. Qed.
Definition ref_revoked : res error unit * TSW ref_cache ref_redis ref_tokens :=
  RevokeToken ref_hash ref_config Second ref_refresh_token ref_login.2.
Lemma ref_revoked_run : ref_revoked.1 = Ok tt.
Proof. vm_refl. Qed.

(** A revoked refresh token authenticates a call. *)
Example revoked_token_passes_interceptor_witness :
  (ValidateToken ref_hash ref_config Hour ref_refresh_token ref_revoked.2).1
    = Err (ErrorString "token is blacklisted") ∧
  authenticate ref_ai Hour "/auth.AuthService/UpdateUser" (with_bearer ref_refresh_token None) =
    Ok (addUserContext (mkClaims 7 9 "a@b.c") (with_bearer ref_refresh_token None)).
Proof.
  apply (revoked_token_passes_interceptor ref_hash ref_config "internal-service-key" (w_ts ref_tsw)
    13 7 9 "a@b.c" RefreshToken None "sid" 0 (604800 * Second) ref_refresh_token Second
    ref_login.2 ref_revoked.2 ref_revoked.2 Second Hour "/auth.AuthService/UpdateUser" None eq_refl
    ref_minted_refresh eq_refl (run_split _ _ ref_revoked_run) (star_refl _ _)); reflexivity.
Defined.

Definition ref_new_key_token : string :=
  text_of_list ("fresh key" :: claims_fields (mintClaims 2 11 7 9 "a@b.c" AccessToken None "sid" 0 (3600 * Second))).
Example rotation_locks_out_witness :
  authenticate ref_ai Second "/auth.AuthService/UpdateUser" (with_bearer ref_new_key_token None) =
    Err (ErrorStatus Unauthenticated "invalid token").
Proof.
  apply (rotation_locks_out ref_config "internal-service-key" (w_ts ref_tsw) "fresh key"
    11 7 9 "a@b.c" AccessToken None "sid" 0 (3600 * Second) ref_new_key_token Second
    "/auth.AuthService/UpdateUser" None); [discriminate | split; vm_refl | reflexivity | reflexivity].
Defined.
