(* ===== verification/Grpc.v ===== *)
(** * The gRPC server (src/internal/grpc/server.go)

    The messages of src/proto/auth.proto the handlers read and fill, the
    conversions, the fallback cache manager, the event publisher, and the
    handlers that go through the services.  The handlers on the database are
    in GrpcAdmin.v.  Every handler answers with a message and a nil error.

    [Srv] is the state a handler works on.  The authentication service keeps
    its own view of the user and organization rows (AuthService.v); the
    permission service works on the cache and the database of the server.  A
    timestamp message is the instant it stands for; [prometheus] metrics and
    the logger are left out. *)

From S2P Require Import Prelude Errors Models Ifaces Database Repos RateLimiter TokenService.
From S2P Require Import Permission AuthService Cache Breaker Events.

#[local] Open Scope Z_scope.

(** github.com/google/uuid: [uuid.Parse]. *)
Class UuidParse := uuid_Parse : string → res error N.

(** Conversions to 32-bit integers. *)
Definition wrap32 (z : Z) : Z := (z + 2 ^ 31) mod 2 ^ 32 - 2 ^ 31.

(** ** Messages *)

Record PbSecurityContext := mkPbSecurityContext {
  psc_IpAddress : string; psc_UserAgent : string; psc_DeviceFingerprint : string;
  psc_SessionId : string }.
(** The generated getters answer the zero value for a nil message. *)
Definition GetIpAddress (sc : option PbSecurityContext) : string :=
  match sc with Some c => psc_IpAddress c | None => "" end.
Definition GetUserAgent (sc : option PbSecurityContext) : string :=
  match sc with Some c => psc_UserAgent c | None => "" end.
Definition GetSessionId (sc : option PbSecurityContext) : string :=
  match sc with Some c => psc_SessionId c | None => "" end.

Record PbPermission := mkPbPermission {
  pp_Id : string; pp_Name : string; pp_Description : string; pp_Resource : string;
  pp_Action : string; pp_Scope : string; pp_IsSystem : bool; pp_CreatedAt : Z; pp_UpdatedAt : Z }.
Record PbRole := mkPbRole {
  pr_Id : string; pr_OrganizationId : string; pr_Name : string; pr_Description : string;
  pr_IsSystem : bool; pr_IsActive : bool; pr_Permissions : list PbPermission;
  pr_CreatedAt : Z; pr_UpdatedAt : Z }.
(** The messages [User] and [Organization] hold each other: the organization
    is a record over the type of its users, tied where the user is declared. *)
Record PbOrganizationOf (U : Type) := mkPbOrganization {
  po_Id : string; po_Name : string; po_Domain : string; po_IsActive : bool; po_CreatedAt : Z;
  po_UpdatedAt : Z; po_Users : list U; po_UserCount : Z; po_ActiveUserCount : Z;
  po_Roles : list PbRole }.
Arguments mkPbOrganization {U}. Arguments po_Id {U}. Arguments po_Name {U}. Arguments po_Domain {U}.
Arguments po_IsActive {U}. Arguments po_CreatedAt {U}. Arguments po_UpdatedAt {U}. Arguments po_Users {U}.
Arguments po_UserCount {U}. Arguments po_ActiveUserCount {U}. Arguments po_Roles {U}.
Inductive PbUser := mkPbUser {
  pu_Id : string; pu_OrganizationId : string; pu_Email : string; pu_FirstName : string;
  pu_LastName : string; pu_IsActive : bool; pu_IsVerified : bool; pu_LastLoginAt : option Z;
  pu_CreatedAt : Z; pu_UpdatedAt : Z; pu_Organization : option (PbOrganizationOf PbUser) }.
Definition PbOrganization : Type := PbOrganizationOf PbUser.
Record PbTokenPair := mkPbTokenPair {
  pt_AccessToken : string; pt_RefreshToken : string; pt_ExpiresAt : Z; pt_RefreshExpiresAt : Z;
  pt_TokenType : string }.

(** ** Conversions *)
Section conversions.
Context `{UuidLib}.

(** [org]: the loaded organization, [None] for the zero value. *)
Definition convertUserToProto (user : User) (org : option Organization) : PbUser :=
  mkPbUser (uuid_String (u_ID user)) (uuid_String (u_OrganizationID user)) (u_Email user)
    (u_FirstName user) (u_LastName user) (u_IsActive user) (u_IsVerified user) (u_LastLoginAt user)
    (u_CreatedAt user) (u_UpdatedAt user)
    ((λ o, mkPbOrganization (uuid_String (o_ID o)) (o_Name o) (o_Domain o) (o_IsActive o)
             (o_CreatedAt o) (o_UpdatedAt o) [] 0 0 []) <$> org).
Definition convertPermissionToProto (perm : Permission) : PbPermission :=
  mkPbPermission (uuid_String (p_ID perm)) (p_Name perm) (p_Description perm) (p_Resource perm)
    (p_Action perm) (p_Scope perm) (p_IsSystem perm) (p_CreatedAt perm) (p_UpdatedAt perm).
Definition zero_permission : Permission :=
  mkPermission uuid_Nil "" "" "" "" None "" false zero_time zero_time.
(** [perms]: the permission of each preloaded assignment, the zero value
    where there is none. *)
Definition convertRoleToProto (role : Role) (perms : list (option Permission)) : PbRole :=
  mkPbRole (uuid_String (r_ID role)) (uuid_String (r_OrganizationID role)) (r_Name role)
    (r_Description role) (r_IsSystem role) (r_IsActive role)
    ((λ p, convertPermissionToProto (default zero_permission p)) <$> perms)
    (r_CreatedAt role) (r_UpdatedAt role).
Definition convertOrganizationToProto (org : Organization) (users : list User)
    (roles : list (Role * list (option Permission))) : PbOrganization :=
  mkPbOrganization (uuid_String (o_ID org)) (o_Name org) (o_Domain org) (o_IsActive org)
    (o_CreatedAt org) (o_UpdatedAt org) ((λ u, convertUserToProto u None) <$> users)
    (wrap32 (Z.of_nat (length users)))
    (foldl (λ n u, if u_IsActive u then wrap32 (n + 1) else n) 0 users)
    ((λ r, convertRoleToProto r.1 r.2) <$> roles).
Definition convertEntityUserToProto (user : EUser) : PbUser :=
  mkPbUser (uuid_String (eu_ID user)) (uuid_String (eu_OrganizationID user)) (eu_Email user)
    (eu_FirstName user) (eu_LastName user) (eu_IsActive user) (eu_IsVerified user)
    (eu_LastLoginAt user) (eu_CreatedAt user) (eu_UpdatedAt user) None.
Definition convertEntityTokenPairToProto (t : TokenPair) : PbTokenPair :=
  mkPbTokenPair (tp_AccessToken t) (tp_RefreshToken t) (tp_ExpiresAt t) (tp_RefreshExpiresAt t)
    (tp_TokenType t).
End conversions.

(** ** The state of the server *)

(** What the activity service is told; its errors are ignored. *)
Inductive Activity :=
| LogLogin (userID organizationID : N) (ip agent : string)
| LogLoginFailed (email ip agent : string) (organizationID : N).

(** [sv_activity] is [None] without an activity service. *)
Record Srv (D C CB A : Type) := mkSrv {
  sv_db : D; sv_cache : C; sv_breakers : CircuitBreakerManager CB; sv_auth : A;
  sv_activity : option (list Activity) }.
Arguments mkSrv {D C CB A}. Arguments sv_db {D C CB A}. Arguments sv_cache {D C CB A}.
Arguments sv_breakers {D C CB A}. Arguments sv_auth {D C CB A}. Arguments sv_activity {D C CB A}.

Section state.
Context {D C CB A : Type}.
Abbreviation S := (Srv D C CB A).
Abbreviation MF := (GoM (option error)).

Definition on_sdb {X} (m : M D X) : M S X :=
  zoom sv_db (λ d s, mkSrv d (sv_cache s) (sv_breakers s) (sv_auth s) (sv_activity s)) m.
Definition on_scache {X} (m : M C X) : M S X :=
  zoom sv_cache (λ c s, mkSrv (sv_db s) c (sv_breakers s) (sv_auth s) (sv_activity s)) m.
Definition on_sauth {X} (m : MF A X) : MF S X :=
  λ s, let (r, a) := m (sv_auth s) in
       (r, mkSrv (sv_db s) (sv_cache s) (sv_breakers s) a (sv_activity s)).
(** The permission service: the cache manager and the repository of the
    server's database. *)
Definition on_permissions {X} (m : MF (PSW C D) X) : MF S X :=
  λ s, let (r, w) := m (mkPSW (sv_cache s) (sv_db s)) in
       (r, mkSrv (pw_repo w) (pw_cache w) (sv_breakers s) (sv_auth s) (sv_activity s)).
Definition log_activity (a : Activity) : MF S unit :=
  modify (λ s, mkSrv (sv_db s) (sv_cache s) (sv_breakers s) (sv_auth s)
                 ((λ l, l ++ [a]) <$> sv_activity s)).
End state.

(** ** Authentication *)

Record PbAuthenticateRequest := mkPbAuthenticateRequest {
  paq_Email : string; paq_Password : string; paq_OrganizationDomain : string;
  paq_TwoFactorCode : string; paq_SecurityContext : option PbSecurityContext;
  paq_RememberMe : bool }.
(** [warnings] is never set. *)
Record PbAuthenticateResponse := mkPbAuthenticateResponse {
  pas_Success : bool; pas_Tokens : option PbTokenPair; pas_User : option PbUser;
  pas_RequiresTwoFa : bool; pas_Error : string }.
Record PbChangePasswordRequest := mkPbChangePasswordRequest {
  pcp_UserId : string; pcp_CurrentPassword : string; pcp_NewPassword : string;
  pcp_SecurityContext : option PbSecurityContext }.
(** A response of a flag and an error text; many messages have this shape. *)
Record PbResult := mkPbResult { prs_Success : bool; prs_Error : string }.
(** [settings] is not read. *)
Record PbCreateOrganizationRequest := mkPbCreateOrganizationRequest {
  pco_Name : string; pco_Domain : string; pco_AdminEmail : string; pco_AdminPassword : string;
  pco_AdminFirstName : string; pco_AdminLastName : string;
  pco_SecurityContext : option PbSecurityContext }.

Section auth_handlers.
Context {D C CB : Type} {C' U O T : Type} `{CacheOps C'} `{UserRepository U}
  `{OrganizationRepository O} `{TokenServiceInterface T} `{CryptoLib} `{UuidLib} `{UuidParse}.
Context (rl : RateLimiter) (pub : bool).
Abbreviation S := (Srv D C CB (AW C' U O T)).
Abbreviation MF := (GoM (option error)).

Definition new_auth_request (req : PbAuthenticateRequest) : AuthRequest :=
  mkAuthRequest (paq_Email req) (paq_Password req) "" ""
    (Some (mkSecurityContext (GetIpAddress (paq_SecurityContext req))
             (GetUserAgent (paq_SecurityContext req)) "" (GetSessionId (paq_SecurityContext req))))
    (paq_RememberMe req).

Definition Authenticate (now : Z) (rnd : TokenRand) (req : PbAuthenticateRequest)
    : MF S PbAuthenticateResponse :=
  if String.eqb (paq_Email req) "" || String.eqb (paq_Password req) "" then
    ret (mkPbAuthenticateResponse false None None false "email and password are required")
  else
    let* result := catch (on_sauth (AuthService.Authenticate rl pub now rnd (new_auth_request req))) in
    match result with
    | Err _ =>
        log_activity (LogLoginFailed (paq_Email req) (GetIpAddress (paq_SecurityContext req))
          (GetUserAgent (paq_SecurityContext req)) uuid_Nil) ;;;
        ret (mkPbAuthenticateResponse false None None false "authentication failed")
    | Ok authResp =>
        match ars_Success authResp, ars_User authResp with
        | true, Some user =>
            log_activity (LogLogin (eu_ID user) (eu_OrganizationID user)
              (GetIpAddress (paq_SecurityContext req)) (GetUserAgent (paq_SecurityContext req))) ;;;
            ret (mkPbAuthenticateResponse (ars_Success authResp)
                   (convertEntityTokenPairToProto <$> ars_TokenPair authResp)
                   (Some (convertEntityUserToProto user)) false (ars_Error authResp))
        | _, _ => ret (mkPbAuthenticateResponse (ars_Success authResp) None None false (ars_Error authResp))
        end
    end.

(** The security context of the handlers that default it. *)
Definition security_or_default (sc : option PbSecurityContext) : SecurityContext :=
  match sc with
  | Some c => mkSecurityContext (psc_IpAddress c) (psc_UserAgent c) "" ""
  | None => mkSecurityContext "grpc-client" "grpc-client" "" ""
  end.

Definition ChangePassword (now : Z) (fate : hash_fate) (req : PbChangePasswordRequest) : MF S PbResult :=
  if String.eqb (pcp_UserId req) "" || String.eqb (pcp_CurrentPassword req) "" ||
     String.eqb (pcp_NewPassword req) "" then
    ret (mkPbResult false "User ID, current password, and new password are required")
  else
    match uuid_Parse (pcp_UserId req) with
    | Err _ => ret (mkPbResult false "Invalid user ID format")
    | Ok userID =>
        let changeReq := mkPasswordChangeRequest userID (pcp_CurrentPassword req)
          (pcp_NewPassword req) (Some (security_or_default (pcp_SecurityContext req))) in
        let* r := catch (on_sauth (AuthService.ChangePassword pub now fate changeReq)) in
        match r with
        | Err err => ret (mkPbResult false ("Failed to change password: " +:+ Error err))
        | Ok _ => ret (mkPbResult true "")
        end
    end.
End auth_handlers.

(** ** Tokens *)

Record PbValidateTokenResponse := mkPbValidateTokenResponse {
  pvt_Valid : bool; pvt_UserId : string; pvt_OrganizationId : string; pvt_Email : string;
  pvt_ExpiresAt : option Z; pvt_Error : string }.
Record PbRefreshTokenResponse := mkPbRefreshTokenResponse {
  prt_AccessToken : string; prt_RefreshToken : string; prt_ExpiresIn : Z; prt_Error : string }.

Section token_handlers.
Context {C R D : Type} `{CacheOps C} `{RedisOps R} `{TokenRepository D} `{JwtLib} `{UuidLib} `{ClaimsJson}.
Context (sha256_hex : string → string) (config : JWTConfig).
Abbreviation W := (TSW C R D).

Definition invalid_token (msg : string) : PbValidateTokenResponse :=
  mkPbValidateTokenResponse false "" "" "" None msg.
Definition ValidateToken (now : Z) (token : string) : M W PbValidateTokenResponse :=
  if String.eqb token "" then ret (invalid_token "Token is required")
  else
    let* r := attempt (TokenService.ValidateToken sha256_hex config now token) in
    match r with
    | Err _ => ret (invalid_token "Invalid or expired token")
    | Ok claims =>
        ret (mkPbValidateTokenResponse true (uuid_String (tc_UserID claims))
               (uuid_String (tc_OrganizationID claims)) (tc_Email claims)
               (Some (match tc_ExpiresAt claims with Some t => t | None => now + Hour end)) "")
    end.
Definition RefreshToken (now : Z) (rnd : TokenRand) (refreshToken : string)
    : M W PbRefreshTokenResponse :=
  if String.eqb refreshToken "" then
    ret (mkPbRefreshTokenResponse "" "" 0 "Refresh token is required")
  else
    let securityCtx := mkSecurityContext "unknown" "grpc-client" "" "" in
    let* r := attempt (RefreshToken_ sha256_hex config now rnd refreshToken (Some securityCtx)) in
    match r with
    | Err _ => ret (mkPbRefreshTokenResponse "" "" 0 "Invalid or expired refresh token")
    | Ok tokenPair =>
        ret (mkPbRefreshTokenResponse (tp_AccessToken tokenPair) (tp_RefreshToken tokenPair)
               (wrap32 (jc_AccessExpiry config)) "")
    end.
Definition RevokeToken (now : Z) (token : string) : M W PbResult :=
  if String.eqb token "" then ret (mkPbResult false "Token is required")
  else
    let* r := attempt (TokenService.RevokeToken sha256_hex config now token) in
    match r with
    | Err _ => ret (mkPbResult false "Failed to revoke token")
    | Ok _ => ret (mkPbResult true "")
    end.
End token_handlers.

(** ** Permission checks *)

Record PbCheckPermissionResponse := mkPbCheckPermissionResponse {
  pcr_HasPermission : bool; pcr_Error : string }.
Record PbPermissionCheck := mkPbPermissionCheck {
  pck_UserId : string; pck_Resource : string; pck_Action : string; pck_Scope : string }.
Record PbPermissionResult := mkPbPermissionResult {
  ppr_HasPermission : bool; ppr_UserId : string; ppr_Resource : string; ppr_Action : string;
  ppr_Scope : string; ppr_Error : string }.
(** A slot of [results] is nil until it is filled. *)
Record PbBulkCheckPermissionsResponse := mkPbBulkCheckPermissionsResponse {
  pbr_Success : bool; pbr_Results : list (option PbPermissionResult); pbr_Error : string }.

Section permission_handlers.
Context {D C CB A : Type} `{CacheOps C} `{PermissionRepository D} `{PermissionJson} `{UuidLib} `{UuidParse}.
Context (config : PermissionServiceConfig) (fuel : nat).
Abbreviation S := (Srv D C CB A).
Abbreviation MF := (GoM (option error)).

Definition CheckPermission (now : Z) (userId resource action : string) : MF S PbCheckPermissionResponse :=
  if String.eqb userId "" || String.eqb resource "" || String.eqb action "" then
    ret (mkPbCheckPermissionResponse false "User ID, resource, and action are required")
  else match uuid_Parse userId with
  | Err _ => ret (mkPbCheckPermissionResponse false "Invalid user ID format")
  | Ok userID =>
      let* r := catch (on_permissions
        (CheckUserPermissionWithScope config fuel now userID resource action "")) in
      match r with
      | Err _ => ret (mkPbCheckPermissionResponse false "Failed to check permission")
      | Ok hasPermission => ret (mkPbCheckPermissionResponse hasPermission "")
      end
  end.

(** The goroutine of one check, and its answer. *)
Definition check_one (now : Z) (c : PbPermissionCheck) : MF S PbPermissionResult :=
  let result has err := mkPbPermissionResult has (pck_UserId c) (pck_Resource c) (pck_Action c)
                          (pck_Scope c) err in
  match uuid_Parse (pck_UserId c) with
  | Err _ => ret (result false "Invalid user ID format")
  | Ok userID =>
      let* r := catch (on_permissions (CheckUserPermissionWithScope config fuel now userID
                         (pck_Resource c) (pck_Action c) (pck_Scope c))) in
      match r with
      | Err _ => ret (result false "Failed to check permission")
      | Ok hasPermission => ret (result hasPermission "")
      end
  end.
(** The goroutines finish in some order; [order] lists the indices as their
    answers arrive, and each answer goes to the slot of its index.  A service
    call is one step of the shared state. *)
Fixpoint collect (now : Z) (checks : list PbPermissionCheck) (order : list nat)
    (results : list (option PbPermissionResult)) : MF S (list (option PbPermissionResult)) :=
  match order with
  | [] => ret results
  | idx :: order' =>
      match checks !! idx with
      | None => ret results
      | Some c =>
          let* r := check_one now c in
          collect now checks order' (<[idx := Some r]> results)
      end
  end.
Definition BulkCheckPermissions (now : Z) (order : list nat) (checks : list PbPermissionCheck)
    : MF S PbBulkCheckPermissionsResponse :=
  if (length checks =? 0)%nat then
    ret (mkPbBulkCheckPermissionsResponse false [] "Permission checks list is required")
  else
    let* results := collect now checks order (replicate (length checks) None) in
    ret (mkPbBulkCheckPermissionsResponse true results "").
End permission_handlers.

(** ** The database behind its breaker *)
Section breaker.
Context {D C CB A : Type} `{BreakerLib CB}.
Abbreviation S := (Srv D C CB A).

(** [circuitBreakerManager.Execute(name, fn)] where [fn] works on the
    database.  In the code the answer of [fn] is an assigned variable, which
    is read only when there is no error. *)
Definition with_breaker {X} (rt : Runtime) (name : string) (fn : M D X) : M S X := λ s,
  let op := λ w : CircuitBreakerManager CB * D,
    match fn w.2 with
    | (Ok x, d) => (Some x, None, (w.1, d))
    | (Err e, d) => (None, Some e, (w.1, d))
    end in
  let '(x, err, (m, d)) := Interceptor.Execute rt (rt_now rt) name op (sv_breakers s, sv_db s) in
  (match err, x with
   | Some e, _ => Err e
   | None, Some x => Ok x
   | None, None => Err (ErrorString "")
   end, mkSrv d (sv_cache s) m (sv_auth s) (sv_activity s)).
End breaker.

(** The last branch of [with_breaker] is not taken. *)
Lemma with_breaker_cases {D C CB A X} `{BreakerLib CB} rt name (fn : M D X) (s : Srv D C CB A) :
  let out := with_breaker rt name fn s in
  (∃ e, out.1 = Err e ∧ sv_db out.2 = sv_db s) ∨
  (out.1 = (fn (sv_db s)).1 ∧ sv_db out.2 = (fn (sv_db s)).2).
Proof.
  unfold with_breaker, Interceptor.Execute.
  destruct (cbm_breakers _ !! name ≫= _) as [[i cb]|]; simpl.
  - destruct (cb_before (rt_now rt) cb) as [[g|e] cb'].
    + right. by destruct (fn (sv_db s)) as [[x|e] d].
    + left. by exists e.
  - right. by destruct (fn (sv_db s)) as [[x|e] d].
Qed.

(** ** Organizations through the authentication service *)

Record PbCreateOrganizationResponse := mkPbCreateOrganizationResponse {
  pcs_Success : bool; pcs_Organization : option PbOrganization; pcs_AdminUser : option PbUser;
  pcs_Tokens : option PbTokenPair; pcs_Error : string }.

Section organization_handler.
Context {D C CB : Type} `{Gorm D} `{BreakerLib CB}.
Context {C' U O T : Type} `{CacheOps C'} `{UserRepository U} `{OrganizationRepository O}
  `{TokenServiceInterface T} `{CryptoLib} `{UuidLib}.
Context (pub : bool) (rt : Runtime).
Abbreviation S := (Srv D C CB (AW C' U O T)).
Abbreviation MF := (GoM (option error)).

Definition organization_failure (msg : string) : PbCreateOrganizationResponse :=
  mkPbCreateOrganizationResponse false None None None msg.
Definition new_registration (req : PbCreateOrganizationRequest) : RegistrationRequest :=
  mkRegistrationRequest (pco_AdminEmail req) (pco_AdminPassword req) (pco_AdminFirstName req)
    (pco_AdminLastName req) (pco_Name req) (pco_Domain req)
    (Some (security_or_default (pco_SecurityContext req))).
(** A nil user or token pair of a successful registration would be
    dereferenced. *)
Definition CreateOrganization (now : Z) (rnd : TokenRand) (orgID userID : N) (fate : hash_fate)
    (req : PbCreateOrganizationRequest) : MF S PbCreateOrganizationResponse :=
  if String.eqb (pco_Name req) "" || String.eqb (pco_Domain req) "" ||
     String.eqb (pco_AdminEmail req) "" || String.eqb (pco_AdminPassword req) "" then
    ret (organization_failure "Name, domain, admin email, and admin password are required")
  else
    let* r := catch (on_sauth (Register pub now rnd orgID userID fate (new_registration req))) in
    match r with
    | Err err => ret (organization_failure ("Failed to create organization: " +:+ Error err))
    | Ok regResp =>
        if negb (rrs_Success regResp) then ret (organization_failure (rrs_Error regResp))
        else match rrs_User regResp with
        | None => panics
        | Some user =>
            let* found := attemptF (with_breaker rt "database"
              (db_FirstWhere (A:=Organization) (has_id (eu_OrganizationID user)))) in
            match found with
            | Err _ => ret (organization_failure "Failed to retrieve created organization")
            | Ok org =>
                match rrs_TokenPair regResp with
                | None => panics
                | Some tokens =>
                    ret (mkPbCreateOrganizationResponse true
                           (Some (convertOrganizationToProto org [] []))
                           (Some (convertEntityUserToProto user))
                           (Some (convertEntityTokenPairToProto tokens)) "")
                end
            end
        end
    end.
End organization_handler.

Record PbHealthCheckResponse := mkPbHealthCheckResponse {
  phc_Status : string; phc_Service : string; phc_Timestamp : Z }.
Definition HealthCheck (now : Z) : PbHealthCheckResponse :=
  mkPbHealthCheckResponse "healthy" "auth-service" now.

(** ** The event publisher: the payload travels in the envelope *)
Section publisher.
Context (id : uuid) (now : Z) (userID orgID : uuid) (ipAddress userAgent : string).
Abbreviation publish := (λ type data,
  Producer_PublishEvent (envelope id now userID orgID ipAddress userAgent type data)).
Definition Kafka_PublishUserLoggedIn (data : UserLoggedInData) : res error Message :=
  publish EventTypeUserLoggedIn (DUserLoggedIn data).
Definition Kafka_PublishUserRegistered (data : UserRegisteredData) : res error Message :=
  publish EventTypeUserRegistered (DUserRegistered data).
Definition Kafka_PublishOrganizationCreated (data : OrganizationCreatedData) : res error Message :=
  publish EventTypeOrganizationCreated (DOrganizationCreated data).
Definition Kafka_PublishPasswordChanged (data : PasswordChangedData) : res error Message :=
  publish EventTypePasswordChanged (DPasswordChanged data).
End publisher.

(** ** The fallback cache manager: Redis alone *)
Module SimpleCacheManager.
(** [KEYS] and [FLUSHDB], which the other managers do not use. *)
Class RedisKeys (R : Type) := {
  rc_Keys : Z → string → M R (list string);
  rc_FlushDB : Z → M R unit }.
Section ops.
Context {R : Type} `{Cache.RedisKV R} `{RedisKeys R}.
Definition Get (now : Z) (key : string) : M R string := Cache.rc_Get now key.
Definition Set_ (now : Z) (key value : string) (ttl : Z) : M R unit := Cache.rc_Set now key value ttl.
Definition Delete (now : Z) (key : string) : M R unit := Cache.rc_Del now [key] ;;; ret tt.
Definition Exists (now : Z) (key : string) : M R bool :=
  let* result := Cache.rc_Exists now key in ret (0 <? result)%Z.
Definition Clear (now : Z) : M R unit := rc_FlushDB now.
Definition InvalidateKey (now : Z) (key : string) : M R unit := Delete now key.
Definition InvalidatePattern (now : Z) (pattern : string) : M R unit :=
  let* keys := rc_Keys now pattern in
  if (0 <? length keys)%nat then Cache.rc_Del now keys ;;; ret tt else ret tt.
(** The levels are one. *)
Definition GetFromLevel (now : Z) (key : string) (level : string) : M R string := Get now key.
Definition SetToLevel (now : Z) (key value : string) (ttl : Z) (level : string) : M R unit :=
  Set_ now key value ttl.

#[export] Instance simple_cache : CacheOps R := {
  cache_Get := Get; cache_Set := Set_; cache_Delete := Delete; cache_Exists := Exists;
  cache_InvalidatePattern := InvalidatePattern }.
End ops.

Section laws.
Context {R : Type} `{Cache.RedisKVLaws R} `{RedisKeys R}.
Hypothesis reachable : Cache.redis_reachable (R:=R).

Definition keeps_value (r : R) (k v : string) (d : Z) : Prop :=
  ∃ ex, Cache.rval r k = Some (v, ex) ∧ match ex with Some e => d ≤ e | None => True end.

Lemma value_live r k v d now : keeps_value r k v d → now < d → Cache.rlive now (Cache.rval r k) = Some v.
Proof.
  intros (ex & -> & Hd) Hn. destruct ex as [e|]; [|done]. simpl.
  by destruct (Z.ltb_spec now e); [|lia].
Qed.
Lemma same_keeps now (P : string → Prop) r r' :
  (∀ k, P k → Cache.rsame now r r' k) →
  (∀ k v d, P k → now < d → keeps_value r k v d → keeps_value r' k v d) ∧
  (∀ k, P k → Cache.rval r k = None → Cache.rval r' k = None).
Proof.
  intros Hs. split.
  - intros k v d HP Hd Hk. destruct (Hs k HP) as [He|[_ Hdead]]; [unfold keeps_value; by rewrite He|].
    by rewrite (value_live _ _ _ _ _ Hk Hd) in Hdead.
  - intros k HP Hk. destruct (Hs k HP) as [->|[-> _]]; done.
Qed.
Lemma get_ok now k r v : Cache.rlive now (Cache.rval r k) = Some v → (Get now k r).1 = Ok v.
Proof.
  intros Hl. unfold Get. destruct (Cache.rc_Get now k r) as [[x|e] r'] eqn:E.
  - apply Cache.rc_Get_ok in E. simpl. congruence.
  - destruct (proj1 (reachable r now k) e) as [t ->]; [by rewrite E|].
    apply Cache.rc_Get_nil in E. congruence.
Qed.
Lemma exists_ok now k r : (Exists now k r).1 =
  Ok (match Cache.rlive now (Cache.rval r k) with Some _ => true | None => false end).
Proof.
  unfold Exists, bind. pose proof (proj2 (reachable r now k)) as Ho.
  destruct (Cache.rc_Exists now k r) as [[n|e] r'] eqn:E; [|done].
  apply Cache.rc_Exists_ok in E as ->. by destruct (Cache.rlive _ _).
Qed.

Definition simple_cache_laws : CacheLaws R.
Proof using All.
  refine {| chas := keeps_value; cabs r k := Cache.rval r k = None |};
    unfold cache_Get, cache_Set, cache_Delete, cache_Exists, simple_cache.
  - intros c k v d now Hk Hd. apply get_ok. by eapply value_live.
  - intros c k now Hk. unfold Get. destruct (Cache.rc_Get now k c) as [[x|e] r'] eqn:E; [|done].
    apply Cache.rc_Get_ok in E. by rewrite Hk in E.
  - intros c k now. apply same_keeps. intros k' _. apply Cache.rc_Get_same.
  - intros c c' k v ttl now Ht E. apply Cache.rc_Set_ok in E; [|done]. by exists (Some (now + ttl)).
  - intros c k v ttl now. apply same_keeps. intros k' Hk. by apply Cache.rc_Set_same.
  - intros c c' k now E. unfold Delete, bind in E.
    destruct (Cache.rc_Del now [k] c) as [[n|e] r'] eqn:Ed; [|done]. injection E as <-.
    eapply Cache.rc_Del_ok; [exact Ed|]. by left.
  - intros c k now. apply same_keeps. intros k' Hk. unfold Delete, bind.
    assert (k' ∉ [k]) as Hn by (by rewrite list_elem_of_singleton).
    pose proof (Cache.rc_Del_same c [k] now k' Hn) as Hs.
    by destruct (Cache.rc_Del now [k] c) as [[n|e] r'].
  - intros c k v d now Hk Hd. rewrite exists_ok. by rewrite (value_live _ _ _ _ _ Hk Hd).
  - intros c k now Hk. by rewrite exists_ok, Hk.
  - intros c k now. apply same_keeps. intros k' _. unfold Exists, bind.
    pose proof (Cache.rc_Exists_same c k now k') as Hs.
    by destruct (Cache.rc_Exists now k c) as [[n|e] r'].
Defined.
End laws.
End SimpleCacheManager.

(** ** Lemmas *)

Section login_lemmas.
Context {C U O T : Type} `{CacheOps C} `{UserRepositoryLaws U} `{OrganizationRepository O}.
Context `{TokenServiceInterface T} `{CryptoLib}.

(** Every login answers, and one without a second factor lets in only users
    that have none. *)
Lemma codeless_login rl pub now rnd req (w : AW C U O T) : arq_TwoFactorCode req = "" →
  ∃ resp, (AuthService.Authenticate rl pub now rnd req w).1 = Ok resp ∧
    (ars_Success resp = true → ∃ u, uview (aw_users w) (u_ID u) = Some u ∧
       u_Email u = arq_Email req ∧ u_TwoFactorEnabled u = false ∧
       bcrypt_Compare (u_PasswordHash u) (arq_Password req) = true).
Proof.
  intros Hc. destruct (Authenticate_cases rl pub now rnd req w)
    as [(r & Hr & Hf & _)|(sec & u & w1 & _ & _ & Hg & _ & Hp & H2f & Hrun)].
  { exists r. split; [exact Hr|]. by rewrite Hf. }
  apply usr_GetByEmail_ok in Hg as (Hv & He & _).
  destruct (completeLogin_ok pub now rnd u sec w1) as (r & Hr & _). exists r.
  rewrite Hrun. split; [exact Hr|]. intros _. exists u. split_and!; try done.
  destruct (u_TwoFactorEnabled u) eqn:E; [|done]. by destruct (H2f E) as [[] _].
Qed.
End login_lemmas.

(** The activities a state has recorded. *)
Definition recorded {D C CB A} (s : Srv D C CB A) (a : Activity) : Prop :=
  ∃ l, sv_activity s = Some l ∧ a ∈ l.

(** ** Properties *)

(** C7: no second factor over gRPC.  The handler answers every login request,
    never with [requires_two_fa], and passes on neither the code nor the
    organization domain of the request: whoever it lets in is a user without a
    second factor, so a user who has enabled one is refused whatever code the
    request carries; and it records no failed login. *)
Theorem grpc_login_has_no_second_factor {D C CB C' U O T} `{CacheOps C'} `{UserRepositoryLaws U}
    `{OrganizationRepository O} `{TokenServiceInterface T} `{CryptoLib} `{UuidLib}
    rl pub now rnd req (s : Srv D C CB (AW C' U O T)) :
  ∃ resp s', Authenticate rl pub now rnd req s = (Ok resp, s') ∧
    pas_RequiresTwoFa resp = false ∧
    (pas_Success resp = true → ∃ u, uview (aw_users (sv_auth s)) (u_ID u) = Some u ∧
       u_Email u = paq_Email req ∧ u_TwoFactorEnabled u = false ∧
       bcrypt_Compare (u_PasswordHash u) (paq_Password req) = true) ∧
    (∀ email ip agent o, recorded s' (LogLoginFailed email ip agent o) →
       recorded s (LogLoginFailed email ip agent o)).
Proof.
  unfold Authenticate. destruct (_ || _); [eexists _, _; by split_and!|].
  destruct (codeless_login rl pub now rnd (new_auth_request req) (sv_auth s) eq_refl)
    as (r & Hr & Hu).
  unfold bind at 1, catch, on_sauth.
  destruct (AuthService.Authenticate _ _ _ _ _ _) as [r0 w'] eqn:E. simpl in Hr. subst r0.
  destruct (ars_Success r) eqn:Es; [destruct (ars_User r) as [eu|]|];
    (eexists _, _; split_and!; [reflexivity | reflexivity | simpl; intros ?; auto; done | ]).
  - simpl. intros email ip agent o (l & Hl & Hin). unfold recorded.
    destruct (sv_activity s) as [l0|]; [|done]. simplify_eq/=. exists l0. split; [done|].
    apply elem_of_app in Hin as [|Hin]; [done|]. by apply list_elem_of_singleton in Hin.
  - done.
  - done.
Qed.

(** The fallback cache manager is a cache.  On a Redis that answers, the
    operations the server builds when the two-level manager cannot be made keep
    the laws of Ifaces.v the services are proved against: a key is readable
    until its deadline exactly as Redis holds it, and absent when Redis has no
    value for it. *)
Theorem SimpleCacheManager_refines_cache {R} `{Cache.RedisKVLaws R} `{SimpleCacheManager.RedisKeys R} :
  Cache.redis_reachable (R:=R) →
  ∃ L : CacheLaws R, @chas R SimpleCacheManager.simple_cache L = SimpleCacheManager.keeps_value ∧
    @cabs R SimpleCacheManager.simple_cache L = (λ r k, Cache.rval r k = None).
Proof. intros Hr. by exists (SimpleCacheManager.simple_cache_laws Hr). Qed.

(** ** Witnesses *)
#[local] Existing Instances ref_crypto ref_tsvc ref_uuid Cache.ref_kv_lib Cache.ref_kv_laws.
Definition ref_srv : Srv unit unit unit RW :=
  mkSrv tt tt (mkManager [] ∅ ∅) (ref_world (ref_one (ref_user true ["code1"; "code2"] 0))) (Some []).

(** The right password and a right backup code. *)
Example grpc_login_has_no_second_factor_witness :
  ∃ resp s', Authenticate NewRateLimiter true 0 ref_rand
      (mkPbAuthenticateRequest "a@b.c" "password" "" "code2" None false) ref_srv = (Ok resp, s') ∧
    pas_Success resp = false.
Proof.
  destruct (grpc_login_has_no_second_factor NewRateLimiter true 0 ref_rand
    (mkPbAuthenticateRequest "a@b.c" "password" "" "code2" None false) ref_srv)
    as (resp & s' & Hrun & _ & Hu & _).
  exists resp, s'. split; [exact Hrun|]. destruct (pas_Success resp); [|reflexivity].
  destruct (Hu eq_refl) as (u & Hv & _ & H2 & _).
  assert (Hv' : (<[7%N := ref_user true ["code1"; "code2"] 0]> (∅ : gmap N User)) !! u_ID u = Some u)
    by exact Hv.
  apply lookup_insert_Some in Hv' as [[_ <-]|[_ E]]; [discriminate H2 | discriminate E].
Defined.

#[local] Instance ref_kv_keys : SimpleCacheManager.RedisKeys Cache.ref_kv := {
  rc_Keys now p := λ r, (Ok [], r);
  rc_FlushDB now := λ r, (Ok tt, (∅ : gmap string (string * option Z))) }.
Example SimpleCacheManager_refines_cache_witness :
  ∃ L : CacheLaws Cache.ref_kv,
    @chas Cache.ref_kv SimpleCacheManager.simple_cache L
      (<["k" := ("v", Some 5)]> (∅ : gmap string (string * option Z))) "k" "v" 5.
Proof.
  destruct (SimpleCacheManager_refines_cache Cache.ref_kv_reachable) as (L & HL & _).
  exists L. rewrite HL. exists (Some 5). split; [reflexivity | vm_compute; discriminate].
Defined.
