(* ===== verification/GrpcAdmin.v ===== *)
(** * The administrative handlers of the gRPC server (src/internal/grpc/server.go)

    The handlers that work on the database themselves: users, organizations,
    roles, their lists, counts and bulk forms, one definition per handler on
    the state [Srv] of Grpc.v.  Every answer is a message with a nil error.

    One clock reading [now] stands for the readings of one handler, and the
    identifiers [uuid.New()] gives are arguments.  A preloaded association is
    read together with its row.  The text an [ORDER BY] is given and the
    [ILIKE] match are the database's: the class [SqlText].  The [publish]
    helpers of this file only log.  GetSecurityStats and GetUserActivity,
    which forward to the activity service, are in Activity.v. *)

From S2P Require Import Prelude Errors Models Ifaces Database Repos TokenService AuthService Breaker.
From S2P Require Import Grpc.
From Stdlib Require Import Floats.SpecFloat.

#[local] Open Scope Z_scope.

(** The texts of a query that the database interprets. *)
Class SqlText := {
  sql_ilike : string → string → bool;                     (** [value ILIKE pattern] *)
  order_users : string → User → User → bool;              (** [ORDER BY text] *)
  order_organizations : string → Organization → Organization → bool }.

(** google.golang.org/protobuf/proto on [pb.Organization]. *)
Class ProtoLib := {
  proto_Marshal : PbOrganization → res error string;
  proto_Unmarshal : string → res error PbOrganization }.

(** A 32-bit float: the nearest one to an integer, and the quotient. *)
Definition float32 (z : Z) : spec_float := binary_normalize 24 128 z 0 false.
Definition float32_div (x y : spec_float) : spec_float := SFdiv 24 128 x y.

(** ** Messages *)

Record PbUserResponse := mkPbUserResponse {
  pus_Success : bool; pus_User : option PbUser; pus_Error : string }.
Record PbGetUserResponse := mkPbGetUserResponse { pgu_User : option PbUser; pgu_Error : string }.
Record PbCreateUserRequest := mkPbCreateUserRequest {
  pcu_OrganizationId : string; pcu_Email : string; pcu_Password : string; pcu_FirstName : string;
  pcu_LastName : string; pcu_IsActive : bool; pcu_IsVerified : bool; pcu_RoleIds : list string;
  pcu_SecurityContext : option PbSecurityContext }.
Record PbUpdateUserRequest := mkPbUpdateUserRequest {
  puu_UserId : string; puu_Email : string; puu_FirstName : string; puu_LastName : string;
  puu_IsActive : bool; puu_IsVerified : bool; puu_RoleIds : list string;
  puu_SecurityContext : option PbSecurityContext }.
Record PbCreateUserData := mkPbCreateUserData {
  pcd_Email : string; pcd_Password : string; pcd_FirstName : string; pcd_LastName : string;
  pcd_IsActive : bool; pcd_IsVerified : bool; pcd_RoleIds : list string }.
Record PbUpdateUserData := mkPbUpdateUserData {
  pud_UserId : string; pud_Email : string; pud_FirstName : string; pud_LastName : string;
  pud_IsActive : bool; pud_IsVerified : bool; pud_RoleIds : list string }.
Record PbBulkUserResult := mkPbBulkUserResult {
  pbu_Success : bool; pbu_User : option PbUser; pbu_Error : string; pbu_Email : string }.
(** [created_count] or [updated_count]; a slot of [results] is nil until it
    is filled. *)
Record PbBulkUsersResponse := mkPbBulkUsersResponse {
  pbs_Success : bool; pbs_Results : list (option PbBulkUserResult); pbs_DoneCount : Z;
  pbs_FailedCount : Z; pbs_Error : string }.
Record PbBulkDeleteResult := mkPbBulkDeleteResult {
  pbd_Success : bool; pbd_UserId : string; pbd_Error : string }.
Record PbBulkDeleteUsersResponse := mkPbBulkDeleteUsersResponse {
  pbx_Success : bool; pbx_DeletedCount : Z; pbx_FailedCount : Z;
  pbx_Results : list PbBulkDeleteResult; pbx_Error : string }.
Record PbListRequest := mkPbListRequest {
  plr_OrganizationId : string; plr_Limit : Z; plr_Offset : Z; plr_Search : string;
  plr_SortBy : string; plr_SortOrder : string }.
Record PbListUsersResponse := mkPbListUsersResponse {
  plu_Success : bool; plu_Users : list PbUser; plu_TotalCount : Z; plu_HasNextPage : bool;
  plu_Error : string }.
Record PbGetOrganizationResponse := mkPbGetOrganizationResponse {
  pgo_Organization : option PbOrganization; pgo_Error : string }.
Record PbListOrganizationsResponse := mkPbListOrganizationsResponse {
  plo_Success : bool; plo_Organizations : list PbOrganization; plo_TotalCount : Z;
  plo_HasNextPage : bool; plo_Error : string }.
Record PbOrganizationStats := mkPbOrganizationStats {
  pos_TotalOrganizations : Z; pos_ActiveOrganizations : Z; pos_InactiveOrganizations : Z;
  pos_VerifiedOrganizations : Z; pos_UnverifiedOrganizations : Z; pos_TotalUsers : Z;
  pos_AverageUsersPerOrg : spec_float }.
Record PbUserStats := mkPbUserStats {
  pst_TotalUsers : Z; pst_ActiveUsers : Z; pst_InactiveUsers : Z; pst_VerifiedUsers : Z;
  pst_UnverifiedUsers : Z; pst_RecentSignups : Z; pst_RecentLogins : Z }.
Record PbStatsResponse (X : Type) := mkPbStatsResponse {
  pss_Success : bool; pss_Stats : option X; pss_Error : string }.
Arguments mkPbStatsResponse {X}. Arguments pss_Success {X}. Arguments pss_Stats {X}.
Arguments pss_Error {X}.
Record PbListRolesResponse := mkPbListRolesResponse {
  pls_Success : bool; pls_Roles : list PbRole; pls_Error : string }.
Record PbListPermissionsResponse := mkPbListPermissionsResponse {
  plp_Success : bool; plp_Permissions : list PbPermission; plp_Error : string }.
Record PbRoleResponse := mkPbRoleResponse {
  pro_Success : bool; pro_Role : option PbRole; pro_Error : string }.
Record PbCreateRoleRequest := mkPbCreateRoleRequest {
  pcl_OrganizationId : string; pcl_Name : string; pcl_Description : string;
  pcl_PermissionIds : list string; pcl_SecurityContext : option PbSecurityContext }.
Record PbUpdateRoleRequest := mkPbUpdateRoleRequest {
  pul_RoleId : string; pul_Name : string; pul_Description : string;
  pul_PermissionIds : list string; pul_SecurityContext : option PbSecurityContext }.

Section handlers.
Context {D C CB A : Type} `{Gorm D} `{BreakerLib CB} `{CacheOps C} `{CryptoLib} `{UuidLib}
  `{UuidParse} `{SqlText} `{ProtoLib}.
Context (rt : Runtime).
Abbreviation S := (Srv D C CB A).
Abbreviation MF := (GoM (option error)).

(** A statement on the server's own connection, its error handed over. *)
Definition query {X} (m : M D X) : MF S (res error X) := attemptF (on_sdb m).
Definition guarded {X} (m : M D X) : MF S (res error X) := attemptF (with_breaker rt "database" m).

(** The two checks of an identifier most handlers start with. *)
Definition with_id {R} (text : string) (missing invalid : R) (k : N → MF S R) : MF S R :=
  if String.eqb text "" then ret missing
  else match uuid_Parse text with Err _ => ret invalid | Ok i => k i end.

(** ** Users *)

Definition user_failure (msg : string) : PbUserResponse := mkPbUserResponse false None msg.
Definition user_success (user : User) : PbUserResponse :=
  mkPbUserResponse true (Some (convertUserToProto user None)) "".

(** The lookups after a failure are for the log only. *)
Definition GetUser (userId : string) : MF S PbGetUserResponse :=
  with_id userId (mkPbGetUserResponse None "User ID is required")
    (mkPbGetUserResponse None "Invalid user ID format") (λ userID,
  let* count := query (db_Count tb_users) in
  match count with
  | Err _ => ret (mkPbGetUserResponse None "Database connection error")
  | Ok _ =>
      let* found := query (db_FirstWhere (A:=User) (has_id userID)) in
      match found with
      | Err _ =>
          query (db_FirstWhere (λ u, String.eqb (uuid_String (u_ID u)) (uuid_String userID))) ;;;
          query (db_Find (mkQuery (λ T, Some (List.filter
                   (λ u, HasPrefix (uuid_String (u_ID u)) (str_take 8 (uuid_String userID)))
                   (tb_users T))) any_order (Some 5) 0)) ;;;
          query (db_FirstWhere (A:=User) (λ _, true)) ;;;
          ret (mkPbGetUserResponse None ("user not found: " +:+ uuid_String userID))
      | Ok user =>
          let* org := if (u_OrganizationID user =? uuid_Nil)%N then ret None
                      else let* r := query (db_FirstWhere (A:=Organization)
                                              (has_id (u_OrganizationID user))) in
                           ret (match r with Ok o => Some o | Err _ => None end) in
          ret (mkPbGetUserResponse (Some (convertUserToProto user org)) "")
      end
  end).

Definition invalidateUserCaches (now : Z) (userID orgID : N) : MF S unit :=
  for_each (λ key, attemptF (on_scache (cache_Delete now key)) ;;; ret tt)
    ["user:id:" +:+ uuid_String userID; "user:full:" +:+ uuid_String userID;
     "user:permissions:" +:+ uuid_String userID; "org:users:" +:+ uuid_String orgID].

Definition hashPassword (password : string) : res error string := bcrypt_Generate hashCost password.

(** The row of a new user; [newID] is [uuid.New()]. *)
Definition new_member (now : Z) (newID orgID : N) (hashedPassword : string)
    (req : RegistrationRequest) : User :=
  mkUser newID orgID (rrq_Email req) hashedPassword (rrq_FirstName req) (rrq_LastName req) true false
    None None false "" [] 0 None now now "" "".
Definition is_default_role (orgID : N) (r : Role) : bool :=
  (r_OrganizationID r =? orgID)%N && String.eqb (r_Name r) "user".
(** The transaction of [createUserInExistingOrganization]. *)
Definition add_member (user : User) : M D unit :=
  wrap_err (ErrorWrap "organization not found")
    (db_FirstWhere (A:=Organization) (has_id (u_OrganizationID user))) ;;;
  let* existing := attempt (db_FirstWhere (λ u, String.eqb (u_Email u) (u_Email user))) in
  match existing with
  | Ok _ => fail (ErrorString ("user with email " +:+ u_Email user +:+ " already exists"))
  | Err _ =>
      wrap_err (ErrorWrap "failed to create user") (db_Create user) ;;;
      let* defaultRole := attempt (db_FirstWhere (is_default_role (u_OrganizationID user))) in
      match defaultRole with
      | Ok role =>
          attempt (F:=error) (db_Create (RoleRepo.new_UserRole (u_ID user) (r_ID role))) ;;; ret tt
      | Err _ => ret tt
      end
  end.
Definition createUserInExistingOrganization (now : Z) (newID orgID : N) (req : RegistrationRequest)
    : M S User :=
  let* hashedPassword := wrap_err (ErrorWrap "failed to hash password")
    (lift_res (hashPassword (rrq_Password req))) in
  let user := new_member now newID orgID hashedPassword req in
  with_breaker rt "database" (db_Transaction (add_member user)) ;;;
  ret user.

Definition member_request (email password firstName lastName : string) (ctx : SecurityContext)
    : RegistrationRequest :=
  mkRegistrationRequest email password firstName lastName "" "" (Some ctx).
(** [is_active], [is_verified] and [role_ids] of the request are not read. *)
Definition CreateUser (now : Z) (newID : N) (req : PbCreateUserRequest) : MF S PbUserResponse :=
  if String.eqb (pcu_Email req) "" || String.eqb (pcu_Password req) "" ||
     String.eqb (pcu_FirstName req) "" || String.eqb (pcu_LastName req) "" then
    ret (user_failure "Email, password, first name, and last name are required")
  else match uuid_Parse (pcu_OrganizationId req) with
  | Err _ => ret (user_failure "Invalid organization ID format")
  | Ok orgID =>
      let regReq := member_request (pcu_Email req) (pcu_Password req) (pcu_FirstName req)
        (pcu_LastName req) (security_or_default (pcu_SecurityContext req)) in
      let* r := attemptF (createUserInExistingOrganization now newID orgID regReq) in
      match r with
      | Err err => ret (user_failure ("Failed to create user: " +:+ Error err))
      | Ok user =>
          invalidateUserCaches now (u_ID user) (u_OrganizationID user) ;;;
          ret (user_success user)
      end
  end.

(** Empty texts keep the field; the flags are always assigned. *)
Definition update_fields (now : Z) (req : PbUpdateUserRequest) (user : User) : User :=
  let keep new old := if String.eqb new "" then old else new in
  let '(mkUser i o e ph fn ln _ _ ll pr tf ts bc fa lu ca _ fu pc) := user in
  mkUser i o (keep (puu_Email req) e) ph (keep (puu_FirstName req) fn) (keep (puu_LastName req) ln)
    (puu_IsActive req) (puu_IsVerified req) ll pr tf ts bc fa lu ca now fu pc.
(** The transaction of [UpdateUser]: an identifier that does not parse is
    skipped. *)
Definition save_with_roles (now : Z) (user : User) (userID : N) (roleIds : list string) : M D unit :=
  db_Save now user ;;;
  if (0 <? length roleIds)%nat then
    db_Delete (λ ur, (ur_UserID ur =? userID)%N) ;;;
    for_each (λ roleIDStr,
      match uuid_Parse roleIDStr with
      | Err _ => ret tt
      | Ok roleID => db_Create (RoleRepo.new_UserRole userID roleID)
      end) roleIds
  else ret tt.
Definition UpdateUser (now : Z) (req : PbUpdateUserRequest) : MF S PbUserResponse :=
  with_id (puu_UserId req) (user_failure "User ID is required")
    (user_failure "Invalid user ID format") (λ userID,
  let* found := guarded (db_FirstWhere (A:=User) (has_id userID)) in
  match found with
  | Err _ => ret (user_failure "User not found")
  | Ok old =>
      let user := update_fields now req old in
      let* r := guarded (db_Transaction (save_with_roles now user userID (puu_RoleIds req))) in
      match r with
      | Err _ => ret (user_failure "Failed to update user")
      | Ok _ =>
          invalidateUserCaches now (u_ID user) (u_OrganizationID user) ;;;
          ret (user_success (as_saved now user))
      end
  end).

(** [First(&x, id)] with its two failures. *)
Definition find_row {X R} `{Row X} (id : N) (missing failed : R) (k : X → MF S R) : MF S R :=
  let* found := query (db_FirstWhere (has_id id)) in
  match found with
  | Err e => ret (if is_sentinel gorm_ErrRecordNotFound e then missing else failed)
  | Ok x => k x
  end.
(** [Delete(&x)]: by the key of [x]; GORM refuses a nil key. *)
Definition db_DeleteRow {X} `{Row X} (x : X) : M D unit :=
  if (row_id x =? uuid_Nil)%N then fail (ErrorString "WHERE conditions required")
  else db_Delete (A:=X) (has_id (row_id x)).

Definition DeleteUser (now : Z) (userId : string) : MF S PbResult :=
  with_id userId (mkPbResult false "User ID is required")
    (mkPbResult false "Invalid user ID format") (λ userID,
  find_row userID (mkPbResult false "User not found") (mkPbResult false "Failed to find user") (λ user : User,
  let* r := query (db_DeleteRow user) in
  match r with
  | Err _ => ret (mkPbResult false "Failed to delete user")
  | Ok _ => invalidateUserCaches now userID (u_OrganizationID user) ;;; ret (mkPbResult true "")
  end)).

(** The common body of the three handlers below: [verb] names the change. *)
Definition set_status (verb : string) (change : User → User) (now : Z) (userId : string)
    : MF S PbUserResponse :=
  with_id userId (user_failure "User ID is required") (user_failure "Invalid user ID format") (λ userID,
  find_row userID (user_failure "User not found") (user_failure "Failed to find user") (λ user,
  let* r := query (db_Save now (change user)) in
  match r with
  | Err _ => ret (user_failure ("Failed to " +:+ verb +:+ " user"))
  | Ok _ =>
      invalidateUserCaches now userID (u_OrganizationID user) ;;;
      ret (user_success (as_saved now (change user)))
  end)).
Definition set_IsVerified (b : bool) (u : User) : User :=
  let '(mkUser i o e ph fn ln ac _ ll pr tf ts bc fa lu ca ua fu pc) := u in
  mkUser i o e ph fn ln ac b ll pr tf ts bc fa lu ca ua fu pc.
Definition ActivateUser : Z → string → MF S PbUserResponse := set_status "activate" (set_IsActive true).
Definition DeactivateUser : Z → string → MF S PbUserResponse := set_status "deactivate" (set_IsActive false).
Definition VerifyUser : Z → string → MF S PbUserResponse := set_status "verify" (set_IsVerified true).

(** ** Bulk forms *)

Definition batchSize : nat := 10.
(** A batch function fills [results] in order; the items run one after the
    other. *)
Fixpoint each_user {X} (f : nat → X → MF S PbBulkUserResult) (i : nat) (users : list X)
    : MF S (list PbBulkUserResult) :=
  match users with
  | [] => ret []
  | u :: users' =>
      let* result := f i u in
      let* rest := each_user f (i + 1)%nat users' in
      ret (result :: rest)
  end.
(** The loop over one batch's answers, from [j]: the slots and the two
    [int32] counters. *)
Fixpoint tally (i j : nat) (batchResults : list PbBulkUserResult)
    (acc : list (option PbBulkUserResult) * Z * Z) : list (option PbBulkUserResult) * Z * Z :=
  match batchResults with
  | [] => acc
  | result :: rest =>
      let '(results, done, failed) := acc in
      tally i (j + 1)%nat rest
        (if pbu_Success result
         then (<[(i + j)%nat := Some result]> results, wrap32 (done + 1), failed)
         else (<[(i + j)%nat := Some result]> results, done, wrap32 (failed + 1)))
  end.
(** [for i := 0; i < len(users); i += batchSize]. *)
Fixpoint in_batches {X} (process : list X → nat → MF S (list PbBulkUserResult)) (fuel i : nat)
    (users : list X) (acc : list (option PbBulkUserResult) * Z * Z)
    : MF S (list (option PbBulkUserResult) * Z * Z) :=
  if (i <? length users)%nat then
    match fuel with
    | O => outOfFuel
    | Datatypes.S n =>
        let batch := take (Nat.min (i + batchSize) (length users) - i) (drop i users) in
        let* batchResults := process batch i in
        in_batches process n (i + batchSize) users (tally i 0 batchResults acc)
    end
  else ret acc.
Definition bulk {X} (process : list X → nat → MF S (list PbBulkUserResult)) (users : list X)
    : MF S PbBulkUsersResponse :=
  let* (results, done, failed) :=
    in_batches process (length users) 0 users (replicate (length users) None, 0, 0) in
  ret (mkPbBulkUsersResponse (0 <? done)%Z results done failed "").
Definition bulk_failure (msg : string) : PbBulkUsersResponse := mkPbBulkUsersResponse false [] 0 0 msg.

(** [newID i]: the identifier of the [i]th user of the request. *)
Definition create_one (now : Z) (newID : nat → N) (orgID : N) (i : nat) (userData : PbCreateUserData)
    : MF S PbBulkUserResult :=
  let refused msg := mkPbBulkUserResult false None msg (pcd_Email userData) in
  if String.eqb (pcd_Email userData) "" || String.eqb (pcd_Password userData) "" ||
     String.eqb (pcd_FirstName userData) "" || String.eqb (pcd_LastName userData) "" then
    ret (refused "Email, password, first name, and last name are required")
  else
    let* r := attemptF (createUserInExistingOrganization now (newID i) orgID
      (member_request (pcd_Email userData) (pcd_Password userData) (pcd_FirstName userData)
         (pcd_LastName userData) (mkSecurityContext "bulk-operation" "grpc-bulk" "" ""))) in
    ret (match r with
         | Err err => refused (Error err)
         | Ok user => mkPbBulkUserResult true (Some (convertUserToProto user None)) "" (pcd_Email userData)
         end).
Definition processBulkUserCreation (now : Z) (newID : nat → N) (orgID : N)
    (users : list PbCreateUserData) (startIndex : nat) : MF S (list PbBulkUserResult) :=
  each_user (create_one now newID orgID) startIndex users.
Definition BulkCreateUsers (now : Z) (newID : nat → N) (organizationId : string)
    (users : list PbCreateUserData) : MF S PbBulkUsersResponse :=
  if String.eqb organizationId "" || (length users =? 0)%nat then
    ret (bulk_failure "Organization ID and users list are required")
  else match uuid_Parse organizationId with
  | Err _ => ret (bulk_failure "Invalid organization ID format")
  | Ok orgID => bulk (processBulkUserCreation now newID orgID) users
  end.

Definition update_one (now : Z) (i : nat) (userData : PbUpdateUserData) : MF S PbBulkUserResult :=
  let refused msg := mkPbBulkUserResult false None msg (pud_Email userData) in
  with_id (pud_UserId userData) (refused "User ID is required") (refused "Invalid user ID format") (λ _,
  let* updateResp := UpdateUser now
    (mkPbUpdateUserRequest (pud_UserId userData) (pud_Email userData) (pud_FirstName userData)
       (pud_LastName userData) (pud_IsActive userData) (pud_IsVerified userData) (pud_RoleIds userData)
       (Some (mkPbSecurityContext "bulk-operation" "grpc-bulk" "" ""))) in
  ret (if negb (pus_Success updateResp) then refused (pus_Error updateResp)
       else mkPbBulkUserResult true (pus_User updateResp) "" (pud_Email userData))).
Definition processBulkUserUpdate (now : Z) (users : list PbUpdateUserData) (startIndex : nat)
    : MF S (list PbBulkUserResult) :=
  each_user (update_one now) startIndex users.
Definition BulkUpdateUsers (now : Z) (users : list PbUpdateUserData) : MF S PbBulkUsersResponse :=
  if (length users =? 0)%nat then ret (bulk_failure "Users list is required")
  else bulk (processBulkUserUpdate now) users.

Definition delete_one (userIDStr : string) : MF S PbBulkDeleteResult :=
  match uuid_Parse userIDStr with
  | Err _ => ret (mkPbBulkDeleteResult false userIDStr "Invalid user ID format")
  | Ok userID =>
      let* r := query (db_Delete (A:=User) (has_id userID)) in
      ret (match r with
           | Err _ => mkPbBulkDeleteResult false userIDStr "Failed to delete user"
           | Ok _ => mkPbBulkDeleteResult true userIDStr ""
           end)
  end.
Fixpoint delete_each (userIds : list string) (results : list PbBulkDeleteResult)
    (deletedCount failedCount : Z) : MF S (list PbBulkDeleteResult * Z * Z) :=
  match userIds with
  | [] => ret (results, deletedCount, failedCount)
  | userIDStr :: userIds' =>
      let* r := delete_one userIDStr in
      if pbd_Success r
      then delete_each userIds' (results ++ [r]) (wrap32 (deletedCount + 1)) failedCount
      else delete_each userIds' (results ++ [r]) deletedCount (wrap32 (failedCount + 1))
  end.
Definition BulkDeleteUsers (userIds : list string) : MF S PbBulkDeleteUsersResponse :=
  if (length userIds =? 0)%nat then
    ret (mkPbBulkDeleteUsersResponse false 0 0 [] "User IDs list is required")
  else
    let* (results, deletedCount, failedCount) := delete_each userIds [] 0 0 in
    ret (mkPbBulkDeleteUsersResponse (0 <? deletedCount)%Z deletedCount failedCount results "").

(** ** Organizations *)

(** An organization with its preloaded users. *)
Definition with_users (T : Tables) (o : Organization) : Organization * list User :=
  (o, List.filter (λ u, (u_OrganizationID u =? o_ID o)%N) (tb_users T)).
Definition GetOrganization (now : Z) (organizationId : string) : MF S PbGetOrganizationResponse :=
  with_id organizationId (mkPbGetOrganizationResponse None "Organization ID is required")
    (mkPbGetOrganizationResponse None "Invalid organization ID format") (λ orgID,
  let cacheKey := "org:id:" +:+ uuid_String orgID in
  let* cached := attemptF (on_scache (cache_Get now cacheKey)) in
  match (match cached with Ok cachedData => proto_Unmarshal cachedData | Err e => Err e end) with
  | Ok cachedOrg => ret (mkPbGetOrganizationResponse (Some cachedOrg) "")
  | Err _ =>
      let* found := guarded (db_First (λ x, o_ID x.1) (λ T, with_users T <$>
        List.filter (has_id orgID) (tb_organizations T))) in
      match found with
      | Err _ => ret (mkPbGetOrganizationResponse None "Organization not found")
      | Ok (org, users) =>
          let pbOrg := convertOrganizationToProto org users [] in
          match proto_Marshal pbOrg with
          | Ok serializedOrg =>
              attemptF (on_scache (cache_Set now cacheKey serializedOrg Hour)) ;;; ret tt
          | Err _ => ret tt
          end ;;;
          ret (mkPbGetOrganizationResponse (Some pbOrg) "")
      end
  end).

(** The page of a list request: the defaults of its two bounds, and the
    text of its order. *)
Definition page_limit (req : PbListRequest) : Z := if (plr_Limit req <=? 0)%Z then 10 else plr_Limit req.
Definition page_offset (req : PbListRequest) : Z := if (plr_Offset req <? 0)%Z then 0 else plr_Offset req.
Definition order_text (req : PbListRequest) : string :=
  let sortBy := if String.eqb (plr_SortBy req) "" then "created_at" else plr_SortBy req in
  let sortOrder := if String.eqb (plr_SortOrder req) "" then "desc" else plr_SortOrder req in
  sortBy +:+ " " +:+ sortOrder.
Definition searched (fields : list string) (req : PbListRequest) : bool :=
  String.eqb (plr_Search req) "" ||
  existsb (λ f, sql_ilike f ("%" +:+ plr_Search req +:+ "%")) fields.

Definition listed_organizations (req : PbListRequest) (T : Tables) : list Organization :=
  List.filter (λ o, searched [o_Name o; o_Domain o] req) (tb_organizations T).
Definition list_organizations_failure (msg : string) : PbListOrganizationsResponse :=
  mkPbListOrganizationsResponse false [] 0 false msg.
Definition ListOrganizations (req : PbListRequest) : MF S PbListOrganizationsResponse :=
  let limit := page_limit req in
  let offset := page_offset req in
  let* counted := query (db_Count (listed_organizations req)) in
  match counted with
  | Err _ => ret (list_organizations_failure "Failed to count organizations")
  | Ok totalCount =>
      let* found := query (db_Find (mkQuery (λ T, Some (listed_organizations req T))
        (order_organizations (order_text req)) (Some limit) offset)) in
      match found with
      | Err _ => ret (list_organizations_failure "Failed to list organizations")
      | Ok organizations =>
          ret (mkPbListOrganizationsResponse true
                 ((λ o, convertOrganizationToProto o [] []) <$> organizations) (wrap32 totalCount)
                 (wrap32 (offset + wrap32 (Z.of_nat (length organizations))) <? totalCount)%Z "")
      end
  end.

Definition stats_failure {X} (msg : string) : PbStatsResponse X := mkPbStatsResponse false None msg.
(** One of the counts a statistic is made of. *)
Definition count_or {X Y} (failed : string) (f : Tables → list X) (k : Z → MF S (PbStatsResponse Y))
    : MF S (PbStatsResponse Y) :=
  let* r := query (db_Count f) in
  match r with Err _ => ret (stats_failure failed) | Ok n => k n end.
Definition GetOrganizationStats : MF S (PbStatsResponse PbOrganizationStats) :=
  let failed := "Failed to get organization statistics" in
  count_or failed tb_organizations (λ totalOrgs,
  count_or failed (λ T, List.filter o_IsActive (tb_organizations T)) (λ activeOrgs,
  let inactiveOrgs := wrap64 (totalOrgs - activeOrgs) in
  count_or failed tb_users (λ totalUsers,
  let averageUsersPerOrg :=
    if (0 <? totalOrgs)%Z then float32_div (float32 totalUsers) (float32 totalOrgs) else S754_zero false in
  ret (mkPbStatsResponse true (Some (mkPbOrganizationStats (wrap32 totalOrgs) (wrap32 activeOrgs)
         (wrap32 inactiveOrgs) (wrap32 activeOrgs) (wrap32 inactiveOrgs) (wrap32 totalUsers)
         averageUsersPerOrg)) "")))).

(** ** Lists of users and their counts *)

(** [org]: the organization of the request, [None] when it names none. *)
Definition listed_users (org : option N) (req : PbListRequest) (T : Tables) : list User :=
  List.filter (λ u, match org with Some i => (u_OrganizationID u =? i)%N | None => true end &&
                    searched [u_FirstName u; u_LastName u; u_Email u] req) (tb_users T).
Definition with_organization (T : Tables) (u : User) : User * option Organization :=
  (u, List.find (has_id (u_OrganizationID u)) (tb_organizations T)).
Definition list_users_failure (msg : string) : PbListUsersResponse :=
  mkPbListUsersResponse false [] 0 false msg.
Definition list_users (org : option N) (req : PbListRequest) : MF S PbListUsersResponse :=
  let limit := page_limit req in
  let offset := page_offset req in
  let* counted := query (db_Count (listed_users org req)) in
  match counted with
  | Err _ => ret (list_users_failure "Failed to count users")
  | Ok totalCount =>
      let* found := query (db_Find (mkQuery
        (λ T, Some (with_organization T <$> listed_users org req T))
        (λ x y, order_users (order_text req) x.1 y.1) (Some limit) offset)) in
      match found with
      | Err _ => ret (list_users_failure "Failed to retrieve users")
      | Ok users =>
          ret (mkPbListUsersResponse true ((λ x, convertUserToProto x.1 x.2) <$> users)
                 (wrap32 totalCount) (wrap32 (offset + limit) <? wrap32 totalCount)%Z "")
      end
  end.
Definition ListUsers (req : PbListRequest) : MF S PbListUsersResponse :=
  if String.eqb (plr_OrganizationId req) "" then list_users None req
  else match uuid_Parse (plr_OrganizationId req) with
  | Err _ => ret (list_users_failure "Invalid organization ID format")
  | Ok orgID => list_users (Some orgID) req
  end.

(** Seven days are [AddDate(0, 0, -7)] in a zone without daylight saving. *)
Definition members_who (orgID : N) (P : User → bool) (T : Tables) : list User :=
  List.filter (λ u, (u_OrganizationID u =? orgID)%N && P u) (tb_users T).
Definition GetUserStats (now : Z) (organizationId : string) : MF S (PbStatsResponse PbUserStats) :=
  with_id organizationId (stats_failure "Organization ID is required")
    (stats_failure "Invalid organization ID format") (λ orgID,
  let failed := "Failed to get user statistics" in
  let sevenDaysAgo := now - 7 * 24 * Hour in
  count_or failed (members_who orgID (λ _, true)) (λ totalUsers,
  count_or failed (members_who orgID u_IsActive) (λ activeUsers,
  count_or failed (members_who orgID u_IsVerified) (λ verifiedUsers,
  count_or failed (members_who orgID (λ u, sevenDaysAgo <=? u_CreatedAt u)%Z) (λ recentSignups,
  count_or failed (members_who orgID (λ u, match u_LastLoginAt u with
                     Some t => (sevenDaysAgo <=? t)%Z | None => false end)) (λ recentLogins,
  ret (mkPbStatsResponse true (Some (mkPbUserStats (wrap32 totalUsers) (wrap32 activeUsers)
         (wrap32 (wrap64 (totalUsers - activeUsers))) (wrap32 verifiedUsers)
         (wrap32 (wrap64 (totalUsers - verifiedUsers))) (wrap32 recentSignups) (wrap32 recentLogins))) ""))))))).

(** ** Roles and permissions *)

Definition list_roles_failure (msg : string) : PbListRolesResponse := mkPbListRolesResponse false [] msg.
Definition ListRoles (organizationId : string) : MF S PbListRolesResponse :=
  with_id organizationId (list_roles_failure "Organization ID is required")
    (list_roles_failure "Invalid organization ID format") (λ orgID,
  let* found := query (db_Find (select (λ T, (λ r, (r, RoleRepo.assignments_of (r_ID r) T)) <$>
    List.filter (λ r, (r_OrganizationID r =? orgID)%N) (tb_roles T)) any_order)) in
  ret (match found with
       | Err _ => list_roles_failure "Failed to retrieve roles"
       | Ok roles => mkPbListRolesResponse true ((λ x, convertRoleToProto x.1 (snd <$> x.2)) <$> roles) ""
       end)).
Definition ListPermissions : MF S PbListPermissionsResponse :=
  let* found := query (db_Find (select tb_permissions any_order)) in
  ret (match found with
       | Err _ => mkPbListPermissionsResponse false [] "Failed to retrieve permissions"
       | Ok permissions => mkPbListPermissionsResponse true (convertPermissionToProto <$> permissions) ""
       end).

Definition role_failure (msg : string) : PbRoleResponse := mkPbRoleResponse false None msg.
Definition role_success (role : Role) : PbRoleResponse :=
  mkPbRoleResponse true (Some (convertRoleToProto role [])) "".
(** [permission_ids] is not read, here and in [UpdateRole]. *)
Definition CreateRole (now : Z) (newID : N) (req : PbCreateRoleRequest) : MF S PbRoleResponse :=
  if String.eqb (pcl_OrganizationId req) "" || String.eqb (pcl_Name req) "" then
    ret (role_failure "Organization ID and role name are required")
  else match uuid_Parse (pcl_OrganizationId req) with
  | Err _ => ret (role_failure "Invalid organization ID format")
  | Ok orgID =>
      let role := mkRole newID orgID (pcl_Name req) (pcl_Description req) false true now now in
      let* r := query (db_Create role) in
      ret (match r with Err _ => role_failure "Failed to create role" | Ok _ => role_success role end)
  end.
Definition update_role_fields (now : Z) (req : PbUpdateRoleRequest) (role : Role) : Role :=
  let keep new old := if String.eqb new "" then old else new in
  let '(mkRole i o n d sy ac ca _) := role in
  mkRole i o (keep (pul_Name req) n) (keep (pul_Description req) d) sy ac ca now.
Definition UpdateRole (now : Z) (req : PbUpdateRoleRequest) : MF S PbRoleResponse :=
  with_id (pul_RoleId req) (role_failure "Role ID is required")
    (role_failure "Invalid role ID format") (λ roleID,
  find_row roleID (role_failure "Role not found") (role_failure "Failed to find role") (λ old,
  let role := update_role_fields now req old in
  let* r := query (db_Save now role) in
  ret (match r with
       | Err _ => role_failure "Failed to update role"
       | Ok _ => role_success (Role_touched now role)
       end))).
Definition DeleteRole (roleId : string) : MF S PbResult :=
  with_id roleId (mkPbResult false "Role ID is required")
    (mkPbResult false "Invalid role ID format") (λ roleID,
  find_row roleID (mkPbResult false "Role not found") (mkPbResult false "Failed to find role") (λ role : Role,
  if r_IsSystem role then ret (mkPbResult false "Cannot delete system role")
  else
    let* r := query (db_DeleteRow role) in
    ret (match r with
         | Err _ => mkPbResult false "Failed to delete role"
         | Ok _ => mkPbResult true ""
         end))).

(** The identifiers of the two assignment handlers. *)
Definition with_user_and_role (userId roleId : string) (k : N → N → MF S PbResult) : MF S PbResult :=
  if String.eqb userId "" || String.eqb roleId "" then
    ret (mkPbResult false "User ID and Role ID are required")
  else match uuid_Parse userId with
  | Err _ => ret (mkPbResult false "Invalid user ID format")
  | Ok userID =>
      match uuid_Parse roleId with
      | Err _ => ret (mkPbResult false "Invalid role ID format")
      | Ok roleID => k userID roleID
      end
  end.
Definition assigns (userID roleID : N) (ur : UserRole) : bool :=
  (ur_UserID ur =? userID)%N && (ur_RoleID ur =? roleID)%N.
Definition AssignUserRole (now : Z) (newID : N) (userId roleId : string) : MF S PbResult :=
  with_user_and_role userId roleId (λ userID roleID,
  let* existing := query (db_FirstWhere (assigns userID roleID)) in
  match existing with
  | Ok _ => ret (mkPbResult false "User already has this role")
  | Err _ =>
      let* r := query (db_Create (mkUserRole newID userID roleID now)) in
      ret (match r with
           | Err _ => mkPbResult false "Failed to assign role to user"
           | Ok _ => mkPbResult true ""
           end)
  end).
Definition RevokeUserRole (userId roleId : string) : MF S PbResult :=
  with_user_and_role userId roleId (λ userID roleID,
  let* r := query (db_Delete (assigns userID roleID)) in
  ret (match r with
       | Err _ => mkPbResult false "Failed to revoke role from user"
       | Ok _ => mkPbResult true ""
       end)).

(** The identifiers, or the first text that does not parse. *)
Fixpoint parse_ids (texts : list string) : res string (list N) :=
  match texts with
  | [] => Ok []
  | t :: texts' =>
      match uuid_Parse t with
      | Err _ => Err t
      | Ok i => match parse_ids texts' with Ok l => Ok (i :: l) | Err t' => Err t' end
      end
  end.
(** The loop that adds the new permissions stops at the first failure;
    [newID n]: the identifier of the row made with [n] more to come. *)
Fixpoint add_permissions (now : Z) (newID : nat → N) (roleID : N) (permissionIDs : list N)
    : MF S PbResult :=
  match permissionIDs with
  | [] => ret (mkPbResult true "")
  | permID :: rest =>
      let* r := query (db_Create (mkRolePermission (newID (length rest)) roleID permID now)) in
      match r with
      | Err _ => ret (mkPbResult false "Failed to assign permissions to role")
      | Ok _ => add_permissions now newID roleID rest
      end
  end.
Definition AssignPermissions (now : Z) (newID : nat → N) (roleId : string) (permissionIds : list string)
    : MF S PbResult :=
  if String.eqb roleId "" || (length permissionIds =? 0)%nat then
    ret (mkPbResult false "Role ID and permission IDs are required")
  else match uuid_Parse roleId with
  | Err _ => ret (mkPbResult false "Invalid role ID format")
  | Ok roleID =>
      match parse_ids permissionIds with
      | Err permID => ret (mkPbResult false ("Invalid permission ID format: " +:+ permID))
      | Ok permissionIDs =>
          let* removed := query (db_Delete (λ rp, (rp_RoleID rp =? roleID)%N)) in
          match removed with
          | Err _ => ret (mkPbResult false "Failed to update role permissions")
          | Ok _ => add_permissions now newID roleID permissionIDs
          end
      end
  end.
End handlers.

(** ** Lemmas: running statements and cache calls *)

Section running.
Context {D C CB A : Type} `{Gorm D} `{BreakerLib CB} `{CacheOps C}.
Abbreviation S := (Srv D C CB A).
Abbreviation MF := (GoM (option error)).

Definition with_db (d : D) (s : S) : S :=
  mkSrv d (sv_cache s) (sv_breakers s) (sv_auth s) (sv_activity s).
Lemma bind_query {X Y} (m : M D X) (k : res error X → MF S Y) s :
  bind (query m) k s = k (m (sv_db s)).1 (with_db (m (sv_db s)).2 s).
Proof. unfold query, on_sdb. by rewrite bind_attemptF, zoom_eq. Qed.
Lemma query_state {X} (m : M D X) (s : S) : (query m s).2 = with_db (m (sv_db s)).2 s.
Proof. unfold query, on_sdb, attemptF. by rewrite zoom_eq. Qed.

(** An invariant of the database and of the cache. *)
Definition both (Pd : D → Prop) (Pc : C → Prop) (s : S) : Prop := Pd (sv_db s) ∧ Pc (sv_cache s).
Context (Pd : D → Prop) (Pc : C → Prop).

Lemma both_query {X} (m : M D X) : preserves Pd m → preserves (both Pd Pc) (query m).
Proof. intros Hm s [Hd Hc]. rewrite query_state. split; [by apply Hm | done]. Qed.
Lemma with_breaker_cache {X} rt name (m : M D X) (s : S) :
  sv_cache (with_breaker rt name m s).2 = sv_cache s.
Proof. unfold with_breaker. by destruct (Interceptor.Execute _ _ _ _ _) as [[x e] [m' d]]. Qed.
Lemma both_breaker {X} rt name (m : M D X) : preserves Pd m → preserves (both Pd Pc) (with_breaker rt name m).
Proof.
  intros Hm s [Hd Hc]. split; [|by rewrite with_breaker_cache].
  destruct (with_breaker_cases rt name m s) as [(e & _ & ->)|[_ ->]]; [done | by apply Hm].
Qed.
Lemma both_guarded {X} rt (m : M D X) : preserves Pd m → preserves (both Pd Pc) (guarded rt m).
Proof. intros Hm. apply preserves_attemptF. by apply both_breaker. Qed.
Lemma both_cache {X} (m : M C X) : preserves Pc m → preserves (both Pd Pc) (on_scache (D:=D) (CB:=CB) (A:=A) m).
Proof.
  intros Hm s [Hd Hc]. unfold on_scache. rewrite zoom_eq.
  split; [done | by apply Hm].
Qed.

(** A property of the database every statement keeps. *)
Record closed : Prop := mkClosed {
  closed_First {X} key (q : Tables → list X) : preserves Pd (db_First key q);
  closed_Find {X} (q : Query X) : preserves Pd (db_Find q);
  closed_Create {X} `{RowLaws X} (x : X) : preserves Pd (db_Create x);
  closed_Save {X} `{RowLaws X} now (x : X) : preserves Pd (db_Save now x);
  closed_Delete {X} `{RowLaws X} (P : X → bool) : preserves Pd (db_Delete P);
  closed_Transaction (body : M D unit) : preserves Pd body → preserves Pd (db_Transaction body) }.
End running.
Lemma good_closed {D} `{GormLaws D} : closed good.
Proof.
  constructor; intros; eauto using good_First, good_Find, good_Create, good_Save, good_Delete,
    good_Transaction.
Qed.
Lemma true_closed {D} `{Gorm D} : closed (λ _ : D, True).
Proof. by constructor. Qed.

(** ** A request to the server *)

Inductive AdminRequest :=
| RGetUser (userId : string) | RCreateUser (req : PbCreateUserRequest)
| RUpdateUser (req : PbUpdateUserRequest) | RDeleteUser (userId : string)
| RActivateUser (userId : string) | RDeactivateUser (userId : string) | RVerifyUser (userId : string)
| RBulkCreateUsers (organizationId : string) (users : list PbCreateUserData)
| RBulkUpdateUsers (users : list PbUpdateUserData) | RBulkDeleteUsers (userIds : list string)
| RGetOrganization (organizationId : string) | RListOrganizations (req : PbListRequest)
| RGetOrganizationStats | RListUsers (req : PbListRequest) | RGetUserStats (organizationId : string)
| RListRoles (organizationId : string) | RListPermissions
| RCreateRole (req : PbCreateRoleRequest) | RUpdateRole (req : PbUpdateRoleRequest)
| RDeleteRole (roleId : string) | RAssignUserRole (userId roleId : string)
| RRevokeUserRole (userId roleId : string)
| RAssignPermissions (roleId : string) (permissionIds : list string).

Section serving.
Context {D C CB A : Type} `{Gorm D} `{BreakerLib CB} `{CacheOps C} `{CryptoLib} `{UuidLib}
  `{UuidParse} `{SqlText} `{ProtoLib}.
Abbreviation S := (Srv D C CB A).

(** One request at time [now]; [newID] gives the fresh identifiers. *)
Definition serve (rt : Runtime) (now : Z) (newID : nat → N) (r : AdminRequest) : GoM (option error) S unit :=
  match r with
  | RGetUser i => GetUser i ;;; ret tt
  | RCreateUser req => CreateUser rt now (newID 0%nat) req ;;; ret tt
  | RUpdateUser req => UpdateUser rt now req ;;; ret tt
  | RDeleteUser i => DeleteUser now i ;;; ret tt
  | RActivateUser i => ActivateUser now i ;;; ret tt
  | RDeactivateUser i => DeactivateUser now i ;;; ret tt
  | RVerifyUser i => VerifyUser now i ;;; ret tt
  | RBulkCreateUsers o users => BulkCreateUsers rt now newID o users ;;; ret tt
  | RBulkUpdateUsers users => BulkUpdateUsers rt now users ;;; ret tt
  | RBulkDeleteUsers ids => BulkDeleteUsers ids ;;; ret tt
  | RGetOrganization o => GetOrganization rt now o ;;; ret tt
  | RListOrganizations req => ListOrganizations req ;;; ret tt
  | RGetOrganizationStats => GetOrganizationStats ;;; ret tt
  | RListUsers req => ListUsers req ;;; ret tt
  | RGetUserStats o => GetUserStats now o ;;; ret tt
  | RListRoles o => ListRoles o ;;; ret tt
  | RListPermissions => ListPermissions ;;; ret tt
  | RCreateRole req => CreateRole now (newID 0%nat) req ;;; ret tt
  | RUpdateRole req => UpdateRole now req ;;; ret tt
  | RDeleteRole i => DeleteRole i ;;; ret tt
  | RAssignUserRole u i => AssignUserRole now (newID 0%nat) u i ;;; ret tt
  | RRevokeUserRole u i => RevokeUserRole u i ;;; ret tt
  | RAssignPermissions i ps => AssignPermissions now newID i ps ;;; ret tt
  end.
(** A step of the server before the time [until]. *)
Inductive admin_step (until : Z) : S → S → Prop :=
| admin_serve rt now newID r s : now < until →
    admin_step until s (serve rt now newID r s).2.

(** *** What every request keeps *)

(** The cache keys the handlers write or delete. *)
Definition admin_prefixes : list string :=
  ["user:id:"; "user:full:"; "user:permissions:"; "org:users:"; "org:id:"].
Definition admin_key (k : string) : Prop := ∃ p r, p ∈ admin_prefixes ∧ k = p +:+ r.

Context (Pd : D → Prop) (Pc : C → Prop) (rt : Runtime) (now : Z).
Hypothesis Hclosed : closed Pd.
Hypothesis Hget : ∀ k, preserves Pc (cache_Get now k).
Hypothesis Hset : ∀ k v ttl, admin_key k → preserves Pc (cache_Set now k v ttl).
Hypothesis Hdel : ∀ k, admin_key k → preserves Pc (cache_Delete now k).
Abbreviation keeps := (preserves (both (CB:=CB) (A:=A) Pd Pc)).

(** [statement] proves that one statement keeps [Pd]. *)
Ltac statement :=
  first [apply closed_First | apply closed_Find | apply closed_Create | apply closed_Save | apply closed_Delete];
  first [exact Hclosed | apply _].

Lemma keeps_query_First {X} key (q : Tables → list X) : keeps (query (db_First key q)).
Proof. apply both_query, closed_First; exact Hclosed. Qed.
Lemma keeps_query_Find {X} (q : Query X) : keeps (query (db_Find q)).
Proof. apply both_query, closed_Find; exact Hclosed. Qed.
Lemma keeps_query_Count {X} (f : Tables → list X) : keeps (query (db_Count f)).
Proof.
  apply both_query. unfold db_Count. preserve. apply closed_Find; exact Hclosed.
Qed.
Lemma keeps_with_id {R} text (a b : R) k : (∀ i, keeps (k i)) → keeps (with_id text a b k).
Proof. intros Hk. unfold with_id. by preserve. Qed.
Lemma keeps_find_row {X R} `{Row X} i (a b : R) (k : X → GoM (option error) S R) :
  (∀ x, keeps (k x)) → keeps (find_row i a b k).
Proof. intros Hk. unfold find_row. preserve; [apply keeps_query_First | apply Hk]. Qed.
Lemma keeps_count_or {X Y} failed (f : Tables → list X) (k : Z → GoM (option error) S (PbStatsResponse Y)) :
  (∀ n, keeps (k n)) → keeps (count_or failed f k).
Proof. intros Hk. unfold count_or. preserve; [apply keeps_query_Count | apply Hk]. Qed.
Lemma keeps_user_and_role u r k : (∀ i j, keeps (k i j)) → keeps (with_user_and_role u r k).
Proof. intros Hk. unfold with_user_and_role. by preserve. Qed.
Lemma keeps_invalidate u o : keeps (invalidateUserCaches now u o).
Proof using Hdel.
  clear -Hdel.
  unfold invalidateUserCaches. apply preserves_for_each. intros k Hk. preserve. apply both_cache, Hdel.
  unfold admin_key, admin_prefixes.
  rewrite !elem_of_cons, elem_of_nil in Hk. destruct_or! Hk; subst; try done;
    eexists _, _; (split; [|reflexivity]); set_solver.
Qed.
Lemma keeps_DeleteRow {X} `{RowLaws X} (x : X) : preserves Pd (db_DeleteRow x).
Proof. unfold db_DeleteRow. preserve. statement. Qed.

(** [keep] walks a handler; what remains are its statements. *)
Ltac keep :=
  repeat (preserve; cbv beta;
    try lazymatch goal with
    | |- preserves _ (with_id _ _ _ _) => apply keeps_with_id; intros ?
    | |- preserves _ (find_row _ _ _ _) => apply keeps_find_row; intros ?
    | |- preserves _ (count_or _ _ _) => apply keeps_count_or; intros ?
    | |- preserves _ (with_user_and_role _ _ _) => apply keeps_user_and_role; intros ? ?
    | |- preserves _ (invalidateUserCaches _ _ _) => apply keeps_invalidate
    | |- preserves _ (query (db_Count _)) => apply keeps_query_Count
    | |- preserves _ (query (db_DeleteRow _)) => apply both_query, keeps_DeleteRow; apply _
    | |- preserves _ (query _) => apply both_query; statement
    | |- preserves _ (guarded _ (db_First _ _)) => apply both_guarded; statement
    | |- preserves _ (guarded _ (db_FirstWhere _)) => apply both_guarded; statement
    end).

Lemma keeps_add_member user : preserves Pd (add_member user).
Proof.
  unfold add_member, db_FirstWhere. preserve; statement.
Qed.
Lemma keeps_create_member newID orgID req :
  keeps (createUserInExistingOrganization rt now newID orgID req).
Proof.
  unfold createUserInExistingOrganization. preserve.
  apply both_breaker, closed_Transaction; [exact Hclosed|]. apply keeps_add_member.
Qed.
Lemma keeps_CreateUser newID req : keeps (CreateUser rt now newID req).
Proof. unfold CreateUser. keep. apply keeps_create_member. Qed.
Lemma keeps_save_with_roles user i roles : preserves Pd (save_with_roles now user i roles).
Proof.
  unfold save_with_roles. preserve; statement.
Qed.
Lemma keeps_UpdateUser req : keeps (UpdateUser rt now req).
Proof.
  unfold UpdateUser. keep. apply both_guarded, closed_Transaction; [exact Hclosed|].
  apply keeps_save_with_roles.
Qed.
Lemma keeps_each {X} (f : nat → X → GoM (option error) S PbBulkUserResult) i users :
  (∀ j u, keeps (f j u)) → keeps (each_user f i users).
Proof. intros Hf. revert i. induction users as [|u users IH]; intros i; simpl; preserve; auto. Qed.
Lemma keeps_in_batches {X} process fuel i (users : list X) acc :
  (∀ l i, keeps (process l i)) → keeps (in_batches process fuel i users acc).
Proof.
  intros Hp. revert i acc. induction fuel as [|n IH]; intros i acc; cbn [in_batches]; case_match;
    unfold outOfFuel; preserve; auto.
Qed.
Lemma keeps_bulk {X} process (users : list X) :
  (∀ l i, keeps (process l i)) → keeps (bulk process users).
Proof. intros Hp. unfold bulk. preserve. by apply keeps_in_batches. Qed.
Lemma keeps_delete_each ids results n m : keeps (delete_each ids results n m).
Proof.
  revert results n m. induction ids as [|i ids IH]; intros results n m; simpl; [by preserve|].
  unfold delete_one. keep; apply IH.
Qed.
Lemma keeps_add_permissions newID role ids : keeps (add_permissions now newID role ids).
Proof. induction ids as [|i ids IH]; simpl; keep; exact IH. Qed.

Lemma keeps_create_one newID o i u : keeps (create_one rt now newID o i u).
Proof. unfold create_one. keep. apply keeps_create_member. Qed.
Lemma keeps_update_one i u : keeps (update_one rt now i u).
Proof. unfold update_one. keep. apply keeps_UpdateUser. Qed.

(** Every request keeps what the statements and the cache operations keep. *)
Lemma keeps_serve newID r : keeps (serve rt now newID r).
Proof.
  assert (Horg : ∀ i, admin_key ("org:id:" +:+ uuid_String i))
    by (intros i; eexists "org:id:", _; split; [unfold admin_prefixes; set_solver | done]).
  destruct r; simpl; (apply preserves_bind; [|intros; apply preserves_ret]);
    first
    [ apply keeps_CreateUser | apply keeps_UpdateUser
    | unfold BulkCreateUsers; keep; apply keeps_bulk; intros; apply keeps_each, keeps_create_one
    | unfold BulkUpdateUsers; keep; apply keeps_bulk; intros; apply keeps_each, keeps_update_one
    | unfold GetOrganization; keep; apply both_cache; solve [apply Hget | apply Hset, Horg]
    | unfold GetUser, DeleteUser, ActivateUser, DeactivateUser, VerifyUser, set_status,
        BulkDeleteUsers, ListOrganizations, GetOrganizationStats, ListUsers, list_users, GetUserStats,
        ListRoles, ListPermissions, CreateRole, UpdateRole, DeleteRole, AssignUserRole,
        RevokeUserRole, AssignPermissions;
      solve [keep; first [apply keeps_delete_each | apply keeps_add_permissions]] ].
Qed.
End serving.
