(* ===== verification/GrpcProps.v ===== *)
(** * What the handlers of the gRPC server guarantee

    Properties of the handlers of Grpc.v and GrpcAdmin.v: what any run of
    administrative requests keeps, the effect of the handlers that write
    several rows on each of their branches, the bulk forms against their
    sequential meaning, and the page arithmetic of the lists. *)

From S2P Require Import Prelude Errors Models Ifaces Database Repos Permission AuthService Breaker.
From S2P Require Import Grpc GrpcAdmin.

#[local] Open Scope Z_scope.

(** ** Bulk requests *)

Lemma wrap32_add a b : wrap32 (wrap32 a + b) = wrap32 (a + b).
Proof.
  unfold wrap32. f_equal.
  replace ((a + 2 ^ 31) mod 2 ^ 32 - 2 ^ 31 + b + 2 ^ 31) with ((a + 2 ^ 31) mod 2 ^ 32 + b) by lia.
  rewrite Zplus_mod_idemp_l. f_equal. lia.
Qed.
Lemma wrap32_small z : - 2 ^ 31 ≤ z < 2 ^ 31 → wrap32 z = z.
Proof. unfold wrap32. intros. rewrite Z.mod_small; lia. Qed.

Section bulk.
Context {D C CB A X : Type}.
Abbreviation S := (Srv D C CB A).
Abbreviation MF := (GoM (option error)).

(** How many of the answers succeeded. *)
Definition successes (rs : list PbBulkUserResult) : nat := length (List.filter pbu_Success rs).
Definition failures (rs : list PbBulkUserResult) : nat := length rs - successes rs.

Lemma successes_le rs : (successes rs <= length rs)%nat.
Proof. unfold successes. induction rs as [|r rs IH]; simpl; [done|]. destruct (pbu_Success r); simpl; lia. Qed.

(** The slots of answers that are all there. *)
Definition filled (rs : list PbBulkUserResult) : list (option PbBulkUserResult) := Some <$> rs.
(** The state of the loop: the answers so far, the slots still nil. *)
Definition tallied (n : nat) (rs : list PbBulkUserResult) : list (option PbBulkUserResult) * Z * Z :=
  (filled rs ++ replicate (n - length rs) None,
   wrap32 (Z.of_nat (successes rs)), wrap32 (Z.of_nat (failures rs))).

Lemma fill_slot n rs r : (length rs < n)%nat →
  <[length rs := Some r]> (filled rs ++ replicate (n - length rs) None) =
  filled (rs ++ [r]) ++ replicate (n - length (rs ++ [r])) None.
Proof.
  intros Hn. unfold filled. rewrite insert_app_r_alt by (by rewrite length_fmap). rewrite length_fmap, Nat.sub_diag.
  replace (n - length rs)%nat with (Datatypes.S (n - length (rs ++ [r]))) by (rewrite length_app; simpl; lia).
  simpl. by rewrite fmap_app, <- (assoc_L (++)).
Qed.

Lemma tally_spec n i j done rs : (i + j = length done)%nat → (length done + length rs <= n)%nat →
  tally i j rs (tallied n done) = tallied n (done ++ rs).
Proof.
  revert j done. induction rs as [|r rs IH]; intros j done Hj Hn; simpl; [by rewrite app_nil_r|].
  simpl in Hn. rewrite Hj, fill_slot by lia.
  replace (done ++ r :: rs) with ((done ++ [r]) ++ rs) by (by rewrite <- (assoc_L (++))).
  rewrite <- (IH (j + 1)%nat) by (rewrite length_app; simpl; lia). f_equal.
  pose proof (successes_le done). unfold tallied, failures, successes in *.
  rewrite List.filter_app, !length_app. simpl. destruct (pbu_Success r); simpl; rewrite wrap32_add;
    repeat match goal with |- (_, _) = (_, _) => f_equal end; f_equal; lia.
Qed.

Lemma each_user_app (f : nat → X → MF S PbBulkUserResult) i l1 l2 s :
  each_user f i (l1 ++ l2) s =
  bind (each_user f i l1) (λ r1, bind (each_user f (i + length l1)%nat l2) (λ r2, ret (r1 ++ r2))) s.
Proof.
  revert i s. induction l1 as [|x l1 IH]; intros i s; simpl.
  - rewrite bind_ret_l, Nat.add_0_r. unfold bind, ret. by destruct (each_user f i l2 s) as [[r|e] s'].
  - rewrite bind_assoc. destruct (f i x s) as [[r|e] s1] eqn:E.
    2:{ by rewrite !(bind_err _ _ _ _ _ E). }
    rewrite !(bind_step _ _ _ _ _ E), bind_assoc. unfold bind at 1. rewrite IH. unfold bind.
    destruct (each_user f (i + 1)%nat l1 s1) as [[r1|e] s2]; [|done]. simpl.
    replace (i + Datatypes.S (length l1))%nat with (i + 1 + length l1)%nat by lia.
    by destruct (each_user f _ l2 s2) as [[r2|e] s3].
Qed.
Lemma each_user_length (f : nat → X → MF S PbBulkUserResult) i l s rs s' :
  each_user f i l s = (Ok rs, s') → length rs = length l.
Proof.
  revert i s rs. induction l as [|x l IH]; intros i s rs; simpl; intros Hr; go_inv; [done|].
  simpl. f_equal. by eapply IH.
Qed.

(** The loop over the batches does what one pass over the users does. *)
Lemma in_batches_spec (f : nat → X → MF S PbBulkUserResult) users fuel done s :
  (length users <= length done + fuel * batchSize)%nat → (length done <= length users)%nat →
  in_batches (λ l i, each_user f i l) fuel (length done) users (tallied (length users) done) s =
  bind (each_user f (length done) (drop (length done) users))
    (λ rs, ret (tallied (length users) (done ++ rs))) s.
Proof.
  revert done s. induction fuel as [|fuel IH]; intros done s Hf Hd; cbn [in_batches];
    destruct (Nat.ltb_spec (length done) (length users)) as [Hlt|Hge]; [lia| | |];
    try (rewrite drop_ge by lia; unfold bind, ret; simpl; by rewrite app_nil_r).
  set (rest := drop (length done) users).
  assert (Hr : length rest = (length users - length done)%nat) by (unfold rest; by rewrite length_drop).
  set (n := (Nat.min _ _ - _)%nat).
  assert (Hn : n = Nat.min batchSize (length rest)) by (unfold n; lia).
  replace rest with (take n rest ++ drop n rest) at 2 by apply take_drop.
  cbv zeta. unfold bind at 1 2. rewrite each_user_app. unfold bind at 1.
  destruct (each_user f (length done) (take n rest) s) as [[r1|e] s1] eqn:E1; [|done].
  apply each_user_length in E1 as Hl1. rewrite length_take in Hl1.
  rewrite tally_spec by lia.
  assert (Hdrop : drop (length (done ++ r1)) users = drop n rest).
  { unfold rest. rewrite drop_drop, length_app. f_equal. lia. }
  destruct (decide (batchSize <= length rest)%nat) as [Hfull|Hlast].
  - replace (length done + batchSize)%nat with (length (done ++ r1)) by (rewrite length_app; lia).
    rewrite IH by (rewrite length_app; lia). rewrite Hdrop. unfold bind, ret.
    replace (length done + length (take n rest))%nat with (length (done ++ r1))
      by (rewrite length_app, length_take; lia).
    destruct (each_user f _ (drop n rest) s1) as [[r2|e] s2]; [|done].
    by rewrite <- (assoc_L (++)).
  - rewrite (drop_ge rest) by lia. unfold bind, ret. simpl. rewrite app_nil_r.
    destruct fuel; cbn [in_batches];
      (destruct (Nat.ltb_spec (length done + batchSize) (length users)); [lia | done]).
Qed.

Definition bulk_response (rs : list PbBulkUserResult) : PbBulkUsersResponse :=
  mkPbBulkUsersResponse (0 <? wrap32 (Z.of_nat (successes rs)))%Z (filled rs)
    (wrap32 (Z.of_nat (successes rs))) (wrap32 (Z.of_nat (failures rs))) "".
Lemma bulk_spec (f : nat → X → MF S PbBulkUserResult) users s :
  bulk (λ l i, each_user f i l) users s =
  bind (each_user f 0 users) (λ rs, ret (bulk_response rs)) s.
Proof.
  unfold bulk. pose proof (in_batches_spec f users (length users) [] s) as Hb.
  replace (tallied (length users) []) with (replicate (length users) (None : option PbBulkUserResult), 0, 0)
    in Hb by (unfold tallied, filled; simpl; by rewrite Nat.sub_0_r).
  simpl length in Hb. unfold bind at 1.
  rewrite Hb by (unfold batchSize; lia). clear Hb. unfold bind, ret. rewrite drop_0.
  destruct (each_user f 0 users s) as [[rs|e] s'] eqn:E; [|done].
  apply each_user_length in E. change ([] ++ rs) with rs.
  unfold tallied, bulk_response. by rewrite E, Nat.sub_diag, app_nil_r.
Qed.
End bulk.

(** ** Requests that are always answered *)

Section answers.
Context {W : Type}.
Definition answers {X} (m : GoM (option error) W X) : Prop := ∀ w, is_ok (m w).1 = true.

Lemma answers_ret {X} (x : X) : answers (ret x).
Proof. done. Qed.
Lemma answers_attemptF {X} (m : GoM error W X) : answers (attemptF m).
Proof. intros w. unfold attemptF. by destruct (m w). Qed.
Lemma answers_bind {X Y} (m : GoM (option error) W X) (k : X → GoM (option error) W Y) :
  answers m → (∀ x, answers (k x)) → answers (bind m k).
Proof.
  intros Hm Hk w. specialize (Hm w). unfold bind. destruct (m w) as [[x|e] w']; [apply Hk | done].
Qed.
Lemma answers_for_each {X} (f : X → GoM (option error) W unit) l :
  (∀ x, answers (f x)) → answers (for_each f l).
Proof.
  intros Hf. induction l as [|x l IH]; [apply answers_ret|].
  apply answers_bind; [apply Hf | intros _; exact IH].
Qed.
End answers.

Section answered.
Context {D C CB A : Type} `{Gorm D} `{BreakerLib CB} `{CacheOps C} `{CryptoLib} `{UuidLib}
  `{UuidParse} `{SqlText} `{ProtoLib}.
Context (rt : Runtime) (now : Z) (newID : nat → N).
Abbreviation S := (Srv D C CB A).

(** [answer] walks a handler; [query], [guarded] and [attemptF] always hand
    something over. *)
Ltac answer :=
  repeat (cbv beta zeta;
    lazymatch goal with
    | |- answers (ret _) => apply answers_ret
    | |- answers (attemptF _) => apply answers_attemptF
    | |- answers (query _) => apply answers_attemptF
    | |- answers (guarded _ _) => apply answers_attemptF
    | |- answers (bind _ _) => apply answers_bind; [|intros ?]
    | |- answers (for_each _ _) => apply answers_for_each; intros ?
    | |- answers (with_id _ _ _ _) => unfold with_id
    | |- answers (find_row _ _ _ _) => unfold find_row
    | |- answers (count_or _ _ _) => unfold count_or
    | |- answers (with_user_and_role _ _ _) => unfold with_user_and_role
    | |- answers (invalidateUserCaches _ _ _) => unfold invalidateUserCaches
    | |- answers (match _ with _ => _ end) => case_goal
    end).

Lemma UpdateUser_answers req : answers (UpdateUser (D:=D) (C:=C) (CB:=CB) (A:=A) rt now req).
Proof. unfold UpdateUser. answer. Qed.
Lemma create_one_answers o i u : answers (create_one (D:=D) (C:=C) (CB:=CB) (A:=A) rt now newID o i u).
Proof. unfold create_one. answer. Qed.
Lemma update_one_answers i u : answers (update_one (D:=D) (C:=C) (CB:=CB) (A:=A) rt now i u).
Proof. unfold update_one. answer. apply UpdateUser_answers. Qed.
Lemma each_user_answers {X} (f : nat → X → GoM (option error) S PbBulkUserResult) i l :
  (∀ j x, answers (f j x)) → answers (each_user f i l).
Proof. intros Hf. revert i. induction l as [|x l IH]; intros i; simpl; answer; auto. Qed.
Lemma bulk_answers {X} (f : nat → X → GoM (option error) S PbBulkUserResult) l :
  (∀ j x, answers (f j x)) → answers (bulk (λ l i, each_user f i l) l).
Proof.
  intros Hf s. rewrite bulk_spec. revert s. change (answers (bind (each_user f 0 l) (λ rs, ret (bulk_response rs)))).
  answer. by apply each_user_answers.
Qed.
Lemma delete_each_answers ids results n m :
  answers (delete_each (D:=D) (C:=C) (CB:=CB) (A:=A) ids results n m).
Proof.
  revert results n m. induction ids as [|i ids IH]; intros results n m; simpl; [answer|].
  unfold delete_one. answer; apply IH.
Qed.
Lemma add_permissions_answers role ids :
  answers (add_permissions (D:=D) (C:=C) (CB:=CB) (A:=A) now newID role ids).
Proof. induction ids as [|i ids IH]; simpl; answer; exact IH. Qed.

Lemma serve_answers r : answers (serve (D:=D) (C:=C) (CB:=CB) (A:=A) rt now newID r).
Proof.
  destruct r; simpl; (apply answers_bind; [|intros; apply answers_ret]);
    unfold GetUser, CreateUser, UpdateUser, DeleteUser, ActivateUser, DeactivateUser, VerifyUser,
      set_status, BulkCreateUsers, BulkUpdateUsers, BulkDeleteUsers, GetOrganization,
      ListOrganizations, GetOrganizationStats, ListUsers, list_users, GetUserStats, ListRoles,
      ListPermissions, CreateRole, UpdateRole, DeleteRole, AssignUserRole, RevokeUserRole,
      AssignPermissions; answer;
    first [ apply bulk_answers; intros; first [apply create_one_answers | apply update_one_answers]
          | apply delete_each_answers | apply add_permissions_answers ].
Qed.
End answered.

(** ** Writing rows *)

Section writing.
Context {D : Type} `{GormLaws D} {X : Type} `{Row X}.

Lemma Create_cases (x : X) (d : D) :
  (∃ now fresh, (db_Create x d).1 = Ok tt ∧
     db_tables (db_Create x d).2 = db_insert (row_created now fresh x) (db_tables d) ∧
     constraints (db_tables (db_Create x d).2)) ∨
  (is_ok (db_Create x d).1 = false ∧ db_tables (db_Create x d).2 = db_tables d).
Proof.
  unfold db_Create. rewrite !bind_gets. destruct (db_Exec _ d) as [[[]|e] d'] eqn:E; simpl.
  - left. apply db_Exec_ok in E as [He Hc]. eexists _, _. by rewrite He.
  - right. by apply db_Exec_err in E as [-> _].
Qed.
Lemma Delete_cases (P : X → bool) (d : D) :
  ((db_Delete P d).1 = Ok tt ∧ db_tables (db_Delete P d).2 = db_remove P (db_tables d)) ∨
  (is_ok (db_Delete P d).1 = false ∧ db_tables (db_Delete P d).2 = db_tables d).
Proof.
  unfold db_Delete. destruct (db_Exec _ d) as [[[]|e] d'] eqn:E; simpl.
  - left. by apply db_Exec_ok in E as [-> _].
  - right. by apply db_Exec_err in E as [-> _].
Qed.
End writing.

(** ** The permissions of a role *)

Definition links (T : Tables) : list (N * N) :=
  (λ rp, (rp_RoleID rp, rp_PermissionID rp)) <$> tb_role_permissions T.
(** Everything but the role-permission table. *)
Definition other_tables (T : Tables) : Tables := with_rows (A:=RolePermission) [] T.

Section permissions.
Context {D C CB A : Type} `{GormLaws D} `{UuidParse}.
Abbreviation S := (Srv D C CB A).
Abbreviation tables s := (db_tables (sv_db s)).

Lemma links_insert now fresh rp T :
  links (db_insert (row_created now fresh rp) T) = (rp_RoleID rp, rp_PermissionID rp) :: links T.
Proof. by destruct T, rp. Qed.
Lemma links_remove role T : links (db_remove (λ rp, (rp_RoleID rp =? role)%N) T) =
  List.filter (λ l, negb (l.1 =? role)%N) (links T).
Proof.
  destruct T. unfold links, db_remove. simpl.
  match goal with |- context [List.filter _ ?l] => induction l as [|x l IH] end; [done|]. simpl.
  destruct (rp_RoleID x =? role)%N; simpl; [exact IH | f_equal; exact IH].
Qed.

(** The rows the loop of [AssignPermissions] adds: all of them, or a proper
    prefix when an insert fails. *)
Lemma add_permissions_spec now newID role ids (s : S) : ∃ resp s' k,
  add_permissions now newID role ids s = (Ok resp, s') ∧ (k <= length ids)%nat ∧
  links (tables s') = (pair role <$> reverse (take k ids)) ++ links (tables s) ∧
  other_tables (tables s') = other_tables (tables s) ∧ sv_cache s' = sv_cache s ∧
  (prs_Success resp = true → k = length ids ∧ (ids ≠ [] → constraints (tables s'))) ∧
  (prs_Success resp = false → (k < length ids)%nat).
Proof.
  revert s. induction ids as [|i ids IH]; intros s.
  { exists (mkPbResult true ""), s, 0%nat. simpl. split_and!; done || lia. }
  cbn [add_permissions]. rewrite bind_query.
  set (x := mkRolePermission _ role i now).
  destruct (Create_cases x (sv_db s)) as [(t & fresh & Hr & Ht & Hc)|[Hr Ht]].
  - rewrite Hr. destruct (IH (with_db (db_Create x (sv_db s)).2 s))
      as (resp & s' & k & Hrun & Hk & Hl & Ho & Hcache & Hs & Hf).
    exists resp, s', (Datatypes.S k). cbn [with_db sv_db sv_cache] in *. rewrite Ht in Hl, Ho. split_and!.
    + exact Hrun.
    + simpl. lia.
    + rewrite Hl, links_insert. cbn [take]. by rewrite reverse_cons, fmap_app, <- (assoc_L (++)).
    + rewrite Ho. by destruct (db_tables (sv_db s)).
    + exact Hcache.
    + intros Hsucc. destruct (Hs Hsucc) as [-> Hcon]. split; [done|]. intros _.
      destruct ids as [|j ids]; [|by apply Hcon].
      cbn [add_permissions] in Hrun. injection Hrun as _ <-. exact Hc.
    + intros Hfail. specialize (Hf Hfail). simpl. lia.
  - destruct (db_Create x (sv_db s)).1 as [[]|e]; [done|].
    eexists _, _, 0%nat. split; [reflexivity|]. simpl. rewrite Ht. split_and!; done || lia.
Qed.
End permissions.

Lemma parse_ids_length `{UuidParse} texts ids : parse_ids texts = Ok ids → length ids = length texts.
Proof.
  revert ids. induction texts as [|t texts IH]; intros ids; simpl; [by intros [= <-]|].
  destruct (uuid_Parse t); [|done]. destruct (parse_ids texts) as [l|]; [|done]. intros [= <-].
  simpl. f_equal. by apply IH.
Qed.

(** ** Properties *)

(** C15: replacing the permissions of a role.  A request with a role and a list
    of identifiers that parse is answered.  Success replaces the permissions of
    the role by exactly the given ones, which were pairwise different, and
    touches no other role.  The replacement is no transaction: a failure has
    either changed nothing, or has removed every permission the role had and
    added only a proper prefix of the new ones.  Nothing else changes, and
    cached decisions stay. *)
Theorem AssignPermissions_replaces {D C CB A} `{GormLaws D} `{UuidParse} now newID roleId role texts ids
    (s : Srv D C CB A) :
  roleId ≠ "" → texts ≠ [] → uuid_Parse roleId = Ok role → parse_ids texts = Ok ids →
  ∃ resp s', AssignPermissions now newID roleId texts s = (Ok resp, s') ∧
    let before := links (db_tables (sv_db s)) in
    let after := links (db_tables (sv_db s')) in
    let others := List.filter (λ l, negb (l.1 =? role)%N) before in
    other_tables (db_tables (sv_db s')) = other_tables (db_tables (sv_db s)) ∧
    sv_cache s' = sv_cache s ∧
    (prs_Success resp = true → after = (pair role <$> reverse ids) ++ others ∧ NoDup ids) ∧
    (prs_Success resp = false → after = before ∨
       ∃ k, (k < length ids)%nat ∧ after = (pair role <$> reverse (take k ids)) ++ others).
Proof.
  intros Hrole Htexts Hr Hids. pose proof (parse_ids_length _ _ Hids) as Hlen.
  unfold AssignPermissions. destruct (String.eqb_spec roleId "") as [|_]; [done|].
  destruct (Nat.eqb_spec (length texts) 0) as [E0|_]; [by destruct texts|].
  simpl. rewrite Hr, Hids, bind_query.
  destruct (Delete_cases (λ rp, (rp_RoleID rp =? role)%N) (sv_db s)) as [[Hd Ht]|[Hd Ht]].
  - rewrite Hd. set (s1 := with_db _ s).
    destruct (add_permissions_spec now newID role ids s1)
      as (resp & s' & k & Hrun & Hk & Hl & Ho & Hc & Hs & Hf).
    exists resp, s'. simpl in Hl, Ho. rewrite Ht, links_remove in Hl. rewrite Ht in Ho.
    split_and!; [exact Hrun | rewrite Ho; by destruct (db_tables (sv_db s)) | exact Hc | |].
    + intros Hsucc. destruct (Hs Hsucc) as [-> Hcon]. rewrite firstn_all in Hl.
      split; [exact Hl|]. destruct Hcon as (_ & _ & _ & _ & _ & [_ Hnd] & _).
      { intros ->. by destruct texts. }
      fold (links (db_tables (sv_db s'))) in Hnd. rewrite Hl in Hnd.
      apply NoDup_app in Hnd as [Hnd _]. apply NoDup_fmap_1 in Hnd. rewrite reverse_Permutation in Hnd. exact Hnd.
    + intros Hfail. right. exists k. split; [by apply Hf | exact Hl].
  - destruct (db_Delete _ (sv_db s)).1 as [[]|e]; [done|].
    eexists _, _. split; [reflexivity|]. simpl. rewrite Ht. split_and!; try done. intros _. by left.
Qed.

(** Administration, as a run of requests: the tables stay well formed, and
    every request is answered, from any state. *)
Theorem administration_keeps_tables {D C CB A} `{GormLaws D} `{BreakerLib CB} `{CacheOps C}
    `{CryptoLib} `{UuidLib} `{UuidParse} `{SqlText} `{ProtoLib} until (s s' : Srv D C CB A) :
  well_formed (db_tables (sv_db s)) → star (admin_step until) s s' →
  well_formed (db_tables (sv_db s')) ∧
  ∀ rt now newID r, is_ok (serve rt now newID r s').1 = true.
Proof.
  intros Hs Hrun. split; [|intros; apply serve_answers].
  refine (proj1 (star_invariant _ (both good (λ _, True)) s s' _ (conj Hs I) Hrun)).
  intros a b Ha Hstep. revert Ha. destruct Hstep as [rt now newID r x _]. intros Ha.
  apply keeps_serve; [apply good_closed | done | done | done | exact Ha].
Qed.

(** The key of a decision is none of the administrative ones. *)
Lemma decision_key_is_no_admin_key `{UuidLib} u r a s : ¬ admin_key (buildPermissionCacheKey u r a s).
Proof.
  intros (p & rest & Hp & He). unfold buildPermissionCacheKey in He. unfold admin_prefixes in Hp.
  rewrite !elem_of_cons, elem_of_nil in Hp. destruct_or! Hp; subst; try done; by injection He.
Qed.

(** A run of requests keeps the other keys of the cache. *)
Lemma admin_run_keeps {D C CB A} `{Gorm D} `{BreakerLib CB} `{CacheLaws C} `{CryptoLib} `{UuidLib}
    `{UuidParse} `{SqlText} `{ProtoLib} key data until (s s' : Srv D C CB A) :
  ¬ admin_key key → star (admin_step until) s s' →
  chas (sv_cache s) key data until → chas (sv_cache s') key data until.
Proof.
  intros Hkey Hrun Hc.
  refine (proj2 (star_invariant _ (both (λ _ : D, True) (λ c, chas c key data until)) s s' _
    (conj I Hc) Hrun)).
  intros a b Hab Hstep. revert Hab. destruct Hstep as [rt t newID r x Ht]. intros Hab.
  assert (Hne : ∀ k, admin_key k → key ≠ k) by (by intros k Hk ->).
  apply keeps_serve; [apply true_closed | | | | exact Hab].
  - intros k c Hk. destruct (cache_Get_keeps c k t) as [Hkeep _]. by apply Hkeep.
  - intros k v ttl Hk c Hck. destruct (cache_Set_keeps c k v ttl t) as [Hkeep _].
    apply Hkeep; auto.
  - intros k Hk c Hck. destruct (cache_Delete_keeps c k t) as [Hkeep _]. apply Hkeep; auto.
Qed.

(** C13: administration does not reach cached decisions.  While a decision is
    cached, no run of administrative requests changes what CheckPermission
    answers: not the deletion or deactivation of the user, not the withdrawal
    of a role, not a new set of permissions for it. *)
Theorem cached_decision_outlives_administration {D C CB A} `{Gorm D} `{BreakerLib CB} `{CacheLaws C}
    `{CryptoLib} `{UuidLib} `{UuidParse} `{SqlText} `{ProtoLib} `{PermissionRepository D}
    `{PermissionJson} config fuel now userId u resource action (s s' : Srv D C CB A) data until out :
  userId ≠ "" → resource ≠ "" → action ≠ "" → uuid_Parse userId = Ok u →
  chas (sv_cache s) (buildPermissionCacheKey u resource action "") data until →
  result_Unmarshal data = Ok out → star (admin_step until) s s' → now < until →
  (CheckPermission config fuel now userId resource action s').1 =
    Ok (mkPbCheckPermissionResponse (per_Allowed out) "").
Proof.
  intros Hu Hr Ha Hp Hc Hout Hrun Hnow.
  pose proof (admin_run_keeps _ _ _ _ _ (decision_key_is_no_admin_key u resource action "") Hrun Hc)
    as Hs'.
  unfold CheckPermission.
  destruct (String.eqb_spec userId ""), (String.eqb_spec resource ""), (String.eqb_spec action "");
    try done. cbn [orb]. rewrite Hp.
  pose proof (Check_cached config fuel now u resource action "" (mkPSW (sv_cache s') (sv_db s'))
    data until out Hs' Hout Hnow) as Hchk.
  unfold bind, catch, on_permissions. destruct (CheckUserPermissionWithScope _ _ _ _ _ _ _ _) as [r w].
  simpl in Hchk. by subst r.
Qed.

(** C24: bulk creation and update are sequential.  The batches of ten, the slots
    and the two 32-bit counters amount to one pass over the users in order: a
    request that passes the checks is answered with the outcome of every user
    in its place, no failure stops the ones after it, and the counters are the
    numbers of successes and failures. *)
Theorem bulk_requests_are_sequential {D C CB A} `{Gorm D} `{BreakerLib CB} `{CacheOps C} `{CryptoLib}
    `{UuidLib} `{UuidParse} rt now newID orgText org created updated (s : Srv D C CB A) :
  orgText ≠ "" → uuid_Parse orgText = Ok org → created ≠ [] → updated ≠ [] →
  (∃ rs s', each_user (create_one rt now newID org) 0 created s = (Ok rs, s') ∧
     length rs = length created ∧
     BulkCreateUsers rt now newID orgText created s = (Ok (bulk_response rs), s')) ∧
  (∃ rs s', each_user (update_one rt now) 0 updated s = (Ok rs, s') ∧
     length rs = length updated ∧
     BulkUpdateUsers rt now updated s = (Ok (bulk_response rs), s')).
Proof.
  intros Ho Hp Hc Hu. split.
  - destruct (run_ok _ (each_user_answers (create_one rt now newID org) 0 created
      (create_one_answers rt now newID org) s)) as [rs Hrun].
    eexists rs, _. split; [exact Hrun|]. split; [by eapply each_user_length|].
    unfold BulkCreateUsers. destruct (String.eqb_spec orgText ""); [done|].
    destruct created as [|c created]; [done|]. cbn [orb length Nat.eqb]. rewrite Hp.
    unfold processBulkUserCreation. rewrite bulk_spec. by erewrite bind_step by exact Hrun.
  - destruct (run_ok _ (each_user_answers (update_one rt now) 0 updated
      (update_one_answers rt now) s)) as [rs Hrun].
    eexists rs, _. split; [exact Hrun|]. split; [by eapply each_user_length|].
    unfold BulkUpdateUsers. destruct updated as [|c updated]; [done|]. cbn [length Nat.eqb].
    unfold processBulkUserUpdate. rewrite bulk_spec. by erewrite bind_step by exact Hrun.
Qed.

(** ** Pages *)

(** A page of users.  A successful answer lists, of some arrangement of the
    users that match, the ones between the offset and the offset plus the
    limit, with the defaults of both, and the number of all matches.  While
    that sum fits 32 bits, [has_next_page] says whether matches are left after
    the page; past it the sum wraps and the flag is always set, on the last
    page too. *)
Theorem ListUsers_page {D C CB A} `{GormLaws D} `{UuidLib} `{UuidParse} `{SqlText} req
    (s s' : Srv D C CB A) resp :
  plr_Limit req < 2 ^ 31 → plr_Offset req < 2 ^ 31 →
  ListUsers req s = (Ok resp, s') → plu_Success resp = true →
  ∃ org, (org = None ∧ plr_OrganizationId req = "" ∨
          ∃ i, org = Some i ∧ uuid_Parse (plr_OrganizationId req) = Ok i) ∧
    let T := db_tables (sv_db s) in
    let total := Z.of_nat (length (listed_users org req T)) in
    let past := page_offset req + page_limit req in
    ∃ arranged, Permutation (with_organization T <$> listed_users org req T) arranged ∧
      plu_Users resp = (λ x, convertUserToProto x.1 x.2) <$>
        take (Z.to_nat (page_limit req)) (drop (Z.to_nat (page_offset req)) arranged) ∧
      (total < 2 ^ 31 → plu_TotalCount resp = total ∧
         (past < 2 ^ 31 → plu_HasNextPage resp = true ↔
            page_offset req + Z.of_nat (length (plu_Users resp)) < total) ∧
         (2 ^ 31 ≤ past → plu_HasNextPage resp = true)).
Proof.
  intros Hlim Hoff Hrun Hs.
  assert (Hone : ∃ org, (org = None ∧ plr_OrganizationId req = "" ∨
      ∃ i, org = Some i ∧ uuid_Parse (plr_OrganizationId req) = Ok i) ∧ list_users org req s = (Ok resp, s')).
  { unfold ListUsers in Hrun. destruct (String.eqb_spec (plr_OrganizationId req) ""); [by exists None; auto|].
    destruct (uuid_Parse _) as [i|]; [exists (Some i); eauto|]. by injection Hrun as <- _. }
  destruct Hone as (org & Horg & Hl). exists org. split; [exact Horg|]. clear Hrun Horg. cbv zeta.
  unfold list_users in Hl. rewrite bind_query in Hl.
  destruct (db_Count _ (sv_db s)) as [[n|e] d1] eqn:Ec; cbn [fst snd] in Hl;
    [|injection Hl as <- _; discriminate Hs].
  apply Count_ok in Ec as [-> Hd1]. rewrite bind_query in Hl. cbn [with_db sv_db] in Hl.
  destruct (db_Find _ d1) as [[users|e] d2] eqn:Ef; cbn [fst snd] in Hl;
    [|injection Hl as <- _; discriminate Hs].
  injection Hl as <- _. apply db_Find_ok in Ef as (r & arranged & [= <-] & Hp & _ & ->).
  rewrite Hd1 in Hp. exists arranged. split; [exact Hp|].
  assert (0 < page_limit req < 2 ^ 31)
    by (unfold page_limit; destruct (Z.leb_spec (plr_Limit req) 0); lia).
  assert (0 ≤ page_offset req < 2 ^ 31)
    by (unfold page_offset; destruct (Z.ltb_spec (plr_Offset req) 0); lia).
  unfold page. cbn [q_limit q_offset plu_Users plu_TotalCount plu_HasNextPage].
  destruct (Z.ltb_spec (page_limit req) 0); [lia|]. split; [done|]. intros Ht.
  apply Permutation_length in Hp. rewrite length_fmap in Hp.
  rewrite length_fmap, length_take, length_drop, <- Hp, (wrap32_small (Z.of_nat _)) by lia.
  split; [done|]. rewrite Z.ltb_lt. split; intros Hpast.
  - rewrite wrap32_small by lia. lia.
  - unfold wrap32. rewrite <- (Z_mod_plus_full _ (-1)), Z.mod_small; lia.
Qed.

(** ** Updating a user *)

Definition user_links (T : Tables) : list (N * N) := (λ ur, (ur_UserID ur, ur_RoleID ur)) <$> tb_user_roles T.
(** Everything but the users and their roles. *)
Definition beyond_users (T : Tables) : Tables := with_rows (A:=User) [] (with_rows (A:=UserRole) [] T).
(** The identifiers that parse. *)
Definition valid_ids `{UuidParse} (texts : list string) : list N :=
  omap (λ t, match uuid_Parse t with Ok i => Some i | Err _ => None end) texts.

Section updating.
Context {D : Type} `{GormLaws D} `{UuidParse}.

Lemma user_links_insert now fresh ur T :
  user_links (db_insert (row_created now fresh ur) T) = (ur_UserID ur, ur_RoleID ur) :: user_links T.
Proof. by destruct T, ur. Qed.
Lemma user_links_remove i T : user_links (db_remove (λ ur, (ur_UserID ur =? i)%N) T) =
  List.filter (λ l, negb (l.1 =? i)%N) (user_links T).
Proof.
  destruct T. unfold user_links, db_remove. simpl.
  match goal with |- context [List.filter _ ?l] => induction l as [|x l IH] end; [done|]. simpl.
  destruct (ur_UserID x =? i)%N; simpl; [exact IH | f_equal; exact IH].
Qed.

Lemma add_roles_ok i texts (d d' : D) :
  for_each (λ t, match uuid_Parse t with
                 | Err _ => ret tt | Ok r => db_Create (RoleRepo.new_UserRole i r) end) texts d = (Ok tt, d') →
  user_links (db_tables d') = (pair i <$> reverse (valid_ids texts)) ++ user_links (db_tables d) ∧
  tb_users (db_tables d') = tb_users (db_tables d) ∧
  beyond_users (db_tables d') = beyond_users (db_tables d).
Proof.
  revert d. induction texts as [|t texts IH]; intros d; cbn [for_each]; intros Hr.
  { by injection Hr as <-. }
  apply bind_ok_inv in Hr as ([] & d1 & Hc & Hr). apply IH in Hr as (-> & -> & ->).
  unfold valid_ids. simpl. fold (valid_ids texts). destruct (uuid_Parse t) as [r|e].
  - destruct (Create_cases (RoleRepo.new_UserRole i r) d) as [(now & fresh & _ & Ht & _)|[Hf _]];
      [|by rewrite Hc in Hf]. rewrite Hc in Ht. cbn [snd] in Ht. rewrite Ht, user_links_insert.
    split; [by rewrite reverse_cons, fmap_app, <- (assoc_L (++))|]. by destruct (db_tables d).
  - by injection Hc as <-.
Qed.

Lemma Save_ok now (u : User) (d d' : D) : u_ID u ≠ uuid_Nil →
  (∃ old, old ∈ tb_users (db_tables d) ∧ u_ID old = u_ID u) → db_Save now u d = (Ok tt, d') →
  db_tables d' = db_update (has_id (u_ID u)) (λ _, as_saved now u) (db_tables d).
Proof.
  exact (Save_updates (A:=User) now u d d').
Qed.

(** What the transaction of [UpdateUser] commits. *)
Lemma save_with_roles_ok now user roles (d d' : D) : u_ID user ≠ uuid_Nil →
  (∃ old, old ∈ tb_users (db_tables d) ∧ u_ID old = u_ID user) →
  save_with_roles now user (u_ID user) roles d = (Ok tt, d') →
  tb_users (db_tables d') =
    ((λ u, if has_id (u_ID user) u then as_saved now user else u) <$> tb_users (db_tables d)) ∧
  user_links (db_tables d') =
    (if decide (roles = []) then user_links (db_tables d)
     else (pair (u_ID user) <$> reverse (valid_ids roles)) ++
          List.filter (λ l, negb (l.1 =? u_ID user)%N) (user_links (db_tables d))) ∧
  beyond_users (db_tables d') = beyond_users (db_tables d).
Proof.
  intros Hn Hold Hr. apply bind_ok_inv in Hr as ([] & d1 & Hs & Hr). apply Save_ok in Hs; [|done..].
  destruct roles as [|r roles].
  { simpl in Hr. injection Hr as <-. rewrite Hs. by destruct (db_tables d). }
  simpl in Hr. apply bind_ok_inv in Hr as ([] & d2 & Hd & Hr).
  apply (add_roles_ok _ (r :: roles)) in Hr as (-> & -> & ->).
  destruct (Delete_cases (λ ur, (ur_UserID ur =? u_ID user)%N) d1) as [[_ Ht]|[Hf _]];
    [|by rewrite Hd in Hf]. rewrite Hd in Ht. cbn [snd] in Ht.
  rewrite Ht, user_links_remove, Hs. by destruct (db_tables d).
Qed.
End updating.

(** The calls around the transaction. *)
Lemma guarded_cases {D C CB A X} `{BreakerLib CB} rt (m : M D X) (s : Srv D C CB A) : ∃ r s1,
  guarded rt m s = (Ok r, s1) ∧
  ((∃ e, r = Err e ∧ sv_db s1 = sv_db s) ∨ (r = (m (sv_db s)).1 ∧ sv_db s1 = (m (sv_db s)).2)).
Proof.
  unfold guarded, attemptF. pose proof (with_breaker_cases rt "database" m s) as Hc. cbv zeta in Hc.
  destruct (with_breaker rt "database" m s) as [r s1]. exists r, s1. split; [done|].
  destruct Hc as [(e & Hr & Hs)|[Hr Hs]]; [left; by exists e | by right].
Qed.
Lemma invalidate_run {D C CB A} `{CacheOps C} `{UuidLib} now u o (s : Srv D C CB A) :
  ∃ s1, invalidateUserCaches now u o s = (Ok tt, s1) ∧ sv_db s1 = sv_db s.
Proof.
  assert (Ha : answers (invalidateUserCaches (D:=D) (CB:=CB) (A:=A) now u o)).
  { apply answers_for_each. intros k. apply answers_bind; [apply answers_attemptF|].
    intros _. apply answers_ret. }
  destruct (run_ok _ (Ha s)) as [[] Hr]. eexists. split; [exact Hr|].
  exact (proj1 (keeps_invalidate (λ d, d = sv_db s) (λ _ : C, True) now (λ _ _ _ _, I) u o s
    (conj eq_refl I))).
Qed.

(** C17: an update of a user is all or nothing.  On well-formed tables, a failed
    request leaves every table as it was.  A successful one found the user and
    changes its row in place, with both flags taken from the request; when the
    request names roles, the user then has exactly those among them that parse,
    and otherwise the roles stay; nothing else changes. *)
Theorem UpdateUser_all_or_nothing {D C CB A} `{GormLaws D} `{BreakerLib CB} `{CacheOps C} `{UuidLib}
    `{UuidParse} rt now req userID (s s' : Srv D C CB A) resp :
  well_formed (db_tables (sv_db s)) → uuid_Parse (puu_UserId req) = Ok userID →
  UpdateUser rt now req s = (Ok resp, s') →
  let T := db_tables (sv_db s) in let T' := db_tables (sv_db s') in
  (pus_Success resp = false → T' = T) ∧
  (pus_Success resp = true → ∃ old, old ∈ tb_users T ∧ u_ID old = userID ∧
     let user := as_saved now (update_fields now req old) in
     pus_User resp = Some (convertUserToProto user None) ∧
     u_IsActive user = puu_IsActive req ∧ u_IsVerified user = puu_IsVerified req ∧
     tb_users T' = ((λ u, if has_id userID u then user else u) <$> tb_users T) ∧
     user_links T' = (if decide (puu_RoleIds req = []) then user_links T
                      else (pair userID <$> reverse (valid_ids (puu_RoleIds req))) ++
                           List.filter (λ l, negb (l.1 =? userID)%N) (user_links T)) ∧
     beyond_users T' = beyond_users T).
Proof.
  intros [_ Hids] Hp Hrun. cbv zeta. unfold UpdateUser, with_id in Hrun.
  destruct (String.eqb _ ""); [by injection Hrun as <- <-|]. rewrite Hp in Hrun.
  destruct (guarded_cases rt (db_FirstWhere (A:=User) (has_id userID)) s) as (r1 & s1 & Hr1 & Hc1).
  rewrite (bind_step _ _ _ _ _ Hr1) in Hrun. clear Hr1.
  assert (Hk1 : db_tables (sv_db s1) = db_tables (sv_db s)).
  { destruct Hc1 as [(e & _ & ->)|[_ ->]]; [done | apply db_First_keeps]. }
  destruct r1 as [old|e]; [|by injection Hrun as <- <-].
  assert (Hold : old ∈ tb_users (db_tables (sv_db s)) ∧ u_ID old = userID).
  { destruct Hc1 as [(e & [=] & _)|[He _]]. symmetry in He. apply run_split, FirstWhere_ok in He as (Hin & Hi & _).
    split; [exact Hin | by apply N.eqb_eq]. }
  destruct Hold as [Hin Hid]. cbv zeta in Hrun.
  set (user := update_fields now req old) in *.
  assert (Huid : u_ID user = userID) by (unfold user; by destruct old).
  destruct (guarded_cases rt (db_Transaction (save_with_roles now user userID (puu_RoleIds req))) s1)
    as (r2 & s2 & Hr2 & Hc2).
  rewrite (bind_step _ _ _ _ _ Hr2) in Hrun. clear Hr2.
  destruct r2 as [[]|e].
  2:{ injection Hrun as <- <-. split; [|done]. intros _.
      destruct Hc2 as [(e' & _ & ->)|[He ->]]; [done|].
      destruct (db_Transaction _ (sv_db s1)) as [r d2] eqn:Et. simpl in He. subst r. simpl.
      by rewrite (db_Transaction_err _ _ _ _ Et). }
  destruct (invalidate_run now (u_ID user) (u_OrganizationID user) s2) as (s3 & Hinv & Hs3).
  rewrite (bind_step _ _ _ _ _ Hinv) in Hrun. injection Hrun as <- <-. split; [done|]. intros _.
  exists old. split; [done|]. split; [done|]. fold user. rewrite Hs3.
  destruct Hc2 as [(e & [=] & _)|[He ->]]. symmetry in He. apply run_split in He.
  apply db_Transaction_ok in He as (d1 & d2 & Hd1 & Hbody & ->).
  rewrite <- Huid in Hbody. rewrite Hk1 in Hd1. apply save_with_roles_ok in Hbody as (H1' & H2' & H3').
  - rewrite Hd1, Huid in *. split_and!; try done; unfold user; by destruct old.
  - rewrite Huid, <- Hid. destruct Hids as [Hu _]. unfold identified in Hu.
    rewrite Forall_forall in Hu. by apply Hu.
  - rewrite Hd1. exists old. by rewrite Huid.
Qed.

(** ** Witnesses

    The tables of Repos.v with a user and an organization, a closed breaker,
    and identifiers written in decimal. *)
#[local] Existing Instances ref_uuid ref_crypto ref_breaker ref_perm_json.
#[local] Instance ref_parse : UuidParse := λ text,
  match Atoi text with Some z => Ok (Z.to_N z) | None => Err (ErrorString "invalid UUID length") end.
#[local] Instance ref_sql : SqlText := {
  sql_ilike value pattern := true; order_users text a b := true; order_organizations text a b := true }.
#[local] Instance ref_proto : ProtoLib := {
  proto_Marshal o := Ok (po_Name o); proto_Unmarshal data := Err (ErrorString "proto: cannot parse") }.

Definition ref_member : User :=
  mkUser 7 9 "a@b.c" "hash" "Ada" "B" true true None None false "" [] 0 None 1 1 "" "".
Definition ref_admin_tables : Tables :=
  mkTables [ref_member] [] (tb_roles ref_tables) (tb_permissions ref_tables) (tb_user_roles ref_tables)
    (tb_role_permissions ref_tables) [] [].
Definition ref_admin : Srv RefDB ref_cache ref_cb unit :=
  mkSrv (mkRefDB ref_admin_tables 100) allowed_cache (mkManager [] ∅ ∅) tt None.
Definition ref_ids (n : nat) : N := (N.of_nat n + 200)%N.
Lemma ref_admin_ok : well_formed (db_tables (sv_db ref_admin)).
Proof.
  split.
  - unfold constraints. split_and!; (eapply bool_decide_eq_true; vm_compute; reflexivity).
  - unfold all_identified, identified. split_and!; repeat constructor; discriminate.
Qed.

(** The second of two equal identifiers is refused: role 2 has lost what it had. *)
Example AssignPermissions_replaces_witness :
  ∃ s', AssignPermissions 5 ref_ids "2" ["23"; "23"] ref_admin =
      (Ok (mkPbResult false "Failed to assign permissions to role"), s') ∧
    (links (db_tables (sv_db s')) = [(2, 21); (2, 22); (3, 21)]%N ∨
     ∃ k, (k < 2)%nat ∧
       links (db_tables (sv_db s')) = (pair 2%N <$> reverse (take k [23; 23]%N)) ++ [(3, 21)]%N).
Proof.
  destruct (AssignPermissions_replaces 5 ref_ids "2" 2%N ["23"; "23"] [23; 23]%N ref_admin)
    as (resp & s' & Hrun & _ & _ & _ & Hf); [discriminate | discriminate | reflexivity | reflexivity |].
  assert (E : (AssignPermissions 5 ref_ids "2" ["23"; "23"] ref_admin).1 =
              Ok (mkPbResult false "Failed to assign permissions to role")) by vm_refl.
  rewrite Hrun in E. injection E as ->. exists s'. split; [exact Hrun | exact (Hf eq_refl)].
Defined.

(** User 7 is deactivated and deleted; the cached permission is still granted. *)
Definition ref_deleted : Srv RefDB ref_cache ref_cb unit :=
  (serve (mkRuntime 0 (λ _, None)) 1 ref_ids (RDeleteUser "7")
    (serve (mkRuntime 0 (λ _, None)) 0 ref_ids (RDeactivateUser "7") ref_admin).2).2.
Example cached_decision_outlives_administration_witness :
  tb_users (db_tables (sv_db ref_deleted)) = [] ∧
  (CheckPermission ref_perm_config 6 Minute "7" "docs" "list" ref_deleted).1 =
    Ok (mkPbCheckPermissionResponse true "").
Proof.
  split; [vm_refl|].
  eapply (cached_decision_outlives_administration ref_perm_config 6 Minute "7" 7%N "docs" "list"
            ref_admin ref_deleted allowed_data Hour allowed_out);
    [discriminate | discriminate | discriminate | reflexivity | | reflexivity | | reflexivity].
  - exists Hour. split; [apply lookup_insert_eq | reflexivity].
  - eapply star_snoc; [eapply star_snoc; [apply star_refl|]|]; by constructor.
Defined.

Definition ref_new (email : string) : PbCreateUserData := mkPbCreateUserData email "pw" "A" "B" true true [].
Example bulk_requests_are_sequential_witness :
  (∃ rs s', each_user (create_one (mkRuntime 0 (λ _, None)) 0 ref_ids 9) 0
              [ref_new "x@b.c"; ref_new ""] ref_admin = (Ok rs, s') ∧ length rs = 2%nat ∧
     BulkCreateUsers (mkRuntime 0 (λ _, None)) 0 ref_ids "9" [ref_new "x@b.c"; ref_new ""] ref_admin =
       (Ok (bulk_response rs), s')).
Proof.
  apply (bulk_requests_are_sequential (mkRuntime 0 (λ _, None)) 0 ref_ids "9" 9%N
    [ref_new "x@b.c"; ref_new ""] [mkPbUpdateUserData "7" "" "" "" true true []] ref_admin);
    [discriminate | reflexivity | discriminate | discriminate].
Defined.

(** The only user, on the default page. *)
Definition ref_page : PbListRequest := mkPbListRequest "" 0 (-3) "" "" "".
Definition ref_listed : res (option error) PbListUsersResponse * Srv RefDB ref_cache ref_cb unit :=
  ListUsers ref_page ref_admin.
Definition default_list (r : res (option error) PbListUsersResponse) : PbListUsersResponse :=
  match r with Ok x => x | Err _ => list_users_failure "" end.
Lemma ref_listed_run : ListUsers ref_page ref_admin = (Ok (default_list ref_listed.1), ref_listed.2).
Proof. vm_refl. Qed.
Example ListUsers_page_witness :
  plu_TotalCount (default_list ref_listed.1) = 1 ∧
  (plu_HasNextPage (default_list ref_listed.1) = true ↔
     0 + Z.of_nat (length (plu_Users (default_list ref_listed.1))) < 1).
Proof.
  destruct (ListUsers_page ref_page ref_admin ref_listed.2 (default_list ref_listed.1))
    as (org & [[-> _]|(i & _ & Hp)] & arranged & _ & _ & Hn);
    [reflexivity | reflexivity | exact ref_listed_run | vm_refl | | discriminate Hp].
  destruct (Hn ltac:(reflexivity)) as (Ht & Hnext & _). split; [exact Ht|].
  exact (Hnext ltac:(reflexivity)).
Defined.

Definition ref_change_user : PbUpdateUserRequest := mkPbUpdateUserRequest "7" "" "Eve" "" false true ["4"; "x"] None.
Definition ref_changed : res (option error) PbUserResponse * Srv RefDB ref_cache ref_cb unit :=
  UpdateUser (mkRuntime 0 (λ _, None)) 5 ref_change_user ref_admin.
Definition default_user (r : res (option error) PbUserResponse) : PbUserResponse :=
  match r with Ok x => x | Err _ => user_failure "" end.
Lemma ref_changed_run : UpdateUser (mkRuntime 0 (λ _, None)) 5 ref_change_user ref_admin =
  (Ok (default_user ref_changed.1), ref_changed.2).
Proof. vm_refl. Qed.
Example UpdateUser_all_or_nothing_witness : user_links (db_tables (sv_db ref_changed.2)) = [(7, 4)]%N.
Proof.
  destruct (proj2 (UpdateUser_all_or_nothing (mkRuntime 0 (λ _, None)) 5 ref_change_user 7%N ref_admin
    ref_changed.2 (default_user ref_changed.1) ref_admin_ok eq_refl ref_changed_run) ltac:(vm_refl))
    as (old & _ & _ & _ & _ & _ & _ & Hl & _).
  exact Hl.
Defined.

(** With the breakers of [setupCircuitBreakers], three updates of users that do
    not exist open the database breaker: an update of user 7 is then refused
    with the same answer, and nothing is written. *)
Definition ref_guarded : Srv RefDB ref_cache ref_cb unit :=
  mkSrv (sv_db ref_admin) (sv_cache ref_admin)
    (Interceptor.setupCircuitBreakers NewCircuitBreakerManager) tt None.
Definition ref_update (i : string) : PbUpdateUserRequest := mkPbUpdateUserRequest i "" "Eve" "" true true [] None.
Definition ref_missed : Srv RefDB ref_cache ref_cb unit :=
  foldr (λ i s, (UpdateUser (ref_clock Second) 5 (ref_update i) s).2) ref_guarded ["11"; "12"; "13"].
Example missing_users_open_the_breaker :
  (UpdateUser (ref_clock Second) 5 (ref_update "7") ref_missed).1 = Ok (user_failure "User not found") ∧
  is_ok (UpdateUser (ref_clock Second) 5 (ref_update "7") ref_guarded).1 = true ∧
  tb_users (db_tables (sv_db (UpdateUser (ref_clock Second) 5 (ref_update "7") ref_missed).2)) = [ref_member] ∧
  (u_FirstName <$> tb_users (db_tables (sv_db
     (UpdateUser (ref_clock Second) 5 (ref_update "7") ref_guarded).2))) = ["Eve"].
Proof. split_and!; vm_refl. Qed.
