(* ===== verification/Http.v ===== *)
(** * HTTP requests and their bodies
    (src/internal/handlers, src/internal/utils/validation.go, src/internal/router/router.go)

    What the HTTP handlers share: request bodies decoded from JSON, the JSON
    they answer, the validation of requests, the tokens they mint, and the
    state they work on ([HW]): the database, the Redis client and the messages
    handed to the Kafka writer, which writes them in the background.  The
    handlers themselves are in HttpHandlers.v, the routes in Router.v.

    [encoding/json] matches the members of an object with the fields of a
    struct up to case, in the order of the body; the names of all fields are
    ASCII.  A string of a body that stands for an instant is a [JTime], and the
    canonical text of an identifier may be a [JUuid].  The text of a decoding
    error is the library's and left out. *)

From S2P Require Import Prelude Errors Models Ifaces Database Repos TokenService AuthService.
From S2P Require Import Events Interceptors Grpc.

#[local] Open Scope Z_scope.

(** ** Decoding request bodies *)
Section decoding.
Context `{UuidLib} `{UuidParse}.

(** A decoder stores a value into a variable; [None] is an error. *)
Abbreviation Decoder A := (Json → A → option A).

Definition dec_str : Decoder string := λ j s,
  match j with JNull => Some s | JStr t => Some t | JUuid u => Some (uuid_String u) | _ => None end.
Definition dec_bool : Decoder bool := λ j b,
  match j with JNull => Some b | JBool c => Some c | _ => None end.
Definition dec_int : Decoder Z := λ j z,
  match j with
  | JNull => Some z
  | JInt i => if (min_int <=? i)%Z && (i <=? max_int)%Z then Some i else None
  | _ => None
  end.
Definition dec_time : Decoder Z := λ j t,
  match j with JNull => Some t | JTime u => Some u | _ => None end.
Definition dec_uuid : Decoder N := λ j u,
  match j with
  | JNull => Some u
  | JUuid v => Some v
  | JStr s => match uuid_Parse s with Ok v => Some v | Err _ => None end
  | _ => None
  end.
Fixpoint dec_all {A} (zero : A) (dec : Decoder A) (l : list Json) : option (list A) :=
  match l with
  | [] => Some []
  | j :: l' => a ← dec j zero; r ← dec_all zero dec l'; Some (a :: r)
  end.
(** The elements of a fresh slice start from the zero value. *)
Definition dec_list {A} (zero : A) (dec : Decoder A) : Decoder (list A) := λ j l,
  match j with JNull => Some [] | JArr js => dec_all zero dec js | _ => None end.
(** The members of an object are added to a map. *)
Fixpoint dec_members (l : list (string * Json)) (m : gmap string string) : option (gmap string string) :=
  match l with
  | [] => Some m
  | (k, v) :: l' => s ← dec_str v ""; dec_members l' (<[k := s]> m)
  end.
Definition dec_map : Decoder (gmap string string) := λ j m,
  match j with JNull => Some ∅ | JObj l => dec_members l m | _ => None end.

(** A struct: its fields by name, the exact name first. *)
Definition field_of {A} (fields : list (string * Decoder A)) (k : string) : option (Decoder A) :=
  match List.find (λ f, String.eqb f.1 k) fields with
  | Some f => Some f.2
  | None => snd <$> List.find (λ f, String.eqb (ToUpper f.1) (ToUpper k)) fields
  end.
Fixpoint dec_fields {A} (fields : list (string * Decoder A)) (l : list (string * Json)) (a : A)
    : option A :=
  match l with
  | [] => Some a
  | (k, v) :: l' =>
      match field_of fields k with
      | None => dec_fields fields l' a
      | Some dec => a' ← dec v a; dec_fields fields l' a'
      end
  end.
Definition dec_struct {A} (fields : list (string * Decoder A)) : Decoder A := λ j a,
  match j with JNull => Some a | JObj l => dec_fields fields l a | _ => None end.
(** A field given by its decoder, its value and its assignment. *)
Definition at_field {A B} (dec : Decoder B) (get : A → B) (set : B → A → A) : Decoder A :=
  λ j a, b ← dec j (get a); Some (set b a).

(** ** Requests *)

Record RegisterRequest := mkRegister {
  rg_Email : string; rg_Password : string; rg_FirstName : string; rg_LastName : string;
  rg_OrganizationName : string; rg_Domain : string }.
Definition dec_RegisterRequest : Decoder RegisterRequest := dec_struct
  [("email", at_field dec_str rg_Email (λ x '(mkRegister _ p f l o d), mkRegister x p f l o d));
   ("password", at_field dec_str rg_Password (λ x '(mkRegister e _ f l o d), mkRegister e x f l o d));
   ("first_name", at_field dec_str rg_FirstName (λ x '(mkRegister e p _ l o d), mkRegister e p x l o d));
   ("last_name", at_field dec_str rg_LastName (λ x '(mkRegister e p f _ o d), mkRegister e p f x o d));
   ("organization_name", at_field dec_str rg_OrganizationName
      (λ x '(mkRegister e p f l _ d), mkRegister e p f l x d));
   ("domain", at_field dec_str rg_Domain (λ x '(mkRegister e p f l o _), mkRegister e p f l o x))].

Record LoginRequest := mkLogin { lg_Email : string; lg_Password : string }.
Definition dec_LoginRequest : Decoder LoginRequest := dec_struct
  [("email", at_field dec_str lg_Email (λ x r, mkLogin x (lg_Password r)));
   ("password", at_field dec_str lg_Password (λ x r, mkLogin (lg_Email r) x))].

(** [RefreshTokenRequest] has one field. *)
Definition dec_RefreshTokenRequest : Decoder string := dec_struct [("refresh_token", dec_str)].

Record UpdateProfileRequest := mkProfile { pf_FirstName : string; pf_LastName : string }.
Definition dec_UpdateProfileRequest : Decoder UpdateProfileRequest := dec_struct
  [("first_name", at_field dec_str pf_FirstName (λ x r, mkProfile x (pf_LastName r)));
   ("last_name", at_field dec_str pf_LastName (λ x r, mkProfile (pf_FirstName r) x))].

Record ChangePasswordRequest := mkChange { cq_CurrentPassword : string; cq_NewPassword : string }.
Definition dec_ChangePasswordRequest : Decoder ChangePasswordRequest := dec_struct
  [("current_password", at_field dec_str cq_CurrentPassword (λ x r, mkChange x (cq_NewPassword r)));
   ("new_password", at_field dec_str cq_NewPassword (λ x r, mkChange (cq_CurrentPassword r) x))].

Record CreateRoleRequest := mkCreateRole { cr_Name : string; cr_Description : string }.
Definition dec_CreateRoleRequest : Decoder CreateRoleRequest := dec_struct
  [("name", at_field dec_str cr_Name (λ x r, mkCreateRole x (cr_Description r)));
   ("description", at_field dec_str cr_Description (λ x r, mkCreateRole (cr_Name r) x))].

(** [AssignPermissionsRequest] has one field. *)
Definition dec_AssignPermissionsRequest : Decoder (list N) := dec_struct
  [("permission_ids", dec_list uuid_Nil dec_uuid)].

Record AssignUserRoleRequest := mkAssign { aq_UserID : N; aq_RoleID : N }.
Definition dec_AssignUserRoleRequest : Decoder AssignUserRoleRequest := dec_struct
  [("user_id", at_field dec_uuid aq_UserID (λ x r, mkAssign x (aq_RoleID r)));
   ("role_id", at_field dec_uuid aq_RoleID (λ x r, mkAssign (aq_UserID r) x))].

Record CheckPermissionRequest := mkCheck { ck_UserID : N; ck_Resource : string; ck_Action : string }.
Definition dec_CheckPermissionRequest : Decoder CheckPermissionRequest := dec_struct
  [("user_id", at_field dec_uuid ck_UserID (λ x r, mkCheck x (ck_Resource r) (ck_Action r)));
   ("resource", at_field dec_str ck_Resource (λ x r, mkCheck (ck_UserID r) x (ck_Action r)));
   ("action", at_field dec_str ck_Action (λ x r, mkCheck (ck_UserID r) (ck_Resource r) x))].

(** A body decoded over an organization.  Its members [users] and [roles]
    would be rows of their own, which GORM stores with the organization; they
    are left out. *)
Definition dec_Settings : Decoder Settings := dec_struct
  [("timezone", at_field dec_str s_Timezone (λ x '(mkSettings _ d c l t s f), mkSettings x d c l t s f));
   ("date_format", at_field dec_str s_DateFormat (λ x '(mkSettings z _ c l t s f), mkSettings z x c l t s f));
   ("currency", at_field dec_str s_Currency (λ x '(mkSettings z d _ l t s f), mkSettings z d x l t s f));
   ("language", at_field dec_str s_Language (λ x '(mkSettings z d c _ t s f), mkSettings z d c x t s f));
   ("two_factor_enabled", at_field dec_bool s_TwoFactorEnabled
      (λ x '(mkSettings z d c l _ s f), mkSettings z d c l x s f));
   ("session_timeout", at_field dec_int s_SessionTimeout
      (λ x '(mkSettings z d c l t _ f), mkSettings z d c l t x f));
   ("custom_fields", at_field dec_map s_CustomFields
      (λ x '(mkSettings z d c l t s _), mkSettings z d c l t s x))].
Definition dec_Organization : Decoder Organization := dec_struct
  [("id", at_field dec_uuid o_ID (λ x '(mkOrganization _ n d s a c u), mkOrganization x n d s a c u));
   ("name", at_field dec_str o_Name (λ x '(mkOrganization i _ d s a c u), mkOrganization i x d s a c u));
   ("domain", at_field dec_str o_Domain (λ x '(mkOrganization i n _ s a c u), mkOrganization i n x s a c u));
   ("settings", at_field dec_Settings o_Settings
      (λ x '(mkOrganization i n d _ a c u), mkOrganization i n d x a c u));
   ("is_active", at_field dec_bool o_IsActive
      (λ x '(mkOrganization i n d s _ c u), mkOrganization i n d s x c u));
   ("created_at", at_field dec_time o_CreatedAt
      (λ x '(mkOrganization i n d s a _ u), mkOrganization i n d s a x u));
   ("updated_at", at_field dec_time o_UpdatedAt
      (λ x '(mkOrganization i n d s a c _), mkOrganization i n d s a c x))].
End decoding.

(** ** Answers

    A status and the value the body encodes.  A struct is printed whole, its
    relationships that are structs included: they are zero unless they were
    loaded.  An empty custom field map is printed as the nil map. *)
Record Response := mkResponse { rs_Status : Z; rs_Body : Json }.
Definition StatusOK : Z := 200.
Definition StatusCreated : Z := 201.
Definition StatusBadRequest : Z := 400.
Definition StatusForbidden : Z := 403.
Definition StatusNotFound : Z := 404.
Definition StatusConflict : Z := 409.
Definition StatusInternalServerError : Z := 500.

Definition error_body (msg : string) : Json := JObj [("error", JStr msg)].
Definition message_body (msg : string) : Json := JObj [("message", JStr msg)].

Definition opt_time (t : option Z) : Json := match t with Some x => JTime x | None => JNull end.
Definition omit_list {A} (k : string) (f : A → Json) (l : list A) : list (string * Json) :=
  match l with [] => [] | _ => [(k, JArr (f <$> l))] end.

Definition Settings_json (s : Settings) : Json :=
  JObj [("timezone", JStr (s_Timezone s)); ("date_format", JStr (s_DateFormat s));
        ("currency", JStr (s_Currency s)); ("language", JStr (s_Language s));
        ("two_factor_enabled", JBool (s_TwoFactorEnabled s));
        ("session_timeout", JInt (s_SessionTimeout s));
        ("custom_fields",
          if decide (s_CustomFields s = ∅) then JNull
          else JObj (sort_keys ((λ kv, (kv.1, JStr kv.2)) <$> map_to_list (s_CustomFields s))))].
Definition zero_organization : Organization :=
  mkOrganization uuid_Nil "" "" (mkSettings "" "" "" "" false 0 ∅) false zero_time zero_time.
Definition Organization_json (o : Organization) : Json :=
  JObj [("id", JUuid (o_ID o)); ("name", JStr (o_Name o)); ("domain", JStr (o_Domain o));
        ("settings", Settings_json (o_Settings o)); ("is_active", JBool (o_IsActive o));
        ("created_at", JTime (o_CreatedAt o)); ("updated_at", JTime (o_UpdatedAt o))].
Definition related (o : option Organization) : Json := Organization_json (default zero_organization o).
(** [password_hash], the two-factor secrets and the lock have no JSON name. *)
Definition User_json (u : User) (o : option Organization) : Json :=
  JObj [("id", JUuid (u_ID u)); ("organization_id", JUuid (u_OrganizationID u));
        ("email", JStr (u_Email u)); ("first_name", JStr (u_FirstName u));
        ("last_name", JStr (u_LastName u)); ("is_active", JBool (u_IsActive u));
        ("is_verified", JBool (u_IsVerified u)); ("last_login_at", opt_time (u_LastLoginAt u));
        ("password_reset_at", opt_time (u_PasswordResetAt u));
        ("two_factor_enabled", JBool (u_TwoFactorEnabled u));
        ("created_at", JTime (u_CreatedAt u)); ("updated_at", JTime (u_UpdatedAt u));
        ("organization", related o); ("full_name", JStr (u_FullName u))].
Definition zero_user : User :=
  mkUser uuid_Nil uuid_Nil "" "" "" "" false false None None false "" [] 0 None zero_time zero_time "" "".
Definition Permission_json (p : Permission) : Json :=
  JObj [("id", JUuid (p_ID p)); ("name", JStr (p_Name p)); ("resource", JStr (p_Resource p));
        ("action", JStr (p_Action p)); ("scope", JStr (p_Scope p));
        ("parent_id", match p_ParentID p with Some i => JUuid i | None => JNull end);
        ("description", JStr (p_Description p)); ("is_system", JBool (p_IsSystem p));
        ("created_at", JTime (p_CreatedAt p)); ("updated_at", JTime (p_UpdatedAt p))].
Definition zero_role : Role := mkRole uuid_Nil uuid_Nil "" "" false false zero_time zero_time.
(** The fields of a role up to its assignments. *)
Definition role_fields (r : Role) : list (string * Json) :=
  [("id", JUuid (r_ID r)); ("organization_id", JUuid (r_OrganizationID r)); ("name", JStr (r_Name r));
   ("description", JStr (r_Description r)); ("is_system", JBool (r_IsSystem r));
   ("is_active", JBool (r_IsActive r)); ("created_at", JTime (r_CreatedAt r));
   ("updated_at", JTime (r_UpdatedAt r)); ("organization", related None)].
Definition RolePermission_json (x : RolePermission * option Permission) : Json :=
  JObj [("id", JUuid (rp_ID x.1)); ("role_id", JUuid (rp_RoleID x.1));
        ("permission_id", JUuid (rp_PermissionID x.1)); ("created_at", JTime (rp_CreatedAt x.1));
        ("role", JObj (role_fields zero_role));
        ("permission", Permission_json (default zero_permission x.2))].
Definition Role_json (r : Role) (assigned : list (RolePermission * option Permission)) : Json :=
  JObj (role_fields r ++ omit_list "role_permissions" RolePermission_json assigned).
Definition UserRole_json (x : UserRole * option Role) : Json :=
  JObj [("id", JUuid (ur_ID x.1)); ("user_id", JUuid (ur_UserID x.1)); ("role_id", JUuid (ur_RoleID x.1));
        ("created_at", JTime (ur_CreatedAt x.1)); ("user", User_json zero_user None);
        ("role", Role_json (default zero_role x.2) [])].
(** [Find] leaves an empty slice, not a nil one. *)
Definition list_json {A} (f : A → Json) (l : list A) : Json := JArr (f <$> l).

Definition AuthResponse_json (accessToken refreshToken : string) (expiresIn : Z) (user : User)
    (org : option Organization) : Json :=
  JObj [("access_token", JStr accessToken); ("refresh_token", JStr refreshToken);
        ("expires_in", JInt expiresIn); ("user", User_json user org)].

(** ** Validation (utils/validation.go)

    The tags of a field, in order; the library reports the first tag a field
    fails.  The two patterns are the library's. *)
Class ValidatorLib := { valid_email : string → bool; valid_fqdn : string → bool }.

Inductive Tag := TagRequired | TagEmail | TagMin (n : Z) | TagMax (n : Z) | TagFqdn.
Record FieldError := mkFieldError { fe_Field : string; fe_Tag : Tag }.

(** [utf8.RuneCountInString] on well-formed text, which decoded JSON is:
    the bytes that do not continue a character. *)
Fixpoint rune_count (s : string) : Z :=
  match s with
  | EmptyString => 0
  | String a s' =>
      (if (128 <=? N_of_ascii a)%N && (N_of_ascii a <? 192)%N then 0 else 1) + rune_count s'
  end.

Section validation.
Context `{ValidatorLib}.

Definition holds (t : Tag) (value : string) : bool :=
  match t with
  | TagRequired => negb (String.eqb value "")
  | TagEmail => valid_email value
  | TagMin n => (n <=? rune_count value)%Z
  | TagMax n => (rune_count value <=? n)%Z
  | TagFqdn => valid_fqdn value
  end.
Definition first_failed (f : string * string * list Tag) : option FieldError :=
  let '(name, value, tags) := f in mkFieldError name <$> List.find (λ t, negb (holds t value)) tags.

Definition formatValidationError (err : FieldError) : string :=
  let field := ToLower (fe_Field err) in
  match fe_Tag err with
  | TagRequired => field +:+ " is required"
  | TagEmail => field +:+ " must be a valid email address"
  | TagMin n => field +:+ " must be at least " +:+ Itoa n +:+ " characters long"
  | TagMax n => field +:+ " must be at most " +:+ Itoa n +:+ " characters long"
  | TagFqdn => field +:+ " must be a valid domain name"
  end.
(** [strings.Join]. *)
Fixpoint Join (l : list string) (sep : string) : string :=
  match l with [] => "" | [s] => s | s :: l' => s +:+ sep +:+ Join l' sep end.
Definition ValidateStruct (fields : list (string * string * list Tag)) : option error :=
  match omap first_failed fields with
  | [] => None
  | errors => Some (ErrorString (Join (formatValidationError <$> errors) "; "))
  end.

(** The fields and tags of [RegisterRequest]. *)
Definition register_fields (r : RegisterRequest) : list (string * string * list Tag) :=
  [("Email", rg_Email r, [TagRequired; TagEmail]); ("Password", rg_Password r, [TagRequired; TagMin 8]);
   ("FirstName", rg_FirstName r, [TagRequired; TagMin 1; TagMax 100]);
   ("LastName", rg_LastName r, [TagRequired; TagMin 1; TagMax 100]);
   ("OrganizationName", rg_OrganizationName r, [TagRequired; TagMin 2; TagMax 255]);
   ("Domain", rg_Domain r, [TagRequired; TagFqdn])].
End validation.
