(* ===== verification/HttpHandlers.v ===== *)
(** * The HTTP handlers
    (src/internal/handlers/auth.go, user.go, role.go)

    One definition per handler, on the state [HW] and the gin context of a
    request.  A handler answers once.  [now] is the clock reading of one
    request, [ids] the identifiers [uuid.New()] gives to its events; the
    identifiers of rows are drawn by the hooks (Database.v). *)

From S2P Require Import Prelude Errors Models Ifaces Database Repos TokenService AuthService.
From S2P Require Import Events Interceptors Grpc GrpcAdmin Http.

#[local] Open Scope Z_scope.

(** ** Libraries

    GORM's explicit transactions: [db_Begin] opens one, [db_Commit before] and
    [db_Rollback before] end the one opened in the state [before].  A failed
    commit and a rollback leave the tables as they were before. *)
Class GormTx (D : Type) := {
  db_Begin : D → D;
  db_Commit : D → M D unit;
  db_Rollback : D → D → D }.
Class GormTxLaws (D : Type) `{GormLaws D} `{GormTx D} := {
  db_Begin_tables d : db_tables (db_Begin d) = db_tables d;
  db_Commit_ok before d d' : db_Commit before d = (Ok tt, d') → db_tables d' = db_tables d;
  db_Commit_err before d d' e : db_Commit before d = (Err e, d') → db_tables d' = db_tables before;
  db_Rollback_tables before d : db_tables (db_Rollback before d) = db_tables before }.

(** [GET] of the Redis client: an error for a key that is not there. *)
Class RedisGet (R : Type) := { redis_Get : Z → string → M R string }.
Class RedisGetLaws (R : Type) `{RedisLaws R} `{RedisGet R} := {
  redis_Get_key r k d now : rkey r k d → now < d → is_ok (redis_Get now k r).1 = true;
  redis_Get_keeps r k now k' d : rkey r k' d → rkey (redis_Get now k r).2 k' d }.

(** [middleware.Claims] with its registered claims, and its signature.  The
    struct is another one than [TokenClaims], which a token made of it parses
    to with the missing fields left zero. *)
Record HttpClaims := mkHttpClaims {
  hc_Claims : Claims; hc_ID : string; hc_Subject : string;
  hc_IssuedAt : option Z; hc_ExpiresAt : option Z }.
Definition as_token_claims (c : HttpClaims) : TokenClaims :=
  mkTokenClaims (cl_UserID (hc_Claims c)) (cl_OrganizationID (hc_Claims c)) (cl_Email (hc_Claims c))
    "" 0 "" "" "" (hc_ID c) (hc_Subject c) (hc_IssuedAt c) (hc_ExpiresAt c) None "" [].
Class HttpJwt := { http_SignedString : string → HttpClaims → res error string }.
Class HttpJwtLaws `{JwtLib} `{HttpJwt} := {
  http_Parse_signed key c s now kf : http_SignedString key c = Ok s →
    kf true (as_token_claims c) = Ok key → time_valid now (as_token_claims c) = true →
    jwt_ParseWithClaims now s kf = Ok (as_token_claims c, true);
  http_Parse_refused key c s now kf : http_SignedString key c = Ok s →
    kf true (as_token_claims c) ≠ Ok key → is_ok (jwt_ParseWithClaims now s kf) = false }.

(** The text of the error of [ShouldBindJSON]. *)
Class BindLib := { bind_error : option Json → string }.

(** ** The state of the handlers

    [hw_messages]: what was handed to the Kafka writer, [None] without a
    producer. *)
Record HW (D R : Type) := mkHW { hw_db : D; hw_redis : R; hw_messages : option (list Message) }.
Arguments mkHW {D R}. Arguments hw_db {D R}. Arguments hw_redis {D R}. Arguments hw_messages {D R}.

(** The request a handler sees. *)
Record Ctx := mkCtx {
  cx_gin : GinContext; cx_params : gmap string string; cx_ip : string; cx_body : option Json }.
Definition Param (c : Ctx) (name : string) : string := default "" (cx_params c !! name).
Definition ctx_Get (c : Ctx) (key : string) : option ctx_value := gc_keys (cx_gin c) !! key.
Definition blacklisted_key (token : string) : string := "blacklist:" +:+ token.

(** [user.SetPassword] stores nothing but the hash. *)
Definition set_PasswordHash (hash : string) (u : User) : User :=
  let '(mkUser i o e _ fn ln ac ve ll pr tf ts bc fa lu ca ua fu pc) := u in
  mkUser i o e hash fn ln ac ve ll pr tf ts bc fa lu ca ua fu pc.
Definition set_Names (first last : string) (u : User) : User :=
  let '(mkUser i o e ph _ _ ac ve ll pr tf ts bc fa lu ca ua fu pc) := u in
  mkUser i o e ph first last ac ve ll pr tf ts bc fa lu ca ua fu pc.
Definition SetPassword `{CryptoLib} (password : string) (u : User) : res error User :=
  match bcrypt_Generate 10 password with Ok h => Ok (set_PasswordHash h u) | Err e => Err e end.
Definition CheckPassword `{CryptoLib} (u : User) (password : string) : bool :=
  bcrypt_Compare (u_PasswordHash u) password.

Section handlers.
Context {D R : Type} `{Gorm D} `{GormTx D} `{RedisOps R} `{RedisGet R} `{JwtLib} `{HttpJwt} `{CryptoLib}
  `{UuidLib} `{UuidParse} `{ValidatorLib} `{BindLib}.
Context (config : JWTConfig) (now : Z) (ids : nat → N).
Abbreviation S := (HW D R).
Abbreviation MF := (GoM (option error)).

Definition on_hdb {X} (m : M D X) : M S X :=
  zoom hw_db (λ d s, mkHW d (hw_redis s) (hw_messages s)) m.
Definition on_hredis {X} (m : M R X) : M S X :=
  zoom hw_redis (λ r s, mkHW (hw_db s) r (hw_messages s)) m.
Definition sql {X} (m : M D X) : MF S (res error X) := attemptF (on_hdb m).

Definition JSON (status : Z) (body : Json) : MF S Response := ret (mkResponse status body).
Definition refuse (status : Z) (msg : string) : MF S Response := JSON status (error_body msg).
(** The steps most handlers are made of, each with its refusal. *)
Definition with_body {X} (zero : X) (dec : Json → X → option X) (c : Ctx) (k : X → MF S Response)
    : MF S Response :=
  match cx_body c ≫= λ j, dec j zero with
  | None => refuse StatusBadRequest (bind_error (cx_body c))
  | Some x => k x
  end.
Definition with_row {X} (m : M D X) (status : Z) (msg : string) (k : X → MF S Response) : MF S Response :=
  let* found := sql m in
  match found with Err _ => refuse status msg | Ok x => k x end.
Definition with_key (key msg : string) (c : Ctx) (k : ctx_value → MF S Response) : MF S Response :=
  match ctx_Get c key with None => refuse StatusUnauthorized msg | Some v => k v end.
Definition with_param (name msg : string) (c : Ctx) (k : N → MF S Response) : MF S Response :=
  match uuid_Parse (Param c name) with Err _ => refuse StatusBadRequest msg | Ok i => k i end.
(** [v.(uuid.UUID)]. *)
Definition assert_uuid {X} (v : ctx_value) (k : N → MF S X) : MF S X :=
  match v with CUuid n => k n | CStr _ => panics end.
(** A condition [column = ?] on a value of the context. *)
Definition is_id (v : ctx_value) (i : N) : bool :=
  match v with CUuid n => (i =? n)%N | CStr s => String.eqb (uuid_String i) s end.

(** The [n]-th event of a request. *)
Definition publish (n : nat) (userID orgID : N) (c : Ctx) (data : EventData) : MF S unit :=
  modify (λ s, mkHW (hw_db s) (hw_redis s)
    ((λ l, match Producer_Publish (ids n) now userID orgID (cx_ip c)
                   (GetHeader (cx_gin c) "User-Agent") data with
           | Some (Ok m) => l ++ [m]
           | _ => l
           end) <$> hw_messages s)).

(** ** Tokens (auth.go) *)

Definition http_claims (user : User) (expiry : Z) : HttpClaims :=
  mkHttpClaims (mkClaims (u_ID user) (u_OrganizationID user) (u_Email user)) ""
    (uuid_String (u_ID user)) (Some (NewNumericDate now)) (Some (NewNumericDate (now + seconds expiry))).
Definition generateTokens (user : User) : res error (string * string) :=
  match http_SignedString (jc_Secret config) (http_claims user (jc_AccessExpiry config)) with
  | Err e => Err e
  | Ok access =>
      match http_SignedString (jc_Secret config) (http_claims user (jc_RefreshExpiry config)) with
      | Err e => Err e
      | Ok refresh => Ok (access, refresh)
      end
  end.
Definition with_tokens (user : User) (k : string → string → MF S Response) : MF S Response :=
  match generateTokens user with
  | Err _ => refuse StatusInternalServerError "Failed to generate tokens"
  | Ok (access, refresh) => k access refresh
  end.
Definition session (status : Z) (access refresh : string) (user : User) (org : option Organization)
    : MF S Response :=
  JSON status (AuthResponse_json access refresh (jc_AccessExpiry config) user org).

(** [db.Create(&a)] with the row it leaves in [a]. *)
Definition db_Created {A} `{Row A} (a : A) : M D A :=
  let* t := gets db_NowFunc in
  let* fresh := gets db_uuid_New in
  db_Exec (db_insert (row_created t fresh a)) ;;;
  ret (row_created t fresh a).
(** [db.Model(&user).Update("last_login_at", now)]: its error is ignored,
    and the fields of [user] are set. *)
Definition touch_login (user : User) : MF S User :=
  sql (db_Updates (A:=User) (has_id (u_ID user)) (set_LastLogin now now)) ;;;
  ret (set_LastLogin now now user).
(** [Preload("Organization").Where(P).First(&user)]. *)
Definition user_and_organization (P : User → bool) : M D (User * option Organization) :=
  db_First (λ x, u_ID x.1) (λ T,
    (λ u, (u, List.find (has_id (u_OrganizationID u)) (tb_organizations T))) <$> List.filter P (tb_users T)).

(** ** Registration and login (auth.go) *)

Definition registered_organization (req : RegisterRequest) : Organization :=
  mkOrganization uuid_Nil (rg_OrganizationName req) (rg_Domain req)
    (mkSettings "UTC" "YYYY-MM-DD" "USD" "en" false 3600 ∅) false zero_time zero_time.
Definition registered_user (req : RegisterRequest) (orgID : N) : User :=
  mkUser uuid_Nil orgID (rg_Email req) "" (rg_FirstName req) (rg_LastName req) true false None None
    false "" [] 0 None zero_time zero_time "" "".
Definition admin_role (orgID : N) : Role :=
  mkRole uuid_Nil orgID "Admin" "Full access to all features" true false zero_time zero_time.

(** What runs on the transaction; an error is the text of the answer. *)
Definition register_rows (req : RegisterRequest) : GoM string D (Organization * User) :=
  let* org := wrap_err (λ _, "Failed to create organization") (db_Created (registered_organization req)) in
  let* hashed := wrap_err (λ _, "Failed to hash password")
                   (lift_res (SetPassword (rg_Password req) (registered_user req (o_ID org)))) in
  let* user := wrap_err (λ _, "Failed to create user") (db_Created hashed) in
  let* adminRole := wrap_err (λ _, "Failed to create admin role") (db_Created (admin_role (o_ID org))) in
  wrap_err (λ _, "Failed to assign admin role")
    (db_Create (mkUserRole uuid_Nil (u_ID user) (r_ID adminRole) zero_time)) ;;;
  ret (org, user).
Definition register_tx (req : RegisterRequest) : GoM string D (Organization * User) := λ d,
  match register_rows req (db_Begin d) with
  | (Err msg, d1) => (Err msg, db_Rollback d d1)
  | (Ok x, d1) =>
      match db_Commit d d1 with
      | (Ok _, d2) => (Ok x, d2)
      | (Err _, d2) => (Err "Failed to complete registration", d2)
      end
  end.
Definition on_tx {X} (m : GoM string D X) : MF S (res string X) := λ s,
  let (r, d) := m (hw_db s) in (Ok r, mkHW d (hw_redis s) (hw_messages s)).

Definition zero_register : RegisterRequest := mkRegister "" "" "" "" "" "".
Definition Register (c : Ctx) : MF S Response :=
  with_body zero_register dec_RegisterRequest c (λ req,
  match ValidateStruct (register_fields req) with
  | Some err => refuse StatusBadRequest (Error err)
  | None =>
      let* existingOrg := sql (db_FirstWhere (λ o, String.eqb (o_Domain o) (rg_Domain req))) in
      if is_ok existingOrg then refuse StatusConflict "Organization domain already exists"
      else
        let* existingUser := sql (db_FirstWhere (λ u, String.eqb (u_Email u) (rg_Email req))) in
        if is_ok existingUser then refuse StatusConflict "User email already exists"
        else
          let* created := on_tx (register_tx req) in
          match created with
          | Err msg => refuse StatusInternalServerError msg
          | Ok (org, user) =>
              with_tokens user (λ accessToken refreshToken,
              let* user := touch_login user in
              publish 0 (u_ID user) (o_ID org) c (DOrganizationCreated
                (mkOrganizationCreated (o_ID org) (o_Name org) (o_Domain org) (u_ID user))) ;;;
              publish 1 (u_ID user) (o_ID org) c (DUserRegistered
                (mkUserRegistered (u_ID user) (u_Email user) (u_FirstName user) (u_LastName user)
                   (u_OrganizationID user))) ;;;
              session StatusCreated accessToken refreshToken user None)
          end
  end).

Definition Login (c : Ctx) : MF S Response :=
  with_body (mkLogin "" "") dec_LoginRequest c (λ req,
  with_row (user_and_organization (λ u, String.eqb (u_Email u) (lg_Email req)))
    StatusUnauthorized "Invalid credentials" (λ '(user, org),
  if negb (u_IsActive user) then refuse StatusUnauthorized "Account is deactivated"
  else if negb (CheckPassword user (lg_Password req)) then refuse StatusUnauthorized "Invalid credentials"
  else with_tokens user (λ accessToken refreshToken,
    let* user := touch_login user in
    publish 0 (u_ID user) (u_OrganizationID user) c (DUserLoggedIn
      (mkUserLoggedIn (u_ID user) (u_Email user) (u_OrganizationID user) "password")) ;;;
    session StatusOK accessToken refreshToken user org))).

Definition RefreshToken (c : Ctx) : MF S Response :=
  with_body "" dec_RefreshTokenRequest c (λ token,
  match jwt_ParseWithClaims now token (λ _ _, Ok (jc_Secret config)) with
  | Ok (claims, true) =>
      let* listed := attemptF (on_hredis (redis_Get now (blacklisted_key token))) in
      if is_ok listed then refuse StatusUnauthorized "Refresh token is blacklisted"
      else with_row (db_FirstWhere (A:=User) (has_id (tc_UserID claims)))
        StatusUnauthorized "User not found" (λ user,
      with_tokens user (λ accessToken newRefreshToken,
      attemptF (on_hredis (redis_Set now (blacklisted_key token) "1"
                             (seconds (jc_RefreshExpiry config)))) ;;;
      publish 0 (u_ID user) (u_OrganizationID user) c (DTokenRefreshed
        (mkTokenRefreshed (u_ID user) (u_OrganizationID user) (tc_ID claims))) ;;;
      session StatusOK accessToken newRefreshToken user None))
  | _ => refuse StatusUnauthorized "Invalid refresh token"
  end).

Definition ForgotPassword (c : Ctx) : MF S Response := JSON StatusOK (message_body "Password reset email sent").
Definition ResetPassword (c : Ctx) : MF S Response := JSON StatusOK (message_body "Password reset successful").
Definition ValidateToken (c : Ctx) : MF S Response :=
  if String.eqb (GetHeader (cx_gin c) "Authorization") "" then refuse StatusBadRequest "Token required"
  else JSON StatusOK (JObj [("valid", JBool true)]).

(** ** Users and organizations (user.go) *)

Definition no_user : string := "User context not found".
Definition no_organization : string := "Organization context not found".

Definition GetProfile (c : Ctx) : MF S Response :=
  with_key "user_id" no_user c (λ userID,
  with_row (user_and_organization (λ u, is_id userID (u_ID u))) StatusNotFound "User not found"
    (λ '(user, org), JSON StatusOK (User_json user org))).

Definition UpdateProfile (c : Ctx) : MF S Response :=
  with_key "user_id" no_user c (λ userID,
  with_body (mkProfile "" "") dec_UpdateProfileRequest c (λ req,
  with_row (db_FirstWhere (λ u, is_id userID (u_ID u))) StatusNotFound "User not found" (λ found,
  let user := set_Names (pf_FirstName req) (pf_LastName req) found in
  let* saved := sql (db_Save now user) in
  if is_ok saved then JSON StatusOK (User_json (as_saved now user) None)
  else refuse StatusInternalServerError "Failed to update profile"))).

Definition ChangePassword (c : Ctx) : MF S Response :=
  with_key "user_id" no_user c (λ userID,
  with_body (mkChange "" "") dec_ChangePasswordRequest c (λ req,
  with_row (db_FirstWhere (λ u, is_id userID (u_ID u))) StatusNotFound "User not found" (λ found,
  if negb (CheckPassword found (cq_CurrentPassword req))
  then refuse StatusBadRequest "Current password is incorrect"
  else match SetPassword (cq_NewPassword req) found with
  | Err _ => refuse StatusInternalServerError "Failed to hash new password"
  | Ok user =>
      let* saved := sql (db_Save now user) in
      if is_ok saved then
        publish 0 (u_ID user) (u_OrganizationID user) c (DPasswordChanged
          (mkPasswordChanged (u_ID user) (u_OrganizationID user) (u_ID user))) ;;;
        JSON StatusOK (message_body "Password updated successfully")
      else refuse StatusInternalServerError "Failed to update password"
  end))).

Definition Enable2FA (c : Ctx) : MF S Response := JSON StatusOK (message_body "2FA enabled successfully").
Definition Disable2FA (c : Ctx) : MF S Response := JSON StatusOK (message_body "2FA disabled successfully").

Definition GetOrganization (c : Ctx) : MF S Response :=
  with_key "organization_id" no_organization c (λ organizationID,
  with_row (db_FirstWhere (λ o, is_id organizationID (o_ID o))) StatusNotFound "Organization not found"
    (λ org, JSON StatusOK (Organization_json org))).

(** The body is decoded over the row that was read. *)
Definition UpdateOrganization (c : Ctx) : MF S Response :=
  with_key "organization_id" no_organization c (λ organizationID,
  with_row (db_FirstWhere (λ o, is_id organizationID (o_ID o))) StatusNotFound "Organization not found"
    (λ found,
  with_body found dec_Organization c (λ org,
  let* saved := sql (db_Save now org) in
  if is_ok saved then JSON StatusOK (Organization_json (Organization_touched now org))
  else refuse StatusInternalServerError "Failed to update organization"))).

Definition GetUserByID (c : Ctx) : MF S Response :=
  with_param "id" "Invalid user ID" c (λ userID,
  with_row (user_and_organization (has_id userID)) StatusNotFound "User not found"
    (λ '(user, org), JSON StatusOK (User_json user org))).

(** ** Roles and permissions (role.go) *)

Definition role_of (organizationID : ctx_value) (roleID : N) (r : Role) : bool :=
  has_id roleID r && is_id organizationID (r_OrganizationID r).

Definition GetRoles (c : Ctx) : MF S Response :=
  with_key "organization_id" no_organization c (λ organizationID,
  with_row (db_FindWhere (λ r, is_id organizationID (r_OrganizationID r)) any_order)
    StatusInternalServerError "Failed to fetch roles"
    (λ roles, JSON StatusOK (list_json (λ r, Role_json r []) roles))).

Definition CreateRole (c : Ctx) : MF S Response :=
  with_key "organization_id" no_organization c (λ organizationID,
  with_body (mkCreateRole "" "") dec_CreateRoleRequest c (λ req,
  let* existing := sql (db_FirstWhere (λ r, is_id organizationID (r_OrganizationID r) &&
                                            String.eqb (r_Name r) (cr_Name req))) in
  if is_ok existing then refuse StatusConflict "Role name already exists"
  else assert_uuid organizationID (λ orgID,
    let* created := sql (db_Created (mkRole uuid_Nil orgID (cr_Name req) (cr_Description req) false true
                                       zero_time zero_time)) in
    match created with
    | Err _ => refuse StatusInternalServerError "Failed to create role"
    | Ok role => JSON StatusCreated (Role_json role [])
    end))).

Definition GetRole (c : Ctx) : MF S Response :=
  with_key "organization_id" no_organization c (λ organizationID,
  with_param "id" "Invalid role ID" c (λ roleID,
  with_row (db_First (λ x, r_ID x.1) (λ T, (λ r, (r, RoleRepo.assignments_of (r_ID r) T)) <$>
              List.filter (role_of organizationID roleID) (tb_roles T)))
    StatusNotFound "Role not found" (λ '(role, assigned), JSON StatusOK (Role_json role assigned)))).

Definition UpdateRole (c : Ctx) : MF S Response :=
  with_key "organization_id" no_organization c (λ organizationID,
  with_param "id" "Invalid role ID" c (λ roleID,
  with_row (db_FirstWhere (role_of organizationID roleID)) StatusNotFound "Role not found" (λ found,
  if r_IsSystem found then refuse StatusForbidden "Cannot update system role"
  else with_body (mkCreateRole "" "") dec_CreateRoleRequest c (λ req,
    let role := let '(mkRole i o _ _ sy ac ca ua) := found in
                mkRole i o (cr_Name req) (cr_Description req) sy ac ca ua in
    let* saved := sql (db_Save now role) in
    if is_ok saved then JSON StatusOK (Role_json (Role_touched now role) [])
    else refuse StatusInternalServerError "Failed to update role")))).

Definition DeleteRole (c : Ctx) : MF S Response :=
  with_key "organization_id" no_organization c (λ organizationID,
  with_param "id" "Invalid role ID" c (λ roleID,
  with_row (db_FirstWhere (role_of organizationID roleID)) StatusNotFound "Role not found" (λ role,
  if r_IsSystem role then refuse StatusForbidden "Cannot delete system role"
  else
    let* deleted := sql (db_DeleteRow role) in
    if is_ok deleted then JSON StatusOK (message_body "Role deleted successfully")
    else refuse StatusInternalServerError "Failed to delete role"))).

(** Neither the deletion nor the insertions are checked. *)
Definition AssignPermissions (c : Ctx) : MF S Response :=
  with_key "organization_id" no_organization c (λ organizationID,
  with_param "id" "Invalid role ID" c (λ roleID,
  with_body [] dec_AssignPermissionsRequest c (λ permissionIDs,
  with_row (db_FirstWhere (role_of organizationID roleID)) StatusNotFound "Role not found" (λ role,
  sql (db_Delete (λ rp, (rp_RoleID rp =? roleID)%N)) ;;;
  for_each (λ permissionID, sql (db_Create (RoleRepo.new_RolePermission roleID permissionID)) ;;; ret tt)
    permissionIDs ;;;
  JSON StatusOK (message_body "Permissions assigned successfully"))))).

Definition RemovePermission (c : Ctx) : MF S Response :=
  with_param "id" "Invalid role ID" c (λ roleID,
  with_param "permissionId" "Invalid permission ID" c (λ permissionID,
  let* deleted := sql (db_Delete (λ rp, (rp_RoleID rp =? roleID)%N && (rp_PermissionID rp =? permissionID)%N)) in
  if is_ok deleted then JSON StatusOK (message_body "Permission removed successfully")
  else refuse StatusInternalServerError "Failed to remove permission")).

(** The event of an assignment; its type assertions are made only with a
    producer. *)
Definition role_event (c : Ctx) (organizationID : ctx_value) (userID : N) (data : N → N → EventData)
    : MF S unit := λ s,
  match hw_messages s, ctx_Get c "user_id" with
  | None, _ => ret tt s
  | Some _, None => panics s
  | Some _, Some currentUserID =>
      assert_uuid organizationID (λ orgID,
      assert_uuid currentUserID (λ by_, publish 0 userID orgID c (data orgID by_))) s
  end.
Definition AssignUserRole (c : Ctx) : MF S Response :=
  with_key "organization_id" no_organization c (λ organizationID,
  with_body (mkAssign uuid_Nil uuid_Nil) dec_AssignUserRoleRequest c (λ req,
  with_row (db_FirstWhere (λ u, has_id (aq_UserID req) u && is_id organizationID (u_OrganizationID u)))
    StatusNotFound "User not found" (λ _,
  with_row (db_FirstWhere (role_of organizationID (aq_RoleID req))) StatusNotFound "Role not found" (λ role,
  let* existing := sql (db_FirstWhere (assigns (aq_UserID req) (aq_RoleID req))) in
  if is_ok existing then refuse StatusConflict "User already has this role"
  else
    let* created := sql (db_Create (RoleRepo.new_UserRole (aq_UserID req) (aq_RoleID req))) in
    if is_ok created then
      role_event c organizationID (aq_UserID req) (λ orgID by_, DRoleAssigned
        (mkRoleAssigned (aq_UserID req) (aq_RoleID req) (r_Name role) orgID by_)) ;;;
      JSON StatusCreated (message_body "Role assigned successfully")
    else refuse StatusInternalServerError "Failed to assign role")))).

(** The role is looked up by its identifier alone, for the event. *)
Definition RevokeUserRole (c : Ctx) : MF S Response :=
  with_key "organization_id" no_organization c (λ organizationID,
  with_body (mkAssign uuid_Nil uuid_Nil) dec_AssignUserRoleRequest c (λ req,
  with_row (db_FirstWhere (A:=Role) (has_id (aq_RoleID req))) StatusNotFound "Role not found" (λ role,
  let* deleted := sql (db_Delete (assigns (aq_UserID req) (aq_RoleID req))) in
  if is_ok deleted then
    role_event c organizationID (aq_UserID req) (λ orgID by_, DRoleRevoked
      (mkRoleRevoked (aq_UserID req) (aq_RoleID req) (r_Name role) orgID by_)) ;;;
    JSON StatusOK (message_body "Role revoked successfully")
  else refuse StatusInternalServerError "Failed to revoke role"))).

Definition GetUserRoles (c : Ctx) : MF S Response :=
  with_param "userId" "Invalid user ID" c (λ userID,
  with_row (db_Find (select (λ T, (λ x, (x, List.find (has_id (ur_RoleID x)) (tb_roles T))) <$>
              List.filter (λ x, (ur_UserID x =? userID)%N) (tb_user_roles T)) any_order))
    StatusInternalServerError "Failed to fetch user roles"
    (λ userRoles, JSON StatusOK (list_json UserRole_json userRoles))).

Definition GetPermissions (c : Ctx) : MF S Response :=
  with_row (db_Find (select tb_permissions any_order)) StatusInternalServerError "Failed to fetch permissions"
    (λ permissions, JSON StatusOK (list_json Permission_json permissions)).

(** An assignment of a user with its role, and the role's assignments with
    their permissions; what is missing is the zero value. *)
Definition granted (T : Tables) (x : UserRole) : list Permission :=
  match List.find (has_id (ur_RoleID x)) (tb_roles T) with
  | Some role => (λ y, default zero_permission y.2) <$> RoleRepo.assignments_of (r_ID role) T
  | None => []
  end.
(** The two loops; [break] leaves both. *)
Fixpoint some_grants (resource action : string) (perms : list Permission) : bool :=
  match perms with
  | [] => false
  | p :: rest =>
      if String.eqb (p_Resource p) resource && String.eqb (p_Action p) action then true
      else some_grants resource action rest
  end.
Fixpoint some_role_grants (resource action : string) (roles : list (list Permission)) : bool :=
  match roles with
  | [] => false
  | perms :: rest => if some_grants resource action perms then true else some_role_grants resource action rest
  end.
Definition CheckPermission (c : Ctx) : MF S Response :=
  with_body (mkCheck uuid_Nil "" "") dec_CheckPermissionRequest c (λ req,
  with_row (db_Find (select (λ T, granted T <$>
              List.filter (λ x, (ur_UserID x =? ck_UserID req)%N) (tb_user_roles T)) any_order))
    StatusInternalServerError "Failed to fetch user roles" (λ userRoles,
  JSON StatusOK (JObj [("has_permission",
    JBool (some_role_grants (ck_Resource req) (ck_Action req) userRoles))]))).
End handlers.

(** A row created: the row returned is the one stored. *)
Lemma Created_ok {D} `{GormLaws D} {A} `{RowLaws A} (x y : A) d d' : db_Created x d = (Ok y, d') → ∃ t fresh,
  fresh ≠ uuid_Nil ∧ y = row_created t fresh x ∧ db_tables d' = db_insert y (db_tables d) ∧
  constraints (db_tables d').
Proof.
  unfold db_Created. rewrite !bind_gets. intros ([] & d1 & Hx & [= <- <-])%bind_ok_inv.
  apply db_Exec_ok in Hx as [Hx Hc]. rewrite Hx. do 2 eexists.
  split; [apply db_uuid_fresh|]. by split_and!.
Qed.

