(* ===== verification/Router.v ===== *)
(** * The HTTP router (src/internal/router/router.go)

    The table of routes with their middleware, the dispatch of a request, and
    what the HTTP interface guarantees.  gin's matching of a path with a
    pattern, its answers to requests without a route and the CORS middleware
    are parameters.  A panic in a handler is answered with 500 by the recovery
    middleware of [gin.Default()]. *)

From S2P Require Import Prelude Errors Models Ifaces Database Repos TokenService AuthService.
From S2P Require Import Events Interceptors Grpc GrpcAdmin Http HttpHandlers.

#[local] Open Scope Z_scope.

Record Request := mkRequest {
  rq_Method : string; rq_Path : string; rq_Headers : gmap string string; rq_ClientIP : string;
  rq_Body : option Json }.

(** [gin_match pattern path]: the parameters of a match. *)
Class GinLib := {
  gin_match : string → string → option (gmap string string);
  gin_NoRoute : Request → Response;
  cors_New : GinContext → GinContext }.
(** CORS answers a request itself or passes it on; it sets no keys. *)
Class GinLaws `{GinLib} := {
  cors_headers c : gc_headers (cors_New c) = gc_headers c;
  cors_keys c : gc_keys (cors_New c) = gc_keys c }.

Inductive Endpoint :=
| HealthCheck
| ERegister | ELogin | ERefreshToken | EForgotPassword | EResetPassword
| EGetProfile | EUpdateProfile | EChangePassword | EEnable2FA | EDisable2FA
| EGetRoles | ECreateRole | EGetRole | EUpdateRole | EDeleteRole | EAssignPermissions | ERemovePermission
| EAssignUserRole | ERevokeUserRole | EGetUserRoles
| EGetPermissions
| EGetOrganization | EUpdateOrganization
| EValidateToken | EGetUserByID | ECheckPermission.
#[export] Instance Endpoint_eq_dec : EqDecision Endpoint.
Proof. solve_decision. Defined.

(** The groups of routes by their middleware. *)
Inductive Group := Public | Protected | Internal.
#[export] Instance Group_eq_dec : EqDecision Group.
Proof. solve_decision. Defined.

Record Route := mkRoute { rt_Group : Group; rt_Method : string; rt_Pattern : string; rt_Handler : Endpoint }.

Definition routes : list Route :=
  [mkRoute Public "GET" "/health" HealthCheck;
   mkRoute Public "POST" "/api/v1/auth/register" ERegister;
   mkRoute Public "POST" "/api/v1/auth/login" ELogin;
   mkRoute Public "POST" "/api/v1/auth/refresh" ERefreshToken;
   mkRoute Public "POST" "/api/v1/auth/forgot-password" EForgotPassword;
   mkRoute Public "POST" "/api/v1/auth/reset-password" EResetPassword;
   mkRoute Protected "GET" "/api/v1/users/profile" EGetProfile;
   mkRoute Protected "PUT" "/api/v1/users/profile" EUpdateProfile;
   mkRoute Protected "POST" "/api/v1/users/change-password" EChangePassword;
   mkRoute Protected "POST" "/api/v1/users/enable-2fa" EEnable2FA;
   mkRoute Protected "POST" "/api/v1/users/disable-2fa" EDisable2FA;
   mkRoute Protected "GET" "/api/v1/roles/" EGetRoles;
   mkRoute Protected "POST" "/api/v1/roles/" ECreateRole;
   mkRoute Protected "GET" "/api/v1/roles/:id" EGetRole;
   mkRoute Protected "PUT" "/api/v1/roles/:id" EUpdateRole;
   mkRoute Protected "DELETE" "/api/v1/roles/:id" EDeleteRole;
   mkRoute Protected "POST" "/api/v1/roles/:id/permissions" EAssignPermissions;
   mkRoute Protected "DELETE" "/api/v1/roles/:id/permissions/:permissionId" ERemovePermission;
   mkRoute Protected "POST" "/api/v1/user-roles/assign" EAssignUserRole;
   mkRoute Protected "DELETE" "/api/v1/user-roles/revoke" ERevokeUserRole;
   mkRoute Protected "GET" "/api/v1/user-roles/user/:userId" EGetUserRoles;
   mkRoute Protected "GET" "/api/v1/permissions/" EGetPermissions;
   mkRoute Protected "GET" "/api/v1/organization/" EGetOrganization;
   mkRoute Protected "PUT" "/api/v1/organization/" EUpdateOrganization;
   mkRoute Internal "POST" "/api/v1/internal/validate-token" EValidateToken;
   mkRoute Internal "GET" "/api/v1/internal/user/:id" EGetUserByID;
   mkRoute Internal "POST" "/api/v1/internal/check-permission" ECheckPermission].

Section router.
Context {D R : Type} `{Gorm D} `{GormTx D} `{RedisOps R} `{RedisGet R} `{JwtLib} `{HttpJwt} `{CryptoLib}
  `{UuidLib} `{UuidParse} `{ValidatorLib} `{BindLib} `{GinLib}.
Context (config : JWTConfig) (now : Z) (ids : nat → N).
Abbreviation S := (HW D R).
Abbreviation MF := (GoM (option error)).

Definition middleware (g : Group) : list (GinContext → GinContext) :=
  cors_New ::
  match g with
  | Public => []
  | Protected => [AuthMiddleware (jc_Secret config) now; TenantMiddleware]
  | Internal => [ServiceAuthMiddleware]
  end.

Definition handle (e : Endpoint) (c : Ctx) : MF S Response :=
  match e with
  | HealthCheck => JSON StatusOK (JObj [("service", JStr "auth-service"); ("status", JStr "ok")])
  | ERegister => Register config now ids c
  | ELogin => Login config now ids c
  | ERefreshToken => RefreshToken config now ids c
  | EForgotPassword => ForgotPassword c
  | EResetPassword => ResetPassword c
  | EGetProfile => GetProfile c
  | EUpdateProfile => UpdateProfile now c
  | EChangePassword => ChangePassword now ids c
  | EEnable2FA => Enable2FA c
  | EDisable2FA => Disable2FA c
  | EGetRoles => GetRoles c
  | ECreateRole => CreateRole c
  | EGetRole => GetRole c
  | EUpdateRole => UpdateRole now c
  | EDeleteRole => DeleteRole c
  | EAssignPermissions => AssignPermissions c
  | ERemovePermission => RemovePermission c
  | EAssignUserRole => AssignUserRole now ids c
  | ERevokeUserRole => RevokeUserRole now ids c
  | EGetUserRoles => GetUserRoles c
  | EGetPermissions => GetPermissions c
  | EGetOrganization => GetOrganization c
  | EUpdateOrganization => UpdateOrganization now c
  | EValidateToken => ValidateToken c
  | EGetUserByID => GetUserByID c
  | ECheckPermission => CheckPermission c
  end.

(** The route of a request, with the parameters of its path. *)
Definition find_route (r : Request) : option (Route * gmap string string) :=
  head (omap (λ rt, if String.eqb (rt_Method rt) (rq_Method r)
                    then pair rt <$> gin_match (rt_Pattern rt) (rq_Path r) else None) routes).

Definition recovered (m : MF S Response) : S → Response * S := λ s,
  match m s with
  | (Ok r, s') => (r, s')
  | (Err _, s') => (mkResponse StatusInternalServerError JNull, s')
  end.
Definition aborted (a : Z * string) : Response := mkResponse a.1 (error_body a.2).

(** The engine [Initialize] builds, on one request. *)
Definition ServeHTTP (r : Request) : S → Response * S := λ s,
  match find_route r with
  | None => (gin_NoRoute r, s)
  | Some (rt, params) =>
      let g := chain (middleware (rt_Group rt)) (mkGin (rq_Headers r) ∅ None) in
      match gc_answer g with
      | Some a => (aborted a, s)
      | None => recovered (handle (rt_Handler rt) (mkCtx g params (rq_ClientIP r) (rq_Body r))) s
      end
  end.
(** Requests one after the other; concurrent requests interleave at their
    statements, which are atomic. *)
End router.
