(* ===== verification/HttpProps.v ===== *)
(** * What the HTTP interface guarantees

    Theorems on the engine of Router.v and the handlers of HttpHandlers.v: who
    gets past the middleware, what a request may do to the tables, to other
    organizations and to the blacklist, and what registration, login and the
    internal permission check amount to. *)

From S2P Require Import Prelude Errors Models Ifaces Database RateLimiter Repos TokenService AuthService.
From S2P Require Import Events Interceptors Grpc GrpcAdmin Http HttpHandlers Router.

#[local] Open Scope Z_scope.

(** ** Running the handlers *)
Section running.
Context {D R : Type} `{Gorm D} `{GormTx D} `{RedisOps R} `{RedisGet R}.
Abbreviation S := (HW D R).
Abbreviation MF := (GoM (option error)).

Definition with_hdb (d : D) (s : S) : S := mkHW d (hw_redis s) (hw_messages s).
Lemma bind_sql {X Y} (m : M D X) (k : res error X → MF S Y) s :
  bind (sql m) k s = k (m (hw_db s)).1 (with_hdb (m (hw_db s)).2 s).
Proof. unfold sql, on_hdb. by rewrite bind_attemptF, zoom_eq. Qed.
Lemma sql_state {X} (m : M D X) (s : S) : (sql m s).2 = with_hdb (m (hw_db s)).2 s.
Proof. unfold sql, on_hdb, attemptF. by rewrite zoom_eq. Qed.

(** An invariant of the database and of Redis. *)
Definition hinv (Pd : D → Prop) (Pr : R → Prop) (s : S) : Prop := Pd (hw_db s) ∧ Pr (hw_redis s).

(** What the statements of the handlers keep. *)
Record http_closed (Pd : D → Prop) : Prop := mkHttpClosed {
  hc_First {X} key (q : Tables → list X) : preserves Pd (db_First key q);
  hc_Find {X} (q : Query X) : preserves Pd (db_Find q);
  hc_Exec (f : Tables → Tables) : (∀ T, all_identified T → all_identified (f T)) → preserves Pd (db_Exec f);
  hc_Create {X} `{RowLaws X} (x : X) : preserves Pd (db_Create x);
  hc_Created {X} `{RowLaws X} (x : X) : preserves Pd (db_Created x);
  hc_Save {X} `{RowLaws X} now (x : X) : preserves Pd (db_Save now x);
  hc_Delete {X} `{RowLaws X} (P : X → bool) : preserves Pd (db_Delete P);
  hc_Begin d : Pd d → Pd (db_Begin d);
  hc_Commit before d : Pd before → Pd d → Pd (db_Commit before d).2;
  hc_Rollback before d : Pd before → Pd (db_Rollback before d) }.
End running.

Lemma true_http_closed {D} `{Gorm D} `{GormTx D} : http_closed (λ _ : D, True).
Proof. by constructor. Qed.
Lemma good_Created {D} `{GormLaws D} {X} `{RowLaws X} (x : X) : preserves good (db_Created x).
Proof.
  intros d Hd. pose proof (good_Create x d Hd) as Hg. unfold db_Create, db_Created in *.
  rewrite !bind_gets in *. unfold bind. by destruct (db_Exec _ d) as [[]].
Qed.
Lemma good_http_closed {D} `{GormTxLaws D} : http_closed good.
Proof.
  constructor; intros; eauto using good_First, good_Find, good_Create, good_Created, good_Save, good_Delete,
    good_Exec; unfold good in *.
  - by rewrite db_Begin_tables.
  - destruct (db_Commit before d) as [[[]|e] d'] eqn:E; simpl.
    + by rewrite (db_Commit_ok _ _ _ E).
    + by rewrite (db_Commit_err _ _ _ _ E).
  - by rewrite db_Rollback_tables.
Qed.

(** ** Every request keeps an invariant of the statements *)
Section keeping.
Context {D R : Type} `{Gorm D} `{GormTx D} `{RedisOps R} `{RedisGet R} `{JwtLib} `{HttpJwt} `{CryptoLib}
  `{UuidLib} `{UuidParse} `{ValidatorLib} `{BindLib} `{GinLib}.
Context (config : JWTConfig) (now : Z) (ids : nat → N).
Abbreviation S := (HW D R).
Context (Pd : D → Prop) (Pr : R → Prop) (Hclosed : http_closed Pd).
Hypothesis Hget : ∀ k, preserves Pr (redis_Get now k).
Hypothesis Hset : ∀ token,
  preserves Pr (redis_Set now (blacklisted_key token) "1" (seconds (jc_RefreshExpiry config))).
Abbreviation keeps := (preserves (hinv (D:=D) (R:=R) Pd Pr)).

Lemma keeps_sql {X} (m : M D X) : preserves Pd m → keeps (sql m).
Proof using. intros Hm s [Hd Hr]. rewrite sql_state. split; [by apply Hm | done]. Qed.
Lemma keeps_redis {X} (m : M R X) : preserves Pr m → keeps (on_hredis m).
Proof using. intros Hm s [Hd Hr]. unfold on_hredis. rewrite zoom_eq. split; [done | by apply Hm]. Qed.
Lemma keeps_publish n u o c data : keeps (publish now ids n u o c data).
Proof using. intros s Hs. exact Hs. Qed.
Lemma keeps_role_event c org u data : keeps (role_event now ids c org u data).
Proof using.
  intros s Hs. unfold role_event, assert_uuid. repeat case_match; exact Hs.
Qed.

Lemma keeps_with_body {X} zero dec c (k : X → GoM (option error) S Response) :
  (∀ x, keeps (k x)) → keeps (with_body zero dec c k).
Proof using. intros Hk. unfold with_body. preserve; first [apply Hk | apply preserves_ret]. Qed.
Lemma keeps_with_row {X} m status msg (k : X → GoM (option error) S Response) :
  preserves Pd m → (∀ x, keeps (k x)) → keeps (with_row m status msg k).
Proof using. intros Hm Hk. unfold with_row. preserve; first [by apply keeps_sql | apply Hk | apply preserves_ret]. Qed.
Lemma keeps_with_key key msg c (k : ctx_value → GoM (option error) S Response) :
  (∀ x, keeps (k x)) → keeps (with_key key msg c k).
Proof using. intros Hk. unfold with_key. preserve; first [apply Hk | apply preserves_ret]. Qed.
Lemma keeps_with_param name msg c (k : N → GoM (option error) S Response) :
  (∀ x, keeps (k x)) → keeps (with_param name msg c k).
Proof using. intros Hk. unfold with_param. preserve; first [apply Hk | apply preserves_ret]. Qed.
Lemma keeps_with_tokens u (k : string → string → GoM (option error) S Response) :
  (∀ a b, keeps (k a b)) → keeps (with_tokens config now u k).
Proof using. intros Hk. unfold with_tokens. preserve; first [apply Hk | apply preserves_ret]. Qed.

(** [hstatement] proves that one statement keeps [Pd]. *)
Ltac hstatement :=
  first [apply hc_First | apply hc_Find | apply hc_Create | apply hc_Created | apply hc_Save | apply hc_Delete];
  first [exact Hclosed | apply _].
(** [hkeep] walks a handler. *)
Ltac hkeep :=
  repeat (preserve; cbv beta;
    try lazymatch goal with
    | |- preserves _ (with_body _ _ _ _) => apply keeps_with_body; intros ?
    | |- preserves _ (with_row _ _ _ _) => apply keeps_with_row; [hstatement | intros ?]
    | |- preserves _ (with_key _ _ _ _) => apply keeps_with_key; intros ?
    | |- preserves _ (with_param _ _ _ _) => apply keeps_with_param; intros ?
    | |- preserves _ (with_tokens _ _ _ _) => apply keeps_with_tokens; intros ? ?
    | |- preserves _ (publish _ _ _ _ _ _ _) => apply keeps_publish
    | |- preserves _ (role_event _ _ _ _ _ _) => apply keeps_role_event
    | |- preserves _ (on_hredis (redis_Get _ _)) => apply keeps_redis, Hget
    | |- preserves _ (on_hredis (redis_Set _ _ _ _)) => apply keeps_redis, Hset
    | |- preserves _ (refuse _ _) => apply preserves_ret
    | |- preserves _ (JSON _ _) => apply preserves_ret
    | |- preserves _ (session _ _ _ _ _ _) => apply preserves_ret
    | |- preserves _ (assert_uuid _ _) => unfold assert_uuid
    | |- preserves _ panics => apply preserves_fail
    | |- preserves _ (sql _) => apply keeps_sql; hstatement
    end).

Lemma keeps_touch_login u : keeps (touch_login now u).
Proof using Hclosed.
  clear -Hclosed. unfold touch_login. preserve. apply keeps_sql, hc_Exec; [exact Hclosed|].
  intros T. apply identified_update. by intros [].
Qed.
Lemma keeps_register_tx req : keeps (on_tx (register_tx req)).
Proof using Hclosed.
  clear -Hclosed.
  intros s [Hd Hr]. unfold on_tx, register_tx.
  assert (Hb : preserves Pd (register_rows req)).
  { unfold register_rows. preserve; hstatement. }
  pose proof (Hb (db_Begin (hw_db s)) (hc_Begin _ Hclosed _ Hd)) as Hg.
  destruct (register_rows req (db_Begin (hw_db s))) as [[x|msg] d1]; simpl in Hg.
  - pose proof (hc_Commit _ Hclosed _ _ Hd Hg) as Hc.
    destruct (db_Commit (hw_db s) d1) as [[?|?] d2]; split; done.
  - split; [|done]. by apply hc_Rollback.
Qed.

Lemma keeps_handle e c : keeps (handle config now ids e c).
Proof using Hclosed Hget Hset.
  clear -Hclosed Hget Hset.
  destruct e; simpl;
    unfold Register, Login, RefreshToken, ForgotPassword, ResetPassword, ValidateToken, GetProfile, UpdateProfile,
      ChangePassword, Enable2FA, Disable2FA, GetOrganization, UpdateOrganization, GetUserByID, GetRoles,
      CreateRole, GetRole, UpdateRole, DeleteRole, AssignPermissions, RemovePermission, AssignUserRole,
      RevokeUserRole, GetUserRoles, GetPermissions, CheckPermission, db_DeleteRow;
    hkeep; try apply keeps_touch_login; try apply keeps_register_tx.
  all: try (apply keeps_sql; preserve; hstatement).
Qed.
Lemma keeps_ServeHTTP r s : hinv Pd Pr s → hinv Pd Pr (ServeHTTP config now ids r s).2.
Proof using Hclosed Hget Hset.
  clear -Hclosed Hget Hset.
  intros Hs. unfold ServeHTTP, recovered. destruct (find_route r) as [[rt params]|]; [|done].
  cbv zeta. destruct (gc_answer _); [done|].
  match goal with |- context [handle _ _ _ ?e ?c s] => pose proof (keeps_handle e c s Hs) as Hk end.
  by destruct (handle _ _ _ _ _ s) as [[?|?] s'].
Qed.
End keeping.

(** ** Who gets past the middleware *)
Section access.
Context {D R : Type} `{Gorm D} `{GormTx D} `{RedisOps R} `{RedisGet R} `{HttpJwt} `{CryptoLib}
  `{UuidLib} `{UuidParse} `{ValidatorLib} `{BindLib} `{GinLaws} `{JwtLib}.
Context (config : JWTConfig) (now : Z) (ids : nat → N).
Abbreviation S := (HW D R).

(** A middleware that is reached and passes the request on. *)
Lemma chain_cons m ms c : gc_answer c = None → chain (m :: ms) c = chain ms (m c).
Proof. intros Hc. unfold chain. simpl. by rewrite Hc. Qed.
Lemma chain_passes ms c : gc_answer (chain ms c) = None → gc_answer c = None.
Proof.
  revert c. induction ms as [|m ms IH]; intros c; [done|]. unfold chain in *. simpl.
  destruct (gc_answer c) eqn:Hc; [|done]. intros Ha%IH. congruence.
Qed.

(** The chain of a group, on a request that passes it. *)
Lemma protected_passes headers g :
  g = chain (middleware config now Protected) (mkGin headers ∅ None) → gc_answer g = None →
  ∃ token claims, default "" (headers !! "Authorization") = "Bearer " +:+ token ∧
    jwt_ParseWithClaims now token (λ _ _, Ok (jc_Secret config)) = Ok (claims, true) ∧
    gc_keys g !! "user_id" = Some (CUuid (tc_UserID claims)) ∧
    gc_keys g !! "organization_id" = Some (CUuid (tc_OrganizationID claims)).
Proof.
  intros -> Ha. unfold middleware in *. rewrite chain_cons in * by done.
  pose proof (cors_headers (mkGin headers ∅ None)) as Hh. simpl in Hh.
  set (c := cors_New (mkGin headers ∅ None)) in *. pose proof (chain_passes _ _ Ha) as Hc.
  rewrite chain_cons in * by done. pose proof (chain_passes _ _ Ha) as Hauth.
  rewrite chain_cons in * by done. clear Ha.
  destruct (AuthMiddleware_cases (jc_Secret config) now c) as [(claims & (token & Ht & Hj) & Hm)|[_ [msg Hm]]];
    rewrite Hm in *; [|done].
  exists token, claims. unfold GetHeader in Ht. rewrite Hh in Ht. split; [done|]. split; [done|].
  unfold set_claims in *.
  unfold chain, TenantMiddleware. cbn [foldl gin_Set gc_keys].
  rewrite !(lookup_insert_ne _ "email"), lookup_insert_eq by done. cbn [gin_Set gc_keys].
  by rewrite !(lookup_insert_ne _ "tenant_id"), !(lookup_insert_ne _ "email"),
    (lookup_insert_ne _ "organization_id"), !lookup_insert_eq by done.
Qed.
Lemma internal_passes headers :
  gc_answer (chain (middleware config now Internal) (mkGin headers ∅ None)) = None →
  headers !! "X-Service-Key" = Some "internal-service-key".
Proof.
  intros Ha. unfold middleware in *. rewrite chain_cons in * by done.
  pose proof (cors_headers (mkGin headers ∅ None)) as Hh. simpl in Hh.
  pose proof (chain_passes _ _ Ha) as Hc. rewrite chain_cons in Ha by done.
  unfold chain, ServiceAuthMiddleware, GetHeader, isValidServiceKey in Ha. rewrite Hh in Ha.
  destruct (headers !! "X-Service-Key") as [key|] eqn:Hk; [|done]. cbn in Ha.
  destruct (String.eqb_spec key ""); [done|].
  by destruct (String.eqb_spec key "internal-service-key") as [->|].
Qed.
End access.

(** C9: a request to a protected route is answered by the middleware, with the
    state untouched, unless its Authorization header is a bearer token that is
    valid under the secret; the handler then acts for the user and organization
    the token names and for nobody else.  A request to an internal route needs
    the service key in the same way. *)
Theorem requests_are_authenticated {D R} `{Gorm D} `{GormTx D} `{RedisOps R} `{RedisGet R} `{HttpJwt}
    `{CryptoLib} `{UuidLib} `{UuidParse} `{ValidatorLib} `{BindLib} `{GinLaws} `{JwtLib}
    config now ids r rt params (s : HW D R) :
  find_route r = Some (rt, params) → rt_Group rt ≠ Public →
  (∃ a, ServeHTTP config now ids r s = (aborted a, s)) ∨
  ∃ g, ServeHTTP config now ids r s =
         recovered (handle config now ids (rt_Handler rt) (mkCtx g params (rq_ClientIP r) (rq_Body r))) s ∧
    match rt_Group rt with
    | Protected => ∃ token claims,
        default "" (rq_Headers r !! "Authorization") = "Bearer " +:+ token ∧
        jwt_ParseWithClaims now token (λ _ _, Ok (jc_Secret config)) = Ok (claims, true) ∧
        gc_keys g !! "user_id" = Some (CUuid (tc_UserID claims)) ∧
        gc_keys g !! "organization_id" = Some (CUuid (tc_OrganizationID claims))
    | _ => rq_Headers r !! "X-Service-Key" = Some "internal-service-key"
    end.
Proof.
  intros Hf Hg. unfold ServeHTTP. rewrite Hf. cbv zeta.
  destruct (gc_answer _) as [a|] eqn:Ha; [left; by exists a|]. right. eexists. split; [done|].
  destruct (rt_Group rt); [done| |].
  - by eapply protected_passes.
  - by eapply internal_passes.
Qed.

(** A request of any client at any time. *)
Inductive http_step {D R} `{Gorm D} `{GormTx D} `{RedisOps R} `{RedisGet R} `{HttpJwt} `{CryptoLib}
    `{UuidLib} `{UuidParse} `{ValidatorLib} `{BindLib} `{GinLib} `{JwtLib} (config : JWTConfig)
    : Z * HW D R → Z * HW D R → Prop :=
| serve_request now now' ids r s answer s' : now ≤ now' →
    ServeHTTP config now' ids r s = (answer, s') → http_step config (now, s) (now', s').

Lemma serve_keeps_tables {D R} `{GormTxLaws D} `{RedisOps R} `{RedisGet R} `{HttpJwt} `{CryptoLib}
    `{UuidLib} `{UuidParse} `{ValidatorLib} `{BindLib} `{GinLib} `{JwtLib} config now ids r (s : HW D R) :
  good (hw_db s) → good (hw_db (ServeHTTP config now ids r s).2).
Proof.
  intros Hs. assert (Hi : hinv good (λ _, True) s) by done.
  pose proof (keeps_ServeHTTP config now ids good (λ _, True) good_http_closed
    (λ _ _ _, I) (λ _ _ _, I) r s Hi) as Hk.
  exact (proj1 Hk).
Qed.

(** ** Refresh tokens over HTTP *)
Section refreshing.
Context {D R : Type} `{Gorm D} `{GormTx D} `{RedisGetLaws R} `{JwtLib} `{HttpJwt} `{CryptoLib}
  `{UuidLib} `{UuidParse} `{ValidatorLib} `{BindLib} `{GinLib}.
Context (config : JWTConfig).
Abbreviation S := (HW D R).
Abbreviation lifetime := (seconds (jc_RefreshExpiry config)).

(** The refresh token a request carries. *)
Definition offered (c : Ctx) : option string := cx_body c ≫= λ j, dec_RefreshTokenRequest j "".

Lemma RefreshToken_run now ids c (s s1 : S) resp :
  RefreshToken config now ids c s = (Ok resp, s1) → rs_Status resp = StatusOK →
  ∃ token claims user access refresh,
    offered c = Some token ∧
    jwt_ParseWithClaims now token (λ _ _, Ok (jc_Secret config)) = Ok (claims, true) ∧
    (db_FirstWhere (A:=User) (has_id (tc_UserID claims)) (hw_db s)).1 = Ok user ∧
    generateTokens config now user = Ok (access, refresh) ∧
    hw_redis s1 = (redis_Set now (blacklisted_key token) "1" lifetime
                     (redis_Get now (blacklisted_key token) (hw_redis s)).2).2 ∧
    resp = mkResponse StatusOK (AuthResponse_json access refresh (jc_AccessExpiry config) user None).
Proof.
  unfold RefreshToken, with_body, offered. intros Hrun Hok.
  destruct (cx_body c ≫= _) as [token|]; [|by injection Hrun as <- <-].
  destruct (jwt_ParseWithClaims now token _) as [[claims []]|] eqn:Hp; try by injection Hrun as <- <-.
  rewrite bind_attemptF in Hrun. unfold on_hredis in Hrun. rewrite zoom_eq in Hrun. cbn [fst snd] in Hrun.
  destruct (is_ok _) eqn:Hg; [by injection Hrun as <- <-|].
  unfold with_row in Hrun. rewrite bind_sql in Hrun. cbn [hw_db] in Hrun.
  destruct (db_FirstWhere _ _) as [[user|e] d] eqn:Hf; cbn [fst snd] in Hrun; [|by injection Hrun as <- <-].
  unfold with_tokens in Hrun. destruct (generateTokens _ _ _) as [[access refresh]|] eqn:Ht;
    [|by injection Hrun as <- <-].
  rewrite bind_attemptF, zoom_eq in Hrun. cbn in Hrun. injection Hrun as <- <-.
  exists token, claims, user, access, refresh. by rewrite Hf.
Qed.

Lemma spent_token_refused now ids c (s : S) token d :
  rkey (hw_redis s) (blacklisted_key token) d → now < d → offered c = Some token →
  ∃ resp, (RefreshToken config now ids c s).1 = Ok resp ∧ rs_Status resp = StatusUnauthorized.
Proof.
  intros Hk Hd Ho. unfold RefreshToken, with_body. unfold offered in Ho. rewrite Ho.
  destruct (jwt_ParseWithClaims _ _ _) as [[claims []]|]; [|by eexists..].
  rewrite bind_attemptF. unfold on_hredis. rewrite zoom_eq. cbn [fst snd].
  rewrite (redis_Get_key _ _ _ _ Hk Hd). by eexists.
Qed.

(** A blacklisted token stays so while requests are served. *)
Lemma blacklisted_stays token since now' (s s' : S) t : 0 < lifetime → since ≤ t →
  rkey (hw_redis s) (blacklisted_key token) (since + lifetime) →
  star (http_step config) (t, s) (now', s') →
  rkey (hw_redis s') (blacklisted_key token) (since + lifetime).
Proof.
  intros Hl Ht Hk Hstar.
  apply (star_invariant _ (λ p, since ≤ p.1 ∧ rkey (hw_redis p.2) (blacklisted_key token) (since + lifetime)))
    in Hstar as [_ Hs]; [done| |done].
  intros a b Ha Hstep. revert Ha. destruct Hstep as [t0 t' ids r s0 answer s1 Hle Hrun]. cbn [fst snd].
  intros [Hs0 Hk0]. split; [lia|].
  assert (Hi : hinv (λ _, True) (λ r, rkey r (blacklisted_key token) (since + lifetime)) s0) by done.
  assert (Hset : ∀ tok, preserves (λ r, rkey r (blacklisted_key token) (since + lifetime))
    (redis_Set t' (blacklisted_key tok) "1" lifetime)).
  { intros tok r0 Hr0. apply redis_Set_keeps; [done|done|]. right. lia. }
  pose proof (keeps_ServeHTTP config t' ids (λ _, True) _ true_http_closed
    (λ k r0, redis_Get_keeps r0 k t' _ _) Hset r s0 Hi) as [_ Hs1]. by rewrite Hrun in Hs1.
Qed.
End refreshing.


(** ** Login over HTTP *)
Section login.
Context {D R : Type} `{GormLaws D} `{GormTx D} `{RedisOps R} `{RedisGet R} `{JwtLib} `{HttpJwt} `{CryptoLib}
  `{UuidLib} `{UuidParse} `{ValidatorLib} `{BindLib}.
Context (config : JWTConfig) (now : Z) (ids : nat → N).
Abbreviation S := (HW D R).

Definition login_request (c : Ctx) : option LoginRequest :=
  cx_body c ≫= λ j, dec_LoginRequest j (mkLogin "" "").
Definition lookup_user (email : string) : M D (User * option Organization) :=
  user_and_organization (λ u, String.eqb (u_Email u) email).

(** The decision of [Login] on the row it finds. *)
Lemma Login_found c req user org (s : S) : login_request c = Some req →
  (lookup_user (lg_Email req) (hw_db s)).1 = Ok (user, org) →
  let s1 := with_hdb (lookup_user (lg_Email req) (hw_db s)).2 s in
  Login config now ids c s =
    (if negb (u_IsActive user) then refuse StatusUnauthorized "Account is deactivated"
     else if negb (CheckPassword user (lg_Password req)) then refuse StatusUnauthorized "Invalid credentials"
     else with_tokens config now user (λ accessToken refreshToken,
       let* user := touch_login now user in
       publish now ids 0 (u_ID user) (u_OrganizationID user) c (DUserLoggedIn
         (mkUserLoggedIn (u_ID user) (u_Email user) (u_OrganizationID user) "password")) ;;;
       session config StatusOK accessToken refreshToken user org)) s1.
Proof.
  intros Hreq Hf. unfold Login, with_body. unfold login_request in Hreq. rewrite Hreq.
  unfold with_row. rewrite bind_sql. unfold lookup_user in *. by rewrite Hf.
Qed.
Lemma lookup_user_keeps email d : db_tables (lookup_user email d).2 = db_tables d.
Proof. apply db_First_keeps. Qed.
End login.


(** ** Registration over HTTP *)
Section registering.
Context {D R : Type} `{GormTxLaws D} `{RedisOps R} `{RedisGet R} `{JwtLib} `{HttpJwt} `{CryptoLaws}
  `{UuidLib} `{UuidParse} `{ValidatorLib} `{BindLib}.
Context (config : JWTConfig) (now : Z) (ids : nat → N).
Abbreviation S := (HW D R).

(** The four rows of a registration. *)
Record registered (req : RegisterRequest) (T : Tables) (org : Organization) (user : User) (role : Role)
    (link : UserRole) : Prop := {
  rd_org : o_Name org = rg_OrganizationName req ∧ o_Domain org = rg_Domain req ∧ o_IsActive org = true;
  rd_user : u_Email user = rg_Email req ∧ u_OrganizationID user = o_ID org ∧ u_IsActive user = true;
  rd_password : CheckPassword user (rg_Password req) = true;
  rd_role : r_OrganizationID role = o_ID org ∧ r_IsSystem role = true;
  rd_link : ur_UserID link = u_ID user ∧ ur_RoleID link = r_ID role;
  rd_domain : ∀ o, o ∈ tb_organizations T → o_Domain o ≠ rg_Domain req;
  rd_email : ∀ u, u ∈ tb_users T → u_Email u ≠ rg_Email req }.
Definition registered_tables (T : Tables) (org : Organization) (user : User) (role : Role) (link : UserRole)
    : Tables := db_insert link (db_insert role (db_insert user (db_insert org T))).

Lemma register_rows_ok req d d' org user : register_rows req d = (Ok (org, user), d') → ∃ role link,
  registered req (db_tables d) org user role link ∧
  db_tables d' = registered_tables (db_tables d) org user role link.
Proof.
  unfold register_rows. intros Hrun.
  apply bind_ok_inv in Hrun as (o & d1 & Ho & Hrun). apply wrap_err_ok, Created_ok in Ho
    as (t1 & f1 & _ & -> & Ht1 & Hc1).
  rewrite bind_wrap_err in Hrun. unfold lift_res, SetPassword in Hrun.
  destruct (bcrypt_Generate 10 (rg_Password req)) as [h|] eqn:Hh; [|done].
  apply bcrypt_Compare_Generate in Hh.
  apply bind_ok_inv in Hrun as (u & d2 & Hu & Hrun). apply wrap_err_ok, Created_ok in Hu
    as (t2 & f2 & _ & -> & Ht2 & Hc2).
  apply bind_ok_inv in Hrun as (r & d3 & Hr & Hrun). apply wrap_err_ok, Created_ok in Hr
    as (t3 & f3 & _ & -> & Ht3 & Hc3).
  apply bind_ok_inv in Hrun as ([] & d4 & Hl & [= <- <- <-]). apply wrap_err_ok in Hl.
  unfold db_Create in Hl. rewrite !bind_gets in Hl. apply db_Exec_ok in Hl as [Ht4 _].
  eexists _, _. split; [|unfold registered_tables; rewrite Ht4, Ht3, Ht2, Ht1; reflexivity].
  rewrite Ht1 in Hc1. rewrite Ht2, Ht1 in Hc2. clear -Hh Hc1 Hc2.
  destruct (db_tables d) as [us os rs ps urs rps ts acts].
  destruct Hc1 as (_ & [_ Hdom] & _). destruct Hc2 as ([_ Hmail] & _). simpl in *.
  split; [by split_and! | by split_and! | exact Hh | by split_and! | by split_and! | |].
  - intros x Hx Hd. apply NoDup_cons in Hdom as [Hdom _]. apply Hdom. simpl. rewrite <- Hd.
    by apply list_elem_of_fmap_2.
  - intros x Hx He. apply NoDup_cons in Hmail as [Hmail _]. apply Hmail. simpl. rewrite <- He.
    by apply list_elem_of_fmap_2.
Qed.

Lemma register_tx_cases req d :
  (∃ msg, (register_tx req d).1 = Err msg ∧ db_tables (register_tx req d).2 = db_tables d) ∨
  (∃ org user role link, (register_tx req d).1 = Ok (org, user) ∧
     registered req (db_tables d) org user role link ∧
     db_tables (register_tx req d).2 = registered_tables (db_tables d) org user role link).
Proof.
  unfold register_tx. destruct (register_rows req (db_Begin d)) as [[[org user]|msg] d1] eqn:Hr.
  - destruct (db_Commit d d1) as [[[]|e] d2] eqn:Hc; [right | left].
    + apply register_rows_ok in Hr as (role & link & Hreg & Ht). rewrite db_Begin_tables in *.
      exists org, user, role, link. simpl. split_and!; [done..|].
      by rewrite (db_Commit_ok _ _ _ Hc).
    + eexists. split; [done|]. by apply db_Commit_err in Hc.
  - left. eexists. split; [done|]. apply db_Rollback_tables.
Qed.

(** The stamp of the first login. *)
Lemma touch_login_tables user (s : S) : ∃ s', touch_login now user s = (Ok (set_LastLogin now now user), s') ∧
  (db_tables (hw_db s') = db_tables (hw_db s) ∨
   db_tables (hw_db s') = db_update (A:=User) (has_id (u_ID user)) (set_LastLogin now now) (db_tables (hw_db s))).
Proof.
  unfold touch_login. rewrite bind_sql. eexists. split; [done|]. cbn [hw_db with_hdb].
  unfold db_Updates. destruct (db_Exec _ (hw_db s)) as [[[]|e] d] eqn:He; simpl.
  - right. by apply db_Exec_ok in He as [-> _].
  - left. by apply db_Exec_err in He as [-> _].
Qed.
End registering.

(** C20: registration over HTTP is all or nothing.  Either the tables are as
    before and the answer is not 201, or exactly four rows were added: an active
    organization with the requested domain, its user, whose hash admits the
    password, a system role of that organization, and the link between the two
    (and at most the user's login time was stamped); then the request was
    valid and neither its domain nor its email was taken. *)
Theorem http_Register_all_or_nothing {D R} `{GormTxLaws D} `{RedisOps R} `{RedisGet R} `{JwtLib} `{HttpJwt}
    `{CryptoLaws} `{UuidLib} `{UuidParse} `{ValidatorLib} `{BindLib}
    config now ids c (s s' : HW D R) resp :
  Register config now ids c s = (Ok resp, s') →
  let T := db_tables (hw_db s) in let T' := db_tables (hw_db s') in
  (T' = T ∧ rs_Status resp ≠ StatusCreated) ∨
  ∃ req org user role link,
    cx_body c ≫= (λ j, dec_RegisterRequest j zero_register) = Some req ∧
    ValidateStruct (register_fields req) = None ∧ registered req T org user role link ∧
    (T' = registered_tables T org user role link ∨
     T' = db_update (A:=User) (has_id (u_ID user)) (set_LastLogin now now)
            (registered_tables T org user role link)).
Proof.
  intros Hrun. cbv zeta. unfold Register, with_body in Hrun.
  destruct (cx_body c ≫= _) as [req|] eqn:Hreq; [|injection Hrun as <- <-; by left].
  destruct (ValidateStruct _) eqn:Hval; [injection Hrun as <- <-; by left|].
  rewrite bind_sql in Hrun.
  pose proof (db_First_keeps row_id (λ T, List.filter (λ o, String.eqb (o_Domain o) (rg_Domain req)) (rows T))
    (hw_db s)) as Hk1.
  destruct (is_ok _); [injection Hrun as <- <-; left; split; [exact Hk1 | done]|].
  rewrite bind_sql in Hrun. cbn [hw_db with_hdb] in Hrun.
  set (d1 := (db_FirstWhere _ (hw_db s)).2) in *.
  pose proof (db_First_keeps row_id (λ T, List.filter (λ u, String.eqb (u_Email u) (rg_Email req)) (rows T)) d1) as Hk2.
  set (d2 := (db_FirstWhere _ d1).2) in *.
  assert (Hk : db_tables d2 = db_tables (hw_db s)) by (etrans; [exact Hk2 | exact Hk1]).
  destruct (is_ok _); [injection Hrun as <- <-; left; by split|]. clear Hk1 Hk2.
  unfold bind at 1, on_tx in Hrun. cbn [hw_db with_hdb] in Hrun.
  pose proof (register_tx_cases req d2) as Htx. rewrite Hk in Htx.
  destruct (register_tx req d2) as [[[org user]|msg] d3].
  2:{ injection Hrun as <- <-. left. destruct Htx as [(? & _ & Ht)|(? & ? & ? & ? & [=] & _)]. by split. }
  destruct Htx as [(? & [=] & _)|(org' & user' & role & link & [= <- <-] & Hreg & Ht)]. right.
  exists req, org, user, role, link. split_and!; [done..|].
  unfold with_tokens in Hrun. destruct (generateTokens _ _ _) as [[access refresh]|].
  2:{ injection Hrun as <- <-. by left. }
  match type of Hrun with bind (touch_login _ _) _ ?s0 = _ =>
    destruct (touch_login_tables now user s0) as (s1 & Hs1 & Htouch) end.
  rewrite (bind_step _ _ _ _ _ Hs1) in Hrun. injection Hrun as <- <-.
  cbn [hw_db snd] in *. rewrite Ht in Htouch. exact Htouch.
Qed.

(** ** Organizations are kept apart, with two exceptions *)

(** Whether a role is one of the organization's. *)
Definition role_in (org : N) (T : Tables) (roleID : N) : bool :=
  existsb (λ r, (r_ID r =? roleID)%N && (r_OrganizationID r =? org)%N) (tb_roles T).
(** The roles of other organizations, and the links to them. *)
Definition foreign_roles (org : N) (T' : Tables) : list Role :=
  List.filter (λ r, negb (r_OrganizationID r =? org)%N) (tb_roles T').
Definition foreign_grants (org : N) (T T' : Tables) : list RolePermission :=
  List.filter (λ x, negb (role_in org T (rp_RoleID x))) (tb_role_permissions T').
Definition foreign_members (org : N) (T T' : Tables) : list UserRole :=
  List.filter (λ x, negb (role_in org T (ur_RoleID x))) (tb_user_roles T').
Definition keeps_others (org : N) (T T' : Tables) : Prop :=
  foreign_roles org T' = foreign_roles org T ∧
  foreign_grants org T T' = foreign_grants org T T ∧
  foreign_members org T T' = foreign_members org T T.

(** A write to one of the three tables. *)
Lemma others_roles org T T' l : List.filter (λ r, negb (r_OrganizationID r =? org)%N) l = foreign_roles org T →
  foreign_grants org T T' = foreign_grants org T T → foreign_members org T T' = foreign_members org T T →
  keeps_others org T (with_rows (A:=Role) l T').
Proof. by destruct T'. Qed.
Lemma others_grants org T T' l :
  foreign_roles org T' = foreign_roles org T →
  List.filter (λ x, negb (role_in org T (rp_RoleID x))) l = foreign_grants org T T →
  foreign_members org T T' = foreign_members org T T → keeps_others org T (with_rows (A:=RolePermission) l T').
Proof. by destruct T'. Qed.
Lemma others_members org T T' l :
  foreign_roles org T' = foreign_roles org T → foreign_grants org T T' = foreign_grants org T T →
  List.filter (λ x, negb (role_in org T (ur_RoleID x))) l = foreign_members org T T →
  keeps_others org T (with_rows (A:=UserRole) l T').
Proof. by destruct T'. Qed.

Lemma filter_filter_out {A} (P Q : A → bool) (l : list A) : (∀ x, x ∈ l → P x = true → Q x = true) →
  List.filter P (List.filter Q l) = List.filter P l.
Proof.
  induction l as [|x l IH]; intros HPQ; [done|]. simpl.
  assert (IH' : List.filter P (List.filter Q l) = List.filter P l).
  { apply IH. intros y Hy. apply HPQ. by right. }
  specialize (HPQ x ltac:(left)). destruct (Q x); simpl; [by rewrite IH'|].
  destruct (P x); [by specialize (HPQ eq_refl) | done].
Qed.
Lemma filter_fmap_same {A} (P : A → bool) (f : A → A) (l : list A) :
  (∀ x, x ∈ l → f x = x ∨ P x = false ∧ P (f x) = false) →
  List.filter P (f <$> l) = List.filter P l.
Proof.
  induction l as [|x l IH]; intros Hf; [done|]. rewrite fmap_cons. cbn [List.filter].
  assert (IH' : List.filter P (f <$> l) = List.filter P l) by (apply IH; intros y Hy; apply Hf; by right).
  rewrite IH'. by destruct (Hf x ltac:(left)) as [->|[-> ->]].
Qed.

Section tenants.
Context {D R : Type} `{GormLaws D} `{GormTx D} `{RedisOps R} `{RedisGet R} `{JwtLib} `{HttpJwt} `{CryptoLib}
  `{UuidLib} `{UuidParse} `{ValidatorLib} `{BindLib} `{GinLib}.
Context (config : JWTConfig) (now : Z) (ids : nat → N).
Context (org : N) (T : Tables) (Hwf : well_formed T).
Abbreviation S := (HW D R).
Abbreviation MF := (GoM (option error)).

(** [m], started on the tables [T], leaves what is not the organization's. *)
Definition tenant {X} (m : MF S X) : Prop :=
  ∀ s, db_tables (hw_db s) = T → keeps_others org T (db_tables (hw_db (m s).2)).
Definition kept (s : S) : Prop := keeps_others org T (db_tables (hw_db s)).

Lemma keeps_others_refl : keeps_others org T T.
Proof using. done. Qed.
Lemma tenant_preserves {X} (m : MF S X) : preserves kept m → tenant m.
Proof using. intros Hm s Hs. apply Hm. unfold kept. by rewrite Hs. Qed.
Lemma tenant_read {X} (m : M D X) st msg k : (∀ d, db_tables (m d).2 = db_tables d) →
  (∀ d x, db_tables d = T → (m d).1 = Ok x → tenant (k x)) → tenant (with_row (R:=R) m st msg k).
Proof using.
  intros Hm Hk s Hs. unfold with_row. rewrite bind_sql.
  destruct (m (hw_db s)).1 as [x|e] eqn:E; [eapply Hk; eauto; cbn; by rewrite Hm|].
  cbn. rewrite Hm, Hs. done.
Qed.
Lemma tenant_First {A} `{Row A} (P : A → bool) st msg (k : A → MF S Response) :
  (∀ x, x ∈ rows T → P x = true → tenant (k x)) → tenant (with_row (db_FirstWhere P) st msg k).
Proof using.
  intros Hk. apply tenant_read; [intros d; apply db_First_keeps|].
  intros d x Hd Hx. apply run_split, FirstWhere_ok in Hx as (Hin & HP & _).
  rewrite Hd in Hin. by apply Hk.
Qed.
Lemma tenant_sql {X Y} (m : M D X) (k : res error X → MF S Y) :
  (∀ d, db_tables d = T → keeps_others org T (db_tables (m d).2)) →
  (∀ r, preserves kept (k r)) → tenant (bind (sql m) k).
Proof using. intros Hm Hk s Hs. rewrite bind_sql. apply Hk. unfold kept. cbn. by apply Hm. Qed.
Lemma kept_sql {X} (m : M D X) :
  (∀ d, keeps_others org T (db_tables d) → keeps_others org T (db_tables (m d).2)) → preserves kept (sql m).
Proof using. intros Hm s Hs. rewrite sql_state. unfold kept. cbn. by apply Hm. Qed.
Lemma exec_keeps f d : keeps_others org T (db_tables d) → keeps_others org T (f (db_tables d)) →
  keeps_others org T (db_tables (db_Exec f d).2).
Proof using.
  intros Hd Hf. destruct (db_Exec f d) as [[[]|e] d'] eqn:E; simpl.
  - by apply db_Exec_ok in E as [-> _].
  - by apply db_Exec_err in E as [-> _].
Qed.
Lemma create_keeps {A} `{Row A} (a : A) d : keeps_others org T (db_tables d) →
  (∀ t fresh T', keeps_others org T T' → keeps_others org T (db_insert (row_created t fresh a) T')) →
  keeps_others org T (db_tables (db_Create a d).2).
Proof using. intros Hd Ha. unfold db_Create. rewrite !bind_gets. by apply exec_keeps; [|apply Ha]. Qed.

(** A found role is the only one with its key. *)
Lemma role_key (r x : Role) : r ∈ tb_roles T → x ∈ tb_roles T → r_ID x = r_ID r → x = r.
Proof using Hwf.
  clear -Hwf. intros Hr Hx He. destruct Hwf as [(_ & _ & Hn & _) _].
  apply list_elem_of_lookup in Hr as [i Hi], Hx as [j Hj].
  assert (j = i) as ->; [|congruence]. eapply NoDup_lookup; [exact Hn| |]; rewrite list_lookup_fmap.
  - by rewrite Hj. 
  - rewrite Hi. simpl. by rewrite He.
Qed.
Lemma role_identified (r : Role) : r ∈ tb_roles T → r_ID r ≠ uuid_Nil.
Proof using Hwf.
  clear -Hwf. intros Hr. destruct Hwf as (_ & _ & _ & Hi & _). unfold identified in Hi.
  rewrite Forall_forall in Hi. by apply Hi.
Qed.
Lemma role_of_spec roleID (r : Role) : role_of (CUuid org) roleID r = true →
  r_ID r = roleID ∧ r_OrganizationID r = org.
Proof using.
  unfold role_of, has_id, is_id. rewrite andb_true_iff, !N.eqb_eq. simpl. tauto.
Qed.
Lemma role_in_found (r : Role) : r ∈ tb_roles T → r_OrganizationID r = org → role_in org T (r_ID r) = true.
Proof using.
  intros Hin Ho. unfold role_in. apply existsb_exists. exists r. rewrite <- list_elem_of_In.
  by rewrite Ho, !N.eqb_refl.
Qed.

Lemma save_role_keeps (found role : Role) t d : db_tables d = T → found ∈ tb_roles T →
  r_OrganizationID found = org → r_ID role = r_ID found → r_OrganizationID role = org →
  keeps_others org T (db_tables (db_Save t role d).2).
Proof using Hwf.
  clear -Hwf. intros Hd Hin Ho Hi Hor. unfold db_Save. change (row_id role) with (r_ID role).
  destruct (N.eqb_spec (r_ID role) uuid_Nil) as [Hz|_]; [rewrite Hi in Hz; by apply role_identified in Hz|].
  apply exec_keeps; rewrite Hd; [done|].
  assert (Hex : existsb (has_id (r_ID role)) (tb_roles T) = true).
  { apply existsb_exists. exists found. rewrite <- list_elem_of_In. split; [done|]. unfold has_id. simpl.
    by rewrite Hi, N.eqb_refl. }
  change (rows T) with (tb_roles T). rewrite Hex. apply others_roles; [|done..]. apply filter_fmap_same.
  intros x Hx. unfold has_id. change (row_id x) with (r_ID x).
  destruct (N.eqb_spec (r_ID x) (r_ID role)) as [He|]; [right|by left].
  assert (x = found) as -> by (apply role_key; [done|done|congruence]).
  destruct role; simpl in *; subst; by rewrite !N.eqb_refl.
Qed.

Lemma delete_role_keeps (role : Role) d : db_tables d = T → role ∈ tb_roles T → r_OrganizationID role = org →
  keeps_others org T (db_tables (db_DeleteRow role d).2).
Proof using Hwf.
  clear -Hwf. intros Hd Hin Ho. unfold db_DeleteRow. change (row_id role) with (r_ID role).
  destruct (N.eqb_spec (r_ID role) uuid_Nil) as [Hz|_]; [by apply role_identified in Hz|].
  apply exec_keeps; rewrite Hd; [done|]. apply others_roles; [|done..].
  apply filter_filter_out. intros x Hx. unfold has_id. change (row_id x) with (r_ID x).
  destruct (N.eqb_spec (r_ID x) (r_ID role)) as [He|]; [|done].
  rewrite (role_key role x), Ho, N.eqb_refl by done. done.
Qed.
Lemma create_role_keeps n desc d : db_tables d = T →
  keeps_others org T (db_tables (db_Created (mkRole uuid_Nil org n desc false true zero_time zero_time) d).2).
Proof using.
  intros Hd. unfold db_Created. rewrite !bind_gets. unfold bind.
  match goal with |- context [db_Exec ?f d] => assert (Hx : keeps_others org T (db_tables (db_Exec f d).2)) end.
  { apply exec_keeps; rewrite Hd; [done|]. apply others_roles; [|done..]. cbn [List.filter].
    simpl r_OrganizationID. by rewrite N.eqb_refl. }
  by destruct (db_Exec _ d) as [[]].
Qed.
Lemma grant_keeps roleID permissionID : role_in org T roleID = true →
  preserves kept (sql (R:=R) (db_Create (RoleRepo.new_RolePermission roleID permissionID))).
Proof using.
  intros Hr. apply kept_sql. intros d Hd. apply create_keeps; [done|]. intros t fresh T' (H1' & H2' & H3').
  apply others_grants; [done| |done]. cbn [List.filter]. simpl rp_RoleID. rewrite Hr. exact H2'.
Qed.
Lemma ungrant_keeps roleID : role_in org T roleID = true →
  preserves kept (sql (R:=R) (db_Delete (λ rp, (rp_RoleID rp =? roleID)%N))).
Proof using.
  intros Hr. apply kept_sql. intros d Hd. pose proof Hd as (H1' & H2' & H3').
  apply exec_keeps; [done|]. apply others_grants; [done| |done].
  etrans; [|exact H2']. apply filter_filter_out. intros x _.
  destruct (N.eqb_spec (rp_RoleID x) roleID) as [->|]; [by rewrite Hr | done].
Qed.
Lemma member_keeps userID roleID : role_in org T roleID = true →
  preserves kept (sql (R:=R) (db_Create (RoleRepo.new_UserRole userID roleID))).
Proof using.
  intros Hr. apply kept_sql. intros d Hd. apply create_keeps; [done|]. intros t fresh T' (H1' & H2' & H3').
  apply others_members; [done|done|]. cbn [List.filter]. simpl ur_RoleID. rewrite Hr. exact H3'.
Qed.

Lemma user_keeps t (u : User) : preserves kept (sql (R:=R) (db_Save t u)).
Proof using.
  apply kept_sql. intros d Hd. unfold db_Save. destruct (_ =? _)%N.
  - apply create_keeps; [done|]. by intros ? ? [].
  - apply exec_keeps; [done|]. destruct (existsb _ _); by destruct (db_tables d).
Qed.
Lemma organization_keeps t (o : Organization) : preserves kept (sql (R:=R) (db_Save t o)).
Proof using.
  apply kept_sql. intros d Hd. unfold db_Save. destruct (_ =? _)%N.
  - apply create_keeps; [done|]. by intros ? ? [].
  - apply exec_keeps; [done|]. destruct (existsb _ _); by destruct (db_tables d).
Qed.
Lemma kept_read {X} (m : M D X) : (∀ d, db_tables (m d).2 = db_tables d) → preserves kept (sql (R:=R) m).
Proof using. intros Hm. apply kept_sql. intros d Hd. by rewrite Hm. Qed.
Lemma kept_publish n u o c data : preserves kept (publish (D:=D) (R:=R) now ids n u o c data).
Proof using. by intros s Hs. Qed.
Lemma kept_role_event c o u data : preserves kept (role_event (D:=D) (R:=R) now ids c o u data).
Proof using. intros s Hs. unfold role_event, assert_uuid. repeat case_match; exact Hs. Qed.

Lemma tenant_answer st j : tenant (JSON (D:=D) (R:=R) st j).
Proof using. intros s Hs. cbn. by rewrite Hs. Qed.
Lemma tenant_key key msg c v k : ctx_Get c key = Some v → tenant (k v) →
  tenant (with_key (D:=D) (R:=R) key msg c k).
Proof using. intros Hv Hk. unfold with_key. by rewrite Hv. Qed.
Lemma tenant_any_key key msg c k : (∀ v, tenant (k v)) → tenant (with_key (D:=D) (R:=R) key msg c k).
Proof using. intros Hk. unfold with_key. destruct (ctx_Get c key); [apply Hk | apply tenant_answer]. Qed.
Lemma tenant_param name msg c k : (∀ i, tenant (k i)) → tenant (with_param (D:=D) (R:=R) name msg c k).
Proof using. intros Hk. unfold with_param. destruct (uuid_Parse _); [apply Hk | apply tenant_answer]. Qed.
Lemma tenant_body {X} (zero : X) dec c k : (∀ x, tenant (k x)) → tenant (with_body (D:=D) (R:=R) zero dec c k).
Proof using. intros Hk. unfold with_body. destruct (_ ≫= _); [apply Hk | apply tenant_answer]. Qed.

(** [apart] walks a handler down to its writes. *)
Ltac apart :=
  repeat (cbv beta; lazymatch goal with
  | Hc : ctx_Get ?c "organization_id" = Some _ |- tenant (with_key _ _ ?c _) =>
      first [eapply tenant_key; [exact Hc|] | apply tenant_any_key; intros ?]
  | |- tenant (with_param _ _ _ _) => apply tenant_param; intros ?
  | |- tenant (with_body _ _ _ _) => apply tenant_body; intros ?
  | |- tenant (with_row (db_FirstWhere _) _ _ _) => apply tenant_First; intros ? ? ?
  | |- tenant (with_row (db_FindWhere _ _) _ _ _) =>
      apply tenant_read; [intros ?; apply db_Find_keeps | intros ? ? _ _]
  | |- tenant (with_row (db_Find _) _ _ _) => apply tenant_read; [intros ?; apply db_Find_keeps | intros ? ? _ _]
  | |- tenant (with_row (db_First _ _) _ _ _) => apply tenant_read; [intros ?; apply db_First_keeps | intros ? ? _ _]
  | |- tenant (with_row (user_and_organization _) _ _ _) =>
      apply tenant_read; [intros ?; apply db_First_keeps | intros ? ? _ _]
  | |- tenant (refuse _ _) => apply tenant_answer
  | |- tenant (JSON _ _) => apply tenant_answer
  | |- tenant (match ?x with _ => _ end) => let E := fresh "E" in destruct x eqn:E
  end).
Ltac found_role :=
  match goal with
  | H : role_of (CUuid org) _ ?r = true |- _ =>
      let Hi := fresh "Hi" in let Ho := fresh "Ho" in apply role_of_spec in H as [Hi Ho]
  end.

Lemma ChangePassword_tenant c : ctx_Get c "organization_id" = Some (CUuid org) →
  tenant (ChangePassword (D:=D) (R:=R) now ids c).
Proof using.
  intros Hc. unfold ChangePassword. apart.
  apply tenant_preserves. preserve; first [apply user_keeps | apply kept_publish | apply preserves_ret].
Qed.
Lemma CreateRole_tenant c : ctx_Get c "organization_id" = Some (CUuid org) →
  tenant (CreateRole (D:=D) (R:=R) c).
Proof using.
  intros Hc. unfold CreateRole. apart. intros s Hs. rewrite bind_sql.
  set (m := db_FirstWhere _). assert (Hk : db_tables (m (hw_db s)).2 = T)
    by (rewrite <- Hs; apply db_First_keeps).
  destruct (is_ok _); [cbn; by rewrite Hk|]. cbn [assert_uuid].
  apply tenant_sql; [|intros [?|?]; apply preserves_ret |].
  - intros d Hd. by apply create_role_keeps.
  - exact Hk.
Qed.
Lemma UpdateRole_tenant c : ctx_Get c "organization_id" = Some (CUuid org) →
  tenant (UpdateRole (D:=D) (R:=R) now c).
Proof using Hwf.
  clear -Hwf. intros Hc. unfold UpdateRole. apart. found_role. destruct x as [a b n de sy ac ca ua]. cbv zeta.
  apply tenant_sql; [|intros r; destruct (is_ok r); apply preserves_ret].
  intros d Hd. by eapply save_role_keeps.
Qed.
Lemma DeleteRole_tenant c : ctx_Get c "organization_id" = Some (CUuid org) →
  tenant (DeleteRole (D:=D) (R:=R) c).
Proof using Hwf.
  clear -Hwf. intros Hc. unfold DeleteRole. apart. found_role.
  apply tenant_sql; [|intros r; destruct (is_ok r); apply preserves_ret].
  intros d Hd. by apply delete_role_keeps.
Qed.
Lemma AssignPermissions_tenant c : ctx_Get c "organization_id" = Some (CUuid org) →
  tenant (AssignPermissions (D:=D) (R:=R) c).
Proof using.
  intros Hc. unfold AssignPermissions. apart. found_role. subst.
  assert (Hr : role_in org T (r_ID x0) = true) by (apply role_in_found; [done|congruence]).
  apply tenant_preserves. preserve; first [by apply ungrant_keeps | by apply grant_keeps | apply preserves_ret].
Qed.
Lemma AssignUserRole_tenant c : ctx_Get c "organization_id" = Some (CUuid org) →
  tenant (AssignUserRole (D:=D) (R:=R) now ids c).
Proof using.
  intros Hc. unfold AssignUserRole. apart. found_role.
  assert (Hr : role_in org T (r_ID x1) = true) by (apply role_in_found; [done|congruence]).
  rewrite <- Hi. apply tenant_preserves.
  preserve; first [apply kept_read; intros; apply db_First_keeps | by apply member_keeps
    | apply kept_role_event | apply preserves_ret].
Qed.
(** The handlers that write no role. *)
Definition reads (e : Endpoint) : bool :=
  bool_decide (e ∈ [EGetProfile; EGetRoles; EGetRole; EGetUserRoles; EGetPermissions; EGetOrganization;
                    EEnable2FA; EDisable2FA]).
Lemma readers_tenant e c : ctx_Get c "organization_id" = Some (CUuid org) → reads e = true →
  tenant (handle (D:=D) (R:=R) config now ids e c).
Proof using.
  intros Hc He. apply bool_decide_eq_true_1 in He.
  repeat (apply elem_of_cons in He as [->|He]); [..|by apply elem_of_nil in He]; cbn [handle];
    unfold GetProfile, GetRoles, GetRole, GetUserRoles, GetPermissions, GetOrganization, Enable2FA, Disable2FA;
    apart.
Qed.
Lemma UpdateProfile_tenant c : ctx_Get c "organization_id" = Some (CUuid org) →
  tenant (UpdateProfile (D:=D) (R:=R) now c).
Proof using.
  intros Hc. unfold UpdateProfile. apart. apply tenant_preserves.
  preserve; first [apply user_keeps | apply preserves_ret].
Qed.
Lemma UpdateOrganization_tenant c : ctx_Get c "organization_id" = Some (CUuid org) →
  tenant (UpdateOrganization (D:=D) (R:=R) now c).
Proof using.
  intros Hc. unfold UpdateOrganization. apart. apply tenant_preserves.
  preserve; first [apply organization_keeps | apply preserves_ret].
Qed.
End tenants.

(** A deletion that is answered with 200 has removed its rows. *)
Lemma deleted_rows_gone {D} `{GormLaws D} {A} `{RowLaws A} (P : A → bool) d x :
  is_ok (db_Delete P d).1 = true → x ∈ rows (db_tables (db_Delete P d).2) → P x = false.
Proof.
  intros Hok Hx. destruct (run_ok _ Hok) as [[] Hrun]. apply db_Exec_ok in Hrun as [Ht _].
  rewrite Ht in Hx. unfold db_remove in Hx. rewrite rows_with in Hx.
  apply list_elem_of_In, filter_In in Hx as [_ Hx]. by destruct (P x).
Qed.


(** ** The internal permission check *)
Lemma some_grants_spec resource action perms : some_grants resource action perms = true ↔
  ∃ p, p ∈ perms ∧ p_Resource p = resource ∧ p_Action p = action.
Proof.
  induction perms as [|p perms IH]; simpl; [set_solver|].
  destruct (String.eqb_spec (p_Resource p) resource), (String.eqb_spec (p_Action p) action); simpl;
    rewrite ?IH; set_solver.
Qed.
Lemma some_role_grants_spec resource action roles : some_role_grants resource action roles = true ↔
  ∃ perms, perms ∈ roles ∧ some_grants resource action perms = true.
Proof.
  induction roles as [|perms roles IH]; simpl; [set_solver|].
  destruct (some_grants resource action perms) eqn:E.
  - split; [|done]. intros _. exists perms. split; [by left | done].
  - rewrite IH. split; intros (q & Hq & Hg); exists q.
    + split; [by right | done].
    + apply elem_of_cons in Hq as [->|Hq]; [congruence | by split].
Qed.

(** Whether the tables grant the permission to the user: by name and action
    exactly, through any of the user's roles, deactivated ones included. *)
Definition granted_by_tables (T : Tables) (userID : N) (resource action : string) : Prop :=
  ∃ ur role rp p, ur ∈ tb_user_roles T ∧ ur_UserID ur = userID ∧
    role ∈ tb_roles T ∧ r_ID role = ur_RoleID ur ∧
    rp ∈ tb_role_permissions T ∧ rp_RoleID rp = r_ID role ∧
    p ∈ tb_permissions T ∧ p_ID p = rp_PermissionID rp ∧ p_Resource p = resource ∧ p_Action p = action.

Lemma find_by_key {A} (key : A → N) (l : list A) i a : NoDup (key <$> l) → a ∈ l → key a = i →
  List.find (λ x, (key x =? i)%N) l = Some a.
Proof.
  induction l as [|x l IH]; intros Hn Ha Hk; [by apply elem_of_nil in Ha|]. simpl.
  apply NoDup_cons in Hn as [Hx Hn]. destruct (N.eqb_spec (key x) i) as [He|He].
  - apply elem_of_cons in Ha as [->|Ha]; [done|]. exfalso. apply Hx. rewrite He, <- Hk.
    by apply list_elem_of_fmap_2.
  - apply elem_of_cons in Ha as [->|Ha]; [done | by apply IH].
Qed.
Lemma granted_spec T resource action ur : constraints T → (resource, action) ≠ ("", "") →
  some_grants resource action (granted T ur) = true ↔
  ∃ role rp p, role ∈ tb_roles T ∧ r_ID role = ur_RoleID ur ∧ rp ∈ tb_role_permissions T ∧
    rp_RoleID rp = r_ID role ∧ p ∈ tb_permissions T ∧ p_ID p = rp_PermissionID rp ∧
    p_Resource p = resource ∧ p_Action p = action.
Proof.
  intros (_ & _ & Hroles & [Hperms _] & _) Hne. rewrite some_grants_spec. unfold granted. split.
  - destruct (List.find _ (tb_roles T)) as [role|] eqn:Hr; [|set_solver].
    apply List.find_some in Hr as [Hr He]. apply list_elem_of_In in Hr. apply N.eqb_eq in He.
    intros (p & Hp & <- & <-). apply list_elem_of_fmap in Hp as ([rp op] & -> & Hin).
    unfold RoleRepo.assignments_of in Hin. apply list_elem_of_fmap in Hin as (rp' & [= <- ->] & Hin).
    apply list_elem_of_In, filter_In in Hin as [Hin Hrp]. apply list_elem_of_In in Hin. apply N.eqb_eq in Hrp.
    simpl in *. destruct (List.find _ (tb_permissions T)) as [p|] eqn:Hp; [|by destruct Hne].
    apply List.find_some in Hp as [Hp Hi]. apply list_elem_of_In in Hp. apply N.eqb_eq in Hi.
    exists role, rp, p. by split_and!.
  - intros (role & rp & p & Hr & He & Hrp & Hi & Hp & Hpi & Hres & Hact).
    unfold has_id. change (row_id (A:=Role)) with r_ID. rewrite (find_by_key r_ID _ _ role Hroles Hr He).
    exists p. split; [|done]. apply list_elem_of_fmap. exists (rp, Some p). split; [done|].
    unfold RoleRepo.assignments_of. apply list_elem_of_fmap. exists rp. split.
    + f_equal. symmetry. unfold has_id. change (row_id (A:=Permission)) with p_ID. by apply find_by_key.
    + apply list_elem_of_In, filter_In. split; [by apply list_elem_of_In|]. by apply N.eqb_eq.
Qed.

(** What the internal permission check answers.  On well-formed tables a
    check that is not answered with an error says exactly whether one of the
    user's roles, active or not, is assigned a permission with that very
    resource and action; neither the hierarchy of permissions nor their scope
    counts, and nothing is written. *)
Theorem http_CheckPermission_spec {D R} `{GormLaws D} `{GormTx D} `{RedisOps R} `{RedisGet R} `{JwtLib}
    `{HttpJwt} `{CryptoLib} `{UuidLib} `{UuidParse} `{ValidatorLib} `{BindLib} c req (s s' : HW D R) answer :
  well_formed (db_tables (hw_db s)) →
  cx_body c ≫= (λ j, dec_CheckPermissionRequest j (mkCheck uuid_Nil "" "")) = Some req →
  (ck_Resource req, ck_Action req) ≠ ("", "") →
  CheckPermission c s = (Ok answer, s') → rs_Status answer = StatusOK →
  db_tables (hw_db s') = db_tables (hw_db s) ∧
  ∃ b, rs_Body answer = JObj [("has_permission", JBool b)] ∧
    (b = true ↔ granted_by_tables (db_tables (hw_db s)) (ck_UserID req) (ck_Resource req) (ck_Action req)).
Proof.
  intros [Hwf _] Hreq Hne Hrun Hok. unfold CheckPermission, with_body in Hrun. rewrite Hreq in Hrun.
  unfold with_row in Hrun. rewrite bind_sql in Hrun.
  match type of Hrun with context [db_Find ?q] =>
    pose proof (db_Find_keeps q (hw_db s)) as Hk; destruct (db_Find q (hw_db s)) as [[l|e] d] eqn:Hf end;
    [|by injection Hrun as <- <-].
  injection Hrun as <- <-. split; [exact Hk|]. eexists. split; [done|].
  apply db_Find_ok in Hf as (r & l' & [= <-] & Hp & _ & ->). unfold page. simpl. rewrite drop_0.
  rewrite some_role_grants_spec. setoid_rewrite <- Hp. unfold granted_by_tables. split.
  - intros (perms & Hin & Hg). apply list_elem_of_fmap in Hin as (ur & -> & Hin).
    apply list_elem_of_In, filter_In in Hin as [Hin Hu]. apply list_elem_of_In in Hin. apply N.eqb_eq in Hu.
    apply granted_spec in Hg as (role & rp & p & Hrest); [|done..]. by exists ur, role, rp, p.
  - intros (ur & role & rp & p & Hin & Hu & Hrest). exists (granted (db_tables (hw_db s)) ur). split.
    + apply list_elem_of_fmap. exists ur. split; [done|]. apply list_elem_of_In, filter_In.
      split; [by apply list_elem_of_In | by apply N.eqb_eq].
    + apply granted_spec; [done..|]. by exists role, rp, p.
Qed.

(** ** What the code gets wrong *)

(** Once the role is found the answer is 200, whatever the statements say. *)
Lemma AssignPermissions_hides_failures {D R} `{Gorm D} `{GormTx D} `{RedisOps R} `{RedisGet R} `{UuidLib}
    `{UuidParse} `{BindLib} c (s : HW D R) organizationID roleID permissionIDs role :
  ctx_Get c "organization_id" = Some organizationID → uuid_Parse (Param c "id") = Ok roleID →
  cx_body c ≫= (λ j, dec_AssignPermissionsRequest j []) = Some permissionIDs →
  (db_FirstWhere (role_of organizationID roleID) (hw_db s)).1 = Ok role →
  (AssignPermissions c s).1 = Ok (mkResponse StatusOK (message_body "Permissions assigned successfully")).
Proof.
  intros Ho Hi Hb Hr. unfold AssignPermissions, with_key, with_param, with_body, with_row.
  rewrite Ho, Hi, Hb, bind_sql, Hr, bind_sql. generalize (with_hdb (D:=D) (R:=R)). intros f.
  match goal with |- context [bind _ _ ?s0] => generalize s0 end. clear. intros s.
  revert s. induction permissionIDs as [|p ps IH]; intros s; [done|].
  cbn [for_each]. rewrite !bind_assoc, bind_sql. apply IH.
Qed.

(** A member of one organization writes over the row of another: the
    identifier is taken from the body. *)
Definition takeover (o : Organization) (name domain : string) : Json :=
  JObj [("id", JUuid (o_ID o)); ("name", JStr name); ("domain", JStr domain)].
Lemma UpdateOrganization_writes_other_rows {D R} `{GormLaws D} `{GormTx D} `{RedisOps R} `{RedisGet R}
    `{UuidLib} `{UuidParse} `{BindLib} now c (s s' : HW D R) orgID victim name domain answer :
  well_formed (db_tables (hw_db s)) → victim ∈ tb_organizations (db_tables (hw_db s)) →
  ctx_Get c "organization_id" = Some (CUuid orgID) → cx_body c = Some (takeover victim name domain) →
  UpdateOrganization now c s = (Ok answer, s') → rs_Status answer = StatusOK →
  ∃ own, own ∈ tb_organizations (db_tables (hw_db s)) ∧ o_ID own = orgID ∧
    let row := mkOrganization (o_ID victim) name domain (o_Settings own) (o_IsActive own) (o_CreatedAt own) now in
    tb_organizations (db_tables (hw_db s')) =
      (λ o, if (o_ID o =? o_ID victim)%N then row else o) <$> tb_organizations (db_tables (hw_db s)).
Proof.
  intros [_ (_ & Hid & _)] Hv Hc Hb Hrun Hok. unfold UpdateOrganization, with_key, with_row, with_body in Hrun.
  rewrite Hc, bind_sql in Hrun.
  destruct (db_FirstWhere _ (hw_db s)) as [[own|e] d1] eqn:Hf; cbn [fst] in Hrun; [|by injection Hrun as <- <-].
  apply FirstWhere_ok in Hf as (Hin & Ho & Ht). unfold is_id in Ho. apply N.eqb_eq in Ho.
  rewrite Hb in Hrun. destruct own as [i n dom se ac ca ua]. cbn in Hrun. rewrite bind_sql in Hrun.
  destruct (is_ok _) eqn:Hs; injection Hrun as <- <-; [|done].
  exists (mkOrganization i n dom se ac ca ua). split; [done|]. split; [done|].
  destruct (run_ok _ Hs) as [[] Hsave]. unfold identified in Hid. rewrite Forall_forall in Hid.
  apply Save_updates in Hsave; [|exact (Hid _ Hv) | exists victim; cbn in *; by rewrite Ht].
  cbn [hw_db with_hdb]. cbn in Hsave. rewrite Hsave, Ht. by destruct (db_tables (hw_db s)).
Qed.

(** ** Witnesses

    The reference database with transactions that commit, the reference Redis,
    tokens as in TokenService.v, and paths matched segment by segment. *)
#[local] Existing Instances ref_uuid ref_jwt ref_jwt_laws ref_crypto ref_crypto_laws ref_tsvc.
#[local] Instance ref_tx : GormTx RefDB := {
  db_Begin d := d; db_Commit before d := (Ok tt, d); db_Rollback before d := before }.
#[local, refine] Instance ref_tx_laws : GormTxLaws RefDB := {}.
Proof. all: try done. intros before d d' [= <-]. done. Defined.
#[local] Instance ref_get : RedisGet ref_redis := {
  redis_Get now k := λ r : gmap string Z,
    (match r !! k with
     | Some d => if (now <? d)%Z then Ok "1" else Err (ErrorString "redis: nil")
     | None => Err (ErrorString "redis: nil") end, r) }.
#[local, refine] Instance ref_get_laws : RedisGetLaws ref_redis := {}.
Proof.
  - intros r k d now (d' & Hk & Hd) Hn. unfold redis_Get. simpl. rewrite Hk.
    by destruct (Z.ltb_spec now d'); [|lia].
  - done.
Defined.
#[local] Instance ref_http_jwt : HttpJwt := {
  http_SignedString key c := jwt_SignedString key (as_token_claims c) }.
#[local, refine] Instance ref_http_jwt_laws : HttpJwtLaws := {}.
Proof. - intros key c. apply jwt_Parse_signed. - intros key c. apply jwt_Parse_refused. Defined.
#[local] Instance ref_http_parse : UuidParse := λ text,
  match Atoi text with Some z => Ok (Z.to_N z) | None => Err (ErrorString "invalid UUID length") end.
#[local] Instance ref_validator : ValidatorLib := {
  valid_email s := Contains s "@"; valid_fqdn s := Contains s "." }.
#[local] Instance ref_bind : BindLib := { bind_error body := "invalid request" }.
Fixpoint match_segments (pattern path : list string) : option (gmap string string) :=
  match pattern, path with
  | [], [] => Some ∅
  | p :: ps, s :: ss =>
      if HasPrefix p ":" then
        if String.eqb s "" then None else <[str_drop 1 p := s]> <$> match_segments ps ss
      else if String.eqb p s then match_segments ps ss else None
  | _, _ => None
  end.
#[local] Instance ref_gin : GinLib := {
  gin_match pattern path := match_segments (Split pattern "/") (Split path "/");
  gin_NoRoute r := mkResponse StatusNotFound JNull;
  cors_New c := c }.
#[local, refine] Instance ref_gin_laws : GinLaws := {}.
Proof. all: done. Defined.

(** Two organizations register. *)
Definition ref_register (email domain : string) : Json :=
  JObj [("email", JStr email); ("password", JStr "password"); ("first_name", JStr "Ada");
        ("last_name", JStr "B"); ("organization_name", JStr "Acme"); ("domain", JStr domain)].
Definition ref_post (path : string) (body : Json) : Request := mkRequest "POST" path ∅ "10.0.0.1" (Some body).
Definition ref_serve (now : Z) (r : Request) (s : HW RefDB ref_redis) : Response * HW RefDB ref_redis :=
  ServeHTTP ref_config now (λ n, N.of_nat n) r s.
Definition ref_nobody : HW RefDB ref_redis := mkHW (mkRefDB empty_tables 100) (∅ : gmap string Z) (Some []).
Definition ref_joins (email domain : string) : Request :=
  ref_post "/api/v1/auth/register" (ref_register email domain).
Abbreviation ref_first := (ref_serve 0 (ref_joins "a@acme.org" "acme.org") ref_nobody).
Abbreviation ref_second := (ref_serve Second (ref_joins "b@other.org" "other.org") ref_first.2).
Lemma ref_serve_run now r s :
  ServeHTTP ref_config now (λ n, N.of_nat n) r s = ((ref_serve now r s).1, (ref_serve now r s).2).
Proof. unfold ref_serve. apply surjective_pairing. Qed.
Example two_organizations : (rs_Status ref_first.1, rs_Status ref_second.1,
    o_ID <$> tb_organizations (db_tables (hw_db ref_second.2))) = (StatusCreated, StatusCreated, [106; 101]%N).
Proof. vm_refl. Qed.

Lemma ref_nobody_ok : well_formed (db_tables (hw_db ref_nobody)).
Proof.
  split.
  - unfold constraints. split_and!; constructor.
  - unfold all_identified, identified. split_and!; constructor.
Qed.


(** A request without a token, and what it is answered. *)
Definition ref_anonymous : Request := mkRequest "GET" "/api/v1/roles/" ∅ "10.0.0.1" None.
Example requests_are_authenticated_witness :
  ∃ a, ServeHTTP ref_config 0 (λ n, N.of_nat n) ref_anonymous ref_second.2 = (aborted a, ref_second.2).
Proof.
  destruct (requests_are_authenticated ref_config 0 (λ n, N.of_nat n) ref_anonymous
    (mkRoute Protected "GET" "/api/v1/roles/" EGetRoles) ∅ ref_second.2) as [Ha|(g & _ & token & claims & Ht & _)];
    [vm_compute; reflexivity | discriminate | exact Ha | discriminate].
Defined.

(** The token of the first registration. *)
Definition ref_tokens_of (r : Response) : string :=
  match rs_Body r with
  | JObj l => match field "refresh_token" l with Some (JStr t) => t | _ => "" end
  | _ => ""
  end.
Definition ref_token : string := ref_tokens_of ref_first.1.
Definition ref_ctx (body : option Json) (keys : gmap string ctx_value) (params : gmap string string) : Ctx :=
  mkCtx (mkGin ∅ keys None) params "10.0.0.1" body.
Definition ref_offer : Ctx := ref_ctx (Some (JObj [("refresh_token", JStr ref_token)])) ∅ ∅.
Definition ref_refreshed : res (option error) Response * HW RefDB ref_redis :=
  RefreshToken ref_config (Second / 2) (λ n, N.of_nat n) ref_offer ref_first.2.
Definition default_response (r : res (option error) Response) : Response :=
  match r with Ok x => x | Err _ => mkResponse 0 JNull end.
Lemma ref_refreshed_run : ref_refreshed.1 = Ok (default_response ref_refreshed.1) ∧
  rs_Status (default_response ref_refreshed.1) = StatusOK ∧ ref_tokens_of (default_response ref_refreshed.1) = ref_token.
Proof. split_and!; vm_refl. Qed.

Definition ref_row : User := default zero_user (head (tb_users (db_tables (hw_db ref_first.2)))).
Definition ref_claims : TokenClaims :=
  as_token_claims (http_claims 0 ref_row (jc_RefreshExpiry ref_config)).
Definition ref_access : string :=
  match generateTokens ref_config 0 ref_row with Ok p => p.1 | Err _ => "" end.
Lemma ref_row_tokens : generateTokens ref_config 0 ref_row = Ok (ref_access, ref_token).
Proof. vm_refl. Qed.
Lemma ref_token_claims : jwt_ParseWithClaims (Second / 2) ref_token (λ _ _, Ok (jc_Secret ref_config)) =
  Ok (ref_claims, true).
Proof. vm_refl. Qed.
Lemma ref_row_found : (db_FirstWhere (A:=User) (has_id (tc_UserID ref_claims)) (hw_db ref_first.2)).1 = Ok ref_row.
Proof. vm_refl. Qed.


(** A locked account: the row of the first registration with a lock. *)
Definition ref_locked_row : User := set_Locked (Some (10 * Minute)) 0 ref_row.
Definition ref_locked : HW RefDB ref_redis :=
  mkHW (mkRefDB (with_rows [ref_locked_row] (db_tables (hw_db ref_first.2))) 200) (∅ : gmap string Z) None.
Definition ref_login (password : string) : Ctx :=
  ref_ctx (Some (JObj [("email", JStr "a@acme.org"); ("password", JStr password)])) ∅ ∅.
Definition ref_found : User * option Organization :=
  match (lookup_user "a@acme.org" (hw_db ref_locked)).1 with Ok x => x | Err _ => (zero_user, None) end.
Lemma ref_found_run : (lookup_user "a@acme.org" (hw_db ref_locked)).1 = Ok (ref_locked_row, ref_found.2).
Proof. vm_refl. Qed.
Lemma ref_locked_tokens : generateTokens ref_config 0 ref_locked_row = Ok (ref_access, ref_token).
Proof. vm_refl. Qed.

(** A second registration for the same domain changes nothing. *)
Definition ref_again : Ctx := ref_ctx (Some (ref_register "c@acme.org" "acme.org")) ∅ ∅.
Definition ref_refused : res (option error) Response * HW RefDB ref_redis :=
  Register ref_config 0 (λ n, N.of_nat n) ref_again ref_first.2.
Lemma ref_refused_run : ref_refused.1 = Ok (mkResponse StatusConflict
  (error_body "Organization domain already exists")).
Proof. vm_refl. Qed.
Lemma ref_refused_split : Register ref_config 0 (λ n, N.of_nat n) ref_again ref_first.2 =
  (Ok (mkResponse StatusConflict (error_body "Organization domain already exists")), ref_refused.2).
Proof. rewrite <- ref_refused_run. unfold ref_refused. apply surjective_pairing. Qed.
Example http_Register_all_or_nothing_witness :
  db_tables (hw_db ref_refused.2) = db_tables (hw_db ref_first.2).
Proof.
  destruct (http_Register_all_or_nothing ref_config 0 (λ n, N.of_nat n) ref_again ref_first.2 ref_refused.2 _
    ref_refused_split) as [[Ht _]|(req & org & user & role & link & Hreq & _ & Hreg & _)]; [exact Ht|].
  exfalso. vm_compute in Hreq. injection Hreq as <-.
  apply (rd_domain _ _ _ _ _ _ Hreg (default zero_organization (head (tb_organizations (db_tables (hw_db ref_first.2))))));
    [vm_compute; left | vm_refl].
Defined.

(** A member of the first organization takes the administrator's role from the
    second one's administrator. *)
Definition ref_member_ctx : Ctx :=
  ref_ctx (Some (JObj [("user_id", JUuid 107); ("role_id", JUuid 108)]))
    (<["user_id" := CUuid 102]> (<["organization_id" := CUuid 101]> ∅)) ∅.
Definition ref_taken : res (option error) Response * HW RefDB ref_redis :=
  handle ref_config 0 (λ n, N.of_nat n) ERevokeUserRole ref_member_ctx ref_second.2.
Lemma ref_taken_run : ref_taken.1 = Ok (mkResponse StatusOK (message_body "Role revoked successfully")).
Proof. vm_refl. Qed.
Lemma ref_second_ok : well_formed (db_tables (hw_db ref_second.2)).
Proof.
  split.
  - unfold constraints. split_and!; (eapply bool_decide_eq_true; vm_compute; reflexivity).
  - unfold all_identified, identified. split_and!; vm_compute; repeat constructor; discriminate.
Qed.

Definition ref_checked : Ctx :=
  ref_ctx (Some (JObj [("user_id", JStr "7"); ("resource", JStr "user"); ("action", JStr "read")])) ∅ ∅.
Definition ref_granting : HW RefDB ref_redis := mkHW ref_db (∅ : gmap string Z) None.
Lemma ref_granting_ok : well_formed (db_tables (hw_db ref_granting)).
Proof. exact ref_tables_ok. Qed.
Lemma ref_http_checked_run : CheckPermission ref_checked ref_granting =
  (Ok (mkResponse StatusOK (JObj [("has_permission", JBool true)])), ref_granting).
Proof. vm_refl. Qed.
Example http_CheckPermission_spec_witness : granted_by_tables ref_tables 7 "user" "read".
Proof.
  destruct (http_CheckPermission_spec ref_checked (mkCheck 7 "user" "read") ref_granting ref_granting _
    ref_granting_ok ltac:(vm_refl) ltac:(discriminate) ref_http_checked_run eq_refl) as (_ & b & Hb & Hspec).
  injection Hb as <-. by apply Hspec.
Defined.
