(* ===== verification/Activity.v ===== *)
(** * Activity logging
    (src/internal/application/services/activity_service.go and
    elasticsearch_activity_service.go, src/internal/elasticsearch,
    src/internal/events/activity_events.go)

    The two services behind the gRPC server's [ActivityServiceInterface]: one
    on the PostgreSQL repository, one on Elasticsearch.  Elasticsearch is a
    parameter, the class [ElasticLib] of its requests; requests and documents
    are JSON trees, and an answer is its HTTP status with a body, [None] where
    that is not JSON.  The floats of an answer are left out.

    A goroutine started by [LogActivity] is recorded in the state
    ([ew_checks]) and runs as a step of its own.  Local time is at a fixed
    offset [zone] from UTC.  The details of an activity are [None] for nil,
    and else what [json.Marshal] makes of the map: its tree, keys in order, or
    an error.  [json_text] is the text of a tree.  A string of a document that
    stands for an instant is a [JTime]. *)

From S2P Require Import Prelude Errors Models Ifaces Database Repos.
From S2P Require Import Events Grpc Http.

#[local] Open Scope Z_scope.

(** ** The calendar (package time) *)

Definition DayLen : Z := 24 * Hour.
(** The date of the day [z] days after 1970-01-01. *)
Definition civil (z : Z) : Z * Z * Z :=
  let z' := z + 719468 in
  let era := z' / 146097 in
  let doe := z' - era * 146097 in
  let yoe := (doe - doe / 1460 + doe / 36524 - doe / 146096) / 365 in
  let doy := doe - (365 * yoe + yoe / 4 - yoe / 100) in
  let mp := (5 * doy + 2) / 153 in
  let d := doy - (153 * mp + 2) / 5 + 1 in
  let m := if (mp <? 10)%Z then mp + 3 else mp - 9 in
  ((yoe + era * 400 + if (m <=? 2)%Z then 1 else 0), m, d).

Section clock.
Context (zone : Z).
Definition wall (t : Z) : Z := t + zone.
Definition Time_Date (t : Z) : Z * Z * Z := civil (wall t / DayLen).
Definition Time_Year (t : Z) : Z := (Time_Date t).1.1.
Definition Time_Month (t : Z) : Z := (Time_Date t).1.2.
Definition Time_Day (t : Z) : Z := (Time_Date t).2.
Definition Time_Hour (t : Z) : Z := (wall t mod DayLen) / Hour.
Definition Time_Minute (t : Z) : Z := (wall t mod Hour) / Minute.
(** [time.Date(now.Year(), now.Month(), now.Day(), 0, 0, 0, 0, now.Location())] *)
Definition midnight (t : Z) : Z := t - wall t mod DayLen.
End clock.

(** [t.Format(time.RFC3339)] has no fraction of a second. *)
Definition rfc3339 (t : Z) : Json := JTime (t - t mod Second).

(** ** The client (client.go) *)

Class JsonText := json_text : Json → string.

(** The requests of github.com/elastic/go-elasticsearch; the body of a bulk
    request is its lines. *)
Class ElasticLib (E : Type) := {
  es_Info : M E Z;
  es_Exists : string → M E Z;
  es_Create : string → Json → M E Z;
  es_Index : string → string → Json → M E Z;
  es_Search : string → Json → M E (Z * option Json);
  es_Bulk : list (option Json) → M E Z;
  es_IsError : Z → bool;
  es_Status : Z → string }.

Record Hit := mkHit { hit_Index : string; hit_ID : string; hit_Source : gmap string Json }.
Record SearchResponse := mkSearch {
  sr_Took : Z; sr_TimedOut : bool; sr_Total : Z; sr_Relation : string; sr_Hits : list Hit;
  sr_Aggregations : gmap string Json }.
Definition zero_search : SearchResponse := mkSearch 0 false 0 "" [] ∅.
(** [BulkDocument]: its source is what [json.Marshal] makes of it. *)
Record BulkDocument := mkBulkDoc { bd_ID : string; bd_Source : option Json }.

(** The members of an object are added to a [map[string]interface{}]. *)
Definition add_members (l : list (string * Json)) (m : gmap string Json) : gmap string Json :=
  foldl (λ m x, <[x.1 := normalize x.2]> m) m l.

Section decoding.
Context `{UuidLib} `{UuidParse}.
Definition dec_object : Json → gmap string Json → option (gmap string Json) := λ j m,
  match j with JNull => Some ∅ | JObj l => Some (add_members l m) | _ => None end.
Definition dec_Hit : Json → Hit → option Hit := dec_struct
  [("_index", at_field dec_str hit_Index (λ x h, mkHit x (hit_ID h) (hit_Source h)));
   ("_id", at_field dec_str hit_ID (λ x h, mkHit (hit_Index h) x (hit_Source h)));
   ("_source", at_field dec_object hit_Source (λ x h, mkHit (hit_Index h) (hit_ID h) x))].
Definition dec_SearchResponse : Json → SearchResponse → option SearchResponse := dec_struct
  [("took", at_field dec_int sr_Took (λ x '(mkSearch _ o t r h a), mkSearch x o t r h a));
   ("timed_out", at_field dec_bool sr_TimedOut (λ x '(mkSearch k _ t r h a), mkSearch k x t r h a));
   ("hits", dec_struct
      [("total", dec_struct
          [("value", at_field dec_int sr_Total (λ x '(mkSearch k o _ r h a), mkSearch k o x r h a));
           ("relation", at_field dec_str sr_Relation
              (λ x '(mkSearch k o t _ h a), mkSearch k o t x h a))]);
       ("hits", at_field (dec_list (mkHit "" "" ∅) dec_Hit) sr_Hits
          (λ x '(mkSearch k o t r _ a), mkSearch k o t r x a))]);
   ("aggregations", at_field dec_object sr_Aggregations
      (λ x '(mkSearch k o t r h _), mkSearch k o t r h x))].
End decoding.

Section client.
Context {E : Type} `{ElasticLib E} `{UuidLib} `{UuidParse}.

(** A status the client refuses. *)
Definition check_status (msg : string) (st : Z) : M E unit :=
  if es_IsError st then fail (ErrorString (msg +:+ es_Status st)) else ret tt.

Definition ping : M E unit :=
  let* res := es_Info in check_status "elasticsearch ping failed: " res.
(** [created]: what [elasticsearch.NewClient] answers. *)
Definition NewClient (created : res error E) : res error E :=
  match created with
  | Err err => Err (ErrorWrap "failed to create Elasticsearch client" err)
  | Ok es =>
      match ping es with
      | (Err err, _) => Err (ErrorWrap "failed to connect to Elasticsearch" err)
      | (Ok _, es') => Ok es'
      end
  end.

(** [document]: what [json.Marshal] makes of it. *)
Definition IndexDocument (index docID : string) (document : res error Json) : M E unit :=
  match document with
  | Err err => fail (ErrorWrap "failed to marshal document" err)
  | Ok docBytes =>
      let* res := wrap_err (ErrorWrap "failed to index document") (es_Index index docID docBytes) in
      check_status "elasticsearch indexing failed: " res
  end.

Definition decode_error : error := ErrorString "json: cannot decode".
Definition SearchDocuments (index : string) (query : Json) : M E SearchResponse :=
  let* res := wrap_err (ErrorWrap "failed to search documents") (es_Search index query) in
  check_status "elasticsearch search failed: " res.1 ;;;
  match res.2 ≫= λ body, dec_SearchResponse body zero_search with
  | None => fail (ErrorWrap "failed to decode search response" decode_error)
  | Some searchResponse => ret searchResponse
  end.

Definition CreateIndex (index : string) (mapping : Json) : M E unit :=
  let* res := wrap_err (ErrorWrap "failed to check index existence") (es_Exists index) in
  if (res =? 200)%Z then ret tt
  else
    let* createRes := wrap_err (ErrorWrap "failed to create index") (es_Create index mapping) in
    check_status "elasticsearch index creation failed: " createRes.

(** Errors of [json.Marshal] leave an empty line. *)
Definition bulk_lines (index : string) (doc : BulkDocument) : list (option Json) :=
  [Some (JObj [("index", JObj [("_id", JStr (bd_ID doc)); ("_index", JStr index)])]); bd_Source doc].
Definition BulkIndex (index : string) (documents : list BulkDocument) : M E unit :=
  match documents with
  | [] => ret tt
  | _ =>
      let* res := wrap_err (ErrorWrap "failed to perform bulk index")
                    (es_Bulk (concat (bulk_lines index <$> documents))) in
      check_status "elasticsearch bulk indexing failed: " res
  end.
End client.

(** ** Actions and resources (models/user_activity.go) *)

Abbreviation ActionLogin := ActivityRepo.ActionLogin.
Abbreviation ActionLoginFailed := ActivityRepo.ActionLoginFailed.
Definition ActionLogout : string := "logout".
Definition ActionPasswordChanged : string := "password_changed".
Definition ActionProfileUpdated : string := "profile_updated".
Definition ActionUserCreated : string := "user_created".
Definition ActionUserUpdated : string := "user_updated".
Definition ActionUserDeleted : string := "user_deleted".
Definition ResourceUser : string := "user".
Definition ResourceAuth : string := "auth".
Definition ResourceProfile : string := "profile".

(** ** Documents (activity_document.go) *)

(** A map of details. *)
Abbreviation Details := (option (res error Json)).

Record ActivityDocument := mkActivityDocument {
  ad_ID : string; ad_UserID : string; ad_OrganizationID : string; ad_Action : string;
  ad_Resource : string; ad_Details : Details; ad_IPAddress : string; ad_UserAgent : string;
  ad_Timestamp : Z; ad_CreatedAt : Z;
  ad_UserEmail : string; ad_UserFirstName : string; ad_UserLastName : string;
  ad_UserFullName : string; ad_OrgName : string; ad_OrgDomain : string;
  ad_SessionID : string; ad_RequestID : string;
  ad_ActionCategory : string; ad_Severity : string; ad_IsSecurityEvent : bool;
  ad_Year : Z; ad_Month : Z; ad_Day : Z; ad_Hour : Z; ad_Minute : Z }.

Definition categorizeAction (action : string) : string :=
  let a := String.eqb action in
  if a ActionLogin || a ActionLogout then "authentication"
  else if a ActionLoginFailed then "security"
  else if a ActionUserCreated || a ActionUserUpdated || a ActionUserDeleted then "user_management"
  else if a ActionPasswordChanged then "security"
  else if a ActionProfileUpdated then "profile"
  else "general".

Definition determineSeverity (action : string) : string :=
  let a := String.eqb action in
  if a ActionLoginFailed then "high"
  else if a ActionUserDeleted || a ActionPasswordChanged then "medium"
  else if a ActionLogin || a ActionLogout then "low"
  else if a ActionUserCreated || a ActionUserUpdated then "medium"
  else if a ActionProfileUpdated then "low"
  else "low".

Definition isSecurityEvent (action : string) : bool :=
  existsb (String.eqb action) [ActionLoginFailed; ActionPasswordChanged; ActionUserDeleted].

Section document.
Context `{UuidLib} (zone : Z).

(** [activity] with its association [User], a zero user where it was not
    loaded. *)
Definition NewActivityDocument (activity : UserActivity) (user : User) : ActivityDocument :=
  let known := negb (u_ID user =? uuid_Nil)%N in
  let given (s : string) := if known then s else "" in
  let t := ua_CreatedAt activity in
  mkActivityDocument (uuid_String (ua_ID activity)) (uuid_String (ua_UserID activity))
    (uuid_String (ua_OrganizationID activity)) (ua_Action activity) (ua_Resource activity)
    (if String.eqb (ua_Details activity) "" then None
     else Some (Ok (JObj [("raw", JStr (ua_Details activity))])))
    (ua_IPAddress activity) (ua_UserAgent activity) t t
    (given (u_Email user)) (given (u_FirstName user)) (given (u_LastName user))
    (given (u_FirstName user +:+ " " +:+ u_LastName user)) "" "" "" ""
    (categorizeAction (ua_Action activity)) (determineSeverity (ua_Action activity))
    (isSecurityEvent (ua_Action activity))
    (Time_Year zone t) (Time_Month zone t) (Time_Day zone t) (Time_Hour zone t) (Time_Minute zone t).
End document.

Definition set_Details (details : Details) (d : ActivityDocument) : ActivityDocument :=
  let '(mkActivityDocument i u o a r _ ip ag t c e f l n on od se rq ca sv s y mo dy h mi) := d in
  mkActivityDocument i u o a r details ip ag t c e f l n on od se rq ca sv s y mo dy h mi.

(** [json.Marshal(doc)], given the JSON of the details. *)
Definition document_members (d : ActivityDocument) (details : Json) : list (string * Json) :=
  [("id", JStr (ad_ID d)); ("user_id", JStr (ad_UserID d));
   ("organization_id", JStr (ad_OrganizationID d)); ("action", JStr (ad_Action d));
   ("resource", JStr (ad_Resource d)); ("details", details);
   ("ip_address", JStr (ad_IPAddress d)); ("user_agent", JStr (ad_UserAgent d));
   ("timestamp", JTime (ad_Timestamp d)); ("created_at", JTime (ad_CreatedAt d))]
  ++ omit_str "user_email" (ad_UserEmail d) ++ omit_str "user_first_name" (ad_UserFirstName d)
  ++ omit_str "user_last_name" (ad_UserLastName d) ++ omit_str "user_full_name" (ad_UserFullName d)
  ++ omit_str "org_name" (ad_OrgName d) ++ omit_str "org_domain" (ad_OrgDomain d)
  ++ omit_str "session_id" (ad_SessionID d) ++ omit_str "request_id" (ad_RequestID d)
  ++ [("action_category", JStr (ad_ActionCategory d)); ("severity", JStr (ad_Severity d));
      ("is_security_event", JBool (ad_IsSecurityEvent d)); ("year", JInt (ad_Year d));
      ("month", JInt (ad_Month d)); ("day", JInt (ad_Day d)); ("hour", JInt (ad_Hour d));
      ("minute", JInt (ad_Minute d))].
Definition ActivityDocument_json (d : ActivityDocument) : res error Json :=
  res_map (λ details, JObj (document_members d details))
    (match ad_Details d with None => Ok JNull | Some r => r end).

(** The mapping of an index, keys in order. *)
Definition of_type (t : string) : Json := JObj [("type", JStr t)].
Definition GetActivityIndexMapping : Json :=
  JObj [("mappings", JObj [("properties", JObj
          [("action", of_type "keyword"); ("action_category", of_type "keyword");
           ("created_at", of_type "date"); ("day", of_type "integer");
           ("details", JObj [("enabled", JBool true); ("type", JStr "object")]);
           ("hour", of_type "integer"); ("id", of_type "keyword"); ("ip_address", of_type "ip");
           ("is_security_event", of_type "boolean"); ("minute", of_type "integer");
           ("month", of_type "integer"); ("org_domain", of_type "keyword");
           ("org_name", of_type "text"); ("organization_id", of_type "keyword");
           ("request_id", of_type "keyword"); ("resource", of_type "keyword");
           ("session_id", of_type "keyword"); ("severity", of_type "keyword");
           ("timestamp", of_type "date");
           ("user_agent", JObj [("fields", JObj [("keyword", of_type "keyword")]);
                                ("type", JStr "text")]);
           ("user_email", of_type "keyword"); ("user_first_name", of_type "text");
           ("user_full_name", of_type "text"); ("user_id", of_type "keyword");
           ("user_last_name", of_type "text"); ("year", of_type "integer")])]);
        ("settings", JObj [("number_of_replicas", JInt 0); ("number_of_shards", JInt 1);
                           ("refresh_interval", JStr "1s")])].

(** ** Queries *)

Definition term_clause (f : string) (v : Json) : Json := JObj [("term", JObj [(f, v)])].
Definition since_clause (bound : Json) : Json :=
  JObj [("range", JObj [("timestamp", JObj [("gte", bound)])])].
(** [{"query": {"bool": {"must": clauses}}, rest...}]: the members before
    and after "query" in the order of their keys. *)
Definition must_query (before : list (string * Json)) (clauses : list Json)
    (after : list (string * Json)) : Json :=
  JObj (before ++ [("query", JObj [("bool", JObj [("must", JArr clauses)])])] ++ after).
Definition newest_first : Json := JArr [JObj [("timestamp", JObj [("order", JStr "desc")])]].

Section queries.
Context `{UuidLib}.
(** The filter on an identifier that may be nil. *)
Definition id_clause (f : string) (o : option N) : list Json :=
  match o with Some i => [term_clause f (JStr (uuid_String i))] | None => [] end.

Definition buildActivityQuery (userID organizationID : option N) (limit offset : Z) : Json :=
  must_query [("from", JInt offset)]
    (id_clause "organization_id" organizationID ++ id_clause "user_id" userID)
    [("size", JInt limit); ("sort", newest_first)].
Definition security_events_query (organizationID : option N) (limit : Z) : Json :=
  must_query []
    ([term_clause "is_security_event" (JBool true); since_clause (JStr "now-24h")]
     ++ id_clause "organization_id" organizationID)
    [("size", JInt limit); ("sort", newest_first)].
Definition failed_login_query (doc : ActivityDocument) : Json :=
  must_query []
    ([term_clause "action" (JStr ActionLoginFailed);
      term_clause "ip_address" (JStr (ad_IPAddress doc)); since_clause (JStr "now-1h")]
     ++ (if String.eqb (ad_OrganizationID doc) "" then []
         else [term_clause "organization_id" (JStr (ad_OrganizationID doc))]))
    [("size", JInt 0)].
Definition buildSecurityStatsQuery (organizationID : N) (action : string) (since : Z) : Json :=
  must_query []
    [term_clause "organization_id" (JStr (uuid_String organizationID));
     term_clause "action" (JStr action); since_clause (rfc3339 since)]
    [("size", JInt 0)].
Definition buildSecurityEventsStatsQuery (organizationID : N) (since : Z) : Json :=
  must_query []
    [term_clause "organization_id" (JStr (uuid_String organizationID));
     term_clause "is_security_event" (JBool true); since_clause (rfc3339 since)]
    [("size", JInt 0)].
End queries.

(** ** Hits (elasticsearch_activity_service.go) *)

Section hits.
Context `{UuidLib} `{UuidParse} `{JsonText}.

Definition as_string (o : option Json) : option string :=
  match o with Some (JStr s) => Some s | Some (JUuid u) => Some (uuid_String u) | _ => None end.
Definition as_uuid (o : option Json) : N :=
  match as_string o with
  | Some s => match uuid_Parse s with Ok i => i | Err _ => uuid_Nil end
  | None => uuid_Nil
  end.
Definition as_time (o : option Json) : Z :=
  match o with Some (JTime t) => t | _ => zero_time end.

(** The activity of a hit, with the user made up from the enriched fields
    under a fresh identifier. *)
Definition convertHitToActivity (fresh : N) (source : gmap string Json) : UserActivity * option User :=
  let text k := default "" (as_string (source !! k)) in
  (mkUserActivity (as_uuid (source !! "id")) (as_uuid (source !! "user_id"))
     (as_uuid (source !! "organization_id")) (text "action") (text "resource")
     (match source !! "details" with Some details => json_text details | None => "" end)
     (text "ip_address") (text "user_agent") (as_time (source !! "timestamp")) zero_time,
   userEmail ← as_string (source !! "user_email");
   Some (mkUser fresh uuid_Nil userEmail "" (text "user_first_name") (text "user_last_name")
           false false None None false "" [] 0 None zero_time zero_time "" "")).

Record SecurityEvent := mkSecurityEvent {
  se_ID : string; se_Type : string; se_Severity : string; se_Message : string;
  se_IPAddress : string; se_UserAgent : string; se_UserEmail : string; se_Timestamp : Z;
  se_Details : option (list (string * Json)); se_Count : Z }.

Definition generateSecurityEventMessage (type userEmail ipAddress : string) : string :=
  if String.eqb type ActionLoginFailed then
    if String.eqb userEmail "" then "Failed login attempt from IP " +:+ ipAddress
    else "Failed login attempt for user " +:+ userEmail +:+ " from IP " +:+ ipAddress
  else if String.eqb type ActionPasswordChanged then
    "Password changed for user " +:+ userEmail +:+ " from IP " +:+ ipAddress
  else if String.eqb type ActionUserDeleted then
    "User account deleted: " +:+ userEmail +:+ " from IP " +:+ ipAddress
  else "Security event: " +:+ type +:+ " from IP " +:+ ipAddress.

Definition convertHitToSecurityEvent (source : gmap string Json) : SecurityEvent :=
  let text k := default "" (as_string (source !! k)) in
  mkSecurityEvent (text "id") (text "action") (text "severity")
    (generateSecurityEventMessage (text "action") (text "user_email") (text "ip_address"))
    (text "ip_address") (text "user_agent") (text "user_email") (as_time (source !! "timestamp"))
    (match source !! "details" with Some (JObj l) => Some l | _ => None end) 1.
End hits.

(** ** Details of the logged activities *)

Definition login_details (now : Z) : Details :=
  Some (Ok (JObj [("success", JBool true); ("timestamp", JTime now)])).
Definition failed_login_details (now : Z) (email : string) : Details :=
  Some (Ok (JObj [("email", JStr email); ("success", JBool false); ("timestamp", JTime now)])).
Definition time_details (now : Z) : Details := Some (Ok (JObj [("timestamp", JTime now)])).
(** A member given by a map of its own. *)
Definition with_changes (changes : Details) (members : Json → list (string * Json)) : Details :=
  Some (res_map (λ c, JObj (members c)) (match changes with None => Ok JNull | Some r => r end)).

(** ** The service on Elasticsearch *)

Class RedisPublish (R : Type) := redis_Publish : string → Json → M R unit.

(** [ew_redis] is [None] for a nil client; [ew_checks]: the documents whose
    [checkSecurityPatterns] goroutine has not run yet. *)
Record ESW (E R : Type) := mkESW {
  ew_es : E; ew_redis : option R; ew_checks : list ActivityDocument }.
Arguments mkESW {E R}. Arguments ew_es {E R}. Arguments ew_redis {E R}. Arguments ew_checks {E R}.

Module Elastic.
Section service.
Context {E R : Type} `{ElasticLib E} `{RedisPublish R} `{UuidLib} `{UuidParse} `{JsonText}.
Context (zone : Z).
Abbreviation W := (ESW E R).

Definition on_es {A} (m : M E A) : M W A :=
  zoom ew_es (λ e w, mkESW e (ew_redis w) (ew_checks w)) m.

Definition indexPrefix : string := "user-activities".
Definition pad2 (z : Z) : string := if (z <? 10)%Z then "0" +:+ Itoa z else Itoa z.
Definition getCurrentIndexName (now : Z) : string :=
  indexPrefix +:+ "-" +:+ Itoa (Time_Year zone now) +:+ "-" +:+ pad2 (Time_Month zone now).
Definition index_pattern : string := indexPrefix +:+ "-*".

Definition initializeIndices (now : Z) : M E unit :=
  wrap_err (ErrorWrap "failed to create activity index")
    (CreateIndex (getCurrentIndexName now) GetActivityIndexMapping).
(** An error of [initializeIndices] is logged. *)
Definition NewElasticsearchActivityService (now : Z) (es : E) : W :=
  mkESW (initializeIndices now es).2 None [].
Definition WithRedis (client : option R) (w : W) : W := mkESW (ew_es w) client (ew_checks w).

Definition start_check (doc : ActivityDocument) (w : W) : W :=
  mkESW (ew_es w) (ew_redis w) (ew_checks w ++ [doc]).

Definition activity_document (now : Z) (id userID organizationID : N) (action resource : string)
    (details : Details) (ipAddress userAgent : string) : ActivityDocument :=
  let activity := mkUserActivity id userID organizationID action resource
    (match details with Some (Ok detailsJSON) => json_text detailsJSON | _ => "" end)
    ipAddress userAgent now zero_time in
  let doc := NewActivityDocument zone activity zero_user in
  match details with Some _ => set_Details details doc | None => doc end.

Definition LogActivity (now : Z) (id userID organizationID : N) (action resource : string)
    (details : Details) (ipAddress userAgent : string) : M W unit :=
  let doc := activity_document now id userID organizationID action resource details ipAddress userAgent in
  wrap_err (ErrorWrap "failed to log activity")
    (on_es (IndexDocument (getCurrentIndexName now) (ad_ID doc) (ActivityDocument_json doc))) ;;;
  if ad_IsSecurityEvent doc then modify (start_check doc) else ret tt.

Definition LogLogin (now : Z) (id userID organizationID : N) (ipAddress userAgent : string) : M W unit :=
  LogActivity now id userID organizationID ActionLogin ResourceAuth (login_details now) ipAddress userAgent.
Definition LogLoginFailed (now : Z) (id : N) (email ipAddress userAgent : string)
    (organizationID : N) : M W unit :=
  LogActivity now id uuid_Nil organizationID ActionLoginFailed ResourceAuth
    (failed_login_details now email) ipAddress userAgent.
Definition LogLogout (now : Z) (id userID organizationID : N) (ipAddress userAgent : string) : M W unit :=
  LogActivity now id userID organizationID ActionLogout ResourceAuth (time_details now) ipAddress userAgent.
Definition CleanupOldActivities (olderThan : Z) : M W unit := ret tt.

(** An error of the search reaches the caller wrapped. *)
Definition search {A} (query : Json) (k : SearchResponse → A) (msg : string) : M W A :=
  let* searchResp := wrap_err (ErrorWrap msg) (on_es (SearchDocuments index_pattern query)) in
  ret (k searchResp).

(** [fresh i]: the identifier made for the user of the [i]-th hit. *)
Definition GetUserActivities (fresh : nat → N) (userID organizationID : option N) (limit offset : Z)
    : M W (list (UserActivity * option User) * Z) :=
  search (buildActivityQuery userID organizationID limit offset)
    (λ resp, (imap (λ i hit, convertHitToActivity (fresh i) (hit_Source hit)) (sr_Hits resp), sr_Total resp))
    "failed to search activities".
Definition GetSecurityEvents (organizationID : option N) (limit : Z) : M W (list SecurityEvent) :=
  search (security_events_query organizationID limit)
    (λ resp, (λ hit, convertHitToSecurityEvent (hit_Source hit)) <$> sr_Hits resp)
    "failed to search security events".

(** The total of a search, 0 when it fails. *)
Definition total_or_zero (query : Json) : M W Z :=
  let* r := attempt (E:=error) (F:=error) (on_es (SearchDocuments index_pattern query)) in
  ret (match r with Ok resp => sr_Total resp | Err _ => 0 end).
Definition GetSecurityStats (now : Z) (organizationID : N) : M W (gmap string Z) :=
  let today := midnight zone now in
  let* failedLogins := total_or_zero (buildSecurityStatsQuery organizationID ActionLoginFailed today) in
  let* recentLogins := total_or_zero (buildSecurityStatsQuery organizationID ActionLogin (now - 24 * Hour)) in
  let* securityEvents := total_or_zero (buildSecurityEventsStatsQuery organizationID today) in
  ret (<["security_alerts" := securityEvents]>
        (<["recent_logins" := recentLogins]> {["failed_logins_today" := failedLogins]})).

(** Publishing; its error is logged. *)
Definition security_message (now : Z) (message_id : N) (eventType : string) (data : Json) : Json :=
  JObj [("channel", JStr ("security:" +:+ eventType)); ("data", data);
        ("message_id", JStr (uuid_String message_id)); ("timestamp", rfc3339 now); ("type", JStr "event")].
Definition publishWebSocketEvent (now : Z) (message_id : N) (eventType : string) (data : Json) : M W unit :=
  λ w, match ew_redis w with
       | None => (Ok tt, w)
       | Some r =>
           let payload := security_message now message_id eventType data in
           (Ok tt, mkESW (ew_es w) (Some (redis_Publish ("events:security:" +:+ eventType) payload r).2)
                     (ew_checks w))
       end.

Definition alert_data (now : Z) (failedAttempts : Z) (doc : ActivityDocument) : Json :=
  JObj [("attempts", JInt failedAttempts); ("ip_address", JStr (ad_IPAddress doc));
        ("org_id", JStr (ad_OrganizationID doc)); ("timestamp", rfc3339 now);
        ("type", JStr "failed_login_threshold")].
Definition checkFailedLoginPattern (now : Z) (message_id : N) (doc : ActivityDocument) : M W unit :=
  let* searchResp := attempt (E:=error) (F:=error)
                       (on_es (SearchDocuments index_pattern (failed_login_query doc))) in
  match searchResp with
  | Err _ => ret tt
  | Ok resp =>
      if (5 <=? sr_Total resp)%Z then
        publishWebSocketEvent now message_id "failed_login" (alert_data now (sr_Total resp) doc)
      else ret tt
  end.
Definition checkSecurityPatterns (now : Z) (message_id : N) (doc : ActivityDocument) : M W unit :=
  if String.eqb (ad_Action doc) ActionLoginFailed then checkFailedLoginPattern now message_id doc
  else ret tt.
(** The goroutine of the [i]-th document waiting runs. *)
Definition run_check (i : nat) (now : Z) (message_id : N) : M W unit :=
  λ w, match ew_checks w !! i with
       | None => (Ok tt, w)
       | Some doc => checkSecurityPatterns now message_id doc
                       (mkESW (ew_es w) (ew_redis w) (delete i (ew_checks w)))
       end.
End service.
End Elastic.

(** ** The service on PostgreSQL (activity_service.go) *)

Module Postgres.
Section service.
Context {D : Type} `{Gorm D} `{UuidLib} `{JsonText}.
Context (zone : Z).

Definition LogActivity (userID organizationID : N) (action resource : string) (details : Details)
    (ipAddress userAgent : string) : M D unit :=
  ActivityRepo.LogActivity userID organizationID action resource (res_map json_text <$> details)
    ipAddress userAgent.
Definition GetUserActivities (userID organizationID : option N) (limit offset : Z)
    : M D (list (UserActivity * option User) * Z) :=
  ActivityRepo.GetUserActivities userID organizationID limit offset.
Definition GetActivityStats (organizationID : N) (since : Z) : M D (gmap string Z) :=
  ActivityRepo.GetActivityStats organizationID since.

Definition LogLogin (now : Z) (userID organizationID : N) (ipAddress userAgent : string) : M D unit :=
  LogActivity userID organizationID ActionLogin ResourceAuth (login_details now) ipAddress userAgent.
Definition LogLoginFailed (now : Z) (email ipAddress userAgent : string) (organizationID : N) : M D unit :=
  LogActivity uuid_Nil organizationID ActionLoginFailed ResourceAuth (failed_login_details now email)
    ipAddress userAgent.
Definition LogLogout (now : Z) (userID organizationID : N) (ipAddress userAgent : string) : M D unit :=
  LogActivity userID organizationID ActionLogout ResourceAuth (time_details now) ipAddress userAgent.
Definition LogUserCreated (now : Z) (creatorID newUserID organizationID : N) (ipAddress userAgent : string)
    : M D unit :=
  LogActivity creatorID organizationID ActionUserCreated ResourceUser
    (Some (Ok (JObj [("new_user_id", JStr (uuid_String newUserID)); ("timestamp", JTime now)])))
    ipAddress userAgent.
Definition LogUserUpdated (now : Z) (updaterID targetUserID organizationID : N) (changes : Details)
    (ipAddress userAgent : string) : M D unit :=
  LogActivity updaterID organizationID ActionUserUpdated ResourceUser
    (with_changes changes (λ c, [("changes", c); ("target_user_id", JStr (uuid_String targetUserID));
                                 ("timestamp", JTime now)])) ipAddress userAgent.
Definition LogUserDeleted (now : Z) (deleterID deletedUserID organizationID : N)
    (ipAddress userAgent : string) : M D unit :=
  LogActivity deleterID organizationID ActionUserDeleted ResourceUser
    (Some (Ok (JObj [("deleted_user_id", JStr (uuid_String deletedUserID)); ("timestamp", JTime now)])))
    ipAddress userAgent.
Definition LogPasswordChanged (now : Z) (userID organizationID : N) (ipAddress userAgent : string)
    : M D unit :=
  LogActivity userID organizationID ActionPasswordChanged ResourceProfile (time_details now)
    ipAddress userAgent.
Definition LogProfileUpdated (now : Z) (userID organizationID : N) (changes : Details)
    (ipAddress userAgent : string) : M D unit :=
  LogActivity userID organizationID ActionProfileUpdated ResourceProfile
    (with_changes changes (λ c, [("changes", c); ("timestamp", JTime now)])) ipAddress userAgent.
Definition CleanupOldActivities (now olderThan : Z) : M D unit :=
  ActivityRepo.DeleteOldActivities now olderThan.

Definition count_or_zero (m : M D Z) : M D Z :=
  let* r := attempt (E:=error) (F:=error) m in
  ret (match r with Ok n => n | Err _ => 0 end).
Definition GetSecurityStats (now : Z) (organizationID : N) : M D (gmap string Z) :=
  let today := midnight zone now in
  let* failedLogins := count_or_zero (ActivityRepo.GetFailedLoginCount organizationID today) in
  let* recentLogins := count_or_zero (ActivityRepo.GetRecentLoginCount organizationID (now - 24 * Hour)) in
  ret (<["recent_logins" := recentLogins]> {["failed_logins_today" := failedLogins]}).
End service.
End Postgres.

(** ** The interface of the gRPC server (server.go)

    A call is given the clock reading and the identifiers it may need. *)

Class ActivityServiceInterface (A : Type) := {
  as_LogActivity : Z → N → N → N → string → string → Details → string → string → M A unit;
  as_GetUserActivities : (nat → N) → option N → option N → Z → Z →
    M A (list (UserActivity * option User) * Z);
  as_GetSecurityStats : Z → N → M A (gmap string Z);
  as_LogLogin : Z → N → N → N → string → string → M A unit;
  as_LogLoginFailed : Z → N → string → string → string → N → M A unit;
  as_LogLogout : Z → N → N → N → string → string → M A unit }.

Definition postgres_service {D} `{Gorm D} `{UuidLib} `{JsonText} (zone : Z) : ActivityServiceInterface D := {|
  as_LogActivity _ _ := Postgres.LogActivity;
  as_GetUserActivities _ := Postgres.GetUserActivities;
  as_GetSecurityStats := Postgres.GetSecurityStats zone;
  as_LogLogin now _ := Postgres.LogLogin now;
  as_LogLoginFailed now _ := Postgres.LogLoginFailed now;
  as_LogLogout now _ := Postgres.LogLogout now |}.

Definition elastic_service {E R} `{ElasticLib E} `{RedisPublish R} `{UuidLib} `{UuidParse} `{JsonText}
    (zone : Z) : ActivityServiceInterface (ESW E R) := {|
  as_LogActivity := Elastic.LogActivity zone;
  as_GetUserActivities := Elastic.GetUserActivities;
  as_GetSecurityStats := Elastic.GetSecurityStats zone;
  as_LogLogin := Elastic.LogLogin zone;
  as_LogLoginFailed := Elastic.LogLoginFailed zone;
  as_LogLogout := Elastic.LogLogout zone |}.

(** The choice made by [NewAuthGRPCServer]: [created] is the answer of
    [elasticsearch.NewClient], asked for when [enabled]. *)
Definition activity_service {D E R} `{ElasticLib E} `{UuidLib} `{UuidParse} (zone now : Z)
    (enabled : bool) (created : res error E) (db : D) (redisClient : option R) : D + ESW E R :=
  if enabled then
    match NewClient created with
    | Err _ => inl db
    | Ok esClient =>
        inr (Elastic.WithRedis redisClient (Elastic.NewElasticsearchActivityService zone now esClient))
    end
  else inl db.

(** What Grpc.v records is one of these calls, its error ignored. *)
Definition call_of {A} `{ActivityServiceInterface A} (now : Z) (id : N) (call : Grpc.Activity) : M A unit :=
  match call with
  | LogLogin userID organizationID ip agent => as_LogLogin now id userID organizationID ip agent
  | LogLoginFailed email ip agent organizationID => as_LogLoginFailed now id email ip agent organizationID
  end.

(** ** The handlers of the gRPC server (server.go) *)

Record PbSecurityStats := mkPbSecurityStats {
  psy_FailedLoginsToday : Z; psy_SecurityAlerts : Z; psy_TwoFactorEnabled : Z;
  psy_PasswordResetsToday : Z }.
Record PbUserActivity := mkPbUserActivity {
  pua_Id : string; pua_UserId : string; pua_Action : string; pua_Resource : string;
  pua_Details : string; pua_IpAddress : string; pua_UserAgent : string; pua_CreatedAt : Z;
  pua_User : option (string * string * string * string) }.   (** id, first name, last name, email *)
Record PbGetUserActivityRequest := mkPbGetUserActivityRequest {
  pga_OrganizationId : string; pga_UserId : string; pga_Limit : Z; pga_Offset : Z }.
Record PbGetUserActivityResponse := mkPbGetUserActivityResponse {
  pgr_Success : bool; pgr_Activities : list PbUserActivity; pgr_TotalCount : Z; pgr_Error : string }.
Record PbGetSecurityStatsResponse := mkPbGetSecurityStatsResponse {
  pgs_Success : bool; pgs_Stats : option PbSecurityStats; pgs_Error : string }.

Section handlers.
Context {A : Type} `{ActivityServiceInterface A} `{UuidLib} `{UuidParse}.
Abbreviation MF := (GoM (option error)).
(** The field [activityService]: [None] for a nil interface, on which a call
    panics. *)
Abbreviation S := (option A).
Definition call {X} (m : M A X) : MF S (res error X) := λ s,
  match s with
  | Some a => let (r, a') := m a in (Ok r, Some a')
  | None => (Err None, None)
  end.

Definition stats_of (m : gmap string Z) : PbSecurityStats :=
  let stat k := wrap32 (default 0 (m !! k)) in
  mkPbSecurityStats (stat "failed_logins_today") (stat "security_alerts") (stat "two_factor_enabled")
    (stat "password_resets_today").
Definition GetSecurityStats (now : Z) (OrganizationId : string) : MF S PbGetSecurityStatsResponse :=
  if String.eqb OrganizationId "" then
    ret (mkPbGetSecurityStatsResponse false None "Organization ID is required")
  else match uuid_Parse OrganizationId with
  | Err _ => ret (mkPbGetSecurityStatsResponse false None "Invalid organization ID format")
  | Ok orgID =>
      let* nonnil := gets (λ s : S, match s with Some _ => true | None => false end) in
      let* stats := (if nonnil then
                       let* m := call (as_GetSecurityStats now orgID) in
                       ret (match m with Err _ => stats_of ∅ | Ok m => stats_of m end)
                     else ret (stats_of ∅)) in
      ret (mkPbGetSecurityStatsResponse true (Some stats) "")
  end.

(** An identifier that may be left out. *)
Definition parse_filter (text : string) : res error (option N) :=
  if String.eqb text "" then Ok None else res_map Some (uuid_Parse text).
Definition page_limit (Limit : Z) : Z := if (Limit <=? 0)%Z || (100 <? Limit)%Z then 20 else Limit.
Definition page_offset (Offset : Z) : Z := if (Offset <? 0)%Z then 0 else Offset.

Definition convert_activity (x : UserActivity * option User) : PbUserActivity :=
  let (a, user) := x in
  mkPbUserActivity (uuid_String (ua_ID a)) (uuid_String (ua_UserID a)) (ua_Action a) (ua_Resource a)
    (ua_Details a) (ua_IPAddress a) (ua_UserAgent a) (ua_CreatedAt a)
    (u ← user;
     if (u_ID u =? uuid_Nil)%N then None
     else Some (uuid_String (u_ID u), u_FirstName u, u_LastName u, u_Email u)).

Definition activity_failure (msg : string) : PbGetUserActivityResponse :=
  mkPbGetUserActivityResponse false [] 0 msg.
Definition GetUserActivity (fresh : nat → N) (req : PbGetUserActivityRequest)
    : MF S PbGetUserActivityResponse :=
  match parse_filter (pga_OrganizationId req) with
  | Err _ => ret (activity_failure "Invalid organization ID format")
  | Ok orgID =>
  match parse_filter (pga_UserId req) with
  | Err _ => ret (activity_failure "Invalid user ID format")
  | Ok userID =>
      let* r := call (as_GetUserActivities fresh userID orgID (page_limit (pga_Limit req))
                        (page_offset (pga_Offset req))) in
      match r with
      | Err _ => ret (activity_failure "Failed to retrieve user activities")
      | Ok (activities, total) =>
          ret (mkPbGetUserActivityResponse true (convert_activity <$> activities) (wrap32 total) "")
      end
  end
  end.
End handlers.

(** ** Activity events (activity_events.go) *)

Definition EventTypeUserActivity : string := "user.activity".
Record UserActivityData := mkUserActivityData {
  uad_ActivityID : N; uad_UserID : N; uad_OrganizationID : N; uad_Action : string;
  uad_Resource : string; uad_Details : Details; uad_IPAddress : string; uad_UserAgent : string;
  uad_Timestamp : Z; uad_SessionID : string; uad_RequestID : string; uad_UserEmail : string;
  uad_UserName : string; uad_OrgName : string; uad_OrgDomain : string }.
Definition NewUserActivityEvent (id : N) (now : Z) (activityID userID organizationID : N)
    (action resource : string) (details : Details) (ipAddress userAgent : string)
    : TypedEvent UserActivityData :=
  mkTyped (envelope id now userID organizationID ipAddress userAgent EventTypeUserActivity DNil)
    (mkUserActivityData activityID userID organizationID action resource details ipAddress userAgent
       now "" "" "" "" "" "").
Definition WithUserContext (email firstName lastName : string) (e : TypedEvent UserActivityData)
    : TypedEvent UserActivityData :=
  let '(mkUserActivityData i u o a r d ip ag t se rq _ _ n od) := te_Data _ e in
  mkTyped (te_BaseEvent e)
    (mkUserActivityData i u o a r d ip ag t se rq email (firstName +:+ " " +:+ lastName) n od).
Definition WithOrganizationContext (orgName orgDomain : string) (e : TypedEvent UserActivityData)
    : TypedEvent UserActivityData :=
  let '(mkUserActivityData i u o a r d ip ag t se rq em nm _ _) := te_Data _ e in
  mkTyped (te_BaseEvent e) (mkUserActivityData i u o a r d ip ag t se rq em nm orgName orgDomain).
Definition WithSessionContext (sessionID requestID : string) (e : TypedEvent UserActivityData)
    : TypedEvent UserActivityData :=
  let '(mkUserActivityData i u o a r d ip ag t _ _ em nm n od) := te_Data _ e in
  mkTyped (te_BaseEvent e) (mkUserActivityData i u o a r d ip ag t sessionID requestID em nm n od).
