(* ===== verification/ActivityProps.v ===== *)
(** * What activity logging guarantees

    The documented behaviour of Elasticsearch on the requests of Activity.v
    ([ElasticLaws]), what the gRPC server needs of an activity service
    ([ActivityLaws], which both services discharge), and the theorems: what
    is logged is what is read back, an organization reads its own activities
    only, and repeated failed logins raise an alert. *)

From S2P Require Import Prelude Errors Models Ifaces Database Repos.
From S2P Require Import Events Grpc Http Activity.

#[local] Open Scope Z_scope.

(** ** The query language *)

Definition member (k : string) (j : Json) : option Json :=
  match j with JObj l => field k l | _ => None end.
(** The clauses of [query.bool.must]. *)
Definition query_must (q : Json) : list Json :=
  match (query ← member "query" q; bool ← member "bool" query; member "must" bool) with
  | Some (JArr l) => l
  | _ => []
  end.
Definition query_size (q : Json) : Z :=
  match member "size" q with Some (JInt n) => n | _ => 10 end.

(** An instant, or an expression of date arithmetic at the instant [now]. *)
Definition date_bound (now : Z) (b : Json) : option Z :=
  match b with
  | JTime t => Some t
  | JStr s => if String.eqb s "now-1h" then Some (now - Hour)
              else if String.eqb s "now-24h" then Some (now - 24 * Hour) else None
  | _ => None
  end.
(** Dates are compared in milliseconds. *)
Definition not_before (b t : Z) : bool := (b / Millisecond <=? t / Millisecond)%Z.

Section matching.
Context (term : string → Json → Json → bool) (now : Z).
Definition clause_holds (doc clause : Json) : bool :=
  match clause with
  | JObj [(kind, JObj [(f, v)])] =>
      match member f doc with
      | None => false
      | Some w =>
          if String.eqb kind "term" then term f v w
          else if String.eqb kind "range" then
            match w, member "gte" v ≫= date_bound now with
            | JTime t, Some b => not_before b t
            | _, _ => false
            end
          else false
      end
  | _ => false
  end.
Definition query_holds (q doc : Json) : bool := forallb (clause_holds doc) (query_must q).
End matching.

(** An index, or all indices with a prefix. *)
Definition in_pattern (pattern index : string) : bool :=
  if HasSuffix pattern "*" then HasPrefix index (TrimSuffix pattern "*") else String.eqb pattern index.

Record StoredDoc := mkStored { sd_Index : string; sd_ID : string; sd_Source : Json }.
Definition same_doc (index id : string) (d : StoredDoc) : bool :=
  String.eqb (sd_Index d) index && String.eqb (sd_ID d) id.
Definition put_doc (index id : string) (source : Json) (docs : list StoredDoc) : list StoredDoc :=
  mkStored index id source :: List.filter (λ d, negb (same_doc index id d)) docs.
(** The [_source] of a hit once decoded. *)
Definition source_of (j : Json) : gmap string Json :=
  match j with JObj l => add_members l ∅ | _ => ∅ end.

(** The keyword fields of the mapping that the queries use. *)
Definition keyword_fields : list string := ["action"; "organization_id"; "user_id"].

(** An accepted document is stored, and visible to the searches that follow
    ([Refresh: "true"]); a search reports the number of matches, counted up to
    10,000, and at most [size] of them. *)
Class ElasticLaws (E : Type) `{ElasticLib E} `{UuidLib} `{UuidParse} := {
  es_docs : E → list StoredDoc;
  es_now : E → Z;
  es_term : string → Json → Json → bool;
  es_matches (pattern : string) (q : Json) (e : E) : list StoredDoc :=
    List.filter (λ d, in_pattern pattern (sd_Index d) && query_holds es_term (es_now e) q (sd_Source d))
      (es_docs e);
  es_term_keyword f s t : f ∈ keyword_fields → es_term f (JStr s) (JStr t) = String.eqb s t;
  es_term_ip s : es_term "ip_address" (JStr s) (JStr s) = true;
  es_Index_docs i id d e : let e' := (es_Index i id d e).2 in
    es_docs e' = es_docs e ∨ es_docs e' = put_doc i id d (es_docs e);
  es_Index_ok i id d e st e' : es_Index i id d e = (Ok st, e') → es_IsError st = false →
    es_docs e' = put_doc i id d (es_docs e);
  es_Search_keeps p q e : es_docs (es_Search p q e).2 = es_docs e;
  es_Search_ok p q e st body e' : es_Search p q e = (Ok (st, body), e') → es_IsError st = false →
    ∃ b resp page, body = Some b ∧ dec_SearchResponse b zero_search = Some resp ∧
      sr_Total resp = Z.min 10000 (Z.of_nat (length (es_matches p q e))) ∧
      hit_Source <$> sr_Hits resp = (λ d, source_of (sd_Source d)) <$> page ∧
      page ⊆ es_matches p q e ∧ Z.of_nat (length page) ≤ Z.max 0 (query_size q) }.

(** github.com/google/uuid: a canonical text is read back, and what is read
    has 128 bits. *)
Class UuidParseLaws `{UuidLib} `{UuidParse} := {
  uuid_Parse_String u : is_uuid u → uuid_Parse (uuid_String u) = Ok u;
  uuid_Parse_is_uuid s u : uuid_Parse s = Ok u → is_uuid u }.

(** ** Members of a document *)

Fixpoint last_field (k : string) (l : list (string * Json)) : option Json :=
  match l with
  | [] => None
  | (k', v) :: l' =>
      match last_field k l' with Some w => Some w | None => if String.eqb k k' then Some v else None end
  end.

Lemma lookup_add_members k l m :
  add_members l m !! k = match last_field k l with Some v => Some (normalize v) | None => m !! k end.
Proof.
  revert m. induction l as [|[k' v] l IH]; intros m; [done|].
  change (add_members ((k', v) :: l) m) with (add_members l (<[k' := normalize v]> m)).
  rewrite IH. cbn. destruct (last_field k l); [done|].
  destruct (String.eqb_spec k k') as [->|Hne]; [by rewrite lookup_insert_eq | by rewrite lookup_insert_ne].
Qed.

Lemma last_field_app k l1 l2 :
  last_field k (l1 ++ l2) = match last_field k l2 with Some v => Some v | None => last_field k l1 end.
Proof.
  induction l1 as [|[k' v] l1 IH]; simpl; [by destruct (last_field k l2)|].
  rewrite IH. by destruct (last_field k l2).
Qed.
Lemma field_app k l1 l2 :
  field k (l1 ++ l2) = match field k l1 with Some v => Some v | None => field k l2 end.
Proof. induction l1 as [|[k' v] l1 IH]; [done|]. cbn. by destruct (String.eqb k k'). Qed.
Lemma field_omit_str k k' s :
  field k (omit_str k' s) = if String.eqb k k' && negb (String.eqb s "") then Some (JStr s) else None.
Proof. unfold omit_str. destruct (String.eqb s ""); cbn; by destruct (String.eqb k k'). Qed.
Lemma last_field_omit_str k k' s :
  last_field k (omit_str k' s) = if String.eqb k k' && negb (String.eqb s "") then Some (JStr s) else None.
Proof. unfold omit_str. destruct (String.eqb s ""); cbn; by destruct (String.eqb k k'). Qed.

(** The members of a stored document that the service reads or queries. *)
Record doc_fields (doc : ActivityDocument) (j : Json) : Prop := mkDocFields {
  df_user : member "user_id" j = Some (JStr (ad_UserID doc));
  df_org : member "organization_id" j = Some (JStr (ad_OrganizationID doc));
  df_action : member "action" j = Some (JStr (ad_Action doc));
  df_ip : member "ip_address" j = Some (JStr (ad_IPAddress doc));
  df_time : member "timestamp" j = Some (JTime (ad_Timestamp doc));
  df_security : member "is_security_event" j = Some (JBool (ad_IsSecurityEvent doc)) }.
Definition omitted (s : string) : option Json := if String.eqb s "" then None else Some (JStr s).
Record source_fields (doc : ActivityDocument) (details : Json) (m : gmap string Json) : Prop := mkSrcFields {
  sf_id : m !! "id" = Some (JStr (ad_ID doc));
  sf_user : m !! "user_id" = Some (JStr (ad_UserID doc));
  sf_org : m !! "organization_id" = Some (JStr (ad_OrganizationID doc));
  sf_action : m !! "action" = Some (JStr (ad_Action doc));
  sf_resource : m !! "resource" = Some (JStr (ad_Resource doc));
  sf_details : m !! "details" = Some (normalize details);
  sf_ip : m !! "ip_address" = Some (JStr (ad_IPAddress doc));
  sf_agent : m !! "user_agent" = Some (JStr (ad_UserAgent doc));
  sf_time : m !! "timestamp" = Some (JTime (ad_Timestamp doc));
  sf_email : m !! "user_email" = omitted (ad_UserEmail doc);
  sf_first : m !! "user_first_name" = omitted (ad_UserFirstName doc);
  sf_last : m !! "user_last_name" = omitted (ad_UserLastName doc) }.

Definition details_json (details : Details) : res error Json :=
  match details with None => Ok JNull | Some r => r end.

Ltac document_member :=
  rewrite ?field_app, ?field_omit_str, ?last_field_app, ?last_field_omit_str;
  cbn [field last_field String.eqb Ascii.eqb Bool.eqb andb normalize];
  unfold omitted; try match goal with |- context [String.eqb ?s ""] => destruct (String.eqb s "") end;
  reflexivity.

Lemma document_fields doc j : ActivityDocument_json doc = Ok j → doc_fields doc j.
Proof.
  unfold ActivityDocument_json. destruct (match ad_Details doc with None => _ | _ => _ end); [|done].
  intros [= <-]. constructor; unfold member, document_members; document_member.
Qed.
Lemma document_source doc j : ActivityDocument_json doc = Ok j →
  ∃ details, details_json (ad_Details doc) = Ok details ∧ source_fields doc details (source_of j).
Proof.
  unfold ActivityDocument_json, details_json.
  destruct (match ad_Details doc with None => _ | _ => _ end) as [det|]; [|done].
  intros [= <-]. exists det. split; [done|].
  constructor; unfold source_of; rewrite lookup_add_members, lookup_empty;
    unfold document_members; document_member.
Qed.

(** ** The client on an Elasticsearch that keeps its promises *)
Section client.
Context {E : Type} `{EL : ElasticLaws E}.

Lemma check_status_inv msg st e u e' :
  check_status (E:=E) msg st e = (Ok u, e') → es_IsError st = false ∧ e' = e.
Proof. unfold check_status. destruct (es_IsError st); [done|]. by intros [= _ <-]. Qed.
Lemma check_status_state msg st (e : E) : (check_status msg st e).2 = e.
Proof. unfold check_status. by destruct (es_IsError st). Qed.

Lemma IndexDocument_docs i id r e :
  es_docs (IndexDocument i id r e).2 = es_docs e ∨
  ∃ j, r = Ok j ∧ es_docs (IndexDocument i id r e).2 = put_doc i id j (es_docs e).
Proof.
  destruct r as [j|err]; [|by left]. unfold IndexDocument, bind, wrap_err.
  destruct (es_Index_docs i id j e) as [Hd|Hd]; destruct (es_Index i id j e) as [[st|] e1]; simpl in *;
    rewrite ?check_status_state; eauto.
Qed.
Lemma IndexDocument_ok i id r e e' : IndexDocument i id r e = (Ok tt, e') →
  ∃ j, r = Ok j ∧ es_docs e' = put_doc i id j (es_docs e).
Proof.
  destruct r as [j|err]; [|done]. unfold IndexDocument, bind, wrap_err.
  destruct (es_Index i id j e) as [[st|] e1] eqn:E1; [|done].
  intros [Hst ->]%check_status_inv. eauto using es_Index_ok.
Qed.

Lemma SearchDocuments_keeps p q e : es_docs (SearchDocuments p q e).2 = es_docs e.
Proof.
  unfold SearchDocuments, bind, wrap_err. pose proof (es_Search_keeps p q e) as Hk.
  destruct (es_Search p q e) as [[[st body]|] e1]; simpl in *; [|done].
  pose proof (check_status_state "elasticsearch search failed: " st e1) as Hs.
  destruct (check_status _ st e1) as [[u|] e2]; simpl in *; subst; [|done].
  by destruct (body ≫= _).
Qed.
Lemma SearchDocuments_ok p q e resp e' : SearchDocuments p q e = (Ok resp, e') →
  sr_Total resp = Z.min 10000 (Z.of_nat (length (es_matches p q e))) ∧
  ∃ page, hit_Source <$> sr_Hits resp = (λ d, source_of (sd_Source d)) <$> page ∧
    page ⊆ es_matches p q e ∧ Z.of_nat (length page) ≤ Z.max 0 (query_size q).
Proof.
  unfold SearchDocuments, bind, wrap_err.
  destruct (es_Search p q e) as [[[st body]|] e1] eqn:E1; [|done]. simpl.
  destruct (check_status _ st e1) as [[u|] e2] eqn:E2; [|done].
  apply check_status_inv in E2 as [Hst ->].
  destruct (es_Search_ok _ _ _ _ _ _ E1 Hst) as (b & r & page & -> & Hdec & Ht & Hp & Hsub & Hlen).
  simpl. rewrite Hdec. intros [= <- <-]. eauto 6.
Qed.
Lemma SearchDocuments_answers p q e st body e' : es_Search p q e = (Ok (st, body), e') →
  es_IsError st = false → is_ok (SearchDocuments p q e).1 = true.
Proof.
  intros E1 Hst. destruct (es_Search_ok _ _ _ _ _ _ E1 Hst) as (b & r & page & -> & Hdec & _).
  unfold SearchDocuments, bind, wrap_err, check_status. rewrite E1. simpl. rewrite Hst. simpl. by rewrite Hdec.
Qed.
End client.

(** ** What the handlers need of an activity service *)

Definition filter_ok (o : option N) : Prop := from_option is_uuid True o.
Abbreviation passes o i := (ActivityRepo.is_or_any o i = true).

(** [as_inv]: what every call keeps.  While it holds, the activities read
    under a filter pass it, and a page is no longer than asked for. *)
Class ActivityLaws (A : Type) `{ActivityServiceInterface A} := {
  as_inv : A → Prop;
  as_LogActivity_inv now id u o act r dt ip ag : is_uuid u → is_uuid o →
    preserves as_inv (as_LogActivity now id u o act r dt ip ag);
  as_LogLogin_inv now id u o ip ag : is_uuid u → is_uuid o →
    preserves as_inv (as_LogLogin now id u o ip ag);
  as_LogLoginFailed_inv now id email ip ag o : is_uuid o →
    preserves as_inv (as_LogLoginFailed now id email ip ag o);
  as_LogLogout_inv now id u o ip ag : is_uuid u → is_uuid o →
    preserves as_inv (as_LogLogout now id u o ip ag);
  as_GetSecurityStats_inv now o : preserves as_inv (as_GetSecurityStats now o);
  as_GetUserActivities_inv fresh u o limit offset :
    preserves as_inv (as_GetUserActivities fresh u o limit offset);
  as_GetUserActivities_own fresh u o limit offset a l n a' : as_inv a → filter_ok u → filter_ok o →
    0 ≤ limit → as_GetUserActivities fresh u o limit offset a = (Ok (l, n), a') →
    Forall (λ x, passes o (ua_OrganizationID x.1) ∧ passes u (ua_UserID x.1)) l ∧
    Z.of_nat (length l) ≤ limit }.

(** *** The service on PostgreSQL *)
Section postgres.
Context {D : Type} `{GL : GormLaws D} `{UuidLib} `{JsonText}.
Context (zone : Z).

Lemma activities_of_in u o T a : a ∈ ActivityRepo.activities_of u o T →
  passes o (ua_OrganizationID a) ∧ passes u (ua_UserID a).
Proof.
  unfold ActivityRepo.activities_of. intros [_ Hf]%list_elem_of_In%filter_In. by apply andb_true_iff in Hf.
Qed.

Lemma page_sub {X} limit offset (l : list X) x : x ∈ page limit offset l → x ∈ l.
Proof.
  unfold page. destruct limit as [n|]; [destruct (n <? 0)%Z|];
    eauto using elem_of_submseteq, sublist_submseteq, sublist_drop, sublist_take.
Qed.
Lemma page_length {X} n offset (l : list X) : 0 ≤ n → Z.of_nat (length (page (Some n) offset l)) ≤ n.
Proof.
  intros Hn. unfold page. destruct (Z.ltb_spec n 0); [lia|]. rewrite length_take. lia.
Qed.

Lemma GetUserActivities_own u o limit offset d l n d' : 0 ≤ limit →
  ActivityRepo.GetUserActivities u o limit offset d = (Ok (l, n), d') →
  Forall (λ x, passes o (ua_OrganizationID x.1) ∧ passes u (ua_UserID x.1)) l ∧
  Z.of_nat (length l) ≤ limit.
Proof.
  intros Hlim. unfold ActivityRepo.GetUserActivities.
  intros (total & d1 & _ & Hrun)%bind_ok_inv. apply bind_ok_inv in Hrun as (rows & d2 & Hfind & Hrun).
  apply bind_ok_inv in Hrun as (acts & d3 & Hpre & [= <- <- <-]).
  unfold ActivityRepo.preload_users in Hpre. apply bind_ok_inv in Hpre as (users & d4 & _ & [= <- <-]).
  apply db_Find_ok in Hfind as (r & s & [= <-] & Hperm & _ & ->). simpl.
  rewrite Forall_fmap, Forall_forall, length_fmap. split; [|by apply page_length].
  intros a Ha. simpl. apply (activities_of_in _ _ (db_tables d1)). rewrite Hperm.
  exact (page_sub (Some limit) offset s a Ha).
Qed.
End postgres.

(** *** The service on Elasticsearch *)

(** The documents are activities the service wrote. *)
Definition written `{UuidLib} (j : Json) : Prop :=
  ∃ doc u o, ActivityDocument_json doc = Ok j ∧ is_uuid u ∧ is_uuid o ∧
    ad_UserID doc = uuid_String u ∧ ad_OrganizationID doc = uuid_String o.

Section elastic.
Context {E R : Type} `{EL : ElasticLaws E} `{RedisPublish R} `{JsonText} `{!UuidParseLaws}.
Context (zone : Z).
Abbreviation W := (ESW E R).
Import Elastic.

Definition elastic_inv (w : W) : Prop := Forall (λ d, written (sd_Source d)) (es_docs (ew_es w)).

Lemma on_es_run {X} (m : M E X) (w : W) :
  on_es m w = ((m (ew_es w)).1, mkESW (m (ew_es w)).2 (ew_redis w) (ew_checks w)).
Proof. unfold on_es. by rewrite zoom_eq. Qed.

Lemma activity_document_ids now id u o act r dt ip ag :
  let doc := activity_document zone now id u o act r dt ip ag in
  ad_ID doc = uuid_String id ∧ ad_UserID doc = uuid_String u ∧ ad_OrganizationID doc = uuid_String o ∧
  ad_Action doc = act ∧ ad_IPAddress doc = ip ∧ ad_Timestamp doc = now ∧
  ad_IsSecurityEvent doc = isSecurityEvent act.
Proof. by destruct dt. Qed.

Lemma put_doc_written i id j docs : written j → Forall (λ d, written (sd_Source d)) docs →
  Forall (λ d, written (sd_Source d)) (put_doc i id j docs).
Proof.
  intros Hj Hd. constructor; [done|]. rewrite Forall_forall in *.
  intros d [Hin _]%list_elem_of_In%filter_In. by apply Hd, list_elem_of_In.
Qed.

(** An activity of the service adds its document, or nothing. *)
Lemma LogActivity_inv now id u o act r dt ip ag : is_uuid u → is_uuid o →
  preserves elastic_inv (LogActivity zone now id u o act r dt ip ag).
Proof.
  intros Hu Ho w Hw. unfold LogActivity, elastic_inv, bind, wrap_err in *. rewrite on_es_run.
  set (doc := activity_document _ _ _ _ _ _ _ _ _ _).
  pose proof (activity_document_ids now id u o act r dt ip ag) as (_ & Hui & Hoi & _).
  assert (Forall (λ d, written (sd_Source d))
    (es_docs (IndexDocument (getCurrentIndexName zone now) (ad_ID doc) (ActivityDocument_json doc)
                (ew_es w)).2)) as Hafter.
  { destruct (IndexDocument_docs (getCurrentIndexName zone now) (ad_ID doc) (ActivityDocument_json doc)
                (ew_es w)) as [-> | (j & Hj & ->)]; [done|].
    apply put_doc_written; [|done]. by exists doc, u, o. }
  destruct (IndexDocument _ _ _ _) as [[[]|e] e1]; simpl in *; [|done].
  by destruct (ad_IsSecurityEvent doc).
Qed.

Lemma search_inv {X} q (k : SearchResponse → X) msg : preserves elastic_inv (search (E:=E) (R:=R) q k msg).
Proof.
  intros w Hw. unfold search, elastic_inv, bind, wrap_err in *. rewrite on_es_run.
  pose proof (SearchDocuments_keeps index_pattern q (ew_es w)) as Hk.
  destruct (SearchDocuments _ q (ew_es w)) as [[resp|] e1]; simpl in *; by rewrite Hk.
Qed.
Lemma total_or_zero_inv q : preserves elastic_inv (total_or_zero (E:=E) (R:=R) q).
Proof.
  intros w Hw. unfold total_or_zero, elastic_inv, bind, attempt in *. rewrite on_es_run.
  simpl. by rewrite SearchDocuments_keeps.
Qed.
Lemma GetSecurityStats_inv now o : preserves elastic_inv (Elastic.GetSecurityStats (E:=E) (R:=R) zone now o).
Proof. unfold Elastic.GetSecurityStats. preserve; apply total_or_zero_inv. Qed.

(** A clause on an identifier, on a written document. *)
Lemma id_clause_passes now f o (j : Json) i :
  f ∈ keyword_fields → member f j = Some (JStr (uuid_String i)) → filter_ok o → is_uuid i →
  forallb (clause_holds es_term now j) (id_clause f o) = true → passes o i.
Proof.
  intros Hf Hm Ho Hi. destruct o as [x|]; [|done]. cbn. rewrite Hm, andb_true_r, es_term_keyword by done.
  intros Heq%String.eqb_eq. apply N.eqb_eq.
  pose proof (uuid_Parse_String x Ho) as Hx. rewrite Heq, uuid_Parse_String in Hx by done. by injection Hx.
Qed.

(** A hit of a written document, converted. *)
Lemma hit_activity fresh doc j u o : ActivityDocument_json doc = Ok j → is_uuid u → is_uuid o →
  ad_UserID doc = uuid_String u → ad_OrganizationID doc = uuid_String o →
  ua_OrganizationID (convertHitToActivity fresh (source_of j)).1 = o ∧
  ua_UserID (convertHitToActivity fresh (source_of j)).1 = u.
Proof.
  intros Hj Hu Ho Hdu Hdo. destruct (document_source doc j Hj) as (details & _ & []).
  unfold convertHitToActivity, as_uuid. cbn [fst ua_OrganizationID ua_UserID].
  rewrite sf_org0, sf_user0, Hdu, Hdo. cbn. by rewrite !uuid_Parse_String.
Qed.

Lemma matching_hit fresh now u o limit offset j : written j → filter_ok u → filter_ok o →
  query_holds es_term now (buildActivityQuery u o limit offset) j = true →
  let a := (convertHitToActivity fresh (source_of j)).1 in
  passes o (ua_OrganizationID a) ∧ passes u (ua_UserID a).
Proof.
  intros (doc & du & do & Hj & Hdu & Hdo & Hu & Ho) Hfu Hfo Hq.
  destruct (hit_activity fresh doc j du do) as [Ha Hb]; [done..|]. cbv zeta. rewrite Ha, Hb.
  destruct (document_fields doc j Hj). rewrite Hu in df_user0. rewrite Ho in df_org0.
  unfold query_holds in Hq. cbn in Hq. rewrite forallb_app in Hq. apply andb_true_iff in Hq as [Hqo Hqu].
  split; [eapply id_clause_passes, Hqo | eapply id_clause_passes, Hqu]; try done; set_solver.
Qed.

Lemma elastic_own fresh u o limit offset w l n w' : elastic_inv w → filter_ok u → filter_ok o →
  0 ≤ limit → Elastic.GetUserActivities (E:=E) (R:=R) fresh u o limit offset w = (Ok (l, n), w') →
  Forall (λ x, passes o (ua_OrganizationID x.1) ∧ passes u (ua_UserID x.1)) l ∧
  Z.of_nat (length l) ≤ limit.
Proof.
  intros Hw Hu Ho Hlim. unfold Elastic.GetUserActivities, search. intros (resp & w1 & Hs & Hr)%bind_ok_inv.
  injection Hr as <- _ _. unfold wrap_err in Hs. rewrite on_es_run in Hs.
  destruct (SearchDocuments _ _ (ew_es w)) as [[r|] e1] eqn:E1; [|done]. injection Hs as -> _.
  destruct (SearchDocuments_ok _ _ _ _ _ E1) as (_ & page & Hp & Hsub & Hlen).
  split.
  - apply Forall_lookup. intros i x Hx. apply list_lookup_imap_Some in Hx as (hit & Hhit & ->).
    assert (hit_Source hit ∈ hit_Source <$> sr_Hits resp) as Hin.
    { apply list_elem_of_fmap_2. by eapply list_elem_of_lookup_2. }
    rewrite Hp in Hin. apply list_elem_of_fmap in Hin as (d & -> & [Hd Hq]%Hsub%list_elem_of_In%filter_In).
    apply andb_true_iff in Hq as [_ Hq]. unfold elastic_inv in Hw. rewrite Forall_forall in Hw.
    eapply matching_hit; eauto. by apply Hw, list_elem_of_In.
  - rewrite length_imap. apply (f_equal length) in Hp. rewrite !length_fmap in Hp. rewrite Hp.
    cbn in Hlen. lia.
Qed.
End elastic.

(** Both services keep the promise: the one on PostgreSQL on any tables. *)
#[refine, export] Instance postgres_laws {D} `{GormLaws D} `{UuidLib} `{JsonText} zone :
  @ActivityLaws D (postgres_service zone) := {| as_inv _ := True |}.
Proof.
  1-6: intros; exact (λ _ _, I).
  intros fresh u o limit offset d l n d' _ _ _ Hlim Hrun.
  exact (GetUserActivities_own u o limit offset d l n d' Hlim Hrun).
Defined.

#[refine, export] Instance elastic_laws {E R} `{ElasticLaws E} `{RedisPublish R} `{JsonText}
  `{!UuidParseLaws} zone : @ActivityLaws (ESW E R) (elastic_service zone) := {| as_inv := elastic_inv |}.
Proof.
  1-4: intros; cbn [as_LogActivity as_LogLogin as_LogLoginFailed as_LogLogout elastic_service];
    unfold Elastic.LogLogin, Elastic.LogLoginFailed, Elastic.LogLogout; by apply LogActivity_inv.
  - intros. apply GetSecurityStats_inv.
  - intros. apply search_inv.
  - intros fresh u o limit offset w l n w' Hw Hu Ho Hlim Hrun.
    exact (elastic_own fresh u o limit offset w l n w' Hw Hu Ho Hlim Hrun).
Defined.

(** ** Reading what was logged *)

(** What is logged is what is read back.  The hit of the document written
    for an activity converts to the activity: identifiers, action, resource,
    addresses and time; its details are the JSON of the map that was logged,
    and no user comes with it. *)
Theorem logged_activity_reads_back `{UuidParseLaws} `{JsonText} zone fresh now id u o act r details ip ag j :
  is_uuid id → is_uuid u → is_uuid o →
  ActivityDocument_json (Elastic.activity_document zone now id u o act r details ip ag) = Ok j →
  ∃ d, details_json details = Ok d ∧
    convertHitToActivity fresh (source_of j) =
      (mkUserActivity id u o act r (json_text (normalize d)) ip ag now zero_time, None).
Proof.
  intros Hid Hu Ho Hj. destruct (document_source _ _ Hj) as (d & Hd & []).
  exists d. split; [by destruct details|].
  assert (∀ x y, x = Some (JStr (uuid_String y)) → is_uuid y → as_uuid x = y) as Hparse.
  { intros x y -> Hy. unfold as_uuid. cbn. by rewrite uuid_Parse_String. }
  unfold convertHitToActivity. rewrite sf_details0, sf_time0, sf_email0.
  rewrite (Hparse _ id), (Hparse _ u), (Hparse _ o);
    [ rewrite sf_action0, sf_resource0, sf_ip0, sf_agent0; by destruct details
    | rewrite sf_org0; by destruct details | done | rewrite sf_user0; by destruct details | done
    | rewrite sf_id0; by destruct details | done ].
Qed.

(** C38: the activities answered are those asked for.  Whatever service stands
    behind the server, an answer to GetUserActivity lists at most 100
    activities; each of them belongs to the organization of the request where
    it names one, and to its user where it names one; and the service still
    keeps what it promises. *)
Theorem GetUserActivity_own_activities {A} `{AL : ActivityLaws A} `{UuidParseLaws} fresh req s resp s' :
  from_option as_inv True s → GetUserActivity fresh req s = (Ok resp, s') →
  from_option as_inv True s' ∧ Z.of_nat (length (pgr_Activities resp)) ≤ 100 ∧
  (pgr_Success resp = true → ∃ l orgID userID,
    parse_filter (pga_OrganizationId req) = Ok orgID ∧ parse_filter (pga_UserId req) = Ok userID ∧
    pgr_Activities resp = convert_activity <$> l ∧
    Forall (λ x, passes orgID (ua_OrganizationID x.1) ∧ passes userID (ua_UserID x.1)) l).
Proof.
  intros Hs. assert (∀ text o, parse_filter text = Ok o → filter_ok o) as Hfilter.
  { intros text o. unfold parse_filter. destruct (String.eqb text ""); [by intros [= <-]|].
    destruct (uuid_Parse text) as [x|] eqn:Ex; [|done]. intros [= <-]. by apply uuid_Parse_is_uuid in Ex. }
  unfold GetUserActivity.
  destruct (parse_filter (pga_OrganizationId req)) as [o|] eqn:Eo; [|by intros [= <- <-]].
  destruct (parse_filter (pga_UserId req)) as [u|] eqn:Eu; [|by intros [= <- <-]].
  set (limit := page_limit _). assert (0 ≤ limit ≤ 100) as Hlimit.
  { unfold limit, page_limit. destruct (Z.leb_spec (pga_Limit req) 0), (Z.ltb_spec 100 (pga_Limit req)); simpl; lia. }
  unfold bind, call. destruct s as [a|]; [|done].
  pose proof (as_GetUserActivities_inv fresh u o limit (page_offset (pga_Offset req)) a Hs) as Hinv.
  destruct (as_GetUserActivities fresh u o limit _ a) as [[[l n]|e] a'] eqn:Ea;
    intros [= <- <-]; [|done].
  destruct (as_GetUserActivities_own fresh u o limit _ a l n a' Hs (Hfilter _ _ Eu) (Hfilter _ _ Eo)
              (proj1 Hlimit) Ea) as [Hown Hlen].
  simpl. rewrite length_fmap. split_and!; [done | lia | eauto 8].
Qed.

(** ** Failed logins *)
Section failed_logins.
Context {E R : Type} `{EL : ElasticLaws E} `{RedisPublish R} `{JsonText} `{!UuidParseLaws}.
Context (zone : Z).
Abbreviation W := (ESW E R).
Import Elastic.

(** An attempt: its time, the identifier its activity is given, the email and
    the user agent. *)
Record Attempt := mkAttempt { at_time : Z; at_id : N; at_email : string; at_agent : string }.

Definition failed_attempt (org : N) (ip : string) (x : Attempt) : M W unit :=
  LogLoginFailed zone (at_time x) (at_id x) (at_email x) ip (at_agent x) org.
Definition attempt_document (org : N) (ip : string) (x : Attempt) : ActivityDocument :=
  activity_document zone (at_time x) (at_id x) uuid_Nil org ActionLoginFailed ResourceAuth
    (failed_login_details (at_time x) (at_email x)) ip (at_agent x).
Definition attempt_json (org : N) (ip : string) (x : Attempt) : Json :=
  JObj (document_members (attempt_document org ip x)
    (JObj [("email", JStr (at_email x)); ("success", JBool false); ("timestamp", JTime (at_time x))])).
Definition attempt_stored (org : N) (ip : string) (x : Attempt) : StoredDoc :=
  mkStored (getCurrentIndexName zone (at_time x)) (uuid_String (at_id x)) (attempt_json org ip x).

Lemma attempt_fields org ip x : doc_fields (attempt_document org ip x) (attempt_json org ip x).
Proof. by apply document_fields. Qed.

Lemma failed_attempt_ok org ip x w w' : failed_attempt org ip x w = (Ok tt, w') →
  es_docs (ew_es w') = put_doc (getCurrentIndexName zone (at_time x)) (uuid_String (at_id x))
                         (attempt_json org ip x) (es_docs (ew_es w)) ∧
  ew_checks w' = ew_checks w ++ [attempt_document org ip x].
Proof.
  unfold failed_attempt, LogLoginFailed, LogActivity, bind, wrap_err. rewrite on_es_run.
  fold (attempt_document org ip x).
  change (ad_ID (attempt_document org ip x)) with (uuid_String (at_id x)).
  change (ActivityDocument_json (attempt_document org ip x))
    with (Ok (E:=error) (attempt_json org ip x)).
  destruct (IndexDocument _ _ _ (ew_es w)) as [[[]|e] e1] eqn:E1; [|done].
  apply IndexDocument_ok in E1 as (j & [= <-] & Hd).
  change (ad_IsSecurityEvent (attempt_document org ip x)) with true. cbn. by intros [= <-].
Qed.

Lemma uuid_texts_differ u v : is_uuid u → is_uuid v → u ≠ v → uuid_String u ≠ uuid_String v.
Proof.
  intros Hu Hv Hne Heq. apply Hne. pose proof (uuid_Parse_String u Hu) as Hp.
  rewrite Heq, uuid_Parse_String in Hp by done. by injection Hp.
Qed.

Lemma put_doc_keeps i id j docs d : d ∈ docs → sd_ID d ≠ id → d ∈ put_doc i id j docs.
Proof.
  intros Hd Hne. apply elem_of_cons. right. apply list_elem_of_In, filter_In.
  split; [by apply list_elem_of_In|]. unfold same_doc. apply negb_true_iff, andb_false_iff. right.
  by apply String.eqb_neq.
Qed.

(** A run of attempts that were all logged leaves the documents of all. *)
Lemma attempts_stored org ip l w w' : NoDup (at_id <$> l) → Forall (λ x, is_uuid (at_id x)) l →
  for_each (failed_attempt org ip) l w = (Ok tt, w') →
  (∀ d, d ∈ es_docs (ew_es w) → (∀ x, x ∈ l → sd_ID d ≠ uuid_String (at_id x)) → d ∈ es_docs (ew_es w')) ∧
  (∀ x, x ∈ l → attempt_stored org ip x ∈ es_docs (ew_es w')) ∧
  ew_checks w' = ew_checks w ++ (attempt_document org ip <$> l).
Proof.
  revert w. induction l as [|x l IH]; intros w Hnd Hids.
  { intros [= <-]. split_and!; [by intros | by intros ? ?%elem_of_nil | by rewrite app_nil_r]. }
  intros ([] & w1 & Hx & Hl)%bind_ok_inv. apply failed_attempt_ok in Hx as [Hd Hc].
  cbn in Hnd. apply NoDup_cons in Hnd as [Hni Hnd]. apply Forall_cons in Hids as [Hxi Hids].
  destruct (IH w1 Hnd Hids Hl) as (Hkeep & Hall & Hch). split_and!.
  - intros d Hin Hne. apply Hkeep; [|intros y Hy; apply Hne; by right].
    rewrite Hd. apply put_doc_keeps; [done|]. apply Hne. by left.
  - intros y [->|Hy]%elem_of_cons; [|by apply Hall]. apply Hkeep.
    + rewrite Hd. by left.
    + intros z Hz. cbn. apply uuid_texts_differ; [done| |].
      * rewrite Forall_forall in Hids. by apply Hids.
      * intros Heq. apply Hni. rewrite Heq. by apply list_elem_of_fmap_2.
  - by rewrite Hch, Hc, <- app_assoc.
Qed.

Lemma current_index_in_pattern t : in_pattern index_pattern (getCurrentIndexName zone t) = true.
Proof.
  change (HasPrefix (getCurrentIndexName zone t) "user-activities-" = true).
  apply HasPrefix_spec. by eexists.
Qed.

Lemma attempt_matches org ip x y now : not_before (now - Hour) (at_time y) = true →
  query_holds es_term now (failed_login_query (attempt_document org ip x)) (attempt_json org ip y) = true.
Proof.
  intros Ht. destruct (attempt_fields org ip y) as [_ Ho Ha Hi Hts _].
  change (ad_IPAddress (attempt_document org ip y)) with ip in Hi.
  unfold query_holds, failed_login_query.
  change (ad_OrganizationID (attempt_document org ip x)) with (uuid_String org).
  change (ad_OrganizationID (attempt_document org ip y)) with (uuid_String org) in Ho.
  change (ad_IPAddress (attempt_document org ip x)) with ip.
  destruct (String.eqb (uuid_String org) ""); cbn -[attempt_json not_before Hour];
    rewrite ?Ho, Ha, Hi, Hts, ?es_term_keyword, es_term_ip by set_solver; cbn -[not_before Hour];
    rewrite Ht, ?es_term_keyword by set_solver; by rewrite ?String.eqb_refl.
Qed.

(** What a waiting check does when Elasticsearch answers. *)
Lemma run_check_spec i now mid doc w st body e' : ew_checks w !! i = Some doc →
  ad_Action doc = ActionLoginFailed →
  es_Search index_pattern (failed_login_query doc) (ew_es w) = (Ok (st, body), e') → es_IsError st = false →
  let n := Z.min 10000 (Z.of_nat (length (es_matches index_pattern (failed_login_query doc) (ew_es w)))) in
  run_check i now mid w =
    (Ok tt, mkESW e' (if (5 <=? n)%Z then
       (λ r, (redis_Publish "events:security:failed_login"
                (security_message now mid "failed_login" (alert_data now n doc)) r).2) <$> ew_redis w
       else ew_redis w) (delete i (ew_checks w))).
Proof.
  intros Hi Ha Hs Hst n. unfold run_check, checkSecurityPatterns, checkFailedLoginPattern, bind, attempt.
  rewrite Hi, Ha, String.eqb_refl. rewrite on_es_run. simpl.
  assert (∃ resp, SearchDocuments index_pattern (failed_login_query doc) (ew_es w) = (Ok resp, e')) as [resp Hr].
  { pose proof (SearchDocuments_answers _ _ _ _ _ _ Hs Hst) as Hok. revert Hok.
    unfold SearchDocuments, bind, wrap_err, check_status. rewrite Hs. simpl. rewrite Hst. simpl.
    destruct (body ≫= _); [eauto|done]. }
  destruct (SearchDocuments_ok _ _ _ _ _ Hr) as [Ht _]. rewrite Hr. simpl. rewrite Ht. fold n.
  unfold publishWebSocketEvent. destruct (5 <=? n)%Z, (ew_redis w); done.
Qed.
End failed_logins.


(** ** Statistics *)
Section statistics.
Context {E R : Type} `{EL : ElasticLaws E} `{RedisPublish R} `{JsonText} `{!UuidParseLaws}.
Context (zone : Z).
Abbreviation W := (ESW E R).
Import Elastic.

(** Every search is answered. *)
Definition always_answers : Prop := ∀ p q e, ∃ st body e',
  es_Search p q e = (Ok (st, body), e') ∧ es_IsError st = false.

(** A query whose dates are instants does not depend on the clock. *)
Definition clockless (q : Json) : Prop :=
  ∀ now now' j, query_holds es_term now q j = query_holds es_term now' q j.

Lemma es_matches_same p q e e' : clockless q → es_docs e' = es_docs e → es_matches p q e' = es_matches p q e.
Proof.
  intros Hq Hd. unfold es_matches. rewrite Hd. apply List.filter_ext. intros d. by rewrite (Hq (es_now e') (es_now e)).
Qed.

Lemma total_or_zero_run q (w : W) : always_answers →
  ∃ e', total_or_zero q w =
      (Ok (Z.min 10000 (Z.of_nat (length (es_matches index_pattern q (ew_es w))))),
       mkESW e' (ew_redis w) (ew_checks w)) ∧
    es_docs e' = es_docs (ew_es w).
Proof.
  intros Hans. destruct (Hans index_pattern q (ew_es w)) as (st & body & e' & Hs & Hst).
  pose proof (SearchDocuments_answers _ _ _ _ _ _ Hs Hst) as Hok.
  pose proof (SearchDocuments_keeps index_pattern q (ew_es w)) as Hk.
  unfold total_or_zero, bind, attempt. rewrite on_es_run.
  destruct (SearchDocuments index_pattern q (ew_es w)) as [[resp|] e1] eqn:E1; [|done].
  destruct (SearchDocuments_ok _ _ _ _ _ E1) as [Ht _]. simpl in *. rewrite Ht. eauto.
Qed.

Lemma stats_query_clockless o action since : clockless (buildSecurityStatsQuery o action since).
Proof. done. Qed.
Lemma events_query_clockless o since : clockless (buildSecurityEventsStatsQuery o since).
Proof. done. Qed.

(** The statistics are numbers of matching documents. *)
Definition counted (docs : list StoredDoc) (q : Json) : Z :=
  Z.min 10000 (Z.of_nat (length (List.filter
    (λ d, in_pattern index_pattern (sd_Index d) && query_holds es_term 0 q (sd_Source d)) docs))).
Lemma total_counted q (w : W) : always_answers → clockless q →
  ∃ w', total_or_zero q w = (Ok (counted (es_docs (ew_es w)) q), w') ∧
    es_docs (ew_es w') = es_docs (ew_es w).
Proof.
  intros Hans Hq. destruct (total_or_zero_run q w Hans) as (e' & -> & Hd).
  eexists (mkESW e' _ _). split; [|exact Hd]. do 2 f_equal. unfold counted, es_matches. do 3 f_equal.
  apply List.filter_ext. intros d. by rewrite (Hq (es_now (ew_es w)) 0).
Qed.

Definition stats_map (docs : list StoredDoc) (now : Z) (o : N) : gmap string Z :=
  let today := midnight zone now in
  <["security_alerts" := counted docs (buildSecurityEventsStatsQuery o today)]>
    (<["recent_logins" := counted docs (buildSecurityStatsQuery o ActionLogin (now - 24 * Hour))]>
       {["failed_logins_today" := counted docs (buildSecurityStatsQuery o ActionLoginFailed today)]}).
Lemma GetSecurityStats_counts now o (w : W) : always_answers →
  (Elastic.GetSecurityStats zone now o w).1 = Ok (stats_map (es_docs (ew_es w)) now o).
Proof.
  intros Hans. unfold Elastic.GetSecurityStats, stats_map. cbv zeta.
  destruct (total_counted (buildSecurityStatsQuery o ActionLoginFailed (midnight zone now)) w Hans)
    as (w1 & R1 & D1); [apply stats_query_clockless|]. rewrite (bind_step _ _ _ _ _ R1).
  destruct (total_counted (buildSecurityStatsQuery o ActionLogin (now - 24 * Hour)) w1 Hans)
    as (w2 & R2 & D2); [apply stats_query_clockless|]. rewrite (bind_step _ _ _ _ _ R2).
  destruct (total_counted (buildSecurityEventsStatsQuery o (midnight zone now)) w2 Hans)
    as (w3 & R3 & D3); [apply events_query_clockless|]. rewrite (bind_step _ _ _ _ _ R3).
  cbn [ret fst]. by rewrite D2, D1.
Qed.

Lemma put_doc_fresh i id j docs : Forall (λ d, sd_ID d ≠ id) docs →
  put_doc i id j docs = mkStored i id j :: docs.
Proof.
  intros Hf. unfold put_doc. f_equal. induction Hf as [|d docs Hd Hf IH]; [done|]. cbn.
  rewrite IH. unfold same_doc. apply String.eqb_neq in Hd. by rewrite Hd, andb_false_r.
Qed.

(** A query for one organization passes over a document of another. *)
Lemma counted_other i id j docs o o' clauses : is_uuid o → is_uuid o' → o ≠ o' →
  member "organization_id" j = Some (JStr (uuid_String o')) →
  counted (mkStored i id j :: docs)
    (must_query [] (term_clause "organization_id" (JStr (uuid_String o)) :: clauses) [("size", JInt 0)]) =
  counted docs
    (must_query [] (term_clause "organization_id" (JStr (uuid_String o)) :: clauses) [("size", JInt 0)]).
Proof.
  intros Ho Ho' Hne Hm. unfold counted. do 3 f_equal. simpl List.filter.
  assert (query_holds es_term 0 (must_query [] (term_clause "organization_id" (JStr (uuid_String o)) :: clauses)
            [("size", JInt 0)]) j = false) as ->.
  { unfold query_holds. cbn. rewrite Hm, es_term_keyword by set_solver.
    apply uuid_texts_differ, String.eqb_neq in Hne; [|done..]. by rewrite Hne. }
  by rewrite andb_false_r.
Qed.

Lemma stats_after_failure now o x ip (w w1 : W) : is_uuid o → o ≠ uuid_Nil →
  Forall (λ d, sd_ID d ≠ uuid_String (at_id x)) (es_docs (ew_es w)) →
  failed_attempt zone uuid_Nil ip x w = (Ok tt, w1) →
  stats_map (es_docs (ew_es w1)) now o = stats_map (es_docs (ew_es w)) now o.
Proof.
  intros Ho Hne Hf [Hd _]%failed_attempt_ok. rewrite Hd, put_doc_fresh by done.
  assert (is_uuid uuid_Nil) by done.
  destruct (attempt_fields zone uuid_Nil ip x) as [_ Hm _ _ _ _].
  unfold stats_map, buildSecurityStatsQuery, buildSecurityEventsStatsQuery.
  by rewrite !(counted_other _ _ _ _ o uuid_Nil).
Qed.
End statistics.

(** The security statistics do not see the failed logins.  On an
    Elasticsearch that answers, GetSecurityStats reports the failed logins of
    the day, the logins of the last 24 hours and the security events of the day
    among the stored activities of the organization, each counted up to 10,000.
    A failed login of any of its users, which Authenticate logs under the nil
    organization, leaves the answer as it was. *)
Theorem failed_logins_escape_stats {E R} `{ElasticLaws E} `{RedisPublish R} `{JsonText} `{!UuidParseLaws}
    zone now text o x ip (w w1 : ESW E R) :
  always_answers (E:=E) → text ≠ "" → uuid_Parse text = Ok o → o ≠ uuid_Nil →
  Forall (λ d, sd_ID d ≠ uuid_String (at_id x)) (es_docs (ew_es w)) →
  @call_of _ (elastic_service zone) (at_time x) (at_id x)
    (LogLoginFailed (at_email x) ip (at_agent x) uuid_Nil) w = (Ok tt, w1) →
  let answer v := (@GetSecurityStats _ (elastic_service zone) _ now text (Some v)).1 in
  answer w = Ok (mkPbGetSecurityStatsResponse true
                   (Some (stats_of (stats_map zone (es_docs (ew_es w)) now o))) "") ∧
  answer w1 = answer w.
Proof.
  intros Hans Htext Hp Hne Hfresh Hlog answer.
  assert (∀ v, answer v = Ok (mkPbGetSecurityStatsResponse true
                   (Some (stats_of (stats_map zone (es_docs (ew_es v)) now o))) "")) as Hanswer.
  { intros v. unfold answer, GetSecurityStats. apply String.eqb_neq in Htext. rewrite Htext, Hp.
    unfold bind, gets, call. cbn [as_GetSecurityStats elastic_service].
    pose proof (GetSecurityStats_counts zone now o v Hans) as Hc.
    destruct (Elastic.GetSecurityStats zone now o v) as [r v']. cbn [fst] in Hc. by rewrite Hc. }
  split; [apply Hanswer|]. rewrite !Hanswer.
  by rewrite (stats_after_failure zone now o x ip w w1 (uuid_Parse_is_uuid _ _ Hp) Hne Hfresh Hlog).
Qed.

(** ** A reference Elasticsearch *)

Definition hex_value (c : ascii) : N :=
  let n := N_of_ascii c in if (n <? 97)%N then (n - 48)%N else (n - 87)%N.
Fixpoint unhex (s : string) : N :=
  match s with EmptyString => 0%N | String c s' => (hex_value c + 16 * unhex s')%N end.
#[local] Existing Instance ref_uuid.
#[local] Instance ref_uuid_parse : UuidParse := λ s,
  let v := unhex s in if (v <? 2 ^ 128)%N then Ok v else Err (ErrorString "invalid UUID").

Lemma hex_value_char a : (a < 16)%N → hex_value (hex_char a) = a.
Proof.
  intros Ha. unfold hex_value, hex_char. rewrite N_ascii_embedding by (case_match; lia).
  destruct (N.ltb_spec a 10); match goal with |- context [(?x <? 97)%N] => destruct (N.ltb_spec x 97) end; lia.
Qed.
Lemma unhex_digits n u : (u < 16 ^ N.of_nat n)%N → unhex (hex_digits n u) = u.
Proof.
  revert u. induction n as [|n IH]; intros u Hu; [cbn in *; lia|].
  rewrite Nat2N.inj_succ, N.pow_succ_r' in Hu. cbn [hex_digits unhex].
  rewrite IH by (apply N.Div0.div_lt_upper_bound; lia). rewrite hex_value_char by (by apply N.mod_lt).
  rewrite N.add_comm. symmetry. apply N.div_mod'.
Qed.
#[local] Instance ref_uuid_parse_laws : UuidParseLaws.
Proof.
  constructor.
  - intros u Hu. unfold uuid_Parse, ref_uuid_parse, uuid_String, ref_uuid.
    rewrite unhex_digits by (eapply N.lt_trans; [exact Hu | reflexivity]).
    apply N.ltb_lt in Hu. by rewrite Hu.
  - intros s u. unfold uuid_Parse, ref_uuid_parse. cbv zeta.
    destruct (N.ltb_spec (unhex s) (2 ^ 128)); [|done]. by intros [= <-].
Qed.

Record RefES := mkRefES { re_docs : list StoredDoc; re_now : Z }.
Definition ref_term (f : string) (v w : Json) : bool :=
  match v, w with JStr a, JStr b => String.eqb a b | JBool a, JBool b => Bool.eqb a b | _, _ => false end.
Definition ref_matches (p : string) (q : Json) (e : RefES) : list StoredDoc :=
  List.filter (λ d, in_pattern p (sd_Index d) && query_holds ref_term (re_now e) q (sd_Source d)) (re_docs e).
Definition ref_hit (d : StoredDoc) : Json :=
  JObj [("_index", JStr (sd_Index d)); ("_id", JStr (sd_ID d));
        ("_source", match sd_Source d with JObj _ => sd_Source d | _ => JNull end)].
Definition ref_page (p : string) (q : Json) (e : RefES) : list StoredDoc :=
  take (Z.to_nat (query_size q)) (ref_matches p q e).
Definition ref_body (p : string) (q : Json) (e : RefES) : Json :=
  JObj [("took", JInt 1); ("timed_out", JBool false);
        ("hits", JObj [("total", JObj [("value", JInt (Z.min 10000 (Z.of_nat (length (ref_matches p q e)))));
                                       ("relation", JStr "eq")]);
                       ("hits", JArr (List.map ref_hit (ref_page p q e)))])].
#[local] Instance ref_es : ElasticLib RefES := {
  es_Info := ret 200; es_Exists index := ret 404; es_Create index mapping := ret 200;
  es_Index i id d := λ e, (Ok 201, mkRefES (put_doc i id d (re_docs e)) (re_now e));
  es_Search p q := λ e, (Ok (200, Some (ref_body p q e)), e);
  es_Bulk lines := ret 200; es_IsError st := (299 <? st)%Z; es_Status st := Itoa st }.

Definition decoded_hit (d : StoredDoc) : Hit := mkHit (sd_Index d) (sd_ID d) (source_of (sd_Source d)).
Lemma dec_ref_hit d : dec_Hit (ref_hit d) (mkHit "" "" ∅) = Some (decoded_hit d).
Proof. by destruct d as [i id []]. Qed.
Lemma dec_ref_hits l : dec_all (mkHit "" "" ∅) dec_Hit (List.map ref_hit l) = Some (decoded_hit <$> l).
Proof. induction l as [|d l IH]; [done|]. cbn [List.map dec_all]. rewrite dec_ref_hit, IH. done. Qed.
Lemma dec_ref_body p q e : dec_SearchResponse (ref_body p q e) zero_search =
  Some (mkSearch 1 false (Z.min 10000 (Z.of_nat (length (ref_matches p q e)))) "eq"
          (decoded_hit <$> ref_page p q e) ∅).
Proof.
  unfold ref_body. set (n := Z.min _ _). assert (0 ≤ n ≤ 10000) as Hn by lia. clearbody n.
  set (l := List.map _ _). assert (dec_all (mkHit "" "" ∅) dec_Hit l = Some (decoded_hit <$> ref_page p q e)) as Hl
    by apply dec_ref_hits. clearbody l.
  unfold dec_SearchResponse. generalize dependent (mkHit "" "" ∅). generalize dependent dec_Hit.
  intros dec zero Hl. generalize dependent (decoded_hit <$> ref_page p q e). intros hits Hl.
  lazy -[Z.leb dec_all min_int max_int]. rewrite Hl.
  by rewrite (proj2 (Z.leb_le min_int 1)), (proj2 (Z.leb_le 1 max_int)),
    (proj2 (Z.leb_le min_int n)), (proj2 (Z.leb_le n max_int)) by (unfold min_int, max_int; lia).
Qed.
#[local, refine] Instance ref_es_laws : ElasticLaws RefES := {|
  es_docs := re_docs; es_now := re_now; es_term := ref_term |}.
Proof.
  - done.
  - intros s. apply String.eqb_refl.
  - intros i id d e. by right.
  - intros i id d e st e'. by intros [= _ <-].
  - done.
  - intros p q e st body e' [= <- <- <-] _.
    exists (ref_body p q e), (mkSearch 1 false (Z.min 10000 (Z.of_nat (length (ref_matches p q e)))) "eq"
          (decoded_hit <$> ref_page p q e) ∅), (ref_page p q e).
    split_and!; [done | apply dec_ref_body | done | | |].
    + cbn [sr_Hits]. rewrite <- list_fmap_compose. by apply list_fmap_ext.
    + unfold ref_page. intros d Hd. eapply elem_of_submseteq; [exact Hd|]. apply sublist_submseteq, sublist_take.
    + unfold ref_page. rewrite length_take. lia.
Defined.

(** ** Examples *)
#[local] Instance ref_publish : RedisPublish (list (string * Json)) := λ channel m l, (Ok tt, l ++ [(channel, m)]).
#[local] Instance ref_json_text : JsonText := λ j, "{}".
#[local] Existing Instances ref_gorm ref_gorm_laws.
Abbreviation RefW := (ESW RefES (list (string * Json))).

(** A login of user 7 of organization 9, on 2024-02-29 at 12:34:56 UTC. *)
Definition ref_now : Z := 1709210096 * Second.
Definition ref_document : ActivityDocument :=
  Elastic.activity_document 0 ref_now 500 7 9 ActionLogin ResourceAuth (login_details ref_now) "10.0.0.1" "curl".
Example ref_document_date :
  (ad_Year ref_document, ad_Month ref_document, ad_Day ref_document, ad_Hour ref_document,
   ad_Minute ref_document) = (2024, 2, 29, 12, 34).
Proof. reflexivity. Qed.
Definition ref_json : Json := match ActivityDocument_json ref_document with Ok j => j | Err _ => JNull end.

Example logged_activity_reads_back_witness :
  ∃ d, details_json (login_details ref_now) = Ok d ∧
    convertHitToActivity 1 (source_of ref_json) =
      (mkUserActivity 500 7 9 ActionLogin ResourceAuth (json_text (normalize d)) "10.0.0.1" "curl"
         ref_now zero_time, None).
Proof. apply (logged_activity_reads_back 0 1 ref_now 500 7 9); reflexivity. Defined.

(** Five failed logins from one address to organization 9, and one login to
    organization 8. *)
Definition ref_attempt (k : N) : Attempt := mkAttempt (ref_now + Z.of_N k * Second) k "a@b.c" "curl".
Definition ref_attempts : list Attempt := ref_attempt <$> [101; 102; 103; 104; 105]%N.
Definition ref_idle : RefW := mkESW (mkRefES [] (ref_now + Minute)) (Some []) [].
Definition ref_attacked : RefW := (for_each (failed_attempt 0 9 "10.0.0.1") ref_attempts ref_idle).2.
Lemma ref_attacked_run :
  for_each (failed_attempt 0 9 "10.0.0.1") ref_attempts ref_idle = (Ok tt, ref_attacked).
Proof. vm_refl. Qed.


Definition ref_known : RefW :=
  (Elastic.LogLogin 0 ref_now 106 7 8 "10.0.0.2" "curl" ref_attacked).2.
Lemma ref_known_inv : elastic_inv ref_known.
Proof.
  unfold ref_known, Elastic.LogLogin. apply LogActivity_inv; [done..|]. unfold ref_attacked, ref_attempts.
  apply preserves_for_each; [|by constructor]. intros x _. by apply LogActivity_inv.
Qed.

Example GetUserActivity_own_activities_witness :
  ∃ resp s', @GetUserActivity _ (elastic_service 0) _ _ N.of_nat
      (mkPbGetUserActivityRequest (uuid_String 9) "" 3 0) (Some ref_known) = (Ok resp, s') ∧
    length (pgr_Activities resp) = 3%nat ∧ pgr_TotalCount resp = 5 ∧
    (pgr_Success resp = true → ∃ l orgID userID,
      parse_filter (uuid_String 9) = Ok orgID ∧ parse_filter "" = Ok userID ∧
      pgr_Activities resp = convert_activity <$> l ∧
      Forall (λ x, passes orgID (ua_OrganizationID x.1) ∧ passes userID (ua_UserID x.1)) l).
Proof.
  set (run := @GetUserActivity _ (elastic_service 0) _ _ N.of_nat
      (mkPbGetUserActivityRequest (uuid_String 9) "" 3 0) (Some ref_known)).
  set (resp := match run.1 with Ok r => r | Err _ => activity_failure "" end).
  assert (run = (Ok resp, run.2)) as Hrun by (unfold resp, run; vm_refl).
  destruct (GetUserActivity_own_activities (AL:=elastic_laws 0) N.of_nat
    (mkPbGetUserActivityRequest (uuid_String 9) "" 3 0) (Some ref_known) resp run.2 ref_known_inv Hrun)
    as (_ & _ & Hown).
  exists resp, run.2. split; [exact Hrun|]. split; [unfold resp, run; vm_refl|].
  split; [unfold resp, run; vm_refl | exact Hown].
Defined.

(** Today's failed login of a user of organization 9 is not in its statistics. *)
Definition ref_unseen : RefW :=
  (failed_attempt 0 uuid_Nil "10.0.0.1" (ref_attempt 107) ref_known).2.
Example failed_logins_escape_stats_witness :
  let answer v := (@GetSecurityStats _ (elastic_service 0) _ ref_now (uuid_String 9) (Some v)).1 in
  answer ref_known = Ok (mkPbGetSecurityStatsResponse true
                   (Some (stats_of (stats_map 0 (re_docs (ew_es ref_known)) ref_now 9))) "") ∧
  answer ref_unseen = answer ref_known ∧
  answer ref_known = Ok (mkPbGetSecurityStatsResponse true (Some (mkPbSecurityStats 5 5 0 0)) "").
Proof.
  destruct (failed_logins_escape_stats (E:=RefES) 0 ref_now (uuid_String 9) 9 (ref_attempt 107) "10.0.0.1"
    ref_known ref_unseen) as [H1 H2].
  - intros p q e. eexists _, _, _. split; reflexivity.
  - discriminate.
  - vm_compute. reflexivity.
  - discriminate.
  - eapply bool_decide_eq_true. vm_compute. reflexivity.
  - vm_refl.
  - split; [exact H1|]. split; [exact H2|]. vm_refl.
Defined.

(** ** Two gaps *)

(** Without an activity service the handler panics. *)
Lemma GetUserActivity_needs_service {A} `{ActivityServiceInterface A} `{UuidLib} `{UuidParse} fresh req o u :
  parse_filter (pga_OrganizationId req) = Ok o → parse_filter (pga_UserId req) = Ok u →
  (GetUserActivity (A:=A) fresh req None).1 = Err None.
Proof. intros Ho Hu. unfold GetUserActivity. by rewrite Ho, Hu. Qed.

(** The service knows no user: the message of a failed login names none. *)
Lemma failed_login_message_is_anonymous `{UuidLib} `{JsonText} zone org ip x :
  se_Message (convertHitToSecurityEvent (source_of (attempt_json zone org ip x))) =
    "Failed login attempt from IP " +:+ ip.
Proof.
  destruct (document_source (attempt_document zone org ip x) (attempt_json zone org ip x) eq_refl)
    as (d & _ & []).
  unfold convertHitToSecurityEvent. cbn [se_Message]. by rewrite sf_action0, sf_email0, sf_ip0.
Qed.
