(* ===== verification/Seeder.v ===== *)
(** * The seeder (src/internal/seeder/seeder.go)

    [SeedAll] fills an empty database with sample organizations, permissions,
    roles, users and activities; main.go runs it at every start and only logs
    its error.  A batch insert is one statement on the tables; one with
    [ON CONFLICT DO NOTHING] skips the rows that clash on the columns named.
    The random draws, the clock and the identifiers of the batches are
    arguments ([Draws]): a result of [rand.Intn n] is a number taken modulo
    [n], a comparison of [rand.Float32()] its outcome.  The summary only
    reads and logs. *)

From S2P Require Import Prelude Errors Models Ifaces Database Repos AuthService Http HttpHandlers Activity.

#[local] Open Scope Z_scope.

(** ** Sample data *)

(** Raw string literals are written with single quotes. *)
Definition double_quote : ascii := ascii_of_N 34.
Fixpoint quoted (s : string) : string :=
  match s with
  | EmptyString => EmptyString
  | String c s' => String (if Ascii.eqb c "'" then double_quote else c) (quoted s')
  end.

Definition defaultOrgID : N := 0x123e4567e89b12d3a456426614174000.
Definition seed_settings (timezone dateFormat currency : string) (twoFactor : bool) (timeout : Z)
    (key value : string) : Settings :=
  mkSettings timezone dateFormat currency "en" twoFactor timeout {[key := value]}.
Definition new_org (id : N) (name domain : string) (settings : Settings) : Organization :=
  mkOrganization id name domain settings true zero_time zero_time.
Definition seed_organizations : list Organization :=
  [ new_org defaultOrgID "Default Organization" "default.local"
     (seed_settings "UTC" "YYYY-MM-DD" "USD" false 3600 "type" "default");
    new_org uuid_Nil "UniBASE ERP Solutions" "unibaseerp.com"
     (seed_settings "UTC" "YYYY-MM-DD" "USD" true 3600 "industry" "Technology");
    new_org uuid_Nil "TechCorp Solutions" "techcorp.com"
     (seed_settings "UTC" "YYYY-MM-DD" "USD" true 3600 "industry" "Technology");
    new_org uuid_Nil "Global Manufacturing Inc" "globalmanuf.com"
     (seed_settings "America/New_York" "MM/DD/YYYY" "USD" false 7200 "industry" "Manufacturing");
    new_org uuid_Nil "Healthcare Partners" "healthpartners.org"
     (seed_settings "America/Chicago" "DD-MM-YYYY" "USD" true 1800 "industry" "Healthcare");
    new_org uuid_Nil "EduTech Academy" "edutech.edu"
     (seed_settings "America/Los_Angeles" "YYYY-MM-DD" "USD" true 14400 "industry" "Education");
    new_org uuid_Nil "Financial Services Group" "finservices.com"
     (seed_settings "Europe/London" "DD/MM/YYYY" "GBP" true 900 "industry" "Finance");
    new_org uuid_Nil "Retail Chain Ltd" "retailchain.com"
     (seed_settings "America/New_York" "MM-DD-YYYY" "USD" false 3600 "industry" "Retail");
    new_org uuid_Nil "Construction Pro" "constructionpro.com"
     (seed_settings "America/Denver" "YYYY/MM/DD" "USD" false 7200 "industry" "Construction");
    new_org uuid_Nil "Media & Entertainment Co" "mediaent.com"
     (seed_settings "America/Los_Angeles" "MM/DD/YYYY" "USD" true 10800 "industry" "Media");
    new_org uuid_Nil "Logistics Express" "logisticsexp.com"
     (seed_settings "UTC" "DD-MM-YYYY" "EUR" false 5400 "industry" "Logistics");
    new_org uuid_Nil "Consulting Partners" "consultingpartners.com"
     (seed_settings "Europe/Berlin" "DD.MM.YYYY" "EUR" true 7200 "industry" "Consulting") ].

Definition new_permission (name resource action description : string) : Permission :=
  mkPermission uuid_Nil name resource action "" None description false zero_time zero_time.
Definition seed_permissions : list Permission :=
  [ new_permission "users.create" "users" "create" "Create new users";
    new_permission "users.read" "users" "read" "View user information";
    new_permission "users.update" "users" "update" "Update user information";
    new_permission "users.delete" "users" "delete" "Delete users";
    new_permission "users.list" "users" "list" "List all users";
    new_permission "roles.create" "roles" "create" "Create new roles";
    new_permission "roles.read" "roles" "read" "View role information";
    new_permission "roles.update" "roles" "update" "Update role information";
    new_permission "roles.delete" "roles" "delete" "Delete roles";
    new_permission "roles.list" "roles" "list" "List all roles";
    new_permission "roles.assign" "roles" "assign" "Assign roles to users";
    new_permission "organizations.create" "organizations" "create" "Create organizations";
    new_permission "organizations.read" "organizations" "read" "View organization information";
    new_permission "organizations.read_all" "organizations" "read_all" "View all organizations (app admin only)";
    new_permission "organizations.update" "organizations" "update" "Update organization settings";
    new_permission "organizations.delete" "organizations" "delete" "Delete organizations";
    new_permission "users.manage" "users" "manage" "Manage users within organization";
    new_permission "users.read_all" "users" "read_all" "View all users across organizations (app admin only)";
    new_permission "crm.contacts.create" "crm.contacts" "create" "Create CRM contacts";
    new_permission "crm.contacts.read" "crm.contacts" "read" "View CRM contacts";
    new_permission "crm.contacts.update" "crm.contacts" "update" "Update CRM contacts";
    new_permission "crm.contacts.delete" "crm.contacts" "delete" "Delete CRM contacts";
    new_permission "crm.leads.manage" "crm.leads" "manage" "Manage CRM leads";
    new_permission "crm.opportunities.manage" "crm.opportunities" "manage" "Manage sales opportunities";
    new_permission "hrm.employees.create" "hrm.employees" "create" "Create employee records";
    new_permission "hrm.employees.read" "hrm.employees" "read" "View employee information";
    new_permission "hrm.employees.update" "hrm.employees" "update" "Update employee information";
    new_permission "hrm.employees.delete" "hrm.employees" "delete" "Delete employee records";
    new_permission "hrm.payroll.manage" "hrm.payroll" "manage" "Manage payroll";
    new_permission "hrm.attendance.manage" "hrm.attendance" "manage" "Manage attendance";
    new_permission "finance.accounts.create" "finance.accounts" "create" "Create financial accounts";
    new_permission "finance.accounts.read" "finance.accounts" "read" "View financial accounts";
    new_permission "finance.accounts.update" "finance.accounts" "update" "Update financial accounts";
    new_permission "finance.transactions.create" "finance.transactions" "create" "Create financial transactions";
    new_permission "finance.transactions.read" "finance.transactions" "read" "View financial transactions";
    new_permission "finance.reports.view" "finance.reports" "view" "View financial reports";
    new_permission "inventory.products.create" "inventory.products" "create" "Create products";
    new_permission "inventory.products.read" "inventory.products" "read" "View products";
    new_permission "inventory.products.update" "inventory.products" "update" "Update products";
    new_permission "inventory.products.delete" "inventory.products" "delete" "Delete products";
    new_permission "inventory.stock.manage" "inventory.stock" "manage" "Manage stock levels";
    new_permission "projects.create" "projects" "create" "Create projects";
    new_permission "projects.read" "projects" "read" "View projects";
    new_permission "projects.update" "projects" "update" "Update projects";
    new_permission "projects.delete" "projects" "delete" "Delete projects";
    new_permission "projects.tasks.manage" "projects.tasks" "manage" "Manage project tasks";
    new_permission "system.settings.read" "system.settings" "read" "View system settings";
    new_permission "system.settings.update" "system.settings" "update" "Update system settings";
    new_permission "system.logs.read" "system.logs" "read" "View system logs";
    new_permission "system.backup.manage" "system.backup" "manage" "Manage system backups";
    new_permission "reports.view" "reports" "view" "View reports";
    new_permission "reports.create" "reports" "create" "Create custom reports";
    new_permission "analytics.view" "analytics" "view" "View analytics dashboards" ].

(** Name, description and [IsSystem]. *)
Definition roleTemplates : list (string * string * bool) :=
  [ ("Super Admin", "Full system access with all permissions", true);
    ("Organization Admin", "Full access within organization", false);
    ("Manager", "Management level access with team oversight", false);
    ("Employee", "Standard employee access", false);
    ("HR Manager", "Human resources management access", false);
    ("Finance Manager", "Financial management access", false);
    ("Sales Manager", "Sales and CRM management access", false);
    ("Project Manager", "Project management access", false);
    ("Inventory Manager", "Inventory and stock management access", false);
    ("Viewer", "Read-only access to most resources", false) ].

(** The literal [rolePermissionMap], before the entry of Super Admin is
    replaced. *)
Definition rolePermissionMap : list (string * list string) :=
  [ ("Super Admin",
    ["users.create"; "users.read"; "users.update"; "users.delete"; "users.list"; "users.manage";
     "users.read_all"; "roles.create"; "roles.read"; "roles.update"; "roles.delete"; "roles.list";
     "roles.assign"; "organizations.create"; "organizations.read"; "organizations.read_all";
     "organizations.update"; "organizations.delete"; "organizations.list"; "organizations.manage";
     "system.settings.read"; "system.settings.update"; "system.logs.read"; "system.backup.manage";
     "reports.view"; "reports.create"; "analytics.view"; "crm.contacts.create";
     "crm.contacts.read"; "crm.contacts.update"; "crm.contacts.delete"; "crm.leads.manage";
     "crm.opportunities.manage"; "hrm.employees.create"; "hrm.employees.read";
     "hrm.employees.update"; "hrm.employees.delete"; "hrm.payroll.manage"; "hrm.attendance.manage";
     "finance.accounts.create"; "finance.accounts.read"; "finance.accounts.update";
     "finance.transactions.create"; "finance.transactions.read"; "finance.reports.view";
     "inventory.products.create"; "inventory.products.read"; "inventory.products.update";
     "inventory.products.delete"; "inventory.stock.manage"; "projects.create"; "projects.read";
     "projects.update"; "projects.delete"; "projects.tasks.manage"]);
    ("Organization Admin",
    ["users.create"; "users.read"; "users.update"; "users.delete"; "users.list"; "users.manage";
     "roles.create"; "roles.read"; "roles.update"; "roles.delete"; "roles.list"; "roles.assign";
     "organizations.read"; "organizations.update"; "system.settings.read";
     "system.settings.update"; "reports.view"; "reports.create"; "analytics.view"]);
    ("Manager",
    ["users.read"; "users.list"; "roles.read"; "roles.list"; "crm.contacts.create";
     "crm.contacts.read"; "crm.contacts.update"; "crm.leads.manage"; "crm.opportunities.manage";
     "hrm.employees.read"; "hrm.attendance.manage"; "projects.create"; "projects.read";
     "projects.update"; "projects.tasks.manage"; "reports.view"; "analytics.view"]);
    ("Employee",
    ["users.read"; "crm.contacts.read"; "hrm.employees.read"; "projects.read";
     "projects.tasks.manage"; "inventory.products.read"; "reports.view"]);
    ("HR Manager",
    ["users.create"; "users.read"; "users.update"; "users.list"; "hrm.employees.create";
     "hrm.employees.read"; "hrm.employees.update"; "hrm.employees.delete"; "hrm.payroll.manage";
     "hrm.attendance.manage"; "reports.view"]);
    ("Finance Manager",
    ["finance.accounts.create"; "finance.accounts.read"; "finance.accounts.update";
     "finance.transactions.create"; "finance.transactions.read"; "finance.reports.view";
     "reports.view"; "reports.create"]);
    ("Sales Manager",
    ["crm.contacts.create"; "crm.contacts.read"; "crm.contacts.update"; "crm.contacts.delete";
     "crm.leads.manage"; "crm.opportunities.manage"; "reports.view"; "analytics.view"]);
    ("Project Manager",
    ["projects.create"; "projects.read"; "projects.update"; "projects.delete";
     "projects.tasks.manage"; "reports.view"]);
    ("Inventory Manager",
    ["inventory.products.create"; "inventory.products.read"; "inventory.products.update";
     "inventory.products.delete"; "inventory.stock.manage"; "reports.view"]);
    ("Viewer",
    ["users.read"; "crm.contacts.read"; "hrm.employees.read"; "finance.accounts.read";
     "finance.transactions.read"; "inventory.products.read"; "projects.read"; "reports.view"]) ].

Definition firstNames : list string :=
  ["John"; "Jane"; "Michael"; "Sarah"; "David"; "Emily"; "Robert"; "Lisa"; "William"; "Jennifer";
   "James"; "Mary"; "Christopher"; "Patricia"; "Daniel"; "Linda"; "Matthew"; "Elizabeth";
   "Anthony"; "Barbara"; "Mark"; "Susan"; "Donald"; "Jessica"; "Steven"; "Karen"; "Paul"; "Nancy";
   "Andrew"; "Betty"; "Joshua"; "Helen"; "Kenneth"; "Sandra"; "Kevin"; "Donna"; "Brian"; "Carol";
   "George"; "Ruth"; "Edward"; "Sharon"; "Ronald"; "Michelle"; "Timothy"; "Laura"; "Jason";
   "Sarah"; "Jeffrey"; "Kimberly"; "Ryan"; "Deborah"; "Jacob"; "Dorothy"; "Gary"; "Lisa";
   "Nicholas"; "Nancy"; "Eric"; "Karen"; "Jonathan"; "Betty"; "Stephen"; "Helen"; "Larry";
   "Sandra"; "Justin"; "Donna"; "Scott"; "Carol"; "Brandon"; "Ruth"; "Benjamin"; "Sharon";
   "Samuel"; "Michelle"; "Gregory"; "Laura"; "Alexander"; "Sarah"; "Patrick"; "Kimberly"; "Jack";
   "Deborah"; "Dennis"; "Dorothy"; "Jerry"; "Lisa"; "Tyler"; "Nancy"; "Aaron"; "Karen"; "Jose";
   "Betty"; "Henry"; "Helen"; "Adam"; "Sandra"; "Douglas"; "Donna"].
Definition lastNames : list string :=
  ["Smith"; "Johnson"; "Williams"; "Brown"; "Jones"; "Garcia"; "Miller"; "Davis"; "Rodriguez";
   "Martinez"; "Hernandez"; "Lopez"; "Gonzalez"; "Wilson"; "Anderson"; "Thomas"; "Taylor"; "Moore";
   "Jackson"; "Martin"; "Lee"; "Perez"; "Thompson"; "White"; "Harris"; "Sanchez"; "Clark";
   "Ramirez"; "Lewis"; "Robinson"; "Walker"; "Young"; "Allen"; "King"; "Wright"; "Scott"; "Torres";
   "Nguyen"; "Hill"; "Flores"; "Green"; "Adams"; "Nelson"; "Baker"; "Hall"; "Rivera"; "Campbell";
   "Mitchell"; "Carter"; "Roberts"; "Gomez"; "Phillips"; "Evans"; "Turner"; "Diaz"; "Parker";
   "Cruz"; "Edwards"; "Collins"; "Reyes"; "Stewart"; "Morris"; "Morales"; "Murphy"; "Cook";
   "Rogers"; "Gutierrez"; "Ortiz"; "Morgan"; "Cooper"; "Peterson"; "Bailey"; "Reed"; "Kelly";
   "Howard"; "Ramos"; "Kim"; "Cox"; "Ward"; "Richardson"; "Watson"; "Brooks"; "Chavez"; "Wood";
   "James"; "Bennett"; "Gray"; "Mendoza"; "Ruiz"; "Hughes"; "Price"; "Alvarez"; "Castillo";
   "Sanders"; "Patel"; "Myers"; "Long"; "Ross"; "Foster"; "Jimenez"].
Definition email_domains : list string :=
  ["gmail.com"; "yahoo.com"; "hotmail.com"; "outlook.com"; "company.com"].
Definition roleWeights : list (string * nat) :=
  [("Employee", 40%nat); ("Manager", 15%nat); ("Viewer", 15%nat); ("HR Manager", 5%nat);
   ("Finance Manager", 5%nat); ("Sales Manager", 5%nat); ("Project Manager", 5%nat);
   ("Inventory Manager", 5%nat); ("Organization Admin", 3%nat); ("Super Admin", 2%nat)].

Definition ActionUserActivated : string := "user_activated".
Definition ActionUserDeactivated : string := "user_deactivated".
Definition ActionRoleAssigned : string := "role_assigned".
Definition ActionRoleRemoved : string := "role_removed".
Definition ActionOrganizationUpdated : string := "organization_updated".
Definition ResourceRole : string := "role".
Definition ResourceOrganization : string := "organization".
Definition activityTypes : list (string * string * string) :=
  [ (ActionLogin, ResourceAuth, quoted "{'success': true, 'method': 'email_password'}");
    (ActionLogout, ResourceAuth, quoted "{'session_duration': 3600}");
    (ActionLoginFailed, ResourceAuth, quoted "{'reason': 'invalid_password', 'attempts': 1}");
    (ActionPasswordChanged, ResourceProfile, quoted "{'strength': 'strong'}");
    (ActionProfileUpdated, ResourceProfile, quoted "{'fields': ['first_name', 'last_name']}");
    (ActionUserCreated, ResourceUser, quoted "{'role': 'employee'}");
    (ActionUserUpdated, ResourceUser, quoted "{'fields': ['email', 'is_active']}");
    (ActionUserActivated, ResourceUser, quoted "{'previous_status': 'inactive'}");
    (ActionUserDeactivated, ResourceUser, quoted "{'reason': 'policy_violation'}");
    (ActionRoleAssigned, ResourceRole, quoted "{'role_name': 'manager'}");
    (ActionRoleRemoved, ResourceRole, quoted "{'role_name': 'employee'}");
    (ActionOrganizationUpdated, ResourceOrganization, quoted "{'fields': ['settings']}") ].
Definition ipAddresses : list string :=
  ["192.168.1.100"; "10.0.0.50"; "172.16.0.25"; "203.0.113.10"; "198.51.100.5"; "192.168.0.150";
   "10.1.1.75"; "172.20.0.30"; "203.0.113.20"; "198.51.100.15"].
Definition userAgents : list string :=
  ["Mozilla/5.0 (Windows NT 10.0; Win64; x64) AppleWebKit/537.36 (KHTML, like Gecko) Chrome/91.0.4472.124 Safari/537.36";
   "Mozilla/5.0 (Macintosh; Intel Mac OS X 10_15_7) AppleWebKit/537.36 (KHTML, like Gecko) Chrome/91.0.4472.124 Safari/537.36";
   "Mozilla/5.0 (X11; Linux x86_64) AppleWebKit/537.36 (KHTML, like Gecko) Chrome/91.0.4472.124 Safari/537.36";
   "Mozilla/5.0 (Windows NT 10.0; Win64; x64; rv:89.0) Gecko/20100101 Firefox/89.0";
   "Mozilla/5.0 (Macintosh; Intel Mac OS X 10_15_7) AppleWebKit/605.1.15 (KHTML, like Gecko) Version/14.1.1 Safari/605.1.15";
   "Mozilla/5.0 (iPhone; CPU iPhone OS 14_6 like Mac OS X) AppleWebKit/605.1.15 (KHTML, like Gecko) Version/14.0 Mobile/15E148 Safari/604.1";
   "Mozilla/5.0 (Android 11; Mobile; rv:68.0) Gecko/68.0 Firefox/88.0"].

(** ** Draws *)

Record UserDraw := mkUserDraw {
  ud_first : nat; ud_last : nat; ud_domain : nat; ud_active : bool; ud_verified : bool;
  ud_twoFactor : bool; ud_login : option nat }.       (** days since the last login *)
(** The role, and the second one where it is drawn. *)
Record RoleDraw := mkRoleDraw { rd_role : nat; rd_second : option nat }.
Record ActivityDraw := mkActivityDraw {
  xd_type : nat; xd_days : nat; xd_hours : nat; xd_minutes : nat; xd_ip : nat; xd_agent : nat }.
Record FailureDraw := mkFailureDraw {
  fd_user : nat; fd_attempts : nat; fd_ip : nat; fd_agent : nat; fd_created : nat; fd_updated : nat }.
(** [dw_ids k i]: the identifier of the [i]-th row of the [k]-th batch;
    [dw_weights]: the map of role weights in the order it is ranged over;
    [dw_recent u]: address and agent of the recent login of user [u]. *)
Record Draws := mkDraws {
  dw_now : Z; dw_ids : nat → nat → N; dw_user : nat → UserDraw;
  dw_weights : list (string * nat); dw_role : nat → RoleDraw;
  dw_count : nat → nat; dw_activity : nat → nat → ActivityDraw; dw_recent : nat → nat * nat;
  dw_failure : nat → FailureDraw }.

(** [l[rand.Intn(len(l))]]. *)
Definition pick {A} (zero : A) (l : list A) (draw : nat) : A := nth (draw mod length l) l zero.
Definition days_ago (now : Z) (n : nat) : Z := now - Z.of_nat n * DayLen.

(** ** Users *)
Section users.
Context `{CryptoLib} (dw : Draws).

Definition seeded_email (firstName lastName : string) (userIndex : nat) (domain : string) : string :=
  ToLower firstName +:+ "." +:+ ToLower lastName +:+ Itoa (Z.of_nat userIndex + 1) +:+ "@" +:+ domain.
Definition seeded_user (org : Organization) (userIndex : nat) : res error User :=
  let x := dw_user dw userIndex in
  let firstName := pick "" firstNames (ud_first x) in
  let lastName := pick "" lastNames (ud_last x) in
  let email := seeded_email firstName lastName userIndex (pick "" email_domains (ud_domain x)) in
  let lastLogin := (λ n, days_ago (dw_now dw) (n mod 30)) <$> ud_login x in
  let user := mkUser uuid_Nil (o_ID org) email "" firstName lastName (ud_active x) (ud_verified x)
    lastLogin None (ud_twoFactor x) "" [] 0 None zero_time zero_time "" "" in
  match SetPassword "password123" user with
  | Ok u => Ok u
  | Err e => Err (ErrorWrap ("failed to set password for user " +:+ email) e)
  end.
(** An error of [SetPassword] is ignored. *)
Definition admin_email : string := "admin@unibaseerp.com".
Definition admin_user (org : Organization) : User :=
  let u := mkUser uuid_Nil (o_ID org) admin_email "" "Admin" "User" true true None None false "" [] 0 None
             zero_time zero_time "" "" in
  match SetPassword "admin123" u with Ok u' => u' | Err _ => u end.

Fixpoint seeded_users (org : Organization) (userIndex n : nat) : res error (list User) :=
  match n with
  | O => Ok (if String.eqb (o_Domain org) "unibaseerp.com" then [admin_user org] else [])
  | S n' =>
      match seeded_user org userIndex with
      | Err e => Err e
      | Ok u => res_map (cons u) (seeded_users org (userIndex + 1) n')
      end
  end.
(** The loop over the organizations, [total] of them, from [orgIndex]. *)
Fixpoint all_users (total orgIndex userIndex : nat) (orgs : list Organization) : res error (list User) :=
  match orgs with
  | [] => Ok []
  | org :: orgs' =>
      let numUsers := (100 / total + if (orgIndex <? 100 mod total)%nat then 1 else 0)%nat in
      match seeded_users org userIndex numUsers with
      | Err e => Err e
      | Ok us => res_map (app us) (all_users total (orgIndex + 1) (userIndex + numUsers) orgs')
      end
  end.
End users.

(** ** Role assignments *)
Section assignments.
Context (dw : Draws).

Definition weightedRoles : list string := concat ((λ w, replicate w.2 w.1) <$> dw_weights dw).
Definition role_named (name : string) (l : list Role) : option Role :=
  List.find (λ r, String.eqb (r_Name r) name) l.
Definition assignment (user : User) (role : Role) : UserRole :=
  mkUserRole uuid_Nil (u_ID user) (r_ID role) zero_time.
(** The second role: [None] where a nil role is dereferenced. *)
Fixpoint second_role (name : string) (selected : option Role) (l : list Role) : option (option Role) :=
  match l with
  | [] => Some None
  | role :: l' =>
      if String.eqb (r_Name role) name then
        match selected with
        | None => None
        | Some s => if (r_ID role =? r_ID s)%N then second_role name selected l' else Some (Some role)
        end
      else second_role name selected l'
  end.
Definition roles_of_user (roles : list Role) (i : nat) (user : User) : option (list UserRole) :=
  let orgRoles := List.filter (λ r, (r_OrganizationID r =? u_OrganizationID user)%N) roles in
  match orgRoles with
  | [] => Some []
  | _ =>
      let selected := role_named (pick "" weightedRoles (rd_role (dw_role dw i))) orgRoles in
      let first := match selected with
        | None => []
        | Some role =>
            if String.eqb (u_Email user) admin_email then
              match role_named "Super Admin" orgRoles with
              | Some superAdmin => [assignment user superAdmin]
              | None => []
              end
            else [assignment user role]
        end in
      match rd_second (dw_role dw i) with
      | Some draw =>
          if (1 <? length orgRoles)%nat then
            second ← second_role (pick "" weightedRoles draw) selected orgRoles;
            Some (first ++ match second with Some role => [assignment user role] | None => [] end)
          else Some first
      | None => Some first
      end
  end.
Fixpoint all_user_roles (roles : list Role) (i : nat) (users : list User) : option (list UserRole) :=
  match users with
  | [] => Some []
  | u :: us =>
      rs ← roles_of_user roles i u;
      rest ← all_user_roles roles (i + 1) us;
      Some (rs ++ rest)
  end.
End assignments.

(** ** Activities *)
Section activities.
Context (dw : Draws).

Definition seeded_activity (user : User) (x : ActivityDraw) : UserActivity :=
  let '(action, resource, details) := pick ("", "", "") activityTypes (xd_type x) in
  let createdAt := days_ago (dw_now dw) (xd_days x mod 30) - Z.of_nat (xd_hours x mod 24) * Hour
                   - Z.of_nat (xd_minutes x mod 60) * Minute in
  mkUserActivity uuid_Nil (u_ID user) (u_OrganizationID user) action resource details
    (pick "" ipAddresses (xd_ip x)) (pick "" userAgents (xd_agent x)) createdAt createdAt.
Definition recent_login (i : nat) (user : User) : list UserActivity :=
  match u_IsActive user, u_LastLoginAt user with
  | true, Some t =>
      [mkUserActivity uuid_Nil (u_ID user) (u_OrganizationID user) ActionLogin ResourceAuth
         (quoted "{'success': true, 'method': 'email_password', 'remember_me': false}")
         (pick "" ipAddresses (dw_recent dw i).1) (pick "" userAgents (dw_recent dw i).2) t t]
  | _, _ => []
  end.
Definition user_activities (i : nat) (user : User) : list UserActivity :=
  ((λ k, seeded_activity user (dw_activity dw i k)) <$> seq 0 (dw_count dw i mod 16 + 5)) ++ recent_login i user.
Definition failed_login (users : list User) (x : FailureDraw) : UserActivity :=
  let user := pick zero_user users (fd_user x) in
  mkUserActivity uuid_Nil (u_ID user) (u_OrganizationID user) ActionLoginFailed ResourceAuth
    (quoted "{'email': '" +:+ u_Email user +:+ quoted "', 'reason': 'invalid_password', 'attempts': " +:+
     Itoa (Z.of_nat (fd_attempts x mod 3) + 1) +:+ "}")
    (pick "" ipAddresses (fd_ip x)) (pick "" userAgents (fd_agent x))
    (days_ago (dw_now dw) (fd_created x mod 7)) (days_ago (dw_now dw) (fd_updated x mod 7)).
Definition all_activities (users : list User) : list UserActivity :=
  concat (imap user_activities users) ++ ((λ k, failed_login users (dw_failure dw k)) <$> seq 0 20).
End activities.

(** ** Seeding *)
Section seeding.
Context {D : Type} `{Gorm D} `{CryptoLib} (dw : Draws).
Abbreviation MF := (GoM (option error)).

(** A batch: the rows it stores; an empty one is refused. *)
Definition batch_rows {A} `{Row A} (k : nat) (l : list A) : list A :=
  imap (λ i a, row_created (dw_now dw) (dw_ids dw k i) a) l.
Definition insert_row {A} (clash : A → A → bool) (l : list A) (a : A) : list A :=
  if existsb (clash a) l then l else a :: l.
Definition insert_rows {A} `{Row A} (clash : A → A → bool) (l : list A) (T : Tables) : Tables :=
  with_rows (foldl (insert_row clash) (rows T) l) T.
Definition empty_slice : error := ErrorString "empty slice found".
Definition db_CreateBatch {A} `{Row A} (clash : A → A → bool) (k : nat) (l : list A) : M D (list A) :=
  match l with
  | [] => fail empty_slice
  | _ => db_Exec (insert_rows clash (batch_rows k l)) ;;; ret (batch_rows k l)
  end.
Definition no_clash {A} : A → A → bool := λ _ _, false.
Definition same_key {A} (f : A → string) : A → A → bool := λ a b, String.eqb (f a) (f b).
Definition is_in (l : list string) (x : string) : bool := existsb (String.eqb x) l.

Definition seedOrganizations : M D (list Organization) :=
  let domains := o_Domain <$> seed_organizations in
  db_CreateBatch (same_key o_Domain) 0 seed_organizations ;;;
  db_FindWhere (λ o, is_in domains (o_Domain o)) any_order.
Definition seedPermissions : M D (list Permission) :=
  let names := p_Name <$> seed_permissions in
  db_CreateBatch (same_key p_Name) 1 seed_permissions ;;;
  db_FindWhere (λ p, is_in names (p_Name p)) any_order.

(** [FirstOrCreate] with [Attrs]. *)
Definition ensure_role (org : Organization) (template : string * string * bool) : M D Role :=
  let '(name, description, isSystem) := template in
  let* found := attempt (F:=error) (db_FirstWhere (λ r : Role,
                  (r_OrganizationID r =? o_ID org)%N && String.eqb (r_Name r) name)) in
  match found with
  | Ok role => ret role
  | Err e =>
      if is_sentinel gorm_ErrRecordNotFound e then
        db_Created (mkRole uuid_Nil (o_ID org) name description isSystem true zero_time zero_time)
      else fail e
  end.
Fixpoint map_each {X Y} (f : X → M D Y) (l : list X) : M D (list Y) :=
  match l with
  | [] => ret []
  | x :: l' => let* y := f x in let* ys := map_each f l' in ret (y :: ys)
  end.
Definition seedRoles (organizations : list Organization) : M D (list Role) :=
  let* rs := map_each (λ org, map_each (ensure_role org) roleTemplates) organizations in
  ret (concat rs).

(** The permissions of a role: all of them for Super Admin. *)
Definition granted_names (permissions : list Permission) (role : Role) : list string :=
  if String.eqb (r_Name role) "Super Admin" then p_Name <$> permissions
  else default [] (snd <$> List.find (λ e, String.eqb e.1 (r_Name role)) rolePermissionMap).
(** A map by name: the last of the permissions of a name. *)
Definition permission_named (permissions : list Permission) (name : string) : option Permission :=
  last (List.filter (λ p, String.eqb (p_Name p) name) permissions).
Definition role_permissions (permissions : list Permission) (role : Role) : list RolePermission :=
  (λ p, mkRolePermission uuid_Nil (r_ID role) (p_ID p) zero_time) <$>
    omap (permission_named permissions) (granted_names permissions role).
Definition same_grant (a b : RolePermission) : bool :=
  (rp_RoleID a =? rp_RoleID b)%N && (rp_PermissionID a =? rp_PermissionID b)%N.
Definition seedRolePermissions (roles : list Role) (permissions : list Permission) : M D unit :=
  db_CreateBatch same_grant 2 (concat (role_permissions permissions <$> roles)) ;;; ret tt.

(** A division by the number of organizations: it panics without any. *)
Definition seedUsers (organizations : list Organization) : MF D (list User) :=
  match organizations with
  | [] => panics
  | _ => liftF (let* users := lift_res (all_users dw (length organizations) 0 0 organizations) in
                db_CreateBatch no_clash 3 users)
  end.

Definition same_link (a b : UserRole) : bool :=
  (ur_UserID a =? ur_UserID b)%N && (ur_RoleID a =? ur_RoleID b)%N.
Definition seedUserRoles (users : list User) (roles : list Role) : MF D unit :=
  match all_user_roles dw roles 0 users with
  | None => panics
  | Some userRoles => liftF (db_CreateBatch same_link 4 userRoles ;;; ret tt)
  end.

(** The batches of 100, numbered from [k]. *)
Fixpoint activity_batches (fuel k : nat) (l : list UserActivity) : M D unit :=
  match fuel, l with
  | S fuel', _ :: _ =>
      wrap_err (ErrorWrap "failed to create activity batch") (db_CreateBatch no_clash k (take 100 l)) ;;;
      activity_batches fuel' (k + 1) (drop 100 l)
  | _, _ => ret tt
  end.
(** The error of a count is not looked at. *)
Definition count_of {A} `{Row A} : M D Z :=
  let* r := attempt (E:=error) (F:=error) (db_Count (rows (A:=A))) in
  ret (match r with Ok n => n | Err _ => 0 end).
Definition seedUserActivities (users : list User) : M D unit :=
  let* activityCount := count_of (A:=UserActivity) in
  if (0 <? activityCount)%Z then ret tt
  else let activities := all_activities dw users in
       activity_batches (length activities) 5 activities.

(** The error of a step, with what failed. *)
Definition step {X} (msg : string) (m : MF D X) : MF D X := wrap_err (option_map (ErrorWrap msg)) m.
Definition SeedAll : MF D unit :=
  let* userCount := liftF (count_of (A:=User)) in
  if (0 <? userCount)%Z then ret tt
  else
    let* organizations := step "failed to seed organizations" (liftF seedOrganizations) in
    let* permissions := step "failed to seed permissions" (liftF seedPermissions) in
    let* roles := step "failed to seed roles" (liftF (seedRoles organizations)) in
    step "failed to seed role permissions" (liftF (seedRolePermissions roles permissions)) ;;;
    let* users := step "failed to seed users" (seedUsers organizations) in
    step "failed to seed user roles" (seedUserRoles users roles) ;;;
    step "failed to seed user activities" (liftF (seedUserActivities users)).
End seeding.
