(* ===== verification/SeederProps.v ===== *)
(** * What seeding guarantees

    Theorems on [SeedAll] (Seeder.v): a successful run on an empty database
    leaves an administrator with every permission, a run on a database with
    users does nothing, and the tables stay well formed. *)

From S2P Require Import Prelude Errors Models Ifaces Database Repos AuthService Http HttpHandlers Activity Seeder.

#[local] Open Scope Z_scope.

(** ** Tables that only grow *)

Record grows (T T' : Tables) : Prop := mkGrows {
  g_users : tb_users T ⊆ tb_users T'; g_organizations : tb_organizations T ⊆ tb_organizations T';
  g_roles : tb_roles T ⊆ tb_roles T'; g_permissions : tb_permissions T ⊆ tb_permissions T';
  g_user_roles : tb_user_roles T ⊆ tb_user_roles T';
  g_role_permissions : tb_role_permissions T ⊆ tb_role_permissions T' }.
#[export] Instance grows_preorder : PreOrder grows.
Proof.
  split; [intros T; by split|]. intros T1 T2 T3 [] []. split; by etrans.
Qed.

(** The tables the seeder inserts into before the activities. *)
Class Grown (A : Type) `{Row A} := grown l T : rows T ⊆ l → grows T (with_rows l T).
Ltac grown := intros l [] Hl; by split.
#[export] Instance User_grown : Grown User. Proof. grown. Qed.
#[export] Instance Organization_grown : Grown Organization. Proof. grown. Qed.
#[export] Instance Role_grown : Grown Role. Proof. grown. Qed.
#[export] Instance Permission_grown : Grown Permission. Proof. grown. Qed.
#[export] Instance UserRole_grown : Grown UserRole. Proof. grown. Qed.
#[export] Instance RolePermission_grown : Grown RolePermission. Proof. grown. Qed.
#[export] Instance UserActivity_grown : Grown UserActivity. Proof. grown. Qed.

Lemma list_elem_of_concat {X} (x : X) (ls : list (list X)) : x ∈ concat ls ↔ ∃ l, x ∈ l ∧ l ∈ ls.
Proof. rewrite list_elem_of_In, in_concat. setoid_rewrite list_elem_of_In. naive_solver. Qed.

(** Batches: no row is lost, and each new one is there or clashes with one. *)
Section batches.
Context {A : Type} `{RowLaws A}.

Lemma foldl_insert_sub (clash : A → A → bool) l rs : rs ⊆ foldl (insert_row clash) rs l.
Proof.
  revert rs. induction l as [|a l IH]; intros rs; [done|]. cbn. etrans; [|apply IH].
  unfold insert_row. destruct (existsb _ rs); [done|]. intros x Hx. by right.
Qed.
Lemma foldl_insert_in (clash : A → A → bool) l rs a : a ∈ l →
  ∃ b, b ∈ foldl (insert_row clash) rs l ∧ (b = a ∨ clash a b = true).
Proof.
  revert rs. induction l as [|x l IH]; intros rs; [by intros ?%elem_of_nil|].
  intros [->|Hin]%elem_of_cons; [|by apply IH]. cbn. unfold insert_row at 2.
  destruct (existsb (clash x) rs) eqn:E.
  - apply existsb_exists in E as (b & Hb & Hc). exists b. split; [|by right].
    by apply foldl_insert_sub, list_elem_of_In.
  - exists x. split; [|by left]. apply foldl_insert_sub. by left.
Qed.
End batches.

Section seeding.
Context {D : Type} `{GL : GormLaws D} `{CryptoLib} (dw : Draws).

Lemma CreateBatch_ok {A} `{HL : RowLaws A} `{!Grown A} clash k (l out : list A) d d' :
  db_CreateBatch dw clash k l d = (Ok out, d') →
  out = batch_rows dw k l ∧ grows (db_tables d) (db_tables d') ∧
  ∀ a, a ∈ out → ∃ b, b ∈ rows (db_tables d') ∧ (b = a ∨ clash a b = true).
Proof.
  intros Hrun. assert (db_Exec (insert_rows clash (batch_rows dw k l)) d = (Ok tt, d') ∧ out = batch_rows dw k l)
    as (E & ->).
  { unfold db_CreateBatch in Hrun. destruct l; [done|]. apply bind_ok_inv in Hrun as ([] & d1 & E & [= <- <-]). done. }
  apply db_Exec_ok in E as [-> _]. split_and!; [done| |].
  - apply grown, foldl_insert_sub.
  - intros a Ha. unfold insert_rows. rewrite rows_with. by apply foldl_insert_in.
Qed.

Lemma map_each_ok {X Y} (f : X → M D Y) (P : X → Y → Prop) (Q : Y → Tables → Prop) l d ys d' :
  (∀ x d y d', f x d = (Ok y, d') → grows (db_tables d) (db_tables d') ∧ P x y ∧ Q y (db_tables d')) →
  (∀ y T T', grows T T' → Q y T → Q y T') →
  map_each f l d = (Ok ys, d') →
  grows (db_tables d) (db_tables d') ∧ Forall2 P l ys ∧ Forall (λ y, Q y (db_tables d')) ys.
Proof.
  intros Hf HQ. revert d ys. induction l as [|x l IH]; intros d ys.
  { intros [= <- <-]. split_and!; [done | constructor | constructor]. }
  intros (y & d1 & Hx & Hrest)%bind_ok_inv. apply bind_ok_inv in Hrest as (zs & d2 & Hl & [= <- <-]).
  apply Hf in Hx as (G1 & HP & HQ1). apply IH in Hl as (G2 & HPs & HQs).
  split_and!; [by etrans | by constructor | constructor; eauto].
Qed.

Lemma db_Created_grows {A} `{HL : RowLaws A} `{!Grown A} (a a' : A) d d' : db_Created a d = (Ok a', d') →
  grows (db_tables d) (db_tables d') ∧ a' ∈ rows (db_tables d') ∧
  ∃ t fresh, a' = row_created t fresh a.
Proof.
  intros (t & fresh & _ & Ha & -> & _)%Created_ok. unfold db_insert. rewrite rows_with.
  split_and!; [|by left|by exists t, fresh]. apply grown. intros x Hx. by right.
Qed.

(** A role for an organization. *)
Lemma ensure_role_ok org t d r d' : ensure_role org t d = (Ok r, d') →
  grows (db_tables d) (db_tables d') ∧ (r_OrganizationID r = o_ID org ∧ r_Name r = t.1.1) ∧
  r ∈ tb_roles (db_tables d').
Proof.
  destruct t as [[name description] isSystem]. unfold ensure_role. rewrite bind_attempt.
  destruct (db_FirstWhere _ d) as [[role|e] d1] eqn:E; cbn [fst snd].
  - apply FirstWhere_ok in E as (Hin & HP & Hd). intros [= <- <-]. rewrite Hd.
    apply andb_true_iff in HP as [?%N.eqb_eq ?%String.eqb_eq]. split_and!; done.
  - pose proof (db_First_keeps row_id (λ T, List.filter (λ r : Role, (r_OrganizationID r =? o_ID org)%N &&
      String.eqb (r_Name r) name) (rows T)) d) as Hk.
    unfold db_FirstWhere in E. rewrite E in Hk. cbn in Hk.
    destruct (is_sentinel _ e); [|done]. intros (G & Hin & t & fresh & ->)%db_Created_grows. rewrite Hk in G. done.
Qed.

Lemma seedRoles_ok orgs d roles d' : seedRoles orgs d = (Ok roles, d') →
  grows (db_tables d) (db_tables d') ∧ (∀ r, r ∈ roles → r ∈ tb_roles (db_tables d')) ∧
  ∀ org t, org ∈ orgs → t ∈ roleTemplates →
    ∃ r, r ∈ roles ∧ r_OrganizationID r = o_ID org ∧ r_Name r = t.1.1.
Proof.
  intros (rss & d1 & Hrun & [= <- <-])%bind_ok_inv.
  eapply (map_each_ok _ (λ org rs, Forall2 (λ t r, r_OrganizationID r = o_ID org ∧ r_Name r = t.1.1) roleTemplates rs)
    (λ rs T, Forall (λ r, r ∈ tb_roles T) rs)) in Hrun as (G & HF & HQ).
  - split_and!; [done| |].
    + intros r (rs & Hr & Hrs)%list_elem_of_concat. rewrite Forall_forall in HQ.
      specialize (HQ rs Hrs). rewrite Forall_forall in HQ. by apply HQ.
    + intros org t Ho Ht. apply list_elem_of_lookup in Ho as [i Hi], Ht as [j Hj].
      apply (Forall2_lookup_l _ _ _ _ _ HF) in Hi as (rs & Hrs & Hinner).
      apply (Forall2_lookup_l _ _ _ _ _ Hinner) in Hj as (r & Hr & Hrr). exists r. split; [|done].
      apply list_elem_of_concat. exists rs. eauto using list_elem_of_lookup_2.
  - intros org d2 rs d3 Hr. eapply (map_each_ok _ (λ t r, r_OrganizationID r = o_ID org ∧ r_Name r = t.1.1)
      (λ r T, r ∈ tb_roles T)) in Hr; [done| |].
    + intros t d4 r d5. apply ensure_role_ok.
    + intros r T T' HG. apply (g_roles _ _ HG).
  - intros rs T T' HG HQ. eapply Forall_impl; [exact HQ|]. intros r. apply (g_roles _ _ HG).
Qed.
End seeding.

(** ** The steps of a successful run *)
Section steps.
Context {D : Type} `{GL : GormLaws D} `{CryptoLib} (dw : Draws).

Lemma is_in_spec l x : is_in l x = true ↔ x ∈ l.
Proof.
  unfold is_in. rewrite existsb_exists. setoid_rewrite <- list_elem_of_In. split.
  - by intros (y & Hy & ->%String.eqb_eq).
  - intros Hx. exists x. split; [done | apply String.eqb_refl].
Qed.

(** Rows reloaded by a text column after a batch that skips the texts there. *)
Lemma reload_ok {A} `{HL : RowLaws A} `{!Grown A} (f : A → string) k (l out rs : list A) d d1 d' :
  (∀ t fresh a, f (row_created t fresh a) = f a) →
  db_CreateBatch dw (same_key f) k l d = (Ok rs, d1) →
  db_FindWhere (λ a, is_in (f <$> l) (f a)) any_order d1 = (Ok out, d') →
  grows (db_tables d) (db_tables d') ∧
  (∀ a, a ∈ out → a ∈ rows (db_tables d') ∧ f a ∈ f <$> l) ∧
  (∀ x, x ∈ f <$> l → ∃ a, a ∈ out ∧ f a = x).
Proof.
  intros Hf Hc Hfind. destruct (CreateBatch_ok dw _ _ _ _ _ _ Hc) as (-> & G & Hall).
  destruct (FindWhere_ok _ _ _ _ _ Hfind) as (Hp & Ht). rewrite Ht. split_and!; [done| |].
  - intros a. rewrite Hp. intros [Hin Hi]%list_elem_of_In%filter_In. rewrite list_elem_of_In.
    split; [done | by apply is_in_spec].
  - intros x (a & -> & Ha)%list_elem_of_fmap. apply list_elem_of_lookup in Ha as [i Hi].
    destruct (Hall (row_created (dw_now dw) (dw_ids dw k i) a)) as (b & Hb & Hab).
    { unfold batch_rows. apply list_elem_of_lookup. exists i. by rewrite list_lookup_imap, Hi. }
    assert (f b = f a) as Hfb.
    { destruct Hab as [->|He]; [apply Hf|]. unfold same_key in He. apply String.eqb_eq in He. by rewrite <- He, Hf. }
    exists b. split; [|done]. rewrite Hp. apply list_elem_of_In, filter_In. rewrite <- list_elem_of_In.
    split; [done|]. apply is_in_spec. rewrite Hfb. apply list_elem_of_fmap_2. by eapply list_elem_of_lookup_2.
Qed.

Lemma seedOrganizations_ok d out d' : seedOrganizations dw d = (Ok out, d') →
  grows (db_tables d) (db_tables d') ∧
  (∀ o, o ∈ out → o ∈ tb_organizations (db_tables d') ∧ o_Domain o ∈ o_Domain <$> seed_organizations) ∧
  (∀ x, x ∈ o_Domain <$> seed_organizations → ∃ o, o ∈ out ∧ o_Domain o = x).
Proof.
  intros (rs & d1 & Hc & Hf)%bind_ok_inv.
  assert (∀ t fresh (a : Organization), o_Domain (row_created t fresh a) = o_Domain a) as Hk by by intros t fresh [].
  exact (reload_ok o_Domain 0 _ _ _ _ _ _ Hk Hc Hf).
Qed.
Lemma seedPermissions_ok d out d' : seedPermissions dw d = (Ok out, d') →
  grows (db_tables d) (db_tables d') ∧
  (∀ p, p ∈ out → p ∈ tb_permissions (db_tables d') ∧ p_Name p ∈ p_Name <$> seed_permissions) ∧
  (∀ x, x ∈ p_Name <$> seed_permissions → ∃ p, p ∈ out ∧ p_Name p = x).
Proof.
  intros (rs & d1 & Hc & Hf)%bind_ok_inv.
  assert (∀ t fresh (a : Permission), p_Name (row_created t fresh a) = p_Name a) as Hk by by intros t fresh [].
  exact (reload_ok p_Name 1 _ _ _ _ _ _ Hk Hc Hf).
Qed.

Lemma permission_named_some permissions p : p ∈ permissions →
  ∃ q, permission_named permissions (p_Name p) = Some q ∧ q ∈ permissions ∧ p_Name q = p_Name p.
Proof.
  intros Hp. unfold permission_named.
  destruct (last (List.filter (λ q, String.eqb (p_Name q) (p_Name p)) permissions)) as [q|] eqn:E.
  - apply last_Some_elem_of, list_elem_of_In, filter_In in E as [Hq Heq%String.eqb_eq].
    exists q. by rewrite list_elem_of_In.
  - apply last_None in E. exfalso. assert (p ∈ List.filter (λ q, String.eqb (p_Name q) (p_Name p)) permissions) as Hin.
    { apply list_elem_of_In, filter_In. rewrite <- list_elem_of_In. by rewrite String.eqb_refl. }
    rewrite E in Hin. by apply elem_of_nil in Hin.
Qed.

(** Super Admin is granted every permission seeded. *)
Lemma seedRolePermissions_ok roles permissions d d' :
  seedRolePermissions dw roles permissions d = (Ok tt, d') →
  grows (db_tables d) (db_tables d') ∧
  ∀ r p, r ∈ roles → r_Name r = "Super Admin" → p ∈ permissions →
    ∃ q x, q ∈ permissions ∧ p_Name q = p_Name p ∧ x ∈ tb_role_permissions (db_tables d') ∧
      rp_RoleID x = r_ID r ∧ rp_PermissionID x = p_ID q.
Proof.
  intros (out & d1 & Hc & [= <-])%bind_ok_inv.
  destruct (CreateBatch_ok dw _ _ _ _ _ _ Hc) as (-> & G & Hall). split; [done|].
  intros r p Hr Hname Hp. destruct (permission_named_some permissions p Hp) as (q & Hq & Hin & Hqn).
  set (x := mkRolePermission uuid_Nil (r_ID r) (p_ID q) zero_time).
  assert (x ∈ concat (role_permissions permissions <$> roles)) as Hx.
  { apply list_elem_of_concat. exists (role_permissions permissions r).
    split; [|by apply list_elem_of_fmap_2]. unfold role_permissions. apply list_elem_of_fmap. exists q.
    split; [done|]. apply list_elem_of_omap. exists (p_Name p). split; [|done].
    unfold granted_names. rewrite Hname. by apply list_elem_of_fmap_2. }
  apply list_elem_of_lookup in Hx as [i Hi].
  destruct (Hall (row_created (dw_now dw) (dw_ids dw 2 i) x)) as (b & Hb & Hxb).
  { unfold batch_rows. apply list_elem_of_lookup. exists i. by rewrite list_lookup_imap, Hi. }
  exists q, b. split_and!; [done..| |]; destruct Hxb as [->|[? ?]%andb_true_iff]; try done; cbn in *;
    symmetry; by apply N.eqb_eq.
Qed.
End steps.

(** ** Users and their roles *)
Section assigning.
Context {D : Type} `{GL : GormLaws D} `{CryptoLib} (dw : Draws).

Lemma pick_in {A} (zero : A) l n : l ≠ [] → pick zero l n ∈ l.
Proof.
  intros Hl. unfold pick. apply list_elem_of_In, nth_In, Nat.mod_upper_bound. by destruct l.
Qed.

Lemma seeded_users_admin org i n us : seeded_users dw org i n = Ok us →
  o_Domain org = "unibaseerp.com" → admin_user org ∈ us.
Proof.
  intros Hrun Hd. revert i us Hrun. induction n as [|n IH]; intros i us; cbn [seeded_users].
  - rewrite Hd. intros [= <-]. by left.
  - destruct (seeded_user dw org i) as [u|]; [|done].
    destruct (seeded_users dw org (i + 1) n) as [us'|] eqn:E; [|done]. intros [= <-]. right. by eapply IH.
Qed.
Lemma all_users_admin total oi ui orgs us org : all_users dw total oi ui orgs = Ok us →
  org ∈ orgs → o_Domain org = "unibaseerp.com" → admin_user org ∈ us.
Proof.
  intros Hrun Hin Hd. revert oi ui us Hrun. induction orgs as [|o orgs IH]; [by apply elem_of_nil in Hin|].
  intros oi ui us. cbn [all_users].
  destruct (seeded_users dw o ui _) as [us1|] eqn:E1; [|done].
  destruct (all_users dw total _ _ orgs) as [us2|] eqn:E2; [|done]. intros [= <-].
  apply elem_of_app. apply elem_of_cons in Hin as [->|Hin]; [left; by eapply seeded_users_admin | right; by eapply IH].
Qed.

(** Every user stored is active: a false [is_active] takes the default. *)
Lemma batch_users_active k us : Forall (λ u, u_IsActive u = true) (batch_rows (A:=User) dw k us).
Proof.
  apply Forall_lookup. intros i u Hu. unfold batch_rows in Hu.
  apply list_lookup_imap_Some in Hu as (v & _ & ->). by destruct v.
Qed.

Lemma liftF_ok {X} (m : M D X) d x d' : liftF m d = (Ok x, d') → m d = (Ok x, d').
Proof. unfold liftF, wrap_err. destruct (m d) as [[y|e] d1]; [|done]. by intros [= <- <-]. Qed.
Lemma step_ok {X} msg (m : GoM (option error) D X) d x d' : step msg m d = (Ok x, d') → m d = (Ok x, d').
Proof. unfold step, wrap_err. destruct (m d) as [[y|e] d1]; [|done]. by intros [= <- <-]. Qed.

Lemma seedUsers_ok orgs d users d' : seedUsers dw orgs d = (Ok users, d') →
  grows (db_tables d) (db_tables d') ∧ (∀ u, u ∈ users → u ∈ tb_users (db_tables d') ∧ u_IsActive u = true) ∧
  ∀ org, org ∈ orgs → o_Domain org = "unibaseerp.com" →
    ∃ admin, admin ∈ users ∧ u_Email admin = admin_email ∧ u_OrganizationID admin = o_ID org ∧
      u_PasswordHash admin = u_PasswordHash (admin_user org).
Proof.
  unfold seedUsers. intros Hrun.
  assert (liftF (let* users := lift_res (all_users dw (length orgs) 0 0 orgs) in
                 db_CreateBatch dw no_clash 3 users) d = (Ok users, d')) as Hlift by by destruct orgs.
  clear Hrun. apply liftF_ok in Hlift. rewrite bind_lift in Hlift.
  destruct (all_users dw (length orgs) 0 0 orgs) as [us|e] eqn:E; [|done].
  destruct (CreateBatch_ok dw _ _ _ _ _ _ Hlift) as (-> & G & Hall). split_and!; [done| |].
  - intros u Hu. split.
    + by destruct (Hall u Hu) as (b & Hb & [->|?]).
    + pose proof (batch_users_active 3 us) as Hact. rewrite Forall_forall in Hact. by apply Hact.
  - intros org Horg Hd. pose proof (all_users_admin _ _ _ _ _ _ E Horg Hd) as Hin.
    apply list_elem_of_lookup in Hin as [i Hi]. exists (row_created (dw_now dw) (dw_ids dw 3 i) (admin_user org)).
    split; [unfold batch_rows; apply list_elem_of_lookup; exists i; by rewrite list_lookup_imap, Hi|].
    unfold admin_user, SetPassword. by destruct (bcrypt_Generate 10 "admin123").
Qed.

(** The organization has a role for each template. *)
Definition has_templates (roles : list Role) (org : N) : Prop := ∀ t, t ∈ roleTemplates →
  ∃ r, r ∈ roles ∧ r_OrganizationID r = org ∧ r_Name r = t.1.1.

Lemma role_named_some name roles : (∃ r, r ∈ roles ∧ r_Name r = name) →
  ∃ r, role_named name roles = Some r ∧ r ∈ roles ∧ r_Name r = name.
Proof.
  intros (r & Hin & Hn). unfold role_named. destruct (List.find _ roles) as [q|] eqn:E.
  - apply find_some in E as [Hq Heq%String.eqb_eq]. exists q. by rewrite list_elem_of_In.
  - apply list_elem_of_In in Hin. apply (find_none _ _ E) in Hin. by rewrite Hn, String.eqb_refl in Hin.
Qed.

Lemma weighted_role_is_template n : Permutation (dw_weights dw) roleWeights →
  ∃ t, t ∈ roleTemplates ∧ t.1.1 = pick "" (weightedRoles dw) n.
Proof.
  intros Hw. assert (pick "" (weightedRoles dw) n ∈ (λ t, t.1.1) <$> roleTemplates) as Hin.
  2: { apply list_elem_of_fmap in Hin as (t & -> & Ht). eauto. }
  assert (∀ x, x ∈ weightedRoles dw → x ∈ (λ t, t.1.1) <$> roleTemplates) as Hsub.
  { intros x (l & Hx & Hl)%list_elem_of_concat. apply list_elem_of_fmap in Hl as (w & -> & Hwin).
    rewrite Hw in Hwin. apply elem_of_replicate_inv in Hx as ->.
    assert (Forall (λ w, w.1 ∈ (λ t, t.1.1) <$> roleTemplates) roleWeights) as HF
      by (eapply bool_decide_eq_true; vm_compute; reflexivity).
    rewrite Forall_forall in HF. by apply HF. }
  apply Hsub, pick_in. intros Hnil. assert ("Employee" ∈ weightedRoles dw) as Hemp.
  { apply list_elem_of_concat. exists (replicate 40 "Employee"). split; [by left|].
    apply list_elem_of_fmap. exists ("Employee", 40%nat). split; [done|]. rewrite Hw. by left. }
  rewrite Hnil in Hemp. by apply elem_of_nil in Hemp.
Qed.

Lemma roles_of_admin roles i user l : Permutation (dw_weights dw) roleWeights →
  u_Email user = admin_email → has_templates roles (u_OrganizationID user) →
  roles_of_user dw roles i user = Some l →
  ∃ sa, sa ∈ roles ∧ r_Name sa = "Super Admin" ∧ r_OrganizationID sa = u_OrganizationID user ∧
    assignment user sa ∈ l.
Proof.
  intros Hw He Ht. set (org := List.filter (λ r, (r_OrganizationID r =? u_OrganizationID user)%N) roles).
  assert (∀ t, t ∈ roleTemplates → ∃ r, role_named t.1.1 org = Some r ∧ r ∈ org ∧ r_Name r = t.1.1) as Hnamed.
  { intros t Hin. destruct (Ht t Hin) as (r & Hr & Ho & Hn). apply role_named_some. exists r. split; [|done].
    apply list_elem_of_In, filter_In. rewrite <- list_elem_of_In. split; [done|]. by apply N.eqb_eq. }
  assert (("Super Admin", "Full system access with all permissions", true) ∈ roleTemplates) as Hsa by by left.
  destruct (Hnamed _ Hsa) as (sa & Hfind & Hin & Hname). cbn [fst] in Hfind, Hname.
  destruct (weighted_role_is_template (rd_role (dw_role dw i)) Hw) as (t & Htin & Heq).
  destruct (Hnamed t Htin) as (sel & Hsel & _ & _). rewrite Heq in Hsel.
  intros Hrun. exists sa. pose proof Hin as Hin'.
  apply list_elem_of_In, filter_In in Hin' as [Hin1 Ho%N.eqb_eq]. split_and!;
    [by apply list_elem_of_In | done | done |].
  revert Hrun. unfold roles_of_user. fold org. rewrite Hsel, He, String.eqb_refl, Hfind.
  destruct org as [|r0 org0]; [by apply elem_of_nil in Hin|].
  destruct (rd_second (dw_role dw i)) as [draw|]; [|intros [= <-]; by left].
  destruct (1 <? length (r0 :: org0))%nat; [|intros [= <-]; by left].
  destruct (second_role _ _ _) as [second|]; [|done]. intros [= <-]. by left.
Qed.

Lemma all_user_roles_in roles i users l user : all_user_roles dw roles i users = Some l → user ∈ users →
  ∃ j lu, roles_of_user dw roles j user = Some lu ∧ lu ⊆ l.
Proof.
  intros Hrun Hin. revert i l Hrun. induction users as [|u us IH]; [by apply elem_of_nil in Hin|].
  intros i l. cbn [all_user_roles].
  destruct (roles_of_user dw roles i u) as [rs|] eqn:E1; [|done].
  destruct (all_user_roles dw roles (i + 1) us) as [rest|] eqn:E2; [|done]. intros [= <-].
  apply elem_of_cons in Hin as [->|Hin].
  - exists i, rs. split; [done|]. intros x Hx. apply elem_of_app. by left.
  - destruct (IH Hin _ _ E2) as (j & lu & Hlu & Hsub). exists j, lu. split; [done|].
    intros x Hx. apply elem_of_app. right. by apply Hsub.
Qed.

Lemma seedUserRoles_ok users roles d d' : seedUserRoles dw users roles d = (Ok tt, d') →
  grows (db_tables d) (db_tables d') ∧
  (Permutation (dw_weights dw) roleWeights → ∀ user, user ∈ users → u_Email user = admin_email →
   has_templates roles (u_OrganizationID user) →
   ∃ sa x, sa ∈ roles ∧ r_Name sa = "Super Admin" ∧ r_OrganizationID sa = u_OrganizationID user ∧
     x ∈ tb_user_roles (db_tables d') ∧ ur_UserID x = u_ID user ∧ ur_RoleID x = r_ID sa).
Proof.
  unfold seedUserRoles. destruct (all_user_roles dw roles 0 users) as [l|] eqn:E; [|done].
  intros Hrun%liftF_ok. apply bind_ok_inv in Hrun as (out & d1 & Hc & [= <-]).
  destruct (CreateBatch_ok dw _ _ _ _ _ _ Hc) as (-> & G & Hall). split; [done|].
  intros Hw user Hin He Ht. destruct (all_user_roles_in _ _ _ _ _ E Hin) as (j & lu & Hlu & Hsub).
  destruct (roles_of_admin _ _ _ _ Hw He Ht Hlu) as (sa & Hsa & Hn & Ho & Has). apply Hsub in Has.
  apply list_elem_of_lookup in Has as [i Hi].
  destruct (Hall (row_created (dw_now dw) (dw_ids dw 4 i) (assignment user sa))) as (b & Hb & Hxb).
  { unfold batch_rows. apply list_elem_of_lookup. exists i. by rewrite list_lookup_imap, Hi. }
  exists sa, b. split_and!; [done..| |]; destruct Hxb as [->|[? ?]%andb_true_iff]; try done; cbn in *;
    symmetry; by apply N.eqb_eq.
Qed.
End assigning.

(** ** Seeding as a whole *)
Section whole.
Context {D : Type} `{GL : GormLaws D} `{CryptoLib} (dw : Draws).

Lemma count_of_run {A} `{Row A} d : db_tables (count_of (A:=A) d).2 = db_tables d ∧
  ∃ n, (count_of (A:=A) d).1 = Ok n ∧
    ((db_Count (rows (A:=A)) d).1 = Ok n ∨ n = 0).
Proof.
  unfold count_of. rewrite bind_attempt.
  assert (db_tables (db_Count (rows (A:=A)) d).2 = db_tables d) as Hk.
  { unfold db_Count, bind. pose proof (db_Find_keeps (select (λ T, [Z.of_nat (length (rows (A:=A) T))]) any_order) d).
    by destruct (db_Find _ d) as [[]]. }
  destruct (db_Count _ d) as [[n|e] d1]; cbn in *; eauto.
Qed.

Lemma activity_batches_grow fuel k l d d' : activity_batches dw fuel k l d = (Ok tt, d') →
  grows (db_tables d) (db_tables d').
Proof.
  revert k l d. induction fuel as [|fuel IH]; intros k l d; cbn [activity_batches]; [by intros [= <-]|].
  destruct l as [|a l]; [by intros [= <-]|]. intros (out & d1 & Hc & Hrest)%bind_ok_inv.
  etrans; [|by eapply IH]. unfold wrap_err in Hc.
  destruct (db_CreateBatch dw no_clash k (take 100 (a :: l)) d) as [[o|e] d2] eqn:E; [|done].
  injection Hc as _ <-. by destruct (CreateBatch_ok dw _ _ _ _ _ _ E) as (_ & G & _).
Qed.
Lemma seedUserActivities_grow users d d' : seedUserActivities dw users d = (Ok tt, d') →
  grows (db_tables d) (db_tables d').
Proof.
  intros (n & d1 & Hc & Hrest)%bind_ok_inv.
  destruct (count_of_run (A:=UserActivity) d) as [Hk _]. rewrite Hc in Hk. cbn in Hk. rewrite <- Hk.
  destruct (0 <? n)%Z; [by injection Hrest as <- | by eapply activity_batches_grow].
Qed.

(** A database with users that can be counted is left alone. *)
Lemma SeedAll_stops d n : (db_Count (rows (A:=User)) d).1 = Ok n → tb_users (db_tables d) ≠ [] →
  ∃ d', SeedAll dw d = (Ok tt, d') ∧ db_tables d' = db_tables d.
Proof.
  intros Hn Hu. destruct (count_of_run (A:=User) d) as (Hk & m & Hm & Hor).
  assert (0 < m) as Hpos.
  { assert (n = Z.of_nat (length (tb_users (db_tables d)))) as Hlen.
    { destruct (db_Count (rows (A:=User)) d) as [r d1] eqn:E. cbn in Hn. subst r.
      by apply Count_ok in E as [-> _]. }
    destruct (tb_users (db_tables d)) as [|u us]; [done|]. cbn in Hlen.
    unfold count_of in Hm. rewrite bind_attempt, Hn in Hm. injection Hm as <-. lia. }
  exists (count_of (A:=User) d).2. split; [|done]. unfold SeedAll, bind at 1, liftF, wrap_err.
  destruct (count_of d) as [r d1]. cbn in Hm. rewrite Hm. cbn.
  apply Z.ltb_lt in Hpos. by rewrite Hpos.
Qed.
End whole.

(** C40: seeding makes an administrator.  When [SeedAll] succeeds on a database
    without users, the organization of unibaseerp.com has an active user
    admin@unibaseerp.com, with the password set for it, who holds that
    organization's Super Admin role, and the role is linked with a permission
    of every name that is seeded, whatever was drawn at random and whatever
    organizations, roles and permissions were there before. *)
Theorem seeding_makes_an_administrator {D} `{GormLaws D} `{CryptoLaws} dw (d d' : D) h :
  tb_users (db_tables d) = [] → Permutation (dw_weights dw) roleWeights →
  bcrypt_Generate 10 "admin123" = Ok h → SeedAll dw d = (Ok tt, d') →
  let T := db_tables d' in
  ∃ org admin role link, org ∈ tb_organizations T ∧ o_Domain org = "unibaseerp.com" ∧
    admin ∈ tb_users T ∧ u_Email admin = admin_email ∧ u_OrganizationID admin = o_ID org ∧
    u_IsActive admin = true ∧ CheckPassword admin "admin123" = true ∧
    role ∈ tb_roles T ∧ r_Name role = "Super Admin" ∧ r_OrganizationID role = o_ID org ∧
    link ∈ tb_user_roles T ∧ ur_UserID link = u_ID admin ∧ ur_RoleID link = r_ID role ∧
    ∀ name, name ∈ p_Name <$> seed_permissions → ∃ p grant, p ∈ tb_permissions T ∧ p_Name p = name ∧
      grant ∈ tb_role_permissions T ∧ rp_RoleID grant = r_ID role ∧ rp_PermissionID grant = p_ID p.
Proof.
  intros Hnone Hw Hhash Hrun T. unfold SeedAll in Hrun.
  apply bind_ok_inv in Hrun as (n & d0 & Hc & Hrun). apply liftF_ok in Hc.
  assert (n = 0) as ->.
  { destruct (count_of_run (A:=User) d) as (_ & m & Hm & Hor). rewrite Hc in Hm. injection Hm as ->.
    destruct Hor as [Hd|]; [|done]. destruct (db_Count (rows (A:=User)) d) as [r d1] eqn:E. cbn in Hd. subst r.
    apply Count_ok in E as [-> _]. cbn. by rewrite Hnone. }
  cbn in Hrun.
  apply bind_ok_inv in Hrun as (orgs & d1 & (G1 & Horgs & Hdom)%step_ok%liftF_ok%seedOrganizations_ok & Hrun).
  apply bind_ok_inv in Hrun as (perms & d2 & (G2 & Hperms & Hnames)%step_ok%liftF_ok%seedPermissions_ok & Hrun).
  apply bind_ok_inv in Hrun as (roles & d3 & (G3 & Hroles & Htemplates)%step_ok%liftF_ok%seedRoles_ok & Hrun).
  apply bind_ok_inv in Hrun as ([] & d4 & (G4 & Hgrants)%step_ok%liftF_ok%seedRolePermissions_ok & Hrun).
  apply bind_ok_inv in Hrun as (users & d5 & (G5 & Husers & Hadmin)%step_ok%seedUsers_ok & Hrun).
  apply bind_ok_inv in Hrun as ([] & d6 & (G6 & Hlinks)%step_ok%seedUserRoles_ok & Hrun).
  apply step_ok, liftF_ok, seedUserActivities_grow in Hrun as G7.
  destruct (Hdom "unibaseerp.com") as (org & Horg & Hdomain); [by right; left|].
  destruct (Hadmin org Horg Hdomain) as (admin & Ha & He & Ho & Hp).
  destruct (Hlinks Hw admin Ha He) as (role & link & Hrole & Hrn & Hro & Hlink & Hlu & Hlr).
  { intros t Ht. destruct (Htemplates org t Horg Ht) as (r & Hr & Hr1 & Hr2). exists r. by rewrite Ho. }
  destruct (Husers admin Ha) as [Hau Hact].
  assert (grows (db_tables d2) T) as G by (do 5 (etrans; [eassumption|]); done).
  exists org, admin, role, link. split_and!; try done.
  - apply (g_organizations _ _ G), (g_organizations _ _ G2). by apply Horgs.
  - by apply (g_users _ _ G7), (g_users _ _ G6).
  - unfold CheckPassword. rewrite Hp. unfold admin_user, SetPassword. rewrite Hhash. cbn.
    by eapply bcrypt_Compare_Generate.
  - apply (g_roles _ _ G7), (g_roles _ _ G6), (g_roles _ _ G5), (g_roles _ _ G4). by apply Hroles.
  - by rewrite Hro.
  - by apply (g_user_roles _ _ G7).
  - intros name Hname. destruct (Hnames name Hname) as (p0 & Hp0 & Hpn).
    destruct (Hgrants role p0 Hrole Hrn Hp0) as (p & grant & Hpin & Hpname & Hg & Hgr & Hgp).
    exists p, grant. split_and!; try done; [|congruence|].
    + apply (g_permissions _ _ G). by apply Hperms.
    + by apply (g_role_permissions _ _ G7), (g_role_permissions _ _ G6), (g_role_permissions _ _ G5).
Qed.

(** ** What a run may leave behind *)
Section interrupted.
Context {D : Type} `{GL : GormLaws D} `{CryptoLib} (dw : Draws).

(** Each step keeps what the inserts into its table keep. *)
Lemma CreateBatch_preserves {A} `{Row A} (I : D → Prop) clash k (l : list A) :
  (∀ l, preserves I (db_Exec (insert_rows clash l))) → preserves I (db_CreateBatch dw clash k l).
Proof. intros HI. unfold db_CreateBatch. destruct l; preserve. apply HI. Qed.
Lemma map_each_preserves {X Y} (I : D → Prop) (f : X → M D Y) l :
  (∀ x, preserves I (f x)) → preserves I (map_each f l).
Proof. intros Hf. induction l as [|x l IH]; cbn [map_each]; preserve; by first [apply Hf | apply IH]. Qed.

(** A predicate closed under what the seeder does. *)
Record seed_closed (I : D → Prop) : Prop := mkSeedClosed {
  sc_First {X} key (q : Tables → list X) : preserves I (db_First key q);
  sc_Find {X} (q : Query X) : preserves I (db_Find q);
  sc_Organizations clash k l : preserves I (db_CreateBatch (A:=Organization) dw clash k l);
  sc_Permissions clash k l : preserves I (db_CreateBatch (A:=Permission) dw clash k l);
  sc_RolePermissions clash k l : preserves I (db_CreateBatch (A:=RolePermission) dw clash k l);
  sc_Role r : preserves I (db_Created (A:=Role) r) }.

Context (I : D → Prop) (HI : seed_closed I).
Lemma seedOrganizations_keeps : preserves I (seedOrganizations dw).
Proof. unfold seedOrganizations. preserve; [by apply sc_Organizations | by apply sc_Find]. Qed.
Lemma seedPermissions_keeps : preserves I (seedPermissions dw).
Proof. unfold seedPermissions. preserve; [by apply sc_Permissions | by apply sc_Find]. Qed.
Lemma seedRoles_keeps orgs : preserves I (seedRoles orgs).
Proof.
  unfold seedRoles. preserve. apply map_each_preserves. intros org. apply map_each_preserves. intros [[n t] s].
  unfold ensure_role, db_FirstWhere. preserve; [by apply sc_First | by apply sc_Role].
Qed.
Lemma seedRolePermissions_keeps roles perms : preserves I (seedRolePermissions dw roles perms).
Proof. unfold seedRolePermissions. preserve. by apply sc_RolePermissions. Qed.
Lemma count_of_keeps {A} `{Row A} : preserves I (count_of (A:=A)).
Proof. unfold count_of, db_Count. preserve. by apply sc_Find. Qed.
End interrupted.

(** No step before the last two touches the assignments of roles. *)
Section not_resumed.
Context {D : Type} `{GL : GormLaws D} `{CryptoLib} (dw : Draws).

Lemma keeps_user_roles_closed X : seed_closed dw (λ d, tb_user_roles (db_tables d) = X).
Proof.
  assert (∀ f, (∀ T, tb_user_roles (f T) = tb_user_roles T) →
    preserves (λ d, tb_user_roles (db_tables d) = X) (db_Exec f)) as Hexec.
  { intros f Hf d Hd. destruct (db_Exec f d) as [[[]|e] d'] eqn:E; cbn.
    - apply db_Exec_ok in E as [-> _]. by rewrite Hf.
    - by apply db_Exec_err in E as [-> _]. }
  constructor.
  - intros Y key q d Hd. by rewrite db_First_keeps.
  - intros Y q d Hd. by rewrite db_Find_keeps.
  - intros clash k l. apply CreateBatch_preserves. intros rs. apply Hexec. by intros [].
  - intros clash k l. apply CreateBatch_preserves. intros rs. apply Hexec. by intros [].
  - intros clash k l. apply CreateBatch_preserves. intros rs. apply Hexec. by intros [].
  - intros r. unfold db_Created. preserve. apply Hexec. by intros [].
Qed.

Lemma bind_err_inv {E W X Y} (m : GoM E W X) (k : X → GoM E W Y) w e w' : bind m k w = (Err e, w') →
  m w = (Err e, w') ∨ ∃ x w1, m w = (Ok x, w1) ∧ k x w1 = (Err e, w').
Proof. unfold bind. destruct (m w) as [[x|e0] w1]; [eauto|]. intros [= <- <-]. by left. Qed.
Lemma step_err {X} msg (m : GoM (option error) D X) d e d' : step msg m d = (Err (Some e), d') →
  ∃ x, e = ErrorWrap msg x ∧ m d = (Err (Some x), d').
Proof.
  unfold step, wrap_err. destruct (m d) as [[y|[x|]] d1]; cbn; [done| |done]. intros [= <- <-]. eauto.
Qed.
(** The step whose message it is, or the rest. *)
Lemma step_err_inv {X Y} msg msg' (m : GoM (option error) D X) (k : X → GoM (option error) D Y) d e d' :
  msg ≠ msg' → bind (step msg m) k d = (Err (Some (ErrorWrap msg' e)), d') →
  ∃ x d1, m d = (Ok x, d1) ∧ k x d1 = (Err (Some (ErrorWrap msg' e)), d').
Proof.
  intros Hne [Hs|(x & d1 & Hs & Hk)]%bind_err_inv.
  - by apply step_err in Hs as (x & [= <- <-] & _).
  - apply step_ok in Hs. eauto.
Qed.

Lemma CreateBatch_err {A} `{Row A} clash k (l : list A) d e d' :
  db_CreateBatch dw clash k l d = (Err e, d') → db_tables d' = db_tables d.
Proof.
  destruct l as [|x l]; [by intros [= _ <-]|].
  intros [E|([] & d2 & _ & [=])]%bind_err_inv. by apply db_Exec_err in E as [-> _].
Qed.
Lemma seedUserRoles_err users roles d e d' : seedUserRoles dw users roles d = (Err e, d') →
  db_tables d' = db_tables d.
Proof.
  unfold seedUserRoles. destruct (all_user_roles dw roles 0 users) as [l|]; [|by intros [= _ <-]].
  unfold liftF, wrap_err, bind. destruct (db_CreateBatch dw same_link 4 l d) as [[o|x0] d1] eqn:E; [done|].
  intros [= _ <-]. by apply CreateBatch_err in E.
Qed.
Lemma seedUsers_keeps_user_roles orgs d users d' : seedUsers dw orgs d = (Ok users, d') →
  tb_user_roles (db_tables d') = tb_user_roles (db_tables d).
Proof.
  unfold seedUsers. destruct orgs as [|org orgs]; [done|]. intros Hrun%liftF_ok. rewrite bind_lift in Hrun.
  destruct (all_users dw _ 0 0 _) as [us|e]; [|done]. unfold db_CreateBatch in Hrun.
  destruct us as [|u us]; [done|]. apply bind_ok_inv in Hrun as ([] & d1 & E & [= <- <-]).
  apply db_Exec_ok in E as [-> _]. by destruct (db_tables d).
Qed.
End not_resumed.

(** An interrupted seeding is not resumed.  When [SeedAll] fails at the
    assignment of roles, the administrator is in the database and no role has
    been assigned to anyone; and every later run on what it left, counting the
    users, answers success and changes nothing. *)
Theorem interrupted_seeding_is_not_resumed {D} `{GormLaws D} `{CryptoLib} dw dw' (d d1 : D) e n :
  SeedAll dw d = (Err (Some (ErrorWrap "failed to seed user roles" e)), d1) →
  (db_Count (rows (A:=User)) d1).1 = Ok n →
  (∃ admin, admin ∈ tb_users (db_tables d1) ∧ u_Email admin = admin_email) ∧
  tb_user_roles (db_tables d1) = tb_user_roles (db_tables d) ∧
  ∃ d2, SeedAll dw' d1 = (Ok tt, d2) ∧ db_tables d2 = db_tables d1.
Proof.
  intros Hrun Hn. set (X := tb_user_roles (db_tables d)).
  pose proof (keeps_user_roles_closed dw X) as Hclosed.
  assert ((∃ admin, admin ∈ tb_users (db_tables d1) ∧ u_Email admin = admin_email) ∧
    tb_user_roles (db_tables d1) = X) as [(admin & Hin & He) Hur].
  { unfold SeedAll in Hrun. apply bind_err_inv in Hrun as [Hc|(m & d0 & Hc & Hrun)].
    { unfold liftF, wrap_err in Hc. destruct (count_of_run (A:=User) d) as (_ & m & Hm & _).
      destruct (count_of d) as [r dd]. cbn in Hm. by subst r. }
    apply liftF_ok in Hc. destruct (0 <? m)%Z; [done|].
    assert (tb_user_roles (db_tables d0) = X) as K0.
    { pose proof (count_of_keeps dw _ Hclosed (A:=User) d eq_refl) as K. by rewrite Hc in K. }
    apply step_err_inv in Hrun as (orgs & d2 & R1%liftF_ok & Hrun); [|done].
    pose proof (seedOrganizations_keeps dw _ Hclosed d0 K0) as K1. rewrite R1 in K1. cbn in K1.
    apply seedOrganizations_ok in R1 as (_ & _ & Hdom).
    apply step_err_inv in Hrun as (perms & d3 & R2%liftF_ok & Hrun); [|done].
    pose proof (seedPermissions_keeps dw _ Hclosed d2 K1) as K2. rewrite R2 in K2. cbn in K2.
    apply step_err_inv in Hrun as (roles & d4 & R3%liftF_ok & Hrun); [|done].
    pose proof (seedRoles_keeps dw _ Hclosed orgs d3 K2) as K3. rewrite R3 in K3. cbn in K3.
    apply step_err_inv in Hrun as ([] & d5 & R4%liftF_ok & Hrun); [|done].
    pose proof (seedRolePermissions_keeps dw _ Hclosed roles perms d4 K3) as K4. rewrite R4 in K4. cbn in K4.
    apply step_err_inv in Hrun as (users & d6 & R5 & Hrun); [|done].
    pose proof (seedUsers_keeps_user_roles dw orgs d5 users d6 R5) as K5.
    apply seedUsers_ok in R5 as (_ & Husers & Hadmin).
    destruct (Hdom "unibaseerp.com") as (org & Horg & Hdomain); [by right; left|].
    destruct (Hadmin org Horg Hdomain) as (admin & Ha & He & _).
    apply bind_err_inv in Hrun as [Hs|([] & d7 & _ & Hs)]; [|by apply step_err in Hs as (x & [=] & _)].
    apply step_err in Hs as (x & _ & Hs). apply seedUserRoles_err in Hs as ->.
    split; [|by rewrite K5]. exists admin. split; [by apply Husers | done]. }
  split_and!; [by eexists | done |]. eapply SeedAll_stops; [exact Hn|].
  intros Hnil. rewrite Hnil in Hin. by apply elem_of_nil in Hin.
Qed.

(** ** Examples

    The reference database with its constraints decided on finite maps, which
    is quick enough for a whole seeding. *)

Fixpoint distinct {A} `{Countable A} (seen : gmap A unit) (l : list A) : bool :=
  match l with
  | [] => true
  | a :: l' => match seen !! a with Some _ => false | None => distinct (<[a := tt]> seen) l' end
  end.
Lemma distinct_spec {A} `{Countable A} (l : list A) seen : distinct seen l = true →
  NoDup l ∧ ∀ a, a ∈ l → seen !! a = None.
Proof.
  revert seen. induction l as [|a l IH]; intros seen; cbn [distinct].
  { intros _. split; [constructor | by intros a ?%elem_of_nil]. }
  destruct (seen !! a) as [[]|] eqn:E; [done|]. intros [Hnd Hl]%IH.
  assert (∀ b, b ∈ l → b ≠ a ∧ seen !! b = None) as Hsep.
  { intros b Hb. apply Hl in Hb. destruct (decide (b = a)) as [->|Hne]; [by rewrite lookup_insert_eq in Hb|].
    by rewrite lookup_insert_ne in Hb. }
  split.
  - constructor; [|done]. intros Hin. by destruct (Hsep a Hin).
  - intros b [->|Hb]%elem_of_cons; [done | by apply Hsep].
Qed.

Definition good_tables (T : Tables) : bool :=
  distinct ∅ (u_ID <$> tb_users T) && distinct ∅ (u_Email <$> tb_users T) &&
  (distinct ∅ (o_ID <$> tb_organizations T) && distinct ∅ (o_Domain <$> tb_organizations T)) &&
  distinct ∅ (r_ID <$> tb_roles T) &&
  (distinct ∅ (p_ID <$> tb_permissions T) && distinct ∅ (p_Name <$> tb_permissions T)) &&
  (distinct ∅ (ur_ID <$> tb_user_roles T) &&
   distinct ∅ ((λ x, (ur_UserID x, ur_RoleID x)) <$> tb_user_roles T)) &&
  (distinct ∅ (rp_ID <$> tb_role_permissions T) &&
   distinct ∅ ((λ x, (rp_RoleID x, rp_PermissionID x)) <$> tb_role_permissions T)) &&
  (distinct ∅ (t_ID <$> tb_tokens T) && distinct ∅ (t_TokenHash <$> tb_tokens T)) &&
  distinct ∅ (ua_ID <$> tb_user_activities T).
Lemma good_tables_constraints T : good_tables T = true → constraints T.
Proof.
  unfold good_tables, constraints. intros Hg. repeat (apply andb_true_iff in Hg as [Hg ?]).
  repeat match goal with H : (_ && _) = true |- _ => apply andb_true_iff in H as [? ?] end.
  split_and!; by eapply distinct_spec.
Qed.

#[local] Instance fast_gorm : Gorm RefDB := {
  db_NowFunc d := 1000; db_uuid_New d := (rdb_last d + 1)%N; text_le a b := true;
  db_First A := @db_First RefDB ref_gorm A; db_Find A := @db_Find RefDB ref_gorm A;
  db_Exec f := λ d,
    if good_tables (f (rdb_tables d)) then (Ok tt, rdb_next (mkRefDB (f (rdb_tables d)) (rdb_last d)))
    else (Err rdb_refused, d);
  db_Transaction body := λ d,
    match body d with (Ok _, d') => (Ok tt, d') | (Err e, _) => (Err e, d) end }.
#[local, refine] Instance fast_gorm_laws : @GormLaws RefDB fast_gorm := { db_tables := rdb_tables }.
Proof.
  - intros d. unfold db_uuid_New, uuid_Nil. simpl. lia.
  - exact (λ A, @db_First_ok RefDB ref_gorm ref_gorm_laws A).
  - exact (λ A, @db_First_none RefDB ref_gorm ref_gorm_laws A).
  - done.
  - exact (λ A, @db_Find_ok RefDB ref_gorm ref_gorm_laws A).
  - done.
  - intros f d d'. unfold db_Exec. simpl. destruct (good_tables _) eqn:E; [|done]. intros [= <-].
    split; [done | by apply good_tables_constraints].
  - intros f d d' e. unfold db_Exec. simpl. destruct (good_tables _); [done|]. by intros [= <- <-].
  - intros body d d'. unfold db_Transaction. simpl.
    destruct (body d) as [[[]|e] d1] eqn:E; intros [= <-]. by exists d, d1.
  - intros body d d' e. unfold db_Transaction. simpl.
    by destruct (body d) as [[[]|e'] d1]; intros [= <- <-].
Defined.

(** Draws that follow the numbers of the rows; with [broken], all the
    assignments of roles are given the same identifier. *)
#[local] Existing Instances ref_crypto ref_crypto_laws.
Definition ref_draws (broken : bool) : Draws := mkDraws 5000
  (λ k i, if broken && (k =? 4)%nat then 7%N else (100000 * N.of_nat (k + 1) + N.of_nat i)%N)
  (λ n, mkUserDraw n n n (Nat.even n) true false None) roleWeights (λ n, mkRoleDraw n None)
  (λ _, 0%nat) (λ i k, mkActivityDraw k 1 1 1 i i) (λ i, (i, i)) (λ k, mkFailureDraw k k k k k k).
Definition ref_empty : RefDB := mkRefDB empty_tables 1.
Definition ref_seeded := SeedAll (ref_draws false) ref_empty.
Lemma ref_seeded_ok : is_ok ref_seeded.1 = true.
Proof. vm_refl. Qed.

Example seeding_makes_an_administrator_witness : ∃ org admin role link,
  let T := db_tables ref_seeded.2 in
    org ∈ tb_organizations T ∧ o_Domain org = "unibaseerp.com" ∧
    admin ∈ tb_users T ∧ u_Email admin = admin_email ∧ u_OrganizationID admin = o_ID org ∧
    u_IsActive admin = true ∧ CheckPassword admin "admin123" = true ∧
    role ∈ tb_roles T ∧ r_Name role = "Super Admin" ∧ r_OrganizationID role = o_ID org ∧
    link ∈ tb_user_roles T ∧ ur_UserID link = u_ID admin ∧ ur_RoleID link = r_ID role ∧
    ∀ name, name ∈ p_Name <$> seed_permissions → ∃ p grant, p ∈ tb_permissions T ∧ p_Name p = name ∧
      grant ∈ tb_role_permissions T ∧ rp_RoleID grant = r_ID role ∧ rp_PermissionID grant = p_ID p.
Proof.
  destruct (run_ok _ ref_seeded_ok) as [[] Hrun].
  exact (seeding_makes_an_administrator (ref_draws false) ref_empty ref_seeded.2 "admin123" eq_refl
           (Permutation_refl _) eq_refl Hrun).
Defined.

Definition ref_interrupted := SeedAll (ref_draws true) ref_empty.
Lemma ref_interrupted_err :
  match ref_interrupted.1 with
  | Err (Some (ErrorWrap msg _)) => String.eqb msg "failed to seed user roles"
  | _ => false
  end = true.
Proof. vm_refl. Qed.
Lemma ref_interrupted_users : is_ok (db_Count (rows (A:=User)) ref_interrupted.2).1 = true.
Proof. vm_refl. Qed.

Example interrupted_seeding_is_not_resumed_witness :
  (∃ admin, admin ∈ tb_users (db_tables ref_interrupted.2) ∧ u_Email admin = admin_email) ∧
  tb_user_roles (db_tables ref_interrupted.2) = tb_user_roles (db_tables ref_empty) ∧
  ∃ d2, SeedAll (ref_draws false) ref_interrupted.2 = (Ok tt, d2) ∧
        db_tables d2 = db_tables ref_interrupted.2.
Proof.
  destruct (run_ok _ ref_interrupted_users) as [n Hn]. pose proof ref_interrupted_err as Herr.
  destruct ref_interrupted.1 as [|[[| msg e | | | | ]|]] eqn:E; try discriminate Herr.
  apply String.eqb_eq in Herr. subst msg.
  apply (interrupted_seeding_is_not_resumed (ref_draws true) (ref_draws false) ref_empty ref_interrupted.2 e n).
  - rewrite <- E. apply surjective_pairing.
  - by rewrite Hn.
Defined.
