(* ===== verification/KafkaLogger.v ===== *)
(** * The Kafka logger (src/internal/logging/kafka_logger.go)

    An event semantics, as in EventProducer.v: an event is one atomic action
    of a caller of [LogToKafka], of a caller of [Close], or of the goroutine
    [processLogs]; [lstep] says whether it is enabled and what it does.  The
    case a [select] takes is part of the event.  [LogToKafka] reads [closed]
    under the lock and selects after releasing it: between the two its message
    is in [kl_callers].  A send on a closed channel panics, which ends the
    process.

    The writer is asynchronous and its errors are only printed: a batch handed
    to [WriteMessages] is recorded in [kl_written].  Data that [encoding/json]
    does not accept is an error in place of its JSON. *)

From S2P Require Import Prelude Errors Models Events.

#[local] Open Scope Z_scope.

Record LogMessage := mkLogMessage {
  lm_Type : string; lm_Timestamp : Z; lm_Service : string; lm_Data : res error Json }.

(** [kafka.Message], the fields that are set; the zero message is the one of
    [make([]kafka.Message, n)]. *)
Record LogRecord := mkLogRecord {
  kr_Key : string; kr_Value : option Json; kr_Headers : list (string * Json) }.
Definition zero_record : LogRecord := mkLogRecord "" None [].

Record KafkaLoggerConfig := mkLoggerConfig {
  klc_Brokers : list string; klc_Topic : string; klc_BatchSize : Z; klc_FlushInterval : Z;
  klc_BufferSize : Z }.

(** [processLogs] with its batch; [Close] after its first critical section:
    before [k.cancel()], before [close(k.buffer)], in [k.wg.Wait()]. *)
Inductive Worker := WStarting | WRunning (batch : list LogMessage) | WExited.
Inductive Closing := NotClosing | Marked | Cancelled | Waiting | Finished.
#[export] Instance Closing_eq_dec : EqDecision Closing.
Proof. solve_decision. Defined.

Record KafkaLogger := mkKafkaLogger {
  kl_capacity : nat; kl_batchSize : Z; kl_flushInterval : Z;
  kl_buffer : list LogMessage;
  kl_closed : bool;
  kl_closing : Closing;
  kl_worker : Worker;
  kl_callers : list LogMessage;          (* callers between the check and the select *)
  kl_written : list (list LogRecord);    (* history: the batches handed to the writer *)
  kl_flushed : list LogMessage;          (* history: the messages of those batches *)
  kl_accepted : list LogMessage;         (* history: the messages [LogToKafka] took *)
  kl_crashed : bool }.

(** Field updates. *)
Definition upd_buffer (f : list LogMessage → list LogMessage) (s : KafkaLogger) : KafkaLogger :=
  let '(mkKafkaLogger c b i q cl cg w ca wr fl ac cr) := s in
  mkKafkaLogger c b i (f q) cl cg w ca wr fl ac cr.
Definition upd_closing (closed : bool) (cg : Closing) (s : KafkaLogger) : KafkaLogger :=
  let '(mkKafkaLogger c b i q _ _ w ca wr fl ac cr) := s in
  mkKafkaLogger c b i q closed cg w ca wr fl ac cr.
Definition upd_worker (w : Worker) (s : KafkaLogger) : KafkaLogger :=
  let '(mkKafkaLogger c b i q cl cg _ ca wr fl ac cr) := s in
  mkKafkaLogger c b i q cl cg w ca wr fl ac cr.
Definition upd_callers (f : list LogMessage → list LogMessage) (s : KafkaLogger) : KafkaLogger :=
  let '(mkKafkaLogger c b i q cl cg w ca wr fl ac cr) := s in
  mkKafkaLogger c b i q cl cg w (f ca) wr fl ac cr.
Definition upd_accepted (m : LogMessage) (s : KafkaLogger) : KafkaLogger :=
  let '(mkKafkaLogger c b i q cl cg w ca wr fl ac cr) := s in
  mkKafkaLogger c b i q cl cg w ca wr fl (ac ++ [m]) cr.
Definition upd_written (records : list LogRecord) (batch : list LogMessage) (s : KafkaLogger) : KafkaLogger :=
  let '(mkKafkaLogger c b i q cl cg w ca wr fl ac cr) := s in
  mkKafkaLogger c b i q cl cg w ca (wr ++ [records]) (fl ++ batch) ac cr.
Definition crash (s : KafkaLogger) : KafkaLogger :=
  let '(mkKafkaLogger c b i q cl cg w ca wr fl ac _) := s in
  mkKafkaLogger c b i q cl cg w ca wr fl ac true.

(** [k.ctx.Done()] is closed, and the channel is. *)
Definition ctx_done (s : KafkaLogger) : bool :=
  match kl_closing s with Cancelled | Waiting | Finished => true | _ => false end.
Definition buffer_closed (s : KafkaLogger) : bool :=
  match kl_closing s with Waiting | Finished => true | _ => false end.

(** ** Construction *)

Definition or_default (zero_means z : Z) : Z := if (z =? 0)%Z then zero_means else z.

(** [NewKafkaLogger]; [None] when [make] panics on a negative buffer size. *)
Definition NewKafkaLogger (config : KafkaLoggerConfig) : option (res error KafkaLogger) :=
  match klc_Brokers config with
  | [] => Some (Err (ErrorString "kafka brokers cannot be empty"))
  | _ :: _ =>
      let batchSize := or_default 100 (klc_BatchSize config) in
      let flushInterval := or_default (5 * Second) (klc_FlushInterval config) in
      let bufferSize := or_default 1000 (klc_BufferSize config) in
      if (bufferSize <? 0)%Z then None
      else Some (Ok (mkKafkaLogger (Z.to_nat bufferSize) batchSize flushInterval [] false NotClosing
                       WStarting [] [] [] [] false))
  end.

(** ** [sendBatch] *)

Definition LogMessage_json (m : LogMessage) : res error Json :=
  match lm_Data m with
  | Err e => Err e
  | Ok data => Ok (JObj [("type", JStr (lm_Type m)); ("@timestamp", JTime (lm_Timestamp m));
                         ("service", JStr (lm_Service m)); ("data", data)])
  end.
(** [t.Format(time.RFC3339)] has no fraction of a second. *)
Definition format_seconds (t : Z) : Json := JTime (t - t mod Second).
(** A message that cannot be marshalled leaves the zero record in its place. *)
Definition log_record (m : LogMessage) : LogRecord :=
  match LogMessage_json m with
  | Err _ => zero_record
  | Ok data => mkLogRecord (lm_Service m +:+ "-" +:+ lm_Type m) (Some data)
      [("log-type", JStr (lm_Type m)); ("service", JStr (lm_Service m));
       ("timestamp", format_seconds (lm_Timestamp m))]
  end.
Definition sendBatch (batch : list LogMessage) (s : KafkaLogger) : KafkaLogger :=
  match batch with [] => s | _ :: _ => upd_written (map log_record batch) batch s end.

(** ** [LogToKafka] *)

(** The check: the refusal, or a caller about to select. *)
Definition LogToKafka_check (logType service : string) (now : Z) (data : res error Json) (s : KafkaLogger)
    : res error unit * KafkaLogger :=
  if kl_closed s then (Err (ErrorString "kafka logger is closed"), s)
  else (Ok tt, upd_callers (λ l, l ++ [mkLogMessage logType now service data]) s).

Inductive log_case := CaseSend | CaseDone | CaseDefault.
Definition room (s : KafkaLogger) : bool := (length (kl_buffer s) <? kl_capacity s)%nat.
(** The select on [m]: the result of [LogToKafka], [None] when the case is not
    ready.  A send on a closed channel is ready, and panics. *)
Definition LogToKafka_select (c : log_case) (m : LogMessage) (s : KafkaLogger)
    : option (res error unit * KafkaLogger) :=
  match c with
  | CaseSend =>
      if buffer_closed s then Some (Err (ErrorString "send on closed channel"), crash s)
      else if room s then Some (Ok tt, upd_accepted m (upd_buffer (λ q, q ++ [m]) s)) else None
  | CaseDone =>
      if ctx_done s then Some (Err (ErrorString "kafka logger is shutting down"), s) else None
  | CaseDefault =>
      if ctx_done s || buffer_closed s || room s then None
      else Some (Err (ErrorString "kafka logger buffer is full, message dropped"), s)
  end.

(** ** [processLogs] *)

(** Up to the loop: [NewTicker] and [make] panic on values that are not
    positive, respectively negative. *)
Definition worker_begin (s : KafkaLogger) : option KafkaLogger :=
  match kl_worker s with
  | WStarting =>
      Some (if (kl_flushInterval s <=? 0)%Z || (kl_batchSize s <? 0)%Z then crash s
            else upd_worker (WRunning []) s)
  | _ => None
  end.
Definition worker_tick (s : KafkaLogger) : option KafkaLogger :=
  match kl_worker s with
  | WRunning batch => Some (upd_worker (WRunning []) (sendBatch batch s))
  | _ => None
  end.
Definition worker_done (s : KafkaLogger) : option KafkaLogger :=
  match kl_worker s with
  | WRunning batch => if ctx_done s then Some (upd_worker WExited (sendBatch batch s)) else None
  | _ => None
  end.
Definition worker_receive (s : KafkaLogger) : option KafkaLogger :=
  match kl_worker s with
  | WRunning batch =>
      match kl_buffer s with
      | m :: _ =>
          let s := upd_buffer (drop 1) s in
          let batch := batch ++ [m] in
          Some (if (kl_batchSize s <=? Z.of_nat (length batch))%Z
                then upd_worker (WRunning []) (sendBatch batch s)
                else upd_worker (WRunning batch) s)
      | [] => if buffer_closed s then Some (upd_worker WExited (sendBatch batch s)) else None
      end
  | _ => None
  end.

(** ** [Close] *)

(** The first critical section; a second caller returns at once. *)
Definition Close_mark (s : KafkaLogger) : KafkaLogger := if kl_closed s then s else upd_closing true Marked s.
(** The next statement of the caller that closes; [k.wg.Wait()] needs the
    worker gone. *)
Definition Close_next (s : KafkaLogger) : option KafkaLogger :=
  match kl_closing s with
  | Marked => Some (upd_closing (kl_closed s) Cancelled s)
  | Cancelled => Some (upd_closing (kl_closed s) Waiting s)
  | Waiting => match kl_worker s with WExited => Some (upd_closing (kl_closed s) Finished s) | _ => None end
  | NotClosing | Finished => None
  end.

(** ** Steps *)

Inductive log_event :=
| EvLog (logType service : string) (now : Z) (data : res error Json)
| EvSelect (i : nat) (c : log_case)
| EvBegin | EvTick | EvReceive | EvDone
| EvClose | EvCloseNext.

Definition lstep (e : log_event) (s : KafkaLogger) : option KafkaLogger :=
  if kl_crashed s then None
  else match e with
  | EvLog t sv now d => Some (LogToKafka_check t sv now d s).2
  | EvSelect i c =>
      m ← kl_callers s !! i; snd <$> LogToKafka_select c m (upd_callers (delete i) s)
  | EvBegin => worker_begin s
  | EvTick => worker_tick s
  | EvReceive => worker_receive s
  | EvDone => worker_done s
  | EvClose => Some (Close_mark s)
  | EvCloseNext => Close_next s
  end.
Fixpoint lrun (es : list log_event) (s : KafkaLogger) : option KafkaLogger :=
  match es with [] => Some s | e :: es' => lstep e s ≫= lrun es' end.
Definition logger_step (s s' : KafkaLogger) : Prop := ∃ e, lstep e s = Some s'.

(** [HealthCheck]: the outcome [write] of the write is the library's. *)
Definition HealthCheck (write : option error) (s : KafkaLogger) : option error :=
  if kl_closed s then Some (ErrorString "kafka logger is closed") else write.
(** [GetStats]: [len], [cap] and [closed]. *)
Definition GetStats (s : KafkaLogger) : nat * nat * bool := (length (kl_buffer s), kl_capacity s, kl_closed s).

(** ** The invariant *)

Definition worker_batch (s : KafkaLogger) : list LogMessage :=
  match kl_worker s with WRunning batch => batch | _ => [] end.

(** The log with [batch] taken out of the buffer and not yet written. *)
Record queue_ok (batch : list LogMessage) (s : KafkaLogger) : Prop := {
  lo_buffer : (length (kl_buffer s) <= kl_capacity s)%nat;
  lo_order : kl_accepted s = kl_flushed s ++ batch ++ kl_buffer s;
  lo_written : mjoin (kl_written s) = map log_record (kl_flushed s);
  lo_sizes : Forall (λ b, 1 ≤ Z.of_nat (length b) ≤ Z.max 1 (kl_batchSize s)) (kl_written s);
  lo_closed : kl_closed s = bool_decide (kl_closing s ≠ NotClosing) }.
Record logger_ok (s : KafkaLogger) : Prop := {
  lo_queue : queue_ok (worker_batch s) s;
  lo_batch : Z.of_nat (length (worker_batch s)) < Z.max 1 (kl_batchSize s);
  lo_finished : kl_closing s = Finished → kl_worker s = WExited }.

Ltac split_logger s := destruct s as [cap bs iv buf cl cg w ca wr fl ac cr]; unfold worker_batch in *; simpl in *.
Ltac logger_frame s :=
  let H := fresh in intros [H ? ?]; split_logger s; destruct H; split; [split| |]; simpl in *; try done.

Lemma logger_ok_new config s : NewKafkaLogger config = Some (Ok s) → logger_ok s.
Proof.
  unfold NewKafkaLogger. destruct (klc_Brokers config); [done|]. destruct (_ <? 0)%Z; [done|].
  intros [= <-]. split; [split| |]; simpl; try done; lia.
Qed.
Lemma upd_callers_ok f s : logger_ok s → logger_ok (upd_callers f s).
Proof. logger_frame s. Qed.
Lemma crash_ok s : logger_ok s → logger_ok (crash s).
Proof. logger_frame s. Qed.

Lemma sendBatch_queue batch s : queue_ok batch s → Z.of_nat (length batch) ≤ Z.max 1 (kl_batchSize s) →
  queue_ok [] (sendBatch batch s) ∧ kl_closing (sendBatch batch s) = kl_closing s.
Proof.
  intros [H1 H2 H3 H4 H5] Hlen. split_logger s. destruct batch as [|m batch]; [by split; [split|]|].
  split; [split|]; simpl; try done.
  - rewrite H2. by rewrite <- (assoc_L (++) fl).
  - rewrite join_app, H3, map_app. simpl. by rewrite app_nil_r.
  - apply Forall_app. split; [done|]. apply Forall_singleton.
    rewrite length_cons, List.length_map. rewrite length_cons in Hlen. lia.
Qed.

(** The batch goes to the writer, and the worker goes on or exits. *)
Lemma flushed_ok batch w s : queue_ok batch s → Z.of_nat (length batch) ≤ Z.max 1 (kl_batchSize s) →
  w = WExited ∨ w = WRunning [] ∧ kl_closing s ≠ Finished → logger_ok (upd_worker w (sendBatch batch s)).
Proof.
  intros Hq Hlen Hw. destruct (sendBatch_queue batch s Hq Hlen) as [[H1 H2 H3 H4 H5] Hc].
  assert (Hx : kl_closing (sendBatch batch s) ≠ Finished ∨ w = WExited) by (rewrite Hc; naive_solver).
  destruct (sendBatch batch s) as [c b i q cl cg w0 ca wr fl ac cr]. simpl in *.
  split; [split| |]; destruct Hw as [->|[-> _]]; simpl in *; try done; try lia; naive_solver.
Qed.

Lemma receive_queue m q s : logger_ok s → kl_buffer s = m :: q →
  queue_ok (worker_batch s ++ [m]) (upd_buffer (drop 1) s).
Proof.
  intros [[H1 H2 H3 H4 H5] _ _] Hq. split_logger s. subst. split; simpl in *; rewrite ?drop_0; try done; [lia|].
  by rewrite <- (assoc_L (++) _ [m]).
Qed.
Lemma running_not_finished s batch : logger_ok s → kl_worker s = WRunning batch → kl_closing s ≠ Finished.
Proof. intros [_ _ Hf] Hw Hc. specialize (Hf Hc). congruence. Qed.

Lemma select_ok c m s r s' : logger_ok s → LogToKafka_select c m s = Some (r, s') → logger_ok s'.
Proof.
  intros Hok. destruct c; simpl.
  - destruct (buffer_closed s); [intros [= _ <-]; by apply crash_ok|].
    destruct (Nat.ltb_spec (length (kl_buffer s)) (kl_capacity s)) as [Hr|]; unfold room;
      [rewrite (proj2 (Nat.ltb_lt _ _) Hr)|rewrite (proj2 (Nat.ltb_ge _ _)) by done; done].
    intros [= _ <-]. revert Hok. logger_frame s.
    + rewrite length_app. simpl. lia.
    + subst. rewrite <- !app_assoc. reflexivity.
  - destruct (ctx_done s); [|done]. by intros [= _ <-].
  - destruct (_ || _); [done|]. by intros [= _ <-].
Qed.

Lemma upd_closing_ok closed stage s : closed = bool_decide (stage ≠ NotClosing) →
  (stage = Finished → kl_worker s = WExited) → logger_ok s → logger_ok (upd_closing closed stage s).
Proof. intros -> Hf. logger_frame s. Qed.
Lemma closed_iff s : logger_ok s → kl_closed s = bool_decide (kl_closing s ≠ NotClosing).
Proof. by intros [[] ? ?]. Qed.
Lemma Close_next_ok s s' : logger_ok s → Close_next s = Some s' → logger_ok s'.
Proof.
  intros Hok Hc. pose proof (closed_iff s Hok) as Hb. unfold Close_next in Hc.
  destruct (kl_closing s); [done| | | |done]; [..|destruct (kl_worker s) eqn:Hw; [done..|]];
    injection Hc as <-; by apply upd_closing_ok.
Qed.

Lemma receive_ok s s' : logger_ok s → worker_receive s = Some s' → logger_ok s'.
Proof.
  intros Hok Hr. unfold worker_receive in Hr. destruct (kl_worker s) as [|batch|] eqn:Hw; [done| |done].
  assert (Hb : worker_batch s = batch) by (unfold worker_batch; by rewrite Hw).
  pose proof (running_not_finished s batch Hok Hw) as Hf. pose proof (lo_batch s Hok) as Hlen. rewrite Hb in Hlen.
  destruct (kl_buffer s) as [|m q] eqn:Hq.
  - destruct (buffer_closed s); [|done]. injection Hr as <-.
    apply flushed_ok; [rewrite <- Hb; apply (lo_queue s Hok) | lia | by left].
  - pose proof (receive_queue m q s Hok Hq) as Hq'. rewrite Hb in Hq'.
    assert (Hsame : kl_batchSize (upd_buffer (drop 1) s) = kl_batchSize s ∧
                    kl_closing (upd_buffer (drop 1) s) = kl_closing s) by (by destruct s).
    destruct Hsame as [Hs1 Hs2]. assert (Hl : length (batch ++ [m]) = S (length batch)).
    { rewrite length_app. simpl. lia. }
    injection Hr as <-. rewrite Hs1. destruct (Z.leb_spec (kl_batchSize s) (Z.of_nat (length (batch ++ [m])))).
    + apply flushed_ok; [done | rewrite Hs1, Hl; lia | right; by rewrite Hs2].
    + destruct Hq'. split_logger s. split; [by split | unfold worker_batch; simpl; lia | done].
Qed.

Lemma lstep_ok e s s' : logger_ok s → lstep e s = Some s' → logger_ok s'.
Proof.
  intros Hok. unfold lstep. destruct (kl_crashed s); [done|]. destruct e; simpl.
  - intros [= <-]. unfold LogToKafka_check. destruct (kl_closed s); [done | by apply upd_callers_ok].
  - destruct (kl_callers s !! i) as [m|]; [simpl|done].
    destruct (LogToKafka_select c m _) as [[r s1]|] eqn:Hs; [|done]. intros [= <-].
    by eapply select_ok, Hs; apply upd_callers_ok.
  - unfold worker_begin. destruct (kl_worker s) eqn:Hw; [|done..]. intros [= <-].
    destruct (_ || _); [by apply crash_ok|]. pose proof (flushed_ok [] (WRunning []) s) as Hfl. apply Hfl.
    + pose proof (lo_queue s Hok) as Hq. unfold worker_batch in Hq. by rewrite Hw in Hq.
    + simpl. lia.
    + right. split; [done|]. intros Hc. pose proof (lo_finished s Hok Hc). congruence.
  - unfold worker_tick. destruct (kl_worker s) as [|batch|] eqn:Hw; [done| |done]. intros [= <-].
    pose proof (lo_queue s Hok) as Hq. pose proof (lo_batch s Hok) as Hl. unfold worker_batch in *. rewrite Hw in *.
    apply flushed_ok; [done|lia|right]. split; [done|]. by eapply running_not_finished.
  - by apply receive_ok.
  - unfold worker_done. destruct (kl_worker s) as [|batch|] eqn:Hw; [done| |done].
    destruct (ctx_done s); [|done]. intros [= <-].
    pose proof (lo_queue s Hok) as Hq. pose proof (lo_batch s Hok) as Hl. unfold worker_batch in *. rewrite Hw in *.
    apply flushed_ok; [done|lia|by left].
  - intros [= <-]. unfold Close_mark. destruct (kl_closed s); [done|]. by apply upd_closing_ok.
  - by apply Close_next_ok.
Qed.

(** A message that cannot be marshalled is skipped by the loop of [sendBatch],
    not by the batch. *)
Lemma unmarshalled_message_is_sent_empty m e l s : lm_Data m = Err e →
  kl_written (sendBatch (m :: l) s) = kl_written s ++ [zero_record :: map log_record l].
Proof. intros Hm. destruct s. simpl. unfold log_record at 1, LogMessage_json. by rewrite Hm. Qed.

Lemma lrun_ok es s s' : logger_ok s → lrun es s = Some s' → logger_ok s'.
Proof.
  revert s. induction es as [|e es IH]; simpl; intros s Hok Hr; [by injection Hr as <-|].
  destruct (lstep e s) as [s1|] eqn:He; [|done]. eapply IH, Hr. by eapply lstep_ok.
Qed.
Lemma lrun_app es es' s : lrun (es ++ es') s = lrun es s ≫= lrun es'.
Proof. revert s. induction es as [|e es IH]; simpl; intros s; [done|]. destruct (lstep e s); simpl; auto. Qed.

(** A worker that is gone writes nothing more. *)
Lemma exited_step e s s' : kl_worker s = WExited → lstep e s = Some s' →
  kl_worker s' = WExited ∧ kl_flushed s' = kl_flushed s ∧ kl_written s' = kl_written s ∧
  kl_buffer s `prefix_of` kl_buffer s'.
Proof.
  intros Hw Hs. split_logger s. subst w. unfold lstep in Hs; simpl in Hs. destruct cr; [done|].
  destruct e; simpl in Hs.
  - injection Hs as <-. unfold LogToKafka_check. simpl. by destruct cl.
  - destruct (ca !! i) as [m|]; [simpl in Hs|done]. unfold LogToKafka_select, room in Hs.
    destruct c; simpl in Hs; repeat case_match; simplify_eq/=; split_and!; try done; by eexists.
  - done.
  - done.
  - done.
  - done.
  - injection Hs as <-. unfold Close_mark. simpl. by destruct cl.
  - unfold Close_next in Hs. simpl in Hs. by destruct cg; simplify_eq/=.
Qed.
Lemma exited_run es s s' : kl_worker s = WExited → lrun es s = Some s' →
  kl_flushed s' = kl_flushed s ∧ kl_written s' = kl_written s ∧ kl_buffer s `prefix_of` kl_buffer s'.
Proof.
  revert s. induction es as [|e es IH]; simpl; intros s Hw Hr; [by injection Hr as <-|].
  destruct (lstep e s) as [s1|] eqn:He; [|done].
  destruct (exited_step e s s1 Hw He) as (Hw1 & Hf1 & Hr1 & Hb1).
  destruct (IH s1 Hw1 Hr) as (Hf & Hwr & Hb). split_and!; [congruence..|]. by trans (kl_buffer s1).
Qed.

(** Without a caller past the check, [Close] cannot meet a send. *)
Definition sound_config (s : KafkaLogger) : Prop := 0 < kl_flushInterval s ∧ 0 ≤ kl_batchSize s.
Lemma quiet_step e s s' : kl_closed s = true → kl_callers s = [] → sound_config s → kl_crashed s = false →
  lstep e s = Some s' →
  kl_closed s' = true ∧ kl_callers s' = [] ∧ sound_config s' ∧ kl_crashed s' = false.
Proof.
  intros Hc Hca [Hi Hb] Hcr Hs. split_logger s. subst. unfold lstep in Hs; simpl in Hs.
  destruct e; simpl in Hs; unfold LogToKafka_check, Close_mark, Close_next, worker_begin, worker_tick,
    worker_done, worker_receive in Hs; simpl in Hs; try done.
  - by injection Hs as <-.
  - destruct w; simplify_eq/=. destruct (Z.leb_spec iv 0), (Z.ltb_spec bs 0); simpl; try lia. done.
  - destruct w as [|[|]|]; by simplify_eq/=.
  - destruct w as [|batch|]; [done| |done]. destruct buf as [|m buf].
    + destruct (buffer_closed _); [|done]. by destruct batch; simplify_eq/=.
    + destruct (_ <=? _)%Z; destruct batch; by simplify_eq/=.
  - destruct w as [|[|]|]; [done|..|done]; destruct (ctx_done _); by simplify_eq/=.
  - by injection Hs as <-.
  - destruct cg; [done| | |destruct w|done]; by simplify_eq/=.
Qed.
Theorem quiet_close_never_panics es s s' : kl_closed s = true → kl_callers s = [] → sound_config s →
  kl_crashed s = false → lrun es s = Some s' → kl_crashed s' = false.
Proof.
  revert s. induction es as [|e es IH]; simpl; intros s Hc Hca Hsc Hcr Hr; [by injection Hr as <-|].
  destruct (lstep e s) as [s1|] eqn:He; [|done].
  destruct (quiet_step e s s1 Hc Hca Hsc Hcr He) as (? & ? & ? & ?). by apply (IH s1).
Qed.
(** With one, the process may end: the caller checked before [Close], and
    sends after it. *)
Theorem log_racing_close_panics config s0 logType service now data :
  NewKafkaLogger config = Some (Ok s0) →
  ∃ s, lrun [EvLog logType service now data; EvClose; EvCloseNext; EvCloseNext; EvSelect 0 CaseSend] s0 = Some s ∧
       kl_crashed s = true.
Proof.
  unfold NewKafkaLogger. destruct (klc_Brokers config); [done|]. destruct (_ <? 0)%Z; [done|].
  intros [= <-]. by eexists.
Qed.

(** The running worker keeps up: it takes the buffer and writes at a tick. *)
Lemma receive_all_ok n s batch : kl_crashed s = false → kl_worker s = WRunning batch →
  length (kl_buffer s) = n →
  ∃ s', lrun (repeat EvReceive n) s = Some s' ∧ kl_crashed s' = false ∧ kl_buffer s' = [] ∧
        kl_accepted s' = kl_accepted s ∧ ∃ batch', kl_worker s' = WRunning batch'.
Proof.
  revert s batch. induction n as [|n IH]; intros s batch Hcr Hw Hn.
  { exists s. split_and!; [done..|by apply nil_length_inv|done|by exists batch]. }
  destruct (kl_buffer s) as [|m q] eqn:Hq; [done|]. injection Hn as Hn.
  assert (∃ s1 batch1, lstep EvReceive s = Some s1 ∧ kl_crashed s1 = false ∧ kl_worker s1 = WRunning batch1 ∧
            kl_buffer s1 = q ∧ kl_accepted s1 = kl_accepted s) as (s1 & batch1 & He & Hcr1 & Hw1 & Hq1 & Ha1).
  { simpl. split_logger s. subst. unfold lstep, worker_receive. simpl. rewrite drop_0.
    destruct (_ <=? _)%Z; [|by eexists _, _]. destruct batch; simpl; by eexists _, _. }
  destruct (IH s1 batch1) as (s' & Hr & Hc' & Hb' & Ha' & Hw'); [done..|by rewrite Hq1|].
  exists s'. simpl repeat. cbn [lrun]. rewrite He. cbn [mbind option_bind]. split_and!; [done..| |done]. congruence.
Qed.

(** C34: every batch the Kafka logger writes, and what it still holds, is
    exactly what [LogToKafka] accepted, in that order and without repetition:
    in every state a logger can reach, under any interleaving of its callers,
    [Close] and its goroutine, the accepted messages are those handed to the
    writer, then the batch of [processLogs], then the buffer; the buffer stays
    within its capacity, batches hold between one message and the batch size,
    and the records written are those of the messages flushed. *)
Theorem log_messages_in_order config s0 es s :
  NewKafkaLogger config = Some (Ok s0) → lrun es s0 = Some s →
  kl_accepted s = kl_flushed s ++ worker_batch s ++ kl_buffer s ∧
  (length (kl_buffer s) <= kl_capacity s)%nat ∧
  Forall (λ b, 1 ≤ Z.of_nat (length b) ≤ Z.max 1 (kl_batchSize s)) (kl_written s) ∧
  mjoin (kl_written s) = map log_record (kl_flushed s).
Proof.
  intros Hn Hr. pose proof (lrun_ok es s0 s (logger_ok_new _ _ Hn) Hr) as [[? ? ? ? ?] _ _]. by split_and!.
Qed.

(** Closing the logger discards what its buffer holds.  When the goroutine
    of a logger being closed takes the [ctx.Done()] case, it writes its batch
    and exits, and whatever happens afterwards nothing more is written: the
    messages of the buffer, which [LogToKafka] accepted, are lost; a logger
    that is not being closed and is left to run writes all it accepted. *)
Theorem closing_discards_buffer config s0 es s batch :
  NewKafkaLogger config = Some (Ok s0) → lrun es s0 = Some s →
  kl_crashed s = false → kl_worker s = WRunning batch →
  (ctx_done s = true → ∃ s1, lstep EvDone s = Some s1 ∧ kl_accepted s1 = kl_flushed s1 ++ kl_buffer s ∧
     ∀ es' s', lrun es' s1 = Some s' → kl_flushed s' = kl_flushed s1 ∧ kl_written s' = kl_written s1) ∧
  (∃ s', lrun (repeat EvReceive (length (kl_buffer s)) ++ [EvTick]) s = Some s' ∧
     kl_flushed s' = kl_accepted s).
Proof.
  intros Hn Hr Hcr Hw. pose proof (lrun_ok es s0 s (logger_ok_new _ _ Hn) Hr) as Hok. split.
  - intros Hd. assert (He : lstep EvDone s = Some (upd_worker WExited (sendBatch batch s))).
    { unfold lstep, worker_done. by rewrite Hcr, Hw, Hd. }
    eexists. split; [exact He|]. pose proof (lstep_ok _ _ _ Hok He) as [[_ Ho _ _ _] _ _]. split.
    + rewrite Ho. unfold worker_batch. by destruct s, batch.
    + intros es' s' Hr'. destruct (exited_run es' _ s' (match sendBatch batch s as t return
        kl_worker (upd_worker WExited t) = WExited with mkKafkaLogger _ _ _ _ _ _ _ _ _ _ _ _ => eq_refl end) Hr')
        as (? & ? & _). done.
  - destruct (receive_all_ok _ s batch Hcr Hw eq_refl) as (s1 & Hr1 & Hc1 & Hb1 & Ha1 & batch1 & Hw1).
    assert (He : lstep EvTick s1 = Some (upd_worker (WRunning []) (sendBatch batch1 s1))).
    { unfold lstep, worker_tick. by rewrite Hc1, Hw1. }
    eexists. rewrite lrun_app, Hr1. simpl. rewrite He. split; [reflexivity|].
    pose proof (lstep_ok _ _ _ (lrun_ok _ _ _ Hok Hr1) He) as [[_ Ho _ _ _] _ _].
    revert Ho. unfold worker_batch. destruct s1 as [? ? ? buf1 ? ? ? ? ? ? ac1 ?]. simpl in *. subst.
    destruct batch1; simpl; rewrite !app_nil_r; congruence.
Qed.

(** ** Witnesses: a small logger *)

Definition ref_logger_config : KafkaLoggerConfig := mkLoggerConfig ["localhost:9092"] "" 2 0 3.
Definition ref_logger : KafkaLogger := mkKafkaLogger 3 2 (5 * Second) [] false NotClosing WStarting [] [] [] [] false.
Definition ref_log (t : string) : log_event := EvLog t "auth-service" 7 (Ok (JStr t)).
(** Three messages are taken, a fourth is dropped; one batch is written. *)
Definition ref_log_run : list log_event :=
  [EvBegin; ref_log "a"; ref_log "b"; EvSelect 1 CaseSend; EvSelect 0 CaseSend; ref_log "c"; EvSelect 0 CaseSend;
   ref_log "d"; EvSelect 0 CaseDefault; EvReceive; EvReceive; ref_log "e"; EvSelect 0 CaseSend; EvReceive].
Definition ref_logged : KafkaLogger := default ref_logger (lrun ref_log_run ref_logger).

Lemma log_messages_in_order_witness :
  map lm_Type (kl_accepted ref_logged) = ["b"; "a"; "c"; "e"] ∧
  map lm_Type (kl_flushed ref_logged) = ["b"; "a"] ∧
  kl_accepted ref_logged = kl_flushed ref_logged ++ worker_batch ref_logged ++ kl_buffer ref_logged.
Proof.
  split; [reflexivity|split; [reflexivity|]].
  exact (proj1 (log_messages_in_order ref_logger_config ref_logger ref_log_run ref_logged eq_refl eq_refl)).
Defined.

(** The same logger, being closed with one message in its batch and one in its
    buffer: the second is lost. *)
Definition ref_closing : KafkaLogger := default ref_logger (lrun (ref_log_run ++ [EvClose; EvCloseNext]) ref_logger).
Lemma closing_discards_buffer_witness :
  map lm_Type (kl_buffer ref_closing) = ["e"] ∧
  ∃ s1, lstep EvDone ref_closing = Some s1 ∧ kl_accepted s1 = kl_flushed s1 ++ kl_buffer ref_closing ∧
     ∀ es' s', lrun es' s1 = Some s' → kl_flushed s' = kl_flushed s1 ∧ kl_written s' = kl_written s1.
Proof.
  split; [reflexivity|].
  exact (proj1 (closing_discards_buffer ref_logger_config ref_logger (ref_log_run ++ [EvClose; EvCloseNext])
    ref_closing (worker_batch ref_closing) eq_refl eq_refl eq_refl eq_refl) eq_refl).
Defined.
