(* ===== verification/Logging.v ===== *)
(** * Logging (src/internal/logging/logger.go, service.go, middleware.go)

    The structured logger writes lines through logrus; the logging service
    writes them and sends a copy to the Kafka logger (KafkaLogger.v); the gin
    middleware logs requests, errors and panics with either of them, through
    the class [Logger].  The middleware is not installed by the router.

    What logrus is given is modelled: a level, a message and the fields; its
    rendering is not.  A Go value in a field is what [encoding/json] makes of it,
    or its error.  One clock reading [now] and one stack trace [stack] stand
    for those of a call.  The calls of the service on the Kafka logger are not
    interleaved with others here. *)

From S2P Require Import Prelude Errors Models Events TokenService Interceptors KafkaLogger.

#[local] Open Scope Z_scope.

Inductive LogLevel := LogLevelDebug | LogLevelInfo | LogLevelWarn | LogLevelError | LogLevelFatal.
#[export] Instance LogLevel_eq_dec : EqDecision LogLevel.
Proof. solve_decision. Defined.
Definition level_text (l : LogLevel) : string :=
  match l with
  | LogLevelDebug => "debug" | LogLevelInfo => "info" | LogLevelWarn => "warn"
  | LogLevelError => "error" | LogLevelFatal => "fatal"
  end.
(** logrus orders its levels by verbosity. *)
Definition verbosity (l : LogLevel) : Z :=
  match l with
  | LogLevelFatal => 1 | LogLevelError => 2 | LogLevelWarn => 3 | LogLevelInfo => 4 | LogLevelDebug => 5
  end.

(** ** Values and entries *)

Abbreviation Value := (res error Json).
Abbreviation Fields := (gmap string Value).

Fixpoint json_members (l : list (string * Value)) : res error (list (string * Json)) :=
  match l with
  | [] => Ok []
  | (k, Err e) :: _ => Err e
  | (k, Ok j) :: l' => res_map (cons (k, j)) (json_members l')
  end.
(** A map is printed with its keys in order, a nil map as null.  Which of
    several errors is met first is not read. *)
Definition json_map (m : Fields) : Value := res_map (λ l, JObj (sort_keys l)) (json_members (map_to_list m)).
Definition json_fields (m : option Fields) : Value :=
  match m with None => Ok JNull | Some m => json_map m end.
Definition omit_str (k s : string) : list (string * Value) :=
  if String.eqb s "" then [] else [(k, Ok (JStr s))].
Definition omit_map (k : string) (m : Fields) : list (string * Value) :=
  if decide (m = ∅) then [] else [(k, json_map m)].
Definition strings (m : gmap string string) : Fields := (λ s, Ok (JStr s)) <$> m.
Definition struct (l : list (string * Value)) : Value := res_map JObj (json_members l).

Record RequestLogEntry := mkRequestLog {
  re_Timestamp : Z; re_RequestID : string; re_UserID : string; re_Method : string; re_Path : string;
  re_Query : string; re_StatusCode : Z; re_Duration : Z; re_UserAgent : string; re_RemoteIP : string;
  re_RequestSize : Z; re_ResponseSize : Z; re_Headers : gmap string string; re_Service : string;
  re_Environment : string }.
(** A [time.Duration] is printed as its nanoseconds. *)
Definition RequestLogEntry_json (e : RequestLogEntry) : Value := struct
  ([("@timestamp", Ok (JTime (re_Timestamp e))); ("request_id", Ok (JStr (re_RequestID e)))] ++
   omit_str "user_id" (re_UserID e) ++
   [("method", Ok (JStr (re_Method e))); ("path", Ok (JStr (re_Path e)))] ++
   omit_str "query" (re_Query e) ++
   [("status_code", Ok (JInt (re_StatusCode e))); ("duration_ms", Ok (JInt (re_Duration e)))] ++
   omit_str "user_agent" (re_UserAgent e) ++
   [("remote_ip", Ok (JStr (re_RemoteIP e))); ("request_size_bytes", Ok (JInt (re_RequestSize e)));
    ("response_size_bytes", Ok (JInt (re_ResponseSize e)))] ++
   omit_map "headers" (strings (re_Headers e)) ++
   [("service", Ok (JStr (re_Service e))); ("environment", Ok (JStr (re_Environment e)))]).

Record ErrorLogEntry := mkErrorLog {
  ee_Timestamp : Z; ee_RequestID : string; ee_UserID : string; ee_Level : LogLevel; ee_Message : string;
  ee_Error : string; ee_StackTrace : string; ee_Context : Fields; ee_Service : string;
  ee_Component : string; ee_Environment : string }.
Definition ErrorLogEntry_json (e : ErrorLogEntry) : Value := struct
  ([("@timestamp", Ok (JTime (ee_Timestamp e)))] ++
   omit_str "request_id" (ee_RequestID e) ++ omit_str "user_id" (ee_UserID e) ++
   [("level", Ok (JStr (level_text (ee_Level e)))); ("message", Ok (JStr (ee_Message e)))] ++
   omit_str "error" (ee_Error e) ++ omit_str "stack_trace" (ee_StackTrace e) ++
   omit_map "context" (ee_Context e) ++
   [("service", Ok (JStr (ee_Service e))); ("component", Ok (JStr (ee_Component e)));
    ("environment", Ok (JStr (ee_Environment e)))]).

Record EventLogEntry := mkEventLog {
  le_Timestamp : Z; le_EventID : string; le_EventType : string; le_RequestID : string; le_UserID : string;
  le_CorrelationID : string; le_Source : string; le_Data : Fields; le_Success : bool;
  le_Service : string; le_Environment : string }.
Definition EventLogEntry_json (e : EventLogEntry) : Value := struct
  ([("@timestamp", Ok (JTime (le_Timestamp e))); ("event_id", Ok (JStr (le_EventID e)));
    ("event_type", Ok (JStr (le_EventType e)))] ++
   omit_str "request_id" (le_RequestID e) ++ omit_str "user_id" (le_UserID e) ++
   omit_str "correlation_id" (le_CorrelationID e) ++ [("source", Ok (JStr (le_Source e)))] ++
   omit_map "data" (le_Data e) ++
   [("success", Ok (JBool (le_Success e))); ("service", Ok (JStr (le_Service e)));
    ("environment", Ok (JStr (le_Environment e)))]).

(** The value of a metric is the number [encoding/json] makes of the float;
    NaN and the infinities are errors. *)
Record MetricLogEntry := mkMetricLog {
  me_Timestamp : Z; me_MetricName : string; me_MetricType : string; me_Value : Value;
  me_Labels : gmap string string; me_Unit : string; me_Service : string; me_Environment : string }.
Definition MetricLogEntry_json (e : MetricLogEntry) : Value := struct
  ([("@timestamp", Ok (JTime (me_Timestamp e))); ("metric_name", Ok (JStr (me_MetricName e)));
    ("metric_type", Ok (JStr (me_MetricType e))); ("value", me_Value e)] ++
   omit_map "labels" (strings (me_Labels e)) ++ omit_str "unit" (me_Unit e) ++
   [("service", Ok (JStr (me_Service e))); ("environment", Ok (JStr (me_Environment e)))]).

(** ** The context of a call

    A gin context answers [Get] and [Value] from its keys; another context
    answers [Value] only. *)
Section context.
Context `{UuidLib}.

Record LogContext := mkLogContext { lc_gin : option (gmap string ctx_value); lc_values : gmap string ctx_value }.
(** [fmt.Sprintf("%v", v)]. *)
Definition Sprint (v : ctx_value) : string := match v with CStr s => s | CUuid u => uuid_String u end.
(** The three getters differ in the key. *)
Definition getFromContext (key : string) (ctx : LogContext) : string :=
  match lc_gin ctx ≫= (λ keys, keys !! key) with
  | Some v => Sprint v
  | None => match lc_values ctx !! key with Some v => Sprint v | None => "" end
  end.
Definition getRequestIDFromContext : LogContext → string := getFromContext "request_id".
Definition getUserIDFromContext : LogContext → string := getFromContext "user_id".
Definition getCorrelationIDFromContext : LogContext → string := getFromContext "correlation_id".

Definition add_unless_empty (k s : string) (f : Fields) : Fields :=
  if String.eqb s "" then f else <[k := Ok (JStr s)]> f.
(** [if ctx != nil] the identifiers it carries are added. *)
Definition add_context (ctx : option LogContext) (f : Fields) : Fields :=
  match ctx with
  | None => f
  | Some c => add_unless_empty "correlation_id" (getCorrelationIDFromContext c)
      (add_unless_empty "user_id" (getUserIDFromContext c)
        (add_unless_empty "request_id" (getRequestIDFromContext c) f))
  end.
End context.

(** ** Lines and the class of loggers *)

Inductive LineMessage := Text (s : string) | Marshalled (j : Json).
Record Line := mkLine { ln_Level : LogLevel; ln_Message : LineMessage; ln_Fields : Fields }.
(** What a process has written, and whether it called [os.Exit]. *)
Record Output := mkOutput { out_lines : list Line; out_exited : bool }.
Definition write_line (l : Line) (o : Output) : Output := mkOutput (out_lines o ++ [l]) (out_exited o).
Definition os_Exit (o : Output) : Output := mkOutput (out_lines o) true.

(** [logData, _ := json.Marshal(entry)], then [string(logData)]. *)
Definition marshalled (v : Value) : LineMessage := match v with Ok j => Marshalled j | Err _ => Text "" end.

Class Logger (L : Type) := {
  log_at : LogLevel → option LogContext → string → option Fields → L * Output → L * Output;
  LogRequest : RequestLogEntry → L * Output → L * Output;
  LogError : ErrorLogEntry → L * Output → L * Output;
  LogEvent : EventLogEntry → L * Output → L * Output;
  LogMetric : MetricLogEntry → L * Output → L * Output }.

(** ** The structured logger *)

Record StructuredLogger := mkStructured {
  sl_level : LogLevel; sl_service : string; sl_component : string; sl_environment : string;
  sl_version : string; sl_fields : Fields }.

Definition getEnvOrDefault (env : string → string) (key dflt : string) : string :=
  if String.eqb (env key) "" then dflt else env key.
Definition level_of_text (s : string) : LogLevel :=
  if String.eqb s "debug" then LogLevelDebug else if String.eqb s "info" then LogLevelInfo
  else if String.eqb s "warn" then LogLevelWarn else if String.eqb s "error" then LogLevelError
  else if String.eqb s "fatal" then LogLevelFatal else LogLevelInfo.
Definition NewStructuredLogger (env : string → string) (service component : string) : StructuredLogger :=
  mkStructured (level_of_text (ToLower (env "LOG_LEVEL"))) service component
    (getEnvOrDefault env "ENV" "development") (getEnvOrDefault env "SERVICE_VERSION" "1.0.0") ∅.

Section structured.
Context `{UuidLib} (stack : string).

Definition base_fields (l : StructuredLogger) : Fields :=
  <["service" := Ok (JStr (sl_service l))]> (<["component" := Ok (JStr (sl_component l))]>
    (<["environment" := Ok (JStr (sl_environment l))]> (<["version" := Ok (JStr (sl_version l))]> ∅))).
(** Later fields replace earlier ones of the same name. *)
Definition entry_fields (l : StructuredLogger) (ctx : option LogContext) (level : LogLevel)
    (fields : option Fields) : Fields :=
  let f := default ∅ fields ∪ (sl_fields l ∪ add_context ctx (base_fields l)) in
  if bool_decide (level = LogLevelError) || bool_decide (level = LogLevelFatal)
  then <["stack_trace" := Ok (JStr stack)]> f else f.
Definition enabled (l : StructuredLogger) (level : LogLevel) : bool :=
  (verbosity level <=? verbosity (sl_level l))%Z.
Definition emit (l : StructuredLogger) (level : LogLevel) (m : LineMessage) (f : Fields) (o : Output) : Output :=
  if enabled l level then write_line (mkLine level m f) o else o.
Definition exit_if_fatal (level : LogLevel) (o : Output) : Output :=
  match level with LogLevelFatal => os_Exit o | _ => o end.

(** [Debug], [Info], [Warn], [Error] and [Fatal] by the level. *)
Definition structured_log (level : LogLevel) (ctx : option LogContext) (message : string)
    (fields : option Fields) (s : StructuredLogger * Output) : StructuredLogger * Output :=
  let '(l, o) := s in
  (l, exit_if_fatal level (emit l level (Text message) (entry_fields l ctx level fields) o)).
(** A line of one of the entry types: its only field is the type. *)
Definition log_entry (level : LogLevel) (kind : string) (v : Value) (s : StructuredLogger * Output)
    : StructuredLogger * Output :=
  let '(l, o) := s in (l, emit l level (marshalled v) {["log_type" := Ok (JStr kind)]} o).

Definition structured_LogRequest (e : RequestLogEntry) (s : StructuredLogger * Output) :=
  let '(mkRequestLog t r u m p q st d ua ip rs ps h _ _) := e in
  log_entry LogLevelInfo "request" (RequestLogEntry_json
    (mkRequestLog t r u m p q st d ua ip rs ps h (sl_service s.1) (sl_environment s.1))) s.
Definition structured_LogError (e : ErrorLogEntry) (s : StructuredLogger * Output) :=
  let '(mkErrorLog t r u lv m er tr c _ cp _) := e in
  let tr := if String.eqb tr "" then stack else tr in
  log_entry LogLevelError "error" (ErrorLogEntry_json
    (mkErrorLog t r u lv m er tr c (sl_service s.1) cp (sl_environment s.1))) s.
Definition structured_LogEvent (e : EventLogEntry) (s : StructuredLogger * Output) :=
  let '(mkEventLog t i ty r u c so d ok _ _) := e in
  log_entry LogLevelInfo "event" (EventLogEntry_json
    (mkEventLog t i ty r u c so d ok (sl_service s.1) (sl_environment s.1))) s.
Definition structured_LogMetric (e : MetricLogEntry) (s : StructuredLogger * Output) :=
  let '(mkMetricLog t n ty v la un _ _) := e in
  log_entry LogLevelInfo "metric" (MetricLogEntry_json
    (mkMetricLog t n ty v la un (sl_service s.1) (sl_environment s.1))) s.

#[export] Instance structured_logger : Logger StructuredLogger := {
  log_at := structured_log; LogRequest := structured_LogRequest; LogError := structured_LogError;
  LogEvent := structured_LogEvent; LogMetric := structured_LogMetric }.

Definition WithFields (fields : Fields) (l : StructuredLogger) : StructuredLogger :=
  let '(mkStructured lv s c e v f) := l in mkStructured lv s c e v (fields ∪ f).
Definition WithContext (ctx : option LogContext) (l : StructuredLogger) : StructuredLogger :=
  let '(mkStructured lv s c e v f) := l in mkStructured lv s c e v (add_context ctx f).
End structured.

(** ** The logging service *)

(** [LogToKafka] without interleaving: the check and the case that is ready. *)
Definition ready_case (k : KafkaLogger) : log_case :=
  if ctx_done k then CaseDone else if room k then CaseSend else CaseDefault.
Definition LogToKafka (logType service : string) (now : Z) (data : Value) (k : KafkaLogger)
    : res error unit * KafkaLogger :=
  if kl_closed k then (Err (ErrorString "kafka logger is closed"), k)
  else default (Ok tt, k) (LogToKafka_select (ready_case k) (mkLogMessage logType now service data) k).
(** [Close] of the Kafka logger alone: its goroutine receives [drained] more
    messages before it takes the [ctx.Done()] case.  [None]: it does not
    return. *)
Definition KafkaLogger_Close (drained : nat) (k : KafkaLogger) : option KafkaLogger :=
  if kl_closed k then Some k
  else lrun ([EvClose; EvCloseNext; EvCloseNext] ++ repeat EvReceive drained ++ [EvDone; EvCloseNext]) k.

Record LoggingService := mkService {
  ls_structured : StructuredLogger; ls_kafka : option KafkaLogger; ls_service : string;
  ls_environment : string; ls_closed : bool }.
Record LoggingServiceConfig := mkServiceConfig {
  lsc_Service : string; lsc_Component : string; lsc_Environment : string; lsc_KafkaEnabled : bool;
  lsc_KafkaConfig : KafkaLoggerConfig }.

Definition DefaultLoggingServiceConfig (env : string → string) : LoggingServiceConfig :=
  mkServiceConfig "auth-service" "main" (getEnvOrDefault env "ENV" "development")
    (String.eqb (getEnvOrDefault env "KAFKA_LOGGING_ENABLED" "true") "true")
    (mkLoggerConfig [getEnvOrDefault env "KAFKA_BROKERS" "localhost:9092"]
       (getEnvOrDefault env "KAFKA_LOG_TOPIC" "application-logs") 100 (5 * Second) 1000).

Definition KafkaLogger_GetStats (k : KafkaLogger) : Json :=
  let '(n, c, closed) := KafkaLogger.GetStats k in
  JObj [("buffer_capacity", JInt (Z.of_nat c)); ("buffer_size", JInt (Z.of_nat n)); ("is_closed", JBool closed)].

Section service.
Context `{UuidLib} (now : Z) (stack : string).

(** [NewLoggingService]: a Kafka logger that cannot be made is left out. *)
Definition NewLoggingService (env : string → string) (config : LoggingServiceConfig) (o : Output)
    : option (LoggingService * Output) :=
  let l := NewStructuredLogger env (lsc_Service config) (lsc_Component config) in
  let service k := mkService l k (lsc_Service config) (lsc_Environment config) false in
  if lsc_KafkaEnabled config then
    match NewKafkaLogger (lsc_KafkaConfig config) with
    | None => None
    | Some (Ok k) => Some (service (Some k), o)
    | Some (Err e) =>
        Some (service None,
              (structured_log stack LogLevelWarn (Some (mkLogContext None ∅)) "Failed to initialize Kafka logger"
                 (Some {["error" := Ok (JStr (Error e))]}) (l, o)).2)
    end
  else Some (service None, o).

(** The two halves of every operation, the error of [LogToKafka] ignored. *)
Definition to_structured (f : StructuredLogger * Output → StructuredLogger * Output)
    (s : LoggingService * Output) : LoggingService * Output := (s.1, (f (ls_structured s.1, s.2)).2).
Definition to_kafka (logType : string) (data : Value) (s : LoggingService * Output) : LoggingService * Output :=
  let '(mkService l k sv en c, o) := s in
  (mkService l ((λ k, (LogToKafka logType sv now data k).2) <$> k) sv en c, o).
Definition unless_closed (f : LoggingService * Output → LoggingService * Output) (s : LoggingService * Output)
    : LoggingService * Output := if ls_closed s.1 then s else f s.

Definition log_data (level : LogLevel) (message : string) (fields : option Fields) : Value :=
  json_map (<["level" := Ok (JStr (level_text level))]> (<["message" := Ok (JStr message)]>
    (<["fields" := json_fields fields]> ∅))).
(** [Debug], [Info], [Warn] and [Error]; [Fatal] sends to Kafka first. *)
Definition service_log (level : LogLevel) (ctx : option LogContext) (message : string) (fields : option Fields)
    : LoggingService * Output → LoggingService * Output :=
  let line := to_structured (structured_log stack level ctx message fields) in
  let copy := to_kafka (level_text level) (log_data level message fields) in
  unless_closed (λ s, match level with LogLevelFatal => line (copy s) | _ => copy (line s) end).

(** The entry sent to Kafka is the caller's. *)
Definition service_LogRequest (e : RequestLogEntry) : LoggingService * Output → LoggingService * Output :=
  unless_closed (λ s, to_kafka "request" (RequestLogEntry_json e) (to_structured (structured_LogRequest e) s)).
Definition service_LogError (e : ErrorLogEntry) : LoggingService * Output → LoggingService * Output :=
  unless_closed (λ s, to_kafka "error" (ErrorLogEntry_json e) (to_structured (structured_LogError stack e) s)).
Definition service_LogEvent (e : EventLogEntry) : LoggingService * Output → LoggingService * Output :=
  unless_closed (λ s, to_kafka "event" (EventLogEntry_json e) (to_structured (structured_LogEvent e) s)).
Definition service_LogMetric (e : MetricLogEntry) : LoggingService * Output → LoggingService * Output :=
  unless_closed (λ s, to_kafka "metric" (MetricLogEntry_json e) (to_structured (structured_LogMetric e) s)).

#[export] Instance logging_service : Logger LoggingService := {
  log_at := service_log; LogRequest := service_LogRequest; LogError := service_LogError;
  LogEvent := service_LogEvent; LogMetric := service_LogMetric }.

(** The derived logger is the structured one. *)
Definition service_WithFields (fields : Fields) (s : LoggingService) : StructuredLogger :=
  if ls_closed s then ls_structured s else WithFields fields (ls_structured s).
Definition service_WithContext (ctx : option LogContext) (s : LoggingService) : StructuredLogger :=
  if ls_closed s then ls_structured s else WithContext ctx (ls_structured s).

(** [writer_Close] is the outcome of closing the Kafka writer. *)
Definition service_Close (drained : nat) (writer_Close : option error) (s : LoggingService)
    : option (option error * LoggingService) :=
  let '(mkService l k sv en c) := s in
  if c then Some (None, s)
  else match k with
       | None => Some (None, mkService l None sv en true)
       | Some k =>
           k' ← KafkaLogger_Close drained k;
           Some (if kl_closed k then None else ErrorWrap "failed to close Kafka logger" <$> writer_Close,
                 mkService l (Some k') sv en true)
       end.
Definition service_HealthCheck (write : option error) (s : LoggingService) : option error :=
  if ls_closed s then Some (ErrorString "logging service is closed")
  else k ← ls_kafka s; ErrorWrap "kafka logger health check failed" <$> HealthCheck write k.
Definition service_GetStats (s : LoggingService) : Json :=
  JObj ([("environment", JStr (ls_environment s)); ("is_closed", JBool (ls_closed s))] ++
        match ls_kafka s with Some k => [("kafka", KafkaLogger_GetStats k)] | None => [] end ++
        [("service", JStr (ls_service s))]).

(** ** The process-wide service

    The [sync.Once] and the pointer it sets. *)
Record Global := mkGlobal { gl_done : bool; gl_service : option LoggingService }.
Definition InitializeGlobalLogger (env : string → string) (config : LoggingServiceConfig) (g : Global)
    (o : Output) : option (Global * Output) :=
  if gl_done g then Some (g, o)
  else '(s, o') ← NewLoggingService env config o; Some (mkGlobal true (Some s), o').
Definition GetGlobalLogger (env : string → string) (g : Global) : LoggingService + StructuredLogger :=
  match gl_service g with Some s => inl s | None => inr (NewStructuredLogger env "unknown" "unknown") end.
Definition CloseGlobalLogger (drained : nat) (writer_Close : option error) (g : Global)
    : option (option error * Global) :=
  match gl_service g with
  | None => Some (None, g)
  | Some s => '(e, s') ← service_Close drained writer_Close s; Some (e, mkGlobal (gl_done g) (Some s'))
  end.
End service.

(** ** The middleware

    One exchange: the request, the gin context with its keys, and the answer
    as far as it was written through [Write].  What runs below a middleware
    ends normally or panics with a value. *)
Record Exchange := mkExchange {
  ex_gin : GinContext; ex_Method : string; ex_Path : string; ex_Query : string; ex_UserAgent : string;
  ex_ClientIP : string; ex_Body : option string;
  ex_headers : gmap string string;              (* headers of the answer *)
  ex_Status : Z; ex_written : string; ex_Errors : list (Z * error) }.
Inductive PanicValue := PanicString (s : string) | PanicOther.
Abbreviation Next W := (Exchange * W → option PanicValue * (Exchange * W)).

Definition set_key (k : string) (v : ctx_value) (x : Exchange) : Exchange :=
  let '(mkExchange g m p q ua ip b h st wr er) := x in mkExchange (gin_Set k v g) m p q ua ip b h st wr er.
Definition set_header (k v : string) (x : Exchange) : Exchange :=
  let '(mkExchange g m p q ua ip b h st wr er) := x in mkExchange g m p q ua ip b (<[k := v]> h) st wr er.
Definition AbortWithStatus (status : Z) (x : Exchange) : Exchange :=
  let '(mkExchange g m p q ua ip b h _ wr er) := x in
  mkExchange (AbortWith status "" g) m p q ua ip b h status wr er.

(** [v.(string)] on a key that may be missing: [None] is the panic. *)
Definition string_key (k : string) (x : Exchange) : option string :=
  match gc_keys (ex_gin x) !! k with
  | None => Some ""
  | Some (CStr s) => Some s
  | Some (CUuid _) => None
  end.

Definition relevantHeaders : list string :=
  ["Content-Type"; "Accept"; "Authorization"; "X-Forwarded-For"; "X-Real-IP"; "User-Agent"].
Definition masked (header value : string) : string :=
  if String.eqb header "Authorization" then "Bearer ***" else value.
Definition extract_header (headers : gmap string (list string)) (result : gmap string string) (header : string)
    : gmap string string :=
  match headers !! header with
  | Some (value :: _) => <[header := masked header value]> result
  | _ => result
  end.
Definition extractHeaders (headers : gmap string (list string)) : gmap string string :=
  foldl (extract_header headers) ∅ relevantHeaders.

Section middleware.
Context {L : Type} `{Logger L} (now : Z).
Abbreviation W := (L * Output)%type.

(** A header of the request, or a generated identifier. *)
Definition or_generated (value generated : string) : string :=
  if String.eqb value "" then generated else value.

Definition request_entry (requestID userID : string) (start duration : Z) (x : Exchange) : RequestLogEntry :=
  mkRequestLog start requestID userID (ex_Method x) (ex_Path x) (ex_Query x) (ex_Status x) duration
    (ex_UserAgent x) (ex_ClientIP x) (Z.of_nat (str_len (default "" (ex_Body x))))
    (Z.of_nat (str_len (ex_written x))) (extractHeaders ((λ v, [v]) <$> gc_headers (ex_gin x))) "" "".
Definition response_error (requestID userID : string) (x : Exchange) : ErrorLogEntry :=
  mkErrorLog now requestID userID LogLevelError "HTTP Error Response" "" ""
    (<["method" := Ok (JStr (ex_Method x))]> (<["path" := Ok (JStr (ex_Path x))]>
      (<["status_code" := Ok (JInt (ex_Status x))]>
        (<["response_body" := Ok (JStr (ex_written x))]> ∅)))) "" "http" "".

(** [requestID] and [correlationID] are what [uuid.New()] gives. *)
Definition RequestLogger (newRequestID newCorrelationID : string) (start duration : Z) (next : Next W) : Next W :=
  λ '(x, w),
    let requestID := or_generated (GetHeader (ex_gin x) "X-Request-ID") newRequestID in
    let x := set_header "X-Request-ID" requestID (set_key "request_id" (CStr requestID) x) in
    let correlationID := or_generated (GetHeader (ex_gin x) "X-Correlation-ID") newCorrelationID in
    let x := set_header "X-Correlation-ID" correlationID (set_key "correlation_id" (CStr correlationID) x) in
    match next (x, w) with
    | (Some p, xw) => (Some p, xw)
    | (None, (x, w)) =>
        match string_key "user_id" x with
        | None => (Some PanicOther, (x, w))
        | Some userID =>
            let w := LogRequest (request_entry requestID userID start duration x) w in
            let w := if (400 <=? ex_Status x)%Z then LogError (response_error requestID userID x) w else w in
            (None, (x, w))
        end
    end.

Definition gin_error (requestID userID : string) (x : Exchange) (err : Z * error) : ErrorLogEntry :=
  mkErrorLog now requestID userID LogLevelError "Gin Error" (Error err.2) ""
    (<["error_type" := Ok (JInt err.1)]> (<["method" := Ok (JStr (ex_Method x))]>
      (<["path" := Ok (JStr (ex_Path x))]> ∅))) "" "gin" "".
Definition ErrorLogger (next : Next W) : Next W := λ xw,
  match next xw with
  | (Some p, xw) => (Some p, xw)
  | (None, (x, w)) =>
      match ex_Errors x with
      | [] => (None, (x, w))
      | errors =>
          match string_key "request_id" x, string_key "user_id" x with
          | Some requestID, Some userID =>
              (None, (x, foldl (λ w e, LogError (gin_error requestID userID x e) w) w errors))
          | _, _ => (Some PanicOther, (x, w))
          end
      end
  end.

(** [gin.CustomRecovery] calls the function on what it recovered; a panic of
    its own is not recovered. *)
Definition PanicRecovery (next : Next W) : Next W := λ xw,
  match next xw with
  | (None, xw) => (None, xw)
  | (Some p, (x, w)) =>
      match string_key "request_id" x, string_key "user_id" x, p with
      | Some requestID, Some userID, PanicString text =>
          let entry := mkErrorLog now requestID userID LogLevelFatal "Panic Recovered" text ""
            (<["method" := Ok (JStr (ex_Method x))]> (<["path" := Ok (JStr (ex_Path x))]> ∅)) ""
            "panic_recovery" "" in
          (None, (AbortWithStatus 500 x, LogError entry w))
      | _, _, _ => (Some PanicOther, (x, w))
      end
  end.
End middleware.

(** A handler below a middleware of Interceptors.v: gin runs it unless the
    middleware answered.  [render] is the body of an answer. *)
Definition set_gin (g : GinContext) (x : Exchange) : Exchange :=
  let '(mkExchange _ m p q ua ip b h st wr er) := x in mkExchange g m p q ua ip b h st wr er.
Definition answered (status : Z) (body : string) (x : Exchange) : Exchange :=
  let '(mkExchange g m p q ua ip b h _ wr er) := x in mkExchange g m p q ua ip b h status (wr +:+ body) er.
Definition below {W} (render : string → string) (m : GinContext → GinContext) (next : Next W) : Next W :=
  λ '(x, w),
    let x := set_gin (m (ex_gin x)) x in
    match gc_answer (ex_gin x) with
    | None => next (x, w)
    | Some (status, message) => (None, (answered status (render message) x, w))
    end.

(** ** Lemmas *)

Lemma LogToKafka_ready t sv now d k : is_Some (LogToKafka_select (ready_case k) (mkLogMessage t now sv d) k).
Proof.
  unfold ready_case, LogToKafka_select. destruct (ctx_done k) eqn:Hd; [by eexists|].
  assert (buffer_closed k = false) as ->.
  { unfold ctx_done, buffer_closed in *. by destruct (kl_closing k). }
  destruct (room k) eqn:Hr; rewrite ?Hr; by eexists.
Qed.
Lemma LogToKafka_room t sv now d k : kl_closed k = false → ctx_done k = false → room k = true →
  LogToKafka t sv now d k =
  (Ok tt, upd_accepted (mkLogMessage t now sv d) (upd_buffer (λ q, q ++ [mkLogMessage t now sv d]) k)).
Proof.
  intros Hc Hd Hr. unfold LogToKafka, ready_case. rewrite Hc, Hd, Hr. simpl.
  unfold ctx_done, buffer_closed in *. rewrite Hr. by destruct (kl_closing k).
Qed.
Lemma LogToKafka_keeps t sv now d k : logger_ok k → logger_ok (LogToKafka t sv now d k).2.
Proof.
  intros Hok. unfold LogToKafka. destruct (kl_closed k); [done|].
  destruct (LogToKafka_ready t sv now d k) as [[r k'] Hs]. rewrite Hs. by eapply select_ok.
Qed.

(** What is logged of the headers: those listed, the credentials masked. *)
Definition logged_header (headers : gmap string (list string)) (k : string) : option string :=
  v ← headers !! k; masked k <$> head v.
Lemma extract_header_ne headers acc h k : k ≠ h → extract_header headers acc h !! k = acc !! k.
Proof.
  intros Hne. unfold extract_header. destruct (headers !! h) as [[|v vs]|]; [done| |done]. by rewrite lookup_insert_ne.
Qed.
Lemma extract_header_eq headers acc k : acc !! k = None →
  extract_header headers acc k !! k = logged_header headers k.
Proof.
  intros Ha. unfold extract_header, logged_header.
  destruct (headers !! k) as [[|v vs]|]; simpl; [done| |done]. by rewrite lookup_insert_eq.
Qed.
Lemma extractHeaders_from headers l acc k : NoDup l → (k ∈ l → acc !! k = None) →
  foldl (extract_header headers) acc l !! k =
  if decide (k ∈ l) then logged_header headers k else acc !! k.
Proof.
  revert acc. induction l as [|h l IH]; intros acc Hnd Hacc; cbn [foldl].
  { destruct (decide (k ∈ [])) as [Hk|]; [by apply not_elem_of_nil in Hk | done]. }
  apply NoDup_cons in Hnd as [Hh Hnd]. destruct (decide (k = h)) as [->|Hne].
  - rewrite IH by done. destruct (decide (h ∈ l)); [done|]. destruct (decide (h ∈ h :: l)) as [|Hn].
    + apply extract_header_eq, Hacc. by left.
    + by destruct Hn; left.
  - rewrite IH; [|done|].
    + rewrite extract_header_ne by done.
      destruct (decide (k ∈ l)) as [Hk|Hk], (decide (k ∈ h :: l)) as [Hk'|Hk']; try done.
      * by destruct Hk'; right.
      * by apply elem_of_cons in Hk' as [?|?].
    + intros Hk. rewrite extract_header_ne by done. apply Hacc. by right.
Qed.
Theorem extractHeaders_spec headers k :
  extractHeaders headers !! k = if decide (k ∈ relevantHeaders) then logged_header headers k else None.
Proof.
  unfold extractHeaders. rewrite extractHeaders_from; [|apply (bool_decide_unpack _); by vm_compute|done].
  by destruct (decide _).
Qed.

(** Header names come in the canonical form of [net/textproto]; one of the
    names listed has another form, and is never logged. *)
Fixpoint canonical_from (upper : bool) (s : string) : string :=
  match s with
  | EmptyString => EmptyString
  | String a s' =>
      String (if upper then upper_ascii a else lower_ascii a) (canonical_from (Ascii.eqb a "-"%char) s')
  end.
Definition CanonicalHeaderKey (s : string) : string := canonical_from true s.
Theorem real_ip_is_never_logged (headers : gmap string (list string)) :
  (∀ k, is_Some (headers !! k) → k = CanonicalHeaderKey k) → extractHeaders headers !! "X-Real-IP" = None.
Proof.
  intros Hc. rewrite extractHeaders_spec. destruct (decide _); [|done]. unfold logged_header.
  destruct (headers !! "X-Real-IP") as [v|] eqn:Hv; [|done].
  assert (Hk := Hc "X-Real-IP" (mk_is_Some _ _ Hv)). by vm_compute in Hk.
Qed.

(** The line on standard output names the service; the copy sent to Kafka does
    not, unless the caller did. *)
Theorem kafka_copies_lack_the_service `{UuidLib} now stack t r u m p q st d ua ip rs ps h s o k :
  ls_closed s = false → ls_kafka s = Some k → kl_closed k = false → ctx_done k = false → room k = true →
  let e := mkRequestLog t r u m p q st d ua ip rs ps h "" "" in
  let '(s', o') := @LogRequest _ (logging_service now stack) e (s, o) in
  (kl_accepted <$> ls_kafka s') =
    Some (kl_accepted k ++ [mkLogMessage "request" now (ls_service s) (RequestLogEntry_json e)]) ∧
  out_lines o' = out_lines o ++
    (if enabled (ls_structured s) LogLevelInfo
     then [mkLine LogLevelInfo (marshalled (RequestLogEntry_json (mkRequestLog t r u m p q st d ua ip rs ps h
             (sl_service (ls_structured s)) (sl_environment (ls_structured s)))))
             {["log_type" := Ok (JStr "request")]}] else []).
Proof.
  intros Hc Hk Hkc Hd Hr. destruct s as [l k0 sv en c]. simpl in *. subst. split.
  - cbn [ls_kafka fmap option_fmap option_map]. rewrite (LogToKafka_room _ _ _ _ k Hkc Hd Hr). destruct k. reflexivity.
  - simpl. unfold emit. destruct (enabled l LogLevelInfo); [reflexivity|]. simpl. by rewrite app_nil_r.
Qed.

(** A closed service is silent, whatever it is asked. *)
Lemma unless_closed_closed f s o : ls_closed s = true → unless_closed f (s, o) = (s, o).
Proof. intros Hc. unfold unless_closed. simpl. by rewrite Hc. Qed.
Theorem closed_service_is_silent `{UuidLib} now stack level ctx message fields e1 e2 e3 e4 s o :
  ls_closed s = true →
  @log_at _ (logging_service now stack) level ctx message fields (s, o) = (s, o) ∧
  @LogRequest _ (logging_service now stack) e1 (s, o) = (s, o) ∧
  @LogError _ (logging_service now stack) e2 (s, o) = (s, o) ∧
  @LogEvent _ (logging_service now stack) e3 (s, o) = (s, o) ∧
  @LogMetric _ (logging_service now stack) e4 (s, o) = (s, o).
Proof. intros Hc. split_and!; by apply unless_closed_closed. Qed.

(** ** The request logger and authentication *)
Section request_logging.
Context {L : Type} `{Logger L} `{JwtLib} (jwtSecret : string) (now : Z) (render : string → string).
Abbreviation W := (L * Output)%type.

(** A handler that answers and leaves the caller's identity alone. *)
Definition well_behaved (handler : Next W) : Prop :=
  ∀ xw, ∃ x' w', handler xw = (None, (x', w')) ∧ gc_keys (ex_gin x') !! "user_id" = gc_keys (ex_gin xw.1) !! "user_id".
(** The middleware of a service that recovers, logs and authenticates. *)
Definition logged_chain (rid cid : string) (start duration : Z) (handler : Next W) : Next W :=
  PanicRecovery now (RequestLogger now rid cid start duration (below render (AuthMiddleware jwtSecret now) handler)).

(** The exchange the request logger hands on. *)
Definition identified (rid cid : string) (x : Exchange) : Exchange :=
  let requestID := or_generated (GetHeader (ex_gin x) "X-Request-ID") rid in
  let correlationID := or_generated (GetHeader (ex_gin x) "X-Correlation-ID") cid in
  set_header "X-Correlation-ID" correlationID (set_key "correlation_id" (CStr correlationID)
    (set_header "X-Request-ID" requestID (set_key "request_id" (CStr requestID) x))).

Lemma RequestLogger_eq rid cid start duration next x w :
  RequestLogger now rid cid start duration next (x, w) =
  match next (identified rid cid x, w) with
  | (Some p, xw) => (Some p, xw)
  | (None, (x', w')) =>
      let requestID := or_generated (GetHeader (ex_gin x) "X-Request-ID") rid in
      match string_key "user_id" x' with
      | None => (Some PanicOther, (x', w'))
      | Some userID =>
          let w1 := LogRequest (request_entry requestID userID start duration x') w' in
          (None, (x', if (400 <=? ex_Status x')%Z then LogError (response_error now requestID userID x') w1 else w1))
      end
  end.
Proof. by destruct x as [[hd ks an] ? ? ? ? ? ? ? ? ? ?]. Qed.
Lemma identified_gin rid cid x :
  gc_headers (ex_gin (identified rid cid x)) = gc_headers (ex_gin x) ∧
  gc_answer (ex_gin (identified rid cid x)) = gc_answer (ex_gin x) ∧
  gc_keys (ex_gin (identified rid cid x)) !! "user_id" = gc_keys (ex_gin x) !! "user_id".
Proof.
  destruct x as [[hd ks an] ? ? ? ? ? ? ? ? ? ?]. split_and!; [done..|].
  cbn [identified ex_gin gin_Set gc_keys set_key set_header]. by rewrite !lookup_insert_ne by done.
Qed.
Lemma bearer_of_headers c c' claims : gc_headers c = gc_headers c' →
  bearer_of jwtSecret now c claims ↔ bearer_of jwtSecret now c' claims.
Proof. intros Hh. unfold bearer_of, GetHeader. by rewrite Hh. Qed.

(** The request logger and the authentication middleware do not work
    together.  The middleware stores the caller's identity as a UUID and the
    logger reads it back as a string: when a request carries a valid bearer
    token, the handler runs and answers, and then the logger panics without
    writing an entry, and so does the recovery middleware around it.  When it
    carries none, the request is answered 401 and logged as a request and as an
    error, under the identifier of its X-Request-ID header or a new one. *)
Theorem authenticated_requests_break_the_request_logger rid cid start duration handler x (w : W) :
  well_behaved handler → gc_answer (ex_gin x) = None → gc_keys (ex_gin x) !! "user_id" = None →
  let out := logged_chain rid cid start duration handler (x, w) in
  let requestID := or_generated (GetHeader (ex_gin x) "X-Request-ID") rid in
  ((∃ claims, bearer_of jwtSecret now (ex_gin x) claims) →
     out.1 = Some PanicOther ∧ ∃ x0, handler (x0, w) = (None, out.2)) ∧
  ((∀ claims, ¬ bearer_of jwtSecret now (ex_gin x) claims) →
     out.1 = None ∧ ex_Status out.2.1 = 401 ∧
     out.2.2 = LogError (response_error now requestID "" out.2.1)
                 (LogRequest (request_entry requestID "" start duration out.2.1) w)).
Proof.
  intros Hh Ha Hu out requestID. destruct (identified_gin rid cid x) as (Eh & Ea & Eu).
  unfold out, logged_chain, PanicRecovery. rewrite RequestLogger_eq. unfold below.
  destruct (AuthMiddleware_cases jwtSecret now (ex_gin (identified rid cid x))) as
    [(claims & Hb & Hm)|[Hno [msg Hm]]]; rewrite Hm.
  - split; [intros _|intros Hn; destruct (Hn claims); by eapply bearer_of_headers, Hb].
    assert (gc_answer (ex_gin (set_gin (set_claims claims (ex_gin (identified rid cid x))) (identified rid cid x)))
            = None) as -> by (by destruct (identified rid cid x); simpl in *; rewrite Ea).
    destruct (Hh (set_gin (set_claims claims (ex_gin (identified rid cid x))) (identified rid cid x), w))
      as (x' & w' & Hrun & Hk). rewrite Hrun.
    assert (Hs : string_key "user_id" x' = None).
    { unfold string_key. rewrite Hk. destruct (identified rid cid x) as [g ? ? ? ? ? ? ? ? ? ?]. cbn [set_gin ex_gin fst set_claims gin_Set gc_keys].
      by rewrite !lookup_insert_ne, lookup_insert_eq by done. }
    rewrite Hs. simpl. rewrite Hs. split; [by destruct (string_key "request_id" x')|].
    eexists. rewrite Hrun. by destruct (string_key "request_id" x').
  - split; [intros (claims & Hb); destruct (Hno claims); by eapply bearer_of_headers, Hb|intros _].
    set (x1 := identified rid cid x) in *.
    assert (Hx : ∃ x', answered 401 (render msg) (set_gin (AbortWith 401 msg (ex_gin x1)) x1) = x' ∧
      string_key "user_id" x' = Some "" ∧ ex_Status x' = 401 ∧
      gc_answer (ex_gin (set_gin (AbortWith StatusUnauthorized msg (ex_gin x1)) x1)) = Some (401, msg)).
    { eexists. split; [reflexivity|]. unfold string_key. destruct x1 as [[hd ks an] ? ? ? ? ? ? ? ? ? ?]. simpl in *.
      rewrite Eu, Hu. done. }
    destruct Hx as (x' & Hx & Hs & Hst & Hans). unfold StatusUnauthorized in *. rewrite Hans, Hx.
    cbn [fst snd]. rewrite Hs. cbv zeta. rewrite Hst. simpl. by rewrite Hst.
Qed.
End request_logging.

(** ** Witness: the structured logger, a signed token and a small handler *)

#[local] Existing Instances ref_uuid ref_jwt.
#[local] Instance ref_logging : Logger StructuredLogger := structured_logger "main.go:39".

Definition ref_log_claims : TokenClaims :=
  mkTokenClaims 7 9 "a@b.c" "access" 1 "" "" "sid" "jti" "7" (Some 0) (Some (3600 * Second)) None "iss" ["aud"].
Definition ref_log_token : string :=
  match jwt_SignedString "secret" ref_log_claims with Ok t => t | Err _ => "" end.
Definition ref_exchange (headers : gmap string string) : Exchange :=
  mkExchange (mkGin headers ∅ None) "GET" "/api/v1/roles/" "" "curl" "10.0.0.1" None ∅ 0 "" [].
Definition ref_handler : Next (StructuredLogger * Output) := λ '(x, w), (None, (answered 200 "[]" x, w)).
Lemma ref_handler_ok : well_behaved ref_handler.
Proof. intros [x w]. eexists _, _. split; [reflexivity|]. by destruct x. Qed.
Definition ref_stdout : StructuredLogger * Output :=
  (NewStructuredLogger (λ _, "") "auth-service" "main", mkOutput [] false).
Definition ref_bearer : Exchange := ref_exchange {["Authorization" := "Bearer " +:+ ref_log_token]}.
Lemma ref_bearer_ok : bearer_of "secret" Second (ex_gin ref_bearer) ref_log_claims.
Proof. exists ref_log_token. split; vm_compute; reflexivity. Qed.
Lemma ref_anonymous_ok claims : ¬ bearer_of "secret" Second (ex_gin (ref_exchange ∅)) claims.
Proof. intros (token & Ht & _). discriminate Ht. Qed.

Lemma authenticated_requests_break_the_request_logger_witness :
  (∃ x0, ref_handler (x0, ref_stdout) =
     (None, (logged_chain "secret" Second (λ m, m) "r1" "c1" 0 5 ref_handler (ref_bearer, ref_stdout)).2)) ∧
  ex_Status (logged_chain "secret" Second (λ m, m) "r1" "c1" 0 5 ref_handler (ref_exchange ∅, ref_stdout)).2.1 = 401.
Proof.
  split.
  - exact (proj2 (proj1 (authenticated_requests_break_the_request_logger "secret" Second (λ m, m) "r1" "c1" 0 5
      ref_handler ref_bearer ref_stdout ref_handler_ok eq_refl eq_refl)
      (ex_intro _ ref_log_claims ref_bearer_ok))).
  - exact (proj1 (proj2 (proj2 (authenticated_requests_break_the_request_logger "secret" Second (λ m, m) "r1" "c1" 0 5
      ref_handler (ref_exchange ∅) ref_stdout ref_handler_ok eq_refl eq_refl)
      ref_anonymous_ok))).
Defined.
