(* ===== verification/Chain.v ===== *)
(** * The interceptor chain of the gRPC server
    (src/internal/grpc/interceptors/logging.go, metrics.go, recovery.go, and
    the chain [Start] of src/internal/grpc/server.go builds)

    Recovery, logging, metrics, rate limiting, authentication and the circuit
    breaker around a handler, in this order; the last three are those of
    Interceptors.v and Breaker.v.  A handler answers or panics; it is given the
    request the authentication interceptor hands on, and works on the world
    [W] and on the circuit breakers, which handlers use too.

    Metrics are what the counters, gauges and histograms hold, histograms as
    their observations; log lines are what zap is given, without stack traces and clock times.
    A panic in the breaker's call is reported to it as a failure and goes on,
    as gobreaker documents.  The clock readings of one call are those of
    [Times].  The unary and the stream interceptors differ in their texts, in
    the sizes and in the name of the breaker. *)

From S2P Require Import Prelude Errors Models TokenService Breaker Interceptors.

#[local] Open Scope Z_scope.

(** [status.Code] of google.golang.org/grpc/status. *)
Class StatusLib := { status_Code : option error → code }.

(** A recovered value: its text under [%v] and what a metadata map holds. *)
Record PanicV := mkPanicV { pv_text : string; pv_value : meta }.
Inductive outcome (A : Type) := Returned (resp : option A) (err : option error) | Panicked (v : PanicV).
Arguments Returned {A}. Arguments Panicked {A}.

Inductive CallKind := Unary | Stream.
Record Times := mkTimes {
  tm_start : Z; tm_limit : Z; tm_auth : Z; tm_breaker : Runtime; tm_done : Z; tm_end : Z; tm_panic : Runtime }.

(** ** Metrics *)

Record Metrics := mkMetrics {
  mt_requestsTotal : gmap (string * string) Z;
  mt_requestDuration : gmap (string * string) (list Z);
  mt_requestsInFlight : gmap string Z;
  mt_requestSize : gmap string (list Z);
  mt_responseSize : gmap string (list Z) }.
Definition NewMetricsInterceptor : Metrics := mkMetrics ∅ ∅ ∅ ∅ ∅.
(** [WithLabelValues(k).Add(n)], and [Observe(x)]. *)
Definition counted {K} `{Countable K} (n : Z) (k : K) (m : gmap K Z) : gmap K Z := <[k := default 0 (m !! k) + n]> m.
Definition observed {K} `{Countable K} (x : Z) (k : K) (m : gmap K (list Z)) : gmap K (list Z) :=
  <[k := default [] (m !! k) ++ [x]]> m.
Definition count_total (k : string * string) (m : Metrics) : Metrics :=
  let '(mkMetrics t d f rq rs) := m in mkMetrics (counted 1 k t) d f rq rs.
Definition observe_duration (x : Z) (k : string * string) (m : Metrics) : Metrics :=
  let '(mkMetrics t d f rq rs) := m in mkMetrics t (observed x k d) f rq rs.
Definition count_inFlight (n : Z) (k : string) (m : Metrics) : Metrics :=
  let '(mkMetrics t d f rq rs) := m in mkMetrics t d (counted n k f) rq rs.
Definition observe_request (size : Z) (k : string) (m : Metrics) : Metrics :=
  if (0 <? size)%Z then let '(mkMetrics t d f rq rs) := m in mkMetrics t d f (observed size k rq) rs else m.
Definition observe_response (size : Z) (k : string) (m : Metrics) : Metrics :=
  if (0 <? size)%Z then let '(mkMetrics t d f rq rs) := m in mkMetrics t d f rq (observed size k rs) else m.
(** [RecordTokenValidationDuration]. *)
Definition RecordTokenValidationDuration (duration : Z) : Metrics → Metrics :=
  observe_duration duration ("ValidateToken", "OK").
(** [estimateMessageSize] on a message that is a string or not. *)
Definition estimateMessageSize {A} (as_string : A → option string) (msg : option A) : Z :=
  match msg with
  | None => 0
  | Some a => match as_string a with Some s => Z.of_nat (str_len s) | None => 256 end
  end.

(** ** Log lines *)

Inductive ZapLevel := ZapInfo | ZapWarn | ZapError.
Record RequestLine := mkRequestLine {
  rl_level : ZapLevel; rl_message : string; rl_fields : list (string * string);
  rl_duration : Z; rl_code : string; rl_error : option error }.

(** The first value of a metadata key, as a field. *)
Definition md_field (md : gmap string (list string)) (key name : string) : list (string * string) :=
  match md_Get md key with v :: _ => [(name, v)] | [] => [] end.
Definition extractRequestFields (r : Incoming) (method : string) : list (string * string) :=
  [("method", method)] ++
  match in_peer r with Some addr => [("peer_addr", addr)] | None => [] end ++
  match in_md r with
  | Some md => md_field md "correlation-id" "correlation_id" ++ md_field md "user-agent" "user_agent" ++
      md_field md "user-id" "user_id" ++ md_field md "organization-id" "organization_id"
  | None => []
  end.

Definition completed (k : CallKind) : string :=
  match k with Unary => "gRPC request completed" | Stream => "gRPC stream completed" end.
Definition failed_call (k : CallKind) : string :=
  match k with Unary => "gRPC request failed" | Stream => "gRPC stream failed" end.
Definition erroneous (k : CallKind) : string :=
  match k with Unary => "gRPC request error" | Stream => "gRPC stream error" end.
Definition request_line `{StatusLib} (k : CallKind) (r : Incoming) (method : string) (duration : Z)
    (err : option error) : RequestLine :=
  let fields := extractRequestFields r method ++ match k with Stream => [("is_stream", "true")] | Unary => [] end in
  let c := status_Code err in
  match err with
  | None => mkRequestLine ZapInfo (completed k) fields duration (code_String c) None
  | Some e =>
      match c with
      | Internal | Unknown => mkRequestLine ZapError (failed_call k) fields duration (code_String c) None
      | _ => mkRequestLine ZapWarn (erroneous k) fields duration (code_String c) (Some e)
      end
  end.

(** ** Panics *)

Definition panic_prefix (k : CallKind) : string :=
  match k with
  | Unary => "Panic recovered in gRPC handler: "
  | Stream => "Panic recovered in gRPC stream handler: "
  end.
(** [traceID] is [ctx.Value(trace_id)], when it is a string. *)
Definition panic_error (rt : Runtime) (k : CallKind) (method : string) (traceID : option string)
    (stack : string) (v : PanicV) : AuthError :=
  let e := WithMetadata "stack_trace" (MStr stack) (WithMetadata "panic_value" (pv_value v)
    (WithMetadata "method" (MStr method) (WithRetryable false (WithSeverity SeverityCritical
      (WithCategory CategoryInternal (NewError rt ErrorCodeInternal (panic_prefix k +:+ pv_text v))))))) in
  match traceID with Some t => WithTraceID t e | None => e end.
(** [ToGRPCStatus().Err()]: nil for the code OK. *)
Definition status_Err (st : status) : option error :=
  match st_code st with OK => None | c => Some (ErrorStatus c (st_message st)) end.

(** ** The chain *)
Section chain.
Context {R L CB W Q A : Type} `{RedisPipe R} `{LimiterLib L} `{BreakerLib CB} `{JwtLib} `{UuidLib} `{StatusLib}.
Context (request_string : Q → option string) (response_string : A → option string).
Context (config : RateLimiterConfig) (ai : AuthInterceptor).
Context (kind : CallKind) (method : string) (tm : Times) (traceID : option string) (stack : string) (req : option Q).

Record Server := mkServer {
  ch_limiter : R * L; ch_breakers : CircuitBreakerManager CB; ch_metrics : Metrics;
  ch_lines : list RequestLine; ch_panics : list (string * PanicV); ch_world : W }.
Abbreviation Handler := (Incoming → Server → outcome A * Server).

Definition upd_limiter (x : R * L) (s : Server) : Server :=
  let '(mkServer _ b m l p w) := s in mkServer x b m l p w.
Definition upd_world (bw : CircuitBreakerManager CB * W) (s : Server) : Server :=
  let '(mkServer x _ m l p _) := s in mkServer x bw.1 m l p bw.2.
Definition upd_metrics (f : Metrics → Metrics) (s : Server) : Server :=
  let '(mkServer x b m l p w) := s in mkServer x b (f m) l p w.
Definition add_line (line : RequestLine) (s : Server) : Server :=
  let '(mkServer x b m l p w) := s in mkServer x b m (l ++ [line]) p w.
Definition add_panic (v : PanicV) (s : Server) : Server :=
  let '(mkServer x b m l p w) := s in mkServer x b m l (p ++ [(method, v)]) w.

Definition RecoveryInterceptor (handler : Handler) : Handler := λ r s,
  match handler r s with
  | (Panicked v, s') =>
      (Returned None (status_Err (ToGRPCStatus (panic_error (tm_panic tm) kind method traceID stack v))), add_panic v s')
  | out => out
  end.

Definition LoggingInterceptor (handler : Handler) : Handler := λ r s,
  match handler r s with
  | (Returned resp err, s') =>
      (Returned resp err, add_line (request_line kind r method (tm_end tm - tm_start tm) err) s')
  | out => out
  end.

Definition MetricsInterceptor (handler : Handler) : Handler := λ r s,
  let s := upd_metrics (count_inFlight 1 method) s in
  let s := match kind with
           | Unary => upd_metrics (observe_request (estimateMessageSize request_string req) method) s
           | Stream => s
           end in
  match handler r s with
  | (Panicked v, s) => (Panicked v, upd_metrics (count_inFlight (-1) method) s)
  | (Returned resp err, s) =>
      let c := code_String (status_Code err) in
      let s := upd_metrics (observe_duration (tm_done tm - tm_start tm) (method, c))
                 (upd_metrics (count_total (method, c)) s) in
      let s := match kind with
               | Unary => upd_metrics (observe_response (estimateMessageSize response_string resp) method) s
               | Stream => s
               end in
      (Returned resp err, upd_metrics (count_inFlight (-1) method) s)
  end.

(** The decisions of Interceptors.v. *)
Definition RateLimitInterceptor (handler : Handler) : Handler := λ r s,
  match limit config (tm_limit tm) r method (ch_limiter s) with
  | (Ok None, x) => handler r (upd_limiter x s)
  | (Ok (Some e), x) | (Err e, x) => (Returned None (Some e), upd_limiter x s)
  end.
Definition AuthenticationInterceptor (handler : Handler) : Handler := λ r s,
  match authenticate ai (tm_auth tm) method r with
  | Ok r' => handler r' s
  | Err e => (Returned None (Some e), s)
  end.

(** The interceptor of Breaker.v takes operations that return: a panic passes
    through it as an error of its own, which the breaker counts a failure. *)
Abbreviation Inner := (Incoming → CircuitBreakerManager CB * W → outcome A * (CircuitBreakerManager CB * W)).
Definition passing_panic : error := ErrorString "panic".
Definition as_operation (handler : CircuitBreakerManager CB * W → outcome A * (CircuitBreakerManager CB * W))
    (bw : CircuitBreakerManager CB * W)
    : option (A + PanicV) * option error * (CircuitBreakerManager CB * W) :=
  match handler bw with
  | (Returned resp err, bw') => (inl <$> resp, err, bw')
  | (Panicked v, bw') => (Some (inr v), Some passing_panic, bw')
  end.
Definition as_outcome (out : option (A + PanicV) * option error * (CircuitBreakerManager CB * W))
    : outcome A * (CircuitBreakerManager CB * W) :=
  match out with
  | (Some (inr v), _, bw) => (Panicked v, bw)
  | (Some (inl a), err, bw) => (Returned (Some a) err, bw)
  | (None, err, bw) => (Returned None err, bw)
  end.
Definition BreakerInterceptor (handler : Inner) : Handler := λ r s,
  let intercepted := match kind with
    | Unary => Interceptor.UnaryServerInterceptor (tm_breaker tm) (tm_done tm)
    | Stream => Interceptor.StreamServerInterceptor (tm_breaker tm) (tm_done tm)
    end in
  let '(out, bw) := as_outcome (intercepted (as_operation (handler r)) (ch_breakers s, ch_world s)) in
  (out, upd_world bw s).

(** [grpc.ChainUnaryInterceptor] and [grpc.ChainStreamInterceptor] in [Start]. *)
Definition serve_call (handler : Inner) : Handler :=
  RecoveryInterceptor (LoggingInterceptor (MetricsInterceptor (RateLimitInterceptor
    (AuthenticationInterceptor (BreakerInterceptor handler))))).
End chain.

(** ** Lemmas *)

Lemma counted_inverse {K} `{Countable K} n k k' (m : gmap K Z) :
  default 0 (counted (- n) k (counted n k m) !! k') = default 0 (m !! k').
Proof.
  unfold counted. destruct (decide (k' = k)) as [->|Hne].
  - rewrite !lookup_insert_eq. simpl. lia.
  - by rewrite !lookup_insert_ne by done.
Qed.

Lemma panic_status rt k method traceID stack v :
  status_Err (ToGRPCStatus (panic_error rt k method traceID stack v)) =
  Some (ErrorStatus Internal (st_message (ToGRPCStatus (panic_error rt k method traceID stack v)))).
Proof. by destruct traceID. Qed.
Lemma panic_text_is_sent rt k method stack v :
  st_message (ToGRPCStatus (panic_error rt k method None stack v)) = panic_prefix k +:+ pv_text v.
Proof. reflexivity. Qed.

Section lemmas.
Context {R L CB W Q A : Type} `{RedisPipe R} `{LimiterLib L} `{BreakerLib CB} `{JwtLib} `{UuidLib} `{StatusLib}.
Context (request_string : Q → option string) (response_string : A → option string).
Context (config : RateLimiterConfig) (ai : AuthInterceptor).
Context (kind : CallKind) (method : string) (tm : Times) (traceID : option string) (stack : string) (req : option Q).
Abbreviation Srv := (@Server R L CB W).
Abbreviation Inner := (Incoming → CircuitBreakerManager CB * W → outcome A * (CircuitBreakerManager CB * W)).
Abbreviation guarded h := (RateLimitInterceptor (A:=A) config method tm
  (AuthenticationInterceptor ai method tm (BreakerInterceptor kind tm h))).
Abbreviation serve h := (serve_call request_string response_string config ai kind method tm traceID stack req h).

(** What the outer interceptors keep is theirs alone. *)
Definition same_records (s s' : Srv) : Prop :=
  ch_metrics s' = ch_metrics s ∧ ch_lines s' = ch_lines s ∧ ch_panics s' = ch_panics s.
Lemma guarded_records (h : Inner) r s : same_records s (guarded h r s).2.
Proof.
  unfold RateLimitInterceptor, AuthenticationInterceptor, BreakerInterceptor.
  destruct (limit _ _ _ _ _) as [[[e|]|e] x]; [by destruct s| |by destruct s].
  destruct (authenticate _ _ _ _) as [r'|e]; [|by destruct s].
  destruct (as_outcome _) as [out bw]. by destruct s.
Qed.

(** The metrics while the call runs. *)
Definition entered (s : Srv) : Srv :=
  match kind with
  | Unary => upd_metrics (observe_request (estimateMessageSize request_string req) method)
               (upd_metrics (count_inFlight 1 method) s)
  | Stream => upd_metrics (count_inFlight 1 method) s
  end.
Lemma entered_records s :
  ch_lines (entered s) = ch_lines s ∧ ch_panics (entered s) = ch_panics s ∧ ch_world (entered s) = ch_world s ∧
  ch_limiter (entered s) = ch_limiter s ∧ ch_breakers (entered s) = ch_breakers s ∧
  mt_requestsTotal (ch_metrics (entered s)) = mt_requestsTotal (ch_metrics s) ∧
  mt_requestsInFlight (ch_metrics (entered s)) = counted 1 method (mt_requestsInFlight (ch_metrics s)).
Proof.
  unfold entered, observe_request. destruct s as [? ? [] ? ? ?], kind; simpl; [|done].
  by destruct (0 <? _)%Z.
Qed.

(** Leaving the metrics interceptor, with an answer or with a panic. *)
Definition left_with (resp : option A) (err : option error) (s : Srv) : Srv :=
  let c := code_String (status_Code err) in
  let s := upd_metrics (observe_duration (tm_done tm - tm_start tm) (method, c))
             (upd_metrics (count_total (method, c)) s) in
  upd_metrics (count_inFlight (-1) method)
    match kind with
    | Unary => upd_metrics (observe_response (estimateMessageSize response_string resp) method) s
    | Stream => s
    end.
Lemma left_with_records resp err s :
  ch_lines (left_with resp err s) = ch_lines s ∧ ch_panics (left_with resp err s) = ch_panics s ∧
  mt_requestsTotal (ch_metrics (left_with resp err s)) =
    counted 1 (method, code_String (status_Code err)) (mt_requestsTotal (ch_metrics s)) ∧
  mt_requestsInFlight (ch_metrics (left_with resp err s)) = counted (-1) method (mt_requestsInFlight (ch_metrics s)).
Proof.
  unfold left_with, observe_response. destruct s as [? ? [] ? ? ?], kind; simpl; [|done].
  by destruct (0 <? _)%Z.
Qed.

Lemma serve_eq (h : Inner) r s :
  serve h r s =
  match guarded h r (entered s) with
  | (Panicked v, s') =>
      (Returned None (status_Err (ToGRPCStatus (panic_error (tm_panic tm) kind method traceID stack v))),
       add_panic method v (upd_metrics (count_inFlight (-1) method) s'))
  | (Returned resp err, s') =>
      (Returned resp err,
       add_line (request_line kind r method (tm_end tm - tm_start tm) err) (left_with resp err s'))
  end.
Proof.
  unfold serve_call, RecoveryInterceptor, LoggingInterceptor, MetricsInterceptor.
  assert (He : entered s = match kind with
    | Unary => upd_metrics (observe_request (estimateMessageSize request_string req) method)
                 (upd_metrics (count_inFlight 1 method) s)
    | Stream => upd_metrics (count_inFlight 1 method) s end) by done.
  cbv zeta. rewrite <- He. destruct (guarded h r (entered s)) as [[resp err|v] s']; [|done].
  unfold left_with. by destruct kind.
Qed.

(** C30: whatever its handler does, a call through the chain is answered and
    leaves the gauge of calls in flight as it found it.  Either the chain
    answers, and then exactly one line was logged and one request counted,
    both under the code of the answer; or the handler panicked with a value,
    and then the answer is the status Internal and the call appears neither
    among the logged lines nor in the count of requests, only among the
    recovered panics. *)
Theorem calls_are_answered_and_counted (h : Inner) r s :
  let out := serve h r s in
  ((∃ resp err, out.1 = Returned resp err ∧
      ch_lines out.2 = ch_lines s ++ [request_line kind r method (tm_end tm - tm_start tm) err] ∧
      mt_requestsTotal (ch_metrics out.2) =
        counted 1 (method, code_String (status_Code err)) (mt_requestsTotal (ch_metrics s)) ∧
      ch_panics out.2 = ch_panics s) ∨
   (∃ v, out.1 = Returned None (Some (ErrorStatus Internal
           (st_message (ToGRPCStatus (panic_error (tm_panic tm) kind method traceID stack v))))) ∧
      ch_lines out.2 = ch_lines s ∧
      mt_requestsTotal (ch_metrics out.2) = mt_requestsTotal (ch_metrics s) ∧
      ch_panics out.2 = ch_panics s ++ [(method, v)])) ∧
  (∀ m, default 0 (mt_requestsInFlight (ch_metrics out.2) !! m) = default 0 (mt_requestsInFlight (ch_metrics s) !! m)).
Proof.
  cbv zeta. rewrite serve_eq. destruct (entered_records s) as (El & Ep & _ & _ & _ & Et & Ef).
  pose proof (guarded_records h r (entered s)) as (Gm & Gl & Gp).
  destruct (guarded h r (entered s)) as [[resp err|v] s']; cbn [fst snd] in *.
  - destruct (left_with_records resp err s') as (Ll & Lp & Lt & Lf).
    assert (Ha : ∀ line, ch_metrics (add_line line (left_with resp err s')) = ch_metrics (left_with resp err s') ∧
      ch_lines (add_line line (left_with resp err s')) = ch_lines (left_with resp err s') ++ [line] ∧
      ch_panics (add_line line (left_with resp err s')) = ch_panics (left_with resp err s')).
    { intros line. by destruct (left_with resp err s'). }
    edestruct Ha as (Am & Al & Ap). split.
    + left. exists resp, err. rewrite Am, Al, Ap, Ll, Lp, Lt, Gl, Gp, Gm, El, Ep, Et. done.
    + intros m. rewrite Am, Lf, Gm, Ef. apply (counted_inverse 1).
  - split.
    + right. exists v. rewrite panic_status. rewrite <- El, <- Ep, <- Et, <- Gl, <- Gp, <- Gm. by destruct s' as [? ? [] ? ? ?].
    + intros m. rewrite <- (counted_inverse 1 method m (mt_requestsInFlight (ch_metrics s))), <- Ef, <- Gm.
      by destruct s' as [? ? [] ? ? ?].
Qed.
End lemmas.

Section access.
Context {R L CB W Q A : Type} `{RedisPipe R} `{LimiterLib L} `{BreakerLaws CB} `{JwtLib} `{UuidLib} `{StatusLib}.
Context (request_string : Q → option string) (response_string : A → option string).
Context (config : RateLimiterConfig) (ai : AuthInterceptor).
Context (kind : CallKind) (method : string) (tm : Times) (traceID : option string) (stack : string) (req : option Q).
Abbreviation Mgr := (CircuitBreakerManager CB).
Abbreviation Inner := (Incoming → Mgr * W → outcome A * (Mgr * W)).
Abbreviation serve h := (serve_call request_string response_string config ai kind method tm traceID stack req h).

(** The breaker refuses with a status of its own, or runs the handler once. *)
Lemma intercept_cases name m (w : W) :
  (∃ c msg bs, (c = Unavailable ∨ c = ResourceExhausted) ∧ ∀ h : Mgr * W → outcome A * (Mgr * W),
     as_outcome (Interceptor.intercept (tm_breaker tm) (tm_done tm) name (as_operation h) (m, w)) =
     (Returned None (Some (ErrorStatus c msg)), (bs, w))) ∨
  (∃ bs, ∀ h : Mgr * W → outcome A * (Mgr * W),
     let out := as_outcome (Interceptor.intercept (tm_breaker tm) (tm_done tm) name (as_operation h) (m, w)) in
     out.2.2 = (h (bs, w)).2.2 ∧ ∀ resp, (h (bs, w)).1 = Returned resp None → out.1 = Returned resp None).
Proof.
  unfold Interceptor.intercept, Interceptor.Execute. cbn [fst].
  destruct (cbm_breakers m !! name ≫= _) as [[i cb]|].
  - unfold breaker_Execute. destruct (cb_before (rt_now (tm_breaker tm)) cb) as [[g|e] cb'] eqn:Hb.
    + right. exists (at_heap i (λ _, cb') m). intros h. unfold as_operation.
      destruct (h _) as [[resp [err|]|v] [m' w']]; simpl; [|by destruct resp|done].
      split; [|intros; simplify_eq]. by destruct resp; repeat case_match; simplify_eq/=.
    + left. pose proof (reject_reason (rt_now (tm_breaker tm)) cb e) as He. rewrite Hb in He.
      destruct (is_sentinel gobreaker_ErrOpenState e) eqn:Eo.
      { eexists _, _, _. split; [by left|]. intros h. reflexivity. }
      destruct (is_sentinel gobreaker_ErrTooManyRequests e) eqn:Em.
      { eexists _, _, _. split; [by right|]. intros h. reflexivity. }
      destruct (He eq_refl); congruence.
  - right. exists m. intros h. unfold as_operation.
    destruct (h _) as [[resp [err|]|v] [m' w']]; simpl; [|by destruct resp|done].
    split; [|intros; simplify_eq]. by destruct resp; repeat case_match; simplify_eq/=.
Qed.

Lemma serve_world (h : Inner) r (s : @Server R L CB W) :
  ch_world (serve h r s).2 = ch_world (RateLimitInterceptor config method tm
    (AuthenticationInterceptor ai method tm (BreakerInterceptor kind tm h)) r (entered request_string kind method req s)).2.
Proof.
  rewrite serve_eq. destruct (RateLimitInterceptor _ _ _ _ _ _) as [[resp err|v] s']; [|by destruct s'].
  cbn [snd]. unfold left_with. by destruct s' as [? ? [] ? ? ?], kind.
Qed.
Lemma serve_answer (h : Inner) r (s : @Server R L CB W) resp err :
  (RateLimitInterceptor config method tm (AuthenticationInterceptor ai method tm (BreakerInterceptor kind tm h))
     r (entered request_string kind method req s)).1 = Returned resp err → (serve h r s).1 = Returned resp err.
Proof. rewrite serve_eq. destruct (RateLimitInterceptor _ _ _ _ _ _) as [[? ?|v] s']; [by intros [= -> ->]|done]. Qed.

Lemma refused_call (h : Inner) r (s s' : @Server R L CB W) e :
  RateLimitInterceptor config method tm (AuthenticationInterceptor ai method tm (BreakerInterceptor kind tm h))
    r (entered request_string kind method req s) = (Returned None (Some e), s') ∧ ch_world s' = ch_world s →
  (serve h r s).1 = Returned None (Some e) ∧ ch_world (serve h r s).2 = ch_world s.
Proof. intros [Hg Hw]. split; [apply serve_answer; by rewrite Hg | by rewrite serve_world, Hg]. Qed.
Lemma limit_cases r (rl : R * L) : ∃ x,
  limit config (tm_limit tm) r method rl = (Ok None, x) ∨
  limit config (tm_limit tm) r method rl = (Ok (Some (ErrorStatus ResourceExhausted "rate limit exceeded")), x).
Proof. unfold limit. repeat case_match; eauto. Qed.
Lemma authenticate_err now m r e : authenticate ai now m r = Err e → ∃ msg, e = ErrorStatus Unauthenticated msg.
Proof. unfold authenticate. intros He. repeat case_match; simplify_eq/=; eauto. Qed.
Definition breaker_name (k : CallKind) : string :=
  match k with Unary => "grpc-handler" | Stream => "grpc-stream-handler" end.

(** C11: a handler runs only behind its interceptors.  A call is either
    refused, whatever the handler is, with ResourceExhausted, Unauthenticated
    or Unavailable and the world untouched; or the limiter let it pass, the
    authentication interceptor handed on a request, and the handler ran exactly
    once on that request and on the world as it was: what it did to the world
    is the outcome, and an answer without error reaches the client unchanged. *)
Theorem handlers_run_behind_the_interceptors r (s : @Server R L CB W) :
  (∃ c msg, (c = ResourceExhausted ∨ c = Unauthenticated ∨ c = Unavailable) ∧
     ∀ h : Inner, (serve h r s).1 = Returned None (Some (ErrorStatus c msg)) ∧ ch_world (serve h r s).2 = ch_world s) ∨
  (∃ r' bs, (limit config (tm_limit tm) r method (ch_limiter s)).1 = Ok None ∧
     authenticate ai (tm_auth tm) method r = Ok r' ∧
     ∀ h : Inner, ch_world (serve h r s).2 = (h r' (bs, ch_world s)).2.2 ∧
       ∀ resp, (h r' (bs, ch_world s)).1 = Returned resp None → (serve h r s).1 = Returned resp None).
Proof.
  destruct (entered_records request_string kind method req s) as (_ & _ & Ew & El & Eb & _ & _).
  set (s0 := entered request_string kind method req s) in *.
  destruct (limit_cases r (ch_limiter s)) as [x [Hl|Hl]].
  2:{ left. exists ResourceExhausted, "rate limit exceeded". split; [auto|]. intros h.
      eapply refused_call. unfold RateLimitInterceptor. fold s0. rewrite El, Hl.
      split; [reflexivity|]. rewrite <- Ew. by destruct s0. }
  destruct (authenticate ai (tm_auth tm) method r) as [r'|e] eqn:Ha.
  2:{ left. destruct (authenticate_err _ _ _ _ Ha) as [msg ->]. exists Unauthenticated, msg. split; [auto|]. intros h.
      eapply refused_call. unfold RateLimitInterceptor, AuthenticationInterceptor. fold s0.
      rewrite El, Hl, Ha. split; [reflexivity|]. rewrite <- Ew. by destruct s0. }
  assert (Hg : ∀ h : Inner, RateLimitInterceptor config method tm
      (AuthenticationInterceptor ai method tm (BreakerInterceptor kind tm h)) r s0 =
      let '(out, bw) := as_outcome (Interceptor.intercept (tm_breaker tm) (tm_done tm) (breaker_name kind)
        (as_operation (h r')) (ch_breakers s, ch_world s)) in (out, upd_world bw (upd_limiter x s0))).
  { intros h. unfold RateLimitInterceptor, AuthenticationInterceptor, BreakerInterceptor.
    rewrite El, Hl, Ha, <- Ew, <- Eb. by destruct s0, kind. }
  destruct (intercept_cases (breaker_name kind) (ch_breakers s) (ch_world s)) as
    [(c & msg & bs & Hc & Hi)|(bs & Hi)].
  - left. exists c, msg. split; [naive_solver|]. intros h. eapply refused_call. fold s0. rewrite Hg, Hi.
    split; [reflexivity|]. by destruct s0.
  - right. exists r', bs. split; [by rewrite Hl|]. split; [done|]. intros h. specialize (Hi (h r')). specialize (Hg h).
    destruct (as_outcome _) as [out bw]. destruct Hi as [Hw Hr]. cbn [fst snd] in *. split.
    + rewrite serve_world. fold s0. rewrite Hg. cbn [snd]. rewrite <- Hw. by destruct s0.
    + intros resp Hh. eapply serve_answer. fold s0. rewrite Hg. by apply Hr.
Qed.
End access.

(** The line of a call names the user the client claims to be, not the one the
    token proves. *)
Lemma line_names_the_claimed_user `{StatusLib} k r md method duration err u rest :
  in_md r = Some md → md_Get md "user-id" = u :: rest →
  ("user_id", u) ∈ rl_fields (request_line k r method duration err).
Proof.
  intros Hm Hu. assert (Hf : ("user_id", u) ∈ extractRequestFields r method).
  { unfold extractRequestFields, md_field. rewrite Hm, Hu. rewrite !elem_of_app. right; right; right; right; left. by left. }
  assert (Hin : ∀ l, ("user_id", u) ∈ extractRequestFields r method ++ l) by (intros l; apply elem_of_app; by left).
  unfold request_line. destruct err as [e|]; [destruct (status_Code _)|]; apply Hin.
Qed.

(** ** Witness: the reference libraries, and a call without metadata *)

#[local] Existing Instances ref_uuid ref_jwt ref_pipe ref_limiter ref_breaker ref_breaker_laws.
#[local] Instance ref_status : StatusLib := {
  status_Code err := match err with None => OK | Some (ErrorStatus c _) => c | Some _ => Unknown end }.
Definition ref_times : Times := mkTimes 0 0 0 (mkRuntime 0 (λ _, None)) 5 6 (mkRuntime 5 (λ _, None)).
Definition ref_chain : @Server zstore unit ref_cb nat :=
  mkServer (∅, tt) (Interceptor.setupCircuitBreakers NewCircuitBreakerManager) NewMetricsInterceptor [] [] O.
Definition ref_caller : Incoming := mkIncoming None (Some "10.0.0.1:4711").
Definition ref_served (h : Incoming → CircuitBreakerManager ref_cb * nat → outcome unit * (CircuitBreakerManager ref_cb * nat)) :=
  serve_call (Q:=unit) (λ _, None) (λ _, None) server_limiter (NewAuthInterceptor "secret" "internal-service-key") Unary
    "/auth.AuthService/GetUser" ref_times None "stack" (Some tt) h ref_caller ref_chain.

Lemma handlers_run_behind_the_interceptors_witness :
  ∃ c msg, (c = ResourceExhausted ∨ c = Unauthenticated ∨ c = Unavailable) ∧
    ∀ h, (ref_served h).1 = Returned None (Some (ErrorStatus c msg)) ∧ ch_world (ref_served h).2 = O.
Proof.
  destruct (handlers_run_behind_the_interceptors (Q:=unit) (A:=unit) (λ _, None) (λ _, None) server_limiter
    (NewAuthInterceptor "secret" "internal-service-key") Unary "/auth.AuthService/GetUser" ref_times None "stack"
    (Some tt) ref_caller ref_chain) as [Hrefused|(r' & bs & _ & Ha & _)]; [exact Hrefused | discriminate Ha].
Defined.
