(* ===== verification/Config.v ===== *)
(** * Configuration (src/internal/config/config.go, and what
    src/internal/grpc/server.go makes of it)

    [Load] as a function of the environment, which answers the empty string for
    a variable that is not set; the interceptors and the options of the gRPC
    server a configuration gives; and what the built-in values let in. *)

From S2P Require Import Prelude Errors Models TokenService Breaker Interceptors.

#[local] Open Scope Z_scope.

Abbreviation Env := (string → string).

(** [strconv.ParseBool]. *)
Definition ParseBool (s : string) : option bool :=
  if existsb (String.eqb s) ["1"; "t"; "T"; "true"; "TRUE"; "True"] then Some true
  else if existsb (String.eqb s) ["0"; "f"; "F"; "false"; "FALSE"; "False"] then Some false
  else None.

Section load.
Context (env : Env).

Definition getEnv (key defaultValue : string) : string :=
  if String.eqb (env key) "" then defaultValue else env key.
Definition getEnvAsInt (key : string) (defaultValue : Z) : Z :=
  if String.eqb (env key) "" then defaultValue else default defaultValue (Atoi (env key)).
Definition getEnvAsBool (key : string) (defaultValue : bool) : bool :=
  if String.eqb (env key) "" then defaultValue else default defaultValue (ParseBool (env key)).
End load.

Record DatabaseConfig := mkDatabaseConfig {
  dc_Host : string; dc_Port : string; dc_User : string; dc_Password : string; dc_Name : string;
  dc_SSLMode : string }.
Record RedisConfig := mkRedisConfig { rc_Host : string; rc_Port : string; rc_Password : string; rc_DB : Z }.
Record ServerConfig := mkServerConfig { sc_Port : string; sc_GinMode : string; sc_AllowedOrigins : list string }.
Record GRPCConfig := mkGRPCConfig {
  gc_Port : string; gc_MaxConnectionIdle : Z; gc_MaxConnectionAge : Z; gc_MaxConnectionAgeGrace : Z;
  gc_Time : Z; gc_Timeout : Z; gc_MaxRecvMsgSize : Z; gc_MaxSendMsgSize : Z; gc_MaxConcurrentStreams : Z;
  gc_ConnectionTimeout : Z; gc_KeepaliveEnforcementMinTime : Z;
  gc_KeepaliveEnforcementPermitWithoutStream : bool }.
(** The whole record; the producer of EventProducer.v reads a part of it. *)
Record KafkaSettings := mkKafkaSettings {
  ks_Brokers : list string; ks_Topic : string; ks_RetryAttempts : Z; ks_RetryBackoffMs : Z;
  ks_BatchSize : Z; ks_BatchTimeoutMs : Z; ks_ConnectionPoolSize : Z; ks_LocalQueueSize : Z;
  ks_DeadLetterTopic : string; ks_EnableLocalPersistence : bool; ks_LocalStoragePath : string }.
Record ElasticsearchConfig := mkElasticsearchConfig {
  es_Addresses : list string; es_Username : string; es_Password : string; es_APIKey : string;
  es_IndexName : string; es_Enabled : bool }.
Record Config := mkConfig {
  cf_Database : DatabaseConfig; cf_Redis : RedisConfig; cf_JWT : JWTConfig; cf_Server : ServerConfig;
  cf_GRPC : GRPCConfig; cf_Kafka : KafkaSettings; cf_Elasticsearch : ElasticsearchConfig }.

Section configuration.
Context (env : Env).
Abbreviation str := (getEnv env).
Abbreviation int := (getEnvAsInt env).
Abbreviation flag := (getEnvAsBool env).

Definition load_Database : DatabaseConfig :=
  mkDatabaseConfig (str "DB_HOST" "localhost") (str "DB_PORT" "5432") (str "DB_USER" "postgres")
    (str "DB_PASSWORD" "postgres") (str "DB_NAME" "erp_auth") (str "DB_SSL_MODE" "disable").
Definition load_Redis : RedisConfig :=
  mkRedisConfig (str "REDIS_HOST" "localhost") (str "REDIS_PORT" "6379") (str "REDIS_PASSWORD" "")
    (int "REDIS_DB" 0).
Definition default_secret : string := "your-super-secret-jwt-key".
Definition load_JWT : JWTConfig :=
  mkJWTConfig (str "JWT_SECRET" default_secret) (int "JWT_ACCESS_EXPIRY" 3600)
    (int "JWT_REFRESH_EXPIRY" 604800) (flag "JWT_KEY_ROTATION_ENABLED" false)
    (int "JWT_KEY_ROTATION_INTERVAL" 24) (flag "JWT_REVOKE_REFRESH_ON_USE" false).
Definition load_Server : ServerConfig :=
  mkServerConfig (str "PORT" "8080") (str "GIN_MODE" "debug")
    (Split (str "ALLOWED_ORIGINS" "http://localhost:3000") ","%char).
Definition load_GRPC : GRPCConfig :=
  mkGRPCConfig (str "GRPC_PORT" "9090") (int "GRPC_MAX_CONNECTION_IDLE" 300)
    (int "GRPC_MAX_CONNECTION_AGE" 300) (int "GRPC_MAX_CONNECTION_AGE_GRACE" 5)
    (int "GRPC_KEEPALIVE_TIME" 30) (int "GRPC_KEEPALIVE_TIMEOUT" 5)
    (int "GRPC_MAX_RECV_MSG_SIZE" 4194304) (int "GRPC_MAX_SEND_MSG_SIZE" 4194304)
    (int "GRPC_MAX_CONCURRENT_STREAMS" 1000) (int "GRPC_CONNECTION_TIMEOUT" 5)
    (int "GRPC_KEEPALIVE_ENFORCEMENT_MIN_TIME" 5)
    (flag "GRPC_KEEPALIVE_ENFORCEMENT_PERMIT_WITHOUT_STREAM" false).
Definition load_Kafka : KafkaSettings :=
  mkKafkaSettings (Split (str "KAFKA_BROKERS" "localhost:9092") ","%char) (str "KAFKA_TOPIC" "auth-events")
    (int "KAFKA_RETRY_ATTEMPTS" 3) (int "KAFKA_RETRY_BACKOFF_MS" 1000) (int "KAFKA_BATCH_SIZE" 100)
    (int "KAFKA_BATCH_TIMEOUT_MS" 10) (int "KAFKA_CONNECTION_POOL_SIZE" 10)
    (int "KAFKA_LOCAL_QUEUE_SIZE" 10000) (str "KAFKA_DEAD_LETTER_TOPIC" "auth-events-dlq")
    (flag "KAFKA_ENABLE_LOCAL_PERSISTENCE" true) (str "KAFKA_LOCAL_STORAGE_PATH" "/tmp/kafka-events").
Definition load_Elasticsearch : ElasticsearchConfig :=
  mkElasticsearchConfig (Split (str "ELASTICSEARCH_ADDRESSES" "http://localhost:9200") ","%char)
    (str "ELASTICSEARCH_USERNAME" "") (str "ELASTICSEARCH_PASSWORD" "") (str "ELASTICSEARCH_API_KEY" "")
    (str "ELASTICSEARCH_INDEX_NAME" "user-activities") (flag "ELASTICSEARCH_ENABLED" true).
Definition Load : Config :=
  mkConfig load_Database load_Redis load_JWT load_Server load_GRPC load_Kafka load_Elasticsearch.
End configuration.

(** ** What the gRPC server takes from it *)

(** The options of [Start]: durations from seconds, and the number of streams
    as a [uint32]. *)
Record ServerOptions := mkServerOptions {
  so_MaxConnectionIdle : Z; so_MaxConnectionAge : Z; so_MaxConnectionAgeGrace : Z; so_Time : Z;
  so_Timeout : Z; so_MinTime : Z; so_PermitWithoutStream : bool; so_MaxRecvMsgSize : Z;
  so_MaxSendMsgSize : Z; so_MaxConcurrentStreams : Z }.
Definition seconds (n : Z) : Z := wrap64 (n * Second).
Definition uint32 (n : Z) : Z := n mod 2 ^ 32.
Definition server_options (c : GRPCConfig) : ServerOptions :=
  mkServerOptions (seconds (gc_MaxConnectionIdle c)) (seconds (gc_MaxConnectionAge c))
    (seconds (gc_MaxConnectionAgeGrace c)) (seconds (gc_Time c)) (seconds (gc_Timeout c))
    (seconds (gc_KeepaliveEnforcementMinTime c)) (gc_KeepaliveEnforcementPermitWithoutStream c)
    (gc_MaxRecvMsgSize c) (gc_MaxSendMsgSize c) (uint32 (gc_MaxConcurrentStreams c)).

(** [NewAuthGRPCServer]: which cache and which activity service it settles on,
    given how the attempts to make the first choice went. *)
Inductive CacheChoice := TwoLevelCache | SimpleFallback.
Inductive ActivityChoice := ElasticsearchActivities (publishes : bool) | PostgresActivities.
Definition choose_cache (NewCacheManager : option error) : CacheChoice :=
  match NewCacheManager with None => TwoLevelCache | Some _ => SimpleFallback end.
Definition choose_activities (config : Config) (NewClient : option error) : ActivityChoice :=
  if es_Enabled (cf_Elasticsearch config) then
    match NewClient with None => ElasticsearchActivities true | Some _ => PostgresActivities end
  else PostgresActivities.

(** [NewEnhancedAuthGRPCServer]: the parts it makes itself. *)
Record ServerParts (CB : Type) := mkServerParts {
  pa_auth : AuthInterceptor; pa_limiter : RateLimiterConfig; pa_breakers : CircuitBreakerManager CB }.
Arguments mkServerParts {CB}. Arguments pa_auth {CB}. Arguments pa_limiter {CB}. Arguments pa_breakers {CB}.
Definition NewEnhancedAuthGRPCServer {CB} `{BreakerLib CB} (config : Config) : ServerParts CB :=
  mkServerParts (NewAuthInterceptor (jc_Secret (cf_JWT config)) "internal-service-key") server_limiter
    (Interceptor.setupCircuitBreakers NewCircuitBreakerManager).

(** ** Lemmas *)

Lemma getEnv_unset env key d : env key = "" → getEnv env key d = d.
Proof. intros He. unfold getEnv. by rewrite He. Qed.
(** A malformed or out-of-range number is replaced by the default, silently. *)
Lemma getEnvAsInt_bounds env key d : min_int ≤ d ≤ max_int → min_int ≤ getEnvAsInt env key d ≤ max_int.
Proof.
  intros Hd. unfold getEnvAsInt. destruct (String.eqb _ _); [done|]. unfold Atoi.
  destruct (if HasPrefix _ _ then _ else _) as [i|]; [|done]. destruct (_ && _) eqn:E; [|done].
  apply andb_true_iff in E as [?%Z.leb_le ?%Z.leb_le]. simpl. lia.
Qed.
Lemma getEnvAsInt_malformed env key d : Atoi (env key) = None → getEnvAsInt env key d = d.
Proof. intros Ha. unfold getEnvAsInt. rewrite Ha. by destruct (String.eqb _ _). Qed.
(** A negative number of streams becomes a huge one. *)
Lemma negative_streams_are_unlimited c : gc_MaxConcurrentStreams c = -1 →
  so_MaxConcurrentStreams (server_options c) = 4294967295.
Proof. intros Hc. simpl. by rewrite Hc. Qed.

(** The built-in credentials open the service.  Whatever the environment,
    the gRPC server takes the service key of its source text for the service
    methods, and so does the HTTP middleware.  When JWT_SECRET is not set, a
    token anybody signs with the default of the source text passes both
    interceptors as whomever it names, for every method that is not public. *)
Theorem built_in_credentials_open_the_service `{JwtLaws} `{UuidLib} {CB} `{BreakerLib CB} env now m :
  let config := Load env in
  let ai := pa_auth (NewEnhancedAuthGRPCServer (CB:=CB) config) in
  (∀ r md rest, m ∈ ai_serviceKeyMethods ai → in_md r = Some md →
     md_Get md "x-service-key" = "internal-service-key" :: rest → authenticate ai now m r = Ok r) ∧
  (∀ g, GetHeader g "X-Service-Key" = "internal-service-key" → ServiceAuthMiddleware g = g) ∧
  (env "JWT_SECRET" = "" → ∀ c token, jwt_SignedString default_secret c = Ok token → time_valid now c = true →
     (m ∉ ai_publicMethods ai → ∀ peer, authenticate ai now m (with_bearer token peer) =
        Ok (addUserContext (claims_of c) (with_bearer token peer))) ∧
     (∀ g, GetHeader g "Authorization" = "Bearer " +:+ token →
        AuthMiddleware (jc_Secret (cf_JWT config)) now g = set_claims c g)).
Proof.
  cbv zeta. split; [|split].
  - intros r md rest Hm Hr Hk. unfold authenticate. destruct (in_methods (ai_publicMethods _) m); [done|].
    rewrite Hr, Hk. assert (in_methods (ai_serviceKeyMethods (pa_auth
      (NewEnhancedAuthGRPCServer (CB:=CB) (Load env)))) m = true) as ->; [|done].
    unfold in_methods. apply existsb_exists. exists m. split; [by apply list_elem_of_In | apply String.eqb_refl].
  - intros g Hg. unfold ServiceAuthMiddleware. by rewrite Hg.
  - intros He c token Hs Ht. assert (Hsec : jc_Secret (cf_JWT (Load env)) = default_secret) by by apply getEnv_unset.
    assert (Hp : jwt_ParseWithClaims now token (λ _ _, Ok default_secret) = Ok (c, true)).
    { by eapply jwt_Parse_signed. }
    split.
    + intros Hm peer. rewrite authenticate_bearer.
      * unfold validateJWT. simpl. change (getEnv env "JWT_SECRET" default_secret) with (jc_Secret (cf_JWT (Load env))).
        by rewrite Hsec, Hp.
      * apply not_true_is_false. intros (x & Hx & ->%String.eqb_eq)%existsb_exists. by apply Hm, list_elem_of_In.
    + intros g Hg. rewrite Hsec.
      destruct (AuthMiddleware_cases default_secret now g) as [(c' & (t' & Ht' & Hp') & ->)|[Hno _]].
      * rewrite Hg in Ht'. apply str_app_inj_l in Ht'. congruence.
      * destruct (Hno c). by exists token.
Qed.

(** ** Witness: an empty environment and a token signed with the default *)

#[local] Existing Instances ref_uuid ref_jwt ref_jwt_laws ref_breaker.
Definition ref_forged : TokenClaims :=
  mkTokenClaims 1 1 "admin@unibaseerp.com" "access" 1 "" "" "" "" "" None (Some (3600 * Second)) None "" [].
Definition ref_forged_token : string :=
  match jwt_SignedString default_secret ref_forged with Ok t => t | Err _ => "" end.
Lemma ref_forged_ok : jwt_SignedString default_secret ref_forged = Ok ref_forged_token.
Proof. vm_compute. reflexivity. Qed.
Lemma built_in_credentials_open_the_service_witness :
  authenticate (pa_auth (NewEnhancedAuthGRPCServer (CB:=ref_cb) (Load (λ _, "")))) Second
    "/auth.AuthService/DeleteUser" (with_bearer ref_forged_token None) =
  Ok (addUserContext (mkClaims 1 1 "admin@unibaseerp.com") (with_bearer ref_forged_token None)).
Proof.
  apply (proj1 (proj2 (proj2 (built_in_credentials_open_the_service (CB:=ref_cb) (λ _, "") Second
    "/auth.AuthService/DeleteUser")) eq_refl ref_forged ref_forged_token ref_forged_ok eq_refl)).
  vm_compute. intros Hin. repeat (apply elem_of_cons in Hin as [Hin|Hin]; [discriminate Hin|]).
  by apply elem_of_nil in Hin.
Defined.
