(* ===== verification/Lifecycle.v ===== *)
(** * The process (src/main.go, and the lifecycle of the gRPC server in
    src/internal/grpc/server.go)

    [main] with the goroutines of the two servers, and [Start], [Shutdown],
    [Wait] and the signal handler of the gRPC server, as an event semantics: an
    event is an action of one goroutine, of a client or of the operating
    system, and [pstep] says whether it is enabled and what it does.  What the
    libraries contribute is an outcome in the event: whether a server gets its
    port, when the HTTP server gives up, whether the graceful stop of the gRPC
    server or its thirty seconds end first.  [signal.Notify] delivers a signal
    to every channel registered for it, drops it at a full one, and takes away
    its default action. *)

From S2P Require Import Prelude Errors.

(** [main] after the initialisation: before [signal.Notify], at [<-sigChan],
    in [wg.Wait()], and returned, its deferred calls made. *)
Inductive MainStage := Launching | AwaitingSignal | Draining | Returned.
(** The goroutine of a server, and for HTTP whether [r.Run] is listening. *)
Inductive HttpStage := HttpStarting | HttpServing | HttpEnded.
Inductive GrpcStage := GrpcStarting | GrpcStarted | GrpcFailed.
(** The goroutine of [setupGracefulShutdown]. *)
Inductive SignalHandler := NotSetUp | Waiting | ShuttingDown | HandlerDone.
#[export] Instance MainStage_eq_dec : EqDecision MainStage.
Proof. solve_decision. Defined.
#[export] Instance HttpStage_eq_dec : EqDecision HttpStage.
Proof. solve_decision. Defined.

Record Process := mkProcess {
  pr_main : MainStage;
  pr_http : HttpStage;
  pr_grpc : GrpcStage;
  pr_handler : SignalHandler;
  pr_sigChan : bool;      (* a signal is in the channel of [main] *)
  pr_sigCh : bool;        (* and in the channel of the gRPC server *)
  pr_shutdownCh : bool;   (* [shutdownCh] is closed *)
  pr_accepting : bool;    (* the gRPC server accepts calls *)
  pr_calls : nat;         (* gRPC calls in flight *)
  pr_served : nat;        (* history: HTTP requests served *)
  pr_gone : bool }.       (* killed by a signal, or by a panic *)

(** ** Start-up *)

(** The initialisation up to the first goroutine: a database or a Redis that
    fails ends the process, a seeder that fails is a warning. *)
Inductive Startup := FatalExit (message : string) (err : error) | Launched (p : Process).
Definition launched : Process :=
  mkProcess Launching HttpStarting GrpcStarting NotSetUp false false false false 0 0 false.
Definition main_init (database seeding redis : option error) : Startup :=
  match database with
  | Some e => FatalExit "Failed to initialize database" e
  | None => match redis with
            | Some e => FatalExit "Failed to initialize Redis" e
            | None => Launched launched
            end
  end.

(** ** The gRPC server *)

(** [Start]: the listener, the serving goroutine and the signal handler. *)
Definition Start (listening : bool) (s : Process) : Process :=
  let '(mkProcess m h _ _ c1 c2 sd _ n k g) := s in
  if listening then mkProcess m h GrpcStarted Waiting c1 c2 sd true n k g
  else mkProcess m h GrpcFailed NotSetUp c1 c2 sd false n k g.
(** [Shutdown] up to its select: a second [close] panics, and so does the
    graceful stop of a server that was never made. *)
Definition Shutdown_begin (s : Process) : Process :=
  let '(mkProcess m h gr sh c1 c2 sd a n k g) := s in
  match sd, gr with
  | false, GrpcStarted => mkProcess m h gr sh c1 c2 true false n k g
  | _, _ => mkProcess m h gr sh c1 c2 true a n k true
  end.
(** Its select: all calls are done, or the time is over and they are cut. *)
Definition Shutdown_end (timeout : bool) (s : Process) : option Process :=
  let '(mkProcess m h gr sh c1 c2 sd a n k g) := s in
  if timeout then Some (mkProcess m h gr sh c1 c2 sd a 0 k g)
  else match n with O => Some s | S _ => None end.
(** [Wait] returns once the channel is closed and the serving goroutine gone. *)
Definition Wait_returns (s : Process) : bool := pr_shutdownCh s && negb (pr_accepting s).

Definition set_handler (sh : SignalHandler) (c2 : bool) (s : Process) : Process :=
  let '(mkProcess m h gr _ c1 _ sd a n k g) := s in mkProcess m h gr sh c1 c2 sd a n k g.
Definition set_main (m : MainStage) (c1 : bool) (s : Process) : Process :=
  let '(mkProcess _ h gr sh _ c2 sd a n k g) := s in mkProcess m h gr sh c1 c2 sd a n k g.
Definition set_http (h : HttpStage) (s : Process) : Process :=
  let '(mkProcess m _ gr sh c1 c2 sd a n k g) := s in mkProcess m h gr sh c1 c2 sd a n k g.

(** ** Events *)

Inductive event :=
| EvListen (ok : bool)        (* [r.Run] gets its port or not *)
| EvHttpFails                 (* [r.Run] returns *)
| EvStart (ok : bool)         (* the gRPC server is made and started *)
| EvNotify                    (* [main] registers its channel *)
| EvSignal                    (* SIGINT or SIGTERM *)
| EvReceive                   (* [main] takes the signal *)
| EvReturn                    (* [wg.Wait()] returns *)
| EvShutdown                  (* the handler takes the signal and begins *)
| EvShutdownDone (timeout : bool)
| EvCall | EvCallDone         (* a gRPC call *)
| EvRequest.                  (* an HTTP request *)

(** A signal reaches the channels registered; without any it kills. *)
Definition deliver (s : Process) : Process :=
  let '(mkProcess m h gr sh c1 c2 sd a n k g) := s in
  let main_listens := negb (bool_decide (m = Launching)) in
  let server_listens := match sh with NotSetUp => false | _ => true end in
  if main_listens || server_listens
  then mkProcess m h gr sh (c1 || main_listens) (c2 || server_listens) sd a n k g
  else mkProcess m h gr sh c1 c2 sd a n k true.
(** [wg.Wait()]: both goroutines are done. *)
Definition goroutines_done (s : Process) : bool :=
  bool_decide (pr_http s = HttpEnded) && match pr_grpc s with GrpcStarting => false | _ => true end.
Definition add_calls (f : nat → nat) (s : Process) : Process :=
  let '(mkProcess m h gr sh c1 c2 sd a n k g) := s in mkProcess m h gr sh c1 c2 sd a (f n) k g.
Definition count_request (s : Process) : Process :=
  let '(mkProcess m h gr sh c1 c2 sd a n k g) := s in mkProcess m h gr sh c1 c2 sd a n (S k) g.

Definition pstep (e : event) (s : Process) : option Process :=
  if pr_gone s || bool_decide (pr_main s = Returned) then None
  else match e with
  | EvListen ok => match pr_http s with
      | HttpStarting => Some (set_http (if ok then HttpServing else HttpEnded) s) | _ => None end
  | EvHttpFails => match pr_http s with HttpServing => Some (set_http HttpEnded s) | _ => None end
  | EvStart ok => match pr_grpc s with GrpcStarting => Some (Start ok s) | _ => None end
  | EvNotify => match pr_main s with Launching => Some (set_main AwaitingSignal (pr_sigChan s) s) | _ => None end
  | EvSignal => Some (deliver s)
  | EvReceive => match pr_main s, pr_sigChan s with
      | AwaitingSignal, true => Some (set_main Draining false s) | _, _ => None end
  | EvReturn => match pr_main s with
      | Draining => if goroutines_done s then Some (set_main Returned (pr_sigChan s) s) else None
      | _ => None end
  | EvShutdown => match pr_handler s, pr_sigCh s with
      | Waiting, true => Some (Shutdown_begin (set_handler ShuttingDown false s)) | _, _ => None end
  | EvShutdownDone timeout => match pr_handler s with
      | ShuttingDown => set_handler HandlerDone (pr_sigCh s) <$> Shutdown_end timeout s | _ => None end
  | EvCall => if pr_accepting s then Some (add_calls S s) else None
  | EvCallDone => match pr_calls s with O => None | S _ => Some (add_calls pred s) end
  | EvRequest => match pr_http s with HttpServing => Some (count_request s) | _ => None end
  end.
Fixpoint prun (es : list event) (s : Process) : option Process :=
  match es with [] => Some s | e :: es' => pstep e s ≫= prun es' end.

(** The HTTP server ends only when it gets no port or gives up. *)
Definition ends_http (e : event) : bool :=
  match e with EvListen false | EvHttpFails => true | _ => false end.

(** ** The invariant *)

(** The signal handler exists with the server it stops, and closes the channel
    once. *)
Record process_ok (s : Process) : Prop := {
  po_waiting : pr_handler s = Waiting → pr_grpc s = GrpcStarted ∧ pr_shutdownCh s = false;
  po_starting : pr_grpc s = GrpcStarting → pr_handler s = NotSetUp ∧ pr_shutdownCh s = false;
  po_calls : pr_handler s = HandlerDone → pr_accepting s = false;
  po_down : pr_handler s = ShuttingDown → pr_accepting s = false }.
Ltac split_process s := destruct s as [m h gr sh c1 c2 sd a n k g]; simpl in *.

Lemma launched_ok : process_ok launched.
Proof. by split. Qed.
Lemma process_step_ok e s s' : process_ok s → pstep e s = Some s' → process_ok s'.
Proof.
  intros [H1 H2 H3 H4] Hs. split_process s. unfold pstep in Hs; simpl in Hs.
  destruct (g || _); [done|].
  destruct e; simpl in Hs; unfold deliver, Shutdown_begin, Shutdown_end, set_handler in *; simpl in Hs;
    repeat case_match; simplify_eq/=; split; simpl in *; try done; naive_solver.
Qed.

(** Who is gone was killed by a signal nobody had registered for. *)
Lemma pstep_gone e s s' : process_ok s → pstep e s = Some s' → pr_gone s' = true →
  e = EvSignal ∧ pr_main s = Launching ∧ pr_handler s = NotSetUp.
Proof.
  intros [H1 H2 H3 H4] Hs Hg. split_process s. unfold pstep in Hs; simpl in Hs.
  destruct g; [done|]. destruct (bool_decide (m = Returned)); [done|].
  destruct e; simpl in Hs; unfold deliver, Shutdown_begin, Shutdown_end, set_handler in *; simpl in Hs;
    repeat case_match; simplify_eq/=; try done; try (destruct H1; done).
  all: match goal with H : _ || _ = false |- _ => apply orb_false_iff in H as [Hm Hx] end; try done.
  by apply negb_false_iff, bool_decide_eq_true in Hm.
Qed.

Lemma pstep_http e s s' : ends_http e = false → pr_http s ≠ HttpEnded → pr_main s ≠ Returned →
  pstep e s = Some s' → pr_http s' ≠ HttpEnded ∧ pr_main s' ≠ Returned.
Proof.
  intros He Hh Hm Hs. split_process s. unfold pstep in Hs; simpl in Hs. destruct (g || _); [done|].
  destruct e; simpl in *; unfold deliver, Shutdown_begin, Shutdown_end, set_handler, goroutines_done in *; simpl in *;
    repeat case_match; simplify_eq/=; try done.
  all: match goal with H : bool_decide _ && _ = true |- _ => apply andb_true_iff in H as [Hx%bool_decide_eq_true _] end;
    by destruct Hh.
Qed.
Lemma prun_ok es s s' : process_ok s → prun es s = Some s' → process_ok s'.
Proof.
  revert s. induction es as [|e es IH]; simpl; intros s Hok Hr; [by injection Hr as <-|].
  destruct (pstep e s) as [s1|] eqn:He; [|done]. by eapply IH, Hr; eapply process_step_ok.
Qed.
Lemma prun_http es s s' : Forall (λ e, ends_http e = false) es → pr_http s ≠ HttpEnded → pr_main s ≠ Returned →
  prun es s = Some s' → pr_http s' ≠ HttpEnded ∧ pr_main s' ≠ Returned.
Proof.
  intros Hes. revert s. induction Hes as [|e es He Hes IH]; simpl; intros s Hh Hm Hr; [by injection Hr as <-|].
  destruct (pstep e s) as [s1|] eqn:Hs; [|done].
  destruct (pstep_http e s s1 He Hh Hm Hs). by apply (IH s1).
Qed.

(** The gRPC server stops for a signal, cleanly and once. *)
Lemma signal_stops_grpc s : process_ok s → pr_gone s = false → pr_main s = AwaitingSignal → pr_handler s = Waiting →
  ∃ s', prun [EvSignal; EvReceive; EvShutdown; EvShutdownDone true] s = Some s' ∧ pr_main s' = Draining ∧
        Wait_returns s' = true ∧ pr_accepting s' = false ∧ pr_http s' = pr_http s ∧ pr_gone s' = false.
Proof.
  intros [H1 _ _ _] Hg Hm Hh. destruct (H1 Hh) as [Hgr Hsd]. split_process s. subst.
  eexists. split; [unfold pstep; simpl; rewrite !orb_true_r; simpl; reflexivity|]. done.
Qed.

(** C35: a termination signal does not terminate the process.  As long as the
    HTTP server neither fails to get its port nor gives up, [main] has not
    returned in any state the process reaches, whatever signals arrive, and
    HTTP requests are still served; and the signal stops the gRPC server alone:
    it is received by both, the gRPC server accepts no more calls, and [main]
    waits for an HTTP server nobody stops.  Its deferred calls, which close the
    Kafka producer and flush the logs, are not made. *)
Theorem signal_does_not_end_the_process es s :
  Forall (λ e, ends_http e = false) es → prun es launched = Some s →
  pr_main s ≠ Returned ∧
  (pr_http s = HttpServing → pr_gone s = false → is_Some (pstep EvRequest s)) ∧
  (pr_main s = AwaitingSignal → pr_handler s = Waiting → pr_gone s = false →
   ∃ s', prun [EvSignal; EvReceive; EvShutdown; EvShutdownDone true] s = Some s' ∧ pr_main s' = Draining ∧
     pr_accepting s' = false ∧ pr_http s' = pr_http s ∧ pr_gone s' = false).
Proof.
  intros Hes Hr. pose proof (prun_ok es _ _ launched_ok Hr) as Hok.
  destruct (prun_http es launched s Hes ltac:(done) ltac:(done) Hr) as [Hh Hm]. split_and!; [done|..].
  - intros Hs Hg. unfold pstep. rewrite Hg, bool_decide_eq_false_2 by done. simpl. rewrite Hs. by eexists.
  - intros Hw Hs Hg. destruct (signal_stops_grpc s Hok Hg Hw Hs) as (s' & ? & ? & _ & ? & ? & ?). by exists s'.
Qed.

(** Only a signal before both registrations ends it otherwise: [Shutdown] runs
    once, on a server that was made. *)
Theorem only_an_early_signal_kills es s : prun es launched = Some s → pr_gone s = true →
  ∃ es' s0, es = es' ++ [EvSignal] ∧ prun es' launched = Some s0 ∧ pr_main s0 = Launching ∧ pr_handler s0 = NotSetUp.
Proof.
  induction es as [|e es _] using rev_ind; [by intros [= <-]|].
  assert (Happ : ∀ es1 es2 t, prun (es1 ++ es2) t = prun es1 t ≫= prun es2).
  { induction es1 as [|x es1 IH]; simpl; intros es2 t; [done|]. destruct (pstep x t); simpl; auto. }
  rewrite Happ. destruct (prun es launched) as [s0|] eqn:H0; [|done]. simpl.
  destruct (pstep e s0) as [s1|] eqn:He; [|done]. intros [= <-] Hg.
  destruct (pstep_gone e s0 s1 (prun_ok es _ _ launched_ok H0) He Hg) as (-> & ? & ?). by exists es, s0.
Qed.
(** A second [Shutdown] of the same server panics. *)
Theorem second_shutdown_panics s : pr_gone (Shutdown_begin (Shutdown_begin s)) = true.
Proof. destruct s as [? ? [] ? ? ? [] ? ? ? ?]; reflexivity. Qed.

(** ** Witness: a service in operation, and two signals *)

Definition ref_operation : list event :=
  [EvListen true; EvStart true; EvNotify; EvCall; EvRequest; EvCallDone].
Definition ref_process : Process := default launched (prun ref_operation launched).
Definition ref_signalled : list event :=
  ref_operation ++ [EvSignal; EvReceive; EvShutdown; EvShutdownDone true; EvSignal].
Lemma ref_no_ending es : forallb (λ e, negb (ends_http e)) es = true → Forall (λ e, ends_http e = false) es.
Proof.
  intros Hf. apply Forall_forall. intros e He%list_elem_of_In. by apply negb_true_iff, (proj1 (forallb_forall _ _) Hf).
Qed.
Lemma signal_does_not_end_the_process_witness :
  (∃ s', prun [EvSignal; EvReceive; EvShutdown; EvShutdownDone true] ref_process = Some s' ∧
     pr_main s' = Draining ∧ pr_accepting s' = false ∧ pr_http s' = HttpServing ∧ pr_gone s' = false) ∧
  pr_main (default launched (prun ref_signalled launched)) ≠ Returned.
Proof.
  split.
  - exact (proj2 (proj2 (signal_does_not_end_the_process ref_operation ref_process (ref_no_ending ref_operation eq_refl)
      eq_refl)) eq_refl eq_refl eq_refl).
  - exact (proj1 (signal_does_not_end_the_process ref_signalled (default launched (prun ref_signalled launched))
      (ref_no_ending ref_signalled eq_refl) eq_refl)).
Defined.
