(* ===== verification/Migrations.v ===== *)
(** * Database migrations and connections
    (src/internal/database/migrations.go, database.go)

    The migration manager on the table of applied migrations.  What a
    statement does to the schema is the database's: the class [SchemaDB] runs
    it, and [SchemaLaws] keep a log of the statements that completed.  The text
    of the statements is that of the source; white space in the multi-line ones
    is normalised.  [now] is the clock reading of a run.  The connections of
    database.go are outcomes of the driver in the arguments: an error of
    [gorm.Open], [db.DB()] or [Ping], or none. *)

From S2P Require Import Prelude Errors Models Database.

#[local] Open Scope Z_scope.

Record Migration := mkMigration {
  mg_ID : N; mg_Version : string; mg_Description : string; mg_AppliedAt : Z; mg_Checksum : string }.

(** [AutoMigrate] on models, by name, or the text given to [Exec]. *)
Inductive Statement := AutoMigrate (models : list string) | Sql (text : string).
#[export] Instance Statement_eq_dec : EqDecision Statement.
Proof. solve_decision. Defined.

(** GORM on the schema and on the table of migrations. *)
Class SchemaDB (D : Type) := {
  db_Statement : Statement → M D unit;
  mig_First : string → M D Migration;              (** [Where(version).First] *)
  mig_Create : Migration → M D unit;
  mig_Delete : Migration → M D unit;
  mig_Find : M D (list Migration) }.               (** [Order(applied_at ASC).Find] *)

(** A statement that fails may have done a part of its work, but touches no
    row; one that succeeds is completed. *)
Class SchemaLaws (D : Type) `{SchemaDB D} := {
  mig_rows : D → list Migration;
  completed : D → list Statement;
  db_Statement_log s d : completed (db_Statement s d).2 =
    completed d ++ (if is_ok (db_Statement s d).1 then [s] else []);
  db_Statement_rows s d : mig_rows (db_Statement s d).2 = mig_rows d;
  mig_First_ok v d d' m : mig_First v d = (Ok m, d') → m ∈ mig_rows d ∧ mg_Version m = v;
  mig_First_none v d d' e : mig_First v d = (Err e, d') → is_sentinel gorm_ErrRecordNotFound e = true →
    ∀ m, m ∈ mig_rows d → mg_Version m ≠ v;
  mig_First_keeps v d : mig_rows (mig_First v d).2 = mig_rows d ∧ completed (mig_First v d).2 = completed d;
  mig_Create_ok m d d' : mig_Create m d = (Ok tt, d') → ∃ i, mig_rows d' = mig_rows d ++
    [mkMigration i (mg_Version m) (mg_Description m) (mg_AppliedAt m) (mg_Checksum m)];
  mig_Create_err m d d' e : mig_Create m d = (Err e, d') → mig_rows d' = mig_rows d;
  mig_Create_log m d : completed (mig_Create m d).2 = completed d;
  mig_Delete_ok m d d' : mig_Delete m d = (Ok tt, d') →
    mig_rows d' = List.filter (λ x, negb (mg_ID x =? mg_ID m)%N) (mig_rows d);
  mig_Delete_err m d d' e : mig_Delete m d = (Err e, d') → mig_rows d' = mig_rows d }.

(** ** The statements *)

Definition index_statements : list string :=
  ["CREATE INDEX CONCURRENTLY IF NOT EXISTS idx_users_email_active ON users(email) WHERE is_active = true";
   "CREATE INDEX CONCURRENTLY IF NOT EXISTS idx_users_org_active ON users(organization_id, is_active)";
   "CREATE INDEX CONCURRENTLY IF NOT EXISTS idx_user_roles_user_id ON user_roles(user_id) INCLUDE (role_id)";
   "CREATE INDEX CONCURRENTLY IF NOT EXISTS idx_permissions_resource_action ON permissions(resource, action)";
   "CREATE INDEX CONCURRENTLY IF NOT EXISTS idx_tokens_hash_active ON tokens(token_hash) WHERE revoked_at IS NULL";
   "CREATE INDEX CONCURRENTLY IF NOT EXISTS idx_tokens_user_type_active ON tokens(user_id, token_type) WHERE revoked_at IS NULL AND expires_at > NOW()";
   "CREATE INDEX CONCURRENTLY IF NOT EXISTS idx_users_last_login_recent ON users(last_login_at) WHERE last_login_at > NOW() - INTERVAL '30 days'";
   "CREATE INDEX CONCURRENTLY IF NOT EXISTS idx_roles_org_active ON roles(organization_id) WHERE is_active = true";
   "CREATE INDEX CONCURRENTLY IF NOT EXISTS idx_permissions_system ON permissions(is_system, resource, action)"].
Definition userPermissionsView : string :=
  "CREATE MATERIALIZED VIEW IF NOT EXISTS user_permissions_mv AS SELECT ur.user_id, p.id as permission_id, p.name as permission_name, p.resource, p.action, p.scope, r.organization_id FROM user_roles ur JOIN roles r ON ur.role_id = r.id JOIN role_permissions rp ON r.id = rp.role_id JOIN permissions p ON rp.permission_id = p.id WHERE r.is_active = true AND p.is_system = false;".
Definition userPermissionsIndex : string :=
  "CREATE UNIQUE INDEX IF NOT EXISTS idx_user_permissions_mv_unique ON user_permissions_mv(user_id, permission_id);".
Definition orgStatsView : string :=
  "CREATE MATERIALIZED VIEW IF NOT EXISTS organization_stats_mv AS SELECT o.id as organization_id, o.name as organization_name, o.domain, COUNT(DISTINCT u.id) as user_count, COUNT(DISTINCT r.id) as role_count, COUNT(DISTINCT CASE WHEN u.last_login_at > NOW() - INTERVAL '30 days' THEN u.id END) as active_users_30d, MAX(u.last_login_at) as last_user_login FROM organizations o LEFT JOIN users u ON o.id = u.organization_id AND u.is_active = true LEFT JOIN roles r ON o.id = r.organization_id AND r.is_active = true WHERE o.is_active = true GROUP BY o.id, o.name, o.domain;".
Definition orgStatsIndex : string :=
  "CREATE UNIQUE INDEX IF NOT EXISTS idx_organization_stats_mv_org_id ON organization_stats_mv(organization_id);".
Definition refresh_statements : list string :=
  ["REFRESH MATERIALIZED VIEW CONCURRENTLY user_permissions_mv";
   "REFRESH MATERIALIZED VIEW CONCURRENTLY organization_stats_mv"].

Section migrations.
Context {D : Type} `{SchemaDB D}.

Record MigrationFunc := mkMigrationFunc { mf_Version : string; mf_Description : string; mf_Up : M D unit }.

Definition exec (text : string) : M D unit := db_Statement (Sql text).
Definition or_fail (msg : string) (m : M D unit) : M D unit := wrap_err (ErrorWrap msg) m.
(** An error is logged and the loop goes on. *)
Definition exec_all (texts : list string) : M D unit :=
  for_each (λ text, let* _ := attempt (exec text) in ret tt) texts.

Definition InitializeMigrationTable : M D unit := db_Statement (AutoMigrate ["Migration"]).
Definition migration001InitialSchema : M D unit := db_Statement (AutoMigrate
  ["Organization"; "User"; "Role"; "Permission"; "UserRole"; "RolePermission"]).
Definition migration002AddTokenTable : M D unit := db_Statement (AutoMigrate ["Token"]).
Definition migration003AddPerformanceIndexes : M D unit := exec_all index_statements.
Definition migration004AddUserActivityTable : M D unit := db_Statement (AutoMigrate ["UserActivity"]).
Definition migration005CreateMaterializedViews : M D unit :=
  or_fail "failed to create user_permissions_mv" (exec userPermissionsView) ;;;
  or_fail "failed to create index on user_permissions_mv" (exec userPermissionsIndex) ;;;
  or_fail "failed to create organization_stats_mv" (exec orgStatsView) ;;;
  or_fail "failed to create index on organization_stats_mv" (exec orgStatsIndex).

Definition migrations : list MigrationFunc :=
  [mkMigrationFunc "001_initial_schema" "Create initial database schema with optimized indexes"
     migration001InitialSchema;
   mkMigrationFunc "002_add_token_table" "Add token table for JWT management" migration002AddTokenTable;
   mkMigrationFunc "003_add_performance_indexes" "Add performance-optimized indexes"
     migration003AddPerformanceIndexes;
   mkMigrationFunc "004_add_user_activity_table" "Add user activity table for audit logging"
     migration004AddUserActivityTable;
   mkMigrationFunc "005_create_materialized_views" "Create materialized views for complex queries"
     migration005CreateMaterializedViews].

Definition runMigration (now : Z) (m : MigrationFunc) : M D unit :=
  let* existing := attempt (mig_First (mf_Version m)) in
  match existing with
  | Ok _ => ret tt
  | Err err =>
      if is_sentinel gorm_ErrRecordNotFound err then
        or_fail "migration failed" (mf_Up m) ;;;
        or_fail "failed to record migration"
          (mig_Create (mkMigration 0 (mf_Version m) (mf_Description m) now "placeholder"))
      else fail (ErrorWrap "failed to check migration status" err)
  end.
Definition run_all (now : Z) (l : list MigrationFunc) : M D unit :=
  for_each (λ m, or_fail ("failed to run migration " +:+ mf_Version m) (runMigration now m)) l.
Definition RunMigrations (now : Z) : M D unit :=
  or_fail "failed to initialize migration table" InitializeMigrationTable ;;; run_all now migrations.

Definition RefreshMaterializedViews : M D unit := exec_all refresh_statements.
Definition RollbackMigration (version : string) : M D unit :=
  let* migration := wrap_err (ErrorWrap ("migration " +:+ version +:+ " not found")) (mig_First version) in
  or_fail "failed to delete migration record" (mig_Delete migration).
Definition GetAppliedMigrations : M D (list Migration) := mig_Find.
End migrations.

(** ** Connections *)

Record ConnectionConfig := mkConnectionConfig {
  cc_Host : string; cc_Port : string; cc_User : string; cc_Password : string; cc_Name : string;
  cc_SSLMode : string }.
Definition dsn (c : ConnectionConfig) : string :=
  "host=" +:+ cc_Host c +:+ " port=" +:+ cc_Port c +:+ " user=" +:+ cc_User c +:+ " password=" +:+ cc_Password c +:+
  " dbname=" +:+ cc_Name c +:+ " sslmode=" +:+ cc_SSLMode c.
(** A connection: what [gorm.Open], [db.DB()] and [Ping] or [Close] answer. *)
Record Connection := mkConnection { cn_Open : option error; cn_DB : option error; cn_Ping : option error;
  cn_Close : option error }.
Definition check (err : option error) (msg : string) : res error unit :=
  match err with None => Ok tt | Some e => Err (ErrorWrap msg e) end.
Definition and_then (a b : res error unit) : res error unit := match a with Ok _ => b | Err e => Err e end.
Definition initializeConnection (connectionType : string) (c : Connection) : res error unit :=
  check (cn_Open c) ("failed to connect to " +:+ connectionType +:+ " database").
Definition configureConnectionPool (c : Connection) : res error unit :=
  and_then (check (cn_DB c) "failed to get underlying sql.DB") (check (cn_Ping c) "failed to ping database").
Definition wrapped (msg : string) (r : res error unit) : res error unit := res_map_err (ErrorWrap msg) r.
Definition Initialize {D} `{SchemaDB D} (now : Z) (write read : Connection) : M D unit :=
  lift_res (wrapped "failed to initialize write database" (initializeConnection "write" write)) ;;;
  lift_res (wrapped "failed to initialize read database" (initializeConnection "read" read)) ;;;
  lift_res (wrapped "failed to configure write database pool" (configureConnectionPool write)) ;;;
  lift_res (wrapped "failed to configure read database pool" (configureConnectionPool read)) ;;;
  or_fail "failed to run migrations" (RunMigrations now).
(** [Close] goes on after an error; a connection that is nil, or whose
    [sql.DB] is not there, is passed over. *)
Definition close_error (name : string) (c : option Connection) : list error :=
  match c with
  | Some c => match cn_DB c, cn_Close c with
              | None, Some e => [ErrorWrap ("failed to close " +:+ name +:+ " database") e]
              | _, _ => []
              end
  | None => []
  end.
Definition Close (write read : option Connection) : list error := close_error "write" write ++ close_error "read" read.
Definition HealthCheck (write read : Connection) : res error unit :=
  let health name c := and_then (check (cn_DB c) ("failed to get " +:+ name +:+ " database connection"))
                                (check (cn_Ping c) (name +:+ " database health check failed")) in
  and_then (health "write" write) (health "read" read).

(** ** Lemmas *)

Definition all_versions : list string :=
  ["001_initial_schema"; "002_add_token_table"; "003_add_performance_indexes"; "004_add_user_activity_table";
   "005_create_materialized_views"].
(** The statements of the migration of each version. *)
Definition statements_of (v : string) : list Statement :=
  if String.eqb v "001_initial_schema"
  then [AutoMigrate ["Organization"; "User"; "Role"; "Permission"; "UserRole"; "RolePermission"]]
  else if String.eqb v "002_add_token_table" then [AutoMigrate ["Token"]]
  else if String.eqb v "003_add_performance_indexes" then Sql <$> index_statements
  else if String.eqb v "004_add_user_activity_table" then [AutoMigrate ["UserActivity"]]
  else Sql <$> [userPermissionsView; userPermissionsIndex; orgStatsView; orgStatsIndex].

Section lemmas.
Context {D : Type} `{SL : SchemaLaws D}.

Definition versions (d : D) : list string := mg_Version <$> mig_rows d.
(** [m] completes only statements of [l], and changes no row. *)
Definition only_statements (l : list Statement) (m : M D unit) : Prop := ∀ d,
  mig_rows (m d).2 = mig_rows d ∧ ∃ log, completed (m d).2 = completed d ++ log ∧ Forall (λ s, s ∈ l) log.

Lemma only_Statement s l : s ∈ l → only_statements l (db_Statement s).
Proof.
  intros Hs d. split; [apply db_Statement_rows|]. exists (if is_ok (db_Statement s d).1 then [s] else []).
  split; [apply db_Statement_log|]. destruct (is_ok _); [by apply Forall_singleton | apply Forall_nil_2].
Qed.
Lemma only_ret l : only_statements l (ret tt).
Proof. intros d. split; [done|]. exists []. by rewrite app_nil_r. Qed.
Lemma only_bind l (m k : M D unit) : only_statements l m → only_statements l k → only_statements l (m ;;; k).
Proof.
  intros Hm Hk d. destruct (Hm d) as (Hr & log & Hl & Hin). unfold bind. destruct (m d) as [[[]|e] d1]; simpl in *.
  - destruct (Hk d1) as (Hr' & log' & Hl' & Hin'). rewrite Hr', Hr, Hl', Hl. split; [done|].
    exists (log ++ log'). rewrite <- app_assoc. split; [done|]. by apply Forall_app.
  - split; [done|]. by exists log.
Qed.
Lemma only_or_fail l msg m : only_statements l m → only_statements l (or_fail msg m).
Proof. intros Hm d. specialize (Hm d). unfold or_fail, wrap_err. by destruct (m d) as [[[]|e] d1]. Qed.
Lemma only_ignored l m : only_statements l m → only_statements l (let* _ := attempt (F:=error) m in ret tt).
Proof. intros Hm d. specialize (Hm d). unfold bind, attempt. by destruct (m d) as [[[]|e] d1]. Qed.
Lemma only_exec_all texts : only_statements (Sql <$> texts) (exec_all texts).
Proof.
  assert (Hsub : ∀ l, (∀ t, t ∈ l → t ∈ texts) → only_statements (Sql <$> texts) (exec_all l)); [|by apply Hsub].
  induction l as [|t l IH]; intros Hin; unfold exec_all; simpl; [apply only_ret|].
  apply (only_bind _ (let* _ := attempt (exec t) in ret tt)).
  - apply only_ignored, only_Statement, list_elem_of_fmap. exists t. split; [done|]. apply Hin. by left.
  - apply IH. intros t' Ht'. apply Hin. by right.
Qed.
Lemma only_Up m : m ∈ migrations → only_statements (statements_of (mf_Version m)) (mf_Up m).
Proof.
  intros Hm. repeat (apply elem_of_cons in Hm as [->|Hm]); [..|by apply elem_of_nil in Hm]; simpl mf_Up; simpl mf_Version;
    unfold statements_of; simpl.
  - apply only_Statement. by left.
  - apply only_Statement. by left.
  - apply only_exec_all.
  - apply only_Statement. by left.
  - unfold migration005CreateMaterializedViews.
    repeat apply only_bind; apply only_or_fail, only_Statement; simpl; set_solver.
Qed.
Lemma Init_only : only_statements [AutoMigrate ["Migration"]] (or_fail "failed to initialize migration table" InitializeMigrationTable).
Proof. apply only_or_fail, only_Statement. by left. Qed.

(** A migration that was applied is skipped. *)
Lemma runMigration_skips now m d : mf_Version m ∈ versions d →
  versions (runMigration now m d).2 = versions d ∧ completed (runMigration now m d).2 = completed d.
Proof.
  intros Hv. unfold runMigration, bind, attempt.
  destruct (mig_First (mf_Version m) d) as [[x|e] d1] eqn:Hf;
    destruct (mig_First_keeps (mf_Version m) d) as [Hr Hl]; rewrite Hf in Hr, Hl; simpl in *.
  - unfold versions; simpl. by rewrite Hr, Hl.
  - destruct (is_sentinel gorm_ErrRecordNotFound e) eqn:He; [|unfold versions; simpl; by rewrite Hr, Hl].
    apply list_elem_of_fmap in Hv as (x & Hx & Hin). by destruct (mig_First_none _ _ _ _ Hf He x Hin).
Qed.
(** One that was not runs, and is recorded when all of it succeeds. *)
Lemma runMigration_runs now m d : m ∈ migrations → mf_Version m ∉ versions d →
  let '(r, d') := runMigration now m d in
  versions d' = versions d ++ (match r with Ok _ => [mf_Version m] | Err _ => [] end) ∧
  ∃ log, completed d' = completed d ++ log ∧ Forall (λ s, s ∈ statements_of (mf_Version m)) log.
Proof.
  intros Hm Hv. unfold runMigration, bind, attempt.
  destruct (mig_First (mf_Version m) d) as [[x|e] d1] eqn:Hf;
    destruct (mig_First_keeps (mf_Version m) d) as [Hr Hl]; rewrite Hf in Hr, Hl; simpl in *.
  { destruct Hv. apply mig_First_ok in Hf as [Hin Hx]. apply list_elem_of_fmap. by exists x. }
  assert (Hnone : ∀ d', mig_rows d' = mig_rows d → versions d' = versions d ++ []).
  { intros d' Hd. unfold versions. by rewrite Hd, app_nil_r. }
  destruct (is_sentinel gorm_ErrRecordNotFound e); [|split; [by apply Hnone|exists []; by rewrite app_nil_r]].
  destruct (only_or_fail _ "migration failed" _ (only_Up m Hm) d1) as (Hr1 & log & Hl1 & Hin).
  unfold bind. destruct (or_fail "migration failed" (mf_Up m) d1) as [[[]|e1] d2]; simpl in *.
  2:{ split; [apply Hnone; congruence|]. exists log. by rewrite Hl1, Hl. }
  unfold or_fail, wrap_err. destruct (mig_Create _ d2) as [[[]|e2] d3] eqn:Hc; simpl.
  - pose proof (mig_Create_log (mkMigration 0 (mf_Version m) (mf_Description m) now "placeholder") d2) as Hlog.
    rewrite Hc in Hlog. simpl in Hlog. apply mig_Create_ok in Hc as [i Hc]. unfold versions. rewrite Hc, Hr1, Hr, fmap_app.
    split; [done|]. exists log. by rewrite Hlog, Hl1, Hl.
  - pose proof (mig_Create_log (mkMigration 0 (mf_Version m) (mf_Description m) now "placeholder") d2) as Hlog.
    rewrite Hc in Hlog. simpl in Hlog. apply mig_Create_err in Hc. split; [apply Hnone; congruence|].
    exists log. by rewrite Hlog, Hl1, Hl.
Qed.

(** A statement of a migration that is still to be applied after [k]. *)
Definition pending (k : nat) (s : Statement) : Prop := ∃ v, v ∈ drop k all_versions ∧ s ∈ statements_of v.
Lemma pending_mono k k' s : (k <= k')%nat → pending k' s → pending k s.
Proof.
  intros Hk (v & Hv & Hs). exists v. split; [|done]. apply list_elem_of_lookup in Hv as [i Hi]. rewrite lookup_drop in Hi.
  apply list_elem_of_lookup. exists (k' - k + i)%nat. rewrite lookup_drop. by replace (k + (k' - k + i))%nat with (k' + i)%nat by lia.
Qed.
Lemma migration_at i m : migrations (D:=D) !! i = Some m → m ∈ migrations (D:=D) ∧ all_versions !! i = Some (mf_Version m).
Proof. intros Hi. split; [by eapply list_elem_of_lookup_2|]. do 5 (destruct i as [|i]; [by injection Hi as <-|]). done. Qed.
Lemma version_applied i k v : all_versions !! i = Some v → v ∈ take k all_versions ↔ (i < k)%nat.
Proof.
  intros Hi. split.
  - intros Hv. apply list_elem_of_lookup in Hv as [j Hj]. apply lookup_take_Some in Hj as [Hj Hjk].
    assert (i = j); [|lia]. eapply (NoDup_lookup all_versions); [|done..].
    apply (bool_decide_unpack _). by vm_compute.
  - intros Hik. apply list_elem_of_lookup. exists i. by apply lookup_take_Some.
Qed.

Lemma run_all_prefix now l : ∀ i k d, l = drop i migrations → (i <= k <= 5)%nat → versions d = take k all_versions →
  let '(r, d') := run_all now l d in
  ∃ k', (k <= k' <= 5)%nat ∧ versions d' = take k' all_versions ∧ (r = Ok tt → k' = 5%nat) ∧
    ∃ log, completed d' = completed d ++ log ∧ Forall (pending k) log.
Proof.
  induction l as [|m l IH]; intros i k d Hl Hi Hv.
  { exists k. split; [lia|]. split; [done|]. split; [|exists []; by rewrite app_nil_r].
    intros _. apply (f_equal length) in Hl. rewrite length_drop in Hl. simpl in Hl. lia. }
  assert (Hm : migrations !! i = Some m) by (apply (f_equal (.!! 0%nat)) in Hl; rewrite lookup_drop, Nat.add_0_r in Hl; by rewrite <- Hl).
  assert (Hl' : l = drop (S i) migrations) by (apply (f_equal (drop 1)) in Hl; rewrite drop_drop in Hl; simpl in Hl;
    rewrite drop_0 in Hl; by replace (i + 1)%nat with (S i) in Hl by lia).
  destruct (migration_at i m Hm) as [Hin Hver]. assert (Hi5 : (i < 5)%nat) by (by apply lookup_lt_Some in Hver).
  unfold run_all. cbn [for_each]. fold (run_all now l). unfold bind, or_fail at 1, wrap_err.
  destruct (decide (i < k)%nat) as [Hik|Hik].
  - assert (Happ : mf_Version m ∈ versions d) by (rewrite Hv; by apply (version_applied i)).
    destruct (runMigration_skips now m d Happ) as [Hv1 Hl1]. destruct (runMigration now m d) as [[[]|e] d1]; simpl in *.
    + specialize (IH (S i) k d1 Hl' ltac:(lia) ltac:(congruence)). destruct (run_all now l d1) as [r d'].
      destruct IH as (k' & ? & ? & ? & log & ? & ?). exists k'. split_and!; [lia..|done|done|]. exists log. by rewrite <- Hl1.
    + exists k. split; [lia|]. split; [congruence|]. split; [done|]. exists []. by rewrite app_nil_r.
  - assert (i = k) as -> by lia. assert (Hno : mf_Version m ∉ versions d).
    { rewrite Hv. intros Hx. apply (version_applied k) in Hx; [lia|done]. }
    pose proof (runMigration_runs now m d Hin Hno) as Hr. destruct (runMigration now m d) as [[[]|e] d1]; simpl in *;
      destruct Hr as (Hv1 & log1 & Hl1 & Hs1);
      assert (Hp : Forall (pending k) log1) by (eapply Forall_impl; [exact Hs1|]; intros x Hx; exists (mf_Version m);
        split; [|done]; apply list_elem_of_lookup; exists 0%nat; rewrite lookup_drop; by rewrite Nat.add_0_r).
    + specialize (IH (S k) (S k) d1 Hl' ltac:(lia)). rewrite Hv in Hv1. rewrite <- (take_S_r _ _ _ Hver) in Hv1.
      specialize (IH Hv1). destruct (run_all now l d1) as [r d'].
      destruct IH as (k' & ? & ? & ? & log & Hlog & Hf). exists k'. split_and!; [lia..|done|done|].
      exists (log1 ++ log). rewrite Hlog, Hl1, <- app_assoc. split; [done|]. apply Forall_app. split; [done|].
      eapply Forall_impl; [exact Hf|]. intros x. apply pending_mono. lia.
    + exists k. split; [lia|]. rewrite Hv1, app_nil_r. split; [done|]. split; [done|]. by exists log1.
Qed.

(** Nothing is migrated over connections that do not answer. *)
Lemma Initialize_connected now write read d :
  completed (Initialize now write read d).2 ≠ completed d → configureConnectionPool write = Ok tt ∧
  configureConnectionPool read = Ok tt ∧ cn_Open write = None ∧ cn_Open read = None.
Proof.
  unfold Initialize, bind, lift_res, wrapped, initializeConnection.
  destruct (cn_Open write); [done|]. destruct (cn_Open read); [done|]. simpl.
  destruct (configureConnectionPool write) as [[]|]; [|done]. by destruct (configureConnectionPool read) as [[]|].
Qed.

End lemmas.

(** ** The view of the permissions of users

    What [userPermissionsView] selects from the tables, and the key its unique
    index is on. *)
Record PermissionRow := mkPermissionRow {
  pv_user_id : N; pv_permission_id : N; pv_permission_name : string; pv_resource : string;
  pv_action : string; pv_scope : string; pv_organization_id : N }.
Definition user_permissions_mv (T : Tables) : list PermissionRow :=
  ur ← tb_user_roles T;
  r ← List.filter (λ r, (ur_RoleID ur =? r_ID r)%N && r_IsActive r) (tb_roles T);
  rp ← List.filter (λ rp, (r_ID r =? rp_RoleID rp)%N) (tb_role_permissions T);
  p ← List.filter (λ p, (rp_PermissionID rp =? p_ID p)%N && negb (p_IsSystem p)) (tb_permissions T);
  [mkPermissionRow (ur_UserID ur) (p_ID p) (p_Name p) (p_Resource p) (p_Action p) (p_Scope p) (r_OrganizationID r)].
Definition index_key (x : PermissionRow) : N * N := (pv_user_id x, pv_permission_id x).

(** The index cannot be unique when two roles of a user grant one permission:
    the view has a row for each. *)
Lemma filter_in {A} (P : A → bool) (l : list A) a : a ∈ l → P a = true → a ∈ List.filter P l.
Proof. intros Hin HP. apply list_elem_of_In, filter_In. split; [by apply list_elem_of_In | done]. Qed.
Lemma bind_duplicates {A B K} (f : A → list B) (key : B → K) (l : list A) a a' k :
  a ∈ l → a' ∈ l → a ≠ a' → k ∈ key <$> f a → k ∈ key <$> f a' → ¬ NoDup (key <$> (l ≫= f)).
Proof.
  induction l as [|x l IH]; intros Ha Ha' Hne Hk Hk' Hnd; [by apply elem_of_nil in Ha|].
  rewrite bind_cons, fmap_app in Hnd. apply NoDup_app in Hnd as (_ & Hdis & Hnd).
  assert (Hlater : ∀ b, b ∈ l → k ∈ key <$> f b → k ∈ key <$> (l ≫= f)).
  { intros b Hb (y & -> & Hy)%list_elem_of_fmap. apply list_elem_of_fmap. exists y. split; [done|].
    apply list_elem_of_bind. by exists b. }
  apply elem_of_cons in Ha as [->|Ha]; apply elem_of_cons in Ha' as [->|Ha']; [done|..|by apply IH].
  - by apply (Hdis k), (Hlater a').
  - by apply (Hdis k), (Hlater a).
Qed.
Theorem two_roles_break_the_unique_index T ur ur' r r' rp rp' p :
  ur ∈ tb_user_roles T → ur' ∈ tb_user_roles T → ur ≠ ur' → ur_UserID ur = ur_UserID ur' →
  r ∈ tb_roles T → r' ∈ tb_roles T → ur_RoleID ur = r_ID r → ur_RoleID ur' = r_ID r' →
  r_IsActive r = true → r_IsActive r' = true →
  rp ∈ tb_role_permissions T → rp' ∈ tb_role_permissions T → rp_RoleID rp = r_ID r → rp_RoleID rp' = r_ID r' →
  p ∈ tb_permissions T → rp_PermissionID rp = p_ID p → rp_PermissionID rp' = p_ID p → p_IsSystem p = false →
  ¬ NoDup (index_key <$> user_permissions_mv T).
Proof.
  intros Hur Hur' Hne Hu Hr Hr' Er Er' Ha Ha' Hrp Hrp' Ep Ep' Hp Eq Eq' Hs.
  eapply (bind_duplicates _ index_key _ ur ur' (ur_UserID ur, p_ID p)); [done..| |].
  - apply list_elem_of_fmap. eexists (mkPermissionRow (ur_UserID ur) (p_ID p) _ _ _ _ (r_OrganizationID r)).
    split; [reflexivity|]. apply list_elem_of_bind. exists r. split.
    2:{ apply filter_in; [done|]. by rewrite Er, N.eqb_refl, Ha. }
    apply list_elem_of_bind. exists rp. split; [|apply filter_in; [done|]; by rewrite Ep, N.eqb_refl].
    apply list_elem_of_bind. exists p. split; [by left|]. apply filter_in; [done|]. by rewrite Eq, N.eqb_refl, Hs.
  - apply list_elem_of_fmap. eexists (mkPermissionRow (ur_UserID ur') (p_ID p) _ _ _ _ (r_OrganizationID r')).
    split; [by rewrite Hu|]. apply list_elem_of_bind. exists r'. split.
    2:{ apply filter_in; [done|]. by rewrite Er', N.eqb_refl, Ha'. }
    apply list_elem_of_bind. exists rp'. split; [|apply filter_in; [done|]; by rewrite Ep', N.eqb_refl].
    apply list_elem_of_bind. exists p. split; [by left|]. apply filter_in; [done|]. by rewrite Eq', N.eqb_refl, Hs.
Qed.

(** ** Witness: a schema on which some statements fail *)

Record ref_schema := mkRefSchema {
  rs_rows : list Migration; rs_log : list Statement; rs_broken : list Statement }.
#[local] Instance ref_schema_db : SchemaDB ref_schema := {
  db_Statement s d := if decide (s ∈ rs_broken d) then (Err (ErrorString "ERROR: could not create unique index"), d)
                      else (Ok tt, mkRefSchema (rs_rows d) (rs_log d ++ [s]) (rs_broken d));
  mig_First v d := (match List.find (λ m, String.eqb (mg_Version m) v) (rs_rows d) with
                    | Some m => Ok m | None => Err (ErrorLib gorm_ErrRecordNotFound "record not found") end, d);
  mig_Create m d := (Ok tt, mkRefSchema (rs_rows d ++ [m]) (rs_log d) (rs_broken d));
  mig_Delete m d := (Ok tt, mkRefSchema (List.filter (λ x, negb (mg_ID x =? mg_ID m)%N) (rs_rows d)) (rs_log d)
                              (rs_broken d));
  mig_Find d := (Ok (rs_rows d), d) }.
#[local, refine] Instance ref_schema_laws : SchemaLaws ref_schema := { mig_rows := rs_rows; completed := rs_log }.
Proof.
  - intros s d. simpl. destruct (decide _); simpl; [by rewrite app_nil_r | done].
  - intros s d. simpl. by destruct (decide _).
  - intros v d d' m. simpl. destruct (List.find _ _) as [x|] eqn:Hf; [|done]. intros [= <- <-].
    apply find_some in Hf as [Hin Hx%String.eqb_eq]. split; [by apply list_elem_of_In | done].
  - intros v d d' e. simpl. destruct (List.find _ _) as [x|] eqn:Hf; [done|]. intros _ _ m Hm%list_elem_of_In Hv.
    pose proof (find_none _ _ Hf m Hm) as Hx. simpl in Hx. by rewrite Hv, String.eqb_refl in Hx.
  - done.
  - intros m d d'. simpl. intros [= <-]. destruct m as [i v de t c]. by exists i.
  - done.
  - done.
  - intros m d d'. simpl. by intros [= <-].
  - done.
Defined.
(** Two migrations are recorded, and the unique index of the last fails. *)
Definition ref_half : ref_schema :=
  (RunMigrations (D:=ref_schema) 5 (mkRefSchema [] [] [AutoMigrate ["UserActivity"]])).2.
Definition ref_unlucky : ref_schema := mkRefSchema (rs_rows ref_half) [] [Sql userPermissionsIndex].
Example ref_unlucky_stops : versions (RunMigrations (D:=ref_schema) 7 ref_unlucky).2 = take 4 all_versions.
Proof. vm_compute. reflexivity. Qed.
