(* ===== verification/CacheLife.v ===== *)
(** * Construction, statistics, background loops and shutdown of the caches
    (src/internal/cache, services/cache_adapter.go)

    What surrounds the operations of Cache.v: [NewCacheManager] with its two
    levels, the registry of named caches, the statistics, [Close], and the
    goroutines the manager, its invalidator and its warmer start.  The loops
    are event machines: an event is one atomic action of a caller, of a clock
    or of a loop, and a run is any sequence of enabled events.  [CacheAdapter]
    puts JSON values on top of any cache manager; its theorems are proved
    against the interface of Ifaces.v, and it discharges the one the warming
    pool of SpecializedPools.v asks for. *)

From S2P Require Import Prelude Errors Models Ifaces Cache CacheJobs SpecializedPools.

#[local] Open Scope Z_scope.

(** ** Statistics *)

(** [HitRatio] is the quotient of two integers converted to [float64]; the
    two integers are kept. *)
Inductive ratio := NoRatio | Quotient (num den : Z).
Record CacheStats := mkStats {
  Hits : Z; Misses : Z; Sets : Z; Deletes : Z; Evictions : Z; Size : Z; HitRatio : ratio;
  LastUpdated : Z }.
Definition hit_ratio (hits misses : Z) : ratio :=
  let total := wrap64 (hits + misses) in
  if (0 <? total)%Z then Quotient hits total else NoRatio.

(** The counters of github.com/allegro/bigcache and its length; [INFO memory]
    of Redis, as lines. *)
Class BigCounters (B : Type) := { big_hits : B → Z; big_misses : B → Z; big_len : B → Z }.
Class RedisInfo (R : Type) := { rc_Info : M R (list string) }.

Section stats.
Context {B R : Type} `{BigCounters B} `{RedisInfo R}.

Definition BigCacheImpl_Stats (now : Z) (c : BigCacheImpl B) : CacheStats :=
  let s := bc_stats c in
  mkStats (cs_hits s) (cs_misses s) (cs_sets s) (cs_deletes s) (cs_evictions s)
    (wrap64 (big_hits (bc_cache c) + big_misses (bc_cache c)))
    (hit_ratio (cs_hits s) (cs_misses s)) now.
Definition GetCapacity (HardMaxCacheSize : Z) (c : BigCacheImpl B) : Z * Z :=
  (wrap64 (big_hits (bc_cache c) + big_misses (bc_cache c)), HardMaxCacheSize).
Definition Len (c : BigCacheImpl B) : Z := big_len (bc_cache c).

(** The loop over the lines of the answer ends at the first line it looks
    for, without reading the number in it. *)
Fixpoint used_memory (lines : list string) (size : Z) : Z :=
  match lines with
  | [] => size
  | line :: rest => if HasPrefix line "used_memory:" then 0 else used_memory rest size
  end.
Definition RedisCacheImpl_Stats (now : Z) : M (RedisCacheImpl R) CacheStats :=
  let* s := gets rc_stats in
  let* info := attempt (F:=error) (on_client rc_Info) in
  let size := match info with Ok lines => used_memory lines 0 | Err _ => 0 end in
  ret (mkStats (cs_hits s) (cs_misses s) (cs_sets s) (cs_deletes s) (cs_evictions s) size
         (hit_ratio (cs_hits s) (cs_misses s)) now).

Definition combine (now : Z) (l1 l2 : CacheStats) : CacheStats :=
  let totalHits := wrap64 (Hits l1 + Hits l2) in
  let totalMisses := wrap64 (Misses l1 + Misses l2) in
  mkStats totalHits totalMisses (wrap64 (Sets l1 + Sets l2)) (wrap64 (Deletes l1 + Deletes l2))
    (wrap64 (Evictions l1 + Evictions l2)) (wrap64 (Size l1 + Size l2))
    (hit_ratio totalHits totalMisses) now.
Definition CacheManagerImpl_Stats (now : Z) : M (CacheManagerImpl B R) CacheStats :=
  let* l1 := gets (λ w : CacheManagerImpl B R, BigCacheImpl_Stats now (l1Cache w)) in
  let* l2 := on_l2 (RedisCacheImpl_Stats now) in
  ret (combine now l1 l2).
End stats.

(** [GetWarmingStats] and [GetInvalidationStats]. *)
Record WarmingStats := mkWarmingStats { ws_active_jobs : nat; ws_running_jobs : nat }.
Definition GetWarmingStats {B R} (w : JobsW B R) : WarmingStats :=
  mkWarmingStats (size (jw_warmJobs w)) (running_jobs w).
Record InvalidationStats := mkInvalidationStats {
  is_scheduled_jobs : nat; is_tagged_keys_count : nat; is_total_tagged_keys : nat; is_active_jobs : nat }.
Definition GetInvalidationStats {B R} (w : JobsW B R) : InvalidationStats :=
  let tagged := taggedKeys (jw_manager w) in
  mkInvalidationStats (size (jw_invalidations w)) (size tagged)
    (sum_list (length <$> (map_to_list tagged).*2))
    (length (List.filter (λ j, ij_Active j) (map_to_list (jw_invalidations w)).*2)).

(** ** Construction *)

Record BigCacheConfig := mkBigCacheConfig {
  Shards : Z; LifeWindow : Z; CleanWindow : Z; MaxEntriesInWindow : Z; MaxEntrySize : Z;
  HardMaxCacheSize : Z; Verbose : bool }.
Record RedisClusterConfig := mkRedisClusterConfig {
  Addrs : list string; Password : string; DB : Z; PoolSize : Z; MinIdleConns : Z; MaxConnAge : Z;
  PoolTimeout : Z; IdleTimeout : Z; IdleCheckFrequency : Z; ReadTimeout : Z; WriteTimeout : Z;
  DialTimeout : Z }.
Record CacheConfig := mkCacheConfig {
  cc_BigCacheConfig : BigCacheConfig; cc_RedisConfig : RedisClusterConfig; cc_DefaultTTL : Z;
  cc_MaxRetries : Z; cc_RetryDelay : Z; cc_EnableMetrics : bool; cc_MetricsInterval : Z;
  cc_SyncInterval : Z; cc_WarmupInterval : Z; cc_WarmupEnabled : bool; cc_WarmupBatchSize : Z;
  cc_InvalidationDelay : Z }.

(** What the two drivers are opened with. *)
Record client_options := mkClientOptions {
  opt_Password : string; opt_PoolSize : Z; opt_MinIdleConns : Z; opt_PoolTimeout : Z;
  opt_ReadTimeout : Z; opt_WriteTimeout : Z; opt_DialTimeout : Z }.
Inductive redis_options :=
| ClusterOptions (addrs : list string) (o : client_options)
| SingleOptions (addr : string) (db : Z) (o : client_options).
Class CacheDrivers (B R : Type) := {
  bigcache_New : BigCacheConfig → res error B;
  redis_Dial : redis_options → R;
  redis_Ping : R → res error unit }.

(** A name of the registry stands for one of the levels or for a cache that
    was registered. *)
Inductive cache_handle := HandleL1 | HandleL2 | Registered (id : N).

(** A ticker: whether it still runs, and the tick its channel holds. *)
Record Ticker := mkTicker { tk_running : bool; tk_tick : bool }.
Definition new_ticker : Ticker := mkTicker true false.
Definition Ticker_Stop (t : Ticker) : Ticker := mkTicker false (tk_tick t).
Definition Ticker_fire (t : Ticker) : option Ticker :=
  if tk_running t then Some (mkTicker true true) else None.
Definition Ticker_receive (t : Ticker) : option Ticker :=
  if tk_tick t then Some (mkTicker (tk_running t) false) else None.

(** A loop over a ticker and a stop channel. *)
Inductive loop := NotStarted | Selecting | InBody | Returned.

(** The manager with everything that hangs on it. *)
Record LiveManager (B R : Type) := mkLive {
  lm_jobs : JobsW B R;
  lm_caches : gmap string cache_handle;
  lm_config : CacheConfig;
  lm_syncTicker : option Ticker; lm_syncLoop : loop; lm_stopped : bool;
  lm_invalidationTicker : Ticker; lm_invalidationLoop : loop; lm_invalidator_stopped : bool }.
Arguments mkLive {B R}. Arguments lm_jobs {B R}. Arguments lm_caches {B R}. Arguments lm_config {B R}.
Arguments lm_syncTicker {B R}. Arguments lm_syncLoop {B R}. Arguments lm_stopped {B R}.
Arguments lm_invalidationTicker {B R}. Arguments lm_invalidationLoop {B R}.
Arguments lm_invalidator_stopped {B R}.

Section construction.
Context {B R : Type} `{CacheDrivers B R}.
(** The state of a construction: the first-level stores opened so far, each
    of which keeps a cleaning goroutine until it is closed. *)
Abbreviation C := (GoM (option error) (list B)).

Definition NewBigCache (config : BigCacheConfig) : C (BigCacheImpl B) :=
  match bigcache_New config with
  | Err err => fail (Some (NewCacheErrorWithCause "bigcache_init_failed" "failed to initialize BigCache" err))
  | Ok cache => modify (λ opened, opened ++ [cache]) ;;; ret (mkBigCacheImpl cache no_stats)
  end.

Definition options_of (config : RedisClusterConfig) : client_options :=
  mkClientOptions (Password config) (PoolSize config) (MinIdleConns config) (PoolTimeout config)
    (ReadTimeout config) (WriteTimeout config) (DialTimeout config).
(** Without an address the index is out of range. *)
Definition redis_options_of (config : RedisClusterConfig) : option redis_options :=
  match Addrs config with
  | _ :: _ :: _ => Some (ClusterOptions (Addrs config) (options_of config))
  | [addr] => Some (SingleOptions addr (DB config) (options_of config))
  | [] => None
  end.
Definition NewRedisCache (config : RedisClusterConfig) : C (RedisCacheImpl R) :=
  match redis_options_of config with
  | None => panics
  | Some options =>
      let client := redis_Dial options in
      match redis_Ping client with
      | Err err => fail (Some (NewCacheErrorWithCause "redis_connection_failed" "failed to connect to Redis" err))
      | Ok _ => ret (mkRedisCacheImpl client no_stats)
      end
  end.

(** [NewCacheWarmerImpl] starts nothing, [NewCacheInvalidatorImpl] starts its
    loop, and [startSync] the one of the manager. *)
Definition NewCacheInvalidatorImpl (config : CacheConfig) : Ticker * loop * Z :=
  (new_ticker, Selecting, invalidation_interval (cc_InvalidationDelay config)).
Definition startSync (config : CacheConfig) : option Ticker * loop :=
  if (0 <? cc_SyncInterval config)%Z then (Some new_ticker, Selecting) else (None, NotStarted).
Definition NewCacheManager (config : CacheConfig) : C (LiveManager B R) :=
  let* l1 := wrap_err (fmap (ErrorWrap "failed to initialize L1 cache"))
               (NewBigCache (cc_BigCacheConfig config)) in
  let* l2 := wrap_err (fmap (ErrorWrap "failed to initialize L2 cache"))
               (NewRedisCache (cc_RedisConfig config)) in
  let '(ticker, loop, _) := NewCacheInvalidatorImpl config in
  let '(syncTicker, syncLoop) := startSync config in
  ret (mkLive (mkJobs (mkCacheManager l1 l2 WriteThrough ∅ []) ∅ false false [] ∅ [])
         (<["l2" := HandleL2]> (<["l1" := HandleL1]> ∅)) config
         syncTicker syncLoop false ticker loop false).
End construction.

(** *** What the gRPC server asks for (src/internal/grpc/server.go)

    [NewAuthGRPCServer] builds the manager from these settings and falls back
    to [SimpleCacheManager] (Grpc.v), which has Redis alone, when it cannot. *)

Definition server_cache_config (host port password : string) (db : Z) : CacheConfig :=
  mkCacheConfig
    (mkBigCacheConfig 1024 (10 * Minute) (5 * Minute) (1000 * 10 * 60) 500 8192 false)
    (mkRedisClusterConfig [host +:+ ":" +:+ port] password db 10 5 (60 * Minute) (30 * Second)
       (5 * Minute) Minute (3 * Second) (3 * Second) (5 * Second))
    (5 * Minute) 3 (100 * Millisecond) true (30 * Second) (5 * Minute) (15 * Minute) true 100 Second.

Inductive server_cache (B R : Type) := FullManager (m : LiveManager B R) | SimpleManager.
Arguments FullManager {B R}. Arguments SimpleManager {B R}.
Definition init_cache {B R} `{CacheDrivers B R} (host port password : string) (db : Z)
    : GoM (option error) (list B) (server_cache B R) :=
  let* made := catch (NewCacheManager (server_cache_config host port password db)) in
  match made with
  | Err _ => ret SimpleManager
  | Ok manager => ret (FullManager manager)
  end.

(** The operations of [SimpleCacheManager] that do nothing: its statistics are
    zero, and a registration is accepted and forgotten. *)
Definition simple_Stats : CacheStats := mkStats 0 0 0 0 0 0 NoRatio zero_time.
Definition simple_GetStrategy : CacheStrategy := WriteThrough.
Definition simple_RegisterCache (name : string) (cache : cache_handle) : res error unit := Ok tt.
Definition simple_WarmCache (keys : list string) : res error unit := Ok tt.

(** ** The registry, the background loops and [Close] *)

(** Closing the two stores. *)
Class BigClose (B : Type) := { big_Close : M B unit }.
Class RedisClose (R : Type) := { rc_Close : M R unit }.

Section live.
Context {B R : Type} `{BigClose B} `{RedisClose R}.
Abbreviation L := (LiveManager B R).
Abbreviation ML := (GoM (option error) L).

Definition set_jobs (j : JobsW B R) (s : L) : L :=
  let '(mkLive _ ca co st sl sd it il id) := s in mkLive j ca co st sl sd it il id.
Definition set_caches (ca : gmap string cache_handle) (s : L) : L :=
  let '(mkLive j _ co st sl sd it il id) := s in mkLive j ca co st sl sd it il id.
Definition set_sync (st : option Ticker) (sl : loop) (s : L) : L :=
  let '(mkLive j ca co _ _ sd it il id) := s in mkLive j ca co st sl sd it il id.
Definition set_invalidation (it : Ticker) (il : loop) (s : L) : L :=
  let '(mkLive j ca co st sl sd _ _ id) := s in mkLive j ca co st sl sd it il id.
Definition close_stopChan (s : L) : L :=
  let '(mkLive j ca co st sl _ it il id) := s in mkLive j ca co st sl true it il id.
Definition close_invalidator (s : L) : L :=
  let '(mkLive j ca co st sl sd it il _) := s in mkLive j ca co st sl sd it il true.

Definition GetCache (name : string) (s : L) : option cache_handle := lm_caches s !! name.
Definition RegisterCache (name : string) (cache : cache_handle) : GoM error L unit := λ s,
  match lm_caches s !! name with
  | Some _ => (Err (ErrorString ("cache " +:+ name +:+ " already registered")), s)
  | None => (Ok tt, set_caches (<[name := cache]> (lm_caches s)) s)
  end.
Definition GetStrategy (s : L) : CacheStrategy := cm_strategy (jw_manager (lm_jobs s)).

(** [Sync] only logs. *)
Definition Sync (s : L) : res error unit := Ok tt.

Definition BigCacheImpl_Close : M (BigCacheImpl B) unit :=
  wrap_err (NewCacheErrorWithCause "bigcache_close_failed" "failed to close BigCache") (on_big big_Close).
Definition RedisCacheImpl_Close : M (RedisCacheImpl R) unit :=
  wrap_err (NewCacheErrorWithCause "redis_close_failed" "failed to close Redis client") (on_client rc_Close).

Definition on_jobs {A} (m : M (JobsW B R) A) : M L A := zoom lm_jobs set_jobs m.
(** [Close]: the sync ticker is stopped, the stop channel closed (a second
    time panics), both levels closed, and the first error returned. *)
Definition Close : ML unit :=
  modify (λ s, set_sync (Ticker_Stop <$> lm_syncTicker s) (lm_syncLoop s) s) ;;;
  let* stopped := gets lm_stopped in
  if stopped then panics
  else
    modify close_stopChan ;;;
    let* r1 := attempt (on_jobs (on_manager (on_l1 BigCacheImpl_Close))) in
    let* r2 := attempt (on_jobs (on_manager (on_l2 RedisCacheImpl_Close))) in
    match r1, r2 with
    | Err e, _ | Ok _, Err e => fail (Some e)
    | Ok _, Ok _ => ret tt
    end.
(** [Stop] of the invalidator: closing twice is guarded against. *)
Definition CacheInvalidatorImpl_Stop (s : L) : L :=
  let s' := set_invalidation (Ticker_Stop (lm_invalidationTicker s)) (lm_invalidationLoop s) s in
  if lm_invalidator_stopped s' then s' else close_invalidator s'.

Inductive live_event :=
| LSyncFires | LSyncTick | LSyncBody | LSyncStop             (* the clock and [startSync]'s loop *)
| LInvalidationFires | LInvalidationTick | LInvalidationBody (now : Z) | LInvalidationStop
| LClose | LStopInvalidator.

Definition live_step (e : live_event) (s : L) : option L :=
  match e with
  | LSyncFires => t ← lm_syncTicker s; t' ← Ticker_fire t; Some (set_sync (Some t') (lm_syncLoop s) s)
  | LSyncTick =>
      t ← lm_syncTicker s; t' ← Ticker_receive t;
      match lm_syncLoop s with Selecting => Some (set_sync (Some t') InBody s) | _ => None end
  | LSyncBody =>
      match lm_syncLoop s with InBody => Some (set_sync (lm_syncTicker s) Selecting s) | _ => None end
  | LSyncStop =>
      match lm_syncLoop s with
      | Selecting => if lm_stopped s then Some (set_sync (lm_syncTicker s) Returned s) else None
      | _ => None
      end
  | LInvalidationFires =>
      t' ← Ticker_fire (lm_invalidationTicker s); Some (set_invalidation t' (lm_invalidationLoop s) s)
  | LInvalidationTick =>
      t' ← Ticker_receive (lm_invalidationTicker s);
      match lm_invalidationLoop s with Selecting => Some (set_invalidation t' InBody s) | _ => None end
  | LInvalidationBody now =>
      match lm_invalidationLoop s with
      | InBody => Some (set_jobs (processScheduledInvalidations now (lm_jobs s))
                          (set_invalidation (lm_invalidationTicker s) Selecting s))
      | _ => None
      end
  | LInvalidationStop =>
      match lm_invalidationLoop s with
      | Selecting =>
          if lm_invalidator_stopped s
          then Some (set_invalidation (lm_invalidationTicker s) Returned s) else None
      | _ => None
      end
  | LClose => Some (Close s).2
  | LStopInvalidator => Some (CacheInvalidatorImpl_Stop s)
  end.
Fixpoint live_run (es : list live_event) (s : L) : option L :=
  match es with [] => Some s | e :: es' => live_step e s ≫= live_run es' end.
End live.

(** ** The loop of the warmer

    [startWarmingScheduler] starts a goroutine that reads the field
    [warmTicker] each time its [select] is entered; [StopWarming] sets the
    field to nil. *)

Definition warmup_interval (WarmupInterval : Z) : Z :=
  if (WarmupInterval <=? 0)%Z then 15 * Minute else WarmupInterval.

Inductive warm_loop := Entering | Waiting (ticker : nat) | Running | Gone.
Record WarmLoops := mkWarmLoops {
  wl_warmTicker : option nat;    (* the field: nil or a ticker *)
  wl_tickers : list Ticker;      (* the tickers made so far *)
  wl_loops : list warm_loop;     (* the goroutines started so far *)
  wl_stopChan : bool;            (* closed *)
  wl_crashed : bool }.           (* a goroutine panicked: the process is gone *)
Definition no_warm_loops : WarmLoops := mkWarmLoops None [] [] false false.

Definition startWarmingScheduler (s : WarmLoops) : WarmLoops :=
  let '(mkWarmLoops f ts ls sc cr) := s in
  match f with
  | Some _ => s
  | None => mkWarmLoops (Some (length ts)) (ts ++ [new_ticker]) (ls ++ [Entering]) sc cr
  end.
(** The second half of [StopWarming]; closing the channel again panics in the
    caller. *)
Definition stop_scheduler : GoM (option error) WarmLoops unit := λ s,
  let '(mkWarmLoops f ts ls sc cr) := s in
  let ts' := match f with Some t => alter Ticker_Stop t ts | None => ts end in
  if sc then (Err None, mkWarmLoops None ts' ls sc cr)
  else (Ok tt, mkWarmLoops None ts' ls true cr).

Inductive warm_event :=
| WSchedule | WStop | WFire (t : nat)
| WEnter (i : nat) | WTick (i : nat) | WStopCase (i : nat) | WBody (i : nat).
Definition set_loop (i : nat) (l : warm_loop) (s : WarmLoops) : WarmLoops :=
  let '(mkWarmLoops f ts ls sc cr) := s in mkWarmLoops f ts (<[i := l]> ls) sc cr.
Definition set_ticker (t : nat) (k : Ticker) (s : WarmLoops) : WarmLoops :=
  let '(mkWarmLoops f ts ls sc cr) := s in mkWarmLoops f (<[t := k]> ts) ls sc cr.
(** [cw.warmTicker.C] on a nil ticker: the goroutine panics. *)
Definition enter_select (i : nat) (s : WarmLoops) : WarmLoops :=
  match wl_warmTicker s with
  | Some t => set_loop i (Waiting t) s
  | None => let '(mkWarmLoops f ts ls sc _) := s in mkWarmLoops f ts ls sc true
  end.
Definition warm_step (e : warm_event) (s : WarmLoops) : option WarmLoops :=
  if wl_crashed s then None
  else match e with
  | WSchedule => Some (startWarmingScheduler s)
  | WStop => Some (stop_scheduler s).2
  | WFire t => k ← wl_tickers s !! t; k' ← Ticker_fire k; Some (set_ticker t k' s)
  | WEnter i => match wl_loops s !! i with Some Entering => Some (enter_select i s) | _ => None end
  | WTick i =>
      match wl_loops s !! i with
      | Some (Waiting t) =>
          k ← wl_tickers s !! t; k' ← Ticker_receive k; Some (set_loop i Running (set_ticker t k' s))
      | _ => None
      end
  | WStopCase i =>
      match wl_loops s !! i with
      | Some (Waiting _) => if wl_stopChan s then Some (set_loop i Gone s) else None
      | _ => None
      end
  | WBody i => match wl_loops s !! i with Some Running => Some (set_loop i Entering s) | _ => None end
  end.
Fixpoint warm_run (es : list warm_event) (s : WarmLoops) : option WarmLoops :=
  match es with [] => Some s | e :: es' => warm_step e s ≫= warm_run es' end.

(** ** The adapter (services/cache_adapter.go) *)

(** Values of type [interface{}] and [encoding/json] on them; [any_str] is
    the assertion [value.(string)]. *)
Class AnyJson (V : Type) := {
  any_Marshal : V → res error string;
  any_Unmarshal : string → res error V;
  any_str : V → option string;
  any_of_str : string → V }.
(** What was encoded is decoded, as the value its encoding stands for
    (numbers become floats, structs maps); a string can always be encoded. *)
Class AnyJsonLaws (V : Type) `{AnyJson V} := {
  decoded : V → V;
  any_roundtrip v s : any_Marshal v = Ok s → any_Unmarshal s = Ok (decoded v);
  any_str_Marshal v t : any_str v = Some t → is_ok (any_Marshal v) = true }.

Section adapter.
Context {C V : Type} `{CacheOps C} `{AnyJson V}.

Definition CacheAdapter_Get (now : Z) (key : string) : M C V :=
  let* data := cache_Get now key in
  match any_Unmarshal data with
  | Err _ => ret (any_of_str data)
  | Ok value => ret value
  end.
Definition CacheAdapter_Set (now : Z) (key : string) (value : V) (ttl : Z) : M C unit :=
  match any_Marshal value with
  | Ok data => cache_Set now key data ttl
  | Err err =>
      match any_str value with
      | Some str => cache_Set now key str ttl
      | None => fail err
      end
  end.
Definition CacheAdapter_Delete (now : Z) (key : string) : M C unit := cache_Delete now key.

Fixpoint get_each (now : Z) (keys : list string) (result : gmap string V) : M C (gmap string V) :=
  match keys with
  | [] => ret result
  | key :: rest =>
      let* value := attempt (F:=error) (CacheAdapter_Get now key) in
      match value with
      | Err _ => get_each now rest result
      | Ok v => get_each now rest (<[key := v]> result)
      end
  end.
Definition GetMultiple (now : Z) (keys : list string) : M C (gmap string V) := get_each now keys ∅.
(** [items] in the order the map is walked. *)
Definition SetMultiple (now : Z) (items : list (string * V)) (ttl : Z) : M C unit :=
  for_each (λ kv, CacheAdapter_Set now kv.1 kv.2 ttl) items.
End adapter.

(** The warming pool writes through the adapter. *)
Definition adapter_pool_cache {C V} `{CacheOps C} `{AnyJson V} (any : warm_value → V) : SpecializedCache C :=
  λ now key value ttl, CacheAdapter_Set now key (any value) ttl.

(** ** Lemmas: statistics *)

(** Reads one after the other. *)
Section reads.
Context {B R : Type} `{BigCacheLib B} `{RedisKV R} `{EntryJson}.
Abbreviation W := (CacheManagerImpl B R).

Fixpoint reads (rs : list (Z * string)) (w : W) : list (res error string) * W :=
  match rs with
  | [] => ([], w)
  | (now, key) :: rs' =>
      let '(r, w1) := CacheManagerImpl_Get now key w in
      let '(l, w2) := reads rs' w1 in (r :: l, w2)
  end.
Definition answers (l : list (res error string)) : Z := Z.of_nat (length (List.filter is_ok l)).
Definition total_hits (w : W) : Z := wrap64 (cs_hits (bc_stats (l1Cache w)) + cs_hits (rc_stats (l2Cache w))).
Definition total_misses (w : W) : Z :=
  wrap64 (cs_misses (bc_stats (l1Cache w)) + cs_misses (rc_stats (l2Cache w))).

Lemma big_Get_counts now k (c : BigCacheImpl B) : k ≠ "" →
  bc_stats (BigCacheImpl_Get now k c).2 =
    (if is_ok (BigCacheImpl_Get now k c).1 then hit else miss) (bc_stats c).
Proof.
  intros Hk. unfold BigCacheImpl_Get, on_big, big_stats. destruct (String.eqb_spec k ""); [done|].
  rewrite bind_attempt, zoom_eq. destruct (big_Get k (bc_cache c)) as [[e|err] b1]; cbn [fst snd].
  2:{ rewrite bind_modify. by destruct (is_sentinel _ _). }
  destruct (entry_Unmarshal e) as [ce|err]; [|done].
  destruct (_ && _); rewrite bind_attempt, zoom_eq; done.
Qed.
Lemma redis_Get_counts now k (c : RedisCacheImpl R) : k ≠ "" →
  rc_stats (RedisCacheImpl_Get now k c).2 =
    (if is_ok (RedisCacheImpl_Get now k c).1 then hit else miss) (rc_stats c).
Proof.
  intros Hk. unfold RedisCacheImpl_Get, on_client, redis_stats. destruct (String.eqb_spec k ""); [done|].
  rewrite bind_attempt, zoom_eq. destruct (rc_Get now (full_key k) (rc_client c)) as [[e|err] b1]; cbn [fst snd].
  2:{ rewrite bind_modify. by destruct (is_sentinel _ _). }
  destruct (entry_Unmarshal e) as [ce|err]; [|done].
  rewrite bind_attempt, zoom_eq. done.
Qed.

Lemma wrap64_add_r a b : wrap64 (a + wrap64 b) = wrap64 (a + b).
Proof. by rewrite (Z.add_comm a), wrap64_add, Z.add_comm. Qed.

(** One read adds one hit if it answers, and one miss for each level that did
    not. *)
Lemma Get_counts now k (w : W) : k ≠ "" → ∃ refills : nat,
  total_hits (CacheManagerImpl_Get now k w).2 =
    wrap64 (total_hits w + (if is_ok (CacheManagerImpl_Get now k w).1 then 1 else 0)) ∧
  total_misses (CacheManagerImpl_Get now k w).2 =
    wrap64 (total_misses w + ((if is_ok (CacheManagerImpl_Get now k w).1 then 0 else 2) + Z.of_nat refills)) ∧
  length (pending (CacheManagerImpl_Get now k w).2) = (length (pending w) + refills)%nat.
Proof.
  intros Hk. unfold CacheManagerImpl_Get. destruct (String.eqb_spec k ""); [done|].
  rewrite bind_attempt. unfold on_l1. rewrite zoom_eq.
  pose proof (big_Get_counts now k (l1Cache w) Hk) as Hb.
  destruct (BigCacheImpl_Get now k (l1Cache w)) as [[v|e] c1]; cbn [fst snd is_ok] in *.
  - exists 0%nat. unfold total_hits, total_misses. simpl. rewrite Hb.
    destruct (bc_stats (l1Cache w)); simpl. rewrite !wrap64_add. repeat split; try f_equal; lia.
  - unfold on_l2, bind. rewrite zoom_eq. cbn [fst snd l2Cache].
    pose proof (redis_Get_counts now k (l2Cache w) Hk) as Hr.
    destruct (RedisCacheImpl_Get now k (l2Cache w)) as [[v|e2] c2]; cbn [fst snd is_ok] in *.
    + exists 1%nat. unfold total_hits, total_misses, go, modify. simpl. rewrite Hb, Hr.
      destruct (bc_stats (l1Cache w)), (rc_stats (l2Cache w)); simpl.
      rewrite !wrap64_add, wrap64_add_r, length_app. simpl. repeat split; try f_equal; lia.
    + exists 0%nat. unfold total_hits, total_misses. simpl. rewrite Hb, Hr.
      destruct (bc_stats (l1Cache w)), (rc_stats (l2Cache w)); simpl.
      rewrite !wrap64_add, wrap64_add_r. repeat split; try f_equal; lia.
Qed.
End reads.

(** ** Lemmas: construction and the loops *)

Section live_lemmas.
Context {B R : Type} `{CacheDrivers B R} `{BigClose B} `{RedisClose R}.
Abbreviation L := (LiveManager B R).

(** Failing to reach Redis leaves the first level open, with nobody to close
    it: the caller gets no manager. *)
Lemma failed_construction_leaks config b opened o e :
  bigcache_New (cc_BigCacheConfig config) = Ok b →
  redis_options_of (cc_RedisConfig config) = Some o →
  redis_Ping (B:=B) (redis_Dial (B:=B) (R:=R) o) = Err e →
  NewCacheManager (R:=R) config opened =
    (Err (Some (ErrorWrap "failed to initialize L2 cache"
       (NewCacheErrorWithCause "redis_connection_failed" "failed to connect to Redis" e))), opened ++ [b]).
Proof.
  intros Hb Ho He. unfold NewCacheManager, NewBigCache, NewRedisCache, bind, wrap_err.
  by rewrite Hb, Ho, He.
Qed.

(** What holds of the invalidation loop as long as nobody stops it. *)
Record invalidating (s : L) : Prop := {
  iv_ticker : tk_running (lm_invalidationTicker s) = true;
  iv_open : lm_invalidator_stopped s = false;
  iv_loop : lm_invalidationLoop s = Selecting ∨ lm_invalidationLoop s = InBody }.

Lemma set_jobs_invalidating j s : invalidating s → invalidating (set_jobs j s).
Proof. destruct s. by intros [??]; split. Qed.
Lemma on_jobs_invalidating {A} (m : M (JobsW B R) A) : preserves invalidating (on_jobs m).
Proof. intros s Hs. unfold on_jobs. rewrite zoom_eq. simpl. by apply set_jobs_invalidating. Qed.
Lemma Close_invalidating : preserves invalidating (Close (B:=B) (R:=R)).
Proof.
  unfold Close. apply preserves_bind; [apply preserves_modify|intros _].
  { intros s Hs. destruct s; destruct Hs; by split. }
  apply preserves_bind; [apply preserves_gets|intros []; [apply preserves_fail|]].
  apply preserves_bind; [apply preserves_modify|intros _].
  { intros s Hs. destruct s; destruct Hs; by split. }
  apply preserves_bind; [apply preserves_attempt, on_jobs_invalidating|intros r1].
  apply preserves_bind; [apply preserves_attempt, on_jobs_invalidating|intros r2].
  destruct r1, r2; apply preserves_fail || apply preserves_ret.
Qed.

Lemma fire_running t t' : Ticker_fire t = Some t' → tk_running t' = true ∧ tk_tick t' = true.
Proof. unfold Ticker_fire. destruct (tk_running t); [|done]. by intros [= <-]. Qed.
Lemma receive_running t t' : Ticker_receive t = Some t' → tk_running t' = tk_running t.
Proof. unfold Ticker_receive. destruct (tk_tick t); [|done]. by intros [= <-]. Qed.

Lemma live_step_invalidating e s s' : e ≠ LStopInvalidator → live_step e s = Some s' →
  invalidating s → invalidating s'.
Proof.
  intros He Hs Hiv. destruct e; simpl in Hs; try done.
  - apply bind_Some in Hs as (t & _ & (t' & _ & [= <-])%bind_Some). by destruct s, Hiv; split.
  - apply bind_Some in Hs as (t & _ & (t' & _ & Hs)%bind_Some).
    destruct s as [j ca co st [] sd it il id]; try done. injection Hs as <-. by destruct Hiv; split.
  - destruct s as [j ca co st [] sd it il id]; try done. injection Hs as <-. by destruct Hiv; split.
  - destruct s as [j ca co st [] [] it il id]; try done. injection Hs as <-. by destruct Hiv; split.
  - apply bind_Some in Hs as (t' & Hf & [= <-]). apply fire_running in Hf as [Hr _].
    by destruct s, Hiv; split.
  - apply bind_Some in Hs as (t' & Hf & Hs). apply receive_running in Hf.
    destruct s as [j ca co st sl sd it [] id]; try done. injection Hs as <-.
    destruct Hiv as [Ht Ho Hl]. split; [by rewrite <- Ht | done | by right].
  - destruct s as [j ca co st sl sd it [] id]; try done. injection Hs as <-.
    destruct Hiv as [Ht Ho Hl]. split; [done | done | by left].
  - destruct s as [j ca co st sl sd it [] []]; try done. injection Hs as <-. by destruct Hiv.
  - injection Hs as <-. by apply Close_invalidating.
Qed.

Lemma live_run_invalidating es s s' : LStopInvalidator ∉ es → live_run es s = Some s' →
  invalidating s → invalidating s'.
Proof.
  revert s. induction es as [|e es IH]; simpl; intros s Hn Hr Hs; [by injection Hr as <-|].
  apply bind_Some in Hr as (s1 & H1' & Hr). apply not_elem_of_cons in Hn as [He Hn].
  eapply IH; [done | exact Hr|]. by eapply live_step_invalidating.
Qed.

(** The stop channel of the manager stays closed. *)
Lemma Close_stops (s : L) : lm_stopped (Close s).2 = true.
Proof.
  unfold Close, on_jobs. rewrite bind_modify, bind_gets. destruct s as [j ca co st sl sd it il id].
  cbn [set_sync lm_stopped lm_syncTicker lm_syncLoop]. destruct sd; [done|].
  rewrite bind_modify, bind_attempt, zoom_eq, bind_attempt, zoom_eq.
  cbn [fst snd close_stopChan set_jobs lm_jobs].
  by repeat case_match.
Qed.
Lemma Close_again (s : L) : lm_stopped s = true → (Close s).1 = Err None.
Proof. unfold Close. rewrite bind_modify, bind_gets. destruct s; simpl. by intros ->. Qed.

Lemma live_step_stopped e s s' : live_step e s = Some s' → lm_stopped s = true → lm_stopped s' = true.
Proof.
  intros Hs Hst. destruct e; simpl in Hs;
    try (apply bind_Some in Hs as (t & _ & Hs)); try (apply bind_Some in Hs as (t' & _ & Hs));
    repeat case_match; simplify_eq; try done; try apply Close_stops; destruct s; try done.
  by destruct lm_invalidator_stopped0.
Qed.
Lemma live_run_stopped es s s' : live_run es s = Some s' →
  lm_stopped s = true ∨ LClose ∈ es → lm_stopped s' = true.
Proof.
  revert s. induction es as [|e es IH]; simpl; intros s Hr Hs.
  - simplify_eq. by destruct Hs as [Hs|?%elem_of_nil].
  - apply bind_Some in Hr as (s1 & Hs1 & Hr). apply (IH _ Hr). destruct Hs as [Hs|[<-|Hs]%elem_of_cons].
    + left. by eapply live_step_stopped.
    + left. simpl in Hs1. simplify_eq. apply Close_stops.
    + by right.
Qed.

(** The server always gets a cache; without Redis it is the simple one, and
    the first level of the other one stays open. *)
Lemma init_cache_answers host port password db opened :
  ∃ c opened', init_cache (B:=B) (R:=R) host port password db opened = (Ok c, opened') ∧
  (∀ b e, bigcache_New (cc_BigCacheConfig (server_cache_config host port password db)) = Ok b →
     (∀ r, redis_Ping (B:=B) (R:=R) r = Err e) → c = SimpleManager ∧ opened' = opened ++ [b]).
Proof.
  unfold init_cache, bind, catch.
  destruct (bigcache_New (cc_BigCacheConfig (server_cache_config host port password db))) as [b|e0] eqn:Eb.
  - unfold NewCacheManager, NewBigCache, NewRedisCache, bind, wrap_err. rewrite Eb. simpl.
    destruct (redis_Ping _) as [[]|e] eqn:Ep; simpl; eexists _, _; (split; [reflexivity|]).
    + intros b' e _ Hall. by rewrite Hall in Ep.
    + by intros b' e' [= <-] _.
  - unfold NewCacheManager, NewBigCache, bind, wrap_err. rewrite Eb. simpl.
    eexists _, _. split; [reflexivity|]. by intros b' e'.
Qed.

(** The next tick of the invalidation loop. *)
Lemma next_invalidation now (s : L) : invalidating s → ∃ es s',
  LStopInvalidator ∉ es ∧ live_run es s = Some s' ∧
  lm_jobs s' = processScheduledInvalidations now (lm_jobs s).
Proof.
  intros [Ht Ho [Hl|Hl]]; destruct s as [j ca co st sl sd [ru ti] il id]; simpl in *; subst.
  - exists [LInvalidationFires; LInvalidationTick; LInvalidationBody now].
    eexists. split; [|split; [reflexivity|done]]. by intros [?|[?|[?|?%elem_of_nil]%elem_of_cons]%elem_of_cons]%elem_of_cons.
  - exists [LInvalidationBody now]. eexists. split; [|split; [reflexivity|done]].
    by intros [?|?%elem_of_nil]%elem_of_cons.
Qed.

(** The registry: names are given once. *)
Lemma RegisterCache_keeps name c (s : L) n h :
  GetCache n s = Some h → GetCache n (RegisterCache name c s).2 = Some h.
Proof.
  unfold GetCache, RegisterCache. intros Hn. destruct (lm_caches s !! name) eqn:E; [done|].
  destruct s; simpl in *. rewrite lookup_insert_ne; [done|]. intros ->. congruence.
Qed.
Lemma RegisterCache_gets name c (s : L) : is_ok (RegisterCache name c s).1 = true →
  GetCache name (RegisterCache name c s).2 = Some c.
Proof.
  unfold GetCache, RegisterCache. destruct (lm_caches s !! name); [done|]. intros _.
  destruct s; simpl. apply lookup_insert_eq.
Qed.
Lemma default_caches config opened opened' (s : L) :
  NewCacheManager config opened = (Ok s, opened') →
  GetCache "l1" s = Some HandleL1 ∧ GetCache "l2" s = Some HandleL2 ∧ invalidating s ∧ lm_stopped s = false.
Proof.
  unfold NewCacheManager. intros Hn.
  apply bind_ok_inv in Hn as (l1 & o1 & _ & Hn). apply bind_ok_inv in Hn as (l2 & o2 & _ & Hn).
  simpl in Hn. unfold startSync in Hn. destruct (0 <? cc_SyncInterval config)%Z; injection Hn as <- <-;
    (split; [done | split; [done | split; [split; [done | done | by left] | done]]]).
Qed.
End live_lemmas.

(** While nobody stops the warmer there is at most one loop, and the field it
    reads is set whenever a loop exists. *)
Record warm_ok (s : WarmLoops) : Prop := {
  wo_alive : wl_crashed s = false;
  wo_open : wl_stopChan s = false;
  wo_loops : (length (wl_loops s) <= 1)%nat;
  wo_field : wl_loops s ≠ [] → wl_warmTicker s ≠ None;
  wo_none : wl_warmTicker s ≠ None → wl_loops s ≠ [] }.

Lemma set_loop_ok i l s : warm_ok s → warm_ok (set_loop i l s).
Proof.
  destruct s as [f ts ls sc cr]. intros [Ha Ho Hl Hf Hn]; split; simpl in *; try done.
  - by rewrite length_insert.
  - intros Hne. apply Hf. by intros ->.
  - intros Hs E. apply Hn in Hs. apply (f_equal length) in E. rewrite length_insert in E. by destruct ls.
Qed.
Lemma set_ticker_ok t k s : warm_ok s → warm_ok (set_ticker t k s).
Proof. destruct s. by intros [????]; split. Qed.
Lemma warm_step_ok e s s' : e ≠ WStop → warm_step e s = Some s' → warm_ok s → warm_ok s'.
Proof.
  intros He Hs Hok. unfold warm_step in Hs. rewrite (wo_alive _ Hok) in Hs.
  destruct e; try done.
  - injection Hs as <-. destruct s as [[t|] ts ls sc cr]; [done|].
    destruct Hok as [Ha Ho Hl Hf Hn]. split; simpl in *; try done.
    + assert (ls = []) as -> by (destruct ls; [done | by destruct Hf]). simpl. lia.
    + intros _. by destruct ls.
  - apply bind_Some in Hs as (k & _ & (k' & _ & [= <-])%bind_Some). by apply set_ticker_ok.
  - destruct (wl_loops s !! i) as [[]|] eqn:E; try done. injection Hs as <-. unfold enter_select.
    destruct (wl_warmTicker s) eqn:Ef; [by apply set_loop_ok|].
    destruct (wo_field _ Hok); [by destruct (wl_loops s) | done].
  - destruct (wl_loops s !! i) as [[]|] eqn:E; try done.
    apply bind_Some in Hs as (k & _ & (k' & _ & [= <-])%bind_Some). by apply set_loop_ok, set_ticker_ok.
  - destruct (wl_loops s !! i) as [[]|] eqn:E; try done. by rewrite (wo_open _ Hok) in Hs.
  - destruct (wl_loops s !! i) as [[]|] eqn:E; try done. injection Hs as <-. by apply set_loop_ok.
Qed.
Lemma warm_run_ok es s s' : WStop ∉ es → warm_run es s = Some s' → warm_ok s → warm_ok s'.
Proof.
  revert s. induction es as [|e es IH]; simpl; intros s Hn Hr Hs; [by injection Hr as <-|].
  apply bind_Some in Hr as (s1 & Hs1 & Hr). apply not_elem_of_cons in Hn as [He Hn].
  eapply IH; [done | exact Hr|]. by eapply warm_step_ok.
Qed.
Lemma no_warm_loops_ok : warm_ok no_warm_loops.
Proof. split; simpl; try done. lia. Qed.

(** A loop that is not waiting goes on to read the field. *)
Lemma stop_then_crash i s : warm_ok s →
  (wl_loops s !! i = Some Entering → ∃ s', warm_run [WStop; WEnter i] s = Some s' ∧ wl_crashed s' = true) ∧
  (wl_loops s !! i = Some Running →
     ∃ s', warm_run [WStop; WBody i; WEnter i] s = Some s' ∧ wl_crashed s' = true).
Proof.
  destruct s as [f ts ls sc cr]. intros [Ha Ho _ _ _]. simpl in *. subst sc cr. split; intros Hi.
  - simpl. unfold warm_step. simpl. rewrite Hi. by eexists.
  - simpl. unfold warm_step. simpl. rewrite Hi. simpl.
    rewrite list_lookup_insert_eq; [by eexists|]. by eapply lookup_lt_Some.
Qed.

(** ** Lemmas: the adapter *)

Section adapter_lemmas.
Context {C V : Type} `{CacheLaws C} `{AnyJsonLaws V}.

(** [stored c k v d]: [k] reads as the encoding of [v] before [d]. *)
Definition stored (c : C) (k : string) (v : V) (d : Z) : Prop :=
  ∃ s, any_Marshal v = Ok s ∧ chas c k s d.

Lemma stored_get c k v d now : stored c k v d → now < d → (CacheAdapter_Get now k c).1 = Ok (decoded v).
Proof.
  intros (s & Hm & Hh) Hd. unfold CacheAdapter_Get, bind. pose proof (cache_Get_has c k s d now Hh Hd) as Hg.
  destruct (cache_Get now k c) as [[x|e] c']; [|done]. injection Hg as ->.
  by rewrite (any_roundtrip v s Hm).
Qed.
Lemma absent_get c k now : cabs c k → is_ok (CacheAdapter_Get (V:=V) now k c).1 = false.
Proof.
  intros Ha. unfold CacheAdapter_Get, bind. pose proof (cache_Get_abs c k now Ha) as Hg.
  by destruct (cache_Get now k c) as [[x|e] c'].
Qed.
Lemma adapter_Get_keeps c k now : ckeeps now (λ _, True) c (CacheAdapter_Get (V:=V) now k c).2.
Proof.
  unfold CacheAdapter_Get, bind. pose proof (cache_Get_keeps c k now) as Hk.
  destruct (cache_Get now k c) as [[x|e] c']; [|done]. by destruct (any_Unmarshal x).
Qed.
Lemma stored_keeps now P c c' k v d : ckeeps now P c c' → P k → now < d → stored c k v d → stored c' k v d.
Proof. intros [Hk _] HP Hd (s & Hm & Hh). exists s. split; [done | by apply Hk]. Qed.

(** A successful [Set] has stored the encoding: strings never take the
    branch for values that cannot be encoded. *)
Lemma adapter_Set_stored c c' k v ttl now : 0 < ttl → CacheAdapter_Set now k v ttl c = (Ok tt, c') →
  stored c' k v (now + ttl).
Proof.
  intros Ht Hs. unfold CacheAdapter_Set in Hs. destruct (any_Marshal v) as [s|e] eqn:Em.
  - exists s. split; [done | by eapply cache_Set_has].
  - destruct (any_str v) as [t|] eqn:Et; [|done]. apply any_str_Marshal in Et. by rewrite Em in Et.
Qed.
Lemma adapter_Set_keeps c k v ttl now : ckeeps now (λ k', k' ≠ k) c (CacheAdapter_Set (V:=V) now k v ttl c).2.
Proof.
  unfold CacheAdapter_Set. destruct (any_Marshal v) as [s|e]; [apply cache_Set_keeps|].
  destruct (any_str v); [apply cache_Set_keeps|]. split; auto.
Qed.

Lemma SetMultiple_keeps now items ttl (c c' : C) :
  SetMultiple now items ttl c = (Ok tt, c') → ckeeps now (λ k, k ∉ items.*1) c c'.
Proof.
  unfold SetMultiple. revert c. induction items as [|[k v] items IH]; intros c Hs; simpl in Hs.
  - injection Hs as <-. split; auto.
  - apply bind_ok_inv in Hs as ([] & c1 & Hset & Hs). pose proof (adapter_Set_keeps c k v ttl now) as [Hk1 Hk2].
    rewrite Hset in Hk1, Hk2. destruct (IH c1 Hs) as [Hr1 Hr2]. split.
    + intros k' x d Hn Hd Hc. apply not_elem_of_cons in Hn as [Hne Hn]. apply Hr1; auto.
    + intros k' Hn Hc. apply not_elem_of_cons in Hn as [Hne Hn]. apply Hr2; auto.
Qed.
Lemma SetMultiple_stored now items ttl (c c' : C) k v : 0 < ttl → NoDup items.*1 → (k, v) ∈ items →
  SetMultiple now items ttl c = (Ok tt, c') → stored c' k v (now + ttl).
Proof.
  intros Ht. revert c. induction items as [|[k0 v0] items IH]; intros c Hnd Hin Hs.
  - by apply elem_of_nil in Hin.
  - apply NoDup_cons in Hnd as [Hnot Hnd]. unfold SetMultiple in Hs. simpl in Hs.
    apply bind_ok_inv in Hs as ([] & c1 & Hset & Hs). apply elem_of_cons in Hin as [[= -> ->]|Hin].
    + eapply stored_keeps; [by eapply SetMultiple_keeps | done | lia | by eapply adapter_Set_stored].
    + by eapply IH.
Qed.

(** [get_each] answers for the stored keys and keeps to the ones asked. *)
Lemma get_each_spec now keys (result : gmap string V) (c : C) :
  ∃ m c', get_each now keys result c = (Ok m, c') ∧
  (∀ k, k ∉ keys → m !! k = result !! k) ∧
  (∀ k v d, k ∈ keys → stored c k v d → now < d → m !! k = Some (decoded v)) ∧
  (∀ k, cabs c k → m !! k = result !! k).
Proof.
  revert result c. induction keys as [|key keys IH]; intros result c; simpl.
  - exists result, c. split_and!; try done. by intros k v d ?%elem_of_nil.
  - rewrite bind_attempt. destruct (adapter_Get_keeps c key now) as [Hk1 Hk2].
    pose proof (λ v d, stored_get c key v d now) as Hst. pose proof (absent_get c key now) as Hab.
    destruct (CacheAdapter_Get now key c) as [r c1]; cbn [fst snd] in *.
    set (result' := match r with Ok v => <[key:=v]> result | Err _ => result end).
    destruct (IH result' c1) as (m & c' & Hrun & Hother & Hin & Habs).
    exists m, c'. split; [by destruct r|]. split_and!.
    + intros k [Hne Hn]%not_elem_of_cons. rewrite Hother by done. unfold result'. destruct r; [|done].
      by rewrite lookup_insert_ne.
    + intros k v d Hk Hs Hd.
      assert (stored c1 k v d) as Hs1 by (destruct Hs as (s & Hm & Hh); exists s; split; [done | by apply Hk1]).
      destruct (decide (k ∈ keys)) as [|Hn]; [by eapply Hin|].
      apply elem_of_cons in Hk as [->|]; [|done]. rewrite Hother by done. unfold result'.
      rewrite (Hst v d Hs Hd). apply lookup_insert_eq.
    + intros k Ha. rewrite Habs by (by apply Hk2). unfold result'. destruct r as [x|]; [|done].
      destruct (decide (k = key)) as [->|]; [by apply Hab in Ha | by rewrite lookup_insert_ne].
Qed.
End adapter_lemmas.

(** ** Properties *)

Section stats_lemmas.
Context {B R : Type} `{BigCacheLib B} `{RedisKV R} `{EntryJson} `{BigCounters B} `{RedisInfo R}.

Lemma Stats_totals now (w : CacheManagerImpl B R) : ∃ st w',
  CacheManagerImpl_Stats now w = (Ok st, w') ∧ Hits st = total_hits w ∧ Misses st = total_misses w ∧
  HitRatio st = hit_ratio (total_hits w) (total_misses w).
Proof.
  unfold CacheManagerImpl_Stats, RedisCacheImpl_Stats. rewrite bind_gets. unfold on_l2, bind at 1.
  rewrite zoom_eq, bind_gets, bind_attempt. eexists _, _. split; [reflexivity|]. done.
Qed.

Lemma reads_totals rs : ∀ (w : CacheManagerImpl B R), Forall (λ r, r.2 ≠ "") rs →
  ∃ refills : nat,
  total_hits (reads rs w).2 = wrap64 (total_hits w + answers (reads rs w).1) ∧
  total_misses (reads rs w).2 = wrap64 (total_misses w +
    (2 * (Z.of_nat (length rs) - answers (reads rs w).1) + Z.of_nat refills)) ∧
  length (pending (reads rs w).2) = (length (pending w) + refills)%nat.
Proof.
  unfold answers. induction rs as [|[now k] rs IH]; intros w Hne.
  - exists 0%nat. unfold total_hits, total_misses. simpl. rewrite !wrap64_add. repeat split; f_equal; lia.
  - inversion Hne as [|? ? Hk Hne']; subst. simpl in *. destruct (Get_counts now k w Hk) as (n & Hh & Hm & Hp).
    destruct (CacheManagerImpl_Get now k w) as [r w1]. cbn [fst snd] in *.
    destruct (IH w1 Hne') as (n' & IHh & IHm & IHp).
    destruct (reads rs w1) as [l w2]. cbn [fst snd List.filter length] in *. exists (n + n')%nat.
    rewrite IHh, IHm, IHp, Hh, Hm, Hp, !wrap64_add.
    destruct (is_ok r); cbn [length]; repeat split; try apply (f_equal wrap64); lia.
Qed.
End stats_lemmas.

(** The statistics of the cache manager count lookups of its levels.
    Whatever is read, the hits grow by the number of reads that were answered,
    and the misses by two for every read that was not and by one for every
    answer that came from the second level, each of which has started a
    refill; so a cache that answers every read from Redis reports a hit ratio
    of one half. *)
Theorem reads_are_counted {B R} `{BigCacheLib B} `{RedisKV R} `{EntryJson} `{BigCounters B} `{RedisInfo R}
    rs now (w w' : CacheManagerImpl B R) l :
  Forall (λ r, r.2 ≠ "") rs → reads rs w = (l, w') →
  ∃ st0 w0 st w1 (refills : nat),
    CacheManagerImpl_Stats now w = (Ok st0, w0) ∧ CacheManagerImpl_Stats now w' = (Ok st, w1) ∧
    length (pending w') = (length (pending w) + refills)%nat ∧
    Hits st = wrap64 (Hits st0 + answers l) ∧
    Misses st = wrap64 (Misses st0 + (2 * (Z.of_nat (length rs) - answers l) + Z.of_nat refills)) ∧
    (Hits st0 = 0 → Misses st0 = 0 → (0 < refills)%nat → refills = length rs →
     answers l = Z.of_nat refills → 2 * Z.of_nat refills <= max_int →
     HitRatio st = Quotient (Z.of_nat refills) (2 * Z.of_nat refills)).
Proof.
  intros Hne Hr. destruct (reads_totals rs w Hne) as (n & Hh & Hm & Hp). rewrite Hr in *. simpl in *.
  destruct (Stats_totals now w) as (st0 & w0 & Hs0 & Hh0 & Hm0 & _).
  destruct (Stats_totals now w') as (st & w1 & Hs & Hh1 & Hm1 & Hq).
  exists st0, w0, st, w1, n. rewrite Hh0, Hm0, Hh1, Hm1, Hq. split_and!; try done.
  intros E0 E1 Hpos Hn Ha Hmax. rewrite Hh, Hm, E0, E1, Ha, <- Hn. unfold max_int in Hmax.
  assert (Hw : wrap64 (Z.of_nat n) = Z.of_nat n) by (apply wrap64_small; unfold min_int, max_int; lia).
  replace (2 * (Z.of_nat n - Z.of_nat n) + Z.of_nat n) with (Z.of_nat n) by lia.
  rewrite !Z.add_0_l, Hw. unfold hit_ratio. cbv zeta.
  replace (Z.of_nat n + Z.of_nat n) with (2 * Z.of_nat n) by lia.
  rewrite wrap64_small by (unfold min_int, max_int; lia).
  by destruct (Z.ltb_spec 0 (2 * Z.of_nat n)); [|lia].
Qed.

(** Closing the cache manager leaves the goroutine of its invalidator
    running.  Whatever happens to a manager after its construction, closing
    it included, as long as the invalidator itself is not stopped, which
    nothing in the program does, its loop does not return and can always
    start the scheduled invalidations that are due, against stores that are
    closed; and closing the manager a second time panics. *)
Theorem closed_manager_keeps_invalidating {B R} `{CacheDrivers B R} `{BigClose B} `{RedisClose R}
    config opened opened' (s0 s : LiveManager B R) es :
  NewCacheManager config opened = (Ok s0, opened') →
  LStopInvalidator ∉ es → live_run es s0 = Some s →
  lm_invalidationLoop s ≠ Returned ∧
  (∀ now, ∃ es' s', LStopInvalidator ∉ es' ∧ live_run es' s = Some s' ∧
     lm_jobs s' = processScheduledInvalidations now (lm_jobs s)) ∧
  (LClose ∈ es → (Close s).1 = Err None).
Proof.
  intros Hnew Hn Hr. destruct (default_caches _ _ _ _ Hnew) as (_ & _ & Hiv & _).
  pose proof (live_run_invalidating _ _ _ Hn Hr Hiv) as Hs. split_and!.
  - destruct (iv_loop _ Hs) as [E|E]; by rewrite E.
  - intros now. by apply next_invalidation.
  - intros Hc. apply Close_again. eapply live_run_stopped; [exact Hr | by right].
Qed.

(** Stopping the cache warmer can kill the process.  As long as
    [StopWarming] is not called no goroutine panics and there is at most one
    scheduler loop; but if it is called when that loop has not entered its
    [select] yet, or is processing jobs, the loop next reads the ticker the
    call has set to nil, and a panic of a goroutine ends the process. *)
Theorem stopping_the_warmer_can_crash es s i :
  WStop ∉ es → warm_run es no_warm_loops = Some s →
  wl_crashed s = false ∧ (length (wl_loops s) <= 1)%nat ∧
  (wl_loops s !! i = Some Entering →
     ∃ s', warm_run [WStop; WEnter i] s = Some s' ∧ wl_crashed s' = true) ∧
  (wl_loops s !! i = Some Running →
     ∃ s', warm_run [WStop; WBody i; WEnter i] s = Some s' ∧ wl_crashed s' = true).
Proof.
  intros Hn Hr. pose proof (warm_run_ok _ _ _ Hn Hr no_warm_loops_ok) as Hok.
  split; [apply Hok|]. split; [apply Hok|]. by apply stop_then_crash.
Qed.

(** C36: what is stored through the cache adapter is read back through it.
    Over any cache manager that keeps its promises, when a [SetMultiple]
    succeeds, in whatever order it walked its map, [GetMultiple] at any time
    before the deadline answers every stored key it is asked for with the
    value its encoding stands for, and answers nothing for keys it was not
    asked for and for absent keys that were not stored. *)
Theorem adapter_roundtrip {C V} `{CacheLaws C} `{AnyJsonLaws V} now now' items keys ttl (c c' : C) :
  0 < ttl → now' < now + ttl → NoDup items.*1 →
  SetMultiple now items ttl c = (Ok tt, c') →
  ∃ (m : gmap string V) c'', GetMultiple now' keys c' = (Ok m, c'') ∧
    (∀ k v, (k, v) ∈ items → k ∈ keys → m !! k = Some (decoded v)) ∧
    (∀ k, k ∉ keys ∨ cabs c k ∧ k ∉ items.*1 → m !! k = None).
Proof.
  intros Ht Hd Hnd Hs. destruct (get_each_spec now' keys ∅ c') as (m & c'' & Hrun & Hother & Hin & Habs).
  exists m, c''. split; [done|]. split.
  - intros k v Hkv Hk. eapply Hin; [done | by eapply SetMultiple_stored | done].
  - intros k [Hk|[Ha Hk]]; [by rewrite Hother|]. rewrite Habs; [done|].
    destruct (SetMultiple_keeps _ _ _ _ _ Hs) as [_ Hkeep]. by apply Hkeep.
Qed.

(** ** Witnesses *)

#[local] Existing Instances Cache.ref_entry_json Cache.ref_big_lib Cache.ref_kv_lib.
#[local] Instance ref_big_counters : BigCounters ref_big := {
  big_hits _ := 0; big_misses _ := 0; big_len b := Z.of_nat (size b) }.
#[local] Instance ref_info : RedisInfo ref_kv := { rc_Info := ret ["# Memory"; "used_memory:1024"] }.
#[local] Instance ref_big_close : BigClose ref_big := { big_Close := ret tt }.
#[local] Instance ref_redis_close : RedisClose ref_kv := { rc_Close := ret tt }.
#[local] Instance ref_drivers : CacheDrivers ref_big ref_kv := {
  bigcache_New _ := Ok ∅; redis_Dial _ := ∅; redis_Ping _ := Ok tt }.

(** A value that only Redis holds is read three times before a refill runs. *)
Definition ref_reads : list (Z * string) := [(1, "k"); (2, "k"); (3, "k")].
Definition ref_cold : RM :=
  mkCacheManager (l1Cache ref_evicted) (mkRedisCacheImpl (rc_client (l2Cache ref_evicted)) no_stats)
    WriteThrough ∅ [].
Definition ref_read : list (res error string) * RM := reads ref_reads ref_cold.

Example reads_are_counted_witness : ∃ l w',
  reads ref_reads ref_cold = (l, w') ∧ answers l = 3 ∧
  ∃ st0 w0 st w1 (refills : nat),
    CacheManagerImpl_Stats 4 ref_cold = (Ok st0, w0) ∧ CacheManagerImpl_Stats 4 w' = (Ok st, w1) ∧
    length (pending w') = (length (pending ref_cold) + refills)%nat ∧
    Hits st = wrap64 (Hits st0 + answers l).
Proof.
  exists ref_read.1, ref_read.2.
  assert (Hr : reads ref_reads ref_cold = (ref_read.1, ref_read.2)) by (unfold ref_read; apply surjective_pairing).
  split; [exact Hr|]. split; [vm_compute; reflexivity|].
  assert (Hne : Forall (λ r : Z * string, r.2 ≠ "") ref_reads) by (repeat constructor; done).
  destruct (reads_are_counted ref_reads 4 ref_cold ref_read.2 ref_read.1 Hne Hr)
    as (st0 & w0 & st & w1 & n & H0 & H1 & H2 & H3 & _).
  exists st0, w0, st, w1, n. split; [exact H0|]. split; [exact H1|]. split; [exact H2 | exact H3].
Defined.

Definition ref_cache_config : CacheConfig := server_cache_config "localhost" "6379" "" 0.
Definition ref_live : LiveManager ref_big ref_kv :=
  mkLive (mkJobs (mkCacheManager (mkBigCacheImpl ∅ no_stats) (mkRedisCacheImpl ∅ no_stats) WriteThrough ∅ [])
            ∅ false false [] ∅ [])
    (<["l2" := HandleL2]> (<["l1" := HandleL1]> ∅)) ref_cache_config
    (Some new_ticker) Selecting false new_ticker Selecting false.
Definition ref_closed : LiveManager ref_big ref_kv := (Close ref_live).2.
Lemma ref_new_run : NewCacheManager ref_cache_config [] = (Ok ref_live, [∅]).
Proof. reflexivity. Qed.
Lemma ref_close_run : live_run [LClose] ref_live = Some ref_closed.
Proof. reflexivity. Qed.

Example closed_manager_keeps_invalidating_witness :
  lm_invalidationLoop ref_closed ≠ Returned ∧
  (∀ now, ∃ es' s', LStopInvalidator ∉ es' ∧ live_run es' ref_closed = Some s' ∧
     lm_jobs s' = processScheduledInvalidations now (lm_jobs ref_closed)) ∧
  (Close ref_closed).1 = Err None.
Proof.
  assert (Hn : LStopInvalidator ∉ [LClose]) by (by intros [?|?%elem_of_nil]%elem_of_cons).
  destruct (closed_manager_keeps_invalidating ref_cache_config [] [∅] ref_live ref_closed [LClose]
              ref_new_run Hn ref_close_run) as (H1 & H2 & H3).
  split; [exact H1|]. split; [exact H2|]. apply H3. left.
Defined.

Example stopping_the_warmer_can_crash_witness : ∃ s,
  warm_run [WSchedule; WEnter 0; WFire 0; WTick 0] no_warm_loops = Some s ∧
  ∃ s', warm_run [WStop; WBody 0; WEnter 0] s = Some s' ∧ wl_crashed s' = true.
Proof.
  eexists. split; [reflexivity|].
  assert (Hn : WStop ∉ [WSchedule; WEnter 0; WFire 0; WTick 0])
    by (rewrite list_elem_of_In; simpl; intuition discriminate).
  apply (stopping_the_warmer_can_crash [WSchedule; WEnter 0; WFire 0; WTick 0] _ 0 Hn eq_refl).
  reflexivity.
Defined.

(** Strings as the only values, encoded behind a mark. *)
#[local] Instance ref_any_json : AnyJson string := {
  any_Marshal s := Ok ("j" +:+ s);
  any_Unmarshal t := if HasPrefix t "j" then Ok (TrimPrefix t "j") else Err (ErrorString "invalid character");
  any_str s := Some s; any_of_str s := s }.
#[local, refine] Instance ref_any_json_laws : AnyJsonLaws string := { decoded s := s }.
Proof.
  - intros v s [= <-]. assert (Hp : HasPrefix ("j" +:+ v) "j" = true) by (apply HasPrefix_spec; by exists v).
    change ((if HasPrefix ("j" +:+ v) "j" then Ok (TrimPrefix ("j" +:+ v) "j")
             else Err (ErrorString "invalid character")) = Ok (E:=error) v).
    by rewrite Hp, TrimPrefix_app.
  - done.
Defined.
#[local] Existing Instances ref_cache_ops ref_cache_laws.
Definition ref_items : list (string * string) := [("a", "1"); ("b", "2")].
Definition ref_filled : ref_cache := (SetMultiple 0 ref_items Minute (∅ : ref_cache)).2.
Lemma ref_filled_run : SetMultiple 0 ref_items Minute (∅ : ref_cache) = (Ok tt, ref_filled).
Proof. reflexivity. Qed.

Example adapter_roundtrip_witness : ∃ (m : gmap string string) c'',
  GetMultiple Second ["b"; "c"] ref_filled = (Ok m, c'') ∧ m !! "b" = Some "2" ∧ m !! "a" = None.
Proof.
  assert (Hnd : NoDup ref_items.*1) by (apply (bool_decide_unpack _); vm_compute; exact I).
  destruct (adapter_roundtrip 0 Second ref_items ["b"; "c"] Minute ∅ ref_filled eq_refl eq_refl Hnd ref_filled_run)
    as (m & c'' & Hg & Hin & Hout).
  exists m, c''. split; [exact Hg|]. split.
  - apply (Hin "b" "2"); [right; left | left].
  - apply Hout. left. rewrite list_elem_of_In. simpl. intuition discriminate.
Defined.
