(* ===== verification/HashPool.v ===== *)
(** * The hashing pool and the managers of the pools
    (src/internal/application/services/specialized_worker_pools.go, worker_pool.go)

    [PasswordHashingPool] composes a worker pool (WorkerPool.v) whose jobs are
    hashing requests with the hashing limiter (SpecializedPools.v); what one
    request is answered is [processHashingRequest] of AuthService.v.  As in
    those files a run is any sequence of enabled events: a worker that took a
    request first passes the limiter, then hashes, and then is free again.
    [WorkerPoolManager] and [SpecializedWorkerPoolManager] start, stop and
    measure sets of pools. *)

From S2P Require Import Prelude Errors Models Ifaces WorkerPool Permission SpecializedPools AuthService.

#[local] Open Scope Z_scope.

(** ** The hashing pool *)

Record PasswordHashRequest := mkHashRequest {
  hrq_Password : string; hrq_RequestID : uuid; hrq_UserID : uuid; hrq_Timestamp : Z }.
Record PasswordHashResult := mkHashResult {
  hrs_Hash : string; hrs_Error : option error; hrs_Duration : Z; hrs_RequestID : uuid }.
Record PasswordHashingMetrics := mkHashingMetrics {
  HashingRequests : Z; HashingCompleted : Z; HashingFailed : Z; AverageHashTime : Z; TotalHashTime : Z }.

(** [updateHashingMetrics]: the average is the total over the completed. *)
Definition updateHashingMetrics (duration : Z) (m : PasswordHashingMetrics) : PasswordHashingMetrics :=
  let '(mkHashingMetrics rq co fa av to) := m in
  let to' := wrap64 (to + duration) in
  mkHashingMetrics rq co fa (if (0 <? co)%Z then Z.quot to' co else av) to'.
Definition count_request (m : PasswordHashingMetrics) : PasswordHashingMetrics :=
  let '(mkHashingMetrics rq co fa av to) := m in mkHashingMetrics (wrap64 (rq + 1)) co fa av to.
Definition count_failed (m : PasswordHashingMetrics) : PasswordHashingMetrics :=
  let '(mkHashingMetrics rq co fa av to) := m in mkHashingMetrics rq co (wrap64 (fa + 1)) av to.
Definition count_completed (duration : Z) (m : PasswordHashingMetrics) : PasswordHashingMetrics :=
  let '(mkHashingMetrics rq co fa av to) := m in
  updateHashingMetrics duration (mkHashingMetrics rq (wrap64 (co + 1)) fa av to).

(** [php_hashing]: the workers past the limiter; [php_answered]: those whose
    processing has returned and that finish next.  [php_results] is the
    history of what the result channels took, each of capacity one;
    [php_requested] and [php_refused] are the histories of the requests and of
    those the pool did not take. *)
Record PasswordHashingPool := mkHashPool {
  php_pool : WorkerPool PasswordHashRequest; php_rateLimiter : HashingRateLimiter;
  php_metrics : PasswordHashingMetrics; php_done : list uuid (* contexts that have ended *);
  php_hashing : gset nat; php_answered : gset nat;
  php_results : list (PasswordHashRequest * PasswordHashResult);
  php_requested : list PasswordHashRequest; php_refused : list PasswordHashRequest }.

Definition NewPasswordHashingPool (size : nat) : PasswordHashingPool :=
  mkHashPool (NewWorkerPool size) (NewHashingRateLimiter (size * 2)) (mkHashingMetrics 0 0 0 0 0) []
    ∅ ∅ [] [] [].

(** [HashPasswordAsync]: the request is counted before the pool is asked. *)
Definition HashPasswordAsync (request : PasswordHashRequest) (c : submit_case) (s : PasswordHashingPool)
    : option PasswordHashingPool :=
  let '(mkHashPool po li m dn ha an re rq rf) := s in
  po' ← Submit request c po;
  Some (mkHashPool po' li (count_request m) dn ha an re (rq ++ [request])
          (if (length (wp_accepted po) <? length (wp_accepted po'))%nat then rf else rf ++ [request])).

(** The request a worker works on. *)
Definition request_of (i : nat) (s : PasswordHashingPool) : option PasswordHashRequest :=
  match wp_workers (php_pool s) !! i with Some (Busy request) => Some request | _ => None end.
Definition context_done (request : PasswordHashRequest) (s : PasswordHashingPool) : bool :=
  existsb (N.eqb (hrq_RequestID request)) (php_done s).

(** [processHashingRequest], first part: the limiter.  The message that the
    limit is exceeded is sent without looking at the context: the channel has
    room. *)
Definition pass_limiter (i : nat) (slot : bool) (s : PasswordHashingPool) : option PasswordHashingPool :=
  request ← request_of i s;
  if bool_decide (i ∈ php_hashing s) || bool_decide (i ∈ php_answered s) then None
  else if negb slot && negb (context_done request s) then None
  else
    r ← Acquire slot (php_rateLimiter s);
    let '(acquired, li) := r in
    let '(mkHashPool po _ m dn ha an re rq rf) := s in
    if acquired : bool then Some (mkHashPool po li m dn ({[i]} ∪ ha) an re rq rf)
    else Some (mkHashPool po li (count_failed m) dn ha ({[i]} ∪ an)
                 (re ++ [(request, mkHashResult "" (Some (ErrorString "hashing rate limit exceeded")) 0
                                     (hrq_RequestID request))]) rq rf).

Section hashing.
Context `{CryptoLib}.

(** Second part: the hash, the counters, and the [select] that sends the
    result or, when the context has ended, may drop it; the deferred
    [Release] runs last. *)
Definition hash_result (request : PasswordHashRequest) (duration : Z) : PasswordHashResult :=
  match processHashingRequest true (hrq_Password request) with
  | Ok hash => mkHashResult hash None duration (hrq_RequestID request)
  | Err err => mkHashResult "" (Some err) duration (hrq_RequestID request)
  end.
Definition finish_hashing (i : nat) (duration : Z) (sent : bool) (s : PasswordHashingPool)
    : option PasswordHashingPool :=
  request ← request_of i s;
  if negb (bool_decide (i ∈ php_hashing s)) then None
  else if negb sent && negb (context_done request s) then None
  else
    let '(mkHashPool po li m dn ha an re rq rf) := s in
    let result := hash_result request duration in
    let m' := match hrs_Error result with Some _ => count_failed m | None => count_completed duration m end in
    Some (mkHashPool po (Release li) m' dn (ha ∖ {[i]}) ({[i]} ∪ an)
            (if sent then re ++ [(request, result)] else re) rq rf).

(** The pool's own events; a worker is free again when its processing has
    returned. *)
Definition hash_pool_event (e : WorkerPool.event PasswordHashRequest) (s : PasswordHashingPool)
    : option PasswordHashingPool :=
  if is_submission e then None
  else
    po ← wstep e (php_pool s);
    let '(mkHashPool _ li m dn ha an re rq rf) := s in
    match e with
    | EvFinish i _ =>
        if bool_decide (i ∈ an) then Some (mkHashPool po li m dn ha (an ∖ {[i]}) re rq rf) else None
    | _ => Some (mkHashPool po li m dn ha an re rq rf)
    end.

Inductive hash_event :=
| HRequest (request : PasswordHashRequest) (c : submit_case)   (* a caller *)
| HContext (id : uuid)                                         (* a context ends *)
| HLimiter (i : nat) (slot : bool)
| HHashed (i : nat) (duration : Z) (sent : bool)
| HPool (e : WorkerPool.event PasswordHashRequest).

Definition hstep (e : hash_event) (s : PasswordHashingPool) : option PasswordHashingPool :=
  match e with
  | HRequest request c => HashPasswordAsync request c s
  | HContext id =>
      let '(mkHashPool po li m dn ha an re rq rf) := s in
      Some (mkHashPool po li m (id :: dn) ha an re rq rf)
  | HLimiter i slot => pass_limiter i slot s
  | HHashed i duration sent => finish_hashing i duration sent s
  | HPool e => hash_pool_event e s
  end.
Fixpoint hrun (es : list hash_event) (s : PasswordHashingPool) : option PasswordHashingPool :=
  match es with [] => Some s | e :: es' => hstep e s ≫= hrun es' end.
End hashing.

(** [GetMetrics] of the three pools return what was counted. *)
Definition GetHashingMetrics (s : PasswordHashingPool) : PasswordHashingMetrics := php_metrics s.
Definition GetWarmingMetrics (s : CacheWarmingPool) : CacheWarmingMetrics := cwp_metrics s.
Definition GetAuditMetrics (s : AuditLoggingPool) : AuditLoggingMetrics := alp_metrics s.

(** ** The managers *)

Record pool_status := mkStatus {
  ps_name : string; ps_size : nat; ps_started : bool; ps_metrics : WorkerPoolMetrics }.
Definition GetStatus {J} (name : string) (s : WorkerPool J) : pool_status :=
  mkStatus name (wp_size s) (wp_started s) (GetMetrics s).

(** A call of [Stop] from its entry to its return: nothing on a pool that is
    not started; otherwise the signal, whatever the workers do until all have
    exited, and the close (a second close would panic). *)
Inductive stops {J} (s : WorkerPool J) : WorkerPool J → Prop :=
| stops_idle : wp_stopping s = false → wp_started s = false → stops s s
| stops_waits s1 es s2 s' : Stop_signal s = Some s1 → wp_stopping s1 = true → wrun es s1 = Some s2 →
    wp_stopping s2 = true → wp_closed s2 = false → Stop_close s2 = Some s' → stops s s'.

Section manager.
Context {J : Type}.
Abbreviation Pools := (gmap string (WorkerPool J)).

(** [range] walks the names in some order. *)
Fixpoint StartAll (order : list string) (pools : Pools) : option Pools :=
  match order with
  | [] => Some pools
  | name :: rest =>
      match pools !! name with
      | Some pool => pool' ← Start pool; StartAll rest (<[name := pool']> pools)
      | None => StartAll rest pools
      end
  end.
Inductive StopAll : list string → Pools → Pools → Prop :=
| StopAll_done pools : StopAll [] pools pools
| StopAll_next name rest pools pool pool' pools' : pools !! name = Some pool → stops pool pool' →
    StopAll rest (<[name := pool']> pools) pools' → StopAll (name :: rest) pools pools'.
Definition GetAllMetrics (pools : Pools) : gmap string WorkerPoolMetrics := GetMetrics <$> pools.
Definition GetAllStatus (pools : Pools) : gmap string pool_status := map_imap (λ name p, Some (GetStatus name p)) pools.
End manager.

Record SpecializedWorkerPoolManager (J : Type) := mkSpecialized {
  sm_pools : gmap string (WorkerPool J);
  sm_passwordPool : PasswordHashingPool; sm_cachePool : CacheWarmingPool; sm_auditPool : AuditLoggingPool }.
Arguments mkSpecialized {J}. Arguments sm_pools {J}. Arguments sm_passwordPool {J}.
Arguments sm_cachePool {J}. Arguments sm_auditPool {J}.

Definition NewSpecializedWorkerPoolManager {J} : SpecializedWorkerPoolManager J :=
  mkSpecialized ∅ (NewPasswordHashingPool 5) (NewCacheWarmingPool 10) (NewAuditLoggingPool 3).

(** [Start] of the embedded pools. *)
Definition on_hash_pool (po : WorkerPool PasswordHashRequest) (s : PasswordHashingPool) : PasswordHashingPool :=
  let '(mkHashPool _ li m dn ha an re rq rf) := s in mkHashPool po li m dn ha an re rq rf.
Definition on_cache_pool (po : WorkerPool CacheWarmingTask) (s : CacheWarmingPool) : CacheWarmingPool :=
  mkWarmingPool po (cwp_scheduler s) (cwp_metrics s).
Definition on_audit_pool (po : WorkerPool (list AuditEvent)) (s : AuditLoggingPool) : AuditLoggingPool :=
  mkAuditPool po (alp_batchProcessor s) (alp_metrics s) (alp_logged s) (alp_rejected s).

Definition StartSpecializedPools {J} (s : SpecializedWorkerPoolManager J)
    : option (SpecializedWorkerPoolManager J) :=
  p1 ← Start (php_pool (sm_passwordPool s));
  p2 ← Start (cwp_pool (sm_cachePool s));
  p3 ← Start (alp_pool (sm_auditPool s));
  Some (mkSpecialized (sm_pools s) (on_hash_pool p1 (sm_passwordPool s)) (on_cache_pool p2 (sm_cachePool s))
          (on_audit_pool p3 (sm_auditPool s))).
Inductive StopSpecializedPools {J} (s : SpecializedWorkerPoolManager J) : SpecializedWorkerPoolManager J → Prop :=
| StopSpecialized p1 p2 p3 : stops (php_pool (sm_passwordPool s)) p1 → stops (cwp_pool (sm_cachePool s)) p2 →
    stops (alp_pool (sm_auditPool s)) p3 →
    StopSpecializedPools s (mkSpecialized (sm_pools s) (on_hash_pool p1 (sm_passwordPool s))
      (on_cache_pool p2 (sm_cachePool s)) (on_audit_pool p3 (sm_auditPool s))).

Record AllMetrics := mkAllMetrics {
  am_password_hashing : PasswordHashingMetrics; am_cache_warming : CacheWarmingMetrics;
  am_audit_logging : AuditLoggingMetrics; am_base_pools : gmap string WorkerPoolMetrics }.
Definition GetAllSpecializedMetrics {J} (s : SpecializedWorkerPoolManager J) : AllMetrics :=
  mkAllMetrics (GetHashingMetrics (sm_passwordPool s)) (GetWarmingMetrics (sm_cachePool s))
    (GetAuditMetrics (sm_auditPool s)) (GetAllMetrics (sm_pools s)).

(** ** Lemmas *)

Lemma size_below n (X : gset nat) : (∀ j, j ∈ X → (j < n)%nat) → (size X <= n)%nat.
Proof.
  intros Hb. pose proof (length_seq n 0) as Hn. rewrite <- Hn. unfold size, set_size. simpl.
  apply submseteq_length, NoDup_submseteq; [apply NoDup_elements|].
  intros j Hj%elem_of_elements. apply elem_of_seq. specialize (Hb j Hj). lia.
Qed.
Lemma size_below_other n (X : gset nat) i : (∀ j, j ∈ X → (j < n)%nat) → (i < n)%nat → i ∉ X → (size X < n)%nat.
Proof.
  intros Hb Hi Hn. assert (Hs : (size ({[i]} ∪ X) <= n)%nat).
  { apply size_below. intros j [->%elem_of_singleton|Hj]%elem_of_union; auto. }
  rewrite size_union, size_singleton in Hs by set_solver. lia.
Qed.

Lemma wstep_size {J} (e : WorkerPool.event J) s s' : wstep e s = Some s' → wp_size s' = wp_size s.
Proof.
  intros H. destruct s as [n st sp q cl qu ca ws [su co pr aw ql av] ac ex pa].
  destruct e; simpl in *;
    unfold Start, Submit, SubmitWithTimeout, send, Stop_signal, Stop_close, worker_take, executeJob_end,
      worker_quit in H; simpl in H; repeat case_match; simplify_eq; done.
Qed.

(** Only finishing frees a busy worker. *)
Lemma wstep_busy {J} (e : WorkerPool.event J) s s' i job : wstep e s = Some s' → pool_ok s →
  (∀ d, e ≠ EvFinish i d) → wp_workers s !! i = Some (Busy job) → wp_workers s' !! i = Some (Busy job).
Proof.
  intros H Hok Hn Hi. pose proof (ok_restart _ Hok) as Hre.
  destruct s as [n st sp q cl qu ca ws [su co pr aw ql av] ac ex pa].
  destruct e; simpl in *;
    unfold Start, Submit, SubmitWithTimeout, send, Stop_signal, Stop_close, worker_take, executeJob_end,
      worker_quit in H; simpl in H; repeat case_match; simplify_eq; simpl in *; try done;
    try (destruct (Hre eq_refl) as [_ Hex]; by apply (exited_idle _ _ _ Hex) in Hi);
    destruct (decide (i = i0)) as [->|Hne]; simplify_eq; try (by rewrite list_lookup_insert_ne);
    by destruct (Hn dur).
Qed.

Record hash_ok `{CryptoLib} (s : PasswordHashingPool) : Prop := {
  hk_pool : pool_ok (php_pool s);
  hk_busy i : i ∈ php_hashing s ∪ php_answered s → is_Some (request_of i s);
  hk_disj : php_hashing s ## php_answered s;
  hk_semaphore : hrl_semaphore (php_rateLimiter s) = size (php_hashing s);
  hk_current : hrl_current (php_rateLimiter s) = Z.of_nat (size (php_hashing s));
  hk_max : hrl_maxConcurrent (php_rateLimiter s) = (wp_size (php_pool s) * 2)%nat;
  hk_requests : HashingRequests (php_metrics s) = wrap64 (Z.of_nat (length (php_requested s)));
  hk_answers : wrap64 (HashingCompleted (php_metrics s) + HashingFailed (php_metrics s)) =
    wrap64 (Z.of_nat (length (wp_executed (php_pool s)) + size (php_answered s)));
  hk_accepted : length (php_requested s) = (length (wp_accepted (php_pool s)) + length (php_refused s))%nat;
  hk_results : Forall (λ r, hrs_RequestID r.2 = hrq_RequestID r.1 ∧
      ((∃ d, r.2 = hash_result r.1 d) ∨
       hrs_Error r.2 = Some (ErrorString "hashing rate limit exceeded") ∧ context_done r.1 s = true))
    (php_results s) }.

Section lemmas.
Context `{CryptoLib}.

Lemma hash_ok_new n : hash_ok (NewPasswordHashingPool n).
Proof. split; simpl; try done. apply pool_ok_new. Qed.

Lemma busy_bound i s : pool_ok (php_pool s) → is_Some (request_of i s) → (i < length (wp_workers (php_pool s)))%nat.
Proof.
  unfold request_of. intros Hok [r Hr]. destruct (wp_workers _ !! i) eqn:E; [|done]. by eapply lookup_lt_Some.
Qed.

(** Fewer requests are being hashed than the pool has workers, as long as one
    worker has not passed the limiter. *)
Lemma hashing_below i s : hash_ok s → is_Some (request_of i s) → i ∉ php_hashing s →
  (size (php_hashing s) < wp_size (php_pool s))%nat.
Proof.
  intros Hok Hi Hn. pose proof (ok_workers _ (hk_pool _ Hok)) as Hw.
  pose proof (busy_bound i s (hk_pool _ Hok) Hi) as Hlt.
  assert (size (php_hashing s) < length (wp_workers (php_pool s)))%nat; [|lia].
  apply (size_below_other _ _ i); [|done|done]. intros j Hj.
  apply busy_bound; [apply Hok|]. apply (hk_busy _ Hok). set_solver.
Qed.
Lemma hashing_limit s : hash_ok s → (size (php_hashing s) <= wp_size (php_pool s))%nat.
Proof.
  intros Hok. pose proof (ok_workers _ (hk_pool _ Hok)) as Hw.
  assert (size (php_hashing s) <= length (wp_workers (php_pool s)))%nat; [|lia].
  apply size_below. intros j Hj. apply busy_bound; [apply Hok|]. apply (hk_busy _ Hok). set_solver.
Qed.

Lemma HashPasswordAsync_ok request c s s' : HashPasswordAsync request c s = Some s' → hash_ok s → hash_ok s'.
Proof.
  destruct s as [po li [rq0 co fa av to] dn ha an re rq rf]. intros H0 Hok. simpl in H0.
  apply bind_Some in H0 as (po' & Hsub & [= <-]).
  pose proof (Submit_accepted request c po po' Hsub) as [He Ha].
  pose proof (wstep_size (EvSubmit request c) po po' Hsub) as Hsz.
  pose proof (λ i j, wstep_busy (EvSubmit request c) po po' i j Hsub) as Hbusy.
  destruct Hok as [Hp Hb Hd Hs Hc Hm Hr Han Hac Hre]. simpl in *. split; simpl; try done.
  - by eapply Submit_ok.
  - intros i Hi. destruct (Hb i Hi) as [r Hri]. unfold request_of in *. simpl in *.
    destruct (wp_workers po !! i) as [[]|] eqn:E; try done.
    by rewrite (Hbusy i job Hp ltac:(done) E).
  - by rewrite Hsz.
  - rewrite Hr, wrap64_add, length_app. simpl. apply (f_equal wrap64). lia.
  - by rewrite He.
  - rewrite length_app. simpl. destruct Ha as [-> | ->].
    + rewrite Nat.ltb_irrefl, length_app. simpl. lia.
    + rewrite length_app. simpl. destruct (Nat.ltb_spec (length (wp_accepted po)) (length (wp_accepted po) + 1)); lia.
Qed.

Lemma context_monotone request id s : context_done request s = true →
  existsb (N.eqb (hrq_RequestID request)) (id :: php_done s) = true.
Proof. simpl. unfold context_done. intros ->. apply orb_true_r. Qed.

Lemma pass_limiter_ok i slot s s' : pass_limiter i slot s = Some s' → hash_ok s → hash_ok s'.
Proof.
  unfold pass_limiter. intros H0 Hok. apply bind_Some in H0 as (request & Hreq & H0).
  destruct (bool_decide (i ∈ php_hashing s)) eqn:E1; [done|]. destruct (bool_decide (i ∈ php_answered s)) eqn:E2; [done|].
  apply bool_decide_eq_false in E1, E2. cbn [orb] in H0. destruct (negb slot && _) eqn:E3; [done|].
  apply bind_Some in H0 as ([acquired li'] & Hacq & H0).
  destruct s as [po li [rq0 co fa av to] dn ha an re rq rf]. destruct Hok as [Hp Hb Hd Hs Hc Hm Hr Han Hac Hre].
  simpl in *. unfold Acquire in Hacq.
  assert (Hbusy : ∀ j (X : gset nat), (j ∈ X → j ∈ ha ∪ an) → j ∈ {[i]} ∪ X →
    is_Some (request_of j (mkHashPool po li' (mkHashingMetrics rq0 co fa av to) dn ha an re rq rf))).
  { intros j X HX [->%elem_of_singleton|Hj]%elem_of_union; [by eexists | apply Hb; auto]. }
  destruct slot.
  - destruct (Nat.ltb_spec (hrl_semaphore li) (hrl_maxConcurrent li)); [|done]. injection Hacq as <- <-.
    injection H0 as <-. split; simpl; try done.
    + intros j Hj. apply (Hbusy j (ha ∪ an)); [done | set_solver].
    + set_solver.
    + rewrite size_union, size_singleton by set_solver. lia.
    + rewrite size_union, size_singleton by set_solver. lia.
  - injection Hacq as <- <-. injection H0 as <-. simpl in E3. apply negb_false_iff in E3.
    split; simpl; try done.
    + intros j Hj. apply (Hbusy j (ha ∪ an)); [done | set_solver].
    + set_solver.
    + rewrite size_union, size_singleton by set_solver.
      rewrite Z.add_comm, wrap64_add. replace (fa + 1 + co) with (co + fa + 1) by lia.
      rewrite <- wrap64_add, Han, wrap64_add. apply (f_equal wrap64). lia.
    + apply Forall_app. split; [done|]. constructor; [|done]. simpl. split; [done|]. by right.
Qed.

Lemma hashing_size i (X : gset nat) : i ∈ X → (0 < size X)%nat ∧ size (X ∖ {[i]}) = (size X - 1)%nat.
Proof.
  intros Hi. split.
  - apply Nat.neq_0_lt_0. intros E%size_empty_inv. set_solver.
  - rewrite size_difference, size_singleton by set_solver. done.
Qed.

Lemma finish_hashing_ok i d sent s s' : finish_hashing i d sent s = Some s' → hash_ok s → hash_ok s'.
Proof.
  unfold finish_hashing. intros H0 Hok. apply bind_Some in H0 as (request & Hreq & H0).
  destruct (bool_decide (i ∈ php_hashing s)) eqn:E1; [|done]. apply bool_decide_eq_true in E1.
  cbn [negb] in H0. destruct (negb sent && _); [done|].
  destruct s as [po li [rq0 co fa av to] dn ha an re rq rf]. destruct Hok as [Hp Hb Hd Hs Hc Hm Hr Han Hac Hre].
  simpl in *. injection H0 as <-. assert (Hn : i ∉ an) by set_solver.
  destruct (hashing_size i ha E1) as [Hsz Hdiff].
  split; simpl; try done.
  - intros j Hj. destruct (decide (j = i)) as [->|]; [by eexists | apply Hb; set_solver].
  - set_solver.
  - unfold Release. destruct (hrl_semaphore li) eqn:El; simpl; lia.
  - unfold Release. destruct (hrl_semaphore li) eqn:El; simpl; lia.
  - unfold Release. by destruct (hrl_semaphore li).
  - by destruct (hrs_Error _).
  - transitivity (wrap64 (co + fa + 1)).
    { destruct (hrs_Error _); simpl; rewrite ?(Z.add_comm co), wrap64_add; apply (f_equal wrap64); lia. }
    rewrite size_union, size_singleton by set_solver. rewrite <- wrap64_add, Han, wrap64_add.
    apply (f_equal wrap64). lia.
  - destruct sent; [|done]. apply Forall_app. split; [done|]. constructor; [|done]. simpl. split.
    + unfold hash_result. by destruct (processHashingRequest _ _).
    + left. by exists d.
Qed.

Lemma hash_pool_event_ok e s s' : hash_pool_event e s = Some s' → hash_ok s → hash_ok s'.
Proof.
  unfold hash_pool_event. intros H0 Hok. destruct (is_submission e) eqn:Es; [done|].
  apply bind_Some in H0 as (po' & Hst & H0).
  pose proof (wstep_accepted e _ _ Hst Es) as [Hacc Hex]. pose proof (wstep_size _ _ _ Hst) as Hsz.
  pose proof (wstep_ok _ _ _ Hst (hk_pool _ Hok)) as Hpo'.
  assert (Hkeep : ∀ i j, (∀ d, e ≠ EvFinish i d) → wp_workers (php_pool s) !! i = Some (Busy j) →
    wp_workers po' !! i = Some (Busy j)) by (intros i j; apply (wstep_busy _ _ _ _ _ Hst), Hok).
  destruct s as [po li m dn ha an re rq rf]. destruct Hok as [Hp Hb Hd Hs Hc Hm Hr Han Hac Hre]. simpl in *.
  assert (Hbusy : ∀ i r', (∀ d, e ≠ EvFinish i d) → is_Some (request_of i (mkHashPool po li m dn ha an re rq rf)) →
    is_Some (request_of i (mkHashPool po' li m dn ha r' re rq rf))).
  { intros i r' Hne Hi. unfold request_of in *. simpl in *.
    destruct (wp_workers po !! i) as [[]|] eqn:E; try by destruct Hi. by rewrite (Hkeep _ _ Hne E). }
  assert (Hrest : s' = mkHashPool po' li m dn ha an re rq rf → (∀ i d, e ≠ EvFinish i d) → hash_ok s').
  { intros -> Hne. assert (wp_executed po' = wp_executed po) as Hex'
      by (rewrite Hex; destruct e; rewrite ?app_nil_r; try done; by destruct (Hne i dur)).
    split; simpl; try done; try congruence. intros j Hj. apply Hbusy; [done | by apply Hb]. }
  destruct e; try done; try (injection H0 as <-; by apply Hrest).
  destruct (bool_decide_reflect (i ∈ an)) as [Hi|]; [|done]. injection H0 as <-.
  destruct (Hb i) as [r Hri]; [set_solver|]. unfold request_of in Hri. simpl in Hri.
  destruct (wp_workers po !! i) as [[]|] eqn:E; try done. destruct (hashing_size i an Hi) as [Hsa Hdiff].
  split; simpl; try done; try congruence.
  - intros j Hj. apply Hbusy; [intros d' [=]; set_solver | apply Hb; set_solver].
  - set_solver.
  - rewrite Han, Hex, length_app, Hdiff. simpl. apply (f_equal wrap64). lia.
Qed.

Lemma hstep_ok e s s' : hstep e s = Some s' → hash_ok s → hash_ok s'.
Proof.
  destruct e; simpl; intros H0 Hok.
  - by eapply HashPasswordAsync_ok.
  - destruct s as [po li m dn ha an re rq rf]. injection H0 as <-.
    destruct Hok as [Hp Hb Hd Hs Hc Hm Hr Han Hac Hre]. split; simpl in *; try done.
    eapply Forall_impl; [exact Hre|]. intros [r x] [Hid Hx]. split; [done|].
    destruct Hx as [?|[? Hdone]]; [by left|].
    right. split; [done | by apply (context_monotone r id _ Hdone)].
  - by eapply pass_limiter_ok.
  - by eapply finish_hashing_ok.
  - by eapply hash_pool_event_ok.
Qed.
Lemma hrun_ok es s s' : hrun es s = Some s' → hash_ok s → hash_ok s'.
Proof.
  revert s. induction es as [|e es IH]; simpl; intros s Hr Hs; [by injection Hr as <-|].
  apply bind_Some in Hr as (s1 & Hs1 & Hr). eapply IH; [exact Hr|]. by eapply hstep_ok.
Qed.

Lemma hstep_size e s s' : hstep e s = Some s' → wp_size (php_pool s') = wp_size (php_pool s).
Proof.
  destruct s as [po li m dn ha an re rq rf]. intros H0. destruct e; simpl in H0.
  - apply bind_Some in H0 as (po' & Hs & [= <-]). simpl. by apply (wstep_size (EvSubmit request c)).
  - by injection H0 as <-.
  - unfold pass_limiter in H0. apply bind_Some in H0 as (r & _ & H0).
    destruct (_ || _); [done|]. destruct (_ && _); [done|].
    apply bind_Some in H0 as ([[] li'] & _ & H0); by injection H0 as <-.
  - unfold finish_hashing in H0. apply bind_Some in H0 as (r & _ & H0).
    destruct (negb _); [done|]. destruct (_ && _); [done|]. by injection H0 as <-.
  - unfold hash_pool_event in H0. destruct (is_submission e); [done|].
    apply bind_Some in H0 as (po' & Hs & H0). apply wstep_size in Hs.
    destruct e; try destruct (bool_decide _); try done; by injection H0 as <-.
Qed.
Lemma hrun_size es s s' : hrun es s = Some s' → wp_size (php_pool s') = wp_size (php_pool s).
Proof.
  revert s. induction es as [|e es IH]; simpl; intros s Hr; [by injection Hr as <-|].
  apply bind_Some in Hr as (s1 & Hs1 & Hr). rewrite (IH _ Hr). by eapply hstep_size.
Qed.
End lemmas.

Lemma stops_stopped {J} (s s' : WorkerPool J) : stops s s' → wp_started s' = false ∧ wp_stopping s' = false.
Proof.
  intros [|s1 es s2 s3 _ _ _ Hst Hcl Hs]; [done|]. destruct s2 as [n st sp q cl qu ca ws [su co pr aw ql av] ac ex pa].
  simpl in *. subst. unfold Stop_close in Hs. simpl in Hs. destruct (negb _); [done|]. by injection Hs as <-.
Qed.

(** [StartAll] starts every pool it walks over when none is being stopped. *)
Lemma StartAll_starts {J} order : ∀ (pools : gmap string (WorkerPool J)),
  (∀ name pool, pools !! name = Some pool → wp_stopping pool = false) →
  ∃ pools', StartAll order pools = Some pools' ∧
    ∀ name pool, pools !! name = Some pool → ∃ pool', pools' !! name = Some pool' ∧
      (wp_started pool = true ∨ name ∈ order → wp_started pool' = true).
Proof.
  induction order as [|name rest IH]; intros pools Hns; simpl.
  - exists pools. split; [done|]. intros name pool Hp. exists pool. split; [done|].
    by intros [?|?%elem_of_nil].
  - destruct (pools !! name) as [pool|] eqn:E.
    2:{ destruct (IH pools Hns) as (pools' & Hrun & Hall). exists pools'. split; [done|].
        intros n p Hp. destruct (Hall n p Hp) as (p' & Hp' & Hs). exists p'. split; [done|].
        intros [Hst|[->|Hin]%elem_of_cons]; [auto | congruence | auto]. }
    assert (Hst : ∃ pool', Start pool = Some pool' ∧ wp_started pool' = true ∧ wp_stopping pool' = false).
    { specialize (Hns _ _ E). destruct pool as [n st sp q cl qu ca ws [su co pr aw ql av] ac ex pa]. simpl in Hns. subst sp.
      unfold Start. simpl. destruct st; by eexists. }
    destruct Hst as (pool' & -> & Hs1 & Hs2). simpl.
    destruct (IH (<[name:=pool']> pools)) as (pools' & Hrun & Hall).
    { intros n p [[<- <-]|[? ?]]%lookup_insert_Some; [done | by eapply Hns]. }
    exists pools'. split; [done|]. intros n p Hp. destruct (decide (n = name)) as [->|Hne].
    + destruct (Hall name pool' (lookup_insert_eq _ _ _)) as (p' & Hp' & Hs). exists p'. auto.
    + destruct (Hall n p) as (p' & Hp' & Hs); [by rewrite lookup_insert_ne|]. exists p'. split; [done|].
      intros [?|[?|?]%elem_of_cons]; [auto | done | auto].
Qed.
(** When [StopAll] returns no pool it walked over is started. *)
Lemma StopAll_stops {J} order (pools pools' : gmap string (WorkerPool J)) : StopAll order pools pools' →
  ∀ name pool', pools' !! name = Some pool' →
    name ∈ order ∨ (∃ pool, pools !! name = Some pool ∧ wp_started pool = false) → wp_started pool' = false.
Proof.
  induction 1 as [pools|name rest pools pool p1 pools' Hp Hs Hrest IH]; intros n p' Hp' Hn.
  - destruct Hn as [?%elem_of_nil|(p & Hp & ?)]; [done|]. congruence.
  - apply (IH n p' Hp'). destruct (decide (n = name)) as [->|Hne].
    + right. exists p1. split; [apply lookup_insert_eq | apply (stops_stopped _ _ Hs)].
    + destruct Hn as [[?|?]%elem_of_cons|(p & Hpp & ?)]; [done | by left|].
      right. exists p. by rewrite lookup_insert_ne.
Qed.

(** ** Properties *)

(** C33: the hashing pool loses and double-counts nothing, and its limiter
    never limits.  In every reachable state the requests hashed at the same
    time are as many as the limiter counts and at most the workers of the
    pool, while the limiter has twice as many slots, so a worker that took a
    request finds a slot at once; every request was refused by the pool or is
    finished, running or queued; the counters of requests and answers are
    exact; and every result sent carries the identifier of its request and
    the hash of its password or, only if its context has ended, the message
    that the limit is exceeded. *)
Theorem hashing_pool_accounts `{CryptoLib} n es (s : PasswordHashingPool) :
  hrun es (NewPasswordHashingPool n) = Some s →
  GetCurrentLoad (php_rateLimiter s) = Z.of_nat (size (php_hashing s)) ∧ (size (php_hashing s) <= n)%nat ∧
  (∀ i, is_Some (request_of i s) → i ∉ php_hashing s → is_Some (Acquire true (php_rateLimiter s))) ∧
  length (php_requested s) = (length (wp_executed (php_pool s)) + length (busy_jobs (wp_workers (php_pool s))) +
    length (wp_jobQueue (php_pool s)) + length (php_refused s))%nat ∧
  HashingRequests (GetHashingMetrics s) = wrap64 (Z.of_nat (length (php_requested s))) ∧
  wrap64 (HashingCompleted (GetHashingMetrics s) + HashingFailed (GetHashingMetrics s)) =
    wrap64 (Z.of_nat (length (wp_executed (php_pool s)) + size (php_answered s))) ∧
  Forall (λ r, hrs_RequestID r.2 = hrq_RequestID r.1 ∧
      ((∃ d, r.2 = hash_result r.1 d) ∨
       hrs_Error r.2 = Some (ErrorString "hashing rate limit exceeded") ∧ context_done r.1 s = true))
    (php_results s).
Proof.
  intros Hr. pose proof (hrun_ok _ _ _ Hr (hash_ok_new n)) as Hok. pose proof (hrun_size _ _ _ Hr) as Hsz.
  simpl in Hsz. pose proof (hashing_limit s Hok) as Hlim. rewrite Hsz in Hlim. split_and!.
  - apply Hok.
  - done.
  - intros i Hi Hn. pose proof (hashing_below i s Hok Hi Hn) as Hlt. unfold Acquire.
    rewrite (hk_semaphore _ Hok), (hk_max _ Hok).
    destruct (Nat.ltb_spec (size (php_hashing s)) (wp_size (php_pool s) * 2)); [by eexists | lia].
  - rewrite (hk_accepted _ Hok), (ok_jobs _ (hk_pool _ Hok)), !length_app. lia.
  - apply Hok.
  - apply Hok.
  - apply Hok.
Qed.

(** ** Witnesses *)

#[local] Instance ref_hash_crypto : CryptoLib := {
  bcrypt_Compare h p := String.eqb h ("h:" +:+ p); bcrypt_Generate _ p := Ok ("h:" +:+ p);
  totp_Validate _ _ _ := false; totp_Generate s := Ok (s, s); base32_Encode s := s }.
Definition demo_request (id : N) : PasswordHashRequest := mkHashRequest "secret" id 7%N 0.
Definition hash_events : list hash_event :=
  [HPool EvStart; HRequest (demo_request 1) Sent; HRequest (demo_request 2) Sent; HPool (EvTake 0);
   HLimiter 0 true; HPool (EvTake 1); HHashed 0 5 true; HPool (EvFinish 0 5); HContext 2%N; HLimiter 1 false].
Definition hashed : PasswordHashingPool := default (NewPasswordHashingPool 2) (hrun hash_events (NewPasswordHashingPool 2)).
Lemma hashed_run : hrun hash_events (NewPasswordHashingPool 2) = Some hashed.
Proof. vm_compute. reflexivity. Qed.

Example hashing_pool_accounts_witness :
  hrs_Error <$> (php_results hashed).*2 = [None; Some (ErrorString "hashing rate limit exceeded")] ∧
  GetCurrentLoad (php_rateLimiter hashed) = Z.of_nat (size (php_hashing hashed)) ∧
  HashingRequests (GetHashingMetrics hashed) = wrap64 (Z.of_nat (length (php_requested hashed))).
Proof.
  destruct (hashing_pool_accounts 2 hash_events hashed hashed_run) as (H1 & _ & _ & _ & H2 & _).
  split; [vm_compute; reflexivity|]. split; [exact H1 | exact H2].
Defined.

(** The pools of the manager, started and stopped with no job given. *)
Example specialized_pools_start : ∃ s,
  StartSpecializedPools (J:=unit) NewSpecializedWorkerPoolManager = Some s ∧
  (wp_size (php_pool (sm_passwordPool s)), wp_size (cwp_pool (sm_cachePool s)),
   wp_size (alp_pool (sm_auditPool s))) = (5, 10, 3)%nat.
Proof. eexists. split; reflexivity. Qed.
