(* ===== verification/Wiring.v ===== *)
(** * The construction of the services
    (src/internal/grpc/server.go, application/services, infrastructure/repositories)

    What [NewAuthGRPCServer] puts together: the repository factory, the token
    service with its key rotation, the permission service with its cache
    warmer, the authentication service with its pools, the activity back end.
    The cache it chooses is in CacheLife.v.  The warmer is a process: its
    workers, the goroutine [Start] leaves behind and [Stop] are an event
    machine, an event being one atomic action of a goroutine or a caller. *)

From S2P Require Import Prelude Errors Models Ifaces Permission PermissionWarmer TokenService WorkerPool Bulk SpecializedPools AuthService HashPool.

#[local] Open Scope Z_scope.

(** ** The repository factory (repository_factory.go) *)

Inductive repository :=
| UserRepo | OrganizationRepo | RoleRepo | PermissionRepo | TokenRepo | UserRoleRepo | RolePermissionRepo.
#[export] Instance repository_eq_dec : EqDecision repository.
Proof. solve_decision. Defined.

(** An instance: its address, and the two connections it was made with. *)
Record instance := mkInstance { in_addr : N; in_write : N; in_read : N }.
Record RepositoryFactory := mkFactory {
  rf_writeDB : N; rf_readDB : N;
  rf_made : list (repository * instance); (* the fields that are not nil *)
  rf_next : N (* the next address *) }.
Definition NewRepositoryFactory (writeDB readDB : N) : RepositoryFactory := mkFactory writeDB readDB [] 0.
Definition made (k : repository) (f : RepositoryFactory) : option instance :=
  snd <$> List.find (λ e, bool_decide (e.1 = k)) (rf_made f).
(** The seven accessors differ in the field and the constructor. *)
Definition repository_of (k : repository) (f : RepositoryFactory) : instance * RepositoryFactory :=
  match made k f with
  | Some i => (i, f)
  | None =>
      let i := mkInstance (rf_next f) (rf_writeDB f) (rf_readDB f) in
      (i, mkFactory (rf_writeDB f) (rf_readDB f) (rf_made f ++ [(k, i)]) (rf_next f + 1))
  end.
Fixpoint accesses (ks : list repository) (f : RepositoryFactory) : RepositoryFactory :=
  match ks with [] => f | k :: rest => accesses rest (repository_of k f).2 end.

(** ** The token service *)

Definition NewTokenService (config : JWTConfig) : TokenState :=
  mkTokenState (jc_Secret config) None 1 (mkTokenMetrics 0 0 0 0 0 0 0).
(** [startKeyRotation] is started when rotation is enabled and returns at once
    without an interval; its ticker has the interval in hours. *)
Definition rotation_ticker (config : JWTConfig) : option Z :=
  if jc_KeyRotationEnabled config && (0 <? jc_KeyRotationInterval config)%Z
  then Some (wrap64 (jc_KeyRotationInterval config * Hour)) else None.
(** The ticks of the loop, each with what [rand.Read] gave it; an error is
    logged. *)
Definition rotation_ticks {C R D} (keys : list (res error string)) : M (TSW C R D) unit :=
  for_each (λ key, attempt (F:=error) (rotateKeys key) ;;; ret tt) keys.
Definition TokenService_GetMetrics (s : TokenState) : TokenMetrics := ts_metrics s.

(** ** The permission service *)

Definition server_permission_config : PermissionServiceConfig :=
  mkPermissionServiceConfig (5 * Minute) true true 10000 (30 * Second).
(** [CheckBulkPermissions]: one request after the other, or the evaluator; as
    in Bulk.v, [es] is what happened in its pool and [evaluate] what its jobs
    find. *)
Section bulk.
Context {C D : Type} `{CacheOps C} `{PermissionRepository D} `{PermissionJson} `{UuidLib}.
Context (config : PermissionServiceConfig).
Context (evaluate : PermissionCheckRequest → PermissionEvaluationResult * option error).
Definition CheckBulkPermissions (fuel : nat) (now : Z) (request : BulkPermissionRequest)
    (es : list (WorkerPool.event nat)) (d : D) (pool : WorkerPool nat)
    : option (res (option error) BulkPermissionResponse * D * WorkerPool nat) :=
  if negb (BulkEvaluationEnabled config) then
    let '(r, d') := checkBulkPermissionsSequential fuel now request d in Some (r, d', pool)
  else
    r ← EvaluateBulk evaluate now request es pool;
    Some (Ok r.1, d, r.2).
(** [WarmPermissionCache] does nothing unless warming is enabled. *)
Definition WarmPermissionCache (now : Z) (userIDs : list N) : M (PermissionCacheWarmer C D) unit :=
  if negb (CacheWarmingEnabled config) then ret tt
  else PermissionWarmer.WarmUserPermissions config now userIDs.
End bulk.

(** *** The warmer as a process *)

Inductive warming_worker := WorkerIdle | WorkerBusy (task : WarmingTask) | WorkerGone.
Inductive warming_goroutine := NotStarted | Selecting | Returned.
Record WarmerProcess := mkWarmerProcess {
  wpr_scheduler : WarmingScheduler;
  wpr_workers : list warming_worker;
  wpr_goroutine : warming_goroutine; wpr_ticker : ticker;
  wpr_stopChan : bool;               (* closed *)
  wpr_stopping : bool;               (* inside [Stop], at [wg.Wait()] *)
  wpr_accepted : list WarmingTask;   (* history: tasks the queue took *)
  wpr_processed : list WarmingTask;  (* history: tasks a worker finished *)
  wpr_panics : nat }.

Definition scheduler_workers : nat := 5.
Definition NewPermissionCacheWarmer : WarmerProcess :=
  mkWarmerProcess NewWarmingScheduler [] NotStarted Stopped false false [] [] 0.

Definition Warmer_Start (config : CacheWarmerConfig) (now : Z) (s : WarmerProcess) : WarmerProcess :=
  let '(mkWarmerProcess q ws _ _ sc st ac pr pa) := s in
  mkWarmerProcess q (ws ++ replicate scheduler_workers WorkerIdle) Selecting (PermissionWarmer.Start config now) sc st ac pr pa.
(** The send of a task: on the closed queue it panics, on a full one the task
    is dropped. *)
Definition enqueue (task : WarmingTask) (s : WarmerProcess) : WarmerProcess :=
  let '(mkWarmerProcess q ws g t sc st ac pr pa) := s in
  if wsc_closed q then mkWarmerProcess q ws g t sc st ac pr (S pa)
  else if (length (warmingQueue q) <? warming_capacity)%nat
  then mkWarmerProcess (mkWarmingScheduler (warmingQueue q ++ [task]) false) ws g t sc st (ac ++ [task]) pr pa
  else s.
Definition set_worker (i : nat) (w : warming_worker) (s : WarmerProcess) : WarmerProcess :=
  let '(mkWarmerProcess q ws g t sc st ac pr pa) := s in
  mkWarmerProcess q (<[i := w]> ws) g t sc st ac pr pa.
Definition worker_turn (i : nat) (s : WarmerProcess) : option WarmerProcess :=
  match wpr_workers s !! i with
  | Some WorkerIdle =>
      r ← worker_receive (wpr_scheduler s);
      let '(mkWarmerProcess _ ws g t sc st ac pr pa) := s in
      Some (mkWarmerProcess r.2 (<[i := match r.1 with Some task => WorkerBusy task | None => WorkerGone end]> ws)
              g t sc st ac pr pa)
  | _ => None
  end.
Definition worker_done (i : nat) (s : WarmerProcess) : option WarmerProcess :=
  match wpr_workers s !! i with
  | Some (WorkerBusy task) =>
      let '(mkWarmerProcess q ws g t sc st ac pr pa) := s in
      Some (mkWarmerProcess q (<[i := WorkerIdle]> ws) g t sc st ac (pr ++ [task]) pa)
  | _ => None
  end.
(** [Stop]: the stop channel is closed (a second time panics), the goroutine
    waited for, the ticker of the tracker stopped, and the queue closed. *)
Definition Warmer_Stop (s : WarmerProcess) : WarmerProcess :=
  let '(mkWarmerProcess q ws g t sc st ac pr pa) := s in
  if sc then mkWarmerProcess q ws g t sc st ac pr (S pa) else mkWarmerProcess q ws g t true true ac pr pa.
Definition Warmer_Stopped (s : WarmerProcess) : option WarmerProcess :=
  let '(mkWarmerProcess q ws g t sc st ac pr pa) := s in
  match st, g with
  | false, _ | _, Selecting => None
  | true, _ =>
      match WarmingScheduler_Stop q with
      | Some q' => Some (mkWarmerProcess q' ws g t sc false ac pr pa)
      | None => Some (mkWarmerProcess q ws g t sc false ac pr (S pa))
      end
  end.

Inductive warmer_event :=
| PStart (now : Z) | PEnqueue (task : WarmingTask) | PReceive (i : nat) | PProcessed (i : nat)
| PLoopStop | PStop | PStopped.
Definition warmer_step (config : CacheWarmerConfig) (e : warmer_event) (s : WarmerProcess) : option WarmerProcess :=
  match e with
  | PStart now => match wpr_goroutine s with NotStarted => Some (Warmer_Start config now s) | _ => None end
  | PEnqueue task => Some (enqueue task s)
  | PReceive i => worker_turn i s
  | PProcessed i => worker_done i s
  | PLoopStop =>
      let '(mkWarmerProcess q ws g t sc st ac pr pa) := s in
      match g with
      | Selecting => if sc then Some (mkWarmerProcess q ws Returned t sc st ac pr pa) else None
      | _ => None
      end
  | PStop => Some (Warmer_Stop s)
  | PStopped => Warmer_Stopped s
  end.
Fixpoint warmer_run (config : CacheWarmerConfig) (es : list warmer_event) (s : WarmerProcess)
    : option WarmerProcess :=
  match es with [] => Some s | e :: es' => warmer_step config e s ≫= warmer_run config es' end.

(** [NewPermissionService] makes the evaluator and the warmer, and has a
    goroutine start the warmer, at the event [PStart], when warming is enabled;
    [Close] stops both, the pool of the evaluator as in WorkerPool.v. *)
Record PermissionComponents := mkComponents {
  pc_evaluator : BulkPermissionEvaluator; pc_pool : WorkerPool nat; pc_warmer : WarmerProcess;
  pc_starts : bool }.
Definition NewPermissionService (config : PermissionServiceConfig) : PermissionComponents :=
  let '(evaluator, pool) := NewBulkPermissionEvaluator in
  mkComponents evaluator pool NewPermissionCacheWarmer (CacheWarmingEnabled config).
Inductive PermissionService_Close (s : PermissionComponents) : PermissionComponents → Prop :=
| ClosePermissions es w pool : warmer_run warmer_config es (Warmer_Stop (pc_warmer s)) = Some w →
    wpr_stopping w = false → stops (pc_pool s) pool →
    PermissionService_Close s (mkComponents (pc_evaluator s) pool w (pc_starts s)).

(** ** The authentication service *)

(** [NewAuthService] starts the three pools; [Close] stops them. *)
Definition no_auth_metrics : AuthMetrics := mkAuthMetrics 0 0 0 0 0 0 0 0 0.
Definition NewAuthService : AuthMetrics * option (SpecializedWorkerPoolManager unit) :=
  (no_auth_metrics, StartSpecializedPools NewSpecializedWorkerPoolManager).
Definition AuthService_Close (s s' : SpecializedWorkerPoolManager unit) : Prop := StopSpecializedPools s s'.
Definition AuthService_GetMetrics {C U O T} (w : AW C U O T) : AuthMetrics := aw_metrics w.

(** ** The activity back end *)

Inductive activity_backend (E : Type) := PostgresActivity | ElasticsearchActivity (client : E).
Arguments PostgresActivity {E}. Arguments ElasticsearchActivity {E}.
(** [NewClient] of elasticsearch answers a client or an error. *)
Definition choose_activity {E} (enabled : bool) (client : res error E) : activity_backend E :=
  if enabled then match client with Ok c => ElasticsearchActivity c | Err _ => PostgresActivity end
  else PostgresActivity.

(** ** Lemmas: the factory and the rotation *)

Lemma made_app k k' i f n : made k' f = None →
  made k (mkFactory (rf_writeDB f) (rf_readDB f) (rf_made f ++ [(k', i)]) n) =
  if bool_decide (k' = k) then Some i else made k f.
Proof.
  unfold made. simpl. intros Hn. induction (rf_made f) as [|[k1 i1] l IH]; simpl in *; [by case_bool_decide|].
  case_bool_decide as E1; case_bool_decide as E2; subst; try done; case_bool_decide; subst; try done; by apply IH.
Qed.
Lemma access_keeps k k' i f : made k f = Some i → made k (repository_of k' f).2 = Some i.
Proof.
  intros Hk. unfold repository_of. destruct (made k' f) as [i'|] eqn:E; cbn [fst snd]; [done|].
  rewrite made_app by done. case_bool_decide; [congruence | done].
Qed.
Lemma accesses_keep ks k i f : made k f = Some i → made k (accesses ks f) = Some i.
Proof. revert f. induction ks as [|k' ks IH]; intros f Hk; simpl; [done | by apply IH, access_keeps]. Qed.

(** A repository is made once: whatever is asked for in between, an accessor
    answers the instance it answered first. *)
Lemma repository_made_once k ks f :
  (repository_of k (accesses ks (repository_of k f).2)).1 = (repository_of k f).1.
Proof.
  assert (Hm : made k (repository_of k f).2 = Some (repository_of k f).1).
  { unfold repository_of. destruct (made k f) as [i|] eqn:E; cbn [fst snd]; [done|].
    rewrite made_app by done. by rewrite bool_decide_eq_true_2. }
  apply (accesses_keep ks) in Hm. unfold repository_of at 1. by rewrite Hm.
Qed.

Lemma rotation_ticks_cons {C R D} key keys (w : TSW C R D) :
  (rotation_ticks (key :: keys) w).2 = (rotation_ticks keys (rotateKeys key w).2).2.
Proof.
  unfold rotation_ticks. cbn [for_each]. unfold bind at 1. rewrite bind_attempt. unfold ret. done.
Qed.
Lemma last_shift {A} (a d : A) l : List.last l a = List.last (a :: l) d.
Proof. revert a. induction l as [|b l IH]; intros a; [done|]. simpl in *. destruct l; [done | apply IH]. Qed.
(** Rotations that got their random bytes: the version grows by their number
    and the current key is the last one. *)
Lemma rotations_count {C R D} keys : ∀ (w : TSW C R D),
  min_int <= ts_keyVersion (w_ts w) → ts_keyVersion (w_ts w) + Z.of_nat (length keys) <= max_int →
  ts_keyVersion (w_ts (rotation_ticks (Ok <$> keys) w).2) = ts_keyVersion (w_ts w) + Z.of_nat (length keys) ∧
  ts_currentKey (w_ts (rotation_ticks (Ok <$> keys) w).2) = List.last keys (ts_currentKey (w_ts w)).
Proof.
  induction keys as [|k keys IH]; intros w Hmin Hmax; [simpl; split; [lia | done]|].
  cbn [fmap list_fmap length] in *. rewrite rotation_ticks_cons. set (w1 := (rotateKeys (Ok k) w).2).
  assert (Hv : ts_keyVersion (w_ts w1) = wrap64 (ts_keyVersion (w_ts w) + 1)) by done.
  rewrite wrap64_small in Hv by lia. assert (Hk : ts_currentKey (w_ts w1) = k) by (destruct w; reflexivity).
  destruct (IH w1) as [H1 H2]; [lia | lia|]. rewrite H1, H2, Hv, Hk. split; [lia|]. apply last_shift.
Qed.

(** ** Lemmas: the warmer as a process *)

Definition task_of (w : warming_worker) : list WarmingTask :=
  match w with WorkerBusy task => [task] | _ => [] end.
Definition busy_tasks (ws : list warming_worker) : list WarmingTask := ws ≫= task_of.

Lemma busy_tasks_insert ws i w w' : ws !! i = Some w →
  task_of w ++ busy_tasks (<[i := w']> ws) ≡ₚ task_of w' ++ busy_tasks ws.
Proof.
  unfold busy_tasks. revert i. induction ws as [|w0 ws IH]; intros [|i] Hi; simplify_eq/=.
  - apply Permutation_app_swap_app.
  - rewrite Permutation_app_swap_app, (IH i Hi). apply Permutation_app_swap_app.
Qed.

Record process_ok (s : WarmerProcess) : Prop := {
  po_tasks : wpr_accepted s ≡ₚ wpr_processed s ++ busy_tasks (wpr_workers s) ++ warmingQueue (wpr_scheduler s);
  po_queue : (length (warmingQueue (wpr_scheduler s)) <= warming_capacity)%nat;
  po_gone : WorkerGone ∈ wpr_workers s → warmingQueue (wpr_scheduler s) = [] ∧ wsc_closed (wpr_scheduler s) = true;
  po_stop : wpr_stopping s = true ∨ wsc_closed (wpr_scheduler s) = true → wpr_stopChan s = true;
  po_workers : length (wpr_workers s) =
    match wpr_goroutine s with NotStarted => 0%nat | _ => scheduler_workers end;
  po_ticker now : tick (wpr_ticker s) now = None }.

Lemma process_ok_new : process_ok NewPermissionCacheWarmer.
Proof. split; simpl; try done; [unfold warming_capacity; lia | by intros ?%elem_of_nil | by intros [|]]. Qed.

Lemma enqueue_ok task s : process_ok s → process_ok (enqueue task s).
Proof.
  destruct s as [[q cl] ws g t sc st ac pr pa]. intros [Ht Hq Hg Hs Hw Htk]. simpl in *. unfold enqueue. simpl.
  destruct cl; [by split|]. destruct (Nat.ltb_spec (length q) warming_capacity); [|by split].
  split; simpl; try done.
  - rewrite Ht, <- !app_assoc. done.
  - rewrite length_app. simpl. lia.
  - intros Hin. by destruct (Hg Hin).
Qed.

Lemma worker_turn_ok i s s' : worker_turn i s = Some s' → process_ok s → process_ok s'.
Proof.
  destruct s as [[q cl] ws g t sc st ac pr pa]. unfold worker_turn. simpl. intros H [Ht Hq Hg Hs Hw Htk]. simpl in *.
  destruct (ws !! i) as [[]|] eqn:Ei; try done. unfold worker_receive in H. simpl in H.
  destruct q as [|task rest]; simpl in *.
  - destruct cl; [|done]. injection H as <-. split; simpl; try done.
    + pose proof (busy_tasks_insert ws i _ WorkerGone Ei) as Hb. simpl in Hb. by rewrite Hb.
    + by rewrite length_insert.
  - injection H as <-. split; simpl; try done.
    + pose proof (busy_tasks_insert ws i _ (WorkerBusy task) Ei) as Hb. simpl in Hb. rewrite Hb, Ht.
      simpl. apply Permutation_app_head. symmetry. apply Permutation_middle.
    + lia.
    + intros Hin. destruct Hg as [[=] _].
      apply list_elem_of_lookup in Hin as [j Hj]. apply list_elem_of_lookup. exists j.
      destruct (decide (j = i)) as [->|]; [|by rewrite list_lookup_insert_ne in Hj].
      rewrite list_lookup_insert_eq in Hj; [done | by eapply lookup_lt_Some].
    + by rewrite length_insert.
Qed.

Lemma worker_done_ok i s s' : worker_done i s = Some s' → process_ok s → process_ok s'.
Proof.
  destruct s as [[q cl] ws g t sc st ac pr pa]. unfold worker_done. simpl. intros H [Ht Hq Hg Hs Hw Htk]. simpl in *.
  destruct (ws !! i) as [[|task|]|] eqn:Ei; try done. injection H as <-. split; simpl; try done.
  - pose proof (busy_tasks_insert ws i _ WorkerIdle Ei) as Hb. simpl in Hb.
    rewrite Ht, <- Hb, <- !app_assoc. simpl. done.
  - intros Hin. apply Hg. apply list_elem_of_lookup in Hin as [j Hj]. apply list_elem_of_lookup. exists j.
    destruct (decide (j = i)) as [->|]; [|by rewrite list_lookup_insert_ne in Hj].
    rewrite list_lookup_insert_eq in Hj; [done | by eapply lookup_lt_Some].
  - by rewrite length_insert.
Qed.

Lemma warmer_step_ok config e s s' : warmer_step config e s = Some s' → process_ok s → process_ok s'.
Proof.
  intros H Hok. destruct e; simpl in H.
  - destruct (wpr_goroutine s) eqn:Eg; try done. injection H as <-.
    destruct s as [[q cl] ws g t sc st ac pr pa]. destruct Hok as [Ht Hq Hg Hs Hw Htk]. simpl in *. subst g.
    apply length_zero_iff_nil in Hw as ->. split; simpl; try done. intros Hin. exfalso.
    repeat (apply elem_of_cons in Hin as [[=]|Hin]). by apply elem_of_nil in Hin.
  - injection H as <-. by apply enqueue_ok.
  - by eapply worker_turn_ok.
  - by eapply worker_done_ok.
  - destruct s as [q ws [] t [] st ac pr pa]; try done. injection H as <-. by destruct Hok; split.
  - injection H as <-. destruct s as [q ws g t [] st ac pr pa]; destruct Hok; by split.
  - destruct s as [[q cl] ws g t sc st ac pr pa]. destruct Hok as [Ht Hq Hg Hs Hw Htk]. simpl in *.
    assert (st = true → sc = true) as Hst by (intros ->; auto).
    unfold WarmingScheduler_Stop in H. simpl in H.
    destruct st, g, cl; try done; injection H as <-; split; simpl in *; auto; try (intros Hin; by destruct (Hg Hin)).
Qed.
Lemma warmer_run_ok config es s s' : warmer_run config es s = Some s' → process_ok s → process_ok s'.
Proof.
  revert s. induction es as [|e es IH]; simpl; intros s Hr Hs; [by injection Hr as <-|].
  apply bind_Some in Hr as (s1 & Hs1 & Hr). eapply IH; [exact Hr|]. by eapply warmer_step_ok.
Qed.

(** Every turn of a worker of a closed queue brings the end nearer. *)
Definition weight (w : warming_worker) : nat :=
  match w with WorkerIdle => 1 | WorkerBusy _ => 2 | WorkerGone => 0 end.
Definition work_left (s : WarmerProcess) : nat :=
  2 * length (warmingQueue (wpr_scheduler s)) + sum_list (weight <$> wpr_workers s).

Lemma weight_insert ws i w w' : ws !! i = Some w →
  (sum_list (weight <$> <[i := w']> ws) + weight w = sum_list (weight <$> ws) + weight w')%nat.
Proof.
  revert i. induction ws as [|w0 ws IH]; intros [|i] Hi; simplify_eq/=; [lia|]. specialize (IH i Hi). lia.
Qed.

Definition is_turn (e : warmer_event) : Prop := ∃ i, e = PReceive i ∨ e = PProcessed i.

Lemma worker_progress config s i w : wsc_closed (wpr_scheduler s) = true →
  wpr_workers s !! i = Some w → w ≠ WorkerGone →
  ∃ e s', is_turn e ∧ warmer_step config e s = Some s' ∧ (work_left s' < work_left s)%nat ∧
    wsc_closed (wpr_scheduler s') = true ∧ wpr_accepted s' = wpr_accepted s ∧
    wpr_goroutine s' = wpr_goroutine s.
Proof.
  destruct s as [[q cl] ws g t sc st ac pr pa]. simpl. intros -> Hi Hw. destruct w as [|task|]; [| |done].
  - exists (PReceive i). simpl. unfold worker_turn. simpl. rewrite Hi. unfold worker_receive, work_left.
    destruct q as [|task rest]; simpl; eexists; (split; [by exists i; left|]); (split; [done|]); simpl.
    + pose proof (weight_insert ws i _ WorkerGone Hi) as Hs. simpl in Hs. split_and!; try done. lia.
    + pose proof (weight_insert ws i _ (WorkerBusy task) Hi) as Hs. simpl in Hs. split_and!; try done. lia.
  - exists (PProcessed i). simpl. unfold worker_done, work_left. simpl. rewrite Hi. eexists.
    split; [by exists i; right|]. split; [done|]. simpl.
    pose proof (weight_insert ws i _ WorkerIdle Hi) as Hs. simpl in Hs. split_and!; try done. lia.
Qed.

Lemma someone_left ws : Forall (λ w, w = WorkerGone) ws ∨ ∃ i w, ws !! i = Some w ∧ w ≠ WorkerGone.
Proof.
  induction ws as [|w ws [IH|(i & w' & Hi & Hw)]]; [by left| |by right; exists (S i), w'].
  destruct w; [by right; exists 0%nat, WorkerIdle | by right; exists 0%nat, (WorkerBusy task) | left; by constructor].
Qed.

Lemma workers_finish config s : wsc_closed (wpr_scheduler s) = true →
  ∃ es s', Forall is_turn es ∧ warmer_run config es s = Some s' ∧
    Forall (λ w, w = WorkerGone) (wpr_workers s') ∧ wpr_accepted s' = wpr_accepted s ∧
    wpr_goroutine s' = wpr_goroutine s.
Proof.
  remember (work_left s) as n eqn:En. revert s En. induction n as [n IH] using lt_wf_ind. intros s En Hcl.
  destruct (someone_left (wpr_workers s)) as [Hall|(i & w & Hi & Hw)].
  - exists [], s. by split_and!.
  - destruct (worker_progress config s i w Hcl Hi Hw) as (e & s1 & He & Hs & Hlt & Hcl1 & Hac & Hg).
    destruct (IH (work_left s1) ltac:(lia) s1 eq_refl Hcl1) as (es & s' & Hes & Hr & Hall & Hac' & Hg').
    exists (e :: es), s'. split; [by constructor|]. simpl. rewrite Hs. split; [done|].
    split; [done|]. split; congruence.
Qed.

(** ** The main results *)

(** Stopping the permission cache warmer loses no task.  In every reachable
    state the tasks the queue took are processed, in a worker's hands or
    queued, and the ticker never ticks; once a started warmer has been stopped
    its workers can always go on until the queue is empty and all of them have
    returned, and then every task ever accepted has been processed. *)
Theorem stopped_warmer_drains config es s :
  warmer_run config es NewPermissionCacheWarmer = Some s →
  (∀ now, tick (wpr_ticker s) now = None) ∧
  wpr_accepted s ≡ₚ wpr_processed s ++ busy_tasks (wpr_workers s) ++ warmingQueue (wpr_scheduler s) ∧
  (wsc_closed (wpr_scheduler s) = true → wpr_goroutine s ≠ NotStarted →
   ∃ es' s', Forall is_turn es' ∧ warmer_run config es' s = Some s' ∧
     Forall (λ w, w = WorkerGone) (wpr_workers s') ∧ wpr_accepted s ≡ₚ wpr_processed s').
Proof.
  intros Hr. pose proof (warmer_run_ok _ _ _ _ Hr process_ok_new) as Hok.
  split; [apply Hok|]. split; [apply Hok|]. intros Hcl Hg.
  destruct (workers_finish config s Hcl) as (es' & s' & Hes & Hr' & Hall & Hac & Hg').
  pose proof (warmer_run_ok _ _ _ _ Hr' Hok) as [Ht _ Hgone _ Hw _].
  exists es', s'. split_and!; try done. rewrite <- Hac, Ht.
  assert (busy_tasks (wpr_workers s') = []) as ->.
  { clear -Hall. induction Hall as [|w ws -> _ IH]; [done | exact IH]. }
  destruct (wpr_workers s') as [|w ws] eqn:Ews.
  - rewrite Hg' in Hw. by destruct (wpr_goroutine s).
  - inversion Hall; subst. destruct Hgone as [-> _]; [left|]. by rewrite !app_nil_r.
Qed.

(** The authentication service starts with its pools running: five hashing
    workers, ten for warming and three for the audit, all idle. *)
Theorem auth_service_starts : ∃ m, NewAuthService = (no_auth_metrics, Some m) ∧
  wp_workers (php_pool (sm_passwordPool m)) = replicate 5 Idle ∧
  wp_workers (cwp_pool (sm_cachePool m)) = replicate 10 Idle ∧
  wp_workers (alp_pool (sm_auditPool m)) = replicate 3 Idle.
Proof. eexists. by split_and!. Qed.

(** ** Examples *)

Definition demo_warming (u : N) : WarmingTask := mkWarmingTask u [] 0 0.
Definition stopped_events : list warmer_event :=
  [PStart 0; PEnqueue (demo_warming 1); PEnqueue (demo_warming 2); PReceive 0; PStop; PLoopStop; PStopped].
Definition stopped_warmer : WarmerProcess :=
  default NewPermissionCacheWarmer (warmer_run warmer_config stopped_events NewPermissionCacheWarmer).
Lemma stopped_warmer_run : warmer_run warmer_config stopped_events NewPermissionCacheWarmer = Some stopped_warmer.
Proof. vm_compute. reflexivity. Qed.

Example stopped_warmer_drains_witness : ∃ es' s', Forall is_turn es' ∧
  warmer_run warmer_config es' stopped_warmer = Some s' ∧
  Forall (λ w, w = WorkerGone) (wpr_workers s') ∧ [demo_warming 1; demo_warming 2] ≡ₚ wpr_processed s'.
Proof.
  destruct (stopped_warmer_drains warmer_config stopped_events stopped_warmer stopped_warmer_run) as (_ & _ & Hd).
  apply Hd; [vm_compute; reflexivity | vm_compute; discriminate].
Defined.
(** A task offered after the queue is closed is a panic of the caller. *)
Example offer_after_stop_panics : wpr_panics (enqueue (demo_warming 3) stopped_warmer) = 1%nat.
Proof. vm_compute. reflexivity. Qed.
